(* ===== verification/_CoqProject ===== *)
-Q . S2P
Prelude.v
KList.v
KListSort.v
Bitmap.v
CString.v
Bytes.v
Disk.v
Cache.v
FsState.v
Inode.v
InodeIO.v
FreeMap.v
Grow.v
InodeWrite.v
InodeLife.v
Directory.v
DirSpec.v
PathSpec.v
KernelTheorems.v
FsTheorems.v
DirTheorems.v
Threads.v
SchedInv.v
SchedOps.v
SchedSteps.v
ThreadTheorems.v
Arithmetic.v
CStdlib.v
Stdio.v
LibTheorems.v
Hash.v
HashTheorems.v
Palloc.v
PageDir.v
PageOps.v
PageLife.v
MemTheorems.v
Swap.v
Random.v
Vm.v
VmInv.v
VmOps.v
VmPages.v
VmStore.v
VmFault.v
VmLoad.v
Loader.v
VmFiles.v
VmTheorems.v
LoaderSpec.v
LoaderTheorems.v
Malloc.v
MallocInv.v
MallocOps.v
MallocLive.v
MallocCalls.v
MallocSpec.v
MallocTheorems.v
Findings.v
