(* ===== verification/Prelude.v ===== *)
(** * The Pintos kernel

    A verification of the Pintos teaching kernel (32-bit x86, C) with a file
    system that has growing files, directories and a buffer cache.  Sources
    are named relative to [src/pintos/src].

    ** The program and its model

    - Kernel library.  [KList], [KListSort]: the doubly linked lists of
      [lib/kernel/list.c] on a heap of linked cells, every operation including
      the in-place merge sort.  [Bitmap]: [lib/kernel/bitmap.c] on its 32-bit
      words.  [CString]: [lib/string.c] on a flat memory of bytes.
      [Arithmetic]: the 64-bit division of [lib/arithmetic.c].  [CStdlib]:
      [lib/stdlib.c] (number parsing, heap sort, binary search).  [Stdio]:
      [lib/stdio.c], the interpretation of format strings and [snprintf].
      [Hash]: the chained hash tables of [lib/kernel/hash.c] on the lists.
      [Random]: the generator of [lib/random.c] and the cipher of
      [tests/arc4.c].
    - File system.  [Bytes], [Disk]: the disk as an array of sectors.
      [Cache]: the buffer cache of [filesys/cache.c].  [FsState]: the state
      the modules share.  [Inode]: [filesys/inode.c], [filesys/free-map.c],
      [filesys/file.c].  [Directory]: [filesys/directory.c] and
      [filesys/filesys.c].
    - Threads.  [Threads]: [threads/thread.c], [threads/synch.c], the clock
      of [devices/timer.c] and the interrupt entry of [threads/interrupt.c].
      A thread that is not running is its saved frames, the calls it will
      return through; a context switch changes the running thread.
    - Memory.  [Palloc]: the page allocator of [threads/palloc.c] and the
      address arithmetic of [threads/vaddr.h].  [PageDir]: the page tables of
      [userprog/pagedir.c] and [threads/pte.h], as words of memory, with cr3
      and the translation buffer of the processor.  [Malloc]: the block
      allocator of [threads/malloc.c], its arenas in pages of the page
      allocator.  [Swap]: [vm/swap.c].
      [Vm]: the frame table of [vm/frame.c], the supplemental page tables of
      [vm/page.c], the page fault handler of [userprog/exception.c], and
      [load_segment], [mmap] and [munmap], above all of these and above any
      file system with the operations of [Vm.FileOps].
    - Processes.  [Loader]: [load] of [userprog/process.c], with the headers of
      the executable, its segments and the stack of arguments.

    Every function is a command of the monad [M]: it returns a value and a new
    state, stops the machine ([Panic]: a failed [ASSERT]), is undefined
    ([Undef]: an access outside every object) or has run out of its loop bound
    ([NoFuel]).  Integers are [Z], wrapped with [u32], [s32], [u64], [s64]
    where the C type is narrower than the value can be.

    ** The theorems

    [wp m Q s] says that [m], run from [s], returns, with a result and state
    in [Q]: it excludes panics, undefined behaviour and exhausted bounds.

    - [KernelTheorems]: lists (stable sorting, ordered insertion, splicing, reversal,
      queues), bitmaps (scanning, setting and counting ranges), the buffer
      cache as an array of sectors under any sequence of operations.
    - [InodeIO], [FreeMap], [Grow], [InodeWrite], [InodeLife] lead to
      [FsTheorems]: files as byte strings (reading, writing with growth,
      creating, opening, closing) above any allocator that keeps the
      interface [Allocator], which the free map is shown to keep; errors.
    - [DirSpec], [PathSpec] lead to [DirTheorems]: directories as maps from
      names to sectors, reading a directory, the last component of a path.
    - [SchedInv], [SchedOps], [SchedSteps] lead to [ThreadTheorems]: the
      scheduler's invariant, mutual exclusion of locks and no lost wake-up
      over all interleavings of calls and timer interrupts, the choice of the
      next thread and the wake-up of sleepers.
    - [LibTheorems]: division, sorting, searching, printing.
      [HashTheorems]: hash tables as sets, through every rehash.  [Random]:
      the generator is RC4, and decryption undoes encryption.
    - [PageOps], [PageLife] lead to [MemTheorems]: the page allocator hands
      out disjoint pages; address spaces refine maps from pages to frames,
      and the translation buffer is never stale.  [Swap]: pages come back
      from the disk as they went out.
    - [MallocInv], [MallocOps], [MallocLive], [MallocCalls], [MallocSpec] lead
      to [MallocTheorems]: any client that keeps to its own blocks sees an
      allocator of disjoint blocks that keep their bytes, and all pages go
      back to the pool when no block is in use.
    - [VmInv], [VmOps], [VmPages], [VmStore], [VmFault], [VmLoad] lead to
      [VmTheorems]: frames,
      files and swap slots together are a private memory for every process,
      through any interleaving of faults, evictions, accesses and switches;
      faults on pages that exist are resolved, others end the process.  The
      proofs use the file system only through the promises of
      [VmInv.FileLaws], which [VmFiles] shows the inodes to keep.
    - [LoaderSpec] leads to [LoaderTheorems]: accepted segments are pages of
      user memory with the bytes the ELF format prescribes, and [main] finds
      its arguments on the stack.
    - [Findings]: places where the code does not do what its comments or its
      callers expect, each run on a concrete state.

    ** Bounds

    Loops over a list or a string take the number of cells or bytes in memory
    as their bound, and the theorems show that this is enough; the loops of
    the file system are bounded by the number of bytes or sectors asked for.
    [free_map_allocate] and the write of the map's own file call each other;
    the map's file never grows, so a depth of two suffices.

    ** Assumptions

    What is in uninitialised memory is a parameter ([uninit]), and so is the
    answer of an allocation that may fail.  The growth theorems cover one call
    that stays within a leaf of the doubly indirect level; [Findings] shows
    what happens beyond.  They, and what rests on growth ([inode_create],
    [dir_add]), also have the hypothesis [FreeMap.no_stale], that no free
    sector is in the buffer cache.  All operations of the theorems keep it,
    but the code does not keep it when it removes a file: the released sectors
    stay cached, and growth clears new sectors past the cache.
    [Findings.Files] runs what follows, old bytes in a new file.  The theorem
    about the timer interrupt assumes that [wakeup_call_time] is not later
    than any sleeper's time, which the interrupt keeps and a preempted
    [timer_sleep] breaks ([Findings.Sleeping]).

    ** Not modelled

    Device registers and their protocols ([devices/disk.c] below the sector
    interface, [devices/vga.c], [devices/serial.c], [devices/kbd.c]), the boot
    code and descriptor tables ([threads/init.c], [threads/loader.S],
    [userprog/gdt.c], [userprog/tss.c]), the entry of a system call and the
    exit of a process ([userprog/process.c], [userprog/syscall.c]: they move
    values between the stack and the registers of user programs) and the
    input queue ([devices/intq.c], [devices/input.c], filled by the interrupt
    handlers of devices).  The components that allocate blocks take the answer
    of [malloc] as a parameter: they run above any allocator. *)
From Stdlib Require Import ZArith Lia.
From stdpp Require Import base tactics option numbers list gmap.

Open Scope Z_scope.

(** * Outcomes of C code

    A call either returns a value, stops the machine through [PANIC] (a
    failed [ASSERT] included: [lib/debug.h] expands it to [PANIC]), has
    undefined behaviour (an access outside every object, a null dereference),
    or the model's loop bound was too small.  The last is an artefact of the
    model; every theorem that says what a call returns excludes it. *)
Inductive outcome (A : Type) : Type :=
| Ok (a : A)
| Panic
| Undef
| NoFuel.
Arguments Ok {A} a.
Arguments Panic {A}.
Arguments Undef {A}.
Arguments NoFuel {A}.

(** A command over the state [S] with a result in [A]. *)
Definition M (S A : Type) : Type := S → outcome (A * S).

#[global] Instance M_ret S : MRet (M S) := λ A a s, Ok (a, s).
#[global] Instance M_bind S : MBind (M S) := λ A B k m s,
  match m s with
  | Ok (a, s') => k a s'
  | Panic => Panic
  | Undef => Undef
  | NoFuel => NoFuel
  end.

Definition get {S} : M S S := λ s, Ok (s, s).
Definition put {S} (s' : S) : M S unit := λ _, Ok (tt, s').
Definition gets {S A} (f : S → A) : M S A := λ s, Ok (f s, s).
Definition modify {S} (f : S → S) : M S unit := λ s, Ok (tt, f s).
Definition panic {S A} : M S A := λ _, Panic.
Definition undef {S A} : M S A := λ _, Undef.
Definition no_fuel {S A} : M S A := λ _, NoFuel.

(** [ASSERT (CONDITION)] of [lib/debug.h], compiled without [NDEBUG]. *)
Definition ASSERT {S} (b : bool) : M S unit := if b then mret tt else panic.

(** A read that is undefined behaviour when the location is not there. *)
Definition deref {S A} (o : option A) : M S A :=
  match o with Some a => mret a | None => undef end.

(** A C loop: [body] either goes on with new values of the loop's local
    variables ([inl]) or leaves the loop with a result ([inr]). *)
Fixpoint loop {S X Y} (fuel : nat) (body : X → M S (X + Y)) (x : X) : M S Y :=
  match fuel with
  | O => no_fuel
  | Datatypes.S fuel' =>
      r ← body x;
      match r with
      | inl x' => loop fuel' body x'
      | inr y => mret y
      end
  end.

(** [for (i = start; ...; i++)] with [n] iterations. *)
Fixpoint for_upto {S} (n : nat) (i : Z) (body : Z → M S unit) : M S unit :=
  match n with
  | O => mret tt
  | Datatypes.S n' => body i;; for_upto n' (i + 1) body
  end.

(** The same with a [return] in the body. *)
Fixpoint for_return {S R} (n : nat) (i : Z) (body : Z → M S (option R)) : M S (option R) :=
  match n with
  | O => mret None
  | Datatypes.S n' =>
      r ← body i;
      match r with
      | Some x => mret (Some x)
      | None => for_return n' (i + 1) body
      end
  end.

(** A command on one component of the state. *)
Definition zoom {S T A} (view : S → T) (update : T → S → S) (m : M T A) : M S A :=
  λ s, match m (view s) with
       | Ok (a, t) => Ok (a, update t s)
       | Panic => Panic
       | Undef => Undef
       | NoFuel => NoFuel
       end.

(** * Total-correctness reasoning

    [wp m Q s]: run from [s], the command returns, and its result and final
    state satisfy [Q].  Panics, undefined behaviour and exhausted loop bounds
    all make it false. *)
Definition wp {S A} (m : M S A) (Q : A → S → Prop) (s : S) : Prop :=
  match m s with Ok (a, s') => Q a s' | _ => False end.

Section wp.
Context {S : Type}.
Implicit Types s : S.

Lemma wp_ok {A} (m : M S A) Q s :
  wp m Q s ↔ ∃ a s', m s = Ok (a, s') ∧ Q a s'.
Proof.
  unfold wp. destruct (m s) as [[a s']| | |]; [|naive_solver..].
  split; [eauto|]. by intros (a' & s'' & [= -> ->] & ?).
Qed.

Lemma wp_ret {A} (a : A) Q s : wp (mret a) Q s ↔ Q a s.
Proof. done. Qed.

Lemma wp_bind {A B} (m : M S A) (k : A → M S B) Q s :
  wp (m ≫= k) Q s ↔ wp m (λ a s', wp (k a) Q s') s.
Proof. unfold wp, mbind, M_bind. by destruct (m s) as [[a s']| | |]. Qed.

Lemma wp_mono {A} (m : M S A) (P Q : A → S → Prop) s :
  wp m P s → (∀ a s', P a s' → Q a s') → wp m Q s.
Proof. unfold wp. destruct (m s) as [[a s']| | |]; naive_solver. Qed.

Lemma wp_conj {A} (m : M S A) (P Q : A → S → Prop) s :
  wp m P s → wp m Q s → wp m (λ a s', P a s' ∧ Q a s') s.
Proof. unfold wp. destruct (m s) as [[a s']| | |]; naive_solver. Qed.

Lemma wp_get Q s : wp get Q s ↔ Q s s.
Proof. done. Qed.
Lemma wp_put s' Q s : wp (put s') Q s ↔ Q tt s'.
Proof. done. Qed.
Lemma wp_gets {A} (f : S → A) Q s : wp (gets f) Q s ↔ Q (f s) s.
Proof. done. Qed.
Lemma wp_modify f Q s : wp (modify f) Q s ↔ Q tt (f s).
Proof. done. Qed.
Lemma wp_panic {A} (Q : A → S → Prop) s : wp panic Q s ↔ False.
Proof. done. Qed.
Lemma wp_undef {A} (Q : A → S → Prop) s : wp undef Q s ↔ False.
Proof. done. Qed.
Lemma wp_ASSERT b Q s : wp (ASSERT b) Q s ↔ b = true ∧ Q tt s.
Proof. destruct b; unfold wp; simpl; naive_solver. Qed.
Lemma wp_deref {A} (o : option A) Q s :
  wp (deref o) Q s ↔ ∃ a, o = Some a ∧ Q a s.
Proof. destruct o; unfold wp; simpl; naive_solver. Qed.

(** The loop rule: an invariant [I] over the locals and the state, indexed by
    a bound on the number of further iterations. *)
Lemma wp_loop {X Y} (I : nat → X → S → Prop)
    (body : X → M S (X + Y)) (Q : Y → S → Prop) :
  (∀ k x s, I k x s →
     wp (body x) (λ r s', match r with
                          | inl x' => ∃ k', (k' < k)%nat ∧ I k' x' s'
                          | inr y => Q y s'
                          end) s) →
  ∀ fuel k x s, I k x s → (k < fuel)%nat → wp (loop fuel body x) Q s.
Proof.
  intros Hbody fuel. induction fuel as [|fuel IH]; intros k x s HI Hk; [lia|].
  simpl. rewrite wp_bind. eapply wp_mono; [by eapply Hbody|].
  intros [x'|y] s' Hr; [|done]. destruct Hr as (k' & ? & HI').
  eapply IH; [done|lia].
Qed.

(** One turn of a loop. *)
Lemma wp_loop_turn {X Y} n (body : X → M S (X + Y)) x (Q : Y → S → Prop) s :
  wp (body x) (λ r s', match r with
                       | inl x' => wp (loop n body x') Q s'
                       | inr y => Q y s'
                       end) s →
  wp (loop (Datatypes.S n) body x) Q s.
Proof.
  intros H. simpl. rewrite wp_bind. eapply wp_mono; [exact H|]. by intros [x'|y] s'.
Qed.

Lemma wp_for_upto (I : Z → S → Prop) (body : Z → M S unit) n i s :
  (∀ j s, i ≤ j < i + Z.of_nat n → I j s → wp (body j) (λ _, I (j + 1)) s) →
  I i s → wp (for_upto n i body) (λ _, I (i + Z.of_nat n)) s.
Proof.
  revert i s. induction n as [|n IH]; intros i s Hbody HI; simpl.
  - by rewrite wp_ret, Z.add_0_r.
  - rewrite wp_bind. eapply wp_mono; [apply Hbody; [lia|done]|].
    intros a s' HI'. cbn beta in HI'.
    replace (i + Z.of_nat (Datatypes.S n)) with (i + 1 + Z.of_nat n) by lia.
    apply IH; [|done]. intros j s'' Hj. apply Hbody. lia.
Qed.

Lemma wp_for_return {R} (I : Z → S → Prop) (Q : option R → S → Prop)
    (body : Z → M S (option R)) n i s :
  (∀ j s, i ≤ j < i + Z.of_nat n → I j s →
     wp (body j) (λ r s', match r with
                          | Some _ => Q r s'
                          | None => I (j + 1) s'
                          end) s) →
  (∀ s, I (i + Z.of_nat n) s → Q None s) →
  I i s → wp (for_return n i body) Q s.
Proof.
  revert i s. induction n as [|n IH]; intros i s Hbody HQ HI; simpl.
  - rewrite wp_ret. apply HQ. by rewrite Z.add_0_r.
  - rewrite wp_bind. eapply wp_mono; [apply Hbody; [lia|done]|].
    intros [r|] s' Hr; [by rewrite wp_ret|]. apply IH; [| |done].
    + intros j s'' Hj. apply Hbody. lia.
    + intros s''. replace (i + 1 + Z.of_nat n) with (i + Z.of_nat (Datatypes.S n)) by lia.
      apply HQ.
Qed.

(** A command whose outcome is known is replaced by it. *)
Lemma wp_step {A B} (m : M S A) (k : A → M S B) Q s a s' :
  m s = Ok (a, s') → wp (k a) Q s' → wp (m ≫= k) Q s.
Proof. intros Hm Hk. rewrite wp_bind. unfold wp at 1. by rewrite Hm. Qed.

Lemma bind_ok {A B} (m : M S A) (k : A → M S B) s a s' :
  m s = Ok (a, s') → (m ≫= k) s = k a s'.
Proof. intros Hm. unfold mbind, M_bind. by rewrite Hm. Qed.

Lemma bind_panic {A B} (m : M S A) (k : A → M S B) s :
  m s = Panic → (m ≫= k) s = Panic.
Proof. intros Hm. unfold mbind, M_bind. by rewrite Hm. Qed.
End wp.

Lemma wp_zoom {S T A} (view : S → T) update (m : M T A) Q (s : S) :
  wp (zoom view update m) Q s ↔ wp m (λ a t, Q a (update t s)) (view s).
Proof. unfold wp, zoom. by destruct (m (view s)) as [[a t]| | |]. Qed.

Create Rewrite HintDb wp.
#[export] Hint Rewrite @wp_bind @wp_ret @wp_get @wp_put @wp_gets @wp_modify
  @wp_ASSERT @wp_deref @wp_panic @wp_undef @wp_zoom : wp.

#[global] Opaque wp.

(** Unfolds the monad's primitives in a [wp] goal. *)
Ltac wp_simpl := autorewrite with wp.

(** Focuses a [wp] goal on its first command, without unfolding it. *)
Ltac wp_unbind :=
  cbn beta;
  repeat lazymatch goal with
  | |- wp (mbind _ _) _ _ => apply (proj2 (wp_bind _ _ _ _)); cbn beta
  end.

(** Runs the state primitives at the front of a [wp] goal. *)
Ltac wp_go :=
  wp_unbind;
  repeat (lazymatch goal with
  | |- wp get _ _ => apply (proj2 (wp_get _ _))
  | |- wp (put _) _ _ => apply (proj2 (wp_put _ _ _))
  | |- wp (gets _) _ _ => apply (proj2 (wp_gets _ _ _))
  | |- wp (modify _) _ _ => apply (proj2 (wp_modify _ _ _))
  | |- wp (mret _) _ _ => apply (proj2 (wp_ret _ _ _))
  | |- wp (deref (Some ?a)) _ _ => apply (proj2 (wp_ret a _ _))
  | |- wp (ASSERT true) _ _ => apply (proj2 (wp_ret tt _ _))
  end; wp_unbind).

(** Discharges a leading [ASSERT] with the tactic [tac]. *)
Tactic Notation "wp_assert" tactic(tac) :=
  wp_go; apply (proj2 (wp_ASSERT _ _ _)); split; [solve [tac]|wp_go].

(** * Machine integers: [unsigned], [size_t], [disk_sector_t] (32 bits) and
    the two's-complement reading of a 32-bit word ([int], [off_t]). *)
Definition u32 (z : Z) : Z := z mod 2 ^ 32.
Definition s32 (z : Z) : Z := (z + 2 ^ 31) mod 2 ^ 32 - 2 ^ 31.
Definition is_u32 (z : Z) : Prop := 0 ≤ z < 2 ^ 32.
Definition is_s32 (z : Z) : Prop := - 2 ^ 31 ≤ z < 2 ^ 31.

Lemma u32_id z : is_u32 z → u32 z = z.
Proof. unfold is_u32, u32. intros. apply Z.mod_small. lia. Qed.
Lemma s32_id z : is_s32 z → s32 z = z.
Proof. unfold is_s32, s32. intros. rewrite Z.mod_small; lia. Qed.
Lemma u32_range z : is_u32 (u32 z).
Proof. unfold is_u32, u32. apply Z.mod_pos_bound. lia. Qed.

(** [lib/round.h]; both macros are used on nonnegative values only. *)
Definition DIV_ROUND_UP (x step : Z) : Z := (x + step - 1) / step.

(** The bits of a 32-bit word. *)
Lemma is_u32_bits z :
  is_u32 z ↔ 0 ≤ z ∧ ∀ j, 32 ≤ j → Z.testbit z j = false.
Proof.
  split.
  - intros Hz. pose proof Hz as [? ?]. split; [lia|]. intros j Hj.
    rewrite <-(u32_id z Hz). unfold u32. by rewrite Z.mod_pow2_bits_high by lia.
  - intros [H0 Hj]. replace z with (z mod 2 ^ 32).
    + apply u32_range.
    + apply Z.bits_inj'. intros j ?. destruct (Z.lt_ge_cases j 32).
      * by rewrite Z.mod_pow2_bits_low.
      * by rewrite Z.mod_pow2_bits_high, Hj by lia.
Qed.

Lemma is_u32_lor a b : is_u32 a → is_u32 b → is_u32 (Z.lor a b).
Proof.
  rewrite !is_u32_bits. intros [? Ha] [? Hb]. split; [by apply Z.lor_nonneg|].
  intros j Hj. by rewrite Z.lor_spec, Ha, Hb.
Qed.
Lemma is_u32_land a b : is_u32 a → is_u32 (Z.land a b).
Proof.
  rewrite !is_u32_bits. intros [? Ha]. split; [apply Z.land_nonneg; auto|].
  intros j Hj. by rewrite Z.land_spec, Ha.
Qed.
Lemma is_u32_lxor a b : is_u32 a → is_u32 b → is_u32 (Z.lxor a b).
Proof.
  rewrite !is_u32_bits. intros [? Ha] [? Hb]. split; [by apply Z.lxor_nonneg|].
  intros j Hj. by rewrite Z.lxor_spec, Ha, Hb.
Qed.

(** The elements of a list without its [k]-th. *)
Lemma elem_of_delete_1 {A} (l : list A) k x :
  x ∈ delete k l → ∃ j, j ≠ k ∧ l !! j = Some x.
Proof.
  intros [j Hj]%list_elem_of_lookup. destruct (decide (j < k)%nat).
  - exists j. rewrite list_lookup_delete_lt in Hj by lia. split; [lia|done].
  - exists (Datatypes.S j). rewrite list_lookup_delete_ge in Hj by lia. split; [lia|done].
Qed.
Lemma elem_of_delete_2 {A} (l : list A) k j x :
  l !! j = Some x → j ≠ k → x ∈ delete k l.
Proof.
  intros Hj Hne. apply list_elem_of_lookup. destruct (decide (j < k)%nat).
  - exists j. by rewrite list_lookup_delete_lt by lia.
  - exists (pred j). rewrite list_lookup_delete_ge by lia. by replace (Datatypes.S (pred j)) with j by lia.
Qed.

(** Filters that keep everything and nothing. *)
Lemma filter_all {A} (P : A → Prop) `{∀ x, Decision (P x)} l : Forall P l → filter P l = l.
Proof.
  induction 1 as [|x l Hx _ IH]; [done|]. by rewrite filter_cons, decide_True, IH.
Qed.

Lemma filter_none {A} (P : A → Prop) `{∀ x, Decision (P x)} l : Forall (λ x, ¬ P x) l → filter P l = [].
Proof.
  induction 1 as [|x l Hx _ IH]; [done|]. by rewrite filter_cons, decide_False.
Qed.
