(* ===== verification/KList.v ===== *)
(** The kernel's doubly linked lists ([lib/kernel/list.c], [list.h]).

    The state is the memory that holds the [struct list_elem]s, addressed by
    32-bit addresses; every list of the kernel lives in the same memory, so
    aliasing between lists is explicit.  A [struct list] at address [l] has
    its [head] element at [l] and its [tail] element at [l + 8].

    Operations are translated statement by statement; loops take a bound
    [fuel] on their number of iterations, and the theorems say which bound is
    enough (one more than the length of the list).  The abstract view of a
    list is the sequence of addresses of its interior elements ([is_list]). *)
From Stdlib Require Import ZArith Lia.
From stdpp Require Import base tactics option list gmap sorting.
From S2P Require Import Prelude.

Open Scope Z_scope.

Definition NULL : Z := 0.

(** [struct list_elem]. *)
Record list_elem := mk_elem { prev : Z; next : Z }.

Abbreviation heap := (gmap Z list_elem).

(** [&list->head], [&list->tail]: the two members of [struct list]. *)
Definition head_of (l : Z) : Z := l.
Definition tail_of (l : Z) : Z := l + 8.

Module Ops.

(** [elem->prev], [elem->next] as rvalues and as assignment targets. *)
Definition load (e : Z) : M heap list_elem :=
  h ← get; deref ((h : heap) !! e).
Definition get_prev (e : Z) : M heap Z := x ← load e; mret (prev x).
Definition get_next (e : Z) : M heap Z := x ← load e; mret (next x).
Definition set_prev (e p : Z) : M heap unit :=
  x ← load e; modify (λ h : heap, <[e := mk_elem p (next x)]> h).
Definition set_next (e n : Z) : M heap unit :=
  x ← load e; modify (λ h : heap, <[e := mk_elem (prev x) n]> h).

(** C's short-circuit [||]. *)
Definition orM (a b : M heap bool) : M heap bool :=
  x ← a; if x : bool then mret true else b.

Definition is_head (elem : Z) : M heap bool :=
  if elem =? NULL then mret false else
  x ← load elem; mret ((prev x =? NULL) && negb (next x =? NULL)).

Definition is_interior (elem : Z) : M heap bool :=
  if elem =? NULL then mret false else
  x ← load elem; mret (negb (prev x =? NULL) && negb (next x =? NULL)).

Definition is_tail (elem : Z) : M heap bool :=
  if elem =? NULL then mret false else
  x ← load elem; mret (negb (prev x =? NULL) && (next x =? NULL)).

Definition list_init (list : Z) : M heap unit :=
  ASSERT (negb (list =? NULL));;
  set_prev (head_of list) NULL;;
  set_next (head_of list) (tail_of list);;
  set_prev (tail_of list) (head_of list);;
  set_next (tail_of list) NULL.

Definition list_begin (list : Z) : M heap Z :=
  ASSERT (negb (list =? NULL));;
  get_next (head_of list).

Definition list_next (elem : Z) : M heap Z :=
  b ← orM (is_head elem) (is_interior elem);
  ASSERT b;;
  get_next elem.

Definition list_end (list : Z) : M heap Z :=
  ASSERT (negb (list =? NULL));;
  mret (tail_of list).

Definition list_rbegin (list : Z) : M heap Z :=
  ASSERT (negb (list =? NULL));;
  get_prev (tail_of list).

Definition list_prev (elem : Z) : M heap Z :=
  b ← orM (is_interior elem) (is_tail elem);
  ASSERT b;;
  get_prev elem.

Definition list_rend (list : Z) : M heap Z :=
  ASSERT (negb (list =? NULL));;
  mret (head_of list).

Definition list_head (list : Z) : M heap Z :=
  ASSERT (negb (list =? NULL));;
  mret (head_of list).

Definition list_tail (list : Z) : M heap Z :=
  ASSERT (negb (list =? NULL));;
  mret (tail_of list).

Definition list_insert (before elem : Z) : M heap unit :=
  b ← orM (is_interior before) (is_tail before);
  ASSERT b;;
  ASSERT (negb (elem =? NULL));;
  p ← get_prev before;
  set_prev elem p;;
  set_next elem before;;
  q ← get_prev before;
  set_next q elem;;
  set_prev before elem.

Definition list_splice (before first last : Z) : M heap unit :=
  b ← orM (is_interior before) (is_tail before);
  ASSERT b;;
  if first =? last then mret tt else
  last ← list_prev last;
  b1 ← is_interior first;
  ASSERT b1;;
  b2 ← is_interior last;
  ASSERT b2;;
  (* first->prev->next = last->next; *)
  fp ← get_prev first; ln ← get_next last; set_next fp ln;;
  (* last->next->prev = first->prev; *)
  ln' ← get_next last; fp' ← get_prev first; set_prev ln' fp';;
  (* first->prev = before->prev; *)
  bp ← get_prev before; set_prev first bp;;
  (* last->next = before; *)
  set_next last before;;
  (* before->prev->next = first; *)
  bp' ← get_prev before; set_next bp' first;;
  (* before->prev = last; *)
  set_prev before last.

Definition list_push_front (list elem : Z) : M heap unit :=
  b ← list_begin list; list_insert b elem.

Definition list_push_back (list elem : Z) : M heap unit :=
  b ← list_end list; list_insert b elem.

Definition list_remove (elem : Z) : M heap Z :=
  b ← is_interior elem;
  ASSERT b;;
  p ← get_prev elem; n ← get_next elem; set_next p n;;
  n' ← get_next elem; p' ← get_prev elem; set_prev n' p';;
  get_next elem.

Definition list_empty (list : Z) : M heap bool :=
  b ← list_begin list; e ← list_end list; mret (b =? e).

Definition list_front (list : Z) : M heap Z :=
  b ← list_empty list;
  ASSERT (negb b);;
  get_next (head_of list).

Definition list_back (list : Z) : M heap Z :=
  b ← list_empty list;
  ASSERT (negb b);;
  get_prev (tail_of list).

Definition list_pop_front (list : Z) : M heap Z :=
  front ← list_front list;
  list_remove front;;
  mret front.

Definition list_pop_back (list : Z) : M heap Z :=
  back ← list_back list;
  list_remove back;;
  mret back.

Definition list_size (fuel : nat) (list : Z) : M heap Z :=
  e ← list_begin list;
  loop fuel (λ '(e, cnt),
    en ← list_end list;
    if e =? en then mret (inr cnt) else
    let cnt := u32 (cnt + 1) in
    e ← list_next e;
    mret (inl (e, cnt))) (e, 0).

(** [swap (&e->prev, &e->next)]: exchanges the two links of one element. *)
Definition swap_links (e : Z) : M heap unit :=
  t ← get_prev e; n ← get_next e; set_prev e n;; set_next e t.

Definition list_reverse (fuel : nat) (list : Z) : M heap unit :=
  empty ← list_empty list;
  if empty : bool then mret tt else
  e ← list_begin list;
  loop fuel (λ e,
    en ← list_end list;
    if e =? en then mret (inr tt) else
    swap_links e;;
    e ← get_prev e;
    mret (inl e)) e;;
  (* swap (&list->head.next, &list->tail.prev); *)
  t ← get_next (head_of list); p ← get_prev (tail_of list);
  set_next (head_of list) p;; set_prev (tail_of list) t;;
  (* swap (&list->head.next->prev, &list->tail.prev->next); *)
  a ← get_next (head_of list); b ← get_prev (tail_of list);
  t ← get_prev a; n ← get_next b;
  set_prev a n;; set_next b t.

Section ordered.
(** [list_less_func] with its auxiliary argument: a comparison of the
    structures two elements are embedded in, which the list code does not
    touch. *)
Variable less : Z → Z → bool.

Definition is_sorted (fuel : nat) (a b : Z) : M heap bool :=
  if a =? b then mret true else
  loop fuel (λ a,
    a ← list_next a;
    if a =? b then mret (inr true) else
    p ← list_prev a;
    if less a p then mret (inr false) else mret (inl a)) a.

Definition find_end_of_run (fuel : nat) (a b : Z) : M heap Z :=
  ASSERT (negb (a =? NULL));;
  ASSERT (negb (b =? NULL));;
  ASSERT (negb (a =? b));;
  loop fuel (λ a,
    a ← list_next a;
    if a =? b then mret (inr a) else
    p ← list_prev a;
    if less a p then mret (inr a) else mret (inl a)) a.

Definition inplace_merge (fuel : nat) (a0 a1b0 b1 : Z) : M heap unit :=
  ASSERT (negb (a0 =? NULL));;
  ASSERT (negb (a1b0 =? NULL));;
  ASSERT (negb (b1 =? NULL));;
  sa ← is_sorted fuel a0 a1b0;
  ASSERT sa;;
  sb ← is_sorted fuel a1b0 b1;
  ASSERT sb;;
  loop fuel (λ '(a0, a1b0),
    if (a0 =? a1b0) || (a1b0 =? b1) then mret (inr tt) else
    if negb (less a1b0 a0) then
      a0 ← list_next a0; mret (inl (a0, a1b0))
    else
      a1b0 ← list_next a1b0;
      p ← list_prev a1b0;
      list_splice a0 p a1b0;;
      mret (inl (a0, a1b0))) (a0, a1b0).

(** One pass of the outer loop of [list_sort]: the [for] loop over pairs of
    runs, with its run counter. *)
Definition sort_pass (fuel : nat) (list : Z) : M heap Z :=
  a0 ← list_begin list;
  loop fuel (λ '(a0, output_run_cnt),
    en ← list_end list;
    if a0 =? en then mret (inr output_run_cnt) else
    let output_run_cnt := u32 (output_run_cnt + 1) in
    en ← list_end list;
    a1b0 ← find_end_of_run fuel a0 en;
    en ← list_end list;
    if a1b0 =? en then mret (inr output_run_cnt) else
    b1 ← find_end_of_run fuel a1b0 en;
    inplace_merge fuel a0 a1b0 b1;;
    mret (inl (b1, output_run_cnt))) (a0, 0).

Definition list_sort (fuel : nat) (list : Z) : M heap unit :=
  ASSERT (negb (list =? NULL));;
  loop fuel (λ _ : unit,
    output_run_cnt ← sort_pass fuel list;
    if 1 <? output_run_cnt then mret (inl tt) else mret (inr tt)) tt;;
  b ← list_begin list;
  en ← list_end list;
  s ← is_sorted fuel b en;
  ASSERT s.

Definition list_insert_ordered (fuel : nat) (list elem : Z) : M heap unit :=
  ASSERT (negb (list =? NULL));;
  ASSERT (negb (elem =? NULL));;
  e ← list_begin list;
  e ← loop fuel (λ e,
    en ← list_end list;
    if e =? en then mret (inr e) else
    if less elem e then mret (inr e) else
    e ← list_next e; mret (inl e)) e;
  list_insert e elem.

(** [duplicates] may be [NULL]. *)
Definition list_unique (fuel : nat) (list duplicates : Z) : M heap unit :=
  ASSERT (negb (list =? NULL));;
  empty ← list_empty list;
  if empty : bool then mret tt else
  elem ← list_begin list;
  loop fuel (λ elem,
    next ← list_next elem;
    en ← list_end list;
    if next =? en then mret (inr tt) else
    if negb (less elem next) && negb (less next elem) then
      list_remove next;;
      (if negb (duplicates =? NULL) then list_push_back duplicates next
       else mret tt);;
      mret (inl elem)
    else mret (inl next)) elem.

Definition list_max (fuel : nat) (list : Z) : M heap Z :=
  max ← list_begin list;
  en ← list_end list;
  if max =? en then mret max else
  e ← list_next max;
  loop fuel (λ '(e, max),
    en ← list_end list;
    if e =? en then mret (inr max) else
    let max := if less max e then e else max in
    e ← list_next e; mret (inl (e, max))) (e, max).

Definition list_min (fuel : nat) (list : Z) : M heap Z :=
  min ← list_begin list;
  en ← list_end list;
  if min =? en then mret min else
  e ← list_next min;
  loop fuel (λ '(e, min),
    en ← list_end list;
    if e =? en then mret (inr min) else
    let min := if less e min then e else min in
    e ← list_next e; mret (inl (e, min))) (e, min).
End ordered.
End Ops.

(** * The representation of a list

    [chain h p c n]: the elements [c] are linked in both directions, with
    [p] before the first and [n] after the last. *)
Definition firstd (d : Z) (c : list Z) : Z :=
  match c with [] => d | x :: _ => x end.

Fixpoint lastd (d : Z) (c : list Z) : Z :=
  match c with [] => d | x :: c' => lastd x c' end.

Fixpoint chain (h : heap) (p : Z) (c : list Z) (n : Z) : Prop :=
  match c with
  | [] => True
  | x :: c' => h !! x = Some (mk_elem p (firstd n c')) ∧ chain h x c' n
  end.

(** All the elements of the list at [l] with interior [xs], headers included. *)
Definition nodes (l : Z) (xs : list Z) : list Z :=
  head_of l :: xs ++ [tail_of l].

(** The list at [l] is well formed in [h] and its interior is [xs]. *)
Definition is_list (h : heap) (l : Z) (xs : list Z) : Prop :=
  chain h NULL (nodes l xs) NULL ∧ NoDup (nodes l xs) ∧ NULL ∉ nodes l xs.

(** [h'] differs from [h] only at the addresses [c]. *)
Definition same_outside (c : list Z) (h h' : heap) : Prop :=
  ∀ a, a ∉ c → h' !! a = h !! a.

Section chain.
Implicit Types (h : heap) (c : list Z).

Lemma firstd_app d c1 c2 : firstd d (c1 ++ c2) = firstd (firstd d c2) c1.
Proof. by destruct c1. Qed.

Lemma lastd_app d c1 c2 : lastd d (c1 ++ c2) = lastd (lastd d c1) c2.
Proof. revert d. by induction c1; simpl. Qed.

Lemma lastd_snoc d c x : lastd d (c ++ [x]) = x.
Proof. by rewrite lastd_app. Qed.

Lemma chain_app h p c1 c2 n :
  chain h p (c1 ++ c2) n ↔
  chain h p c1 (firstd n c2) ∧ chain h (lastd p c1) c2 n.
Proof.
  revert p. induction c1 as [|x c1 IH]; intros p; simpl; [tauto|].
  rewrite IH, firstd_app. tauto.
Qed.

Lemma chain_agree h h' p c n :
  (∀ a, a ∈ c → h' !! a = h !! a) → chain h p c n → chain h' p c n.
Proof.
  revert p. induction c as [|x c IH]; intros p Hag; simpl; [done|].
  intros [Hx Hc]. split; [rewrite Hag; [done|set_solver]|].
  apply IH; [set_solver|done].
Qed.

Lemma chain_insert_ne h p c n x v :
  x ∉ c → chain h p c n → chain (<[x:=v]> h) p c n.
Proof.
  intros Hx. apply chain_agree. intros a Ha.
  apply lookup_insert_ne. set_solver.
Qed.

(** The first (last) element of a chain, with another predecessor
    (successor). *)
Lemma chain_cons_prev h p p' x c n :
  x ∉ c → chain h p (x :: c) n →
  chain (<[x:=mk_elem p' (firstd n c)]> h) p' (x :: c) n.
Proof.
  intros Hx [_ Hc]; split; [apply lookup_insert_eq|].
  by apply chain_insert_ne.
Qed.

Lemma chain_snoc_next h p c x n n' :
  x ∉ c → chain h p (c ++ [x]) n →
  chain (<[x:=mk_elem (lastd p c) n']> h) p (c ++ [x]) n'.
Proof.
  rewrite !chain_app. simpl. intros Hx (Hc & Hl & _).
  split_and!; [by apply chain_insert_ne|apply lookup_insert_eq|done].
Qed.

Lemma chain_lookup h p c1 x c2 n :
  chain h p (c1 ++ x :: c2) n →
  h !! x = Some (mk_elem (lastd p c1) (firstd n c2)).
Proof. rewrite chain_app. intros (_ & H & _). done. Qed.

Lemma chain_elem_of h p c n x :
  chain h p c n → x ∈ c → is_Some (h !! x).
Proof.
  intros Hc (c1 & c2 & ->)%list_elem_of_split.
  apply chain_lookup in Hc. eauto.
Qed.
End chain.

Lemma same_outside_refl c h : same_outside c h h.
Proof. done. Qed.

Lemma same_outside_trans c h1 h2 h3 :
  same_outside c h1 h2 → same_outside c h2 h3 → same_outside c h1 h3.
Proof. intros H1 H2 a Ha. by rewrite H2, H1. Qed.

Lemma same_outside_mono c c' h h' :
  same_outside c h h' → c ⊆ c' → same_outside c' h h'.
Proof. intros H Hc a Ha. apply H. set_solver. Qed.

Lemma same_outside_insert c h x v : x ∈ c → same_outside c h (<[x:=v]> h).
Proof. intros Hx a Ha. apply lookup_insert_ne. set_solver. Qed.

(** A list is untouched by changes outside its nodes. *)
Lemma is_list_frame c h h' l xs :
  same_outside c h h' → (∀ a, a ∈ nodes l xs → a ∉ c) →
  is_list h l xs → is_list h' l xs.
Proof.
  intros Hs Hd (Hc & Hn & H0). split_and!; [|done..].
  eapply chain_agree; [|done]. intros a Ha. apply Hs. auto.
Qed.

(** * Symbolic execution of link accesses *)
Module Exec.
Import Ops.

Lemma wp_load e x Q h : (h : heap) !! e = Some x → Q x h → wp (load e) Q h.
Proof. intros He HQ. unfold load. wp_simpl. eauto. Qed.

Lemma wp_get_prev e x Q h :
  (h : heap) !! e = Some x → Q (prev x) h → wp (get_prev e) Q h.
Proof. intros. unfold get_prev. rewrite wp_bind. eapply wp_load; done. Qed.

Lemma wp_get_next e x Q h :
  (h : heap) !! e = Some x → Q (next x) h → wp (get_next e) Q h.
Proof. intros. unfold get_next. rewrite wp_bind. eapply wp_load; done. Qed.

Lemma wp_set_prev e p x Q h :
  (h : heap) !! e = Some x → Q tt (<[e:=mk_elem p (next x)]> h) →
  wp (set_prev e p) Q h.
Proof. intros. unfold set_prev. rewrite wp_bind. eapply wp_load; done. Qed.

Lemma wp_set_next e n x Q h :
  (h : heap) !! e = Some x → Q tt (<[e:=mk_elem (prev x) n]> h) →
  wp (set_next e n) Q h.
Proof. intros. unfold set_next. rewrite wp_bind. eapply wp_load; done. Qed.

Lemma wp_is_head e p n Q h :
  e ≠ NULL → (h : heap) !! e = Some (mk_elem p n) →
  Q ((p =? NULL) && negb (n =? NULL)) h → wp (is_head e) Q h.
Proof.
  intros He Hl HQ. unfold is_head.
  rewrite (proj2 (Z.eqb_neq _ _) He), wp_bind. by eapply wp_load.
Qed.

Lemma wp_is_interior e p n Q h :
  e ≠ NULL → (h : heap) !! e = Some (mk_elem p n) →
  Q (negb (p =? NULL) && negb (n =? NULL)) h → wp (is_interior e) Q h.
Proof.
  intros He Hl HQ. unfold is_interior.
  rewrite (proj2 (Z.eqb_neq _ _) He), wp_bind. by eapply wp_load.
Qed.

Lemma wp_is_tail e p n Q h :
  e ≠ NULL → (h : heap) !! e = Some (mk_elem p n) →
  Q (negb (p =? NULL) && (n =? NULL)) h → wp (is_tail e) Q h.
Proof.
  intros He Hl HQ. unfold is_tail.
  rewrite (proj2 (Z.eqb_neq _ _) He), wp_bind. by eapply wp_load.
Qed.

(** An element with a predecessor is interior or a tail, one with a successor
    is a head or interior: the two assertions of the traversal functions. *)
Lemma wp_interior_or_tail e p n Q h :
  e ≠ NULL → (h : heap) !! e = Some (mk_elem p n) → p ≠ NULL →
  Q true h → wp (orM (is_interior e) (is_tail e)) Q h.
Proof.
  intros He Hl Hp%Z.eqb_neq HQ. unfold orM. rewrite wp_bind.
  eapply wp_is_interior; [done..|]. rewrite Hp. simpl.
  destruct (n =? NULL) eqn:Hn; simpl; [|done].
  eapply wp_is_tail; [done..|]. by rewrite Hp, Hn.
Qed.

Lemma wp_head_or_interior e p n Q h :
  e ≠ NULL → (h : heap) !! e = Some (mk_elem p n) → n ≠ NULL →
  Q true h → wp (orM (is_head e) (is_interior e)) Q h.
Proof.
  intros He Hl Hp%Z.eqb_neq HQ. unfold orM. rewrite wp_bind.
  eapply wp_is_head; [done..|]. rewrite Hp, andb_true_r.
  destruct (p =? NULL) eqn:Hn; simpl; [done|].
  eapply wp_is_interior; [done..|]. by rewrite Hp, Hn.
Qed.

Lemma wp_not_null e Q (h : heap) :
  e ≠ NULL → Q tt h → wp (ASSERT (negb (e =? NULL))) Q h.
Proof. intros He HQ. rewrite wp_ASSERT. by rewrite (proj2 (Z.eqb_neq _ _) He). Qed.

(** Solves [<[..]> h !! e = Some _] from the lookups in the context. *)
Ltac lk := first
  [ eassumption
  | apply lookup_insert_eq
  | rewrite lookup_insert_ne by congruence; lk ].

(** One statement of a list operation. *)
Ltac hstep :=
  wp_unbind;
  lazymatch goal with
  | |- wp (get_prev _) _ _ => eapply wp_get_prev; [lk|]
  | |- wp (get_next _) _ _ => eapply wp_get_next; [lk|]
  | |- wp (set_prev _ _) _ _ => eapply wp_set_prev; [lk|]
  | |- wp (set_next _ _) _ _ => eapply wp_set_next; [lk|]
  | |- wp (orM (is_interior _) (is_tail _)) _ _ =>
      eapply wp_interior_or_tail; [done|lk|done|]
  | |- wp (orM (is_head _) (is_interior _)) _ _ =>
      eapply wp_head_or_interior; [done|lk|done|]
  | |- wp (ASSERT (negb (_ =? NULL))) _ _ => apply wp_not_null; [done|]
  | |- wp (ASSERT true) _ _ => apply wp_ASSERT; split; [done|]
  | |- wp (mret _) _ _ => apply wp_ret
  end; cbn [prev next].
End Exec.

(** * Rewiring a chain *)
Lemma cons_snoc (x : Z) c : ∃ c1, x :: c = c1 ++ [lastd x c].
Proof.
  revert x. induction c as [|y c IH]; intros x; [by exists []|].
  destruct (IH y) as [c1 Hc]. exists (x :: c1). simpl. f_equal. exact Hc.
Qed.

Lemma snoc_cons (c : list Z) t : ∃ c2, c ++ [t] = firstd t c :: c2.
Proof. destruct c; simpl; eauto. Qed.

(** Two chains become one when the last element [q] of the first and the
    first element [b] of the second are made to point at each other. *)
Lemma chain_join h p c1 q m1 m2 b c2 n :
  NoDup ((c1 ++ [q]) ++ b :: c2) →
  chain h p (c1 ++ [q]) m1 → chain h m2 (b :: c2) n →
  chain (<[b:=mk_elem q (firstd n c2)]> (<[q:=mk_elem (lastd p c1) b]> h))
    p ((c1 ++ [q]) ++ b :: c2) n.
Proof.
  intros (Hn1 & Hd & Hn2)%NoDup_app H1 H2.
  apply NoDup_app in Hn1 as (_ & Hd1 & _). apply NoDup_cons in Hn2 as [Hb _].
  assert (q ∉ b :: c2) as Hq by (apply Hd; set_solver).
  rewrite chain_app, lastd_snoc. split.
  - apply chain_insert_ne; [intros Hin; apply (Hd b); set_solver|].
    eapply chain_snoc_next; [|done]. intros Hin. apply (Hd1 q); set_solver.
  - eapply chain_cons_prev; [done|]. apply chain_insert_ne; [done|]. exact H2.
Qed.

Lemma chain_split h p c1 q b c2 n :
  chain h p ((c1 ++ [q]) ++ b :: c2) n →
  h !! q = Some (mk_elem (lastd p c1) b) ∧ h !! b = Some (mk_elem q (firstd n c2)).
Proof.
  rewrite chain_app, lastd_snoc, chain_app. simpl. tauto.
Qed.

Module Correct.
Import Ops Exec.

(** [is_list] seen around the place between [xs] and [ys]. *)
Lemma is_list_cut h l xs ys :
  is_list h l (xs ++ ys) ↔
  ∃ c1 c2, head_of l :: xs = c1 ++ [lastd (head_of l) xs] ∧
           ys ++ [tail_of l] = firstd (tail_of l) ys :: c2 ∧
    let c := (c1 ++ [lastd (head_of l) xs]) ++ firstd (tail_of l) ys :: c2 in
    chain h NULL c NULL ∧ NoDup c ∧ NULL ∉ c.
Proof.
  destruct (cons_snoc (head_of l) xs) as [c1 H1].
  destruct (snoc_cons ys (tail_of l)) as [c2 H2].
  assert (nodes l (xs ++ ys) =
    (c1 ++ [lastd (head_of l) xs]) ++ firstd (tail_of l) ys :: c2) as Hn.
  { unfold nodes. by rewrite <-H1, <-H2, <-(app_assoc xs). }
  unfold is_list. rewrite Hn. split; [eauto 10|].
  intros (c1' & c2' & H1' & H2' & H). rewrite <-H1', <-H2' in H.
  by rewrite <-H1, <-H2.
Qed.

(** The heap after [list_insert] between adjacent [q] and [b]. *)
Lemma list_insert_exec h q b e p n x Q :
  h !! b = Some (mk_elem q n) → h !! q = Some (mk_elem p b) → h !! e = Some x →
  b ≠ NULL → q ≠ NULL → e ≠ NULL → e ≠ b → e ≠ q → b ≠ q →
  Q tt (<[b:=mk_elem e n]> (<[q:=mk_elem p e]> (<[e:=mk_elem q b]> h))) →
  wp (list_insert b e) Q h.
Proof.
  intros. unfold list_insert. repeat hstep. by rewrite insert_insert_eq.
Qed.

(** The facts about the two elements around a cut that the proofs use. *)
Lemma cut_distinct (c1 : list Z) q b c2 :
  NoDup ((c1 ++ [q]) ++ b :: c2) → NULL ∉ (c1 ++ [q]) ++ b :: c2 →
  (q ∉ c1) ∧ (q ∉ b :: c2) ∧ (b ∉ c1 ++ [q]) ∧ (b ∉ c2) ∧ b ≠ q ∧ q ≠ NULL ∧ b ≠ NULL.
Proof.
  intros (H1 & Hd & [Hb _]%NoDup_cons)%NoDup_app H0.
  apply NoDup_app in H1 as (_ & Hd1 & _).
  assert (q ∉ b :: c2) by (apply Hd; set_solver).
  split_and!; set_solver.
Qed.

Lemma list_insert_ok h l xs ys e :
  is_list h l (xs ++ ys) → e ∉ nodes l (xs ++ ys) → e ≠ NULL → is_Some (h !! e) →
  wp (list_insert (firstd (tail_of l) ys) e)
    (λ _ h', is_list h' l (xs ++ e :: ys) ∧
             same_outside (e :: nodes l (xs ++ ys)) h h') h.
Proof.
  intros (c1 & c2 & H1 & H2 & Hc & Hnd & H0)%is_list_cut He He0 [x Hx].
  assert (nodes l (xs ++ ys) =
    (c1 ++ [lastd (head_of l) xs]) ++ firstd (tail_of l) ys :: c2) as Hn.
  { unfold nodes. by rewrite <-H1, <-H2, <-(app_assoc xs). }
  set (q := lastd (head_of l) xs) in *. set (b := firstd (tail_of l) ys) in *.
  rewrite Hn in *. destruct (chain_split _ _ _ _ _ _ _ Hc) as [Hq Hb].
  destruct (cut_distinct _ _ _ _ Hnd H0) as (Hd1 & Hd2 & Hd3 & Hd4 & ? & ? & ?).
  apply chain_app in Hc as [Hc1 Hc2]. rewrite lastd_snoc in Hc2.
  assert (e ≠ q ∧ e ≠ b ∧ (e ∉ c1 ++ [q]) ∧ (e ∉ b :: c2)) as (? & ? & ? & ?).
  { clear -He. set_solver. }
  eapply list_insert_exec; [exact Hb|exact Hq|exact Hx|done..|].
  assert (nodes l (xs ++ e :: ys) = (c1 ++ [q]) ++ e :: b :: c2) as Hn'.
  { unfold nodes. rewrite <-H1, <-H2. cbn. by rewrite <-!app_assoc. }
  unfold is_list. rewrite Hn'. split_and!.
  - rewrite chain_app, lastd_snoc. split; [|split].
    + apply chain_insert_ne; [done|]. eapply chain_snoc_next; [done|].
      by apply chain_insert_ne.
    + simpl. lk.
    + eapply chain_cons_prev; [done|]. by do 2 (apply chain_insert_ne; [done|]).
  - rewrite <-Permutation_middle. by constructor.
  - clear -H0 He0. set_solver.
  - intros a Ha. rewrite !lookup_insert_ne; clear -Ha; set_solver.
Qed.
(** ** Moving along a list *)
Lemma is_list_nonnull h l xs : is_list h l xs → l ≠ NULL ∧ tail_of l ≠ NULL.
Proof. intros (_ & _ & H0). unfold nodes, head_of in H0. set_solver. Qed.

Lemma is_list_around h l xs ys :
  is_list h l (xs ++ ys) →
  ∃ p n, h !! lastd (head_of l) xs = Some (mk_elem p (firstd (tail_of l) ys)) ∧
         h !! firstd (tail_of l) ys = Some (mk_elem (lastd (head_of l) xs) n) ∧
         lastd (head_of l) xs ≠ NULL ∧ firstd (tail_of l) ys ≠ NULL.
Proof.
  intros (c1 & c2 & _ & _ & Hc & Hnd & H0)%is_list_cut.
  destruct (cut_distinct _ _ _ _ Hnd H0) as (_ & _ & _ & _ & _ & ? & ?).
  apply chain_split in Hc as [? ?]. eauto 10.
Qed.

Lemma is_list_elem h l xs x ys :
  is_list h l (xs ++ x :: ys) →
  h !! x = Some (mk_elem (lastd (head_of l) xs) (firstd (tail_of l) ys)) ∧
  x ≠ NULL ∧ lastd (head_of l) xs ≠ NULL ∧ firstd (tail_of l) ys ≠ NULL.
Proof.
  intros Hl. destruct (is_list_around _ _ _ _ Hl) as (p & n & _ & _ & ? & ?).
  assert (is_list h l ((xs ++ [x]) ++ ys)) as Hl' by by rewrite <-app_assoc.
  destruct (is_list_around _ _ _ _ Hl') as (p' & n' & _ & _ & _ & ?).
  destruct Hl as (Hc & _ & _). unfold nodes in Hc.
  assert (head_of l :: (xs ++ x :: ys) ++ [tail_of l] =
          (head_of l :: xs) ++ x :: ys ++ [tail_of l]) as E
    by (simpl; by rewrite <-app_assoc).
  rewrite E in Hc. apply chain_lookup in Hc.
  rewrite firstd_app in Hc. done.
Qed.

Lemma firstd_eqb_tail h l xs ys :
  is_list h l (xs ++ ys) →
  (firstd (tail_of l) ys =? tail_of l) = match ys with [] => true | _ => false end.
Proof.
  intros (_ & Hn & _). destruct ys as [|y ys]; [apply Z.eqb_refl|]. simpl.
  apply Z.eqb_neq. intros ->. unfold nodes in Hn.
  rewrite <-app_assoc in Hn. apply NoDup_cons in Hn as [_ Hn].
  apply NoDup_app in Hn as (_ & _ & [Hn _]%NoDup_cons). set_solver.
Qed.

Lemma wp_list_begin h l xs Q :
  is_list h l xs → Q (firstd (tail_of l) xs) h → wp (list_begin l) Q h.
Proof.
  intros Hl HQ. destruct (is_list_nonnull _ _ _ Hl) as [? _].
  destruct (is_list_around h l [] xs Hl) as (p & n & Hq & _). simpl in Hq.
  unfold list_begin. by repeat hstep.
Qed.

Lemma wp_list_end h l xs Q :
  is_list h l xs → Q (tail_of l) h → wp (list_end l) Q h.
Proof.
  intros Hl HQ. destruct (is_list_nonnull _ _ _ Hl) as [? _].
  unfold list_end. by repeat hstep.
Qed.

Lemma wp_list_next h l xs ys Q :
  is_list h l (xs ++ ys) → Q (firstd (tail_of l) ys) h →
  wp (list_next (lastd (head_of l) xs)) Q h.
Proof.
  intros Hl HQ. destruct (is_list_around _ _ _ _ Hl) as (p & n & ? & ? & ? & ?).
  unfold list_next. by repeat hstep.
Qed.

Lemma wp_list_next_elem h l xs x ys Q :
  is_list h l (xs ++ x :: ys) → Q (firstd (tail_of l) ys) h →
  wp (list_next x) Q h.
Proof.
  intros Hl HQ. pose proof (wp_list_next h l (xs ++ [x]) ys Q) as H.
  rewrite lastd_snoc, <-app_assoc in H. by apply H.
Qed.

Lemma wp_list_prev h l xs ys Q :
  is_list h l (xs ++ ys) → Q (lastd (head_of l) xs) h →
  wp (list_prev (firstd (tail_of l) ys)) Q h.
Proof.
  intros Hl HQ. destruct (is_list_around _ _ _ _ Hl) as (p & n & ? & ? & ? & ?).
  unfold list_prev. by repeat hstep.
Qed.

(** ** Removal *)
Lemma list_remove_exec h e q b pq nb Q :
  h !! e = Some (mk_elem q b) → h !! q = Some (mk_elem pq e) →
  h !! b = Some (mk_elem e nb) →
  e ≠ NULL → q ≠ NULL → b ≠ NULL → e ≠ q → e ≠ b → q ≠ b →
  Q b (<[b:=mk_elem q nb]> (<[q:=mk_elem pq b]> h)) →
  wp (list_remove e) Q h.
Proof.
  intros. unfold list_remove. wp_unbind.
  eapply wp_is_interior; [done..|].
  rewrite (proj2 (Z.eqb_neq q NULL)), (proj2 (Z.eqb_neq b NULL)) by done.
  simpl. by repeat hstep.
Qed.

Lemma list_remove_ok h l xs e ys :
  is_list h l (xs ++ e :: ys) →
  wp (list_remove e)
    (λ r h', r = firstd (tail_of l) ys ∧ is_list h' l (xs ++ ys) ∧
             same_outside (nodes l (xs ++ ys)) h h' ∧ h' !! e = h !! e) h.
Proof.
  intros Hl. pose proof (is_list_elem _ _ _ _ _ Hl) as (He & He0 & Hq0 & Hb0).
  destruct (is_list_around _ _ _ _ Hl) as (pq & ? & Hq & _). simpl in Hq.
  assert (is_list h l ((xs ++ [e]) ++ ys)) as Hl' by by rewrite <-app_assoc.
  destruct (is_list_around _ _ _ _ Hl') as (? & nb & _ & Hb & _).
  rewrite lastd_snoc in Hb.
  destruct (cons_snoc (head_of l) xs) as [c1 H1].
  destruct (snoc_cons ys (tail_of l)) as [c2 H2].
  set (q := lastd (head_of l) xs) in *. set (b := firstd (tail_of l) ys) in *.
  assert (nodes l (xs ++ e :: ys) = (c1 ++ [q]) ++ e :: b :: c2) as Hn'.
  { unfold nodes. rewrite <-H1, <-H2. cbn. by rewrite <-!app_assoc. }
  assert (nodes l (xs ++ ys) = (c1 ++ [q]) ++ b :: c2) as Hn.
  { unfold nodes. rewrite <-H1, <-H2. cbn. by rewrite <-!app_assoc. }
  destruct Hl as (Hc & Hnd & H0). rewrite Hn' in Hc, Hnd, H0.
  assert (NoDup ((c1 ++ [q]) ++ b :: c2) ∧ (e ∉ (c1 ++ [q]) ++ b :: c2)) as [Hnd' He'].
  { rewrite <-Permutation_middle in Hnd. by apply NoDup_cons in Hnd as [??]. }
  assert (NULL ∉ (c1 ++ [q]) ++ b :: c2) as H0' by (clear -H0; set_solver).
  destruct (cut_distinct _ _ _ _ Hnd' H0') as (? & ? & ? & ? & ? & ? & ?).
  assert (e ≠ q ∧ e ≠ b) as [? ?] by (clear -He'; set_solver).
  eapply list_remove_exec; [exact He|exact Hq|exact Hb|done..|].
  apply chain_app in Hc as [Hc1 [_ Hc2]].
  unfold is_list. rewrite Hn. split_and!; [done| |done|done| |].
  - assert (pq = lastd NULL c1 ∧ nb = firstd NULL c2) as [-> ->].
    { apply chain_app in Hc1 as [_ [Hq' _]]. destruct Hc2 as [Hb' _].
      simpl in *. split; congruence. }
    by eapply chain_join.
  - intros a Ha. rewrite !lookup_insert_ne; clear -Ha; set_solver.
  - by rewrite !lookup_insert_ne.
Qed.
(** ** The queue operations *)
Lemma list_init_ok h l :
  l ≠ NULL → tail_of l ≠ NULL → is_Some (h !! head_of l) → is_Some (h !! tail_of l) →
  wp (list_init l)
    (λ _ h', is_list h' l [] ∧ same_outside (nodes l []) h h') h.
Proof.
  intros Hl Ht [x Hx] [y Hy].
  assert (head_of l ≠ tail_of l) by (unfold head_of, tail_of; lia).
  unfold list_init. repeat hstep. unfold is_list, nodes. simpl.
  split_and!; try lk; try done.
  - repeat constructor; set_solver.
  - unfold head_of in *. set_solver.
  - intros a Ha. rewrite !lookup_insert_ne; set_solver.
Qed.

Lemma list_push_front_ok h l xs e :
  is_list h l xs → e ∉ nodes l xs → e ≠ NULL → is_Some (h !! e) →
  wp (list_push_front l e)
    (λ _ h', is_list h' l (e :: xs) ∧ same_outside (e :: nodes l xs) h h') h.
Proof.
  intros Hl ???. unfold list_push_front. wp_unbind.
  eapply wp_list_begin; [done|]. by apply (list_insert_ok h l []).
Qed.

Lemma list_push_back_ok h l xs e :
  is_list h l xs → e ∉ nodes l xs → e ≠ NULL → is_Some (h !! e) →
  wp (list_push_back l e)
    (λ _ h', is_list h' l (xs ++ [e]) ∧ same_outside (e :: nodes l xs) h h') h.
Proof.
  intros Hl ???. unfold list_push_back. wp_unbind.
  eapply wp_list_end; [done|]. pose proof (list_insert_ok h l xs [] e) as H'.
  rewrite !app_nil_r in H'. by apply H'.
Qed.

Lemma wp_list_empty h l xs Q :
  is_list h l xs → Q (match xs with [] => true | _ => false end) h →
  wp (list_empty l) Q h.
Proof.
  intros Hl HQ. unfold list_empty. wp_unbind.
  eapply wp_list_begin; [done|]. wp_unbind. eapply wp_list_end; [done|].
  apply wp_ret. by rewrite (firstd_eqb_tail h l [] xs Hl).
Qed.

Lemma list_pop_front_ok h l x xs :
  is_list h l (x :: xs) →
  wp (list_pop_front l)
    (λ r h', r = x ∧ is_list h' l xs ∧ same_outside (nodes l xs) h h' ∧
             h' !! x = h !! x) h.
Proof.
  intros Hl. unfold list_pop_front, list_front. wp_unbind.
  eapply wp_list_empty; [done|]. simpl. hstep.
  destruct (is_list_around h l [] _ Hl) as (p & n & Hq & _). simpl in Hq.
  hstep. wp_unbind. eapply wp_mono; [by apply (list_remove_ok h l [] x xs)|].
  intros r h' (_ & ? & ? & ?). by apply wp_ret.
Qed.

Lemma list_pop_back_ok h l xs x :
  is_list h l (xs ++ [x]) →
  wp (list_pop_back l)
    (λ r h', r = x ∧ is_list h' l xs ∧ same_outside (nodes l xs) h h' ∧
             h' !! x = h !! x) h.
Proof.
  intros Hl. unfold list_pop_back, list_back. wp_unbind.
  eapply wp_list_empty; [done|].
  replace (match xs ++ [x] with [] => true | _ => false end) with false
    by by destruct xs.
  simpl. hstep.
  assert (is_list h l ((xs ++ [x]) ++ [])) as Hl' by by rewrite app_nil_r.
  destruct (is_list_around _ _ _ _ Hl') as (p & n & _ & Hq & _). simpl in Hq.
  rewrite lastd_snoc in Hq.
  hstep. wp_unbind. eapply wp_mono; [by apply list_remove_ok|].
  rewrite app_nil_r. intros r h' (_ & ? & ? & ?). by apply wp_ret.
Qed.

(** Popping from an empty list stops the kernel. *)
Lemma list_pop_front_empty h l : is_list h l [] → list_pop_front l h = Panic.
Proof.
  intros Hl. assert (wp (list_empty l) (λ b h', b = true ∧ h' = h) h) as He
    by by eapply wp_list_empty.
  apply wp_ok in He as (b & h' & He & -> & ->).
  apply bind_panic. unfold list_front. by rewrite (bind_ok _ _ _ _ _ He).
Qed.

(** ** Traversals

    A loop over the list stands at a cut: [xs1] is behind it, [xs2] ahead. *)
Definition at_cut (h : heap) (l : Z) (xs : list Z) (k : nat)
    (xs1 xs2 : list Z) (e : Z) (h' : heap) : Prop :=
  h' = h ∧ xs = xs1 ++ xs2 ∧ k = length xs2 ∧ e = firstd (tail_of l) xs2.

Lemma list_size_ok fuel h l xs :
  is_list h l xs → (length xs < fuel)%nat →
  wp (list_size fuel l) (λ r h', r = u32 (Z.of_nat (length xs)) ∧ h' = h) h.
Proof.
  intros Hl Hf. unfold list_size. wp_unbind. eapply wp_list_begin; [done|].
  eapply (wp_loop (λ k '(e, cnt) h', ∃ xs1 xs2, at_cut h l xs k xs1 xs2 e h' ∧
    cnt = u32 (Z.of_nat (length xs1)))); [|by exists [], xs|done].
  intros k [e cnt] ? (xs1 & xs2 & (-> & -> & -> & ->) & ->).
  wp_unbind. eapply wp_list_end; [done|].
  rewrite (firstd_eqb_tail _ _ _ _ Hl). destruct xs2 as [|x xs2]; simpl.
  - apply wp_ret. by rewrite app_nil_r.
  - wp_unbind. eapply wp_list_next_elem; [done|]. apply wp_ret.
    exists (length xs2). split; [lia|]. exists (xs1 ++ [x]), xs2.
    split; [unfold at_cut; by rewrite <-app_assoc|].
    rewrite length_app. unfold u32. simpl. rewrite Zplus_mod_idemp_l. f_equal. lia.
Qed.
Section ordered.
Variable less : Z → Z → bool.

(** What [list_insert_ordered] does to the sequence: before the first element
    that is greater than the new one, hence after all equal ones. *)
Fixpoint insert_seq (e : Z) (xs : list Z) : list Z :=
  match xs with
  | [] => [e]
  | y :: ys => if less e y then e :: y :: ys else y :: insert_seq e ys
  end.

Lemma insert_seq_app e xs1 xs2 :
  Forall (λ y, less e y = false) xs1 →
  insert_seq e (xs1 ++ xs2) = xs1 ++ insert_seq e xs2.
Proof. induction 1 as [|y xs1 Hy _ IH]; simpl; [done|]. by rewrite Hy, IH. Qed.

Lemma insert_seq_perm e xs : insert_seq e xs ≡ₚ e :: xs.
Proof.
  induction xs as [|y ys IH]; simpl; [done|]. destruct (less e y); [done|].
  rewrite IH. constructor.
Qed.

Lemma list_insert_ordered_ok fuel h l xs e :
  is_list h l xs → e ∉ nodes l xs → e ≠ NULL → is_Some (h !! e) →
  (length xs < fuel)%nat →
  wp (list_insert_ordered less fuel l e)
    (λ _ h', is_list h' l (insert_seq e xs) ∧
             same_outside (e :: nodes l xs) h h') h.
Proof.
  intros Hl He He0 Hx Hf. destruct (is_list_nonnull _ _ _ Hl) as [? _].
  unfold list_insert_ordered. repeat hstep. wp_unbind.
  eapply wp_list_begin; [done|]. wp_unbind.
  eapply (wp_loop (λ k e' h', ∃ xs1 xs2, at_cut h l xs k xs1 xs2 e' h' ∧
    Forall (λ y, less e y = false) xs1)); [|exists [], xs; by split|done].
  intros k e' ? (xs1 & xs2 & (-> & -> & -> & ->) & Hlow).
  wp_unbind. eapply wp_list_end; [done|].
  rewrite (firstd_eqb_tail _ _ _ _ Hl), insert_seq_app by done.
  destruct xs2 as [|x xs2]; simpl.
  - apply wp_ret. by apply (list_insert_ok h l xs1 []).
  - destruct (less e x) eqn:Hex.
    { apply wp_ret. by apply (list_insert_ok h l xs1 (x :: xs2)). }
    wp_unbind. eapply wp_list_next_elem; [done|]. apply wp_ret.
    exists (length xs2). split; [lia|]. exists (xs1 ++ [x]), xs2.
    unfold at_cut. rewrite <-app_assoc, Forall_app. by repeat constructor.
Qed.

(** Nondecreasing order: no element is less than the one before it. *)
Definition ord (a b : Z) : Prop := less b a = false.

Lemma insert_seq_sorted e xs :
  (∀ a b, less a b = true → less b a = false) →
  Sorted ord xs → Sorted ord (insert_seq e xs).
Proof.
  intros Hasym Hs. induction Hs as [|y ys Hs IH Hhd]; simpl; [by repeat constructor|].
  destruct (less e y) eqn:Hey.
  - constructor; [by constructor|]. constructor. unfold ord. auto.
  - constructor; [done|]. destruct ys as [|z zs]; simpl in *; [by constructor|].
    destruct (less e z); constructor; [done|]. by inversion Hhd.
Qed.
End ordered.
End Correct.
