(* ===== verification/KListSort.v ===== *)
(** Splicing, reversal and the in-place merge sort of [lib/kernel/list.c]:
    the operations of [KList.Ops] that move elements around, and their
    effect on the sequence a list represents. *)
From Stdlib Require Import ZArith Lia.
From stdpp Require Import base tactics option list gmap sorting.
From S2P Require Import Prelude KList.
Import KList.Ops KList.Exec KList.Correct.

Open Scope Z_scope.

(** * Updates of one link

    The two links of an element are independent, so a write to one end of a
    segment commutes with everything else; this is what makes the aliasing of
    [list_splice] (its arguments may be neighbours) harmless. *)
Definition upd_prev (e p : Z) (h : heap) : heap :=
  alter (λ x, mk_elem p (next x)) e h.
Definition upd_next (e n : Z) (h : heap) : heap :=
  alter (λ x, mk_elem (prev x) n) e h.
Definition hprev (h : heap) (e : Z) : option Z := prev <$> h !! e.
Definition hnext (h : heap) (e : Z) : option Z := next <$> h !! e.

Section upd.
Implicit Types h : heap.

Lemma hprev_upd_next h a n e : hprev (upd_next a n h) e = hprev h e.
Proof.
  unfold hprev, upd_next. rewrite lookup_alter. case_decide as E; [|done].
  rewrite E. by destruct (h !! e).
Qed.
Lemma hnext_upd_prev h a p e : hnext (upd_prev a p h) e = hnext h e.
Proof.
  unfold hnext, upd_prev. rewrite lookup_alter. case_decide as E; [|done].
  rewrite E. by destruct (h !! e).
Qed.
Lemma hprev_upd_prev_ne h a p e : a ≠ e → hprev (upd_prev a p h) e = hprev h e.
Proof. intros. unfold hprev, upd_prev. by rewrite lookup_alter_ne. Qed.
Lemma hnext_upd_next_ne h a n e : a ≠ e → hnext (upd_next a n h) e = hnext h e.
Proof. intros. unfold hnext, upd_next. by rewrite lookup_alter_ne. Qed.

Lemma hprev_upd_prev_eq h a p : is_Some (h !! a) → hprev (upd_prev a p h) a = Some p.
Proof. intros [x Hx]. unfold hprev, upd_prev. by rewrite lookup_alter_eq, Hx. Qed.
Lemma hnext_upd_next_eq h a n : is_Some (h !! a) → hnext (upd_next a n h) a = Some n.
Proof. intros [x Hx]. unfold hnext, upd_next. by rewrite lookup_alter_eq, Hx. Qed.

Lemma is_Some_upd_prev h a p e : is_Some (upd_prev a p h !! e) ↔ is_Some (h !! e).
Proof. unfold upd_prev. by rewrite lookup_alter_is_Some. Qed.
Lemma is_Some_upd_next h a n e : is_Some (upd_next a n h !! e) ↔ is_Some (h !! e).
Proof. unfold upd_next. by rewrite lookup_alter_is_Some. Qed.

Lemma wp_hget_prev e p Q h : hprev h e = Some p → Q p h → wp (get_prev e) Q h.
Proof.
  unfold hprev. intros (x & Hx & ->)%fmap_Some HQ. by eapply wp_get_prev.
Qed.
Lemma wp_hget_next e p Q h : hnext h e = Some p → Q p h → wp (get_next e) Q h.
Proof.
  unfold hnext. intros (x & Hx & ->)%fmap_Some HQ. by eapply wp_get_next.
Qed.
Lemma wp_hset_prev e p Q h :
  is_Some (h !! e) → Q tt (upd_prev e p h) → wp (set_prev e p) Q h.
Proof.
  intros [x Hx] HQ. eapply wp_set_prev; [done|].
  assert (<[e:=mk_elem p (next x)]> h = upd_prev e p h) as ->; [|done].
  apply map_eq. intros i. unfold upd_prev. rewrite lookup_insert, lookup_alter.
  case_decide; [|done]. subst. by rewrite Hx.
Qed.
Lemma wp_hset_next e n Q h :
  is_Some (h !! e) → Q tt (upd_next e n h) → wp (set_next e n) Q h.
Proof.
  intros [x Hx] HQ. eapply wp_set_next; [done|].
  assert (<[e:=mk_elem (prev x) n]> h = upd_next e n h) as ->; [|done].
  apply map_eq. intros i. unfold upd_next. rewrite lookup_insert, lookup_alter.
  case_decide; [|done]. subst. by rewrite Hx.
Qed.

Lemma chain_upd_prev_ne h p c n e v :
  e ∉ c → chain h p c n → chain (upd_prev e v h) p c n.
Proof.
  intros He. apply chain_agree. intros a Ha. unfold upd_prev.
  apply lookup_alter_ne. set_solver.
Qed.
Lemma chain_upd_next_ne h p c n e v :
  e ∉ c → chain h p c n → chain (upd_next e v h) p c n.
Proof.
  intros He. apply chain_agree. intros a Ha. unfold upd_next.
  apply lookup_alter_ne. set_solver.
Qed.
Lemma chain_upd_first h p p' x c n :
  x ∉ c → chain h p (x :: c) n → chain (upd_prev x p' h) p' (x :: c) n.
Proof.
  intros Hx [He Hc]. split; [|by apply chain_upd_prev_ne].
  unfold upd_prev. rewrite lookup_alter_eq, He. done.
Qed.
Lemma chain_upd_last h p c x n n' :
  x ∉ c → chain h p (c ++ [x]) n → chain (upd_next x n' h) p (c ++ [x]) n'.
Proof.
  rewrite !chain_app. simpl. intros Hx (Hc & He & _).
  split_and!; [by apply chain_upd_next_ne| |done].
  unfold upd_next. by rewrite lookup_alter_eq, He.
Qed.
End upd.

(** Facts about reads after link updates. *)
Ltac hsome :=
  repeat first [ rewrite is_Some_upd_prev | rewrite is_Some_upd_next ];
  eassumption.
Ltac hread := first
  [ eassumption
  | rewrite hprev_upd_next; hread
  | rewrite hnext_upd_prev; hread
  | apply hprev_upd_prev_eq; hsome
  | apply hnext_upd_next_eq; hsome
  | rewrite hprev_upd_prev_ne by congruence; hread
  | rewrite hnext_upd_next_ne by congruence; hread ].
Ltac ustep :=
  wp_unbind;
  lazymatch goal with
  | |- wp (get_prev _) _ _ => eapply wp_hget_prev; [hread|]
  | |- wp (get_next _) _ _ => eapply wp_hget_next; [hread|]
  | |- wp (set_prev _ _) _ _ => eapply wp_hset_prev; [hsome|]
  | |- wp (set_next _ _) _ _ => eapply wp_hset_next; [hsome|]
  | |- wp (ASSERT true) _ _ => apply wp_ASSERT; split; [done|]
  end.

(** The six writes of [list_splice]. *)
Definition splice_heap (before first last q b r : Z) (h : heap) : heap :=
  upd_prev before last (upd_next r first (upd_next last before
    (upd_prev first r (upd_prev b q (upd_next q b h))))).

Lemma list_splice_exec h before first last q b r nbf nf plast nb Q :
  h !! before = Some (mk_elem r nbf) → h !! first = Some (mk_elem q nf) →
  h !! last = Some (mk_elem plast b) → h !! b = Some (mk_elem last nb) →
  is_Some (h !! q) → is_Some (h !! r) →
  before ≠ NULL → first ≠ NULL → last ≠ NULL → b ≠ NULL → q ≠ NULL → r ≠ NULL →
  nf ≠ NULL → plast ≠ NULL →
  first ≠ b → q ≠ last → before ≠ b → before ≠ first →
  Q tt (splice_heap before first last q b r h) →
  wp (list_splice before first b) Q h.
Proof.
  intros Hbf Hf Hl Hb Hq Hr. intros. unfold list_splice.
  wp_unbind. eapply wp_interior_or_tail; [done..|]. wp_unbind.
  apply wp_ASSERT; split; [done|].
  rewrite (proj2 (Z.eqb_neq first b)) by done.
  unfold list_prev at 1. wp_unbind. eapply wp_interior_or_tail; [done..|].
  ustep. wp_unbind. eapply wp_get_prev; [done|]. cbn [prev].
  assert (∀ e p n, e ≠ NULL → h !! e = Some (mk_elem p n) → p ≠ NULL → n ≠ NULL →
    ∀ P, P true h → wp (is_interior e) P h) as Hint.
  { intros e p n He Hle Hp%Z.eqb_neq Hn%Z.eqb_neq P HP.
    eapply wp_is_interior; [done..|]. by rewrite Hp, Hn. }
  wp_unbind. eapply (Hint first); [done..|]. ustep.
  wp_unbind. eapply (Hint last); [done..|]. ustep.
  assert (hprev h first = Some q) as R1 by (unfold hprev; by rewrite Hf).
  assert (hnext h last = Some b) as R2 by (unfold hnext; by rewrite Hl).
  assert (hprev h before = Some r) as R3 by (unfold hprev; by rewrite Hbf).
  assert (is_Some (h !! b) ∧ is_Some (h !! first) ∧ is_Some (h !! last)
          ∧ is_Some (h !! before)) as (? & ? & ? & ?) by (split_and!; eauto).
  by repeat ustep.
Qed.

(** Ends of nonempty segments. *)
Lemma firstd_indep d d' c : c ≠ [] → firstd d c = firstd d' c.
Proof. by destruct c. Qed.
Lemma lastd_indep d d' c : c ≠ [] → lastd d c = lastd d' c.
Proof. by destruct c. Qed.
Lemma firstd_elem d c : c ≠ [] → firstd d c ∈ c.
Proof. destruct c; [done|]. set_solver. Qed.
Lemma lastd_elem d c : c ≠ [] → lastd d c ∈ c.
Proof.
  destruct c as [|x c]; [done|]. intros _.
  destruct (cons_snoc x c) as [c1 ->]. simpl. rewrite lastd_snoc. set_solver.
Qed.

Lemma chain_seg_first h p p' d c n :
  c ≠ [] → NoDup c → chain h p c n → chain (upd_prev (firstd d c) p' h) p' c n.
Proof.
  destruct c as [|x c]; [done|]. intros _ [? _]%NoDup_cons. by apply chain_upd_first.
Qed.
Lemma chain_seg_last h p d c n n' :
  c ≠ [] → NoDup c → chain h p c n → chain (upd_next (lastd d c) n' h) p c n'.
Proof.
  destruct c as [|x c]; [done|]. intros _.
  destruct (cons_snoc x c) as [c1 H1]. rewrite H1. simpl. rewrite lastd_snoc.
  intros (_ & Hd & _)%NoDup_app. apply chain_upd_last. set_solver.
Qed.
Lemma chain_seg_lookup_first h p d c n :
  c ≠ [] → chain h p c n →
  ∃ m, h !! firstd d c = Some (mk_elem p m) ∧ (m = n ∨ m ∈ c).
Proof.
  destruct c as [|x c]; [done|]. intros _ [H _]. eexists; split; [done|].
  destruct c; simpl; set_solver.
Qed.
Lemma chain_seg_lookup_last h p d c n :
  c ≠ [] → chain h p c n →
  ∃ m, h !! lastd d c = Some (mk_elem m n) ∧ (m = p ∨ m ∈ c).
Proof.
  destruct c as [|x c]; [done|]. intros _.
  destruct (cons_snoc x c) as [c1 H1]. rewrite H1. simpl. rewrite lastd_snoc.
  rewrite chain_app. intros (_ & H & _). simpl in H. eexists; split; [done|].
  destruct c1 as [|y c1]; simpl; [by left|]. right.
  assert (lastd y c1 ∈ y :: c1); [|set_solver].
  destruct (cons_snoc y c1) as [c2 ->]. set_solver.
Qed.

Lemma four_disjoint (X Y F W : list Z) :
  NoDup (X ++ Y ++ F ++ W) →
  (NoDup X ∧ NoDup Y ∧ NoDup F ∧ NoDup W) ∧
  (∀ a, a ∈ X → (a ∉ Y) ∧ (a ∉ F) ∧ (a ∉ W)) ∧ (∀ a, a ∈ Y → (a ∉ X) ∧ (a ∉ F) ∧ (a ∉ W)) ∧
  (∀ a, a ∈ F → (a ∉ X) ∧ (a ∉ Y) ∧ (a ∉ W)) ∧ (∀ a, a ∈ W → (a ∉ X) ∧ (a ∉ Y) ∧ (a ∉ F)).
Proof.
  intros (HnX & HdX & (HnY & HdY & (HnF & HdF & HnW)%NoDup_app)%NoDup_app)%NoDup_app.
  split; [done|]. set_solver.
Qed.

Lemma chain_app4 h p A B C D n :
  A ≠ [] → B ≠ [] → C ≠ [] → D ≠ [] →
  chain h p (A ++ B ++ C ++ D) n ↔
  chain h p A (firstd NULL B) ∧ chain h (lastd NULL A) B (firstd NULL C) ∧
  chain h (lastd NULL B) C (firstd NULL D) ∧ chain h (lastd NULL C) D n.
Proof.
  intros. rewrite !chain_app. by destruct A, B, C, D.
Qed.

(** Four consecutive segments of one list; the third moves before the second. *)
Lemma chain_splice h p X Y F W n :
  X ≠ [] → Y ≠ [] → F ≠ [] → W ≠ [] →
  NoDup (X ++ Y ++ F ++ W) → NULL ∉ X ++ Y ++ F ++ W →
  chain h p (X ++ Y ++ F ++ W) n →
  wp (list_splice (firstd NULL Y) (firstd NULL F) (firstd NULL W))
    (λ _ h', chain h' p (X ++ F ++ Y ++ W) n ∧
             same_outside (X ++ Y ++ F ++ W) h h') h.
Proof.
  intros HX HY HF HW ((HnX & HnY & HnF & HnW) & DX & DY & DF & DW)%four_disjoint H0 Hc.
  apply chain_app4 in Hc as (HcX & HcY & HcF & HcW); [|done..].
  pose proof (firstd_elem NULL _ HY) as EbY. pose proof (firstd_elem NULL _ HF) as EfF.
  pose proof (firstd_elem NULL _ HW) as EbW. pose proof (lastd_elem NULL _ HX) as ErX.
  pose proof (lastd_elem NULL _ HY) as EqY. pose proof (lastd_elem NULL _ HF) as ElF.
  assert (∀ a, a ∈ X ∨ a ∈ Y ∨ a ∈ F ∨ a ∈ W → a ≠ NULL) as Hnn by (clear -H0; set_solver).
  destruct (chain_seg_lookup_first _ _ NULL _ _ HY HcY) as (nbf & L1 & N1).
  destruct (chain_seg_lookup_first _ _ NULL _ _ HF HcF) as (nf & L2 & N2).
  destruct (chain_seg_lookup_last _ _ NULL _ _ HF HcF) as (pl & L3 & N3).
  destruct (chain_seg_lookup_first _ _ NULL _ _ HW HcW) as (nb & L4 & N4).
  destruct (DX _ ErX) as (? & ? & ?), (DY _ EbY) as (? & ? & ?), (DY _ EqY) as (? & ? & ?),
    (DF _ EfF) as (? & ? & ?), (DF _ ElF) as (? & ? & ?), (DW _ EbW) as (? & ? & ?).
  eapply list_splice_exec;
    [exact L1|exact L2|exact L3|exact L4
    |by eapply (chain_elem_of _ _ _ _ _ HcY)|by eapply (chain_elem_of _ _ _ _ _ HcX)
    |by apply Hnn; auto|by apply Hnn; auto|by apply Hnn; auto|by apply Hnn; auto
    |by apply Hnn; auto|by apply Hnn; auto|by apply Hnn; destruct N2 as [->|]; auto
    |by apply Hnn; destruct N3 as [->|]; auto|by intros E; rewrite E in *..|].
  unfold splice_heap. split.
  - apply chain_app4; [done..|]. split_and!.
    + apply chain_upd_prev_ne; [done|]. eapply chain_seg_last; [done..|].
      apply chain_upd_next_ne; [done|]. do 2 (apply chain_upd_prev_ne; [done|]).
      apply chain_upd_next_ne; [done|]. exact HcX.
    + apply chain_upd_prev_ne; [done|]. apply chain_upd_next_ne; [done|].
      eapply chain_seg_last; [done..|]. eapply chain_seg_first; [done..|].
      apply chain_upd_prev_ne; [done|]. apply chain_upd_next_ne; [done|]. exact HcF.
    + eapply chain_seg_first; [done..|]. do 2 (apply chain_upd_next_ne; [done|]).
      do 2 (apply chain_upd_prev_ne; [done|]). eapply chain_seg_last; [done..|]. exact HcY.
    + apply chain_upd_prev_ne; [done|]. do 2 (apply chain_upd_next_ne; [done|]).
      apply chain_upd_prev_ne; [done|]. eapply chain_seg_first; [done..|].
      apply chain_upd_next_ne; [done|]. exact HcW.
  - intros a Ha. unfold upd_prev, upd_next. rewrite !lookup_alter_ne; [done|..];
      intros <-; apply Ha; rewrite !elem_of_app; tauto.
Qed.

(** [list_splice] inside one list: the nonempty segment [F] moves before the
    nonempty segment [Y] it follows. *)
Lemma list_splice_ok h l xs Y F ws :
  is_list h l (xs ++ Y ++ F ++ ws) → Y ≠ [] → F ≠ [] →
  wp (list_splice (firstd NULL Y) (firstd NULL F) (firstd (tail_of l) ws))
    (λ _ h', is_list h' l (xs ++ F ++ Y ++ ws) ∧
             same_outside (nodes l (xs ++ Y ++ F ++ ws)) h h') h.
Proof.
  intros (Hc & Hnd & H0) HY HF.
  assert (∀ A B, nodes l (xs ++ A ++ B ++ ws) =
    (head_of l :: xs) ++ A ++ B ++ (ws ++ [tail_of l])) as Hn.
  { intros A B. unfold nodes. simpl. by rewrite <-!app_assoc. }
  unfold is_list. rewrite !Hn in *.
  assert (ws ++ [tail_of l] ≠ []) as HW by by destruct ws.
  assert (firstd (tail_of l) ws = firstd NULL (ws ++ [tail_of l])) as -> by by destruct ws.
  eapply wp_mono; [by apply (chain_splice h NULL (head_of l :: xs))|].
  intros _ h' [Hc' Hs]. split_and!; [done| | |done].
  - by rewrite (app_assoc F), (Permutation_app_comm F), <-app_assoc.
  - intros Hin. apply H0. rewrite !elem_of_app in *. tauto.
Qed.

(** * Merge sort *)
Section sort.
Variable less : Z → Z → bool.
Hypothesis less_asym : ∀ a b, less a b = true → less b a = false.
Local Abbreviation ord := (ord less).

Lemma firstd_eqb_cut h l pre C D :
  is_list h l (pre ++ C ++ D) →
  (firstd (firstd (tail_of l) D) C =? firstd (tail_of l) D) =
  match C with [] => true | _ => false end.
Proof.
  intros (_ & Hn & _). destruct C as [|c C]; [apply Z.eqb_refl|]. simpl.
  apply Z.eqb_neq. intros ->. unfold nodes in Hn.
  rewrite <-!app_assoc in Hn. apply NoDup_cons in Hn as [_ Hn].
  apply NoDup_app in Hn as (_ & _ & [Hn _]%NoDup_cons).
  apply Hn. rewrite elem_of_app. right.
  destruct D; simpl; set_solver.
Qed.

(** Prefixes and adjacent pairs of sorted sequences. *)
Lemma Sorted_app_l (A B : list Z) : Sorted ord (A ++ B) → Sorted ord A.
Proof.
  induction A as [|a A IH]; simpl; intros Hs; [constructor|].
  inversion Hs as [|? ? Hs' Hhd]; subst. constructor; [auto|].
  destruct A; simpl in *; [constructor|]. inversion Hhd; subst. by constructor.
Qed.

Lemma Sorted_app_r (A B : list Z) : Sorted ord (A ++ B) → Sorted ord B.
Proof. induction A; simpl; intros Hs; [done|]. inversion Hs; auto. Qed.

Lemma Sorted_adjacent A a b B : Sorted ord (A ++ a :: b :: B) → less b a = false.
Proof.
  intros Hs%Sorted_app_r. inversion Hs as [|? ? _ Hhd]; subst.
  by inversion Hhd.
Qed.

Lemma Sorted_snoc_app A a B :
  Sorted ord (A ++ [a]) → Sorted ord B →
  (∀ b, head B = Some b → less b a = false) → Sorted ord (A ++ a :: B).
Proof.
  intros HA HB Hab. induction A as [|x A IH]; simpl in *.
  - constructor; [done|]. destruct B; constructor. apply Hab. done.
  - inversion HA as [|? ? HA' Hhd]; subst. constructor; [auto|].
    destruct A; simpl in *; inversion Hhd; subst; by constructor.
Qed.

Lemma is_sorted_ok fuel h l pre A post :
  is_list h l (pre ++ A ++ post) → Sorted ord A → (length A < fuel)%nat →
  wp (is_sorted less fuel (firstd (firstd (tail_of l) post) A) (firstd (tail_of l) post))
    (λ r h', r = true ∧ h' = h) h.
Proof.
  intros Hl Hs Hf. unfold is_sorted. rewrite (firstd_eqb_cut _ _ _ _ _ Hl).
  destruct A as [|a A]; [by apply wp_ret|]. simpl firstd.
  eapply (wp_loop (λ k x h', h' = h ∧ ∃ A1 A2, a :: A = A1 ++ x :: A2 ∧ k = length A2));
    [|split; [done|]; by exists [], A|simpl in Hf; lia].
  intros k x ? [-> (A1 & A2 & E & ->)]. rewrite E in Hl, Hs.
  assert (is_list h l ((pre ++ A1) ++ x :: A2 ++ post)) as Hl1
    by by rewrite <-!app_assoc in *.
  assert (is_list h l ((pre ++ A1 ++ [x]) ++ A2 ++ post)) as Hl2
    by by rewrite <-!app_assoc in *.
  wp_unbind. eapply wp_list_next_elem; [done|].
  rewrite firstd_app, (firstd_eqb_cut _ _ _ _ _ Hl2).
  destruct A2 as [|y A2]; [by apply wp_ret|].
  wp_unbind. eapply (wp_list_prev h l (pre ++ A1 ++ [x]) (y :: A2 ++ post)); [done|].
  rewrite app_assoc, lastd_snoc. cbn [firstd]. rewrite (Sorted_adjacent _ _ _ _ Hs).
  apply wp_ret. exists (length A2). split; [simpl; lia|]. split; [done|].
  exists (A1 ++ [x]), A2. by rewrite <-app_assoc.
Qed.

Lemma find_end_of_run_ok fuel h l pre a rest :
  is_list h l (pre ++ a :: rest) → (length rest < fuel)%nat →
  wp (find_end_of_run less fuel a (tail_of l))
    (λ r h', h' = h ∧ ∃ A B, rest = A ++ B ∧ r = firstd (tail_of l) B ∧
       Sorted ord (a :: A) ∧
       match B with [] => True | b :: _ => less b (lastd a A) = true end) h.
Proof.
  intros Hl Hf. destruct (is_list_elem _ _ _ _ _ Hl) as (_ & ? & _).
  destruct (is_list_nonnull _ _ _ Hl) as [_ ?].
  pose proof (firstd_eqb_tail _ _ _ _ Hl) as Hne. simpl in Hne.
  unfold find_end_of_run. repeat hstep. wp_unbind. rewrite Hne.
  apply wp_ASSERT; split; [done|].
  eapply (wp_loop (λ k x h', h' = h ∧ ∃ A1 A2, rest = A1 ++ A2 ∧ x = lastd a A1 ∧
    k = length A2 ∧ Sorted ord (a :: A1)));
    [|split; [done|]; exists [], rest; by repeat constructor|done].
  intros k x ? [-> (A1 & A2 & -> & -> & -> & Hs)].
  assert (is_list h l ((pre ++ a :: A1) ++ A2)) as Hl1 by by rewrite <-!app_assoc.
  assert (lastd (head_of l) (pre ++ a :: A1) = lastd a A1) as El by by rewrite lastd_app.
  wp_unbind. rewrite <-El. eapply wp_list_next; [done|].
  rewrite (firstd_eqb_tail _ _ _ _ Hl1). destruct A2 as [|y A2].
  { apply wp_ret. split; [done|]. by exists A1, []. }
  wp_unbind. eapply wp_list_prev; [done|]. rewrite El. simpl firstd.
  destruct (less y (lastd a A1)) eqn:Hy; apply wp_ret.
  - split; [done|]. by exists A1, (y :: A2).
  - exists (length A2). split; [simpl; lia|]. split; [done|].
    exists (A1 ++ [y]), A2. rewrite <-app_assoc, lastd_snoc.
    split_and!; [done..|]. destruct (cons_snoc a A1) as [c Hc].
    rewrite app_comm_cons, Hc, <-app_assoc. simpl.
    rewrite Hc in Hs. apply Sorted_snoc_app; [done|by repeat constructor|].
    by intros ? [= <-].
Qed.

(** ** Stability

    Elements of the same rank: [less] puts neither before the other.  [less] is
    a weak order when having the same rank is transitive. *)
Definition same_rank (c x : Z) : Prop := less c x = false ∧ less x c = false.
#[local] Instance same_rank_dec c x : Decision (same_rank c x).
Proof. unfold same_rank. apply _. Defined.
Definition weak_order : Prop :=
  ∀ a b c, less a c = true → less a b = true ∨ less b c = true.

(** [ys] has the elements of [xs], and those of one rank in the same order. *)
Definition reorders (ys xs : list Z) : Prop :=
  ys ≡ₚ xs ∧ (weak_order → ∀ c, filter (same_rank c) ys = filter (same_rank c) xs).

#[local] Instance reorders_refl : Reflexive reorders.
Proof. by intros xs. Qed.
#[local] Instance reorders_trans : Transitive reorders.
Proof. intros xs ys zs [P1 S1] [P2 S2]. split; [by rewrite P1|]. intros Hw c. by rewrite S1, S2. Qed.

Lemma reorders_within pre xs ys post :
  reorders xs ys → reorders (pre ++ xs ++ post) (pre ++ ys ++ post).
Proof.
  intros [P Hs]. split; [by rewrite P|]. intros Hw c. rewrite !list.filter_app. by rewrite (Hs Hw c).
Qed.

Lemma sorted_least a A x : weak_order → Sorted ord (a :: A) → x ∈ a :: A → less x a = false.
Proof.
  intros Hw Hs. assert (Transitive ord) as Htr.
  { intros u v w Huv Hvw. apply not_true_is_false. intros Hwu.
    unfold KList.Correct.ord in *. destruct (Hw w v u Hwu); congruence. }
  apply Sorted_StronglySorted in Hs; [|exact Htr]. apply StronglySorted_inv in Hs as [_ Hall].
  intros [->|Hx]%elem_of_cons; [|by apply (proj1 (list.Forall_forall _ _) Hall)].
  destruct (less a a) eqn:E; [|done]. pose proof (less_asym _ _ E). congruence.
Qed.

(** An element may move before a run of greater ones. *)
Lemma reorders_over A a b :
  Sorted ord (a :: A) → less b a = true → reorders (b :: a :: A) ((a :: A) ++ [b]).
Proof.
  intros Hs Hba. split; [apply Permutation_cons_append|]. intros Hw c.
  rewrite list.filter_app, (filter_cons _ b), (filter_cons _ b []).
  destruct (decide (same_rank c b)) as [[Hcb Hbc]|]; [|by rewrite app_nil_r].
  destruct (filter (same_rank c) (a :: A)) as [|x F] eqn:E; [done|].
  assert (x ∈ filter (same_rank c) (a :: A)) as [[Hcx Hxc] Hx]%list_elem_of_filter
    by (rewrite E; left). exfalso.
  destruct (Hw b x a Hba) as [Hbx|Hxa].
  - destruct (Hw b c x Hbx); congruence.
  - by rewrite (sorted_least a A x Hw Hs Hx) in Hxa.
Qed.

(** The state of [inplace_merge]'s loop: [D] is merged, [A'] and [B'] are what
    is left of the two runs, and both would extend [D] in order. *)
Definition merge_inv (h : heap) (l : Z) (pre A B post : list Z) (k : nat)
    (D A' B' : list Z) (h' : heap) : Prop :=
  is_list h' l (pre ++ D ++ A' ++ B' ++ post) ∧ reorders (D ++ A' ++ B') (A ++ B) ∧
  Sorted ord (D ++ A') ∧ Sorted ord (D ++ B') ∧ k = length (A' ++ B') ∧
  same_outside (nodes l (pre ++ A ++ B ++ post)) h h'.

(** The first element of the second run is smaller: it moves before [a]. *)
Lemma merge_take_second h l pre A B post k D a A' b B' h' :
  merge_inv h l pre A B post k D (a :: A') (b :: B') h' → less b a = true →
  wp (a1b0 ← list_next b;
      p ← list_prev a1b0;
      list_splice a p a1b0;;
      mret (inl (B := unit) (a, a1b0)))
    (λ r h2, ∃ k', (k' < k)%nat ∧ r = inl (a, firstd (firstd (tail_of l) post) B') ∧
       merge_inv h l pre A B post k' (D ++ [b]) (a :: A') B' h2) h'.
Proof.
  intros (Hl & HP & HsA & HsB & -> & Hso) Hba.
  assert (is_list h' l ((pre ++ D ++ a :: A') ++ b :: B' ++ post)) as Hl3
    by by rewrite <-!app_assoc.
  assert (is_list h' l ((pre ++ D ++ (a :: A') ++ [b]) ++ B' ++ post)) as Hl4
    by by rewrite <-!app_assoc.
  assert (is_list h' l ((pre ++ D) ++ (a :: A') ++ [b] ++ (B' ++ post))) as Hl5
    by by rewrite <-!app_assoc.
  wp_unbind. eapply wp_list_next_elem; [done|]. wp_unbind.
  eapply wp_list_prev; [done|].
  rewrite (app_assoc D), (app_assoc pre), lastd_snoc. wp_unbind.
  eapply wp_mono; [by apply (list_splice_ok _ _ _ _ _ _ Hl5)|].
  intros _ h2 [Hl6 Hs6]. apply wp_ret. exists (length ((a :: A') ++ B')).
  split; [rewrite !length_app; simpl; lia|]. split; [by rewrite firstd_app|].
  unfold merge_inv. rewrite <-!app_assoc in *. split_and!; [done| | |done|done|].
  - etrans; [|exact HP].
    assert (Sorted ord (a :: A')) as Hs by by eapply Sorted_app_r.
    pose proof (reorders_within D _ _ B' (reorders_over A' a b Hs Hba)) as Hr.
    by rewrite <-(app_assoc (a :: A')) in Hr.
  - apply Sorted_snoc_app.
    + apply (Sorted_app_l _ B'). by rewrite <-app_assoc.
    + by eapply Sorted_app_r.
    + intros ? [= <-]. auto.
  - eapply same_outside_trans; [exact Hso|]. eapply same_outside_mono; [exact Hs6|].
    assert (∀ y, y ∈ D ++ (a :: A') ++ b :: B' → y ∈ A ++ B) as Hin
      by (intros y; by rewrite (proj1 HP)).
    clear -Hin. unfold nodes. intros x. specialize (Hin x). set_solver.
Qed.

(** The first element of the first run is not greater: it stays in place. *)
Lemma merge_take_first h l pre A B post k D a A' b B' h' :
  merge_inv h l pre A B post k D (a :: A') (b :: B') h' → less b a = false →
  wp (a0 ← list_next a; mret (inl (B := unit) (a0, b)))
    (λ r h2, ∃ k', (k' < k)%nat ∧ r = inl (firstd b A', b) ∧
       merge_inv h l pre A B post k' (D ++ [a]) A' (b :: B') h2) h'.
Proof.
  intros (Hl & HP & HsA & HsB & -> & Hso) Hba.
  assert (is_list h' l ((pre ++ D) ++ a :: A' ++ (b :: B') ++ post)) as Hl3
    by by rewrite <-!app_assoc.
  wp_unbind. eapply wp_list_next_elem; [done|]. apply wp_ret.
  exists (length (A' ++ b :: B')).
  split; [rewrite !length_app; simpl; lia|]. split; [by rewrite firstd_app|].
  unfold merge_inv. rewrite <-!app_assoc. split_and!; [done..| |done|done].
  apply Sorted_snoc_app.
  - apply (Sorted_app_l _ A'). by rewrite <-app_assoc.
  - by eapply Sorted_app_r.
  - by intros ? [= <-].
Qed.

(** The two runs [A] and [B] become one sorted run. *)
Lemma inplace_merge_ok fuel h l pre A B post :
  is_list h l (pre ++ A ++ B ++ post) → A ≠ [] → B ≠ [] →
  Sorted ord A → Sorted ord B → (length (A ++ B) < fuel)%nat →
  wp (inplace_merge less fuel (firstd NULL A) (firstd NULL B) (firstd (tail_of l) post))
    (λ _ h', ∃ R, reorders R (A ++ B) ∧ Sorted ord R ∧ is_list h' l (pre ++ R ++ post) ∧
       same_outside (nodes l (pre ++ A ++ B ++ post)) h h') h.
Proof.
  intros Hl HA HB HsA HsB Hf. rewrite length_app in Hf.
  assert (is_list h l ((pre ++ A) ++ B ++ post)) as HlB by by rewrite <-app_assoc.
  assert (is_list h l ((pre ++ A ++ B) ++ post)) as HlP by by rewrite <-!app_assoc.
  destruct (is_list_around _ _ _ _ Hl) as (_ & _ & _ & _ & _ & HnA).
  destruct (is_list_around _ _ _ _ HlB) as (_ & _ & _ & _ & _ & HnB).
  destruct (is_list_around _ _ _ _ HlP) as (_ & _ & _ & _ & _ & HnP).
  rewrite (firstd_app _ A), (firstd_app _ B) in HnA. rewrite (firstd_app _ B) in HnB.
  rewrite (firstd_indep NULL (firstd (firstd (tail_of l) post) B) A),
    (firstd_indep NULL (firstd (tail_of l) post) B) by done.
  unfold inplace_merge. repeat hstep. wp_unbind.
  rewrite <-(firstd_app (tail_of l) B post).
  eapply wp_mono; [apply (is_sorted_ok _ _ _ pre A); [done..|lia]|].
  intros ? ? [-> ->]. hstep. rewrite firstd_app. wp_unbind.
  eapply wp_mono; [apply (is_sorted_ok _ _ _ (pre ++ A) B); [done..|lia]|].
  intros ? ? [-> ->]. hstep.
  eapply (wp_loop (λ k '(a0, a1b0) h', ∃ D A' B',
    merge_inv h l pre A B post k D A' B' h' ∧
    a0 = firstd a1b0 A' ∧ a1b0 = firstd (firstd (tail_of l) post) B'));
    [|by exists [], A, B|rewrite length_app; lia].
  clear fuel Hf HsA HsB. intros k [? ?] h' (D & A' & B' & Hinv & -> & ->).
  pose proof Hinv as (Hl' & HP & HsA & HsB & -> & Hso).
  assert (is_list h' l ((pre ++ D) ++ A' ++ B' ++ post)) as Hl1 by by rewrite <-!app_assoc.
  assert (is_list h' l ((pre ++ D ++ A') ++ B' ++ post)) as Hl2 by by rewrite <-!app_assoc.
  rewrite <-(firstd_app (tail_of l) B' post), (firstd_eqb_cut _ _ _ _ _ Hl1).
  destruct A' as [|a A']; cbn [orb].
  { apply wp_ret. exists (D ++ B'). by rewrite <-app_assoc. }
  rewrite firstd_app, (firstd_eqb_cut _ _ _ _ _ Hl2).
  destruct B' as [|b B'].
  { apply wp_ret. exists (D ++ a :: A'). rewrite app_nil_r in HP. by rewrite <-app_assoc. }
  cbn [firstd]. destruct (less b a) eqn:Hba; cbn [negb];
    (eapply wp_mono; [by eapply merge_take_second || by eapply merge_take_first|]);
    intros r h2 (k' & ? & -> & ?); eauto 10.
Qed.
(** The number of maximal runs, the quantity a pass at least halves. *)
Fixpoint descents (xs : list Z) : nat :=
  match xs with
  | x :: ((y :: _) as t) => (if less y x then 1 else 0) + descents t
  | _ => 0
  end.
Definition nruns (xs : list Z) : nat :=
  match xs with [] => 0 | _ => S (descents xs) end.

Lemma descents_cons2 x y t :
  descents (x :: y :: t) = ((if less y x then 1 else 0) + descents (y :: t))%nat.
Proof. done. Qed.

Lemma nruns_cons x t : nruns (x :: t) = S (descents (x :: t)).
Proof. done. Qed.

Lemma nruns_app A B : (nruns (A ++ B) ≤ nruns A + nruns B)%nat.
Proof.
  destruct B as [|b B]; [rewrite app_nil_r; lia|].
  induction A as [|a A IH]; [done|]. destruct A as [|a' A].
  - simpl app. rewrite !nruns_cons, descents_cons2. destruct (less b a); lia.
  - rewrite <-!app_comm_cons, !nruns_cons, !descents_cons2 in *.
    destruct (less a' a); lia.
Qed.

Lemma nruns_length A : (nruns A ≤ length A)%nat.
Proof.
  induction A as [|a A IH]; [done|]. destruct A as [|a' A]; [done|].
  rewrite !nruns_cons, descents_cons2 in *. simpl length in *.
  destruct (less a' a); lia.
Qed.

Lemma nruns_sorted A : Sorted ord A → (nruns A ≤ 1)%nat.
Proof.
  induction 1 as [|a A Hs IH Hhd]; [simpl; lia|].
  destruct Hhd as [|a' A Ha]; [simpl; lia|]. unfold KList.Correct.ord in Ha.
  rewrite !nruns_cons, descents_cons2, Ha in *. lia.
Qed.

Lemma nruns_le1_sorted A : (nruns A ≤ 1)%nat → Sorted ord A.
Proof.
  induction A as [|a A IH]; [by constructor|]. intros Hn.
  destruct A as [|a' A]; [by repeat constructor|].
  rewrite !nruns_cons, descents_cons2 in *. destruct (less a' a) eqn:Ha; [lia|].
  constructor; [apply IH; lia|]. by constructor.
Qed.

Lemma nruns_cut a A b B :
  Sorted ord (a :: A) → less b (lastd a A) = true →
  nruns ((a :: A) ++ b :: B) = S (nruns (b :: B)).
Proof.
  revert a. induction A as [|a' A IH]; intros a Hs Hb.
  - simpl in *. by rewrite Hb.
  - inversion Hs as [|? ? Hs' Hhd]; subst. inversion Hhd as [|? ? Ha]; subst.
    specialize (IH a' Hs' Hb). rewrite <-!app_comm_cons, !nruns_cons in *.
    rewrite descents_cons2. unfold KList.Correct.ord in Ha. rewrite Ha. done.
Qed.

(** The state of the [for] loop of one pass: [pre] has been rewritten into at
    most [cnt] runs, [rest] is still untouched. *)
Definition pass_inv (h : heap) (l : Z) (xs : list Z) (k : nat) (x : Z * Z)
    (h' : heap) : Prop :=
  ∃ pre rest cnt, x = (firstd (tail_of l) rest, Z.of_nat cnt) ∧
    is_list h' l (pre ++ rest) ∧ reorders (pre ++ rest) xs ∧ (nruns pre ≤ cnt)%nat ∧
    (2 * cnt + nruns rest ≤ nruns xs)%nat ∧ k = length rest ∧
    same_outside (nodes l xs) h h'.

Lemma nodes_perm l xs ys a : xs ≡ₚ ys → a ∈ nodes l xs → a ∈ nodes l ys.
Proof. unfold nodes. intros HP. by rewrite HP. Qed.

Lemma sort_pass_ok fuel h l xs :
  is_list h l xs → (length xs < fuel)%nat → Z.of_nat (length xs) < 2 ^ 32 →
  wp (sort_pass less fuel l)
    (λ r h', ∃ xs' k, r = Z.of_nat k ∧ is_list h' l xs' ∧ reorders xs' xs ∧
       (nruns xs' ≤ k)%nat ∧ (2 * k ≤ nruns xs + 1)%nat ∧
       same_outside (nodes l xs) h h') h.
Proof.
  intros Hl Hf Hw. unfold sort_pass. wp_unbind. eapply wp_list_begin; [done|].
  eapply (wp_loop (pass_inv h l xs)); [|exists [], xs, 0%nat; split_and!; simpl; by try lia|done].
  intros k x h1 (pre & rest & cnt & -> & Hl1 & HP & Hpre & Hcnt & -> & Hso).
  pose proof (Permutation_length (proj1 HP)) as Hlen. rewrite length_app in Hlen.
  pose proof (nruns_length xs). wp_unbind. eapply wp_list_end; [done|].
  rewrite (firstd_eqb_tail _ _ _ _ Hl1). destruct rest as [|a rest].
  { apply wp_ret. exists (pre ++ []), cnt. rewrite app_nil_r in *. split_and!; auto. lia. }
  cbn [firstd]. assert (nruns (a :: rest) ≥ 1)%nat by (simpl; lia).
  rewrite u32_id by (unfold is_u32; lia).
  replace (Z.of_nat cnt + 1) with (Z.of_nat (S cnt)) by lia.
  simpl in Hlen. wp_unbind. eapply wp_list_end; [done|]. wp_unbind.
  eapply wp_mono; [apply (find_end_of_run_ok fuel _ _ pre); [done|lia]|].
  intros ? ? [-> (A & B & -> & -> & HsA & HmA)].
  assert (is_list h1 l ((pre ++ a :: A) ++ B)) as Hl2 by by rewrite <-app_assoc.
  wp_unbind. eapply wp_list_end; [done|]. rewrite (firstd_eqb_tail _ _ _ _ Hl2).
  destruct B as [|b B].
  { apply wp_ret. exists (pre ++ a :: A ++ []), (S cnt). split_and!; [done..| |lia|done].
    rewrite app_nil_r. pose proof (nruns_app pre (a :: A)).
    pose proof (nruns_sorted _ HsA). lia. }
  cbn [firstd]. wp_unbind.
  pose proof (nruns_cut _ _ _ B HsA HmA) as Hr1. rewrite length_app in Hlen. simpl in Hlen.
  eapply wp_mono; [apply (find_end_of_run_ok fuel _ _ (pre ++ a :: A)); [done|lia]|].
  intros ? ? [-> (B1 & C & -> & -> & HsB & HmB)].
  assert (nruns ((b :: B1) ++ C) = S (nruns C)) as Hr2.
  { destruct C as [|c C]; [|by apply nruns_cut]. rewrite app_nil_r. simpl nruns at 2.
    pose proof (nruns_sorted _ HsB). simpl in *. lia. }
  wp_unbind. assert (is_list h1 l (pre ++ (a :: A) ++ (b :: B1) ++ C)) as Hl3 by done.
  rewrite length_app in Hlen.
  eapply wp_mono; [apply (inplace_merge_ok fuel _ _ _ _ _ _ Hl3); [done..|]|].
  { rewrite length_app. simpl. lia. }
  intros _ h2 (R & HR & HsR & Hl4 & Hs4). apply wp_ret. exists (length C).
  split; [simpl; repeat (rewrite length_app; simpl); lia|].
  exists (pre ++ R), C, (S cnt). split_and!; [done|by rewrite <-app_assoc| | | |done|].
  - etrans; [|exact HP]. pose proof (reorders_within pre _ _ C HR) as Hr.
    by rewrite <-(app_assoc (a :: A)), (app_assoc pre R) in Hr.
  - pose proof (nruns_app pre R). pose proof (nruns_sorted _ HsR). lia.
  - simpl app in *. lia.
  - eapply same_outside_trans; [exact Hso|]. eapply same_outside_mono; [exact Hs4|].
    intros y. apply nodes_perm, HP.
Qed.

(** [list_sort] returns, and leaves the same elements in nondecreasing order,
    those of one rank in the order they had. *)
Lemma list_sort_ok fuel h l xs :
  is_list h l xs → (length xs < fuel)%nat → Z.of_nat (length xs) < 2 ^ 32 →
  wp (list_sort less fuel l)
    (λ _ h', ∃ xs', is_list h' l xs' ∧ reorders xs' xs ∧ Sorted ord xs' ∧
       same_outside (nodes l xs) h h') h.
Proof.
  intros Hl Hf Hw. destruct (is_list_nonnull _ _ _ Hl) as [? _].
  unfold list_sort. hstep. wp_unbind.
  eapply (wp_loop (λ k (_ : unit) h', ∃ xs', is_list h' l xs' ∧ reorders xs' xs ∧
    k = nruns xs' ∧ same_outside (nodes l xs) h h'));
    [|by exists xs|pose proof (nruns_length xs); lia].
  intros k ? h1 (xs1 & Hl1 & HP1 & -> & Hs1).
  pose proof (Permutation_length (proj1 HP1)) as Hlen. wp_unbind.
  eapply wp_mono; [apply (sort_pass_ok fuel); [done|lia|lia]|].
  intros r h2 (xs2 & k & -> & Hl2 & HP2 & Hk1 & Hk2 & Hs2).
  assert (same_outside (nodes l xs) h h2) as Hs12.
  { eapply same_outside_trans; [exact Hs1|]. eapply same_outside_mono; [exact Hs2|].
    intros y. apply nodes_perm, HP1. }
  assert (reorders xs2 xs) as HP3 by by etrans.
  destruct (1 <? Z.of_nat k) eqn:Hlt; apply wp_ret.
  { exists (nruns xs2). split; [lia|]. by exists xs2. }
  assert (Sorted ord xs2) as Hsort by (apply nruns_le1_sorted; lia).
  wp_unbind. eapply wp_list_begin; [done|]. wp_unbind. eapply wp_list_end; [done|].
  wp_unbind. assert (is_list h2 l ([] ++ xs2 ++ [])) as Hl3 by by rewrite app_nil_r.
  pose proof (Permutation_length (proj1 HP2)).
  eapply wp_mono; [apply (is_sorted_ok fuel _ _ _ _ _ Hl3); [done|lia]|].
  intros ? ? [-> ->]. apply wp_ASSERT. split; [done|]. by exists xs2.
Qed.
End sort.

(** * Reversal *)
Lemma firstd_rev d c : firstd d (rev c) = lastd d c.
Proof.
  destruct c as [|x c]; [done|]. destruct (cons_snoc x c) as [c1 Hc].
  rewrite Hc, rev_app_distr. simpl. by rewrite lastd_snoc.
Qed.
Lemma lastd_rev d c : lastd d (rev c) = firstd d c.
Proof. destruct c; [done|]. simpl. by rewrite lastd_snoc. Qed.

Lemma elem_of_rev (a : Z) c : a ∈ rev c ↔ a ∈ c.
Proof. by rewrite !list_elem_of_In, <-in_rev. Qed.

Lemma wp_swap_links h e p n Q :
  h !! e = Some (mk_elem p n) → Q tt (<[e:=mk_elem n p]> h) → wp (swap_links e) Q h.
Proof.
  intros He HQ. unfold swap_links. repeat hstep. by rewrite insert_insert_eq.
Qed.

(** After the loop the elements behind the cursor are linked backwards. *)
Definition rev_inv (h : heap) (l : Z) (xs : list Z) (k : nat) (e : Z) (h' : heap) : Prop :=
  ∃ xs1 xs2, xs = xs1 ++ xs2 ∧ k = length xs2 ∧ e = firstd (tail_of l) xs2 ∧
    chain h' (lastd (head_of l) xs1) xs2 (tail_of l) ∧
    chain h' (firstd (tail_of l) xs2) (rev xs1) (head_of l) ∧
    same_outside xs h h'.

Lemma rev_loop_ok fuel h l xs :
  is_list h l xs → (length xs < fuel)%nat →
  wp (loop fuel (λ e,
        en ← list_end l;
        if e =? en then mret (inr tt) else
        swap_links e;;
        e ← get_prev e;
        mret (inl e)) (firstd (tail_of l) xs))
    (λ _ h', chain h' (tail_of l) (rev xs) (head_of l) ∧ same_outside xs h h') h.
Proof.
  intros Hl Hf. pose proof Hl as (Hc & Hnd & H0). unfold nodes in Hc, Hnd.
  eapply (wp_loop (rev_inv h l xs)); [|exists [], xs; simpl in *; split_and!; try done|done].
  2: { destruct Hc as [_ Hc]. by apply chain_app in Hc as [Hc _]. }
  intros k e h1 (xs1 & xs2 & -> & -> & -> & Hc1 & Hc2 & Hs).
  assert (NoDup (xs1 ++ xs2)) as Hnd' by (by apply NoDup_cons in Hnd as [_ (?&_)%NoDup_app]).
  destruct (is_list_nonnull _ _ _ Hl) as [? _]. unfold list_end. repeat hstep.
  rewrite (firstd_eqb_tail _ _ _ _ Hl). destruct xs2 as [|x xs2].
  { apply wp_ret. simpl in *. by rewrite app_nil_r in *. }
  destruct Hc1 as [Hx Hc1]. cbn [firstd] in *.
  apply NoDup_app in Hnd' as (_ & Hd & [Hx2 _]%NoDup_cons).
  assert (x ∉ rev xs1).
  { rewrite elem_of_rev. intros Hin. apply (Hd x); set_solver. }
  wp_unbind. eapply wp_swap_links; [exact Hx|]. repeat hstep.
  exists (length xs2). split; [simpl; lia|]. exists (xs1 ++ [x]), xs2.
  rewrite rev_app_distr, lastd_snoc, <-app_assoc. simpl. rewrite firstd_rev.
  split_and!; [done..|by apply chain_insert_ne|apply lookup_insert_eq|by apply chain_insert_ne|].
  eapply same_outside_trans; [exact Hs|]. apply same_outside_insert. set_solver.
Qed.

Lemma list_reverse_ok fuel h l xs :
  is_list h l xs → (length xs < fuel)%nat →
  wp (list_reverse fuel l)
    (λ _ h', is_list h' l (rev xs) ∧ same_outside (nodes l xs) h h') h.
Proof.
  intros Hl Hf. unfold list_reverse. wp_unbind. eapply wp_list_empty; [done|].
  destruct xs as [|x xs]; [by apply wp_ret|].
  wp_unbind. eapply wp_list_begin; [done|]. wp_unbind.
  eapply wp_mono; [by apply rev_loop_ok|]. intros _ h1 [Hc1 Hs1].
  pose proof Hl as (Hc & Hnd & H0). unfold nodes in Hc, Hnd.
  set (c := x :: xs) in *. assert (c ≠ []) as Hne by done. clearbody c.
  assert (rev c ≠ []) as Hner.
  { intros E. apply (f_equal length) in E. rewrite length_rev in E. by destruct c. }
  assert (head_of l ≠ tail_of l) as Hht by (unfold head_of, tail_of; lia).
  apply NoDup_cons in Hnd as [Hhd Hnd]. apply NoDup_app in Hnd as (Hnc & Htl & _).
  assert ((head_of l ∉ c) ∧ (tail_of l ∉ c)) as [Hhc Htc] by set_solver.
  destruct Hc as [Lh Hc]. apply chain_app in Hc as [_ [Lt _]].
  rewrite firstd_app in Lh. simpl in Lh, Lt.
  rewrite <-(Hs1 _ Hhc) in Lh. rewrite <-(Hs1 _ Htc) in Lt.
  assert (NoDup (rev c)) as Hnr by by apply NoDup_ListNoDup, NoDup_rev, NoDup_ListNoDup.
  destruct (chain_seg_lookup_first _ _ (head_of l) _ _ Hner Hc1) as (m1 & Lg & _).
  destruct (chain_seg_lookup_last _ _ (tail_of l) _ _ Hner Hc1) as (m2 & Lf & _).
  rewrite firstd_rev in Lg. rewrite lastd_rev in Lf.
  set (f := firstd (tail_of l) c) in *. set (g := lastd (head_of l) c) in *.
  assert (f ∈ c ∧ g ∈ c) as [Hf' Hg'] by (split; [by apply firstd_elem|by apply lastd_elem]).
  assert (hnext h1 (head_of l) = Some f) as R1 by (unfold hnext; by rewrite Lh).
  assert (hprev h1 (tail_of l) = Some g) as R2 by (unfold hprev; by rewrite Lt).
  assert (hprev h1 g = Some (tail_of l)) as R3 by (unfold hprev; by rewrite Lg).
  assert (hnext h1 f = Some (head_of l)) as R4 by (unfold hnext; by rewrite Lf).
  assert (is_Some (h1 !! head_of l) ∧ is_Some (h1 !! tail_of l) ∧
    is_Some (h1 !! g) ∧ is_Some (h1 !! f)) as (? & ? & ? & ?) by (split_and!; eauto).
  assert (g ≠ head_of l ∧ g ≠ tail_of l ∧ f ≠ head_of l ∧ f ≠ tail_of l)
    as (? & ? & ? & ?) by (split_and!; congruence).
  repeat ustep. split.
  - unfold is_list, nodes. split_and!.
    + split; [|rewrite chain_app; split; [|split; [|done]]].
      * unfold upd_prev, upd_next.
        rewrite !lookup_alter_ne, lookup_alter_eq, Lh by congruence.
        simpl. rewrite firstd_app, firstd_rev. simpl. by rewrite (lastd_indep _ (head_of l)).
      * subst f g. rewrite <-(lastd_rev (tail_of l)), <-(firstd_rev (head_of l)) in *.
        eapply chain_seg_last; [done..|]. eapply chain_seg_first; [done..|].
        apply chain_upd_prev_ne; [by rewrite elem_of_rev|].
        apply chain_upd_next_ne; [by rewrite elem_of_rev|]. exact Hc1.
      * unfold upd_prev, upd_next.
        rewrite 2!lookup_alter_ne, lookup_alter_eq, lookup_alter_ne, Lt by congruence.
        simpl. rewrite lastd_rev. subst f. by rewrite (firstd_indep (head_of l) (tail_of l)).
    + constructor.
      * rewrite elem_of_app, elem_of_rev. rewrite elem_of_app in Hhd. done.
      * apply NoDup_app. split_and!; [done| |apply NoDup_singleton].
        intros y. rewrite elem_of_rev. auto.
    + unfold nodes in H0. rewrite elem_of_cons, elem_of_app in *. by rewrite elem_of_rev.
  - intros a Ha. unfold nodes in Ha. rewrite elem_of_cons, elem_of_app in Ha.
    unfold upd_prev, upd_next. rewrite !lookup_alter_ne; [apply Hs1; tauto|..];
      intros <-; apply Ha; set_solver.
Qed.
