(* ===== verification/Bitmap.v ===== *)
(** The kernel's bitmaps ([lib/kernel/bitmap.c]): an array of 32-bit words
    used as an array of bits, here the free map of the disk, the page pools
    and the swap slots.  The state of every operation is the [struct bitmap]
    its argument [b] points to. *)
From Stdlib Require Import ZArith Lia.
From stdpp Require Import base tactics option numbers list gmap.
From S2P Require Import Prelude.

Open Scope Z_scope.

(** [elem_type] is [unsigned long], 32 bits on the i386. *)
Definition ELEM_BITS : Z := 32.
Definition BITMAP_ERROR : Z := 2 ^ 32 - 1.

(** [struct bitmap], with the array [bits] points to. *)
Record bitmap := mk_bitmap { bit_cnt : Z; bits : list Z }.

Definition elem_idx (bit_idx : Z) : Z := bit_idx / ELEM_BITS.

Definition bit_mask (bit_idx : Z) : Z := Z.shiftl 1 (bit_idx mod ELEM_BITS).

Definition elem_cnt (bit_cnt : Z) : Z := u32 (bit_cnt + ELEM_BITS - 1) / ELEM_BITS.

Definition byte_cnt (bit_cnt : Z) : Z := u32 (4 * elem_cnt bit_cnt).

Definition last_mask (b : bitmap) : Z :=
  let last_bits := bit_cnt b mod ELEM_BITS in
  if last_bits =? 0 then 2 ^ 32 - 1 else Z.shiftl 1 last_bits - 1.

Module Ops.

(** [b->bits[idx]] read, and updated by one of the read-modify-write
    instructions. *)
Definition load (idx : Z) : M bitmap Z :=
  b ← get; deref (bits b !! Z.to_nat idx).
Definition store (idx w : Z) : M bitmap unit :=
  b ← get;
  deref (bits b !! Z.to_nat idx);;
  put (mk_bitmap (bit_cnt b) (<[Z.to_nat idx := w]> (bits b))).

Definition bitmap_size : M bitmap Z := gets bit_cnt.

Definition bitmap_mark (bit_idx : Z) : M bitmap unit :=
  let idx := elem_idx bit_idx in
  let mask := bit_mask bit_idx in
  w ← load idx; store idx (Z.lor w mask).

(** [~mask] is the 32-bit complement of the mask. *)
Definition bitmap_reset (bit_idx : Z) : M bitmap unit :=
  let idx := elem_idx bit_idx in
  let mask := bit_mask bit_idx in
  w ← load idx; store idx (Z.land w (Z.lxor (2 ^ 32 - 1) mask)).

Definition bitmap_flip (bit_idx : Z) : M bitmap unit :=
  let idx := elem_idx bit_idx in
  let mask := bit_mask bit_idx in
  w ← load idx; store idx (Z.lxor w mask).

Definition bitmap_set (idx : Z) (value : bool) : M bitmap unit :=
  b ← get;
  ASSERT (idx <? bit_cnt b);;
  if value then bitmap_mark idx else bitmap_reset idx.

Definition bitmap_test (idx : Z) : M bitmap bool :=
  b ← get;
  ASSERT (idx <? bit_cnt b);;
  w ← load (elem_idx idx);
  mret (negb (Z.land w (bit_mask idx) =? 0)).

Definition bitmap_set_multiple (start cnt : Z) (value : bool) : M bitmap unit :=
  b ← get;
  ASSERT (start <=? bit_cnt b);;
  ASSERT (u32 (start + cnt) <=? bit_cnt b);;
  for_upto (Z.to_nat cnt) 0 (λ i, bitmap_set (u32 (start + i)) value).

Definition bitmap_set_all (value : bool) : M bitmap unit :=
  n ← bitmap_size; bitmap_set_multiple 0 n value.

(** [bitmap_create] and [bitmap_create_in_buf] build the same bitmap; [block]
    is what the storage held before. *)
Definition bitmap_create (bit_cnt : Z) (block : list Z) : outcome bitmap :=
  match bitmap_set_all false (mk_bitmap bit_cnt block) with
  | Ok (_, b) => Ok b
  | Panic => Panic
  | Undef => Undef
  | NoFuel => NoFuel
  end.

Fixpoint count_loop (start : Z) (value : bool) (n : nat) (i value_cnt : Z) : M bitmap Z :=
  match n with
  | O => mret value_cnt
  | S n' =>
      x ← bitmap_test (u32 (start + i));
      count_loop start value n' (i + 1)
        (if Bool.eqb x value then u32 (value_cnt + 1) else value_cnt)
  end.

Definition bitmap_count (start cnt : Z) (value : bool) : M bitmap Z :=
  b ← get;
  ASSERT (start <=? bit_cnt b);;
  ASSERT (u32 (start + cnt) <=? bit_cnt b);;
  count_loop start value (Z.to_nat cnt) 0 0.

Definition bitmap_contains (start cnt : Z) (value : bool) : M bitmap bool :=
  b ← get;
  ASSERT (start <=? bit_cnt b);;
  ASSERT (u32 (start + cnt) <=? bit_cnt b);;
  r ← for_return (Z.to_nat cnt) 0 (λ i,
    x ← bitmap_test (u32 (start + i));
    mret (if Bool.eqb x value then Some true else None));
  mret (default false r).

Definition bitmap_any (start cnt : Z) : M bitmap bool :=
  bitmap_contains start cnt true.
Definition bitmap_none (start cnt : Z) : M bitmap bool :=
  r ← bitmap_contains start cnt true; mret (negb r).
Definition bitmap_all (start cnt : Z) : M bitmap bool :=
  r ← bitmap_contains start cnt false; mret (negb r).

Definition bitmap_scan (start cnt : Z) (value : bool) : M bitmap Z :=
  b ← get;
  ASSERT (start <=? bit_cnt b);;
  if cnt <=? bit_cnt b then
    let last := bit_cnt b - cnt in
    r ← for_return (Z.to_nat (last - start + 1)) start (λ i,
      c ← bitmap_contains i cnt (negb value);
      mret (if c : bool then None else Some i));
    mret (default BITMAP_ERROR r)
  else mret BITMAP_ERROR.

Definition bitmap_scan_and_flip (start cnt : Z) (value : bool) : M bitmap Z :=
  idx ← bitmap_scan start cnt value;
  (if negb (idx =? BITMAP_ERROR) then bitmap_set_multiple idx cnt (negb value)
   else mret tt);;
  mret idx.

Definition bitmap_file_size : M bitmap Z := gets (λ b, byte_cnt (bit_cnt b)).
End Ops.

(** * The bits of a bitmap and its invariant *)
Definition bit (b : bitmap) (i : Z) : bool :=
  Z.testbit (default 0 (bits b !! Z.to_nat (elem_idx i))) (i mod ELEM_BITS).

(** The array has exactly the words the bit count needs.  The bound on the
    count is where [DIV_ROUND_UP] would wrap around. *)
Record wf (b : bitmap) : Prop := {
  wf_cnt : 0 ≤ bit_cnt b ≤ 2 ^ 32 - 32;
  wf_len : Z.of_nat (length (bits b)) = elem_cnt (bit_cnt b);
  wf_words : Forall is_u32 (bits b) }.

(** [b'] is [b] with the bits in [start, start + cnt) set to [value]. *)
Definition set_range (b b' : bitmap) (start cnt : Z) (value : bool) : Prop :=
  wf b' ∧ bit_cnt b' = bit_cnt b ∧
  ∀ i, 0 ≤ i → bit b' i = if (start <=? i) && (i <? start + cnt) then value else bit b i.

Lemma elem_cnt_eq n : 0 ≤ n ≤ 2 ^ 32 - 32 → elem_cnt n = (n + 31) / 32.
Proof.
  intros. unfold elem_cnt, ELEM_BITS. rewrite u32_id; [f_equal; lia|].
  unfold is_u32. lia.
Qed.

Lemma wf_idx b i : wf b → 0 ≤ i < bit_cnt b →
  (Z.to_nat (elem_idx i) < length (bits b))%nat.
Proof.
  intros [Hc Hl _] Hi. rewrite elem_cnt_eq in Hl by done. unfold elem_idx, ELEM_BITS.
  assert (i / 32 < (bit_cnt b + 31) / 32); [|pose proof (Z.div_pos i 32); lia].
  apply Z.div_lt_upper_bound; [lia|].
  pose proof (Z.div_mod (bit_cnt b + 31) 32). pose proof (Z.mod_pos_bound (bit_cnt b + 31) 32).
  lia.
Qed.

Lemma bit_mask_eq i : bit_mask i = 2 ^ (i mod 32).
Proof. unfold bit_mask, ELEM_BITS. apply Z.shiftl_1_l. Qed.

Lemma bit_mask_spec i j :
  0 ≤ j → Z.testbit (bit_mask i) j = (i mod 32 =? j).
Proof.
  intros Hj. rewrite bit_mask_eq. pose proof (Z.mod_pos_bound i 32).
  apply Z.pow2_bits_eqb. lia.
Qed.

Lemma is_u32_bit_mask i : is_u32 (bit_mask i).
Proof.
  rewrite bit_mask_eq. pose proof (Z.mod_pos_bound i 32). unfold is_u32. split; [lia|].
  apply Z.pow_lt_mono_r; lia.
Qed.

(** Same word and same bit inside it means same index. *)
Lemma idx_inj i j : 0 ≤ i → 0 ≤ j →
  elem_idx i = elem_idx j → i mod 32 = j mod 32 → i = j.
Proof.
  unfold elem_idx, ELEM_BITS. intros. rewrite (Z.div_mod i 32), (Z.div_mod j 32) by lia.
  congruence.
Qed.

Module Correct.
Import Ops.

Lemma load_ok b i Q : wf b → 0 ≤ i < bit_cnt b →
  (∀ w, bits b !! Z.to_nat (elem_idx i) = Some w → is_u32 w → Q w b) →
  wp (load (elem_idx i)) Q b.
Proof.
  intros Hw Hi HQ. unfold load. wp_simpl.
  destruct (lookup_lt_is_Some_2 (bits b) _ (wf_idx _ _ Hw Hi)) as [w Ew].
  exists w. split; [done|]. apply HQ; [done|].
  by eapply Forall_lookup_1; [apply Hw|].
Qed.

(** A read-modify-write of the word of bit [i]. *)
Lemma update_ok b i (f : Z → Z) (v : bool → bool) :
  wf b → 0 ≤ i < bit_cnt b →
  (∀ w, is_u32 w → is_u32 (f w)) →
  (∀ w j, is_u32 w → 0 ≤ j → Z.testbit (f w) j = if i mod 32 =? j then v (Z.testbit w j) else Z.testbit w j) →
  wp (w ← load (elem_idx i); store (elem_idx i) (f w))
    (λ _ b', wf b' ∧ bit_cnt b' = bit_cnt b ∧
       ∀ j, 0 ≤ j → bit b' j = if i =? j then v (bit b j) else bit b j) b.
Proof.
  intros Hw Hi Hf Hv. wp_unbind. eapply load_ok; [done..|]. intros w Ew Hu.
  unfold store. wp_go. rewrite Ew. wp_go.
  pose proof (wf_idx _ _ Hw Hi) as Hlt. split_and!; [|done|].
  - destruct Hw as [Hc Hl Hws]. split; simpl; [done|by rewrite length_insert|].
    apply Forall_insert; auto.
  - intros j Hj. unfold bit; simpl. change ELEM_BITS with 32.
    destruct (decide (elem_idx i = elem_idx j)) as [E|E].
    + rewrite <-E, list_lookup_insert_eq, Ew by done. simpl.
      rewrite Hv by (done || (apply Z.mod_pos_bound; lia)).
      destruct (Z.eqb_spec i j) as [->|Hne]; [by rewrite Z.eqb_refl|].
      destruct (Z.eqb_spec (i mod 32) (j mod 32)); [|done].
      destruct Hne. apply idx_inj; [lia..|done|done].
    + rewrite list_lookup_insert_ne.
      * destruct (Z.eqb_spec i j) as [->|]; done.
      * unfold elem_idx, ELEM_BITS in *. pose proof (Z.div_pos i 32).
        pose proof (Z.div_pos j 32). lia.
Qed.

Lemma set_range_one b b' i v :
  (wf b' ∧ bit_cnt b' = bit_cnt b ∧
   ∀ j, 0 ≤ j → bit b' j = if i =? j then v else bit b j) →
  set_range b b' i 1 v.
Proof.
  intros (? & ? & Hb). split_and!; [done..|]. intros j Hj. rewrite Hb by done.
  destruct (Z.eqb_spec i j), (Z.leb_spec i j), (Z.ltb_spec j (i + 1)); simpl; try done; lia.
Qed.

Lemma bitmap_mark_ok b i :
  wf b → 0 ≤ i < bit_cnt b → wp (bitmap_mark i) (λ _ b', set_range b b' i 1 true) b.
Proof.
  intros Hw Hi. eapply wp_mono.
  - apply (update_ok b i (λ w, Z.lor w (bit_mask i)) (λ _, true)); [done..| |].
    + intros. apply is_u32_lor; [done|apply is_u32_bit_mask].
    + intros w j _ Hj. rewrite Z.lor_spec, bit_mask_spec by done.
      destruct (i mod 32 =? j); [apply orb_true_r|apply orb_false_r].
  - intros ? b' H. by apply set_range_one.
Qed.

Lemma bitmap_reset_ok b i :
  wf b → 0 ≤ i < bit_cnt b → wp (bitmap_reset i) (λ _ b', set_range b b' i 1 false) b.
Proof.
  intros Hw Hi. pose proof (Z.mod_pos_bound i 32). eapply wp_mono.
  - apply (update_ok b i (λ w, Z.land w (Z.lxor (2 ^ 32 - 1) (bit_mask i))) (λ _, false));
      [done..| |].
    + intros. by apply is_u32_land.
    + intros w j [_ Hw32]%is_u32_bits Hj. change (2 ^ 32 - 1) with (Z.ones 32).
      rewrite Z.land_spec, Z.lxor_spec, bit_mask_spec, Z.testbit_ones_nonneg by lia.
      destruct (Z.eqb_spec (i mod 32) j), (Z.ltb_spec j 32); simpl;
        rewrite ?andb_true_r, ?andb_false_r; try done; [lia|by rewrite Hw32].
  - intros ? b' H'. by apply set_range_one.
Qed.

Lemma bitmap_flip_ok b i :
  wf b → 0 ≤ i < bit_cnt b →
  wp (bitmap_flip i) (λ _ b', set_range b b' i 1 (negb (bit b i))) b.
Proof.
  intros Hw Hi. eapply wp_mono.
  - apply (update_ok b i (λ w, Z.lxor w (bit_mask i)) negb); [done..| |].
    + intros. apply is_u32_lxor; [done|apply is_u32_bit_mask].
    + intros w j _ Hj. rewrite Z.lxor_spec, bit_mask_spec by done.
      destruct (i mod 32 =? j); [apply xorb_true_r|apply xorb_false_r].
  - intros ? b' (? & ? & Hb). apply set_range_one. split_and!; [done..|].
    intros j Hj. rewrite Hb by done. by destruct (Z.eqb_spec i j) as [->|].
Qed.

Lemma bitmap_set_ok b i v :
  wf b → 0 ≤ i < bit_cnt b → wp (bitmap_set i v) (λ _ b', set_range b b' i 1 v) b.
Proof.
  intros Hw Hi. unfold bitmap_set. wp_assert (apply Z.ltb_lt; lia). destruct v; [by apply bitmap_mark_ok|by apply bitmap_reset_ok].
Qed.

Lemma bitmap_test_ok b i Q :
  wf b → 0 ≤ i < bit_cnt b → Q (bit b i) b → wp (bitmap_test i) Q b.
Proof.
  intros Hw Hi HQ. unfold bitmap_test. wp_assert (apply Z.ltb_lt; lia).
  eapply load_ok; [done..|]. intros w Ew Hu. apply wp_ret.
  assert (negb (Z.land w (bit_mask i) =? 0) = bit b i) as ->; [|done].
  unfold bit. rewrite Ew. simpl. pose proof (Z.mod_pos_bound i 32).
  destruct (Z.testbit w (i mod ELEM_BITS)) eqn:Et; change ELEM_BITS with 32 in Et.
  - apply negb_true_iff, Z.eqb_neq. intros E.
    apply (f_equal (λ z, Z.testbit z (i mod 32))) in E.
    rewrite Z.land_spec, bit_mask_spec, Et, Z.eqb_refl, Z.bits_0 in E by lia. done.
  - apply negb_false_iff, Z.eqb_eq. apply Z.bits_inj'. intros j Hj.
    rewrite Z.land_spec, bit_mask_spec, Z.bits_0 by lia.
    destruct (Z.eqb_spec (i mod 32) j) as [<-|]; [by rewrite Et|apply andb_false_r].
Qed.

Lemma set_range_snoc b b1 b2 start i v :
  0 ≤ i → set_range b b1 start i v → set_range b1 b2 (start + i) 1 v →
  set_range b b2 start (i + 1) v.
Proof.
  intros Hi (_ & E1 & H1) (? & E2 & H2). split_and!; [done|congruence|].
  intros j Hj. rewrite H2, H1 by done.
  destruct (Z.leb_spec start j), (Z.ltb_spec j (start + i)), (Z.leb_spec (start + i) j),
    (Z.ltb_spec j (start + i + 1)), (Z.ltb_spec j (start + (i + 1))); simpl; try done; lia.
Qed.

Lemma bitmap_set_multiple_ok b start cnt v :
  wf b → 0 ≤ start → 0 ≤ cnt → start + cnt ≤ bit_cnt b →
  wp (bitmap_set_multiple start cnt v) (λ _ b', set_range b b' start cnt v) b.
Proof.
  intros Hw Hs Hc Hle. pose proof (wf_cnt _ Hw).
  unfold bitmap_set_multiple. wp_assert (apply Z.leb_le; lia).
  rewrite u32_id by (unfold is_u32; lia). wp_assert (apply Z.leb_le; lia).
  eapply wp_mono; [apply (wp_for_upto (λ i b', set_range b b' start i v))|].
  - intros j b1 Hj Hb1. pose proof Hb1 as (Hw1 & E1 & _).
    rewrite u32_id by (unfold is_u32; lia).
    eapply wp_mono; [apply bitmap_set_ok; [done|lia]|].
    intros ? b2 Hb2. cbn beta in *. apply (set_range_snoc b b1); [lia|done..].
  - split_and!; [done..|]. intros i Hi.
    destruct (Z.leb_spec start i), (Z.ltb_spec i (start + 0)); simpl; try done; lia.
  - intros ? b' Hb'. cbn beta in Hb'. by rewrite Z2Nat.id in Hb' by done.
Qed.
(** Every bit of the range has the value. *)
Definition all_eq (b : bitmap) (start cnt : Z) (v : bool) : Prop :=
  ∀ i, start ≤ i < start + cnt → bit b i = v.

Lemma bitmap_contains_ok b start cnt v :
  wf b → 0 ≤ start → 0 ≤ cnt → start + cnt ≤ bit_cnt b →
  wp (bitmap_contains start cnt v)
    (λ r b', b' = b ∧ (r = false ↔ all_eq b start cnt (negb v))) b.
Proof.
  intros Hw Hs Hc Hle. pose proof (wf_cnt _ Hw).
  unfold bitmap_contains. wp_assert (apply Z.leb_le; lia).
  rewrite u32_id by (unfold is_u32; lia). wp_assert (apply Z.leb_le; lia).
  eapply (wp_for_return (λ i b', b' = b ∧ all_eq b start i (negb v))).
  - intros j ? Hj [-> Hall]. rewrite u32_id by (unfold is_u32; lia).
    wp_unbind. eapply bitmap_test_ok; [done|lia|]. wp_go.
    destruct (Bool.eqb_spec (bit b (start + j)) v) as [Eb|Eb].
    + wp_go. split; [done|]. simpl. split; [done|]. intros Ha.
      rewrite (Ha (start + j)) in Eb by lia. by destruct v.
    + split; [done|]. intros i Hi. destruct (decide (i = start + j)) as [->|].
      * by destruct (bit b (start + j)), v.
      * apply Hall. lia.
  - intros ? [-> Hall]. wp_go. split; [done|]. simpl. rewrite Z2Nat.id in Hall by done.
    done.
  - split; [done|]. intros i Hi. lia.
Qed.

(** The result of a scan for [cnt] consecutive bits of value [v]. *)
Definition scan_result (b : bitmap) (start cnt : Z) (v : bool) (r : Z) : Prop :=
  (start ≤ r ∧ r + cnt ≤ bit_cnt b ∧ all_eq b r cnt v ∧
   ∀ i, start ≤ i < r → ¬ all_eq b i cnt v) ∨
  (r = BITMAP_ERROR ∧ ∀ i, start ≤ i → i + cnt ≤ bit_cnt b → ¬ all_eq b i cnt v).

Lemma bitmap_scan_ok b start cnt v :
  wf b → 0 ≤ start ≤ bit_cnt b → 0 ≤ cnt →
  wp (bitmap_scan start cnt v) (λ r b', b' = b ∧ scan_result b start cnt v r) b.
Proof.
  intros Hw Hs Hc. unfold bitmap_scan. wp_assert (apply Z.leb_le; lia).
  destruct (Z.leb_spec cnt (bit_cnt b)) as [Hle|Hgt].
  2: { wp_go. split; [done|]. right. split; [done|]. intros. lia. }
  wp_unbind.
  eapply (wp_for_return (λ i b', b' = b ∧ ∀ j, start ≤ j < i → ¬ all_eq b j cnt v)).
  - intros j ? Hj [-> Hno]. wp_unbind.
    eapply wp_mono; [apply bitmap_contains_ok; [done|lia..]|].
    intros c ? [-> Hc']. rewrite negb_involutive in Hc'. wp_go.
    destruct c.
    + split; [done|]. intros i Hi. destruct (decide (i = j)) as [->|]; [|apply Hno; lia].
      intros Ha%Hc'. done.
    + wp_go. split; [done|]. left. split_and!; [simpl; lia|simpl; lia|by apply Hc'|done].
  - intros ? [-> Hno]. wp_go. split; [done|]. right. split; [done|].
    intros i Hi Hic. apply Hno. lia.
  - split; [done|]. intros; lia.
Qed.

Lemma bitmap_scan_and_flip_ok b start cnt v :
  wf b → 0 ≤ start ≤ bit_cnt b → 0 ≤ cnt →
  wp (bitmap_scan_and_flip start cnt v)
    (λ r b', scan_result b start cnt v r ∧
       if r =? BITMAP_ERROR then b' = b else set_range b b' r cnt (negb v)) b.
Proof.
  intros Hw Hs Hc. pose proof (wf_cnt _ Hw). unfold bitmap_scan_and_flip. wp_unbind.
  eapply wp_mono; [by apply bitmap_scan_ok|]. intros r ? [-> Hr]. wp_unbind.
  destruct (Z.eqb_spec r BITMAP_ERROR) as [->|Hne]; simpl.
  - wp_go. by rewrite Z.eqb_refl.
  - destruct Hr as [Hr|[? _]]; [|done]. wp_unbind.
    eapply wp_mono; [apply bitmap_set_multiple_ok; [done|lia..]|].
    intros ? b' Hb'. wp_go. split; [by left|]. by rewrite (proj2 (Z.eqb_neq _ _) Hne).
Qed.

Lemma bitmap_all_ok b start cnt :
  wf b → 0 ≤ start → 0 ≤ cnt → start + cnt ≤ bit_cnt b →
  wp (bitmap_all start cnt)
    (λ r b', b' = b ∧ (r = true ↔ all_eq b start cnt true)) b.
Proof.
  intros. unfold bitmap_all. wp_unbind. eapply wp_mono; [by apply bitmap_contains_ok|].
  intros r ? [-> Hr]. wp_go. split; [done|]. rewrite <-Hr. by destruct r.
Qed.

(** The number of bits of value [v] in the range. *)
Definition count_range (b : bitmap) (start cnt : Z) (v : bool) : nat :=
  length (filter (λ i, bit b i = v) (seqZ start cnt)).

Lemma count_loop_ok b start v n i k :
  wf b → 0 ≤ start → 0 ≤ k ≤ i → start + i + Z.of_nat n ≤ bit_cnt b →
  wp (count_loop start v n i k) (λ r b', b' = b ∧
    r = k + Z.of_nat (count_range b (start + i) (Z.of_nat n) v)) b.
Proof.
  intros Hw Hs. pose proof (wf_cnt _ Hw).
  revert i k. induction n as [|n IH]; intros i k Hk Hn; simpl.
  { wp_go. split; [done|]. unfold count_range. simpl. lia. }
  wp_unbind. rewrite u32_id by (unfold is_u32; lia).
  eapply bitmap_test_ok; [done|lia|]. rewrite (u32_id (k + 1)) by (unfold is_u32; lia).
  unfold count_range. rewrite (seqZ_cons (start + i)), filter_cons by lia.
  replace (Z.pred (Z.of_nat (S n))) with (Z.of_nat n) by lia.
  replace (Z.succ (start + i)) with (start + (i + 1)) by lia.
  destruct (Bool.eqb_spec (bit b (start + i)) v) as [E|E];
    (eapply wp_mono; [apply IH; lia|]); intros r b' [-> ->]; (split; [done|]);
    case_decide; try done; simpl; unfold count_range; lia.
Qed.

Lemma bitmap_count_ok b start cnt v :
  wf b → 0 ≤ start → 0 ≤ cnt → start + cnt ≤ bit_cnt b →
  wp (bitmap_count start cnt v)
    (λ r b', b' = b ∧ r = Z.of_nat (count_range b start cnt v)) b.
Proof.
  intros Hw Hs Hc Hle. pose proof (wf_cnt _ Hw).
  unfold bitmap_count. wp_assert (apply Z.leb_le; lia).
  rewrite u32_id by (unfold is_u32; lia). wp_assert (apply Z.leb_le; lia).
  eapply wp_mono; [apply count_loop_ok; [done|lia..]|]. intros r b' [-> ->].
  by rewrite Z.add_0_r, Z2Nat.id by lia.
Qed.

(** [bitmap_create] clears whatever the storage held. *)
Lemma bitmap_create_ok n block :
  0 ≤ n ≤ 2 ^ 32 - 32 → Z.of_nat (length block) = elem_cnt n → Forall is_u32 block →
  ∃ b, bitmap_create n block = Ok b ∧ wf b ∧ bit_cnt b = n ∧ all_eq b 0 n false.
Proof.
  intros Hn Hl Hw. assert (wf (mk_bitmap n block)) as Hwf by done.
  assert (wp (bitmap_set_all false)
    (λ _ b', set_range (mk_bitmap n block) b' 0 n false) (mk_bitmap n block)) as H.
  { unfold bitmap_set_all, bitmap_size. wp_go.
    apply bitmap_set_multiple_ok; simpl; [done|lia..]. }
  apply wp_ok in H as (a & b & E & Hb & Hc & Hbits). exists b.
  unfold bitmap_create. rewrite E. split_and!; [done..|].
  intros i Hi. rewrite Hbits by lia.
  by rewrite (proj2 (Z.leb_le _ _)), (proj2 (Z.ltb_lt _ _)) by lia.
Qed.
End Correct.
