(* ===== verification/CString.v ===== *)
(** Blocks of memory and C strings ([lib/string.c]), on a flat memory: a
    finite map from addresses to bytes, in which an access to an address that
    is not there is undefined.  Strings end at their null byte, so a scan
    visits at most as many addresses as the memory has. *)
From Stdlib Require Import ZArith Lia.
From stdpp Require Import base tactics option numbers list gmap.
From S2P Require Import Prelude.

Open Scope Z_scope.

Abbreviation mem := (gmap Z Z).
Definition NULL : Z := 0.

Module Ops.
Definition load (a : Z) : M mem Z := m ← get; deref (m !! a).
Definition store (a v : Z) : M mem unit :=
  m ← get; deref (m !! a);; put (<[a := v]> m).

(** The bound of the loops that run to a null byte. *)
Definition scan {X Y} (body : X → M mem (X + Y)) (x : X) : M mem Y :=
  m ← get; loop (S (size m)) body x.

Definition memcpy (dst src size : Z) : M mem Z :=
  ASSERT (negb (dst =? NULL) || (size =? 0));;
  ASSERT (negb (src =? NULL) || (size =? 0));;
  for_upto (Z.to_nat size) 0 (λ i, b ← load (src + i); store (dst + i) b);;
  mret dst.

(** It returns [dst], which the first loop has moved on. *)
Definition memmove (dst src size : Z) : M mem Z :=
  ASSERT (negb (dst =? NULL) || (size =? 0));;
  ASSERT (negb (src =? NULL) || (size =? 0));;
  if dst <? src then
    for_upto (Z.to_nat size) 0 (λ i, b ← load (src + i); store (dst + i) b);;
    mret (dst + size)
  else
    for_upto (Z.to_nat size) 1 (λ i, b ← load (src + size - i); store (dst + size - i) b);;
    mret dst.

Definition memcmp (a b size : Z) : M mem Z :=
  ASSERT (negb (a =? NULL) || (size =? 0));;
  ASSERT (negb (b =? NULL) || (size =? 0));;
  r ← for_return (Z.to_nat size) 0 (λ i,
        x ← load (a + i);
        y ← load (b + i);
        mret (if x =? y then None else Some (if y <? x then 1 else -1)));
  mret (default 0 r).

Definition strcmp (a b : Z) : M mem Z :=
  ASSERT (negb (a =? NULL));;
  ASSERT (negb (b =? NULL));;
  scan (λ i,
    x ← load (a + i);
    y ← load (b + i);
    mret (if negb (x =? 0) && (x =? y) then inl (i + 1)
          else inr (if x <? y then -1 else if y <? x then 1 else 0))) 0.

Definition memchr (block ch size : Z) : M mem Z :=
  let ch := ch mod 256 in
  ASSERT (negb (block =? NULL) || (size =? 0));;
  r ← for_return (Z.to_nat size) 0 (λ i,
        x ← load (block + i); mret (if x =? ch then Some (block + i) else None));
  mret (default NULL r).

Definition strchr (string c : Z) : M mem Z :=
  let c := c mod 256 in
  ASSERT (negb (string =? NULL));;
  scan (λ p,
    x ← load p;
    mret (if x =? c then inr p
          else if x =? 0 then inr NULL
          else inl (p + 1))) string.

Definition strcspn (string stop : Z) : M mem Z :=
  scan (λ length,
    x ← load (string + length);
    if x =? 0 then mret (inr length) else
    r ← strchr stop x;
    mret (if negb (r =? NULL) then inr length else inl (length + 1))) 0.

Definition strpbrk (string stop : Z) : M mem Z :=
  scan (λ p,
    x ← load p;
    if x =? 0 then mret (inr NULL) else
    r ← strchr stop x;
    mret (if negb (r =? NULL) then inr p else inl (p + 1))) string.

Definition strrchr (string c : Z) : M mem Z :=
  let c := c mod 256 in
  scan (λ '(s, p),
    x ← load s;
    mret (if x =? 0 then inr p
          else inl (s + 1, if x =? c then s else p))) (string, NULL).

Definition strspn (string skip : Z) : M mem Z :=
  scan (λ length,
    x ← load (string + length);
    if x =? 0 then mret (inr length) else
    r ← strchr skip x;
    mret (if r =? NULL then inr length else inl (length + 1))) 0.

Definition strlen (string : Z) : M mem Z :=
  ASSERT (negb (string =? NULL));;
  scan (λ p, x ← load p; mret (if x =? 0 then inr (p - string) else inl (p + 1))) string.

Definition strstr (haystack needle : Z) : M mem Z :=
  haystack_len ← strlen haystack;
  needle_len ← strlen needle;
  if needle_len <=? haystack_len then
    r ← for_return (Z.to_nat (haystack_len - needle_len + 1)) 0 (λ i,
          c ← memcmp (haystack + i) needle needle_len;
          mret (if c =? 0 then Some (haystack + i) else None));
    mret (default NULL r)
  else mret NULL.

(** [*save_ptr] is an argument and part of the result. *)
Definition strtok_r (s delimiters save_ptr : Z) : M mem (Z * Z) :=
  ASSERT (negb (delimiters =? NULL));;
  let s := if s =? NULL then save_ptr else s in
  ASSERT (negb (s =? NULL));;
  r ← scan (λ s,
        x ← load s;
        d ← strchr delimiters x;
        if negb (d =? NULL) then
          mret (if x =? 0 then inr (inl s) else inl (s + 1))
        else mret (inr (inr s))) s;
  match r with
  | inl s => mret (NULL, s)
  | inr token =>
      s ← scan (λ s,
            x ← load s;
            d ← strchr delimiters x;
            mret (if d =? NULL then inl (s + 1) else inr s)) token;
      x ← load s;
      if negb (x =? 0) then store s 0;; mret (token, s + 1)
      else mret (token, s)
  end.

Definition memset (dst value size : Z) : M mem Z :=
  ASSERT (negb (dst =? NULL) || (size =? 0));;
  for_upto (Z.to_nat size) 0 (λ i, store (dst + i) (value mod 256));;
  mret dst.

Definition strnlen (string maxlen : Z) : M mem Z :=
  scan (λ length,
    x ← load (string + length);
    mret (if negb (x =? 0) && (length <? maxlen) then inl (length + 1) else inr length)) 0.

Definition strlcpy (dst src size : Z) : M mem Z :=
  ASSERT (negb (dst =? NULL));;
  ASSERT (negb (src =? NULL));;
  src_len ← strlen src;
  (if 0 <? size then
     let dst_len := size - 1 in
     let dst_len := if src_len <? dst_len then src_len else dst_len in
     memcpy dst src dst_len;;
     store (dst + dst_len) 0
   else mret tt);;
  mret src_len.

Definition strlcat (dst src size : Z) : M mem Z :=
  ASSERT (negb (dst =? NULL));;
  ASSERT (negb (src =? NULL));;
  src_len ← strlen src;
  dst_len ← strlen dst;
  (if (0 <? size) && (dst_len <? size) then
     let copy_cnt := size - dst_len - 1 in
     let copy_cnt := if src_len <? copy_cnt then src_len else copy_cnt in
     memcpy (dst + dst_len) src copy_cnt;;
     store (dst + dst_len + copy_cnt) 0
   else mret tt);;
  mret (src_len + dst_len).
End Ops.

(** * Memory contents *)

(** The bytes [bs] lie at address [a]. *)
Definition block (m : mem) (a : Z) (bs : list Z) : Prop :=
  ∀ i b, bs !! i = Some b → m !! (a + Z.of_nat i) = Some b.

(** The string [bs] lies at [a], with its null byte. *)
Definition cstr (m : mem) (a : Z) (bs : list Z) : Prop :=
  0 < a ∧ block m a (bs ++ [0]) ∧ Forall (λ b, 0 < b < 256) bs.

(** Only the [n] bytes at [a] may differ, and the same addresses are there. *)
Definition changes_at (a n : Z) (m m' : mem) : Prop :=
  (∀ x, ¬ (a ≤ x < a + n) → m' !! x = m !! x) ∧ dom m' = dom m.

Section facts.
Implicit Types (m : mem) (bs : list Z).

Lemma block_app m a bs bs' :
  block m a (bs ++ bs') ↔ block m a bs ∧ block m (a + Z.of_nat (length bs)) bs'.
Proof.
  split.
  - intros H. split; intros i b Hi; [apply H, lookup_app_l_Some, Hi|].
    replace (a + Z.of_nat (length bs) + Z.of_nat i) with (a + Z.of_nat (length bs + i)) by lia.
    apply H. rewrite lookup_app_r by lia. by replace (length bs + i - length bs)%nat with i by lia.
  - intros [H1 H2] i b [Hi|[Hl Hi]]%lookup_app_Some; [by apply H1|].
    replace (a + Z.of_nat i) with (a + Z.of_nat (length bs) + Z.of_nat (i - length bs)) by lia.
    by apply H2.
Qed.

Lemma block_cons m a b bs : block m a (b :: bs) ↔ m !! a = Some b ∧ block m (a + 1) bs.
Proof.
  split.
  - intros H. split; [rewrite <-(Z.add_0_r a); by apply (H 0%nat)|].
    intros i x Hi. replace (a + 1 + Z.of_nat i) with (a + Z.of_nat (S i)) by lia. by apply H.
  - intros [H1 H2] [|i] x Hi; simplify_eq/=; [by rewrite Z.add_0_r|].
    replace (a + Z.of_nat (S i)) with (a + 1 + Z.of_nat i) by lia. by apply H2.
Qed.

Lemma block_size m a bs : block m a bs → (length bs ≤ size m)%nat.
Proof.
  intros H.
  assert ((list_to_set (seqZ a (Z.of_nat (length bs))) : gset Z) ⊆ dom m) as Hs.
  { intros x Hx%elem_of_list_to_set. apply elem_of_seqZ in Hx. apply elem_of_dom.
    destruct (lookup_lt_is_Some_2 bs (Z.to_nat (x - a))) as [b Hb]; [lia|].
    exists b. apply H in Hb. by replace (a + Z.of_nat (Z.to_nat (x - a))) with x in Hb by lia. }
  apply subseteq_size in Hs. rewrite size_list_to_set in Hs by apply NoDup_seqZ.
  rewrite length_seqZ in Hs. pose proof (size_dom (M := gmap Z) (D := gset Z) m) as E.
  lia.
Qed.

Lemma cstr_size m a bs : cstr m a bs → (length bs < size m)%nat.
Proof. intros (_ & H & _). apply block_size in H. rewrite length_app in H. simpl in H. lia. Qed.

Lemma block_changes m m' a n b bs :
  changes_at a n m m' → b + Z.of_nat (length bs) ≤ a ∨ a + n ≤ b → block m b bs → block m' b bs.
Proof.
  intros [H _] Hd Hb i x Hi. pose proof (lookup_lt_Some _ _ _ Hi). rewrite H by lia. by apply Hb.
Qed.

Lemma cstr_changes m m' a n b bs :
  changes_at a n m m' → b + Z.of_nat (length bs) < a ∨ a + n ≤ b → cstr m b bs → cstr m' b bs.
Proof.
  intros H Hd (? & Hb & ?). split_and!; [done| |done]. eapply block_changes; [done| |done].
  rewrite length_app. simpl. lia.
Qed.
End facts.

(** * Running the primitives *)
Section ops.
Implicit Types (m : mem) (bs : list Z).
Import Ops.

Lemma wp_mload m a v Q : m !! a = Some v → Q v m → wp (load a) Q m.
Proof. intros Hv HQ. unfold load. wp_go. rewrite Hv. by wp_go. Qed.

Lemma wp_mstore m a v w Q : m !! a = Some w → Q tt (<[a := v]> m) → wp (store a v) Q m.
Proof. intros Hw HQ. unfold store. wp_go. rewrite Hw. by wp_go. Qed.

Lemma changes_store a n m m' x v w :
  changes_at a n m m' → a ≤ x < a + n → m' !! x = Some w → changes_at a n m (<[x := v]> m').
Proof.
  intros [H1 H2] Hx Hw. split.
  - intros y Hy. rewrite lookup_insert_ne by lia. by apply H1.
  - rewrite dom_insert_lookup_L; [done|]. by exists w.
Qed.

(** The rule for loops that run to the end of a string. *)
Lemma wp_scan {X Y} (I : nat → X → mem → Prop) (body : X → M mem (X + Y)) Q x m n :
  (n ≤ size m)%nat → I n x m →
  (∀ k x m', I k x m' → wp (body x) (λ r m'', match r with
     | inl x' => ∃ k', (k' < k)%nat ∧ I k' x' m''
     | inr y => Q y m''
     end) m') →
  wp (scan body x) Q m.
Proof. intros Hn HI Hbody. unfold scan. wp_go. eapply wp_loop; [exact Hbody|exact HI|lia]. Qed.

(** ** Copying *)
Lemma copy_up m dst src bs :
  block m src bs → (∀ i, (i < length bs)%nat → is_Some (m !! (dst + Z.of_nat i))) →
  dst ≤ src ∨ src + Z.of_nat (length bs) ≤ dst →
  wp (for_upto (length bs) 0 (λ i, b ← load (src + i); store (dst + i) b))
    (λ _ m', block m' dst bs ∧ changes_at dst (Z.of_nat (length bs)) m m') m.
Proof.
  intros Hb Hd Ho.
  eapply wp_mono; [apply (wp_for_upto (λ j m', 0 ≤ j ∧ block m' dst (take (Z.to_nat j) bs) ∧
    changes_at dst j m m'))|].
  - intros j m' Hj (? & Hdone & Hch).
    destruct (lookup_lt_is_Some_2 bs (Z.to_nat j)) as [b Eb]; [lia|].
    pose proof (Hb _ _ Eb) as Hs. rewrite Z2Nat.id in Hs by lia.
    wp_unbind. eapply wp_mload; [rewrite (proj1 Hch) by lia; exact Hs|].
    destruct (Hd (Z.to_nat j)) as [w Hw]; [lia|]. rewrite Z2Nat.id in Hw by lia.
    eapply wp_mstore; [rewrite (proj1 Hch) by lia; exact Hw|]. split_and!; [lia| |].
    + replace (Z.to_nat (j + 1)) with (S (Z.to_nat j)) by lia. rewrite (take_S_r _ _ b) by done.
      apply block_app. rewrite length_take, Nat.min_l by lia. split.
      * intros i x Hi. pose proof (lookup_lt_Some _ _ _ Hi) as Hl. rewrite length_take in Hl.
        rewrite lookup_insert_ne by lia. by apply Hdone.
      * apply block_cons. rewrite Z2Nat.id by lia. split; [apply lookup_insert_eq|]. by intros i x Hi.
    + eapply changes_store; [|lia|rewrite (proj1 Hch) by lia; exact Hw].
      destruct Hch as [H1 H2]. split; [|done]. intros x Hx. apply H1. lia.
  - split_and!; [lia|by intros i x Hi|done].
  - intros _ m' (_ & Hdone & Hch). rewrite Z.add_0_l, Nat2Z.id in *. by rewrite firstn_all in Hdone.
Qed.

Lemma copy_down m dst src bs :
  let n := Z.of_nat (length bs) in
  block m src bs → (∀ i, (i < length bs)%nat → is_Some (m !! (dst + Z.of_nat i))) →
  src ≤ dst →
  wp (for_upto (length bs) 1 (λ i, b ← load (src + n - i); store (dst + n - i) b))
    (λ _ m', block m' dst bs ∧ changes_at dst n m m') m.
Proof.
  intros n Hb Hd Ho.
  eapply wp_mono; [apply (wp_for_upto (λ j m', 1 ≤ j ∧
    block m' (dst + n - (j - 1)) (drop (Z.to_nat (n - (j - 1))) bs) ∧
    changes_at (dst + n - (j - 1)) (j - 1) m m'))|].
  - intros j m' Hj (? & Hdone & Hch).
    destruct (lookup_lt_is_Some_2 bs (Z.to_nat (n - j))) as [b Eb]; [lia|].
    pose proof (Hb _ _ Eb) as Hs. rewrite Z2Nat.id in Hs by lia.
    replace (src + (n - j)) with (src + n - j) in Hs by lia.
    wp_unbind. eapply wp_mload; [rewrite (proj1 Hch) by lia; exact Hs|].
    destruct (Hd (Z.to_nat (n - j))) as [w Hw]; [lia|]. rewrite Z2Nat.id in Hw by lia.
    replace (dst + (n - j)) with (dst + n - j) in Hw by lia.
    eapply wp_mstore; [rewrite (proj1 Hch) by lia; exact Hw|]. split_and!; [lia| |].
    + replace (dst + n - (j + 1 - 1)) with (dst + n - j) by lia.
      replace (n - (j + 1 - 1)) with (n - j) by lia. rewrite (drop_S _ b) by done.
      apply block_cons. split; [apply lookup_insert_eq|].
      replace (S (Z.to_nat (n - j))) with (Z.to_nat (n - (j - 1))) by lia.
      replace (dst + n - j + 1) with (dst + n - (j - 1)) by lia.
      intros i x Hi. rewrite lookup_insert_ne by lia. by apply Hdone.
    + eapply changes_store; [|lia|rewrite (proj1 Hch) by lia; exact Hw].
      destruct Hch as [H1 H2]. split; [|done]. intros x Hx. apply H1. lia.
  - split_and!; [lia| |].
    + rewrite drop_ge by lia. by intros i x Hi.
    + done.
  - intros _ m' (_ & Hdone & Hch). replace (1 + Z.of_nat (length bs) - 1) with n in * by lia.
    replace (n - n) with 0 in Hdone by lia. replace (dst + n - n) with dst in * by lia. done.
Qed.

Lemma memcpy_ok m dst src bs :
  dst ≠ NULL → src ≠ NULL → block m src bs →
  (∀ i, (i < length bs)%nat → is_Some (m !! (dst + Z.of_nat i))) →
  dst ≤ src ∨ src + Z.of_nat (length bs) ≤ dst →
  wp (memcpy dst src (Z.of_nat (length bs)))
    (λ r m', r = dst ∧ block m' dst bs ∧ changes_at dst (Z.of_nat (length bs)) m m') m.
Proof.
  intros Hd Hs Hb Hw Ho. unfold memcpy.
  wp_assert (by rewrite (proj2 (Z.eqb_neq _ _) Hd)). wp_assert (by rewrite (proj2 (Z.eqb_neq _ _) Hs)).
  rewrite Nat2Z.id. eapply wp_mono; [by apply copy_up|]. intros [] m' ?. by wp_go.
Qed.

Lemma memmove_ok m dst src bs :
  dst ≠ NULL → src ≠ NULL → block m src bs →
  (∀ i, (i < length bs)%nat → is_Some (m !! (dst + Z.of_nat i))) →
  wp (memmove dst src (Z.of_nat (length bs)))
    (λ r m', r = (if dst <? src then dst + Z.of_nat (length bs) else dst) ∧
       block m' dst bs ∧ changes_at dst (Z.of_nat (length bs)) m m') m.
Proof.
  intros Hd Hs Hb Hw. unfold memmove.
  wp_assert (by rewrite (proj2 (Z.eqb_neq _ _) Hd)). wp_assert (by rewrite (proj2 (Z.eqb_neq _ _) Hs)).
  destruct (Z.ltb_spec dst src); wp_unbind; rewrite Nat2Z.id; (eapply wp_mono;
    [first [apply copy_up; [done..|lia]|by apply copy_down]|intros [] m' ?; by wp_go]).
Qed.

(** ** Strings *)
Lemma cstr_byte m a bs i b : cstr m a bs → bs !! i = Some b →
  m !! (a + Z.of_nat i) = Some b ∧ 0 < b < 256.
Proof.
  intros (_ & Hb & Hf) Hi. split; [apply Hb, lookup_app_l_Some, Hi|].
  by eapply (Forall_lookup_1 _ _ _ _ Hf).
Qed.

Lemma cstr_end m a bs : cstr m a bs → m !! (a + Z.of_nat (length bs)) = Some 0.
Proof. intros (_ & Hb & _). apply Hb. rewrite lookup_app_r by lia. by rewrite Nat.sub_diag. Qed.

Lemma cstr_suffix m a bs bs' :
  cstr m a (bs ++ bs') → cstr m (a + Z.of_nat (length bs)) bs'.
Proof.
  intros (Ha & Hb & Hf). rewrite <-app_assoc in Hb. apply block_app in Hb as [_ Hb].
  apply Forall_app in Hf as [_ Hf]. split_and!; [lia|done..].
Qed.

(** A string is cut where a null byte is written. *)
Lemma cstr_cut m a bs x bs' :
  cstr m a (bs ++ x :: bs') → cstr (<[a + Z.of_nat (length bs) := 0]> m) a bs.
Proof.
  intros (Ha & Hb & Hf). split_and!; [done| |by apply Forall_app in Hf as [? _]].
  apply block_app. split.
  - intros i b Hi. pose proof (lookup_lt_Some _ _ _ Hi). rewrite lookup_insert_ne by lia.
    apply Hb. rewrite <-app_assoc. by apply lookup_app_l_Some.
  - apply block_cons. split; [apply lookup_insert_eq|]. by intros i b Hi.
Qed.

Lemma strlen_ok m a bs :
  cstr m a bs → wp (strlen a) (λ r m', m' = m ∧ r = Z.of_nat (length bs)) m.
Proof.
  intros Hs. pose proof Hs as (Ha & _). unfold strlen, NULL.
  wp_assert (by apply negb_true_iff, Z.eqb_neq; lia).
  apply (wp_scan (λ k p m', m' = m ∧ p = a + Z.of_nat (length bs - k) ∧ (k ≤ length bs)%nat) _ _ _ _
    (length bs)).
  - apply cstr_size in Hs. lia.
  - split_and!; [done|lia|done].
  - intros k p m' (-> & -> & Hk). wp_unbind. destruct k as [|k].
    + rewrite Nat.sub_0_r. eapply wp_mload; [by apply cstr_end|]. wp_go. simpl. split; [done|lia].
    + destruct (lookup_lt_is_Some_2 bs (length bs - S k)) as [b Hb]; [lia|].
      destruct (cstr_byte _ _ _ _ _ Hs Hb) as [Hm ?]. eapply wp_mload; [done|]. wp_go.
      rewrite (proj2 (Z.eqb_neq b 0)) by lia. exists k. split_and!; [lia|done|lia|lia].
Qed.

(** The order of strings that [strcmp] decides. *)
Fixpoint str_compare (xs ys : list Z) : Z :=
  match xs, ys with
  | [], [] => 0
  | [], _ => -1
  | _, [] => 1
  | x :: xs, y :: ys => if x =? y then str_compare xs ys else if x <? y then -1 else 1
  end.

Lemma str_compare_eq xs ys : str_compare xs ys = 0 ↔ xs = ys.
Proof.
  revert ys. induction xs as [|x xs IH]; intros [|y ys]; simpl; try done.
  destruct (Z.eqb_spec x y) as [->|Hne].
  - rewrite IH. split; [by intros ->|by intros [= ->]].
  - destruct (x <? y); (split; [done|]); by intros [= -> ->].
Qed.

(** [strcmp] on two objects given by their bytes: [None] when it runs past the
    end of one. *)
Fixpoint strcmp_block (xs ys : list Z) : option Z :=
  match xs, ys with
  | x :: xs, y :: ys =>
      if negb (x =? 0) && (x =? y) then strcmp_block xs ys
      else Some (if x <? y then -1 else if y <? x then 1 else 0)
  | _, _ => None
  end.

Lemma strcmp_block_ok m a b xs ys r :
  0 < a → 0 < b → block m a xs → block m b ys → strcmp_block xs ys = Some r →
  wp (strcmp a b) (λ r' m', m' = m ∧ r' = r) m.
Proof.
  intros Ha Hb Hxs Hys Hr. unfold strcmp, NULL.
  wp_assert (by apply negb_true_iff, Z.eqb_neq; lia).
  wp_assert (by apply negb_true_iff, Z.eqb_neq; lia).
  apply (wp_scan (λ k i m', m' = m ∧ 0 ≤ i ∧ ∃ xs' ys', block m (a + i) xs' ∧ block m (b + i) ys' ∧
      strcmp_block xs' ys' = Some r ∧ k = length xs') _ _ _ _ (length xs)).
  - by apply block_size in Hxs.
  - rewrite !Z.add_0_r. split_and!; [done|lia|]. by exists xs, ys.
  - intros k i m' (-> & Hi & [|x xs'] & [|y ys'] & Hx & Hy & E & ->); try done.
    apply block_cons in Hx as [Hx Hx']. apply block_cons in Hy as [Hy Hy']. wp_unbind. eapply wp_mload; [done|]. wp_unbind. eapply wp_mload; [done|]. wp_go.
    simpl in E. destruct (negb (x =? 0) && (x =? y)); [|by simplify_eq].
    exists (length xs'). split_and!; [simpl; lia|done|lia|]. exists xs', ys'.
    by rewrite !Z.add_assoc.
Qed.

Lemma strcmp_block_strings xs ys us vs :
  Forall (λ b, 0 < b < 256) xs → Forall (λ b, 0 < b < 256) ys →
  strcmp_block (xs ++ 0 :: us) (ys ++ 0 :: vs) = Some (str_compare xs ys).
Proof.
  intros Hx. revert ys. induction Hx as [|x xs Hb Hx IH]; intros ys Hy;
    destruct Hy as [|y ys Hc Hy]; simpl; [done|..].
  - by rewrite (proj2 (Z.ltb_lt 0 y)) by lia.
  - rewrite (proj2 (Z.eqb_neq x 0)), (proj2 (Z.ltb_ge x 0)), (proj2 (Z.ltb_lt 0 x)) by lia. done.
  - rewrite (proj2 (Z.eqb_neq x 0)) by lia. simpl. destruct (Z.eqb_spec x y); [by apply IH|].
    f_equal. destruct (Z.ltb_spec x y), (Z.ltb_spec y x); done || lia.
Qed.

Lemma strcmp_ok m a b xs ys :
  cstr m a xs → cstr m b ys → wp (strcmp a b) (λ r m', m' = m ∧ r = str_compare xs ys) m.
Proof.
  intros (? & Hx & ?) (? & Hy & ?). eapply strcmp_block_ok; [done..|]. by apply strcmp_block_strings.
Qed.

(** [strchr] as the test whether a byte is in a string. *)
Lemma strchr_ok m a bs c :
  cstr m a bs → 0 ≤ c < 256 →
  wp (strchr a c) (λ r m', m' = m ∧ (r = NULL ↔ c ≠ 0 ∧ c ∉ bs) ∧
    (r ≠ NULL → m !! r = Some c)) m.
Proof.
  intros Hs Hc. pose proof Hs as (Ha & _). unfold strchr, NULL.
  wp_assert (by apply negb_true_iff, Z.eqb_neq; lia). rewrite (Z.mod_small c) by lia.
  apply (wp_scan (λ k p m', m' = m ∧ ∃ j, p = a + Z.of_nat j ∧ (k + j = length bs)%nat ∧
      ∀ i x, bs !! i = Some x → (i < j)%nat → x ≠ c) _ _ _ _ (length bs)).
  - apply cstr_size in Hs. lia.
  - split; [done|]. exists 0%nat. split_and!; [lia|lia|]. intros. lia.
  - intros k p m' (-> & j & -> & Hk & Hno). wp_unbind. destruct k as [|k].
    + assert (j = length bs) as -> by lia. eapply wp_mload; [by apply cstr_end|]. wp_go.
      destruct (Z.eqb_spec 0 c) as [<-|Hne].
      * split_and!; [done| |]; [|intros _; by apply cstr_end].
        split; [lia|]. by intros [? _].
      * simpl. split_and!; [done| |done]. split; [|done]. intros _. split; [done|].
        intros [i Hi]%list_elem_of_lookup. apply (Hno i c); [done| |done]. by apply lookup_lt_Some in Hi.
    + destruct (lookup_lt_is_Some_2 bs j) as [b Hb]; [lia|].
      destruct (cstr_byte _ _ _ _ _ Hs Hb) as [Hm ?]. eapply wp_mload; [done|]. wp_go.
      destruct (Z.eqb_spec b c) as [->|Hne].
      * split_and!; [done| |done]. split; [lia|]. intros [_ Hn]. destruct Hn.
        by eapply list_elem_of_lookup_2.
      * rewrite (proj2 (Z.eqb_neq b 0)) by lia. exists k. split; [lia|]. split; [done|].
        exists (S j). split_and!; [lia|lia|]. intros i x Hi Hl.
        destruct (decide (i = j)) as [->|]; [congruence|]. apply (Hno i x); [done|lia].
Qed.

(** [strlcpy] copies as much of the string as fits and terminates it. *)
Lemma strlcpy_ok m dst src bs size :
  cstr m src bs → 0 < dst → 0 < size →
  let n := Z.min (Z.of_nat (length bs)) (size - 1) in
  (∀ x, dst ≤ x ≤ dst + n → is_Some (m !! x)) →
  dst + n < src ∨ src + Z.of_nat (length bs) < dst →
  wp (strlcpy dst src size) (λ r m', r = Z.of_nat (length bs) ∧
    cstr m' dst (take (Z.to_nat n) bs) ∧ changes_at dst (n + 1) m m') m.
Proof.
  intros Hs Hd Hsz n Hw Ho. pose proof Hs as (Ha & Hb & Hf). unfold strlcpy, NULL.
  wp_assert (by apply negb_true_iff, Z.eqb_neq; lia).
  wp_assert (by apply negb_true_iff, Z.eqb_neq; lia).
  eapply wp_mono; [by apply strlen_ok|]. intros r m1 [-> ->].
  rewrite (proj2 (Z.ltb_lt 0 size)) by lia. wp_unbind.
  set (k := if _ <? _ then _ else _). assert (k = n) as -> by (unfold k; destruct (Z.ltb_spec (Z.of_nat (length bs)) (size - 1)); lia).
  assert (length (take (Z.to_nat n) bs) = Z.to_nat n) as Hl by (rewrite length_take; lia).
  assert (block m src (take (Z.to_nat n) bs)) as Hsrc.
  { intros i b Hi. apply Hb, lookup_app_l_Some. by apply lookup_take_Some in Hi as [? _]. }
  replace (memcpy dst src n) with (memcpy dst src (Z.of_nat (length (take (Z.to_nat n) bs))))
    by (f_equal; lia).
  eapply wp_mono; [apply memcpy_ok; [unfold NULL; lia|unfold NULL; lia|done| |lia]|].
  { intros i Hi. apply Hw. lia. }
  intros r m1 (_ & Hdst & Hch). rewrite Hl, Z2Nat.id in Hch by lia.
  destruct (Hw (dst + n)) as [w Hwn]; [lia|].
  eapply wp_mstore; [rewrite (proj1 Hch) by lia; exact Hwn|]. wp_go. split_and!; [done| |].
  - split_and!; [done| |by apply Forall_take]. apply block_app. rewrite Hl, Z2Nat.id by lia. split.
    + intros i b Hi. pose proof (lookup_lt_Some _ _ _ Hi). rewrite lookup_insert_ne by lia. by apply Hdst.
    + apply block_cons. split; [apply lookup_insert_eq|]. by intros i b Hi.
  - eapply changes_store; [|lia|rewrite (proj1 Hch) by lia; exact Hwn].
    destruct Hch as [H1 H2]. split; [|done]. intros x Hx. apply H1. lia.
Qed.
End ops.

(** ** Tokens

    The maximal runs of bytes that are not in [ds]. *)
Section tokens.
Context (ds : list Z).

Fixpoint skip (xs : list Z) : list Z :=
  match xs with
  | x :: xs' => if decide (x ∈ ds) then skip xs' else xs
  | [] => []
  end.
Fixpoint token (xs : list Z) : list Z :=
  match xs with
  | x :: xs' => if decide (x ∈ ds) then [] else x :: token xs'
  | [] => []
  end.
(** After the token and the delimiter that ends it. *)
Fixpoint after (xs : list Z) : list Z :=
  match xs with
  | x :: xs' => if decide (x ∈ ds) then xs' else after xs'
  | [] => []
  end.

Fixpoint tokens_from (cur xs : list Z) : list (list Z) :=
  let flush := match cur with [] => [] | _ => [cur] end in
  match xs with
  | [] => flush
  | x :: xs' => if decide (x ∈ ds) then flush ++ tokens_from [] xs' else tokens_from (cur ++ [x]) xs'
  end.
Definition tokens (xs : list Z) : list (list Z) := tokens_from [] xs.

Lemma skip_split xs : ∃ pre, xs = pre ++ skip xs ∧ Forall (.∈ ds) pre.
Proof.
  induction xs as [|x xs (pre & E & Hp)]; simpl; [by exists []|].
  case_decide; [|by exists []]. exists (x :: pre). simpl. split; [by rewrite <-E|by constructor].
Qed.

Lemma skip_head xs x xs' : skip xs = x :: xs' → x ∉ ds.
Proof. induction xs as [|y xs IH]; simpl; [done|]. case_decide; [done|]. by intros [= -> ->]. Qed.

Lemma token_after xs : xs = token xs ∨ ∃ x, x ∈ ds ∧ xs = token xs ++ x :: after xs.
Proof.
  induction xs as [|x xs IH]; simpl; [by left|]. case_decide as Hx; [right; by exists x|].
  destruct IH as [E|(y & Hy & E)]; [left; by f_equal|right]. exists y. split; [done|]. simpl. by f_equal.
Qed.

Lemma token_not xs : Forall (.∉ ds) (token xs).
Proof. induction xs as [|x xs IH]; simpl; [done|]. case_decide; [done|]. by constructor. Qed.

Lemma after_token xs : xs = token xs → after xs = [].
Proof.
  induction xs as [|x xs IH]; simpl; [done|]. case_decide; [done|]. intros [= E]. by apply IH.
Qed.

Lemma tokens_from_token cur xs :
  cur ++ token xs ≠ [] → tokens_from cur xs = (cur ++ token xs) :: tokens (after xs).
Proof.
  revert cur. induction xs as [|x xs IH]; intros cur Hne; simpl in *.
  - rewrite app_nil_r in *. by destruct cur.
  - case_decide.
    + rewrite app_nil_r in *. by destruct cur.
    + rewrite IH by (by destruct cur). by rewrite <-app_assoc.
Qed.

Lemma tokens_skip xs : tokens xs = tokens (skip xs).
Proof.
  induction xs as [|x xs IH]; [done|]. simpl. case_decide as Hx; [|done].
  rewrite <-IH. unfold tokens at 1. simpl. by rewrite decide_True.
Qed.

(** The tokens one by one, as [strtok_r] finds them. *)
Lemma tokens_eq xs :
  tokens xs = match skip xs with
              | [] => []
              | rest => token rest :: tokens (after rest)
              end.
Proof.
  rewrite tokens_skip. destruct (skip xs) as [|x rest] eqn:E; [done|].
  unfold tokens at 1. rewrite tokens_from_token; [done|]. simpl.
  by rewrite decide_False by (by eapply skip_head).
Qed.

Lemma after_length xs : (length (after xs) ≤ length xs)%nat.
Proof. induction xs as [|x xs IH]; simpl; [done|]. case_decide; lia. Qed.
Lemma skip_length xs : (length (skip xs) ≤ length xs)%nat.
Proof. induction xs as [|x xs IH]; simpl; [done|]. case_decide; simpl; lia. Qed.
End tokens.

Section strtok.
Import Ops.
Implicit Types (m : mem) (xs ds : list Z).

(** The two loops of [strtok_r]. *)
Lemma skip_loop m d ds s xs (Q : Z + Z → mem → Prop) :
  cstr m s xs → cstr m d ds →
  Q (let s' := s + Z.of_nat (length xs - length (skip ds xs)) in
     match skip ds xs with [] => inl s' | _ => inr s' end) m →
  wp (scan (λ s,
        x ← load s;
        d ← strchr d x;
        if negb (d =? NULL) then
          mret (if x =? 0 then inr (inl s) else inl (s + 1))
        else mret (inr (inr s))) s) Q m.
Proof.
  intros Hs Hd HQ.
  apply (wp_scan (λ k p m', m' = m ∧ ∃ pre rest, xs = pre ++ rest ∧ skip ds rest = skip ds xs ∧
    p = s + Z.of_nat (length pre) ∧ k = length rest) _ _ _ _ (length xs)).
  - apply cstr_size in Hs. lia.
  - split; [done|]. exists [], xs. split_and!; [done..|simpl; lia|done].
  - intros k p m' (-> & pre & rest & E & Hsk & -> & ->). wp_unbind. rewrite E in Hs.
    apply cstr_suffix in Hs. destruct rest as [|x rest].
    + eapply wp_mload; [by rewrite <-(Z.add_0_r (s + _)); apply (cstr_end _ _ _ Hs)|]. wp_unbind.
      eapply wp_mono; [apply (strchr_ok _ _ _ 0 Hd); lia|]. intros r m1 (-> & Hr & _).
      assert (r ≠ NULL) as Hne by (intros ->; by destruct (proj1 Hr eq_refl)).
      rewrite (proj2 (Z.eqb_neq _ _) Hne). simpl. wp_go. rewrite <-Hsk in HQ. simpl in HQ.
      by rewrite E, app_nil_r, Nat.sub_0_r in HQ.
    + destruct (cstr_byte _ _ _ 0 x Hs eq_refl) as [Hx Hb]. rewrite Z.add_0_r in Hx.
      eapply wp_mload; [done|]. wp_unbind.
      eapply wp_mono; [apply (strchr_ok _ _ _ x Hd); lia|]. intros r m1 (-> & Hr & _).
      simpl in Hsk. destruct (Z.eqb_spec r NULL) as [Hn|Hn]; simpl; wp_go.
      * apply Hr in Hn as [_ Hn]. rewrite decide_False in Hsk by done. rewrite <-Hsk in HQ.
        simpl in HQ. rewrite E, length_app in HQ.
        by replace (length pre + length (x :: rest) - S (length rest))%nat with (length pre)
          in HQ by (simpl; lia).
      * rewrite (proj2 (Z.eqb_neq x 0)) by lia. exists (length rest). split; [simpl; lia|].
        split; [done|]. exists (pre ++ [x]), rest. rewrite <-app_assoc.
        assert (x ∈ ds) as Hin.
        { destruct (decide (x ∈ ds)) as [|Hni]; [done|]. destruct Hn. apply Hr. split; [lia|done]. }
        rewrite decide_True in Hsk by done. rewrite length_app. simpl.
        split_and!; [done|done|lia|done].
Qed.

Lemma token_loop m d ds s xs (Q : Z → mem → Prop) :
  cstr m s xs → cstr m d ds →
  Q (s + Z.of_nat (length (token ds xs))) m →
  wp (scan (λ s,
        x ← load s;
        d ← strchr d x;
        mret (if d =? NULL then inl (s + 1) else inr s)) s) Q m.
Proof.
  intros Hs Hd HQ.
  apply (wp_scan (λ k p m', m' = m ∧ ∃ pre rest, xs = pre ++ rest ∧
    token ds xs = pre ++ token ds rest ∧ p = s + Z.of_nat (length pre) ∧ k = length rest)
    _ _ _ _ (length xs)).
  - apply cstr_size in Hs. lia.
  - split; [done|]. exists [], xs. split_and!; [done..|simpl; lia|done].
  - intros k p m' (-> & pre & rest & E & Ht & -> & ->). wp_unbind. rewrite E in Hs.
    apply cstr_suffix in Hs. destruct rest as [|x rest].
    + eapply wp_mload; [by rewrite <-(Z.add_0_r (s + _)); apply (cstr_end _ _ _ Hs)|]. wp_unbind.
      eapply wp_mono; [apply (strchr_ok _ _ _ 0 Hd); lia|]. intros r m1 (-> & Hr & _).
      assert (r ≠ NULL) as Hne by (intros ->; by destruct (proj1 Hr eq_refl)).
      rewrite (proj2 (Z.eqb_neq _ _) Hne). wp_go. simpl in Ht. rewrite app_nil_r in Ht.
      by rewrite Ht in HQ.
    + destruct (cstr_byte _ _ _ 0 x Hs eq_refl) as [Hx Hb]. rewrite Z.add_0_r in Hx.
      eapply wp_mload; [done|]. wp_unbind.
      eapply wp_mono; [apply (strchr_ok _ _ _ x Hd); lia|]. intros r m1 (-> & Hr & _).
      simpl in Ht. destruct (Z.eqb_spec r NULL) as [Hn|Hn]; wp_go.
      * apply Hr in Hn as [_ Hn]. rewrite decide_False in Ht by done.
        exists (length rest). split; [simpl; lia|]. split; [done|]. exists (pre ++ [x]), rest.
        rewrite <-!app_assoc, length_app. simpl. split_and!; [done|done|lia|done].
      * assert (x ∈ ds) as Hin.
        { destruct (decide (x ∈ ds)) as [|Hni]; [done|]. destruct Hn. apply Hr. split; [lia|done]. }
        rewrite decide_True, app_nil_r in Ht by done. by rewrite Ht in HQ.
Qed.

(** One call of [strtok_r]: the next token as a string of its own, and the
    rest of the string at the saved position. *)
Lemma strtok_r_ok m d ds s xs s0 save0 :
  cstr m s xs → cstr m d ds → d + Z.of_nat (length ds) < s ∨ s + Z.of_nat (length xs) < d →
  s = (if s0 =? NULL then save0 else s0) →
  wp (strtok_r s0 d save0) (λ r m', match skip ds xs with
    | [] => r.1 = NULL ∧ m' = m
    | rest => s ≤ r.1 ∧ cstr m' r.1 (token ds rest) ∧ cstr m' r.2 (after ds rest) ∧
        r.1 + Z.of_nat (length (token ds rest)) ≤ r.2 ∧
        r.2 + Z.of_nat (length (after ds rest)) ≤ s + Z.of_nat (length xs) ∧
        changes_at s (Z.of_nat (length xs)) m m'
    end) m.
Proof.
  intros Hs Hd Hdisj Es. pose proof Hs as (? & _). pose proof Hd as (? & _). unfold strtok_r.
  wp_assert (by apply negb_true_iff, Z.eqb_neq; unfold NULL; lia). cbn zeta. rewrite <-Es.
  wp_assert (by apply negb_true_iff, Z.eqb_neq; unfold NULL; lia).
  apply (skip_loop m d ds s xs); [done..|]. destruct (skip_split ds xs) as (pre & E & _).
  destruct (skip ds xs) as [|x rest] eqn:Er; cbn zeta; [by wp_go|].
  rewrite <-Er in *. set (rst := skip ds xs) in *.
  assert (length xs - length rst = length pre)%nat as -> by (rewrite E at 1; rewrite length_app; lia).
  set (t := s + Z.of_nat (length pre)). rewrite E in Hs. apply cstr_suffix in Hs. fold t in Hs.
  wp_unbind. apply (token_loop m d ds t rst); [done..|].
  assert (s + Z.of_nat (length xs) = t + Z.of_nat (length rst)) as El
    by (rewrite E, length_app; unfold t; lia).
  destruct (token_after ds rst) as [Et|(y & Hy & Et)].
  - wp_unbind. eapply wp_mload; [by rewrite <-Et; apply cstr_end|]. simpl. wp_go. simpl.
    rewrite <-Et, (after_token ds rst Et). simpl. split_and!; [unfold t; lia|done| |lia|lia|done].
    rewrite <-(app_nil_r rst) in Hs at 1. by apply cstr_suffix in Hs.
  - rewrite Et in Hs. pose proof (cstr_byte _ _ _ (length (token ds rst)) y Hs) as [Hb Hpos].
    { rewrite lookup_app_r by lia. by rewrite Nat.sub_diag. }
    wp_unbind. eapply wp_mload; [done|]. rewrite (proj2 (Z.eqb_neq y 0)) by lia. simpl. wp_unbind.
    eapply wp_mstore; [done|]. wp_go. simpl.
    assert (length rst = length (token ds rst) + S (length (after ds rst)))%nat as Hl
      by (rewrite Et at 1; by rewrite length_app).
    split_and!; [unfold t; lia|by eapply cstr_cut| |lia|lia|].
    + assert (token ds rst ++ y :: after ds rst = (token ds rst ++ [y]) ++ after ds rst) as Ea
        by by rewrite <-app_assoc.
      rewrite Ea in Hs. apply cstr_suffix in Hs. rewrite length_app in Hs. simpl in Hs.
      replace (t + Z.of_nat (length (token ds rst)) + 1) with (t + Z.of_nat (length (token ds rst) + 1)) by lia.
      eapply (cstr_changes m _ (t + Z.of_nat (length (token ds rst))) 1); [|lia|done].
      eapply changes_store; [done|lia|done].
    + eapply changes_store; [done|unfold t in *; lia|done].
Qed.
End strtok.
