(* ===== verification/Bytes.v ===== *)
(** Memory blocks as lists of bytes, and the byte order of the i386: what the
    file system uses of [memcpy] ([lib/string.c]) and of reading structures
    out of sector buffers. *)
From Stdlib Require Import ZArith Lia.
From stdpp Require Import base tactics option numbers list.
From S2P Require Import Prelude.

Open Scope Z_scope.

Abbreviation bytes := (list Z).

(** [memcpy (dst + dofs, src + sofs, size)], undefined outside the two
    blocks. *)
Definition memcpy (dst : bytes) (dofs : Z) (src : bytes) (sofs size : Z) : option bytes :=
  if (0 <=? dofs) && (0 <=? sofs) && (0 <=? size) &&
     (dofs + size <=? Z.of_nat (length dst)) && (sofs + size <=? Z.of_nat (length src))
  then Some (take (Z.to_nat dofs) dst ++
             take (Z.to_nat size) (drop (Z.to_nat sofs) src) ++
             drop (Z.to_nat (dofs + size)) dst)
  else None.

(** The part [ofs, ofs + n) of a block, and a block with that part replaced. *)
Definition slice (b : bytes) (ofs n : Z) : bytes :=
  take (Z.to_nat n) (drop (Z.to_nat ofs) b).
Definition splice (b : bytes) (ofs : Z) (x : bytes) : bytes :=
  take (Z.to_nat ofs) b ++ x ++ drop (Z.to_nat ofs + length x) b.

(** Byte [i] of a block. *)
Definition byte_at (b : bytes) (i : Z) : Z := b !!! Z.to_nat i.

(** Little-endian 32-bit words. *)
Definition le32 (w : Z) : bytes :=
  [w mod 256; (w / 2 ^ 8) mod 256; (w / 2 ^ 16) mod 256; (w / 2 ^ 24) mod 256].
Definition of_le32 (b : bytes) : Z :=
  match b with
  | b0 :: b1 :: b2 :: b3 :: _ => b0 + 2 ^ 8 * b1 + 2 ^ 16 * b2 + 2 ^ 24 * b3
  | _ => 0
  end.

(** An array of words in memory. *)
Definition words_to_bytes (ws : list Z) : bytes := ws ≫= le32.
Fixpoint bytes_to_words (n : nat) (b : bytes) : list Z :=
  match n with
  | O => []
  | S n' => of_le32 b :: bytes_to_words n' (drop 4 b)
  end.

Definition is_byte (z : Z) : Prop := 0 ≤ z < 256.

Section memcpy.
Implicit Types (b : bytes) (i : Z).

Lemma memcpy_splice dst dofs src sofs size :
  0 ≤ dofs → 0 ≤ sofs → 0 ≤ size →
  dofs + size ≤ Z.of_nat (length dst) → sofs + size ≤ Z.of_nat (length src) →
  memcpy dst dofs src sofs size = Some (splice dst dofs (slice src sofs size)).
Proof.
  intros. unfold memcpy.
  rewrite !(proj2 (Z.leb_le _ _)) by lia. simpl. unfold splice, slice.
  rewrite length_take, length_drop. do 4 f_equal. lia.
Qed.

Lemma length_slice b ofs n :
  0 ≤ ofs → 0 ≤ n → ofs + n ≤ Z.of_nat (length b) → length (slice b ofs n) = Z.to_nat n.
Proof. intros. unfold slice. rewrite length_take, length_drop. lia. Qed.

Lemma length_splice b ofs x :
  0 ≤ ofs → ofs + Z.of_nat (length x) ≤ Z.of_nat (length b) →
  length (splice b ofs x) = length b.
Proof.
  intros. unfold splice. rewrite !length_app, length_take, length_drop. lia.
Qed.

Lemma lookup_splice_in b ofs x i :
  0 ≤ ofs → ofs + Z.of_nat (length x) ≤ Z.of_nat (length b) →
  ofs ≤ i < ofs + Z.of_nat (length x) →
  byte_at (splice b ofs x) i = byte_at x (i - ofs).
Proof.
  intros. unfold splice, byte_at. rewrite lookup_total_app_r by (rewrite length_take; lia).
  rewrite length_take, lookup_total_app_l by lia. f_equal. lia.
Qed.

Lemma lookup_splice_out b ofs x i :
  0 ≤ ofs → ofs + Z.of_nat (length x) ≤ Z.of_nat (length b) → 0 ≤ i →
  ¬ (ofs ≤ i < ofs + Z.of_nat (length x)) →
  byte_at (splice b ofs x) i = byte_at b i.
Proof.
  intros ? ? ? Hout. unfold splice, byte_at. destruct (decide (i < ofs)).
  - rewrite lookup_total_app_l by (rewrite length_take; lia).
    by rewrite lookup_total_take_lt by lia.
  - rewrite lookup_total_app_r by (rewrite length_take; lia).
    rewrite lookup_total_app_r by (rewrite length_take; lia).
    rewrite lookup_total_drop, length_take. f_equal. lia.
Qed.

Lemma byte_at_slice b ofs n i :
  0 ≤ ofs → 0 ≤ i < n → byte_at (slice b ofs n) i = byte_at b (ofs + i).
Proof.
  intros. unfold slice, byte_at.
  rewrite lookup_total_take_lt, lookup_total_drop by lia. f_equal. lia.
Qed.
End memcpy.

(** * Words and bytes *)
Lemma length_le32 w : length (le32 w) = 4%nat.
Proof. done. Qed.

Lemma of_le32_le32 w r : is_u32 w → of_le32 (le32 w ++ r) = w.
Proof.
  unfold is_u32. intros Hw. simpl.
  pose proof (Z.div_mod w 256). pose proof (Z.div_mod (w / 256) 256).
  pose proof (Z.div_mod (w / 256 / 256) 256).
  change (2 ^ 8) with 256. change (2 ^ 16) with (256 * 256).
  change (2 ^ 24) with (256 * 256 * 256). rewrite <-!Z.div_div by lia.
  rewrite (Z.mod_small (w / 256 / 256 / 256)); [lia|].
  rewrite !Z.div_div by lia. split; [apply Z.div_pos; lia|].
  apply Z.div_lt_upper_bound; lia.
Qed.

Lemma le32_bytes w : Forall is_byte (le32 w).
Proof. repeat constructor; apply Z.mod_pos_bound; lia. Qed.

Lemma length_words_to_bytes ws : length (words_to_bytes ws) = (4 * length ws)%nat.
Proof. induction ws as [|w ws IH]; [done|]. simpl in *. unfold words_to_bytes in *. simpl. lia. Qed.

Lemma length_bytes_to_words n b : length (bytes_to_words n b) = n.
Proof. revert b. induction n; simpl; auto. Qed.

(** Storing an array of words and reading it back. *)
Lemma bytes_to_words_to_bytes ws r :
  Forall is_u32 ws → bytes_to_words (length ws) (words_to_bytes ws ++ r) = ws.
Proof.
  induction 1 as [|w ws Hw Hws IH]; [done|].
  unfold words_to_bytes in *. cbn [length bytes_to_words].
  rewrite bind_cons, <-app_assoc. f_equal; [by apply of_le32_le32|].
  rewrite drop_app_length' by done. exact IH.
Qed.

(** In general an array of words is read back modulo [2^32]. *)
Lemma of_le32_le32_mod w r : of_le32 (le32 w ++ r) = u32 w.
Proof.
  simpl. unfold u32. change (2 ^ 32) with (256 * (256 * (256 * 256))).
  rewrite !Z.rem_mul_r, !Z.div_div by lia.
  change (2 ^ 8) with 256. change (2 ^ 16) with (256 * 256).
  change (2 ^ 24) with (256 * 256 * 256).
  lia.
Qed.

Lemma bytes_to_words_mod ws r :
  bytes_to_words (length ws) (words_to_bytes ws ++ r) = u32 <$> ws.
Proof.
  induction ws as [|w ws IH]; [done|].
  unfold words_to_bytes in *. cbn [length bytes_to_words].
  rewrite bind_cons, <-app_assoc, fmap_cons. f_equal; [by apply of_le32_le32_mod|].
  rewrite drop_app_length' by done. exact IH.
Qed.

(** Blocks of the same length with the same bytes are equal. *)
Lemma byte_ext (a b : bytes) :
  length a = length b → (∀ p, 0 ≤ p < Z.of_nat (length a) → byte_at a p = byte_at b p) → a = b.
Proof.
  intros Hl H. apply list_eq_same_length with (length a); [done..|].
  intros i x y Hi Ha Hb. specialize (H (Z.of_nat i) ltac:(lia)). unfold byte_at in H.
  rewrite Nat2Z.id in H. apply list_lookup_total_correct in Ha, Hb. congruence.
Qed.
