(* ===== verification/Disk.v ===== *)
(** The disk as the file system sees it ([devices/disk.c], [disk.h]): an array
    of 512-byte sectors.  [disk_read] and [disk_write] check the sector number
    as [select_sector] does; the ATA command protocol, its interrupts and
    hardware failures are below this model. *)
From Stdlib Require Import ZArith Lia.
From stdpp Require Import base tactics option numbers list gmap.
From S2P Require Import Prelude Bytes.

Open Scope Z_scope.

Definition DISK_SECTOR_SIZE : Z := 512.

(** [struct disk]: its capacity in sectors and its contents.  A sector that
    was never written holds zeros. *)
Record disk := mk_disk { capacity : Z; sectors : gmap Z bytes }.

Definition zero_sector : bytes := replicate 512 0.

Definition sector_data (d : disk) (k : Z) : bytes := default zero_sector (sectors d !! k).

(** The checks of [select_sector]. *)
Definition select_sector (sec_no : Z) : M disk unit :=
  d ← get;
  ASSERT (sec_no <? capacity d);;
  ASSERT (sec_no <? 2 ^ 28).

Definition disk_size : M disk Z := gets capacity.

Definition disk_read (sec_no : Z) : M disk bytes :=
  select_sector sec_no;;
  gets (λ d, sector_data d sec_no).

(** [buffer] must hold a whole sector. *)
Definition disk_write (sec_no : Z) (buffer : bytes) : M disk unit :=
  select_sector sec_no;;
  if (length buffer <? 512)%nat then undef else
  modify (λ d, mk_disk (capacity d) (<[sec_no := take 512 buffer]> (sectors d))).

(** * Properties *)
Definition valid_sector (d : disk) (k : Z) : Prop :=
  0 ≤ k < capacity d ∧ k < 2 ^ 28.

Definition wf_disk (d : disk) : Prop :=
  map_Forall (λ _ s, length s = 512%nat) (sectors d).

Lemma length_sector_data d k : wf_disk d → length (sector_data d k) = 512%nat.
Proof.
  intros Hw. unfold sector_data. destruct (sectors d !! k) as [s|] eqn:E; simpl.
  - by apply (Hw k).
  - reflexivity.
Qed.

Lemma wp_disk_read d k Q :
  valid_sector d k → Q (sector_data d k) d → wp (disk_read k) Q d.
Proof.
  intros [? ?] HQ. unfold disk_read, select_sector.
  wp_assert (apply Z.ltb_lt; lia). wp_assert (apply Z.ltb_lt; lia). done.
Qed.

(** The disk after a write. *)
Definition write_sector (d : disk) (k : Z) (b : bytes) : disk :=
  mk_disk (capacity d) (<[k := b]> (sectors d)).

Lemma wp_disk_write d k b Q :
  valid_sector d k → length b = 512%nat → Q tt (write_sector d k b) →
  wp (disk_write k b) Q d.
Proof.
  intros [? ?] Hb HQ. unfold disk_write, select_sector.
  wp_assert (apply Z.ltb_lt; lia). wp_assert (apply Z.ltb_lt; lia).
  rewrite Hb. simpl. wp_go. by rewrite take_ge by lia.
Qed.

Lemma sector_data_write d k b j :
  sector_data (write_sector d k b) j = if decide (k = j) then b else sector_data d j.
Proof.
  unfold sector_data, write_sector. simpl. rewrite lookup_insert. by case_decide.
Qed.

Lemma wf_write_sector d k b :
  wf_disk d → length b = 512%nat → wf_disk (write_sector d k b).
Proof. intros Hw Hb. by apply map_Forall_insert_2. Qed.

Lemma capacity_write_sector d k b : capacity (write_sector d k b) = capacity d.
Proof. done. Qed.

Create HintDb disk.
#[export] Hint Resolve wf_write_sector length_sector_data : disk.
