(* ===== verification/Cache.v ===== *)
(** The buffer cache ([filesys/cache.c], [cache.h]): at most 64 sectors of the
    file-system disk held in memory, replaced by a second-chance scan and
    written back on eviction and by the write-behind thread.

    The entries of [buffer_cache_list] are only ever appended, so an entry is
    identified by its position.  The operations run one at a time; the lock
    is taken and released as in the code. *)
From Stdlib Require Import ZArith Lia.
From stdpp Require Import base tactics option numbers list gmap.
From S2P Require Import Prelude Bytes Disk.

Open Scope Z_scope.

Definition MAX_CACHE_SIZE : Z := 64.

(** [struct buffer_cache]. *)
Record buffer_cache := mk_bc {
  sector : Z;
  data : bytes;
  is_used : bool;
  is_dirty : bool;
  is_using : bool }.

(** The module's state: the disk under it, the list, its size, whether
    [buffer_cache_lock] is held (by the running thread), and whether [malloc]
    has no block left for another entry. *)
Record cache := mk_cache {
  filesys_disk : disk;
  buffer_cache_list : list buffer_cache;
  cache_current_size : Z;
  buffer_cache_lock : bool;
  out_of_memory : bool }.

Definition set_disk (d : disk) (c : cache) : cache :=
  mk_cache d (buffer_cache_list c) (cache_current_size c) (buffer_cache_lock c) (out_of_memory c).
Definition set_list (l : list buffer_cache) (c : cache) : cache :=
  mk_cache (filesys_disk c) l (cache_current_size c) (buffer_cache_lock c) (out_of_memory c).
Definition set_size (n : Z) (c : cache) : cache :=
  mk_cache (filesys_disk c) (buffer_cache_list c) n (buffer_cache_lock c) (out_of_memory c).
Definition set_lock (b : bool) (c : cache) : cache :=
  mk_cache (filesys_disk c) (buffer_cache_list c) (cache_current_size c) b (out_of_memory c).

Definition with_used (v : bool) (e : buffer_cache) : buffer_cache :=
  mk_bc (sector e) (data e) v (is_dirty e) (is_using e).
Definition with_dirty (v : bool) (e : buffer_cache) : buffer_cache :=
  mk_bc (sector e) (data e) (is_used e) v (is_using e).
Definition with_using (v : bool) (e : buffer_cache) : buffer_cache :=
  mk_bc (sector e) (data e) (is_used e) (is_dirty e) v.
Definition with_sector (k : Z) (e : buffer_cache) : buffer_cache :=
  mk_bc k (data e) (is_used e) (is_dirty e) (is_using e).
Definition with_data (b : bytes) (e : buffer_cache) : buffer_cache :=
  mk_bc (sector e) b (is_used e) (is_dirty e) (is_using e).

Module Ops.

(** [disk_read (filesys_disk, ...)], [disk_write (filesys_disk, ...)]. *)
Definition on_disk {A} (m : M disk A) : M cache A := zoom filesys_disk set_disk m.

(** [*cache_e] for the entry at position [i]. *)
Definition entry (i : nat) : M cache buffer_cache :=
  c ← get; deref (buffer_cache_list c !! i).
Definition upd_entry (i : nat) (f : buffer_cache → buffer_cache) : M cache unit :=
  e ← entry i;
  modify (λ c, set_list (<[i := f e]> (buffer_cache_list c)) c).

(** [lock_acquire], [lock_release] on [buffer_cache_lock], with their
    assertions on the holder. *)
Definition lock_acquire : M cache unit :=
  c ← get; ASSERT (negb (buffer_cache_lock c));; modify (set_lock true).
Definition lock_release : M cache unit :=
  c ← get; ASSERT (buffer_cache_lock c);; modify (set_lock false).

(** [cache_init]: the list is emptied; the write-behind thread it starts runs
    [cache_write_behind_loop] again and again. *)
Definition cache_init : M cache unit :=
  modify (set_list []);; modify (set_lock false);; modify (set_size 0).

Definition find_cache (k : Z) : M cache (option nat) :=
  gets (λ c, fst <$> list_find (λ e, sector e = k) (buffer_cache_list c)).

(** One scan of the list in [evict_cache]; the function makes two of them. *)
Definition evict_scan (sector_idx : Z) : M cache (option nat) :=
  n ← gets (λ c, length (buffer_cache_list c));
  for_return n 0 (λ z,
    let i := Z.to_nat z in
    e ← entry i;
    if is_using e then mret None else
    if is_used e then upd_entry i (with_used false);; mret None else
    (if is_dirty e then on_disk (disk_write (sector e) (data e)) else mret tt);;
    upd_entry i (with_using true);;
    upd_entry i (with_sector sector_idx);;
    b ← on_disk (disk_read sector_idx);
    upd_entry i (with_data b);;
    upd_entry i (with_dirty false);;
    mret (Some i)).

Definition evict_cache (sector_idx : Z) : M cache (option nat) :=
  l ← gets buffer_cache_list;
  match l with
  | [] => mret None
  | _ =>
      r ← evict_scan sector_idx;
      match r with
      | Some i => mret (Some i)
      | None => evict_scan sector_idx
      end
  end.

(** A failing [malloc] ends in [ASSERT (0)].  Every member of the new entry is
    assigned before it is read, so what the memory held does not matter. *)
Definition allocate_new_cache (sector_idx : Z) : M cache nat :=
  oom ← gets out_of_memory;
  ASSERT (negb oom);;
  i ← gets (λ c, length (buffer_cache_list c));
  modify (λ c, set_list (buffer_cache_list c ++ [mk_bc 0 zero_sector false false false]) c);;
  modify (λ c, set_size (cache_current_size c + 1) c);;
  upd_entry i (with_sector sector_idx);;
  upd_entry i (with_used true);;
  upd_entry i (with_dirty false);;
  upd_entry i (with_using true);;
  b ← on_disk (disk_read sector_idx);
  upd_entry i (with_data b);;
  upd_entry i (with_using false);;
  mret i.

(** The common first half of [cache_read] and [cache_write]: find the entry or
    bring the sector in, and mark it in use, all under the lock. *)
Definition cache_get (sector_idx : Z) : M cache nat :=
  lock_acquire;;
  r ← find_cache sector_idx;
  match r with
  | None =>
      n ← gets cache_current_size;
      r ← (if n <? MAX_CACHE_SIZE
           then i ← allocate_new_cache sector_idx; mret (Some i)
           else evict_cache sector_idx);
      match r with
      | None => panic                   (* ASSERT (cache_e != NULL) *)
      | Some i => upd_entry i (with_using true);; lock_release;; mret i
      end
  | Some i =>
      upd_entry i (with_used true);;
      upd_entry i (with_using true);;
      lock_release;;
      mret i
  end.

(** Returns the caller's [buffer] after the copy. *)
Definition cache_read (sector_idx : Z) (buffer : bytes) (bytes_read sector_ofs chunk_size : Z)
    : M cache bytes :=
  i ← cache_get sector_idx;
  e ← entry i;
  buffer ← deref (memcpy buffer bytes_read (data e) sector_ofs chunk_size);
  upd_entry i (with_using false);;
  mret buffer.

Definition cache_write (sector_idx : Z) (buffer : bytes) (bytes_read sector_ofs chunk_size : Z)
    : M cache unit :=
  i ← cache_get sector_idx;
  e ← entry i;
  b ← deref (memcpy (data e) sector_ofs buffer bytes_read chunk_size);
  upd_entry i (with_data b);;
  upd_entry i (with_using false);;
  upd_entry i (with_dirty true).

Definition cache_write_behind_loop : M cache unit :=
  lock_acquire;;
  n ← gets (λ c, length (buffer_cache_list c));
  for_upto n 0 (λ z,
    let i := Z.to_nat z in
    e ← entry i;
    if is_dirty e then
      upd_entry i (with_using true);;
      on_disk (disk_write (sector e) (data e));;
      upd_entry i (with_using false);;
      upd_entry i (with_dirty false)
    else mret tt);;
  lock_release.
End Ops.

(** * What the cache promises

    The contents of the disk as the file system sees them: the cached copy of
    a sector if there is one, else the sector. *)
Definition lookup_sector (l : list buffer_cache) (k : Z) : option buffer_cache :=
  snd <$> list_find (λ e, sector e = k) l.

Definition view (c : cache) (k : Z) : bytes :=
  match lookup_sector (buffer_cache_list c) k with
  | Some e => data e
  | None => sector_data (filesys_disk c) k
  end.

(** No entry holds sector [k], so the disk itself has its contents. *)
Definition uncached (c : cache) (k : Z) : Prop :=
  ∀ i e, buffer_cache_list c !! i = Some e → sector e ≠ k.

(** An entry is a whole, addressable sector, and agrees with the disk unless
    it is marked dirty. *)
Record entry_ok (d : disk) (e : buffer_cache) : Prop := {
  eo_len : length (data e) = 512%nat;
  eo_valid : valid_sector d (sector e);
  eo_clean : is_dirty e = false → data e = sector_data d (sector e) }.

Record core (c : cache) : Prop := {
  co_disk : wf_disk (filesys_disk c);
  co_mem : out_of_memory c = false;
  co_size : cache_current_size c = Z.of_nat (length (buffer_cache_list c));
  co_max : cache_current_size c ≤ MAX_CACHE_SIZE;
  co_nodup : NoDup (sector <$> buffer_cache_list c);
  co_entries : ∀ i e, buffer_cache_list c !! i = Some e → entry_ok (filesys_disk c) e }.

(** Between operations no entry is in use and the lock is free. *)
Definition idle (c : cache) : Prop :=
  (∀ i e, buffer_cache_list c !! i = Some e → is_using e = false) ∧
  buffer_cache_lock c = false.

Definition inv (c : cache) : Prop := core c ∧ idle c.

(** [c'] shows the same disk as [c]. *)
Definition same_view (c c' : cache) : Prop :=
  (∀ k, view c' k = view c k) ∧ capacity (filesys_disk c') = capacity (filesys_disk c).

#[export] Instance same_view_equiv : Equivalence same_view.
Proof.
  split.
  - by intros c.
  - intros c c' [H ?]. split; [|done]. intros k. by rewrite H.
  - intros c1 c2 c3 [H1 ?] [H2 ?]. split; [|congruence]. intros k. by rewrite H2, H1.
Qed.

Implicit Types (l : list buffer_cache) (c : cache) (e x : buffer_cache) (i j : nat).

(** ** The view through a hit and through a miss *)
Lemma NoDup_sector_inj l i j e e' :
  NoDup (sector <$> l) → l !! i = Some e → l !! j = Some e' → sector e = sector e' → i = j.
Proof.
  intros Hn Hi Hj E. eapply (NoDup_lookup (sector <$> l)); [done|..];
    rewrite list_lookup_fmap; [by rewrite Hi|by rewrite Hj, E].
Qed.

Lemma lookup_sector_hit l i e :
  NoDup (sector <$> l) → l !! i = Some e → lookup_sector l (sector e) = Some e.
Proof.
  intros Hn Hi. unfold lookup_sector.
  destruct (list_find (λ e', sector e' = sector e) l) as [[j e']|] eqn:E; simpl.
  - apply list_find_Some in E as (Hj & E & _).
    assert (j = i) as -> by by eapply NoDup_sector_inj. congruence.
  - apply list_find_None in E. by eapply Forall_lookup_1 in E; [|done].
Qed.

Lemma lookup_sector_miss l k :
  (∀ i e, l !! i = Some e → sector e ≠ k) → lookup_sector l k = None.
Proof.
  intros Hm. unfold lookup_sector.
  destruct (list_find (λ e', sector e' = k) l) as [[j e']|] eqn:E; [|done].
  apply list_find_Some in E as (Hj & E & _). by destruct (Hm _ _ Hj).
Qed.

Lemma lookup_sector_cases l k :
  (∃ i e, l !! i = Some e ∧ sector e = k) ∨ (∀ i e, l !! i = Some e → sector e ≠ k).
Proof.
  destruct (list_find (λ e', sector e' = k) l) as [[j e']|] eqn:E.
  - apply list_find_Some in E as (Hj & E & _). left. eauto.
  - apply list_find_None in E. right. intros i e Hi. by eapply Forall_lookup_1 in E.
Qed.

Lemma view_hit c i e :
  core c → buffer_cache_list c !! i = Some e → view c (sector e) = data e.
Proof.
  intros Hc Hi. unfold view. by erewrite lookup_sector_hit by (apply Hc || done).
Qed.

Lemma view_miss c k :
  (∀ i e, buffer_cache_list c !! i = Some e → sector e ≠ k) →
  view c k = sector_data (filesys_disk c) k.
Proof. intros Hm. unfold view. by rewrite lookup_sector_miss. Qed.

Lemma length_view c k : core c → length (view c k) = 512%nat.
Proof.
  intros Hc. destruct (lookup_sector_cases (buffer_cache_list c) k) as [(i & e & Hi & <-)|Hm].
  - rewrite (view_hit _ _ _ Hc Hi). by apply (eo_len _ _ (co_entries _ Hc _ _ Hi)).
  - rewrite view_miss by done. apply length_sector_data, Hc.
Qed.

Lemma fmap_insert_id (l : list buffer_cache) i e e' :
  l !! i = Some e → sector e' = sector e → sector <$> <[i:=e']> l = sector <$> l.
Proof.
  intros Hi E. rewrite list_fmap_insert. apply list_insert_id.
  by rewrite list_lookup_fmap, Hi, E.
Qed.

Lemma NoDup_insert_fresh l i e :
  NoDup (sector <$> l) → (∀ j x, l !! j = Some x → sector x ≠ sector e) →
  NoDup (sector <$> <[i:=e]> l).
Proof.
  rewrite !NoDup_alt. intros Hn Hm j1 j2 k.
  rewrite !list_lookup_fmap, !fmap_Some.
  intros (x1 & H1 & E1) (x2 & H2 & E2).
  apply list_lookup_insert_Some in H1 as [(<- & <- & _)|[? H1]],
    H2 as [(<- & <- & _)|[? H2]]; [done|..].
  - by destruct (Hm _ _ H2); congruence.
  - by destruct (Hm _ _ H1); congruence.
  - apply (Hn j1 j2 k); rewrite list_lookup_fmap; [by rewrite H1, E1|by rewrite H2, E2].
Qed.

(** Replacing an entry by another copy of the same sector. *)
Lemma core_update c i e e' :
  core c → buffer_cache_list c !! i = Some e → sector e' = sector e →
  entry_ok (filesys_disk c) e' →
  core (set_list (<[i:=e']> (buffer_cache_list c)) c) ∧
  ∀ k, view (set_list (<[i:=e']> (buffer_cache_list c)) c) k =
       if decide (k = sector e) then data e' else view c k.
Proof.
  intros Hc Hi E He'. pose proof (lookup_lt_Some _ _ _ Hi) as Hlt.
  assert (core (set_list (<[i:=e']> (buffer_cache_list c)) c)) as Hc'.
  { destruct Hc. split; simpl; try done.
    - by rewrite length_insert.
    - by erewrite fmap_insert_id.
    - intros j x Hj. apply list_lookup_insert_Some in Hj as [(_ & <- & _)|[_ Hj]]; eauto. }
  split; [done|]. intros k. case_decide as Hk.
  - subst k. rewrite <-E. eapply view_hit; [done|]. simpl. by rewrite list_lookup_insert_eq.
  - destruct (lookup_sector_cases (buffer_cache_list c) k) as [(j & x & Hj & <-)|Hm].
    + rewrite (view_hit _ _ _ Hc Hj). apply (view_hit _ j x); [done|]. simpl.
      rewrite list_lookup_insert_ne; [done|]. intros ->. congruence.
    + etrans; [apply view_miss|by rewrite (view_miss c)]. simpl. intros j x Hj.
      apply list_lookup_insert_Some in Hj as [(_ & <- & _)|[_ Hj]]; [congruence|eauto].
Qed.

(** The entry at [i] gives way to sector [k]; a dirty copy reaches the disk. *)
Definition writeback (c : cache) (e : buffer_cache) : disk :=
  if is_dirty e then write_sector (filesys_disk c) (sector e) (data e) else filesys_disk c.

Definition replaced (c : cache) (i : nat) (e : buffer_cache) (k : Z) : cache :=
  let d := writeback c e in
  set_list (<[i:=mk_bc k (sector_data d k) (is_used e) false true]> (buffer_cache_list c))
    (set_disk d c).

Lemma writeback_data c e k : core c → entry_ok (filesys_disk c) e →
  sector_data (writeback c e) k =
  if decide (sector e = k) then data e else sector_data (filesys_disk c) k.
Proof.
  intros Hc He. unfold writeback. destruct (is_dirty e) eqn:Hd.
  - apply sector_data_write.
  - case_decide; [|done]. subst. by rewrite (eo_clean _ _ He).
Qed.

Lemma core_replaced c i e k :
  core c → buffer_cache_list c !! i = Some e → valid_sector (filesys_disk c) k →
  (∀ j x, buffer_cache_list c !! j = Some x → sector x ≠ k) →
  core (replaced c i e k) ∧ same_view c (replaced c i e k).
Proof.
  intros Hc Hi Hv Hmiss. pose proof (lookup_lt_Some _ _ _ Hi) as Hlt.
  pose proof (co_entries _ Hc _ _ Hi) as He.
  assert (capacity (writeback c e) = capacity (filesys_disk c)) as Hcap
    by (unfold writeback; by destruct (is_dirty e)).
  assert (wf_disk (writeback c e)) as Hwf.
  { unfold writeback. destruct (is_dirty e); [|apply Hc].
    apply wf_write_sector; [apply Hc|apply He]. }
  assert (∀ s, valid_sector (filesys_disk c) s → valid_sector (writeback c e) s) as Hval
    by (unfold valid_sector; by rewrite Hcap).
  assert (core (replaced c i e k)) as Hc'.
  { split; simpl; [done|apply Hc|rewrite length_insert; apply Hc|apply Hc|..].
    - by apply NoDup_insert_fresh; [apply Hc|].
    - intros j x Hj. apply list_lookup_insert_Some in Hj as [(_ & <- & _)|[Hne Hj]].
      + split; simpl; [by apply length_sector_data|auto|done].
      + pose proof (co_entries _ Hc _ _ Hj) as Hx. split; [apply Hx|apply Hval, Hx|].
        intros Hd. rewrite writeback_data by done. case_decide as E; [|by apply Hx].
        destruct Hne. by eapply NoDup_sector_inj; [apply Hc|..]. }
  split; [done|split; [|done]]. intros j.
  destruct (lookup_sector_cases (buffer_cache_list c) j) as [(m & x & Hm & <-)|Hm].
  - rewrite (view_hit _ _ _ Hc Hm). destruct (decide (m = i)) as [->|Hne].
    + simplify_eq. rewrite view_miss; simpl.
      * rewrite writeback_data by done. by rewrite decide_True.
      * intros j y Hj. apply list_lookup_insert_Some in Hj as [(_ & <- & _)|[Hji Hj]]; simpl.
        -- intros E. by destruct (Hmiss _ _ Hi).
        -- intros E. by destruct Hji; eapply NoDup_sector_inj; [apply Hc|..].
    + apply (view_hit _ m x); [done|]. simpl. by rewrite list_lookup_insert_ne.
  - rewrite (view_miss c) by done. destruct (decide (j = k)) as [->|Hne].
    + etrans; [apply (view_hit _ i (mk_bc k (sector_data (writeback c e) k) (is_used e) false true) Hc')|].
      * simpl. by rewrite list_lookup_insert_eq.
      * simpl. rewrite writeback_data by done. case_decide; [|done]. by destruct (Hmiss _ _ Hi).
    + rewrite view_miss; simpl.
      * rewrite writeback_data by done. case_decide; [|done]. by destruct (Hm _ _ Hi).
      * intros m y Hj. apply list_lookup_insert_Some in Hj as [(_ & <- & _)|[_ Hj]]; simpl; eauto.
Qed.

(** A change of the second-chance bits only. *)
Definition used_only l l' : Prop :=
  Forall2 (λ e e', e' = with_used (is_used e') e) l l'.

Lemma used_only_lookup l l' i e' :
  used_only l l' → l' !! i = Some e' → ∃ e, l !! i = Some e ∧ e' = with_used (is_used e') e.
Proof. intros Hu Hi. by eapply Forall2_lookup_r in Hu as (e & ? & ?); [|done]; eauto. Qed.

Lemma used_only_sectors l l' : used_only l l' → sector <$> l' = sector <$> l.
Proof. induction 1 as [|e e' l l' -> _ IH]; [done|]. by rewrite !fmap_cons, IH. Qed.

Lemma used_only_trans l1 l2 l3 : used_only l1 l2 → used_only l2 l3 → used_only l1 l3.
Proof.
  intros H1. revert l3. induction H1 as [|x y l1 l2 Hx H1 IH]; intros l3 H2.
  - exact H2.
  - inversion H2 as [|? z ? l4 Hz H3]; subst. constructor; [|by apply IH].
    clear -Hx Hz. unfold with_used in *. destruct x, y, z; simpl in *. congruence.
Qed.

Lemma core_used_only c l' :
  core c → used_only (buffer_cache_list c) l' →
  core (set_list l' c) ∧ same_view c (set_list l' c).
Proof.
  intros Hc Hu. pose proof (used_only_sectors _ _ Hu) as Hs.
  assert (core (set_list l' c)) as Hc'.
  { split; simpl; try apply Hc.
    - rewrite <-(Forall2_length _ _ _ Hu). apply Hc.
    - rewrite Hs. apply Hc.
    - intros i e' Hi. destruct (used_only_lookup _ _ _ _ Hu Hi) as (e & He & ->).
      destruct (co_entries _ Hc _ _ He). by split. }
  split; [done|split; [|done]]. intros k.
  destruct (lookup_sector_cases l' k) as [(i & e' & Hi & <-)|Hm].
  - destruct (used_only_lookup _ _ _ _ Hu Hi) as (e & He & E).
    etrans; [apply (view_hit _ i); done|]. rewrite E.
    symmetry. by apply (view_hit c i e).
  - rewrite (view_miss (set_list l' c)) by done. symmetry. apply (view_miss c).
    intros i e He E. destruct (Forall2_lookup_l _ _ _ _ _ Hu He) as (e' & He' & E').
    apply (Hm _ _ He'). by rewrite E'.
Qed.

Lemma set_list_set_list l1 l2 c : set_list l1 (set_list l2 c) = set_list l1 c.
Proof. done. Qed.

Module Correct.
Import Ops.

Lemma wp_entry c i e Q :
  buffer_cache_list c !! i = Some e → Q e c → wp (entry i) Q c.
Proof. intros Hi HQ. unfold entry. wp_go. rewrite Hi. by wp_go. Qed.

Lemma wp_upd_entry c i e f Q :
  buffer_cache_list c !! i = Some e →
  Q tt (set_list (<[i:=f e]> (buffer_cache_list c)) c) → wp (upd_entry i f) Q c.
Proof. intros Hi HQ. unfold upd_entry. wp_unbind. eapply wp_entry; [done|]. by wp_go. Qed.

Lemma wp_on_disk {A} c (m : M disk A) Q :
  wp m (λ a d, Q a (set_disk d c)) (filesys_disk c) → wp (on_disk m) Q c.
Proof. intros H. by apply wp_zoom. Qed.

Lemma lookup_upd l i e e' : l !! i = Some e → <[i:=e']> l !! i = Some e'.
Proof. intros Hi. apply list_lookup_insert_eq. by eapply lookup_lt_Some. Qed.

(** One assignment to a member of the entry at [i]. *)
Ltac upd :=
  wp_unbind; eapply wp_upd_entry;
  [ first [eassumption | simpl; eapply lookup_upd; eassumption] |];
  simpl; rewrite ?list_insert_insert_eq, ?set_list_set_list.

(** ** Eviction *)
Definition scanned (n : nat) l : list buffer_cache :=
  (with_used false <$> take n l) ++ drop n l.

Lemma scanned_lookup n l : scanned n l !! n = l !! n.
Proof.
  unfold scanned. destruct (decide (n < length l)%nat) as [Hn|Hn].
  - rewrite lookup_app_r by (rewrite length_fmap, length_take; lia).
    rewrite length_fmap, length_take, lookup_drop. f_equal. lia.
  - rewrite !lookup_ge_None_2; [done|lia|].
    rewrite length_app, length_fmap, length_take, length_drop. lia.
Qed.

Lemma scanned_step n l e :
  l !! n = Some e → <[n:=with_used false e]> (scanned n l) = scanned (S n) l.
Proof.
  intros He. pose proof (lookup_lt_Some _ _ _ He). unfold scanned.
  rewrite insert_app_r_alt by (rewrite length_fmap, length_take; lia).
  rewrite length_fmap, length_take. replace (n - n `min` length l)%nat with 0%nat by lia.
  rewrite (drop_S l e n) by done. simpl.
  rewrite (take_S_r l n e), fmap_app, <-app_assoc by done. done.
Qed.

Lemma scanned_used_only n l : used_only l (scanned n l).
Proof.
  unfold scanned. rewrite <-(take_drop n l) at 1. apply Forall2_app.
  - apply Forall2_fmap_r, Forall_Forall2_diag, Forall_true. done.
  - apply Forall_Forall2_diag, Forall_true. by intros [].
Qed.

(** The scan replaces the first entry whose second-chance bit is clear; when
    there is none it clears them all. *)
Lemma evict_scan_ok c k :
  core c → (∀ i e, buffer_cache_list c !! i = Some e → is_using e = false) →
  valid_sector (filesys_disk c) k →
  wp (evict_scan k)
    (λ r c', match r with
             | Some i => ∃ e, buffer_cache_list c !! i = Some e ∧ is_used e = false ∧
                 c' = replaced (set_list (scanned i (buffer_cache_list c)) c) i e k
             | None => (∀ i e, buffer_cache_list c !! i = Some e → is_used e = true) ∧
                 c' = set_list (with_used false <$> buffer_cache_list c) c
             end) c.
Proof.
  intros Hc Hidle Hv. set (l := buffer_cache_list c) in *.
  unfold evict_scan. wp_go. fold l.
  eapply (wp_for_return (λ z c', 0 ≤ z ∧ c' = set_list (scanned (Z.to_nat z) l) c ∧
    ∀ i e, l !! i = Some e → (i < Z.to_nat z)%nat → is_used e = true)).
  - intros z c' Hz (Hz0 & -> & Hused). set (n := Z.to_nat z) in *.
    destruct (lookup_lt_is_Some_2 l n ltac:(lia)) as [e He].
    pose proof (scanned_lookup n l) as Hn. rewrite He in Hn.
    wp_unbind. eapply wp_entry; [done|]. rewrite (Hidle _ _ He).
    destruct (is_used e) eqn:Hu.
    + upd. wp_go. rewrite (scanned_step _ _ _ He).
      replace (Z.to_nat (z + 1)) with (S n) by lia. split_and!; [lia|done|].
      intros i x Hi Hlt. destruct (decide (i = n)) as [->|]; [congruence|].
      apply (Hused _ _ Hi). lia.
    + assert (entry_ok (filesys_disk c) e) as Heok by by eapply co_entries.
      set (c1 := set_list (scanned n l) c) in *.
      assert (wp (if is_dirty e then on_disk (disk_write (sector e) (data e)) else mret tt)
        (λ _ c', c' = set_disk (writeback c1 e) c1) c1) as Hwb.
      { unfold writeback. destruct (is_dirty e); [|by wp_go].
        apply wp_on_disk, wp_disk_write; [apply Heok|apply Heok|done]. }
      wp_unbind. eapply wp_mono; [exact Hwb|]. intros ? ? ->. clear Hwb.
      upd. upd. wp_unbind. apply wp_on_disk, wp_disk_read.
      { unfold valid_sector, writeback. simpl. by destruct (is_dirty e). }
      upd. upd. wp_go. exists e. split_and!; [done..|].
      unfold replaced, with_data, with_dirty, with_sector, with_using. simpl. done.
  - intros c' (_ & -> & Hused). rewrite Z.add_0_l, Nat2Z.id in *. split.
    + intros i e He. apply (Hused _ _ He). by eapply lookup_lt_Some.
    + unfold scanned. by rewrite take_ge, drop_ge, app_nil_r by lia.
  - split_and!; [done| |intros; lia]. subst l. by destruct c.
Qed.
(** What the eviction of an entry for sector [k] leaves behind. *)
Definition holds c c' i k : Prop :=
  core c' ∧ same_view c c' ∧ buffer_cache_lock c' = buffer_cache_lock c ∧
  (∃ e, buffer_cache_list c' !! i = Some e ∧ sector e = k) ∧
  (∀ j x, buffer_cache_list c' !! j = Some x → j ≠ i → is_using x = false) ∧
  ∀ m, m ≠ k → uncached c m → uncached c' m.

Lemma holds_replaced c l' i e k :
  core c → (∀ j x, buffer_cache_list c !! j = Some x → is_using x = false) →
  valid_sector (filesys_disk c) k →
  (∀ j x, buffer_cache_list c !! j = Some x → sector x ≠ k) →
  used_only (buffer_cache_list c) l' → l' !! i = Some e →
  holds c (replaced (set_list l' c) i e k) i k.
Proof.
  intros Hc Hidle Hv Hmiss Hu Hi.
  destruct (core_used_only _ _ Hc Hu) as [Hc1 Hv1].
  destruct (core_replaced (set_list l' c) i e k) as [Hc2 Hv2]; [done..| |].
  { simpl. intros j x Hj E. destruct (used_only_lookup _ _ _ _ Hu Hj) as (x0 & H0 & Ex).
    rewrite Ex in E. by apply (Hmiss _ _ H0). }
  split_and!; [done|by etrans|done|..]; simpl.
  - eexists. split; [by eapply lookup_upd|done].
  - intros j x Hj Hne. rewrite list_lookup_insert_ne in Hj by done.
    destruct (used_only_lookup _ _ _ _ Hu Hj) as (x0 & H0 & ->). simpl. eauto.
  - intros m Hm Hunc j x Hj. apply list_lookup_insert_Some in Hj as [(_ & <- & _)|[_ Hj]]; [done|].
    destruct (used_only_lookup _ _ _ _ Hu Hj) as (x0 & H0 & ->). exact (Hunc _ _ H0).
Qed.

(** Two scans are enough: the first clears the bits, so the second takes the
    first entry. *)
Lemma evict_cache_ok c k :
  core c → (∀ j x, buffer_cache_list c !! j = Some x → is_using x = false) →
  valid_sector (filesys_disk c) k →
  (∀ j x, buffer_cache_list c !! j = Some x → sector x ≠ k) →
  buffer_cache_list c ≠ [] →
  wp (evict_cache k) (λ r c', ∃ i, r = Some i ∧ holds c c' i k) c.
Proof.
  intros Hc Hidle Hv Hmiss Hne. unfold evict_cache. wp_go.
  destruct (buffer_cache_list c) as [|e0 l0] eqn:El; [done|]. wp_unbind.
  rewrite <-El in *. eapply wp_mono; [by apply evict_scan_ok|].
  intros [i|] c1; cbn beta.
  - intros (e & He & Hu & ->). wp_go. exists i. split; [done|].
    apply holds_replaced; [done..| |by rewrite scanned_lookup]. apply scanned_used_only.
  - intros [Hall ->]. set (l1 := with_used false <$> buffer_cache_list c).
    assert (used_only (buffer_cache_list c) l1) as Hu1.
    { apply Forall2_fmap_r, Forall_Forall2_diag, Forall_true. done. }
    destruct (core_used_only _ _ Hc Hu1) as [Hc1 _].
    eapply wp_mono; [apply evict_scan_ok; [done| |done]|].
    { simpl. intros i e He. destruct (used_only_lookup _ _ _ _ Hu1 He) as (x & Hx & ->).
      simpl. eauto. }
    intros [i|] c2; cbn beta.
    + intros (e & He & _ & ->). exists i. split; [done|]. simpl in He |- *.
      change (set_list (scanned i l1) (set_list l1 c)) with (set_list (scanned i l1) c).
      apply holds_replaced; [done..| |by rewrite scanned_lookup].
      eapply used_only_trans; [exact Hu1|apply scanned_used_only].
    + intros [Hall2 _]. exfalso. simpl in Hall2.
      specialize (Hall2 0%nat (with_used false e0)). unfold l1 in Hall2.
      rewrite El in Hall2. by specialize (Hall2 eq_refl).
Qed.
(** ** Allocation of a new entry *)
Ltac upd_new Hlast Hins :=
  wp_unbind; eapply wp_upd_entry; [simpl; apply Hlast|]; simpl;
  rewrite Hins, ?set_list_set_list.

Lemma allocate_new_cache_ok c k :
  core c → (∀ j x, buffer_cache_list c !! j = Some x → is_using x = false) →
  valid_sector (filesys_disk c) k →
  (∀ j x, buffer_cache_list c !! j = Some x → sector x ≠ k) →
  cache_current_size c < MAX_CACHE_SIZE →
  wp (allocate_new_cache k) (λ i c', holds c c' i k) c.
Proof.
  intros Hc Hidle Hv Hmiss Hlt. set (l := buffer_cache_list c) in *.
  unfold allocate_new_cache. wp_assert (by rewrite (co_mem _ Hc)). fold l.
  assert (∀ x : buffer_cache, (l ++ [x]) !! length l = Some x) as Hlast.
  { intros x. by rewrite lookup_app_r, Nat.sub_diag by lia. }
  assert (∀ x y : buffer_cache, <[length l:=y]> (l ++ [x]) = l ++ [y]) as Hins.
  { intros x y. by rewrite insert_app_r_alt, Nat.sub_diag by lia. }
  do 4 upd_new Hlast Hins. wp_unbind. apply wp_on_disk, wp_disk_read; [done|].
  do 2 upd_new Hlast Hins. wp_go.
  unfold with_data, with_dirty, with_sector, with_using, with_used. simpl.
  set (e := mk_bc k (sector_data (filesys_disk c) k) true false false).
  match goal with |- holds c ?s _ _ => set (c' := s) end.
  assert (buffer_cache_list c' = l ++ [e]) as Hl by done.
  assert (∀ j x, buffer_cache_list c' !! j = Some x →
    l !! j = Some x ∨ (j = length l ∧ x = e)) as Hcase.
  { intros j x. rewrite Hl. intros [?|[Hge Hj]]%lookup_app_Some; [by left|]. right.
    destruct (j - length l)%nat as [|m] eqn:E; simpl in Hj; [|done].
    simplify_eq. split; [lia|done]. }
  assert (core c') as Hc'.
  { split; simpl; [apply Hc|apply Hc| | | |].
    - rewrite length_app, (co_size _ Hc). simpl. fold l. lia.
    - lia.
    - rewrite fmap_app. apply NoDup_app. split_and!; [apply Hc| |apply NoDup_singleton].
      simpl. intros s (x & -> & (j & Hj)%list_elem_of_lookup)%list_elem_of_fmap.
      rewrite list_elem_of_singleton. by apply (Hmiss j).
    - intros j x [Hj|[_ ->]]%Hcase; [by apply (co_entries _ Hc j)|].
      split; simpl; [apply length_sector_data, Hc|done|done]. }
  split_and!; [done| |done|by exists e; rewrite Hl|..].
  - split; [|done]. intros s.
    destruct (lookup_sector_cases l s) as [(j & x & Hj & <-)|Hm].
    + rewrite (view_hit _ _ _ Hc Hj). apply (view_hit _ j); [done|].
      rewrite Hl. by apply lookup_app_l_Some.
    + rewrite (view_miss c) by done. destruct (decide (s = k)) as [->|Hne].
      * apply (view_hit c' (length l) e); [done|]. by rewrite Hl.
      * apply (view_miss c'). intros j x [Hj|[_ ->]]%Hcase; [eauto|simpl; congruence].
  - intros j x [Hj|[-> ->]]%Hcase Hne; eauto.
  - intros m Hm Hunc j x [Hj|[-> ->]]%Hcase; [by apply (Hunc j)|done].
Qed.

(** ** Getting hold of a sector

    After the locked half of an operation the sector is cached, its entry and
    no other is marked in use, and the disk looks the same. *)
Lemma cache_get_ok c k :
  inv c → valid_sector (filesys_disk c) k →
  wp (cache_get k)
    (λ i c', holds c c' i k ∧
       ∃ e, buffer_cache_list c' !! i = Some e ∧ sector e = k ∧ is_using e = true) c.
Proof.
  intros [Hc [Hidle Hlock]] Hv. unfold cache_get, lock_acquire, find_cache.
  wp_assert (by rewrite Hlock). simpl.
  destruct (list_find (λ e, sector e = k) (buffer_cache_list c)) as [[i e]|] eqn:E; simpl.
  - apply list_find_Some in E as (Hi & Hk & _).
    upd. upd. unfold lock_release. wp_go.
    pose proof (co_entries _ Hc _ _ Hi) as He.
    destruct (core_update c i e (with_using true (with_used true e))) as [Hc' Hv'];
      [done..|by destruct He|].
    split; [|exists (with_using true (with_used true e)); split_and!; [by eapply lookup_upd|done..]].
    split_and!; [by destruct Hc'| |done|eexists; by split; [eapply lookup_upd|]|..].
    + split; [|done]. intros s. etrans; [apply Hv'|]. case_decide; [|done]. subst s.
      symmetry. by apply (view_hit c i e).
    + simpl. intros j x Hj Hne. rewrite list_lookup_insert_ne in Hj by done. eauto.
    + intros m Hm Hunc j x Hj.
      apply list_lookup_insert_Some in Hj as [(_ & <- & _)|[_ Hj]]; [exact (Hunc _ _ Hi)|by apply (Hunc j)].
  - apply list_find_None in E.
    assert (∀ j x, buffer_cache_list c !! j = Some x → sector x ≠ k) as Hmiss.
    { intros j x Hj. by eapply Forall_lookup_1 in E. }
    set (c0 := set_lock true c). assert (core c0) as Hc0 by by destruct Hc.
    assert (wp (if cache_current_size c <? MAX_CACHE_SIZE
                then i ← allocate_new_cache k; mret (Some i) else evict_cache k)
              (λ r c', ∃ i, r = Some i ∧ holds c0 c' i k) c0) as Hget.
    { destruct (Z.ltb_spec (cache_current_size c) MAX_CACHE_SIZE) as [Hlt|Hge].
      - wp_unbind. eapply wp_mono; [by apply allocate_new_cache_ok|].
        intros i c' Hh. wp_go. eauto.
      - apply evict_cache_ok; [done..|]. simpl. intros El. pose proof (co_size _ Hc) as Hs.
        rewrite El in Hs. unfold MAX_CACHE_SIZE in Hge. simpl in Hs. lia. }
    wp_go. eapply wp_mono; [exact Hget|].
    intros r c1 (i & -> & Hc1 & Hv1 & Hl1 & (e & Hi & Hk) & Hu1 & Hm1). cbn beta match.
    upd. unfold lock_release. wp_go. simpl. rewrite Hl1. simpl. wp_go.
    pose proof (co_entries _ Hc1 _ _ Hi) as He.
    destruct (core_update c1 i e (with_using true e)) as [Hc' Hv']; [done..|by destruct He|].
    split; [|exists (with_using true e); split_and!; [by eapply lookup_upd|done..]].
    split_and!; [by destruct Hc'| |done|eexists; by split; [eapply lookup_upd|]|..].
    + transitivity c1; [by destruct Hv1|]. split; [|done]. intros s. etrans; [apply Hv'|].
      case_decide; [|done]. subst s. symmetry. by apply (view_hit c1 i e).
    + simpl. intros j x Hj Hne. rewrite list_lookup_insert_ne in Hj by done. eauto.
    + intros m Hm Hunc j x Hj. pose proof (Hm1 m Hm Hunc) as Hunc1.
      apply list_lookup_insert_Some in Hj as [(_ & <- & _)|[_ Hj]]; [exact (Hunc1 _ _ Hi)|by apply (Hunc1 j)].
Qed.
(** The unlocked half: the entry is replaced by another copy of the sector
    that is not in use any more. *)
Lemma holds_finish c c1 i k e e' :
  inv c → holds c c1 i k → buffer_cache_list c1 !! i = Some e → sector e = k →
  sector e' = k → is_using e' = false → entry_ok (filesys_disk c1) e' →
  inv (set_list (<[i:=e']> (buffer_cache_list c1)) c1) ∧
  (∀ s, view (set_list (<[i:=e']> (buffer_cache_list c1)) c1) s =
        if decide (s = k) then data e' else view c s) ∧
  capacity (filesys_disk c1) = capacity (filesys_disk c) ∧
  ∀ m, m ≠ k → uncached c m →
    uncached (set_list (<[i:=e']> (buffer_cache_list c1)) c1) m.
Proof.
  intros [_ [_ Hlock]] (Hc1 & [Hv1 Hcap] & Hl1 & _ & Hu1 & Hm1) Hi Hk Hk' Hu' He'.
  destruct (core_update c1 i e e') as [Hc' Hv']; [done|done|congruence|done|].
  split_and!; [|intros s; rewrite Hv', Hk; by case_decide|done|].
  - split; [done|]. split; [|by rewrite <-Hlock, <-Hl1]. simpl. intros j x Hj.
    apply list_lookup_insert_Some in Hj as [(-> & <- & _)|[Hne Hj]]; eauto.
  - intros m Hm Hunc j x Hj. pose proof (Hm1 m Hm Hunc) as Hunc1. simpl in Hj.
    apply list_lookup_insert_Some in Hj as [(_ & <- & _)|[_ Hj]]; [congruence|eauto].
Qed.

Lemma cache_read_ok c k buffer br ofs n :
  inv c → valid_sector (filesys_disk c) k →
  0 ≤ ofs → 0 ≤ n → ofs + n ≤ 512 → 0 ≤ br → br + n ≤ Z.of_nat (length buffer) →
  wp (cache_read k buffer br ofs n)
    (λ r c', inv c' ∧ same_view c c' ∧ (∀ m, m ≠ k → uncached c m → uncached c' m) ∧
       r = splice buffer br (slice (view c k) ofs n)) c.
Proof.
  intros Hinv Hv ?????. unfold cache_read. wp_unbind.
  eapply wp_mono; [by apply cache_get_ok|]. intros i c1 (Hh & e & Hi & Hk & Hu).
  pose proof Hh as (Hc1 & [Hv1 _] & _). pose proof (co_entries _ Hc1 _ _ Hi) as He.
  assert (data e = view c k) as Hd by (rewrite <-Hv1, <-Hk; symmetry; by eapply view_hit).
  wp_unbind. eapply wp_entry; [done|]. wp_unbind.
  rewrite memcpy_splice by (rewrite ?(eo_len _ _ He); lia). wp_go. upd. wp_go.
  destruct (holds_finish c c1 i k e (with_using false e)) as (? & Hv' & ? & ?);
    [done..|by destruct He|].
  split_and!; [done| |done|by rewrite Hd]. split; [|done]. intros s. rewrite Hv'.
  case_decide; [|done]. subst. by rewrite <-Hd.
Qed.

Lemma cache_write_ok c k buffer br ofs n :
  inv c → valid_sector (filesys_disk c) k →
  0 ≤ ofs → 0 ≤ n → ofs + n ≤ 512 → 0 ≤ br → br + n ≤ Z.of_nat (length buffer) →
  wp (cache_write k buffer br ofs n)
    (λ _ c', inv c' ∧ capacity (filesys_disk c') = capacity (filesys_disk c) ∧
       (∀ m, m ≠ k → uncached c m → uncached c' m) ∧
       ∀ s, view c' s = if decide (s = k) then splice (view c k) ofs (slice buffer br n)
                        else view c s) c.
Proof.
  intros Hinv Hv ?????. unfold cache_write. wp_unbind.
  eapply wp_mono; [by apply cache_get_ok|]. intros i c1 (Hh & e & Hi & Hk & Hu).
  pose proof Hh as (Hc1 & [Hv1 _] & _). pose proof (co_entries _ Hc1 _ _ Hi) as He.
  assert (data e = view c k) as Hd by (rewrite <-Hv1, <-Hk; symmetry; by eapply view_hit).
  wp_unbind. eapply wp_entry; [done|]. wp_unbind.
  rewrite memcpy_splice by (rewrite ?(eo_len _ _ He); lia). wp_go. upd. upd. upd.
  destruct (holds_finish c c1 i k e
    (with_dirty true (with_using false
      (with_data (splice (data e) ofs (slice buffer br n)) e)))) as (? & Hv' & ? & ?);
    [done..| |].
  { destruct He as [Hlen ? ?]. split; [|done|done]. simpl.
    rewrite length_splice; [done|lia|]. rewrite length_slice; lia. }
  split_and!; [done..|]. intros s. rewrite Hv'. case_decide; [|done]. simpl. by rewrite Hd.
Qed.

(** ** Write-behind *)
Lemma core_clean c i e :
  core c → buffer_cache_list c !! i = Some e →
  let c' := set_list (<[i:=with_dirty false (with_using false e)]> (buffer_cache_list c))
              (set_disk (write_sector (filesys_disk c) (sector e) (data e)) c) in
  core c' ∧ same_view c c'.
Proof.
  intros Hc Hi c'. pose proof (co_entries _ Hc _ _ Hi) as He.
  assert (core c') as Hc'.
  { split; simpl; [by apply wf_write_sector; [apply Hc|apply He]|apply Hc| |apply Hc| |].
    - rewrite length_insert. apply Hc.
    - erewrite fmap_insert_id by done. apply Hc.
    - intros j x Hj. apply list_lookup_insert_Some in Hj as [(_ & <- & _)|[Hne Hj]].
      + destruct He. split; simpl; [done..|]. intros _.
        by rewrite sector_data_write, decide_True.
      + destruct (co_entries _ Hc _ _ Hj) as [? ? Hcl]. split; [done..|]. intros Hd.
        rewrite sector_data_write, decide_False; [auto|]. intros E.
        destruct Hne. by eapply NoDup_sector_inj; [apply Hc|..]. }
  split; [done|split; [|done]]. intros k.
  destruct (lookup_sector_cases (buffer_cache_list c) k) as [(j & x & Hj & <-)|Hm].
  - rewrite (view_hit _ _ _ Hc Hj). destruct (decide (j = i)) as [->|Hne].
    + simplify_eq. apply (view_hit c' i (with_dirty false (with_using false e))); [done|].
      simpl. by eapply lookup_upd.
    + apply (view_hit c' j x); [done|]. simpl. by rewrite list_lookup_insert_ne.
  - rewrite (view_miss c), (view_miss c'); [|simpl|done].
    2: { intros j x Hj. apply list_lookup_insert_Some in Hj as [(_ & <- & _)|[_ Hj]];
         [by apply (Hm _ _ Hi)|eauto]. }
    simpl. rewrite sector_data_write. case_decide; [|done]. by destruct (Hm _ _ Hi).
Qed.

Lemma cache_write_behind_loop_ok c :
  inv c →
  wp cache_write_behind_loop
    (λ _ c', inv c' ∧ same_view c c' ∧
       ∀ k, sector_data (filesys_disk c') k = view c k) c.
Proof.
  intros [Hc [Hidle Hlock]]. unfold cache_write_behind_loop, lock_acquire.
  wp_assert (by rewrite Hlock). wp_unbind.
  set (n := length (buffer_cache_list c)).
  eapply wp_mono; [apply (wp_for_upto (λ z c', 0 ≤ z ∧ core c' ∧ same_view c c' ∧
    buffer_cache_lock c' = true ∧ length (buffer_cache_list c') = n ∧
    ∀ i e, buffer_cache_list c' !! i = Some e →
      is_using e = false ∧ ((i < Z.to_nat z)%nat → is_dirty e = false)))|].
  - intros z c1 Hz (Hz0 & Hc1 & Hv1 & Hl1 & Hn1 & He1).
    destruct (lookup_lt_is_Some_2 (buffer_cache_list c1) (Z.to_nat z)) as [e Hi]; [simpl in Hz; lia|].
    wp_unbind. eapply wp_entry; [done|].
    assert (∀ l2 : list buffer_cache, (∀ i x, l2 !! i = Some x →
        (i = Z.to_nat z ∧ is_using x = false ∧ is_dirty x = false) ∨
        (i ≠ Z.to_nat z ∧ buffer_cache_list c1 !! i = Some x)) →
      ∀ i x, l2 !! i = Some x →
        is_using x = false ∧ ((i < Z.to_nat (z + 1))%nat → is_dirty x = false)) as Hstep.
    { intros l2 Hcase i x Hx. destruct (Hcase i x Hx) as [(-> & ? & ?)|[Hne Hx1]]; [done|].
      destruct (He1 _ _ Hx1) as [? Hd]. split; [done|]. intros. apply Hd. lia. }
    destruct (is_dirty e) eqn:Hdirty.
    + destruct (co_entries _ Hc1 _ _ Hi) as [Hlen Hval _].
      upd. wp_unbind. apply wp_on_disk, wp_disk_write; [done..|]. upd. upd.
      destruct (core_clean c1 _ _ Hc1 Hi) as [Hc2 Hv2].
      split_and!; [lia|exact Hc2|by etrans|done|by rewrite length_insert|].
      apply Hstep. simpl. intros i x Hx.
      apply list_lookup_insert_Some in Hx as [(-> & <- & _)|[? ?]]; [by left|by right].
    + wp_go. split_and!; [lia|done..|]. apply Hstep. intros i x Hx.
      destruct (decide (i = Z.to_nat z)) as [->|]; [left|by right].
      split; [done|]. split; [by apply (He1 _ _ Hx)|congruence].
  - split_and!; [done|by destruct Hc|done|done|done|]. intros i e Hi.
    split; [by eapply Hidle|]. simpl. lia.
  - intros _ c1 (_ & Hc1 & Hv1 & Hl1 & Hn1 & He1). unfold lock_release.
    wp_go. rewrite Hl1. wp_go. rewrite Z.add_0_l, Nat2Z.id in He1.
    split_and!; [split; [by destruct Hc1|]; split; [|done]; simpl; intros i e Hi; by apply (He1 i)
                |by destruct Hv1|].
    intros k. destruct Hv1 as [<- _]. simpl.
    destruct (lookup_sector_cases (buffer_cache_list c1) k) as [(i & e & Hi & <-)|Hm].
    + rewrite (view_hit _ _ _ Hc1 Hi). symmetry. apply (eo_clean _ _ (co_entries _ Hc1 _ _ Hi)).
      apply (He1 _ _ Hi). pose proof (lookup_lt_Some _ _ _ Hi). simpl. unfold n in *. lia.
    + by rewrite view_miss.
Qed.
End Correct.

(** * Sequences of operations

    The cache refines an array of sectors: whatever is read, written or
    flushed, and whenever sectors are evicted, the results are those of the
    array. *)
Inductive request :=
| Read (k : Z) (buffer : bytes) (bytes_read ofs n : Z)
| Write (k : Z) (buffer : bytes) (bytes_read ofs n : Z)
| Flush.

Definition serve (r : request) : M cache bytes :=
  match r with
  | Read k buffer br ofs n => Ops.cache_read k buffer br ofs n
  | Write k buffer br ofs n => Ops.cache_write k buffer br ofs n;; mret []
  | Flush => Ops.cache_write_behind_loop;; mret []
  end.

Fixpoint serve_all (rs : list request) : M cache (list bytes) :=
  match rs with
  | [] => mret []
  | r :: rs => b ← serve r; bs ← serve_all rs; mret (b :: bs)
  end.

(** The same requests on an array of sectors. *)
Definition array_step (r : request) (a : Z → bytes) : bytes * (Z → bytes) :=
  match r with
  | Read k buffer br ofs n => (splice buffer br (slice (a k) ofs n), a)
  | Write k buffer br ofs n =>
      ([], λ s, if decide (s = k) then splice (a k) ofs (slice buffer br n) else a s)
  | Flush => ([], a)
  end.

Fixpoint array_run (rs : list request) (a : Z → bytes) : list bytes * (Z → bytes) :=
  match rs with
  | [] => ([], a)
  | r :: rs =>
      let '(b, a) := array_step r a in
      let '(bs, a) := array_run rs a in
      (b :: bs, a)
  end.

(** Requests within a sector and within the caller's buffer. *)
Definition in_bounds (cap : Z) (r : request) : Prop :=
  match r with
  | Read k buffer br ofs n | Write k buffer br ofs n =>
      0 ≤ k < cap ∧ k < 2 ^ 28 ∧ 0 ≤ ofs ∧ 0 ≤ n ∧ ofs + n ≤ 512 ∧ 0 ≤ br ∧
      br + n ≤ Z.of_nat (length buffer)
  | Flush => True
  end.

Module Refine.
Import Ops Correct.

Lemma serve_ok c r a :
  inv c → (∀ k, view c k = a k) → in_bounds (capacity (filesys_disk c)) r →
  wp (serve r) (λ b c', inv c' ∧ b = (array_step r a).1 ∧
    (∀ k, view c' k = (array_step r a).2 k) ∧
    capacity (filesys_disk c') = capacity (filesys_disk c)) c.
Proof.
  intros Hi Ha. destruct r as [k buf br ofs n|k buf br ofs n|]; simpl.
  - intros (? & ? & ? & ? & ? & ? & ?).
    eapply wp_mono; [apply cache_read_ok; [done|by split|done..]|].
    intros b c' (? & [Hv ?] & _ & ->). rewrite Ha. split_and!; [done|done| |done].
    intros s. by rewrite Hv.
  - intros (? & ? & ? & ? & ? & ? & ?). wp_unbind.
    eapply wp_mono; [apply cache_write_ok; [done|by split|done..]|].
    intros ? c' (? & ? & _ & Hv). wp_go. split_and!; [done|done| |done].
    intros s. rewrite Hv, !Ha. done.
  - intros _. wp_unbind. eapply wp_mono; [by apply cache_write_behind_loop_ok|].
    intros ? c' (? & [Hv ?] & _). wp_go. split_and!; [done|done| |done].
    intros s. by rewrite Hv.
Qed.

Lemma serve_all_ok rs c a :
  inv c → (∀ k, view c k = a k) → Forall (in_bounds (capacity (filesys_disk c))) rs →
  wp (serve_all rs) (λ bs c', inv c' ∧ bs = (array_run rs a).1 ∧
    (∀ k, view c' k = (array_run rs a).2 k)) c.
Proof.
  revert c a. induction rs as [|r rs IH]; intros c a Hi Ha Hb; simpl; [by wp_go|].
  apply Forall_cons in Hb as [Hr Hrs]. wp_unbind. eapply wp_mono; [by apply serve_ok|].
  intros b c' (Hi' & -> & Ha' & Hcap). wp_unbind.
  destruct (array_step r a) as [b a'] eqn:Es. simpl in *.
  eapply wp_mono; [apply (IH c' a'); [done|done|by rewrite Hcap]|].
  intros bs c'' (? & -> & ?). wp_go. destruct (array_run rs a'). done.
Qed.

(** The state [cache_init] leaves: an empty cache in front of the disk. *)
Lemma cache_init_ok c :
  wf_disk (filesys_disk c) → out_of_memory c = false →
  wp cache_init (λ _ c', inv c' ∧ filesys_disk c' = filesys_disk c ∧
    ∀ k, view c' k = sector_data (filesys_disk c) k) c.
Proof.
  intros Hd Hm. unfold cache_init. wp_go. split_and!; [|done|done].
  split; split; simpl; try done. apply NoDup_nil_2.
Qed.
End Refine.
