(* ===== verification/FsState.v ===== *)
(** The state the file system's modules share: the disk behind its buffer
    cache, the free map, the in-memory inodes and the open files, each kept in
    a heap of its own and named by its address.  Address 0 is the null
    pointer.

    [open_inodes] is a [struct list] in the code; its order is what
    [inode_open] sees, so it is kept as the sequence of its elements, which is
    what [KList] proves the list operations implement. *)
From Stdlib Require Import ZArith Lia.
From stdpp Require Import base tactics option numbers list gmap.
From S2P Require Import Prelude Bytes Disk.
From S2P Require Cache Bitmap.

Open Scope Z_scope.

Definition INODE_MAGIC : Z := 0x494e4f44.
Definition NUM_PTRS : Z := 15.
Definition NUM_PTRS_DIR : Z := 4.
Definition NUM_PTRS_INDIR : Z := 10.
Definition NUM_PTRS_DOUBLE : Z := 1.
Definition FILE_SIZE_MAX : Z := 2 ^ 23.
Definition PTR_PER_BLOCK : Z := 128.
Definition FREE_MAP_SECTOR : Z := 0.
Definition ROOT_DIR_SECTOR : Z := 1.
Definition NULL : Z := 0.

(** [struct inode_disk], one sector on disk. *)
Record inode_disk := mk_inode_disk {
  d_length : Z;
  d_magic : Z;
  d_is_allocated : Z;
  d_ptrs : list Z;
  d_ptr_idx : Z;
  d_indir_idx : Z;
  d_double_indir_idx : Z;
  d_is_dir : Z;
  d_parent : Z;
  d_unused : list Z }.

(** Its layout: 128 words in declaration order, [length] a signed one. *)
Definition inode_disk_words (di : inode_disk) : list Z :=
  [u32 (d_length di); d_magic di; d_is_allocated di] ++ d_ptrs di ++
  [d_ptr_idx di; d_indir_idx di; d_double_indir_idx di; d_is_dir di; d_parent di] ++
  d_unused di.
Definition inode_disk_of_words (w : list Z) : inode_disk :=
  mk_inode_disk (s32 (w !!! 0%nat)) (w !!! 1%nat) (w !!! 2%nat) (take 15 (drop 3 w))
    (w !!! 18%nat) (w !!! 19%nat) (w !!! 20%nat) (w !!! 21%nat) (w !!! 22%nat) (drop 23 w).

(** [struct inode]; the lock is held or not by the running thread. *)
Record inode := mk_inode {
  i_sector : Z;
  i_open_cnt : Z;
  i_removed : bool;
  i_deny_write_cnt : Z;
  i_length : Z;
  i_length_shown : Z;
  i_is_allocated : Z;
  i_ptrs : list Z;
  i_ptr_idx : Z;
  i_indir_idx : Z;
  i_double_indir_idx : Z;
  i_is_dir : Z;
  i_parent : Z;
  i_lock : bool }.

(** Assignments to the members. *)
Definition upd_i_open_cnt v i := mk_inode (i_sector i) v (i_removed i) (i_deny_write_cnt i)
  (i_length i) (i_length_shown i) (i_is_allocated i) (i_ptrs i) (i_ptr_idx i)
  (i_indir_idx i) (i_double_indir_idx i) (i_is_dir i) (i_parent i) (i_lock i).
Definition upd_i_removed v i := mk_inode (i_sector i) (i_open_cnt i) v (i_deny_write_cnt i)
  (i_length i) (i_length_shown i) (i_is_allocated i) (i_ptrs i) (i_ptr_idx i)
  (i_indir_idx i) (i_double_indir_idx i) (i_is_dir i) (i_parent i) (i_lock i).
Definition upd_i_deny_write_cnt v i := mk_inode (i_sector i) (i_open_cnt i) (i_removed i) v
  (i_length i) (i_length_shown i) (i_is_allocated i) (i_ptrs i) (i_ptr_idx i)
  (i_indir_idx i) (i_double_indir_idx i) (i_is_dir i) (i_parent i) (i_lock i).
Definition upd_i_length v i := mk_inode (i_sector i) (i_open_cnt i) (i_removed i)
  (i_deny_write_cnt i) v (i_length_shown i) (i_is_allocated i) (i_ptrs i) (i_ptr_idx i)
  (i_indir_idx i) (i_double_indir_idx i) (i_is_dir i) (i_parent i) (i_lock i).
Definition upd_i_length_shown v i := mk_inode (i_sector i) (i_open_cnt i) (i_removed i)
  (i_deny_write_cnt i) (i_length i) v (i_is_allocated i) (i_ptrs i) (i_ptr_idx i)
  (i_indir_idx i) (i_double_indir_idx i) (i_is_dir i) (i_parent i) (i_lock i).
Definition upd_i_is_allocated v i := mk_inode (i_sector i) (i_open_cnt i) (i_removed i)
  (i_deny_write_cnt i) (i_length i) (i_length_shown i) v (i_ptrs i) (i_ptr_idx i)
  (i_indir_idx i) (i_double_indir_idx i) (i_is_dir i) (i_parent i) (i_lock i).
Definition upd_i_ptrs v i := mk_inode (i_sector i) (i_open_cnt i) (i_removed i)
  (i_deny_write_cnt i) (i_length i) (i_length_shown i) (i_is_allocated i) v (i_ptr_idx i)
  (i_indir_idx i) (i_double_indir_idx i) (i_is_dir i) (i_parent i) (i_lock i).
Definition upd_i_ptr_idx v i := mk_inode (i_sector i) (i_open_cnt i) (i_removed i)
  (i_deny_write_cnt i) (i_length i) (i_length_shown i) (i_is_allocated i) (i_ptrs i) v
  (i_indir_idx i) (i_double_indir_idx i) (i_is_dir i) (i_parent i) (i_lock i).
Definition upd_i_indir_idx v i := mk_inode (i_sector i) (i_open_cnt i) (i_removed i)
  (i_deny_write_cnt i) (i_length i) (i_length_shown i) (i_is_allocated i) (i_ptrs i)
  (i_ptr_idx i) v (i_double_indir_idx i) (i_is_dir i) (i_parent i) (i_lock i).
Definition upd_i_double_indir_idx v i := mk_inode (i_sector i) (i_open_cnt i) (i_removed i)
  (i_deny_write_cnt i) (i_length i) (i_length_shown i) (i_is_allocated i) (i_ptrs i)
  (i_ptr_idx i) (i_indir_idx i) v (i_is_dir i) (i_parent i) (i_lock i).
Definition upd_i_is_dir v i := mk_inode (i_sector i) (i_open_cnt i) (i_removed i)
  (i_deny_write_cnt i) (i_length i) (i_length_shown i) (i_is_allocated i) (i_ptrs i)
  (i_ptr_idx i) (i_indir_idx i) (i_double_indir_idx i) v (i_parent i) (i_lock i).
Definition upd_i_parent v i := mk_inode (i_sector i) (i_open_cnt i) (i_removed i)
  (i_deny_write_cnt i) (i_length i) (i_length_shown i) (i_is_allocated i) (i_ptrs i)
  (i_ptr_idx i) (i_indir_idx i) (i_double_indir_idx i) (i_is_dir i) v (i_lock i).
Definition upd_i_lock v i := mk_inode (i_sector i) (i_open_cnt i) (i_removed i)
  (i_deny_write_cnt i) (i_length i) (i_length_shown i) (i_is_allocated i) (i_ptrs i)
  (i_ptr_idx i) (i_indir_idx i) (i_double_indir_idx i) (i_is_dir i) (i_parent i) v.

(** [struct file]. *)
Record file := mk_file {
  f_inode : Z;
  f_pos : Z;
  f_deny_write : bool }.

(** [struct dir]. *)
Record dir := mk_dir {
  dir_inode : Z;
  dir_pos : Z }.

(** [current_dir] is the running thread's.  [malloc_outcomes] is the outcome of each call of [malloc] and [calloc] to
    come: [false] where it returns a null pointer.  Calls beyond the end of
    the list succeed. *)
Record fs := mk_fs {
  fs_cache : Cache.cache;
  free_map : Bitmap.bitmap;
  free_map_file : Z;
  inodes : gmap Z inode;
  files : gmap Z file;
  dirs : gmap Z dir;
  current_dir : Z;
  open_inodes : list Z;
  next_address : Z;
  malloc_outcomes : list bool }.

Definition set_cache v s := mk_fs v (free_map s) (free_map_file s) (inodes s) (files s)
  (dirs s) (current_dir s) (open_inodes s) (next_address s) (malloc_outcomes s).
Definition set_free_map v s := mk_fs (fs_cache s) v (free_map_file s) (inodes s) (files s)
  (dirs s) (current_dir s) (open_inodes s) (next_address s) (malloc_outcomes s).
Definition set_free_map_file v s := mk_fs (fs_cache s) (free_map s) v (inodes s) (files s)
  (dirs s) (current_dir s) (open_inodes s) (next_address s) (malloc_outcomes s).
Definition set_inodes v s := mk_fs (fs_cache s) (free_map s) (free_map_file s) v (files s)
  (dirs s) (current_dir s) (open_inodes s) (next_address s) (malloc_outcomes s).
Definition set_files v s := mk_fs (fs_cache s) (free_map s) (free_map_file s) (inodes s) v
  (dirs s) (current_dir s) (open_inodes s) (next_address s) (malloc_outcomes s).
Definition set_dirs v s := mk_fs (fs_cache s) (free_map s) (free_map_file s) (inodes s)
  (files s) v (current_dir s) (open_inodes s) (next_address s) (malloc_outcomes s).
Definition set_current_dir v s := mk_fs (fs_cache s) (free_map s) (free_map_file s)
  (inodes s) (files s) (dirs s) v (open_inodes s) (next_address s) (malloc_outcomes s).
Definition set_open_inodes v s := mk_fs (fs_cache s) (free_map s) (free_map_file s)
  (inodes s) (files s) (dirs s) (current_dir s) v (next_address s) (malloc_outcomes s).
Definition set_memory a o s := mk_fs (fs_cache s) (free_map s) (free_map_file s) (inodes s)
  (files s) (dirs s) (current_dir s) (open_inodes s) a o.

(** * Access to the parts of the state *)
Definition on_cache {A} (m : M Cache.cache A) : M fs A := zoom fs_cache set_cache m.
Definition on_disk {A} (m : M disk A) : M fs A := on_cache (Cache.Ops.on_disk m).
Definition on_free_map {A} (m : M Bitmap.bitmap A) : M fs A := zoom free_map set_free_map m.

(** [*ip], and an assignment to a member of it. *)
Definition inode_at (ip : Z) : M fs inode := s ← get; deref (inodes s !! ip).
Definition inode_set (ip : Z) (f : inode → inode) : M fs unit :=
  i ← inode_at ip; modify (λ s, set_inodes (<[ip := f i]> (inodes s)) s).
Definition file_at (fp : Z) : M fs file := s ← get; deref (files s !! fp).
Definition file_set (fp : Z) (f : file → file) : M fs unit :=
  x ← file_at fp; modify (λ s, set_files (<[fp := f x]> (files s)) s).

Definition dir_at (dp : Z) : M fs dir := s ← get; deref (dirs s !! dp).
Definition dir_set (dp : Z) (f : dir → dir) : M fs unit :=
  x ← dir_at dp; modify (λ s, set_dirs (<[dp := f x]> (dirs s)) s).

(** [malloc]: a fresh address, or the null pointer. *)
Definition malloc : M fs Z :=
  s ← get;
  match malloc_outcomes s with
  | false :: o => put (set_memory (next_address s) o s);; mret NULL
  | o => put (set_memory (next_address s + 1) (tail o) s);; mret (next_address s)
  end.

(** [a[i]] for an array of words, undefined outside of it. *)
Definition index (a : list Z) (i : Z) : option Z :=
  if i <? 0 then None else a !! Z.to_nat i.

(** [free] of each kind of block; freeing the null pointer does nothing. *)
Definition free_inode (ip : Z) : M fs unit :=
  modify (λ s, set_inodes (delete ip (inodes s)) s).
Definition free_file (fp : Z) : M fs unit :=
  modify (λ s, set_files (delete fp (files s)) s).
Definition free_dir (dp : Z) : M fs unit :=
  modify (λ s, set_dirs (delete dp (dirs s)) s).
