(* ===== verification/Inode.v ===== *)
(** Inodes, the free map and open files ([filesys/inode.c], [filesys/free-map.c],
    [filesys/file.c], and the file part of [lib/kernel/bitmap.c]): definitions.

    The modules call each other in a circle: writing an inode may grow it,
    growing allocates sectors from the free map, and the free map is itself
    written to a file after every change.  [inode_grow] and what calls it take
    the allocator [alloc] they use as a parameter, and [free_map_allocate]
    closes the circle with a bound on its depth.  The free map's file never
    grows, so the depth is never more than one. *)
From Stdlib Require Import ZArith Lia.
From stdpp Require Import base tactics option numbers list gmap.
From S2P Require Import Prelude Bytes Disk FsState.
From S2P Require Cache Bitmap.

Open Scope Z_scope.

(** [int] arithmetic that leaves the range wraps around, as the i386 does. *)
Definition bytes_to_sectors (size : Z) : Z :=
  u32 (Z.quot (s32 (size + DISK_SECTOR_SIZE - 1)) DISK_SECTOR_SIZE).

(** A block of 128 sector numbers, as [disk_read] and [disk_write] see it. *)
Definition block_words (b : bytes) : list Z := bytes_to_words 128 b.

Section ops.
(** [uninit s n]: what [n] words of storage hold before they are assigned. *)
Context (uninit : fs → nat → list Z).

Definition inode_lock_acquire (ip : Z) : M fs unit :=
  i ← inode_at ip; ASSERT (negb (i_lock i));; inode_set ip (upd_i_lock true).

Definition inode_lock_release (ip : Z) : M fs unit :=
  i ← inode_at ip; ASSERT (i_lock i);; inode_set ip (upd_i_lock false).

Definition inode_length (ip : Z) : M fs Z := i ← inode_at ip; mret (i_length i).

Definition byte_to_sector (ip pos : Z) : M fs Z :=
  ASSERT (negb (ip =? NULL));;
  i ← inode_at ip;
  if pos <? i_length i then
    if pos <? DISK_SECTOR_SIZE * NUM_PTRS_DIR then
      deref (index (i_ptrs i) (Z.quot pos DISK_SECTOR_SIZE))
    else
      let new_pos := pos - DISK_SECTOR_SIZE * NUM_PTRS_DIR in
      if new_pos <? DISK_SECTOR_SIZE * (NUM_PTRS_INDIR * PTR_PER_BLOCK) then
        let idx_ptr := NUM_PTRS_DIR + new_pos / DISK_SECTOR_SIZE / PTR_PER_BLOCK in
        let new_pos := new_pos mod (DISK_SECTOR_SIZE * PTR_PER_BLOCK) in
        k ← deref (index (i_ptrs i) idx_ptr);
        b ← on_disk (disk_read k);
        deref (index (block_words b) (new_pos / DISK_SECTOR_SIZE))
      else
        let new_pos := new_pos - DISK_SECTOR_SIZE * NUM_PTRS_INDIR * PTR_PER_BLOCK in
        let idx_ptr := NUM_PTRS_DIR + NUM_PTRS_INDIR +
          new_pos / (DISK_SECTOR_SIZE * PTR_PER_BLOCK * PTR_PER_BLOCK) in
        ASSERT (idx_ptr =? 14);;
        k ← deref (index (i_ptrs i) idx_ptr);
        b ← on_disk (disk_read k);
        let new_pos := new_pos - (idx_ptr - NUM_PTRS_DIR - NUM_PTRS_INDIR) *
          DISK_SECTOR_SIZE * PTR_PER_BLOCK * PTR_PER_BLOCK in
        let double_idx_ptr := new_pos / DISK_SECTOR_SIZE / PTR_PER_BLOCK in
        let new_pos := new_pos mod (DISK_SECTOR_SIZE * PTR_PER_BLOCK) in
        k ← deref (index (block_words b) double_idx_ptr);
        b ← on_disk (disk_read k);
        deref (index (block_words b) (new_pos / DISK_SECTOR_SIZE))
  else mret (u32 (-1)).

Definition inode_init : M fs unit := modify (set_open_inodes []).

(** * Growth

    [alloc] is [free_map_allocate (1, ...)]: the sector it stores, or [None]
    when it returns [false]. *)
Section grow.
Context (alloc : M fs (option Z)).

(** The innermost loops of the two indirect levels: from index [i] on, put
    freshly allocated and cleared sectors into the block [arr] while there are
    [sectors] to add.  [None] is the [return] on a failed allocation. *)
Definition fill_block (arr : list Z) (i sectors : Z) : M fs (option (list Z * Z * Z)) :=
  loop 130 (λ '(arr, i, sectors),
    if i <? PTR_PER_BLOCK then
      if negb (0 <? sectors) then mret (inr (Some (arr, i, sectors))) else
      r ← alloc;
      match r with
      | None => mret (inr None)
      | Some k =>
          on_disk (disk_write k zero_sector);;
          mret (inl (<[Z.to_nat i := k]> arr, i + 1, sectors - 1))
      end
    else mret (inr (Some (arr, i, sectors)))) (arr, i, sectors).

(** [inode->ptrs[idx]] receives a new sector; [false] when there is none. *)
Definition alloc_ptr (ip idx : Z) : M fs bool :=
  r ← alloc;
  match r with
  | None => mret false
  | Some k => inode_set ip (λ i, upd_i_ptrs (<[Z.to_nat idx := k]> (i_ptrs i)) i);; mret true
  end.

(** One turn of the loop of [inode_grow] on its variables [idx], [sectors] and
    the two buffers. *)
Definition grow_direct (ip idx sectors : Z) : M fs (option (Z * Z)) :=
  ok ← alloc_ptr ip idx;
  if negb ok then mret None else
  i ← inode_at ip;
  k ← deref (index (i_ptrs i) idx);
  on_disk (disk_write k zero_sector);;
  mret (Some (sectors - 1, idx + 1)).

Definition grow_indirect (ip idx sectors : Z) (inner_ptr : list Z)
    : M fs (option (Z * Z * list Z)) :=
  i ← inode_at ip;
  r ← (if i_indir_idx i =? 0 then
         ok ← alloc_ptr ip idx;
         mret (if ok : bool then Some inner_ptr else None)
       else
         k ← deref (index (i_ptrs i) idx);
         b ← on_disk (disk_read k);
         mret (Some (block_words b)));
  match r with
  | None => mret None
  | Some inner_ptr =>
      i ← inode_at ip;
      r ← fill_block inner_ptr (i_indir_idx i) sectors;
      match r with
      | None => mret None
      | Some (inner_ptr, indir_idx, sectors) =>
          inode_set ip (upd_i_indir_idx indir_idx);;
          i ← inode_at ip;
          k ← deref (index (i_ptrs i) idx);
          on_disk (disk_write k (words_to_bytes inner_ptr));;
          if i_indir_idx i =? PTR_PER_BLOCK then
            inode_set ip (upd_i_indir_idx 0);;
            mret (Some (sectors, idx + 1, inner_ptr))
          else mret (Some (sectors, idx, inner_ptr))
      end
  end.

(** The second level: [indir_idx] counts the blocks of the level, but the
    sector of the block is taken from [inner_ptr[inode->indir_idx]]. *)
Definition grow_double_loop (ip : Z) (inner_ptr double_inner_ptr : list Z)
    (indir_idx sectors : Z) : M fs (option (list Z * list Z * Z * Z)) :=
  loop 130 (λ '(inner_ptr, double_inner_ptr, indir_idx, sectors),
    if indir_idx <? PTR_PER_BLOCK then
      if negb (0 <? sectors)
      then mret (inr (Some (inner_ptr, double_inner_ptr, indir_idx, sectors))) else
      i ← inode_at ip;
      r ← (if i_double_indir_idx i =? 0 then
             r ← alloc;
             match r with
             | None => mret None
             | Some k =>
                 deref (index inner_ptr (i_indir_idx i));;
                 mret (Some (<[Z.to_nat (i_indir_idx i) := k]> inner_ptr, double_inner_ptr))
             end
           else
             k ← deref (index inner_ptr (i_indir_idx i));
             b ← on_disk (disk_read k);
             mret (Some (inner_ptr, block_words b)));
      match r with
      | None => mret (inr None)
      | Some (inner_ptr, double_inner_ptr) =>
          r ← fill_block double_inner_ptr (i_double_indir_idx i) sectors;
          match r with
          | None => mret (inr None)
          | Some (double_inner_ptr, double_indir_idx, sectors) =>
              inode_set ip (upd_i_double_indir_idx double_indir_idx);;
              k ← deref (index inner_ptr indir_idx);
              on_disk (disk_write k (words_to_bytes double_inner_ptr));;
              i ← inode_at ip;
              if i_double_indir_idx i =? PTR_PER_BLOCK then
                inode_set ip (upd_i_double_indir_idx 0);;
                mret (inl (inner_ptr, double_inner_ptr, indir_idx + 1, sectors))
              else mret (inl (inner_ptr, double_inner_ptr, indir_idx, sectors))
          end
      end
    else mret (inr (Some (inner_ptr, double_inner_ptr, indir_idx, sectors))))
    (inner_ptr, double_inner_ptr, indir_idx, sectors).

Definition grow_double (ip idx sectors : Z) (inner_ptr double_inner_ptr : list Z)
    : M fs (option (Z * Z * list Z * list Z)) :=
  i ← inode_at ip;
  r ← (if (i_indir_idx i =? 0) && (i_double_indir_idx i =? 0) then
         ok ← alloc_ptr ip idx;
         mret (if ok : bool then Some inner_ptr else None)
       else
         k ← deref (index (i_ptrs i) idx);
         b ← on_disk (disk_read k);
         mret (Some (block_words b)));
  match r with
  | None => mret None
  | Some inner_ptr =>
      i ← inode_at ip;
      r ← grow_double_loop ip inner_ptr double_inner_ptr (i_indir_idx i) sectors;
      match r with
      | None => mret None
      | Some (inner_ptr, double_inner_ptr, indir_idx, sectors) =>
          inode_set ip (upd_i_indir_idx indir_idx);;
          i ← inode_at ip;
          k ← deref (index (i_ptrs i) idx);
          on_disk (disk_write k (words_to_bytes inner_ptr));;
          if i_indir_idx i =? PTR_PER_BLOCK then
            inode_set ip (upd_i_indir_idx 0);;
            mret (Some (sectors, idx + 1, inner_ptr, double_inner_ptr))
          else mret (Some (sectors, idx, inner_ptr, double_inner_ptr))
      end
  end.

(** The [while] of [inode_grow]; [None] when an allocation failed. *)
Definition grow_loop (ip idx sectors : Z) (inner_ptr double_inner_ptr : list Z)
    : M fs (option Z) :=
  loop 20 (λ '(idx, sectors, inner_ptr, double_inner_ptr),
    if idx <? NUM_PTRS then
      if negb (0 <? sectors) then mret (inr (Some idx)) else
      if idx <? NUM_PTRS_DIR then
        r ← grow_direct ip idx sectors;
        mret (match r with
              | None => inr None
              | Some (sectors, idx) => inl (idx, sectors, inner_ptr, double_inner_ptr)
              end)
      else if idx <? NUM_PTRS_DIR + NUM_PTRS_INDIR then
        r ← grow_indirect ip idx sectors inner_ptr;
        mret (match r with
              | None => inr None
              | Some (sectors, idx, inner_ptr) =>
                  inl (idx, sectors, inner_ptr, double_inner_ptr)
              end)
      else
        r ← grow_double ip idx sectors inner_ptr double_inner_ptr;
        mret (match r with
              | None => inr None
              | Some (sectors, idx, inner_ptr, double_inner_ptr) =>
                  inl (idx, sectors, inner_ptr, double_inner_ptr)
              end)
    else mret (inr (Some idx))) (idx, sectors, inner_ptr, double_inner_ptr).

(** [return -1] in a function that returns [bool] is [return true]. *)
Definition inode_grow (ip length : Z) : M fs bool :=
  junk ← gets (λ s, uninit s 256);
  i ← inode_at ip;
  let sectors := u32 (bytes_to_sectors length - bytes_to_sectors (i_length i)) in
  r ← grow_loop ip (i_ptr_idx i) sectors (take 128 junk) (drop 128 junk);
  match r with
  | None => mret true
  | Some idx =>
      inode_set ip (upd_i_ptr_idx idx);;
      inode_set ip (upd_i_is_allocated 1);;
      mret true
  end.

(** * Reading and writing *)
Definition inode_is_dir (ip : Z) : M fs bool :=
  i ← inode_at ip;
  if i_is_dir i =? 1 then mret true
  else if i_is_dir i =? 0 then mret false
  else panic.

(** [inode_read_at] returns the number of bytes and the caller's buffer.  Every
    turn of the loop but the last copies at least one byte. *)
Definition inode_read_at (ip : Z) (buffer : bytes) (size offset : Z) : M fs (Z * bytes) :=
  i ← inode_at ip;
  if i_length_shown i <=? offset then mret (0, buffer) else
  loop (Z.to_nat size + 1) (λ '(buffer, size, offset, bytes_read),
    if 0 <? size then
      sector_idx ← byte_to_sector ip offset;
      let sector_ofs := Z.rem offset DISK_SECTOR_SIZE in
      i ← inode_at ip;
      let inode_left := i_length_shown i - offset in
      let sector_left := DISK_SECTOR_SIZE - sector_ofs in
      let min_left := if inode_left <? sector_left then inode_left else sector_left in
      let chunk_size := if size <? min_left then size else min_left in
      if chunk_size <=? 0 then mret (inr (bytes_read, buffer)) else
      buffer ← on_cache (Cache.Ops.cache_read sector_idx buffer bytes_read sector_ofs chunk_size);
      mret (inl (buffer, size - chunk_size, offset + chunk_size, bytes_read + chunk_size))
    else mret (inr (bytes_read, buffer))) (buffer, size, offset, 0).

(** The copying loop of [inode_write_at]. *)
Definition write_loop (ip : Z) (buffer : bytes) (size offset : Z) : M fs Z :=
  loop (Z.to_nat size + 1) (λ '(size, offset, bytes_written),
    if 0 <? size then
      sector_idx ← byte_to_sector ip offset;
      let sector_ofs := Z.rem offset DISK_SECTOR_SIZE in
      len ← inode_length ip;
      let inode_left := len - offset in
      let sector_left := DISK_SECTOR_SIZE - sector_ofs in
      let min_left := if inode_left <? sector_left then inode_left else sector_left in
      let chunk_size := if size <? min_left then size else min_left in
      if chunk_size <=? 0 then mret (inr bytes_written) else
      on_cache (Cache.Ops.cache_write sector_idx buffer bytes_written sector_ofs chunk_size);;
      i ← inode_at ip;
      inode_set ip (upd_i_length_shown
        (if i_length i <? i_length_shown i + chunk_size then i_length i
         else i_length_shown i + chunk_size));;
      mret (inl (size - chunk_size, offset + chunk_size, bytes_written + chunk_size))
    else mret (inr bytes_written)) (size, offset, 0).

(** The number of bytes written.  [inode_grow (...) == -1] compares a [bool]
    with [-1]. *)
Definition inode_write_at (ip : Z) (buffer : bytes) (size offset : Z) : M fs Z :=
  i ← inode_at ip;
  if negb (i_deny_write_cnt i =? 0) then mret 0 else
  d ← inode_is_dir ip;
  (if negb d then inode_lock_acquire ip else mret tt);;
  len ← inode_length ip;
  grown ← (if len <? s32 (size + offset) then
             r ← inode_grow ip (s32 (size + offset));
             if (if r : bool then 1 else 0) =? -1 then mret false
             else inode_set ip (upd_i_length (s32 (size + offset)));; mret true
           else mret true);
  if negb grown then mret 0 else
  d ← inode_is_dir ip;
  (if negb d then inode_lock_release ip else mret tt);;
  write_loop ip buffer size offset.

Definition file_write_at (fp : Z) (buffer : bytes) (size file_ofs : Z) : M fs Z :=
  f ← file_at fp; inode_write_at (f_inode f) buffer size file_ofs.

Definition file_read_at (fp : Z) (buffer : bytes) (size file_ofs : Z) : M fs (Z * bytes) :=
  f ← file_at fp; inode_read_at (f_inode f) buffer size file_ofs.

(** [bitmap_write (free_map, file)]: the array of words is the buffer. *)
Definition bitmap_write (fp : Z) : M fs bool :=
  b ← gets free_map;
  let size := Bitmap.byte_cnt (Bitmap.bit_cnt b) in
  r ← file_write_at fp (words_to_bytes (Bitmap.bits b)) size 0;
  mret (r =? size).

(** [bitmap_read (free_map, file)]; the bits after the last are cleared. *)
Definition bitmap_read (fp : Z) : M fs bool :=
  b ← gets free_map;
  let n := Bitmap.bit_cnt b in
  if 0 <? n then
    let size := Bitmap.byte_cnt n in
    '(r, buf) ← file_read_at fp (words_to_bytes (Bitmap.bits b)) size 0;
    let ws := bytes_to_words (length (Bitmap.bits b)) buf in
    let last := Z.to_nat (Bitmap.elem_cnt n - 1) in
    w ← deref (ws !! last);
    modify (set_free_map (Bitmap.mk_bitmap n (<[last := Z.land w (Bitmap.last_mask b)]> ws)));;
    mret (r =? size)
  else mret true.
End grow.

(** * The free map *)

(** [free_map_allocate (cnt, &sector)]. *)
Fixpoint free_map_allocate (depth : nat) (cnt : Z) : M fs (option Z) :=
  match depth with
  | O => no_fuel
  | S depth' =>
      sector ← on_free_map (Bitmap.Ops.bitmap_scan_and_flip 0 cnt false);
      sector ← (if negb (sector =? Bitmap.BITMAP_ERROR) then
                  fp ← gets free_map_file;
                  if negb (fp =? NULL) then
                    ok ← bitmap_write (free_map_allocate depth' 1) fp;
                    if negb ok then
                      on_free_map (Bitmap.Ops.bitmap_set_multiple sector cnt false);;
                      mret Bitmap.BITMAP_ERROR
                    else mret sector
                  else mret sector
                else mret sector);
      mret (if negb (sector =? Bitmap.BITMAP_ERROR) then Some sector else None)
  end.

(** The allocator the rest of the file system calls: one level for the caller
    and one for the free map's own file. *)
Definition allocator : M fs (option Z) := free_map_allocate 2 1.

Definition free_map_release (sector cnt : Z) : M fs unit :=
  all ← on_free_map (Bitmap.Ops.bitmap_all sector cnt);
  ASSERT all;;
  on_free_map (Bitmap.Ops.bitmap_set_multiple sector cnt false);;
  fp ← gets free_map_file;
  bitmap_write allocator fp;;
  mret tt.

(** * Creating, opening and closing *)
Definition calloc_inode_disk : inode_disk :=
  mk_inode_disk 0 0 0 (replicate 15 0) 0 0 0 0 0 (replicate 105 0).

(** A [struct inode] as [malloc] returns it. *)
Definition junk_inode (junk : list Z) : inode :=
  mk_inode (junk !!! 0%nat) (junk !!! 1%nat) false (junk !!! 2%nat) (junk !!! 3%nat)
    (junk !!! 4%nat) (junk !!! 5%nat) (take 15 (drop 11 junk)) (junk !!! 6%nat)
    (junk !!! 7%nat) (junk !!! 8%nat) (junk !!! 9%nat) (junk !!! 10%nat) false.

Definition inode_create (sector length : Z) (is_dir : bool) : M fs bool :=
  ASSERT (0 <=? length);;
  dp ← malloc;
  if dp =? NULL then mret false else
  let length := if FILE_SIZE_MAX <? length then FILE_SIZE_MAX else length in
  ip ← malloc;
  if ip =? NULL then undef else
  junk ← gets (λ s, uninit s 26);
  modify (λ s, set_inodes (<[ip := junk_inode junk]> (inodes s)) s);;
  inode_set ip (upd_i_length 0);;
  inode_set ip (upd_i_is_allocated 0);;
  inode_set ip (upd_i_ptr_idx 0);;
  inode_set ip (upd_i_indir_idx 0);;
  inode_set ip (upd_i_double_indir_idx 0);;
  inode_set ip (upd_i_is_dir (if is_dir then 1 else 0));;
  r ← inode_grow allocator ip length;
  if (if r : bool then 1 else 0) =? -1 then mret false else
  i ← inode_at ip;
  let di := mk_inode_disk length INODE_MAGIC 1 (i_ptrs i) (i_ptr_idx i) (i_indir_idx i)
    (i_double_indir_idx i) (if is_dir then 1 else 0) (d_parent calloc_inode_disk)
    (d_unused calloc_inode_disk) in
  free_inode ip;;
  on_disk (disk_write sector (words_to_bytes (inode_disk_words di)));;
  mret true.

Definition inode_reopen (ip : Z) : M fs Z :=
  (if negb (ip =? NULL) then inode_set ip (λ i, upd_i_open_cnt (i_open_cnt i + 1) i)
   else mret tt);;
  mret ip.

(** The search of [inode_open] through the open inodes. *)
Fixpoint find_open (sector : Z) (l : list Z) : M fs (option Z) :=
  match l with
  | [] => mret None
  | ip :: l =>
      i ← inode_at ip;
      if i_sector i =? sector then mret (Some ip) else find_open sector l
  end.

(** A failed [malloc] is dereferenced: [lock_init] precedes the test, and the
    block for the disk inode is not tested at all. *)
Definition inode_open (sector : Z) : M fs Z :=
  l ← gets open_inodes;
  r ← find_open sector l;
  match r with
  | Some ip => inode_reopen ip
  | None =>
      ip ← malloc;
      if ip =? NULL then undef else
      modify (λ s, set_open_inodes (ip :: open_inodes s) s);;
      dp ← malloc;
      if dp =? NULL then undef else
      b ← on_disk (disk_read sector);
      let di := inode_disk_of_words (bytes_to_words 128 b) in
      modify (λ s, set_inodes (<[ip :=
        mk_inode sector 1 false 0 (d_length di) (d_length di) (d_is_allocated di) (d_ptrs di)
          (d_ptr_idx di) (d_indir_idx di) (d_double_indir_idx di) (d_is_dir di) (d_parent di)
          false]> (inodes s)) s);;
      mret ip
  end.

Definition inode_get_inumber (ip : Z) : M fs Z := i ← inode_at ip; mret (i_sector i).

(** [for (; i < PTR_PER_BLOCK; i++)] releasing the sectors of a block. *)
Definition release_block (arr : list Z) (sectors : Z) : M fs Z :=
  loop 130 (λ '(i, sectors),
    if i <? PTR_PER_BLOCK then
      k ← deref (index arr i);
      free_map_release k 1;;
      let sectors := u32 (sectors - 1) in
      if sectors =? 0 then mret (inr sectors) else mret (inl (i + 1, sectors))
    else mret (inr sectors)) (0, sectors).

Definition release_double (inner_ptr : list Z) (sectors : Z) : M fs Z :=
  loop 130 (λ '(i, sectors),
    if i <? PTR_PER_BLOCK then
      k ← deref (index inner_ptr i);
      b ← on_disk (disk_read k);
      sectors ← release_block (block_words b) sectors;
      free_map_release k 1;;
      if sectors =? 0 then mret (inr sectors) else mret (inl (i + 1, sectors))
    else mret (inr sectors)) (0, sectors).

(** The deallocation of a removed inode's blocks in [inode_close]. *)
Definition release_blocks (ip sectors : Z) : M fs unit :=
  loop 20 (λ '(idx, sectors),
    if idx <? NUM_PTRS then
      i ← inode_at ip;
      if sectors =? 0 then mret (inr tt) else
      if i_ptr_idx i <? idx then mret (inr tt) else
      k ← deref (index (i_ptrs i) idx);
      if idx <? NUM_PTRS_DIR then
        free_map_release k 1;;
        mret (inl (idx + 1, u32 (sectors - 1)))
      else if idx <? NUM_PTRS_DIR + NUM_PTRS_INDIR then
        b ← on_disk (disk_read k);
        sectors ← release_block (block_words b) sectors;
        free_map_release k 1;;
        mret (inl (idx + 1, sectors))
      else
        b ← on_disk (disk_read k);
        sectors ← release_double (block_words b) sectors;
        free_map_release k 1;;
        mret (inl (idx + 1, sectors))
    else mret (inr tt)) (0, sectors).

Definition inode_close (ip : Z) : M fs unit :=
  if ip =? NULL then mret tt else
  inode_set ip (λ i, upd_i_open_cnt (i_open_cnt i - 1) i);;
  i ← inode_at ip;
  if negb (i_open_cnt i =? 0) then mret tt else
  modify (λ s, set_open_inodes (filter (λ p, p ≠ ip) (open_inodes s)) s);;
  (if i_removed i then
     free_map_release (i_sector i) 1;;
     len ← inode_length ip;
     let sectors := bytes_to_sectors len in
     if negb (sectors =? 0) then release_blocks ip sectors else mret tt
   else
     dp ← malloc;
     if dp =? NULL then undef else
     junk ← gets (λ s, uninit s 105);
     let di := mk_inode_disk (i_length i) INODE_MAGIC (i_is_allocated i) (i_ptrs i)
       (i_ptr_idx i) (i_indir_idx i) (i_double_indir_idx i) (i_is_dir i) (i_parent i) junk in
     on_disk (disk_write (i_sector i) (words_to_bytes (inode_disk_words di))));;
  free_inode ip.

Definition inode_remove (ip : Z) : M fs unit :=
  ASSERT (negb (ip =? NULL));; inode_set ip (upd_i_removed true).

Definition inode_is_opened (ip : Z) : M fs bool := i ← inode_at ip; mret (1 <? i_open_cnt i).

Definition inode_deny_write (ip : Z) : M fs unit :=
  inode_set ip (λ i, upd_i_deny_write_cnt (i_deny_write_cnt i + 1) i);;
  i ← inode_at ip;
  ASSERT (i_deny_write_cnt i <=? i_open_cnt i).

Definition inode_allow_write (ip : Z) : M fs unit :=
  i ← inode_at ip;
  ASSERT (0 <? i_deny_write_cnt i);;
  ASSERT (i_deny_write_cnt i <=? i_open_cnt i);;
  inode_set ip (λ i, upd_i_deny_write_cnt (i_deny_write_cnt i - 1) i).

Definition inode_parent (ip : Z) : M fs Z := i ← inode_at ip; mret (i_parent i).

Definition inode_set_parent (ip sector : Z) : M fs unit := inode_set ip (upd_i_parent sector).

Definition inode_set_is_dir (ip : Z) (is_dir : bool) : M fs unit :=
  inode_set ip (upd_i_is_dir (if is_dir then 1 else 0)).

(** * Open files *)
Definition file_open (ip : Z) : M fs Z :=
  fp ← malloc;
  if negb (ip =? NULL) && negb (fp =? NULL) then
    modify (λ s, set_files (<[fp := mk_file ip 0 false]> (files s)) s);;
    mret fp
  else
    inode_close ip;;
    free_file fp;;
    mret NULL.

Definition file_reopen (fp : Z) : M fs Z :=
  f ← file_at fp; ip ← inode_reopen (f_inode f); file_open ip.

Definition file_allow_write (fp : Z) : M fs unit :=
  ASSERT (negb (fp =? NULL));;
  f ← file_at fp;
  if f_deny_write f then
    file_set fp (λ f, mk_file (f_inode f) (f_pos f) false);;
    inode_allow_write (f_inode f)
  else mret tt.

Definition file_deny_write (fp : Z) : M fs unit :=
  ASSERT (negb (fp =? NULL));;
  f ← file_at fp;
  if negb (f_deny_write f) then
    file_set fp (λ f, mk_file (f_inode f) (f_pos f) true);;
    inode_deny_write (f_inode f)
  else mret tt.

Definition file_close (fp : Z) : M fs unit :=
  if fp =? NULL then mret tt else
  file_allow_write fp;;
  f ← file_at fp;
  inode_close (f_inode f);;
  free_file fp.

Definition file_get_inode (fp : Z) : M fs Z := f ← file_at fp; mret (f_inode f).

Definition file_read (fp : Z) (buffer : bytes) (size : Z) : M fs (Z * bytes) :=
  f ← file_at fp;
  '(bytes_read, buffer) ← inode_read_at (f_inode f) buffer size (f_pos f);
  file_set fp (λ f, mk_file (f_inode f) (s32 (f_pos f + bytes_read)) (f_deny_write f));;
  mret (bytes_read, buffer).

Definition file_write (fp : Z) (buffer : bytes) (size : Z) : M fs Z :=
  f ← file_at fp;
  d ← inode_is_dir (f_inode f);
  if d : bool then mret (-1) else
  bytes_written ← inode_write_at allocator (f_inode f) buffer size (f_pos f);
  file_set fp (λ f, mk_file (f_inode f) (s32 (f_pos f + bytes_written)) (f_deny_write f));;
  mret bytes_written.

Definition file_length (fp : Z) : M fs Z :=
  ASSERT (negb (fp =? NULL));; f ← file_at fp; inode_length (f_inode f).

Definition file_seek (fp new_pos : Z) : M fs unit :=
  ASSERT (negb (fp =? NULL));;
  ASSERT (0 <=? new_pos);;
  file_set fp (λ f, mk_file (f_inode f) new_pos (f_deny_write f)).

Definition file_tell (fp : Z) : M fs Z :=
  ASSERT (negb (fp =? NULL));; f ← file_at fp; mret (f_pos f).

(** * Setting up the free map *)

(** [block] is what the allocated storage of the bitmap held. *)
Definition free_map_init (block : list Z) : M fs unit :=
  n ← on_disk disk_size;
  s ← get;
  match Bitmap.Ops.bitmap_create n block with
  | Ok b => put (set_free_map b s)
  | Panic => panic
  | Undef => undef
  | NoFuel => no_fuel
  end;;
  on_free_map (Bitmap.Ops.bitmap_mark FREE_MAP_SECTOR);;
  on_free_map (Bitmap.Ops.bitmap_mark ROOT_DIR_SECTOR).

Definition free_map_open : M fs unit :=
  ip ← inode_open FREE_MAP_SECTOR;
  fp ← file_open ip;
  modify (set_free_map_file fp);;
  ASSERT (negb (fp =? NULL));;
  ok ← bitmap_read fp;
  ASSERT ok.

Definition free_map_close : M fs unit := fp ← gets free_map_file; file_close fp.

Definition free_map_create : M fs unit :=
  n ← on_free_map Bitmap.Ops.bitmap_file_size;
  ok ← inode_create FREE_MAP_SECTOR n false;
  ASSERT ok;;
  ip ← inode_open FREE_MAP_SECTOR;
  fp ← file_open ip;
  modify (set_free_map_file fp);;
  ASSERT (negb (fp =? NULL));;
  ok ← bitmap_write allocator fp;
  ASSERT ok.
End ops.
