(* ===== verification/InodeIO.v ===== *)
(** Reading and writing within a file ([filesys/inode.c]: [byte_to_sector],
    [inode_read_at], [inode_write_at]): what the index structure of an inode
    means, and that the two routines move exactly the bytes they should. *)
From Stdlib Require Import ZArith Lia.
From stdpp Require Import base tactics option numbers list gmap.
From S2P Require Import Prelude Bytes Disk FsState Inode.
From S2P Require Cache Bitmap.
From S2P Require Import Cache.
Import Cache.Correct.

Open Scope Z_scope.

(** * The index structure

    Word [j] of the block in sector [k], the sector of block number [b] of a
    file, and the index sectors that lead to it. *)
Definition word (d : disk) (k j : Z) : Z := block_words (sector_data d k) !!! Z.to_nat j.

Definition MAX_BLOCKS : Z := 4 + 10 * 128 + 128 * 128.

(** Blocks 4 and up are found through leaves, index blocks of 128 sector
    numbers each: the first ten are pointed to by the inode, the others by the
    block of its last pointer. *)
Definition leaf (d : disk) (ptrs : list Z) (g : Z) : Z :=
  if g <? 10 then ptrs !!! Z.to_nat (4 + g) else word d (ptrs !!! 14%nat) (g - 10).

Definition block_sector (d : disk) (ptrs : list Z) (b : Z) : Z :=
  if b <? 4 then ptrs !!! Z.to_nat b
  else word d (leaf d ptrs ((b - 4) / 128)) ((b - 4) mod 128).

Definition index_sectors (d : disk) (ptrs : list Z) (b : Z) : list Z :=
  if b <? 4 then []
  else (if (b - 4) / 128 <? 10 then [] else [ptrs !!! 14%nat]) ++ [leaf d ptrs ((b - 4) / 128)].

(** ** Access to the state *)
Lemma wp_inode_at s ip i Q : inodes s !! ip = Some i → Q i s → wp (inode_at ip) Q s.
Proof. intros Hi HQ. unfold inode_at. wp_go. rewrite Hi. by wp_go. Qed.

Lemma wp_inode_set s ip i f Q :
  inodes s !! ip = Some i → Q tt (set_inodes (<[ip:=f i]> (inodes s)) s) →
  wp (inode_set ip f) Q s.
Proof. intros Hi HQ. unfold inode_set. wp_unbind. eapply wp_inode_at; [done|]. by wp_go. Qed.

Lemma wp_on_cache {A} s (m : M cache A) Q :
  wp m (λ a c, Q a (set_cache c s)) (fs_cache s) → wp (on_cache m) Q s.
Proof. intros H. unfold on_cache. by apply wp_zoom. Qed.

Lemma set_cache_self s : set_cache (fs_cache s) s = s.
Proof. by destruct s. Qed.
Lemma set_cache_set_cache c c' s : set_cache c (set_cache c' s) = set_cache c s.
Proof. done. Qed.
Lemma set_disk_self c : set_disk (filesys_disk c) c = c.
Proof. by destruct c. Qed.

Lemma wp_fs_disk_read s k Q :
  valid_sector (filesys_disk (fs_cache s)) k →
  Q (sector_data (filesys_disk (fs_cache s)) k) s → wp (on_disk (disk_read k)) Q s.
Proof.
  intros Hk HQ. unfold on_disk. apply wp_on_cache, Correct.wp_on_disk, wp_disk_read; [done|].
  by rewrite set_disk_self, set_cache_self.
Qed.

Lemma length_block_words b : length (block_words b) = 128%nat.
Proof. apply length_bytes_to_words. Qed.

Lemma index_word d k j Q (s : fs) :
  0 ≤ j < 128 → Q (word d k j) s → wp (deref (index (block_words (sector_data d k)) j)) Q s.
Proof.
  intros Hj HQ. unfold index. rewrite (proj2 (Z.ltb_ge _ _)) by lia.
  rewrite list_lookup_lookup_total_lt by (rewrite length_block_words; lia). by wp_go.
Qed.

Lemma index_ptr (l : list Z) j Q (s : fs) :
  0 ≤ j < Z.of_nat (length l) → Q (l !!! Z.to_nat j) s → wp (deref (index l j)) Q s.
Proof.
  intros Hj HQ. unfold index. rewrite (proj2 (Z.ltb_ge _ _)) by lia.
  rewrite list_lookup_lookup_total_lt by lia. by wp_go.
Qed.

(** ** [byte_to_sector] follows the index structure *)
Lemma byte_to_sector_ok s ip i pos Q :
  ip ≠ NULL → inodes s !! ip = Some i → length (i_ptrs i) = 15%nat →
  0 ≤ pos < i_length i → pos / 512 < MAX_BLOCKS →
  Forall (valid_sector (filesys_disk (fs_cache s)))
    (index_sectors (filesys_disk (fs_cache s)) (i_ptrs i) (pos / 512)) →
  Q (block_sector (filesys_disk (fs_cache s)) (i_ptrs i) (pos / 512)) s →
  wp (byte_to_sector ip pos) Q s.
Proof.
  unfold MAX_BLOCKS. intros Hip Hi Hlen Hpos Hmax Hval HQ.
  set (d := filesys_disk (fs_cache s)) in *.
  assert (0 ≤ pos / 512) by (apply Z.div_pos; lia).
  pose proof (Z.div_mod pos 512 ltac:(lia)). pose proof (Z.mod_pos_bound pos 512 ltac:(lia)).
  unfold byte_to_sector. wp_assert (by apply negb_true_iff, Z.eqb_neq).
  eapply wp_inode_at; [done|]. rewrite (proj2 (Z.ltb_lt _ _)) by lia.
  unfold DISK_SECTOR_SIZE, NUM_PTRS_DIR, NUM_PTRS_INDIR, PTR_PER_BLOCK.
  unfold block_sector, index_sectors in *.
  destruct (Z.ltb_spec (pos / 512) 4) as [H4|H4].
  { rewrite (proj2 (Z.ltb_lt _ _)) by lia. rewrite Z.quot_div_nonneg by lia.
    by apply index_ptr; [rewrite Hlen; lia|]. }
  rewrite (proj2 (Z.ltb_ge _ _)) by lia.
  assert ((pos - 512 * 4) / 512 = pos / 512 - 4) as E4.
  { replace (pos - 512 * 4) with (pos + -4 * 512) by lia. rewrite Z.div_add; lia. }
  assert (∀ x, 0 ≤ x → x mod (512 * 128) / 512 = (x / 512) mod 128) as Emod.
  { intros x Hx. rewrite Z.rem_mul_r by lia. rewrite (Z.mul_comm 512).
    rewrite Z.div_add by lia. rewrite (Z.div_small (x mod 512)); [lia|].
    apply Z.mod_pos_bound. lia. }
  destruct (Z.ltb_spec (pos / 512) 1284) as [H1284|H1284].
  - assert ((pos / 512 - 4) / 128 < 10) by (apply Z.div_lt_upper_bound; lia).
    unfold leaf in HQ, Hval. rewrite (proj2 (Z.ltb_lt ((pos / 512 - 4) / 128) _)) in HQ, Hval by lia.
    rewrite (proj2 (Z.ltb_lt _ _)) by lia. rewrite Emod, E4 by lia.
    apply Forall_cons in Hval as [Hv _]. wp_unbind. apply index_ptr.
    { rewrite Hlen. split; [pose proof (Z.div_pos (pos / 512 - 4) 128); lia|lia]. }
    wp_unbind. apply wp_fs_disk_read; [done|].
    apply index_word; [|done]. apply Z.mod_pos_bound. lia.
  - assert (10 ≤ (pos / 512 - 4) / 128) by (apply Z.div_le_lower_bound; lia).
    assert ((pos / 512 - 1284) / 128 = (pos / 512 - 4) / 128 - 10 ∧
      (pos / 512 - 1284) mod 128 = (pos / 512 - 4) mod 128) as [Eg Em].
    { replace (pos / 512 - 1284) with (pos / 512 - 4 + -10 * 128) by lia.
      rewrite Z.div_add, Z.mod_add by lia. lia. }
    unfold leaf in HQ, Hval. rewrite (proj2 (Z.ltb_ge ((pos / 512 - 4) / 128) _)) in HQ, Hval by lia.
    rewrite (proj2 (Z.ltb_ge _ _)) by lia.
    replace (pos - 512 * 4 - 512 * 10 * 128) with (pos - 512 * 1284) by lia.
    assert ((pos - 512 * 1284) / 512 = pos / 512 - 1284) as E12.
    { replace (pos - 512 * 1284) with (pos + -1284 * 512) by lia. rewrite Z.div_add; lia. }
    assert ((pos - 512 * 1284) / (512 * 128 * 128) = 0) as -> by (apply Z.div_small; lia).
    change (4 + 10 + 0) with 14. change (14 - 4 - 10) with 0.
    replace (pos - 512 * 1284 - 0 * 512 * 128 * 128) with (pos - 512 * 1284) by lia.
    apply Forall_cons in Hval as [Hv1 [Hv2 _]%Forall_cons].
    wp_assert (done). apply index_ptr; [rewrite Hlen; lia|].
    wp_unbind. apply wp_fs_disk_read; [done|]. rewrite Emod, E12, Eg, Em by lia.
    wp_unbind. apply index_word.
    { rewrite <-Eg. split; [apply Z.div_pos; lia|]. apply Z.div_lt_upper_bound; lia. }
    wp_unbind. apply wp_fs_disk_read; [done|].
    apply index_word; [|done]. apply Z.mod_pos_bound. lia.
Qed.

(** * The blocks of a file

    The number of leaves of a file of [n] blocks, and its index sectors: the
    leaves and, from the eleventh leaf on, the block that points to them. *)
Definition leaves (n : Z) : Z := (n + 123) / 128.

Definition index_list (d : disk) (ptrs : list Z) (n : Z) : list Z :=
  (if 10 <? leaves n then [ptrs !!! 14%nat] else []) ++ (leaf d ptrs <$> seqZ 0 (leaves n)).

(** [mapped c ptrs bs]: through the index blocks on disk, the pointers [ptrs]
    of an inode reach the data sectors [bs].  Index sectors are read and
    written behind the cache's back, so they must not be cached. *)
Record mapped (c : cache) (ptrs bs : list Z) : Prop := {
  mp_ptrs : length ptrs = 15%nat;
  mp_max : Z.of_nat (length bs) ≤ MAX_BLOCKS;
  mp_blocks : ∀ b k, bs !! b = Some k →
    block_sector (filesys_disk c) ptrs (Z.of_nat b) = k;
  mp_valid : ∀ x, x ∈ bs ++ index_list (filesys_disk c) ptrs (Z.of_nat (length bs)) →
    valid_sector (filesys_disk c) x;
  mp_nodup : NoDup (bs ++ index_list (filesys_disk c) ptrs (Z.of_nat (length bs)));
  mp_index : ∀ x, x ∈ index_list (filesys_disk c) ptrs (Z.of_nat (length bs)) →
    uncached c x }.

(** The sectors a file occupies. *)
Definition occupies (c : cache) (ptrs bs : list Z) (x : Z) : Prop :=
  x ∈ bs ++ index_list (filesys_disk c) ptrs (Z.of_nat (length bs)).

Lemma leaves_gt n b : 4 ≤ b < n → 0 ≤ (b - 4) / 128 < leaves n.
Proof.
  intros. unfold leaves. split; [apply Z.div_pos; lia|].
  assert ((b - 4) / 128 + 1 ≤ (n + 123) / 128); [|lia].
  apply Z.div_le_lower_bound; [lia|]. pose proof (Z.div_mod (b - 4) 128 ltac:(lia)).
  pose proof (Z.mod_pos_bound (b - 4) 128 ltac:(lia)). lia.
Qed.

Lemma leaf_in_index d ptrs n h : 0 ≤ h < leaves n → leaf d ptrs h ∈ index_list d ptrs n.
Proof.
  intros Hh. apply elem_of_app. right. apply list_elem_of_fmap. exists h. split; [done|].
  apply elem_of_seqZ. lia.
Qed.

Lemma root_in_index d ptrs n : 10 < leaves n → ptrs !!! 14%nat ∈ index_list d ptrs n.
Proof.
  intros. apply elem_of_app. left. rewrite (proj2 (Z.ltb_lt _ _)) by lia. by left.
Qed.

Lemma index_sectors_in d ptrs n b x :
  b < n → x ∈ index_sectors d ptrs b → x ∈ index_list d ptrs n.
Proof.
  intros Hb. unfold index_sectors. destruct (Z.ltb_spec b 4); [by intros ?%not_elem_of_nil|].
  destruct (leaves_gt n b) as [? ?]; [lia|].
  intros [Hx|Hx%list_elem_of_singleton]%elem_of_app; [|subst x; apply leaf_in_index; lia].
  destruct (Z.ltb_spec ((b - 4) / 128) 10); [by apply not_elem_of_nil in Hx|].
  apply list_elem_of_singleton in Hx. subst x. apply root_in_index. lia.
Qed.

Lemma mapped_index_not_data c ptrs bs x :
  mapped c ptrs bs → x ∈ index_list (filesys_disk c) ptrs (Z.of_nat (length bs)) → x ∉ bs.
Proof. intros Hm Hx Hb. apply (mp_nodup _ _ _), NoDup_app in Hm as (_ & Hd & _). by apply (Hd x). Qed.

(** Byte [p] of the file, as the cache shows it. *)
Definition file_byte (c : cache) (bs : list Z) (p : Z) : Z :=
  byte_at (view c (bs !!! Z.to_nat (p / 512))) (p mod 512).

(** [c'] differs from [c] in the sectors [P] only. *)
Definition frame (P : Z → Prop) (c c' : cache) : Prop :=
  capacity (filesys_disk c') = capacity (filesys_disk c) ∧
  (∀ m, ¬ P m → view c' m = view c m) ∧
  (∀ m, ¬ P m → uncached c m → uncached c' m).

#[export] Instance frame_preorder P : PreOrder (frame P).
Proof.
  split; [done|]. intros c1 c2 c3 (E1 & V1 & U1) (E2 & V2 & U2).
  split_and!; [congruence| |auto]. intros m Hm. by rewrite V2, V1.
Qed.

Lemma frame_weaken (P P' : Z → Prop) c c' : (∀ m, P m → P' m) → frame P c c' → frame P' c c'.
Proof. intros Hsub (? & V & U). split_and!; [done|..]; intros m Hm; [apply V|apply U]; auto. Qed.

Lemma uncached_data P c c' x :
  frame P c c' → uncached c x → ¬ P x →
  sector_data (filesys_disk c') x = sector_data (filesys_disk c) x.
Proof.
  intros (_ & V & U) Hx Hn.
  rewrite <-(view_miss c x Hx), <-(view_miss c' x (U x Hn Hx)). auto.
Qed.

Lemma frame_valid P c c' k :
  frame P c c' → valid_sector (filesys_disk c) k → valid_sector (filesys_disk c') k.
Proof. unfold valid_sector. by intros (-> & _). Qed.

(** The index structure survives changes elsewhere. *)
Lemma leaf_frame P c c' ptrs n h :
  frame P c c' →
  (∀ x, x ∈ index_list (filesys_disk c) ptrs n → uncached c x ∧ ¬ P x) → 0 ≤ h < leaves n →
  leaf (filesys_disk c') ptrs h = leaf (filesys_disk c) ptrs h ∧
  ∀ j, word (filesys_disk c') (leaf (filesys_disk c) ptrs h) j =
       word (filesys_disk c) (leaf (filesys_disk c) ptrs h) j.
Proof.
  intros Hf Hx Hh. destruct (Hx _ (leaf_in_index (filesys_disk c) ptrs n h Hh)) as [Hu HP].
  split; [|intros j; unfold word; by rewrite (uncached_data P c c' _ Hf Hu HP)].
  unfold leaf in *. destruct (Z.ltb_spec h 10); [done|]. unfold word.
  destruct (Hx _ (root_in_index (filesys_disk c) ptrs n ltac:(lia))) as [Hu' HP'].
  by rewrite (uncached_data P c c' _ Hf Hu' HP').
Qed.

Lemma index_list_ext d d' ptrs n :
  (∀ h, 0 ≤ h < leaves n → leaf d' ptrs h = leaf d ptrs h) →
  index_list d' ptrs n = index_list d ptrs n.
Proof.
  intros H. unfold index_list. f_equal. apply list_fmap_ext. intros i h Hi.
  apply H. apply list_elem_of_lookup_2, elem_of_seqZ in Hi. lia.
Qed.

Lemma mapped_frame P c c' ptrs bs :
  mapped c ptrs bs → frame P c c' → (∀ x, occupies c ptrs bs x → P x → x ∈ bs) →
  mapped c' ptrs bs ∧ ∀ x, occupies c' ptrs bs x ↔ occupies c ptrs bs x.
Proof.
  intros Hm Hf HP. pose proof Hm as [? ? Hb Hv Hnd Hx]. set (n := Z.of_nat (length bs)) in *.
  assert (∀ x, x ∈ index_list (filesys_disk c) ptrs n → ¬ P x) as HnP.
  { intros x Hin HPx. apply (mapped_index_not_data _ _ _ _ Hm Hin), HP; [|done].
    apply elem_of_app. by right. }
  assert (∀ h, 0 ≤ h < leaves n → leaf (filesys_disk c') ptrs h = leaf (filesys_disk c) ptrs h ∧
    ∀ j, word (filesys_disk c') (leaf (filesys_disk c) ptrs h) j =
         word (filesys_disk c) (leaf (filesys_disk c) ptrs h) j) as Hleaf.
  { intros h. apply (leaf_frame P); auto. }
  assert (index_list (filesys_disk c') ptrs n = index_list (filesys_disk c) ptrs n) as Eidx.
  { apply index_list_ext. intros h Hh. by apply Hleaf. }
  split; [|intros x; unfold occupies; fold n; by rewrite Eidx].
  split; fold n; rewrite ?Eidx; try done.
  - intros b k Hbk. rewrite <-(Hb _ _ Hbk). unfold block_sector.
    pose proof (lookup_lt_Some _ _ _ Hbk). destruct (Z.ltb_spec (Z.of_nat b) 4); [done|].
    destruct (Hleaf ((Z.of_nat b - 4) / 128)) as [-> ?]; [|done]. apply leaves_gt. lia.
  - intros x Hin. apply (frame_valid P c); auto.
  - intros x Hin. destruct Hf as (_ & _ & U). auto.
Qed.

Lemma mapped_frame_data c c' ptrs bs :
  mapped c ptrs bs → frame (.∈ bs) c c' → mapped c' ptrs bs.
Proof. intros Hm Hf. by apply (mapped_frame _ _ _ _ _ Hm Hf). Qed.

Lemma frame_read c c' k (bs : list Z) :
  same_view c c' → (∀ m, m ≠ k → uncached c m → uncached c' m) → k ∈ bs →
  frame (.∈ bs) c c'.
Proof.
  intros [? ?] U Hk. split_and!; [done|auto|]. intros m Hm. apply U. by intros ->.
Qed.

(** What a call of [byte_to_sector] returns for a mapped file. *)
Lemma byte_to_sector_mapped s ip i bs pos Q :
  ip ≠ NULL → inodes s !! ip = Some i → mapped (fs_cache s) (i_ptrs i) bs →
  0 ≤ pos < i_length i → pos < 512 * Z.of_nat (length bs) →
  Q (bs !!! Z.to_nat (pos / 512)) s → wp (byte_to_sector ip pos) Q s.
Proof.
  intros Hip Hi [Hp Hm Hb Hv _ Hx] Hpos Hlt HQ.
  assert (0 ≤ pos / 512) by (apply Z.div_pos; lia).
  assert (pos / 512 < Z.of_nat (length bs)) by (apply Z.div_lt_upper_bound; lia).
  remember (Z.to_nat (pos / 512)) as b eqn:Eb.
  assert (pos / 512 = Z.of_nat b) as Ep by lia.
  eapply byte_to_sector_ok; [done..|lia| |].
  - rewrite Ep. apply Forall_forall. intros x Hin. apply Hv, elem_of_app. right.
    eapply index_sectors_in; [|done]. lia.
  - rewrite Ep, (Hb b (bs !!! b)); [done|]. apply list_lookup_lookup_total_lt. lia.
Qed.

(** Positions of one chunk lie in one block. *)
Lemma chunk_block p q : 0 ≤ p → p ≤ q → q - p < 512 - p mod 512 →
  q / 512 = p / 512 ∧ q mod 512 = p mod 512 + (q - p).
Proof.
  intros. pose proof (Z.div_mod p 512 ltac:(lia)). pose proof (Z.mod_pos_bound p 512 ltac:(lia)).
  assert (q / 512 = p / 512) as E.
  { symmetry. apply (Z.div_unique _ _ _ (p mod 512 + (q - p))); lia. }
  split; [done|]. pose proof (Z.div_mod q 512 ltac:(lia)). lia.
Qed.

(** Past the end of the file it returns [-1] without touching the disk. *)
Lemma byte_to_sector_any s ip i bs pos :
  ip ≠ NULL → inodes s !! ip = Some i → mapped (fs_cache s) (i_ptrs i) bs →
  i_length i ≤ 512 * Z.of_nat (length bs) → 0 ≤ pos →
  wp (byte_to_sector ip pos)
    (λ k s', s' = s ∧ k = if pos <? i_length i then bs !!! Z.to_nat (pos / 512)
                          else u32 (-1)) s.
Proof.
  intros Hip Hi Hm Hlen Hpos. destruct (Z.ltb_spec pos (i_length i)).
  - eapply byte_to_sector_mapped; [done..|lia|done].
  - unfold byte_to_sector. wp_assert (by apply negb_true_iff, Z.eqb_neq).
    eapply wp_inode_at; [done|]. rewrite (proj2 (Z.ltb_ge _ _)) by lia. by wp_go.
Qed.

(** The chunk [inode_read_at] and [inode_write_at] handle in one turn: up to
    the end of the sector, of the file and of the request. *)
Definition chunk (len size offset : Z) : Z :=
  let sector_left := 512 - Z.rem offset 512 in
  let min_left := if len - offset <? sector_left then len - offset else sector_left in
  if size <? min_left then size else min_left.

Lemma chunk_spec len size offset :
  0 ≤ offset → 0 < size →
  Z.rem offset 512 = offset mod 512 ∧ 0 ≤ offset mod 512 < 512 ∧
  chunk len size offset ≤ size ∧ chunk len size offset ≤ len - offset ∧
  offset mod 512 + chunk len size offset ≤ 512 ∧
  (chunk len size offset ≤ 0 → len ≤ offset).
Proof.
  intros. unfold chunk. rewrite Z.rem_mod_nonneg by lia.
  pose proof (Z.mod_pos_bound offset 512 ltac:(lia)).
  destruct (Z.ltb_spec (len - offset) (512 - offset mod 512));
    [destruct (Z.ltb_spec size (len - offset))
    |destruct (Z.ltb_spec size (512 - offset mod 512))]; lia.
Qed.

(** The sector of an offset within a mapped file. *)
Lemma mapped_block c ptrs bs pos :
  mapped c ptrs bs → 0 ≤ pos < 512 * Z.of_nat (length bs) →
  valid_sector (filesys_disk c) (bs !!! Z.to_nat (pos / 512)) ∧
  bs !!! Z.to_nat (pos / 512) ∈ bs.
Proof.
  intros Hm Hpos. assert (0 ≤ pos / 512 < Z.of_nat (length bs)).
  { split; [apply Z.div_pos; lia|apply Z.div_lt_upper_bound; lia]. }
  assert (bs !!! Z.to_nat (pos / 512) ∈ bs) as Hin by (apply list_elem_of_lookup_total_2; lia).
  split; [|done]. apply (mp_valid _ _ _ Hm), elem_of_app. by left.
Qed.

Section read.
Context (s : fs) (ip : Z) (i : inode) (bs : list Z).
Context (Hip : ip ≠ NULL) (Hi : inodes s !! ip = Some i).
Context (Hinv : inv (fs_cache s)) (Hmap : mapped (fs_cache s) (i_ptrs i) bs).
Context (Hlen : i_length i ≤ 512 * Z.of_nat (length bs)).
Context (Hshown : i_length_shown i ≤ i_length i).

(** The buffer holds [n] bytes of the file, from offset [offset] on. *)
Definition bytes_read_ok (buffer : bytes) (offset n : Z) (buf : bytes) : Prop :=
  length buf = length buffer ∧
  (∀ j, 0 ≤ j < n → byte_at buf j = file_byte (fs_cache s) bs (offset + j)) ∧
  (∀ j, 0 ≤ j → n ≤ j → byte_at buf j = byte_at buffer j).

Definition only_cached (s' : fs) : Prop :=
  ∃ c', s' = set_cache c' s ∧ inv c' ∧ same_view (fs_cache s) c' ∧ frame (.∈ bs) (fs_cache s) c'.

Lemma bytes_read_step buffer offset n buf c1 m :
  0 ≤ offset → 0 ≤ n → 0 < m → n + m ≤ Z.of_nat (length buffer) →
  inv c1 → same_view (fs_cache s) c1 →
  (offset + n) mod 512 + m ≤ 512 → bytes_read_ok buffer offset n buf →
  bytes_read_ok buffer offset (n + m)
    (splice buf n (slice (view c1 (bs !!! Z.to_nat ((offset + n) / 512)))
                         ((offset + n) mod 512) m)).
Proof.
  intros ???? Hc1 [Hv _] Hm (Hl & Hin & Hout).
  set (p := offset + n) in *. pose proof (Z.mod_pos_bound p 512 ltac:(lia)).
  set (x := slice _ _ _). assert (length x = Z.to_nat m) as Hx.
  { unfold x. apply length_slice; [lia..|]. rewrite length_view by apply Hc1. lia. }
  split_and!.
  - rewrite length_splice; lia.
  - intros j Hj. destruct (decide (n ≤ j)) as [Hge|Hlt].
    + rewrite lookup_splice_in by lia. unfold x. rewrite byte_at_slice, Hv by lia.
      unfold file_byte. destruct (chunk_block p (offset + j)) as [-> ->]; [lia..|].
      f_equal. lia.
    + rewrite lookup_splice_out by lia. apply Hin. lia.
  - intros j Hj0 Hj. rewrite lookup_splice_out by lia. apply Hout; lia.
Qed.

Lemma inode_read_at_ok buffer size offset :
  0 ≤ offset → 0 ≤ size ≤ Z.of_nat (length buffer) →
  wp (inode_read_at ip buffer size offset)
    (λ r s', r.1 = Z.max 0 (Z.min size (i_length_shown i - offset)) ∧
       bytes_read_ok buffer offset r.1 r.2 ∧ only_cached s') s.
Proof.
  intros Hoff Hsize. unfold inode_read_at. wp_unbind. eapply wp_inode_at; [done|].
  assert (only_cached s) as Hs by (eexists; by rewrite set_cache_self).
  destruct (Z.leb_spec (i_length_shown i) offset) as [Hle|Hgt].
  { wp_go. split_and!; [simpl; lia| |done]. split_and!; [done|simpl; lia|done]. }
  eapply (wp_loop (λ k '(buf, sz, off, br) s1, k = Z.to_nat sz ∧ 0 ≤ br ∧ sz = size - br ∧
    0 ≤ sz ∧ off = offset + br ∧ off ≤ i_length_shown i ∧
    bytes_read_ok buffer offset br buf ∧ only_cached s1));
    [|split_and!; try done; try lia; by split_and!; [|simpl; lia|]|lia].
  intros k [[[buf sz] off] br] s1 (-> & ? & -> & ? & -> & ? & Hbuf & Hs1).
  destruct (Z.ltb_spec 0 (size - br)); [|wp_go; simpl; split_and!; [lia|done..]].
  destruct Hs1 as (c1 & -> & Hc1 & Hv1 & Hf1).
  pose proof (mapped_frame_data _ _ _ _ Hmap Hf1) as Hm1.
  destruct (chunk_spec (i_length_shown i) (size - br) (offset + br)) as (Hrem & ? & ? & ? & ? & ?);
    [lia..|].
  wp_unbind. eapply wp_mono; [by apply (byte_to_sector_any (set_cache c1 s) ip i bs); [..|lia]|].
  intros kk s2 [-> Hkk]. wp_unbind. eapply wp_inode_at; [done|].
  unfold DISK_SECTOR_SIZE. fold (chunk (i_length_shown i) (size - br) (offset + br)).
  set (n := chunk _ _ _) in *. rewrite Hrem.
  destruct (Z.leb_spec n 0) as [Hn|Hn].
  { wp_go. simpl. split_and!; [lia|done|by exists c1]. }
  rewrite (proj2 (Z.ltb_lt _ _)) in Hkk by lia. subst kk.
  destruct (mapped_block c1 (i_ptrs i) bs (offset + br)) as [Hval Hin]; [done|lia|].
  destruct Hbuf as (Hbl & Hbuf). wp_unbind. apply wp_on_cache. simpl.
  eapply wp_mono; [apply cache_read_ok; [done..|lia|lia|lia|lia|rewrite Hbl; lia]|].
  intros buf2 c2 (Hc2 & Hv2 & Hu2 & ->). wp_go. rewrite set_cache_set_cache.
  exists (Z.to_nat (size - br - n)). split; [lia|]. split_and!; [done|lia..| |].
  - apply bytes_read_step; [lia..|done|done|lia|by split].
  - exists c2. split_and!; [done|done|by etrans|]. etrans; [done|]. by eapply frame_read.
Qed.
End read.

(** ** Writing *)
Definition with_shown (s : fs) (ip : Z) (i : inode) (ls : Z) (c : cache) : fs :=
  set_inodes (<[ip := upd_i_length_shown ls i]> (inodes s)) (set_cache c s).

(** [c'] is [c] with the file's bytes from [offset] on replaced by the first
    [n] of [buffer]. *)
Definition bytes_written_ok (c : cache) (bs : list Z) (buffer : bytes) (offset n : Z)
    (c' : cache) : Prop :=
  ∀ p, 0 ≤ p < 512 * Z.of_nat (length bs) →
    file_byte c' bs p = if (offset <=? p) && (p <? offset + n)
                        then byte_at buffer (p - offset) else file_byte c bs p.

Lemma bytes_written_step c ptrs bs buffer offset n c1 m c2 :
  mapped c ptrs bs → 0 ≤ offset → 0 ≤ n → 0 < m →
  n + m ≤ Z.of_nat (length buffer) → offset + n + m ≤ 512 * Z.of_nat (length bs) →
  (offset + n) mod 512 + m ≤ 512 → inv c1 →
  bytes_written_ok c bs buffer offset n c1 →
  (∀ k, view c2 k =
     if decide (k = bs !!! Z.to_nat ((offset + n) / 512))
     then splice (view c1 (bs !!! Z.to_nat ((offset + n) / 512))) ((offset + n) mod 512)
            (slice buffer n m)
     else view c1 k) →
  bytes_written_ok c bs buffer offset (n + m) c2.
Proof.
  intros Hmap ? ? ? ? ? Hm Hc1 Hw Hv p Hp.
  set (q := offset + n) in *. pose proof (Z.mod_pos_bound q 512 ltac:(lia)).
  assert (length (slice buffer n m) = Z.to_nat m) as Hx by (apply length_slice; lia).
  pose proof (Z.mod_pos_bound p 512 ltac:(lia)).
  assert (∀ z, 0 ≤ z < 512 * Z.of_nat (length bs) → 0 ≤ z / 512 < Z.of_nat (length bs)) as Hidx.
  { intros z Hz. split; [apply Z.div_pos; lia|apply Z.div_lt_upper_bound; lia]. }
  unfold file_byte at 1. rewrite Hv. case_decide as Ek.
  - assert (p / 512 = q / 512) as Eb.
    { pose proof (Hidx p Hp). pose proof (Hidx q ltac:(lia)).
      assert (Z.to_nat (p / 512) = Z.to_nat (q / 512)); [|lia].
      apply (NoDup_lookup bs _ _ (bs !!! Z.to_nat (q / 512)));
        [by apply (mp_nodup _ _ _), NoDup_app in Hmap as (? & _)|rewrite <-Ek|];
        apply list_lookup_lookup_total_lt; lia. }
    assert (p - q = p mod 512 - q mod 512) as Epq.
    { pose proof (Z.div_mod p 512 ltac:(lia)). pose proof (Z.div_mod q 512 ltac:(lia)). lia. }
    pose proof (length_view c1 (bs !!! Z.to_nat (q / 512)) (proj1 Hc1)) as Hvl.
    destruct (decide (q ≤ p < q + m)) as [Hin|Hout].
    + rewrite lookup_splice_in by lia. rewrite byte_at_slice by lia.
      rewrite (proj2 (Z.leb_le _ _)), (proj2 (Z.ltb_lt _ _)) by lia. simpl. f_equal. lia.
    + rewrite lookup_splice_out by lia. rewrite <-Ek. fold (file_byte c1 bs p). rewrite Hw by done.
      destruct (Z.leb_spec offset p), (Z.ltb_spec p (offset + n)),
        (Z.ltb_spec p (offset + (n + m))); simpl; try done; lia.
  - fold (file_byte c1 bs p). rewrite Hw by done.
    destruct (Z.leb_spec offset p), (Z.ltb_spec p (offset + n)),
      (Z.ltb_spec p (offset + (n + m))); simpl; try done; try lia.
    destruct Ek. do 2 f_equal. apply chunk_block; lia.
Qed.

Lemma frame_write (bs : list Z) c c' k (x : bytes) :
  capacity (filesys_disk c') = capacity (filesys_disk c) →
  (∀ m, m ≠ k → uncached c m → uncached c' m) →
  (∀ m, view c' m = if decide (m = k) then x else view c m) → k ∈ bs → frame (.∈ bs) c c'.
Proof.
  intros ? U V Hk. split_and!; [done|..]; intros m Hm.
  - rewrite V, decide_False; [done|]. by intros ->.
  - apply U. by intros ->.
Qed.

Section write.
Context (s : fs) (ip : Z) (i : inode) (bs : list Z).
Context (Hip : ip ≠ NULL) (Hi : inodes s !! ip = Some i).
Context (Hinv : inv (fs_cache s)) (Hmap : mapped (fs_cache s) (i_ptrs i) bs).
Context (Hlen : i_length i ≤ 512 * Z.of_nat (length bs)).
Context (Hshown : i_length_shown i ≤ i_length i).

Lemma write_loop_ok buffer size offset :
  0 ≤ offset → 0 ≤ size ≤ Z.of_nat (length buffer) → offset + size ≤ i_length i →
  wp (write_loop ip buffer size offset)
    (λ n s', n = size ∧ ∃ c',
       s' = with_shown s ip i (Z.min (i_length i) (i_length_shown i + size)) c' ∧
       inv c' ∧ frame (.∈ bs) (fs_cache s) c' ∧
       bytes_written_ok (fs_cache s) bs buffer offset size c') s.
Proof.
  intros Hoff Hsize Hend. unfold write_loop.
  eapply (wp_loop (λ k '(sz, off, bw) s1, k = Z.to_nat sz ∧ 0 ≤ bw ∧ sz = size - bw ∧
    0 ≤ sz ∧ off = offset + bw ∧ ∃ c1,
      s1 = with_shown s ip i (Z.min (i_length i) (i_length_shown i + bw)) c1 ∧
      inv c1 ∧ frame (.∈ bs) (fs_cache s) c1 ∧
      bytes_written_ok (fs_cache s) bs buffer offset bw c1)).
  2: { split_and!; [done|lia..|]. exists (fs_cache s). split_and!; [|done|done|].
       - unfold with_shown. rewrite set_cache_self, Z.add_0_r, Z.min_r by lia.
         rewrite insert_id; [by destruct s|]. rewrite Hi. by destruct i.
       - intros p Hp. destruct (Z.leb_spec offset p), (Z.ltb_spec p (offset + 0)); simpl; try done.
         lia. }
  2: lia.
  intros k [[sz off] bw] s1 (-> & ? & -> & ? & -> & c1 & -> & Hc1 & Hf1 & Hw1).
  destruct (Z.ltb_spec 0 (size - bw)).
  2: { wp_go. replace bw with size in * by lia. split; [done|]. by exists c1. }
  pose proof (mapped_frame_data _ _ _ _ Hmap Hf1) as Hm1.
  set (ls := Z.min (i_length i) (i_length_shown i + bw)).
  set (i1 := upd_i_length_shown ls i).
  destruct (chunk_spec (i_length i) (size - bw) (offset + bw)) as (Hrem & ? & ? & ? & ? & ?);
    [lia..|].
  assert (inodes (with_shown s ip i ls c1) !! ip = Some i1) as Hi1 by apply lookup_insert_eq.
  wp_unbind. eapply wp_mono; [by apply (byte_to_sector_any _ ip i1 bs); [..|lia]|].
  intros kk s2 [-> Hkk]. wp_unbind. unfold inode_length. wp_unbind.
  eapply wp_inode_at; [done|]. wp_go.
  unfold DISK_SECTOR_SIZE. simpl i_length in *.
  fold (chunk (i_length i) (size - bw) (offset + bw)).
  set (n := chunk _ _ _) in *. rewrite Hrem.
  rewrite (proj2 (Z.ltb_lt _ _)) in Hkk by lia. subst kk.
  rewrite (proj2 (Z.leb_gt _ _)) by lia.
  destruct (mapped_block c1 (i_ptrs i) bs (offset + bw)) as [Hval Hin]; [done|lia|].
  wp_unbind. apply wp_on_cache. simpl fs_cache.
  eapply wp_mono; [apply cache_write_ok; [done..|lia|lia|lia|lia|lia]|].
  intros ? c2 (Hc2 & Hcap2 & Hu2 & Hv2). wp_unbind.
  eapply wp_inode_at; [apply lookup_insert_eq|]. wp_unbind.
  eapply wp_inode_set; [apply lookup_insert_eq|]. wp_go.
  exists (Z.to_nat (size - bw - n)). split; [lia|]. split_and!; [done|lia..|].
  exists c2. split_and!; [|done| |].
  - unfold with_shown, set_cache, set_inodes. simpl. rewrite insert_insert_eq.
    unfold i1, upd_i_length_shown. simpl. do 3 f_equal.
    destruct (Z.ltb_spec (i_length i) (ls + n)); lia.
  - etrans; [done|]. by eapply frame_write.
  - by eapply bytes_written_step; [..|exact Hv2]; try done; try lia.
Qed.
End write.

(** The lock of a regular file is free between operations; directories are
    written without it (their callers hold it). *)
Definition unlocked (i : inode) : Prop :=
  i_is_dir i = 1 ∨ (i_is_dir i = 0 ∧ i_lock i = false).

Lemma set_inodes_self s ip i :
  inodes s !! ip = Some i → set_inodes (<[ip:=i]> (inodes s)) s = s.
Proof. intros Hi. rewrite insert_id by done. by destruct s. Qed.

Lemma set_inodes_set_inodes m m' s : set_inodes m (set_inodes m' s) = set_inodes m s.
Proof. done. Qed.

Lemma set_inodes_twice ip x y m s :
  set_inodes (<[ip:=x]> (inodes (set_inodes (<[ip:=y]> m) s))) (set_inodes (<[ip:=y]> m) s) =
  set_inodes (<[ip:=x]> m) s.
Proof. simpl. by rewrite insert_insert_eq. Qed.

Lemma upd_i_lock_self i : upd_i_lock (i_lock i) i = i.
Proof. by destruct i. Qed.
Lemma upd_i_lock_twice v v' i : upd_i_lock v (upd_i_lock v' i) = upd_i_lock v i.
Proof. done. Qed.

Lemma wp_inode_is_dir s ip i Q :
  inodes s !! ip = Some i → (i_is_dir i = 0 ∨ i_is_dir i = 1) →
  Q (i_is_dir i =? 1) s → wp (inode_is_dir ip) Q s.
Proof.
  intros Hi Hd HQ. unfold inode_is_dir. wp_unbind. eapply wp_inode_at; [done|].
  destruct Hd as [E|E]; rewrite E in *; by wp_go.
Qed.

(** The lock is taken and released around the growth; [locked] is the inode
    in between. *)
Definition locked (i : inode) : inode := if i_is_dir i =? 1 then i else upd_i_lock true i.

Lemma locked_fields i : i_length (locked i) = i_length i ∧ i_is_dir (locked i) = i_is_dir i ∧
  (i_is_dir i = 0 → i_lock (locked i) = true).
Proof. unfold locked. destruct (Z.eqb_spec (i_is_dir i) 1); simpl; split_and!; try done. lia. Qed.

Lemma wp_lock s ip i Q :
  inodes s !! ip = Some i → unlocked i →
  Q tt (set_inodes (<[ip:=locked i]> (inodes s)) s) →
  wp (inode_is_dir ip) (λ d, wp (if negb d then inode_lock_acquire ip else mret tt) Q) s.
Proof.
  intros Hi Hu HQ. eapply wp_inode_is_dir; [done|destruct Hu; naive_solver|].
  unfold locked in HQ. destruct Hu as [E|[E El]]; rewrite E in *; simpl in *.
  - wp_go. by rewrite set_inodes_self in HQ.
  - unfold inode_lock_acquire. wp_unbind. eapply wp_inode_at; [done|].
    wp_assert (by rewrite El). by eapply wp_inode_set.
Qed.

Lemma wp_unlock s ip i Q :
  inodes s !! ip = Some i → i_is_dir i = 1 ∨ (i_is_dir i = 0 ∧ i_lock i = true) →
  Q tt (set_inodes (<[ip:=if i_is_dir i =? 1 then i else upd_i_lock false i]> (inodes s)) s) →
  wp (inode_is_dir ip) (λ d, wp (if negb d then inode_lock_release ip else mret tt) Q) s.
Proof.
  intros Hi Hu HQ. eapply wp_inode_is_dir; [done|destruct Hu; naive_solver|].
  destruct Hu as [E|[E El]]; rewrite E in *; simpl in *.
  - wp_go. by rewrite set_inodes_self in HQ.
  - unfold inode_lock_release. wp_unbind. eapply wp_inode_at; [done|].
    wp_assert (by rewrite El). by eapply wp_inode_set.
Qed.

(** A write that stays within the file does not grow it, whatever the
    allocator. *)
Section write_within.
Context (uninit : fs → nat → list Z) (alloc : M fs (option Z)).
Context (s : fs) (ip : Z) (i : inode) (bs : list Z).
Context (Hip : ip ≠ NULL) (Hi : inodes s !! ip = Some i).
Context (Hinv : inv (fs_cache s)) (Hmap : mapped (fs_cache s) (i_ptrs i) bs).
Context (Hlen : i_length i ≤ 512 * Z.of_nat (length bs)).
Context (Hshown : i_length_shown i ≤ i_length i).

Lemma inode_write_at_within buffer size offset :
  i_deny_write_cnt i = 0 → unlocked i →
  0 ≤ offset → 0 ≤ size ≤ Z.of_nat (length buffer) → offset + size ≤ i_length i →
  i_length i < 2 ^ 31 →
  wp (inode_write_at uninit alloc ip buffer size offset)
    (λ n s', n = size ∧ ∃ c',
       s' = with_shown s ip i (Z.min (i_length i) (i_length_shown i + size)) c' ∧
       inv c' ∧ frame (.∈ bs) (fs_cache s) c' ∧
       bytes_written_ok (fs_cache s) bs buffer offset size c') s.
Proof.
  intros Hdeny Hu Hoff Hsize Hend H31. unfold inode_write_at. wp_unbind.
  eapply wp_inode_at; [done|]. rewrite Hdeny. simpl negb. cbn iota. wp_unbind.
  eapply wp_mono; [eapply wp_lock; [done|done|]|intros d s1 H1; wp_unbind; exact H1].
  destruct (locked_fields i) as (El & Ed & Elock).
  set (s1 := set_inodes _ s). unfold inode_length. wp_unbind.
  assert (inodes s1 !! ip = Some (locked i)) as Hi1 by apply lookup_insert_eq.
  eapply wp_inode_at; [done|]. rewrite El.
  rewrite s32_id by (unfold is_s32; lia).
  wp_go. rewrite (proj2 (Z.ltb_ge _ _)) by lia. wp_go. simpl negb. cbn iota. wp_unbind.
  eapply wp_mono; [eapply wp_unlock; [done|rewrite Ed|]|intros d s2 H2; wp_unbind; exact H2].
  { destruct Hu as [?|[? _]]; [by left|right]. auto. }
  unfold s1. rewrite set_inodes_set_inodes. simpl. rewrite insert_insert_eq, Ed.
  replace (if i_is_dir i =? 1 then locked i else upd_i_lock false (locked i)) with i.
  2: { unfold locked. destruct (Z.eqb_spec (i_is_dir i) 1); [done|].
       destruct Hu as [?|[_ <-]]; [done|]. by rewrite upd_i_lock_twice, upd_i_lock_self. }
  rewrite set_inodes_self by done. by apply write_loop_ok.
Qed.
End write_within.
