(* ===== verification/FreeMap.v ===== *)
(** The free map ([filesys/free-map.c]) as an allocator of sectors: what it
    promises to the inode layer ([Allocator]), and that [free_map_allocate]
    keeps the promise both while the disk is being formatted and once the free
    map has a file of its own. *)
From Stdlib Require Import ZArith Lia.
From stdpp Require Import base tactics option numbers list gmap.
From S2P Require Import Prelude Bytes Disk FsState Inode.
From S2P Require Bitmap.
From S2P Require Import Cache InodeIO.
Import Cache.Correct.

Open Scope Z_scope.

Definition is_free (b : Bitmap.bitmap) (k : Z) : Prop :=
  0 ≤ k < Bitmap.bit_cnt b ∧ Bitmap.bit b k = false.
Definition is_used (b : Bitmap.bitmap) (k : Z) : Prop :=
  0 ≤ k < Bitmap.bit_cnt b ∧ Bitmap.bit b k = true.

(** The number of free sectors. *)
Definition nfree (b : Bitmap.bitmap) : nat :=
  Bitmap.Correct.count_range b 0 (Bitmap.bit_cnt b) false.

(** ** Counting free sectors *)
Lemma filter_ext (P Q : Z → Prop) `{∀ z, Decision (P z), ∀ z, Decision (Q z)} (l : list Z) :
  (∀ z, z ∈ l → P z ↔ Q z) → filter P l = filter Q l.
Proof.
  induction l as [|z l IH]; intros H'; [done|]. rewrite !filter_cons.
  rewrite IH by (intros; apply H'; by right).
  destruct (H' z ltac:(left)) as [H1 H2].
  destruct (decide (P z)), (decide (Q z)); try done; exfalso; auto.
Qed.

Lemma filter_remove_one (P Q : Z → Prop) `{∀ z, Decision (P z), ∀ z, Decision (Q z)} k l :
  NoDup l → k ∈ l → P k → (∀ z, Q z ↔ P z ∧ z ≠ k) →
  length (filter P l) = S (length (filter Q l)).
Proof.
  intros Hn Hk HP HQ.
  assert (∀ l' : list Z, k ∉ l' → filter P l' = filter Q l') as Hout.
  { intros l' Hl. apply filter_ext. intros z Hz. rewrite HQ.
    split; [|by intros [? _]]. intros. split; [done|]. by intros ->. }
  induction Hn as [|z l Hz Hn IH]; [by apply not_elem_of_nil in Hk|].
  rewrite !filter_cons. apply elem_of_cons in Hk as [<-|Hk].
  - rewrite decide_True by done. rewrite decide_False by (rewrite HQ; by intros [_ ?]).
    simpl. f_equal. by rewrite Hout.
  - assert (z ≠ k) as Hzk by (by intros ->). specialize (IH Hk).
    destruct (decide (P z)) as [Hp|Hp], (decide (Q z)) as [Hq|Hq]; simpl; rewrite ?IH; try done.
    + destruct Hq. by apply HQ.
    + by apply HQ in Hq as [? _].
Qed.

Lemma nfree_take b b' k :
  is_free b k → Bitmap.set_range b b' k 1 true → nfree b = S (nfree b').
Proof.
  intros [Hk Hb] (_ & Hc & Hbits). unfold nfree, Bitmap.Correct.count_range. rewrite Hc.
  assert (∀ z, 0 ≤ z → Bitmap.bit b' z = if decide (z = k) then true else Bitmap.bit b z) as E.
  { intros z Hz. rewrite Hbits by done.
    destruct (Z.leb_spec k z), (Z.ltb_spec z (k + 1)); case_decide; simpl; try done; lia. }
  set (l := seqZ 0 (Bitmap.bit_cnt b)).
  transitivity (S (length (filter (λ z, Bitmap.bit b z = false ∧ z ≠ k) l))).
  - apply (filter_remove_one _ _ k); [apply NoDup_seqZ|by apply elem_of_seqZ|done|done].
  - do 2 f_equal. apply filter_ext. intros z Hz%elem_of_seqZ.
    rewrite E by lia. case_decide; naive_solver.
Qed.

Lemma nfree_pos b : (0 < nfree b)%nat ↔ ∃ k, is_free b k.
Proof.
  unfold nfree, Bitmap.Correct.count_range. split.
  - intros H. destruct (filter _ _) as [|k l] eqn:E; [simpl in H; lia|]. exists k.
    assert (k ∈ filter (λ i, Bitmap.bit b i = false) (seqZ 0 (Bitmap.bit_cnt b))) as Hk
      by (rewrite E; left).
    apply list_elem_of_filter in Hk as [? ?%elem_of_seqZ]. split; [lia|done].
  - intros (k & Hk & Hb).
    assert (k ∈ filter (λ i, Bitmap.bit b i = false) (seqZ 0 (Bitmap.bit_cnt b))) as Hin.
    { apply list_elem_of_filter. split; [done|]. apply elem_of_seqZ. lia. }
    destruct (filter _ _); [by apply not_elem_of_nil in Hin|]. simpl. lia.
Qed.

Lemma set_range_used b b' k : is_free b k → Bitmap.set_range b b' k 1 true → is_used b' k.
Proof.
  intros [? _] (_ & E & Hb). split; [lia|]. rewrite Hb by lia.
  by rewrite (proj2 (Z.leb_le _ _)), (proj2 (Z.ltb_lt _ _)) by lia.
Qed.

Lemma set_range_used_mono b b' k m :
  Bitmap.set_range b b' k 1 true → is_used b m → is_used b' m.
Proof.
  intros (_ & E & Hb) [? ?]. split; [lia|]. rewrite Hb by lia. by destruct (_ && _).
Qed.

Lemma set_range_free_mono b b' k m :
  Bitmap.set_range b b' k 1 true → is_free b' m → is_free b m ∧ m ≠ k.
Proof.
  intros (_ & E & Hb) [? Hm]. rewrite Hb in Hm by lia.
  destruct (Z.leb_spec k m), (Z.ltb_spec m (k + 1)); simpl in Hm; try done;
    (split; [split; [lia|done]|lia]).
Qed.

Lemma used_not_free b k : is_used b k → ¬ is_free b k.
Proof. intros [_ ?] [_ ?]. congruence. Qed.

(** * The interface

    The disk, the cache and the map agree. *)
Record space (s : fs) : Prop := {
  sp_cache : inv (fs_cache s);
  sp_map : Bitmap.wf (free_map s);
  sp_size : Bitmap.bit_cnt (free_map s) = capacity (filesys_disk (fs_cache s));
  sp_small : capacity (filesys_disk (fs_cache s)) ≤ 2 ^ 28 }.

(** No free sector is in the cache.  It holds once the disk is mounted and
    every operation keeps it except the removal of a file: [inode_close] and
    [free_map_release] leave the sectors they release in the cache.
    [inode_grow] and [inode_create] write to the sectors they take with
    [disk_write], past the cache, so whatever takes a sector needs it as a
    hypothesis; the theorems have it in their statements, and [Findings.Files]
    shows what the code does without it. *)
Definition no_stale (s : fs) : Prop := ∀ k, is_free (free_map s) k → uncached (fs_cache s) k.

(** Sector [k] was free and has been taken; of the rest of the state only the
    allocator's own sectors [priv] have changed. *)
Definition taken (priv : list Z) (s : fs) (k : Z) (s' : fs) : Prop :=
  is_free (free_map s) k ∧ ∃ b' c', s' = set_cache c' (set_free_map b' s) ∧
    Bitmap.set_range (free_map s) b' k 1 true ∧ frame (.∈ priv) (fs_cache s) c'.

(** [disk_write] past the cache. *)
Definition disk_put (k : Z) (b : bytes) (c : cache) : cache :=
  set_disk (write_sector (filesys_disk c) k b) c.

(** What the inode layer relies on: allocation takes a free sector if there is
    one and changes nothing of the client's, and the client may update its own
    inodes, files and sectors. *)
Class Allocator (alloc : M fs (option Z)) (priv : list Z) (own : Z) (I : fs → Prop) : Prop := {
  al_space : ∀ s, I s → space s;
  al_priv : ∀ s k, I s → k ∈ priv → is_used (free_map s) k;
  al_alloc : ∀ s, I s → (0 < nfree (free_map s))%nat →
    wp alloc (λ r s', ∃ k, r = Some k ∧ taken priv s k s' ∧ I s') s;
  al_full : ∀ s, I s → nfree (free_map s) = 0%nat → wp alloc (λ r s', r = None ∧ s' = s) s;
  al_other : ∀ s s', I s → fs_cache s' = fs_cache s → free_map s' = free_map s →
    free_map_file s' = free_map_file s →
    files s' !! free_map_file s = files s !! free_map_file s →
    inodes s' !! own = inodes s !! own → I s';
  al_frame : ∀ (P : Z → Prop) s c', I s → inv c' → frame P (fs_cache s) c' →
    (∀ x, P x → is_used (free_map s) x ∧ x ∉ priv) → I (set_cache c' s) }.

Lemma al_inode {alloc priv own} {I : fs → Prop} `{!Allocator alloc priv own I} s ip i :
  I s → ip ≠ own → I (set_inodes (<[ip:=i]> (inodes s)) s).
Proof. intros Hs Hne. eapply al_other; [done..|]. simpl. by rewrite lookup_insert_ne. Qed.

(** ** Writing past the cache *)
Lemma disk_put_ok c k b :
  inv c → uncached c k → length b = 512%nat →
  inv (disk_put k b c) ∧ frame (.= k) c (disk_put k b c) ∧
  view (disk_put k b c) k = b ∧ uncached (disk_put k b c) k.
Proof.
  intros [Hc Hidle] Hu Hb.
  assert (∀ m, m ≠ k → view (disk_put k b c) m = view c m) as Hv.
  { intros m Hm. unfold view, disk_put. simpl. destruct (lookup_sector _ _); [done|].
    rewrite sector_data_write. by rewrite decide_False by congruence. }
  assert (view (disk_put k b c) k = b) as Hk.
  { etrans; [by apply (view_miss (disk_put k b c))|]. simpl.
    by rewrite sector_data_write, decide_True. }
  split_and!; [|done..].
  split; [|done]. destruct Hc as [Hd ???? He]. split; simpl; try done.
  - by apply wf_write_sector.
  - intros i e Hi. destruct (He _ _ Hi) as [? ? Hcl]. split; [done..|]. intros ?. simpl.
    rewrite sector_data_write, decide_False; [auto|]. intros ->. by apply (Hu i e).
Qed.

Lemma wp_fs_disk_write s k b Q :
  valid_sector (filesys_disk (fs_cache s)) k → length b = 512%nat →
  Q tt (set_cache (disk_put k b (fs_cache s)) s) → wp (on_disk (disk_write k b)) Q s.
Proof.
  intros Hk Hb HQ. unfold on_disk. by apply wp_on_cache, Correct.wp_on_disk, wp_disk_write.
Qed.

Lemma space_valid s k : space s → 0 ≤ k < Bitmap.bit_cnt (free_map s) →
  valid_sector (filesys_disk (fs_cache s)) k.
Proof. intros [_ _ E ?] Hk. unfold valid_sector. rewrite E in Hk. lia. Qed.

Lemma al_write {alloc priv own} {I : fs → Prop} `{!Allocator alloc priv own I} s k b :
  I s → k ∉ priv → is_used (free_map s) k → uncached (fs_cache s) k →
  length b = 512%nat → I (set_cache (disk_put k b (fs_cache s)) s).
Proof.
  intros Hs Hp Hk Hu Hb.
  destruct (disk_put_ok (fs_cache s) k b) as (Hi & Hf & _); [by apply al_space|done..|].
  eapply al_frame; [done|done|exact Hf|]. by intros x ->.
Qed.

Lemma space_take s k b' c' (priv : list Z) :
  space s → Bitmap.set_range (free_map s) b' k 1 true → inv c' → 
  (∀ x, x ∈ priv → is_used (free_map s) x) → frame (.∈ priv) (fs_cache s) c' →
  space (set_cache c' (set_free_map b' s)).
Proof.
  intros [Hi Hw E Hc] Hr Hc' Hp (Hcap & _). split; simpl; [done|apply Hr| |lia].
  destruct Hr as (_ & -> & _). lia.
Qed.

(** ** Clean allocators

    An allocator whose invariant says that no free sector is cached. *)
Class Clean (I : fs → Prop) : Prop := clean_free : ∀ s, I s → no_stale s.

Lemma no_stale_frame (P : Z → Prop) s c' :
  no_stale s → frame P (fs_cache s) c' → (∀ x, P x → is_used (free_map s) x) →
  no_stale (set_cache c' s).
Proof.
  intros Hf (_ & _ & U) HP k Hk. apply U; [|by apply Hf]. intros Hx.
  by apply (used_not_free _ _ (HP _ Hx)).
Qed.

Lemma no_stale_take (priv : list Z) s k s' :
  no_stale s → (∀ x, x ∈ priv → is_used (free_map s) x) → taken priv s k s' → no_stale s'.
Proof.
  intros Hf Hp (_ & b' & c' & -> & Hb & _ & _ & U) m Hm. simpl in Hm |- *.
  destruct (set_range_free_mono _ _ _ _ Hb Hm) as [Hm' _]. apply U; [|by apply Hf].
  intros Hin. by eapply used_not_free; [by apply Hp|].
Qed.

(** Every allocator keeps free sectors out of the cache if they are. *)
Lemma clean_allocator {alloc priv own} {I : fs → Prop} :
  Allocator alloc priv own I → Allocator alloc priv own (λ s, I s ∧ no_stale s).
Proof.
  intros HA. split.
  - intros s [Hs _]. by apply al_space.
  - intros s k [Hs _]. by apply al_priv.
  - intros s [Hs Hf] Hn. eapply wp_mono; [by apply al_alloc|]. intros r s' (k & -> & Ht & Hs').
    exists k. split_and!; [done..|]. eapply no_stale_take; [done| |exact Ht].
    intros x. by apply al_priv.
  - intros s [Hs _]. by apply al_full.
  - intros s s' [Hs Hf] Ec Em ???. split; [by eapply al_other|]. unfold no_stale. by rewrite Ec, Em.
  - intros P s c' [Hs Hf] Hc' Hfr HP. split; [by eapply al_frame|].
    eapply no_stale_frame; [done|exact Hfr|]. intros x Hx. by apply HP.
Qed.

Lemma clean_free_sectors (I : fs → Prop) : Clean (λ s, I s ∧ no_stale s).
Proof. by intros s [_ ?]. Qed.

(** * The two states of the free map

    While the disk is being formatted the map has no file. *)
Definition unmounted (s : fs) : Prop := space s ∧ free_map_file s = NULL.

(** Afterwards it is kept in the file [fp], of the inode [fi] at address [fip]
    whose data sectors are [fbs]; [priv] are these and its index sectors. *)
Record mounted (fp fip : Z) (fi : inode) (fbs priv : list Z) (s : fs) : Prop := {
  mo_space : space s;
  mo_file : free_map_file s = fp ∧ fp ≠ NULL ∧
    ∃ f, files s !! fp = Some f ∧ f_inode f = fip;
  mo_inode : fip ≠ NULL ∧ inodes s !! fip = Some fi;
  mo_writable : i_deny_write_cnt fi = 0 ∧ unlocked fi;
  mo_length : i_length fi = Bitmap.byte_cnt (Bitmap.bit_cnt (free_map s)) ∧
    i_length_shown fi = i_length fi ∧ i_length fi ≤ 512 * Z.of_nat (length fbs);
  mo_mapped : mapped (fs_cache s) (i_ptrs fi) fbs;
  mo_priv : ∀ x, occupies (fs_cache s) (i_ptrs fi) fbs x → x ∈ priv;
  mo_used : ∀ x, x ∈ priv → is_used (free_map s) x }.

(** The file holds the map. *)
Definition in_sync (fbs : list Z) (s : fs) : Prop :=
  ∀ p, 0 ≤ p < Bitmap.byte_cnt (Bitmap.bit_cnt (free_map s)) →
    file_byte (fs_cache s) fbs p = byte_at (words_to_bytes (Bitmap.bits (free_map s))) p.

Lemma byte_cnt_eq b :
  Bitmap.wf b → Bitmap.bit_cnt b ≤ 2 ^ 28 →
  Bitmap.byte_cnt (Bitmap.bit_cnt b) = Z.of_nat (length (words_to_bytes (Bitmap.bits b))) ∧
  0 ≤ Bitmap.byte_cnt (Bitmap.bit_cnt b) < 2 ^ 31.
Proof.
  intros Hw Hc. pose proof (Bitmap.wf_len _ Hw) as Hl. pose proof (Bitmap.wf_cnt _ Hw) as Hcnt.
  rewrite length_words_to_bytes. unfold Bitmap.byte_cnt. rewrite <-Hl.
  rewrite Bitmap.elem_cnt_eq in Hl by done.
  assert ((Bitmap.bit_cnt b + 31) / 32 < 2 ^ 24); [apply Z.div_lt_upper_bound; lia|].
  rewrite u32_id by (unfold is_u32; lia). lia.
Qed.

Section proofs.
Context (uninit : fs → nat → list Z).

Lemma wp_file_at s fp f Q : files s !! fp = Some f → Q f s → wp (file_at fp) Q s.
Proof. intros Hf HQ. unfold file_at. wp_go. rewrite Hf. by wp_go. Qed.

Lemma with_shown_self s ip i c :
  inodes s !! ip = Some i → with_shown s ip i (i_length_shown i) c = set_cache c s.
Proof.
  intros Hi. unfold with_shown. replace (upd_i_length_shown (i_length_shown i) i) with i
    by (by destruct i). rewrite insert_id by done. by destruct s.
Qed.

Lemma bitmap_write_ok alloc fp fip fi fbs priv s :
  mounted fp fip fi fbs priv s →
  wp (bitmap_write uninit alloc fp) (λ r s', r = true ∧ ∃ c', s' = set_cache c' s ∧
    inv c' ∧ frame (.∈ fbs) (fs_cache s) c' ∧ in_sync fbs s') s.
Proof.
  intros [Hsp (_ & Hfp & f & Hf & <-) [Hip Hi] [Hdeny Hu] (Hl & Hshown & Hmax) Hmap _ _].
  destruct (byte_cnt_eq (free_map s)) as [Hbc Hr]; [apply Hsp|rewrite (sp_size _ Hsp); apply Hsp|].
  unfold bitmap_write. wp_go. unfold file_write_at. wp_unbind. eapply wp_file_at; [done|].
  eapply wp_mono; [apply (inode_write_at_within uninit alloc s (f_inode f) fi fbs);
    [done|done|apply Hsp|done|done|by rewrite Hshown|done|done|lia..]|].
  intros n s' (-> & c' & -> & Hc' & Hf' & Hw). wp_go. rewrite Z.eqb_refl. split; [done|].
  rewrite Z.min_l by lia. rewrite <-Hshown, with_shown_self by done.
  exists c'. split_and!; [done..|]. intros p Hp. simpl in Hp |- *. rewrite Hw by lia.
  rewrite (proj2 (Z.leb_le _ _)), (proj2 (Z.ltb_lt _ _)) by lia. simpl. by rewrite Z.sub_0_r.
Qed.

(** Taking a sector in the map alone. *)
Lemma scan_one s :
  space s → wp (on_free_map (Bitmap.Ops.bitmap_scan_and_flip 0 1 false))
    (λ k s', (nfree (free_map s) = 0%nat ∧ k = Bitmap.BITMAP_ERROR ∧ s' = s) ∨
       (is_free (free_map s) k ∧ k ≠ Bitmap.BITMAP_ERROR ∧ ∃ b', s' = set_free_map b' s ∧
          Bitmap.set_range (free_map s) b' k 1 true)) s.
Proof.
  intros Hsp. pose proof (sp_map _ Hsp) as Hw. pose proof (Bitmap.wf_cnt _ Hw).
  unfold on_free_map. apply wp_zoom.
  eapply wp_mono; [apply Bitmap.Correct.bitmap_scan_and_flip_ok; [done|lia..]|].
  intros k b' [[(H0 & Hle & Hall & _)|[-> Hno]] Hb'].
  - right. assert (is_free (free_map s) k) as Hf by (split; [lia|]; apply Hall; lia).
    destruct (Z.eqb_spec k Bitmap.BITMAP_ERROR) as [->|Hne]; [unfold Bitmap.BITMAP_ERROR in *; lia|].
    split_and!; [done..|]. by exists b'.
  - left. rewrite Z.eqb_refl in Hb'. subst b'. split_and!; [|done|by destruct s].
    destruct (decide (0 < nfree (free_map s))%nat) as [(k & ? & Hk)%nfree_pos|]; [|lia].
    destruct (Hno k); [lia..|]. intros i Hi. by replace i with k by lia.
Qed.

Lemma unmounted_take s k b' :
  unmounted s → is_free (free_map s) k → Bitmap.set_range (free_map s) b' k 1 true →
  taken [] s k (set_free_map b' s) ∧ unmounted (set_free_map b' s).
Proof.
  intros [Hsp Hf] Hk Hb'.
  assert (set_free_map b' s = set_cache (fs_cache s) (set_free_map b' s)) as E by by destruct s.
  split.
  - split; [done|]. by exists b', (fs_cache s).
  - split; [|done]. rewrite E. eapply (space_take _ _ _ _ []); [done|done|apply Hsp| |done].
    intros x Hx. by apply not_elem_of_nil in Hx.
Qed.

Lemma space_frame (P : Z → Prop) s c' :
  space s → inv c' → frame P (fs_cache s) c' → (∀ x, P x → is_used (free_map s) x) →
  space (set_cache c' s).
Proof.
  intros [? ? ? ?] Hc' (Hcap & _) HP. split; simpl; [done|done|lia|lia].
Qed.

(** The file stays in order when its data, or sectors it does not occupy,
    change. *)
Lemma mounted_frame P fp fip fi fbs priv s c' :
  mounted fp fip fi fbs priv s → inv c' → frame P (fs_cache s) c' →
  (∀ x, x ∈ priv → P x → x ∈ fbs) → (∀ x, P x → is_used (free_map s) x) →
  mounted fp fip fi fbs priv (set_cache c' s).
Proof.
  intros [Hsp ? ? ? ? Hmap Hpriv ?] Hc' Hf Hfb HP.
  destruct (mapped_frame P _ c' _ _ Hmap Hf) as [Hm' Ho]; [auto|].
  split; simpl; try done; [by eapply space_frame|]. intros x. rewrite Ho. auto.
Qed.

Lemma mounted_take fp fip fi fbs priv s b' k :
  mounted fp fip fi fbs priv s → is_free (free_map s) k →
  Bitmap.set_range (free_map s) b' k 1 true →
  mounted fp fip fi fbs priv (set_free_map b' s).
Proof.
  intros [Hsp ? ? ? ? ? ? Hused] Hk Hb'. pose proof Hb' as (_ & Ec & _).
  split; simpl; try done; [|by rewrite Ec|].
  - replace (set_free_map b' s) with (set_cache (fs_cache s) (set_free_map b' s)) by by destruct s.
    by eapply space_take; [done|done|apply Hsp|exact Hused|].
  - intros x Hx. eapply set_range_used_mono; eauto.
Qed.

Lemma mapped_occupies c ptrs bs x : x ∈ bs → occupies c ptrs bs x.
Proof. intros. apply elem_of_app. by left. Qed.

Lemma sync_frame P fbs s c' :
  in_sync fbs s → frame P (fs_cache s) c' → (∀ x, x ∈ fbs → ¬ P x) →
  Bitmap.byte_cnt (Bitmap.bit_cnt (free_map s)) ≤ 512 * Z.of_nat (length fbs) →
  in_sync fbs (set_cache c' s).
Proof.
  intros Hs (_ & V & _) HP Hlen p Hp. simpl in *. rewrite <-Hs by done. unfold file_byte.
  rewrite V; [done|]. apply HP. apply list_elem_of_lookup_total_2.
  assert (p / 512 < Z.of_nat (length fbs)) by (apply Z.div_lt_upper_bound; lia).
  pose proof (Z.div_pos p 512). lia.
Qed.

(** ** [free_map_allocate] is an allocator *)
#[export] Instance unmounted_allocator depth own :
  Allocator (free_map_allocate uninit (S depth) 1) [] own unmounted.
Proof.
  split.
  - by intros s [? _].
  - intros s k _ Hk. by apply not_elem_of_nil in Hk.
  - intros s Hs Hn. simpl. wp_unbind. eapply wp_mono; [by apply scan_one, Hs|].
    intros k s' [(? & _)|(Hk & Hne & b' & -> & Hb')]; [lia|].
    rewrite (proj2 (Z.eqb_neq _ _) Hne). simpl. wp_go. simpl. rewrite (proj2 Hs). simpl. wp_go.
    rewrite (proj2 (Z.eqb_neq _ _) Hne). simpl. exists k. split; [done|].
    by apply unmounted_take.
  - intros s Hs Hn. simpl. wp_unbind. eapply wp_mono; [by apply scan_one, Hs|].
    intros k s' [(_ & -> & ->)|(Hk & _)]; [by wp_go|].
    pose proof (proj2 (nfree_pos _) (ex_intro _ _ Hk)). lia.
  - intros s s' [Hs Hf] Ec Em Ef _ _. split; [|congruence].
    destruct Hs. by split; rewrite ?Ec, ?Em.
  - intros P s c' [Hs ?] Hc' Hf HP. split; [|done]. eapply space_frame; [done|done|exact Hf|].
    intros x Hx. by apply HP.
Qed.

#[export] Instance mounted_allocator depth fp fip fi fbs priv :
  Allocator (free_map_allocate uninit (S depth) 1) priv fip
    (λ s, mounted fp fip fi fbs priv s ∧ in_sync fbs s).
Proof.
  split.
  - by intros s [[]].
  - intros s k [Hm _]. apply Hm.
  - intros s [Hm Hsy] Hn. simpl. wp_unbind. eapply wp_mono; [by apply scan_one, Hm|].
    intros k s' [(? & _)|(Hk & Hne & b' & -> & Hb')]; [lia|].
    pose proof (mounted_take _ _ _ _ _ _ _ _ Hm Hk Hb') as Hm1.
    pose proof (mo_file _ _ _ _ _ _ Hm) as (Efp & Hfp & _).
    rewrite (proj2 (Z.eqb_neq _ _) Hne). simpl. wp_go. simpl. rewrite Efp.
    rewrite (proj2 (Z.eqb_neq _ _) Hfp). simpl. wp_unbind.
    eapply wp_mono; [by eapply bitmap_write_ok|]. intros r s2 (-> & c' & -> & Hc' & Hf & Hsy').
    simpl. wp_go. rewrite (proj2 (Z.eqb_neq _ _) Hne). simpl. exists k. split; [done|].
    assert (∀ x, x ∈ fbs → x ∈ priv) as Hsub.
    { intros x Hx. by eapply (mo_priv _ _ _ _ _ _ Hm), mapped_occupies. }
    split.
    + split; [done|]. exists b', c'. split_and!; [done..|]. eapply frame_weaken; [exact Hsub|exact Hf].
    + split; [|done]. eapply mounted_frame; [done|done|exact Hf|done|].
      intros x Hx. eapply (mo_used _ _ _ _ _ _ Hm1); auto.
  - intros s [Hm _] Hn. simpl. wp_unbind. eapply wp_mono; [by apply scan_one, Hm|].
    intros k s' [(_ & -> & ->)|(Hk & _)]; [by wp_go|].
    pose proof (proj2 (nfree_pos _) (ex_intro _ _ Hk)). lia.
  - intros s s' [Hm Hsy] Ec Em Ef Efs Ei. split; [|unfold in_sync; by rewrite Ec, Em].
    destruct Hm as [Hsp (Hf & Hfp & Hfile) Hino ? ? ? ? ?]. rewrite Hf in Efs.
    split; rewrite ?Ec, ?Em, ?Ef, ?Efs, ?Ei; try done.
    destruct Hsp. by split; rewrite ?Ec, ?Em.
  - intros P s c' [Hm Hsy] Hc' Hf HP.
    assert (∀ x, x ∈ fbs → ¬ P x) as Hfb.
    { intros x Hx HPx. apply HP in HPx as [_ Hp]. by eapply Hp, (mo_priv _ _ _ _ _ _ Hm), mapped_occupies. }
    split.
    + eapply mounted_frame; [done|done|exact Hf| |]; [|intros x Hx; by apply HP].
      intros x Hx HPx. apply HP in HPx as [_ Hp]. done.
    + eapply sync_frame; [done|exact Hf|done|].
      destruct (mo_length _ _ _ _ _ _ Hm) as (? & ? & ?). lia.
Qed.
End proofs.
