(* ===== verification/Grow.v ===== *)
(** Growing a file ([filesys/inode.c]: [inode_grow]) and writing past its end.

    The theorems are about any allocator that keeps the promises of the
    [Allocator] interface of [FreeMap].  They cover files of any size the
    inode can address, for a growth that does not run from one leaf of the
    doubly indirect level into the next: there the code loses track of the
    leaf (see [Findings]). *)
From Stdlib Require Import ZArith Lia.
From stdpp Require Import base tactics option numbers list gmap.
From S2P Require Import Prelude Bytes Disk FsState Inode.
From S2P Require Bitmap.
From S2P Require Import Cache InodeIO FreeMap.
Import Cache.Correct.

Open Scope Z_scope.

(** * The index structure of a longer file *)

(** A block written as words is read back word by word. *)
Lemma word_put c k ws j :
  length ws = 128%nat → 0 ≤ j < 128 →
  word (filesys_disk (disk_put k (words_to_bytes ws) c)) k j = u32 (ws !!! Z.to_nat j).
Proof.
  intros Hl Hj. unfold word, disk_put. simpl. rewrite sector_data_write, decide_True by done.
  unfold block_words. rewrite <-(app_nil_r (words_to_bytes ws)), <-Hl.
  rewrite bytes_to_words_mod, (list_lookup_total_fmap u32 ws) by lia. done.
Qed.

Lemma word_put_ne c k b k' j :
  k' ≠ k → word (filesys_disk (disk_put k b c)) k' j = word (filesys_disk c) k' j.
Proof.
  intros Hne. unfold word, disk_put. simpl. by rewrite sector_data_write, decide_False by congruence.
Qed.

(** Block numbers by leaf and slot. *)
Lemma slot_spec b : 4 ≤ b →
  0 ≤ (b - 4) / 128 ∧ 0 ≤ (b - 4) mod 128 < 128 ∧ b = 4 + 128 * ((b - 4) / 128) + (b - 4) mod 128.
Proof.
  intros. pose proof (Z.div_mod (b - 4) 128 ltac:(lia)).
  pose proof (Z.mod_pos_bound (b - 4) 128 ltac:(lia)). pose proof (Z.div_pos (b - 4) 128). lia.
Qed.

Lemma slot_unique b g j : 0 ≤ j < 128 → b = 4 + 128 * g + j →
  (b - 4) / 128 = g ∧ (b - 4) mod 128 = j.
Proof.
  intros Hj ->. replace (4 + 128 * g + j - 4) with (j + g * 128) by lia.
  rewrite Z.div_add, Z.mod_add by lia. rewrite Z.div_small, Z.mod_small by lia. lia.
Qed.

(** The leaves of a file of [4 + 128 g + j] blocks. *)
Lemma leaves_eq n g j : n = 4 + 128 * g + j → 0 ≤ j ≤ 128 →
  leaves n = if j =? 0 then g else g + 1.
Proof.
  intros -> Hj. unfold leaves. destruct (Z.eqb_spec j 0) as [->|].
  - replace (4 + 128 * g + 0 + 123) with (127 + g * 128) by lia. by rewrite Z.div_add by lia.
  - replace (4 + 128 * g + j + 123) with (j - 1 + (g + 1) * 128) by lia.
    rewrite Z.div_add by lia. rewrite Z.div_small; lia.
Qed.

Section index.
Context (d d' : disk) (ptrs ptrs' : list Z) (g : Z) (Hg : 0 ≤ g).
Context (Hleaves : ∀ h, 0 ≤ h < g → leaf d' ptrs' h = leaf d ptrs h).

(** A new leaf, and before the eleventh the block that points to the leaves
    from then on. *)
Lemma index_list_first m X :
  leaf d' ptrs' g = X → (10 < g → ptrs' !!! 14%nat = ptrs !!! 14%nat) → 0 < m ≤ 128 →
  index_list d' ptrs' (4 + 128 * g + m) ≡ₚ
  index_list d ptrs (4 + 128 * g) ++ (if g =? 10 then [ptrs' !!! 14%nat] else []) ++ [X].
Proof.
  intros HX Hroot Hm. unfold index_list.
  rewrite (leaves_eq (4 + 128 * g + m) g m), (leaves_eq (4 + 128 * g) g 0) by lia.
  rewrite (proj2 (Z.eqb_neq m 0)) by lia. simpl.
  replace (seqZ 0 (g + 1)) with (seqZ 0 g ++ [g]) by (rewrite seqZ_app by lia; done).
  rewrite fmap_app. simpl. rewrite HX.
  replace (leaf d' ptrs' <$> seqZ 0 g) with (leaf d ptrs <$> seqZ 0 g).
  2: { apply list_fmap_ext. intros i h Hi. symmetry. apply Hleaves.
       apply list_elem_of_lookup_2, elem_of_seqZ in Hi. lia. }
  generalize (leaf d ptrs <$> seqZ 0 g) as l. intros l.
  destruct (Z.eqb_spec g 10) as [->|Hne]; simpl; [by rewrite Permutation_middle|].
  destruct (Z.ltb_spec 10 (g + 1)), (Z.ltb_spec 10 g); simpl; try lia; [|done].
  by rewrite Hroot by lia.
Qed.

Lemma index_list_more j m :
  0 < j → 0 ≤ m → j + m ≤ 128 → leaf d' ptrs' g = leaf d ptrs g →
  (10 ≤ g → ptrs' !!! 14%nat = ptrs !!! 14%nat) →
  index_list d' ptrs' (4 + 128 * g + j + m) = index_list d ptrs (4 + 128 * g + j).
Proof.
  intros Hj Hm Hjm HX Hroot. unfold index_list.
  rewrite (leaves_eq (4 + 128 * g + j + m) g (j + m)), (leaves_eq (4 + 128 * g + j) g j) by lia.
  rewrite (proj2 (Z.eqb_neq j 0)), (proj2 (Z.eqb_neq (j + m) 0)) by lia. f_equal.
  - destruct (Z.ltb_spec 10 (g + 1)); [|done]. by rewrite Hroot by lia.
  - apply list_fmap_ext. intros i h Hi. apply list_elem_of_lookup_2, elem_of_seqZ in Hi.
    destruct (decide (h = g)) as [->|]; [done|]. apply Hleaves. lia.
Qed.
End index.

(** Leaf [g] is extended by the sectors [ks]; [xs] are new index sectors. *)
Section fill.
Context (c c' : cache) (ptrs ptrs' bs ks xs : list Z) (g X : Z).
Let d := filesys_disk c.
Let d' := filesys_disk c'.
Let n := Z.of_nat (length bs).
Let j0 := n - 4 - 128 * g.
Context (Hmap : mapped c ptrs bs).
Context (Hn : 0 ≤ g ∧ 0 ≤ j0 ∧ j0 + Z.of_nat (length ks) ≤ 128).
Context (Hmax : n + Z.of_nat (length ks) ≤ MAX_BLOCKS).
Context (Hptrs : length ptrs' = 15%nat).
Context (Hdirect : ∀ b, (b < 4)%nat → ptrs' !!! b = ptrs !!! b).
Context (Hleaves : ∀ h, 0 ≤ h < g → leaf d' ptrs' h = leaf d ptrs h ∧
  ∀ j, word d' (leaf d ptrs h) j = word d (leaf d ptrs h) j).
Context (Hleaf : leaf d' ptrs' g = X ∧ (0 < j0 → leaf d ptrs g = X)).
Context (Hold : ∀ j, 0 ≤ j < j0 → word d' X j = word d X j).
Context (Hnew : ∀ t k, ks !! t = Some k → word d' X (j0 + Z.of_nat t) = k).
Context (Hidx : index_list d' ptrs' (n + Z.of_nat (length ks)) ≡ₚ index_list d ptrs n ++ xs).
Context (Hfresh : NoDup (ks ++ xs) ∧
  ∀ x, x ∈ ks ++ xs → ¬ occupies c ptrs bs x ∧ valid_sector d' x).
Context (Hcap : capacity d' = capacity d).
Context (Hunc : ∀ x, x ∈ index_list d ptrs n ++ xs → uncached c' x).

(** Every block is in an earlier leaf or in leaf [g]. *)
Lemma fill_case b : 4 ≤ b < n + Z.of_nat (length ks) →
  0 ≤ (b - 4) / 128 < g ∧ b < n ∨
  (b - 4) / 128 = g ∧ (b - 4) mod 128 = b - 4 - 128 * g ∧ 0 ≤ b - 4 - 128 * g.
Proof.
  intros Hbn. destruct Hn as (? & ? & ?). destruct (slot_spec b) as (? & ? & Eb); [lia|].
  destruct (Z.lt_ge_cases ((b - 4) / 128) g); [left|right]; unfold j0 in *; lia.
Qed.

Lemma fill_block_sector b k :
  (bs ++ ks) !! b = Some k → block_sector d' ptrs' (Z.of_nat b) = k.
Proof.
  intros Hbk. destruct Hn as (Hg & Hj0 & Hj1), Hleaf as [HleafX HleafO].
  pose proof (lookup_lt_Some _ _ _ Hbk) as Hlt. rewrite length_app in Hlt.
  unfold block_sector. apply lookup_app_Some in Hbk as [Hbk|[Hge Hbk]].
  - pose proof (lookup_lt_Some _ _ _ Hbk). pose proof (mp_blocks _ _ _ Hmap _ _ Hbk) as Eb.
    unfold block_sector in Eb. fold d in Eb.
    destruct (Z.ltb_spec (Z.of_nat b) 4); [by rewrite Hdirect by lia|].
    destruct (fill_case (Z.of_nat b)) as [[Hlg _]|(Eg & Ej & ?)]; [unfold n; lia|..].
    + destruct (Hleaves _ Hlg) as [-> Hw]. by rewrite Hw.
    + rewrite Eg, Ej in *. rewrite HleafX, Hold by (unfold j0, n; lia).
      by rewrite HleafO in Eb by (unfold j0, n; lia).
  - assert (4 ≤ Z.of_nat b) by (unfold j0, n in *; lia).
    rewrite (proj2 (Z.ltb_ge _ _)) by lia.
    destruct (fill_case (Z.of_nat b)) as [[_ ?]|(Eg & Ej & ?)]; [unfold n in *; lia..|].
    rewrite Eg, Ej, HleafX. rewrite <-(Hnew _ _ Hbk). f_equal. unfold j0, n. lia.
Qed.

Lemma mapped_fill :
  mapped c' ptrs' (bs ++ ks) ∧
  ∀ x, occupies c' ptrs' (bs ++ ks) x ↔ occupies c ptrs bs x ∨ x ∈ ks ∨ x ∈ xs.
Proof.
  destruct Hfresh as [Hnd Hfr]. unfold occupies in *. fold d d' n in Hfr |- *.
  assert (Z.of_nat (length (bs ++ ks)) = n + Z.of_nat (length ks)) as En
    by (rewrite length_app; unfold n; lia).
  assert (∀ x, x ∈ index_list d' ptrs' (n + Z.of_nat (length ks)) ↔
    x ∈ index_list d ptrs n ∨ x ∈ xs) as Hin.
  { intros x. by rewrite Hidx, elem_of_app. }
  assert (∀ x, x ∈ (bs ++ ks) ++ index_list d' ptrs' (n + Z.of_nat (length ks)) ↔
    x ∈ bs ++ index_list d ptrs n ∨ x ∈ ks ++ xs) as Hall.
  { intros x. rewrite !elem_of_app, Hin. tauto. }
  split; [split|]; fold d'; rewrite ?En; try done.
  - apply fill_block_sector.
  - intros x [Hx|Hx]%Hall; [|by apply Hfr]. pose proof (mp_valid _ _ _ Hmap x Hx) as Hv.
    unfold valid_sector in *. fold d in Hv. by rewrite Hcap.
  - rewrite Hidx, <-app_assoc, (app_assoc ks), (Permutation_app_comm ks), <-(app_assoc _ ks),
      (app_assoc bs). apply NoDup_app. split_and!; [apply Hmap| |done].
    intros x Hx Hk. by destruct (Hfr x Hk) as [? _].
  - intros x [Hx|Hx]%Hin; apply Hunc, elem_of_app; auto.
  - intros x. rewrite Hall, (elem_of_app ks). tauto.
Qed.
End fill.

(** ** Where the next block goes

    The position the inode keeps for a file of [n] blocks ([ptr_idx],
    [indir_idx], [double_indir_idx]). *)
Definition cursor (n : Z) : Z * Z * Z :=
  if n <? 4 then (n, 0, 0)
  else if n <? 1284 then (4 + (n - 4) / 128, (n - 4) mod 128, 0)
  else if n <? MAX_BLOCKS then (14, (n - 1284) / 128, (n - 1284) mod 128)
  else (15, 0, 0).

Lemma cursor_direct n : n < 4 → cursor n = (n, 0, 0).
Proof. intros. unfold cursor. by rewrite (proj2 (Z.ltb_lt _ _)) by lia. Qed.

Lemma cursor_indirect n g j :
  n = 4 + 128 * g + j → 0 ≤ g < 10 → 0 ≤ j < 128 → cursor n = (4 + g, j, 0).
Proof.
  intros E Hg Hj. unfold cursor. rewrite (proj2 (Z.ltb_ge _ _)), (proj2 (Z.ltb_lt _ _)) by lia.
  by destruct (slot_unique n g j Hj E) as [-> ->].
Qed.

Lemma cursor_double n a j :
  n = 1284 + 128 * a + j → 0 ≤ a < 128 → 0 ≤ j < 128 → cursor n = (14, a, j).
Proof.
  intros -> Ha Hj. unfold cursor, MAX_BLOCKS.
  rewrite !(proj2 (Z.ltb_ge _ _)), (proj2 (Z.ltb_lt _ _)) by lia.
  replace (1284 + 128 * a + j - 1284) with (j + a * 128) by lia.
  rewrite Z.div_add, Z.mod_add by lia. rewrite Z.div_small, Z.mod_small by lia. done.
Qed.

Lemma cursor_full : cursor MAX_BLOCKS = (15, 0, 0).
Proof. done. Qed.

Lemma cursor_cases n : 0 ≤ n < MAX_BLOCKS →
  (n < 4 ∧ (cursor n).1.1 < 4) ∨ (4 ≤ n < 1284 ∧ 4 ≤ (cursor n).1.1 < 14) ∨
  (1284 ≤ n ∧ (cursor n).1.1 = 14).
Proof.
  intros Hn. unfold cursor. destruct (Z.ltb_spec n 4); simpl; [lia|].
  destruct (Z.ltb_spec n 1284); simpl; [|rewrite (proj2 (Z.ltb_lt _ _)) by lia; simpl; lia].
  destruct (slot_spec n); lia.
Qed.

(** The sectors a file of [n] blocks takes, index blocks included. *)
Definition total (n : Z) : Z := n + leaves n + (if 10 <? leaves n then 1 else 0).

Lemma leaves_mono n n' : n ≤ n' → leaves n ≤ leaves n'.
Proof. intros. unfold leaves. apply Z.div_le_mono; lia. Qed.

Lemma total_mono n n' : n ≤ n' → total n ≤ total n'.
Proof.
  intros H. pose proof (leaves_mono _ _ H). unfold total.
  destruct (Z.ltb_spec 10 (leaves n)), (Z.ltb_spec 10 (leaves n')); lia.
Qed.

Lemma total_direct n : 0 ≤ n < 4 → total (n + 1) = total n + 1.
Proof.
  intros. unfold total, leaves. rewrite !Z.div_small by lia. simpl. lia.
Qed.

Lemma total_leaf n g j m :
  n = 4 + 128 * g + j → 0 ≤ j < 128 → 0 < m → j + m ≤ 128 →
  total (n + m) = total n + m + (if j =? 0 then 1 else 0) +
    (if (g =? 10) && (j =? 0) then 1 else 0).
Proof.
  intros -> Hj Hm Hjm. unfold total.
  rewrite (leaves_eq (4 + 128 * g + j + m) g (j + m)), (leaves_eq (4 + 128 * g + j) g j) by lia.
  rewrite (proj2 (Z.eqb_neq (j + m) 0)) by lia. destruct (Z.eqb_spec j 0), (Z.eqb_spec g 10); simpl;
    destruct (Z.ltb_spec 10 (g + 1)); try destruct (Z.ltb_spec 10 g); lia.
Qed.

(** The growths the code gets right: from [n] to [n'] blocks without running
    from one leaf of the second level into the next. *)
Definition contained (n n' : Z) : Prop := (n' - 5) / 128 ≤ Z.max 10 ((n - 4) / 128).

Lemma contained_step n n1 n' : contained n n' → n ≤ n1 → contained n1 n'.
Proof.
  unfold contained. intros H Hn. assert ((n - 4) / 128 ≤ (n1 - 4) / 128); [|lia].
  apply Z.div_le_mono; lia.
Qed.

Lemma contained_double n n' a j :
  contained n n' → n = 1284 + 128 * a + j → 0 ≤ a → 0 ≤ j < 128 → n' - n ≤ 128 - j.
Proof.
  unfold contained. intros H E Ha Hj.
  destruct (slot_unique n (10 + a) j) as [Eg _]; [done|lia|]. rewrite Eg, Z.max_r in H by lia.
  pose proof (Z.div_mod (n' - 5) 128 ltac:(lia)).
  pose proof (Z.mod_pos_bound (n' - 5) 128 ltac:(lia)). lia.
Qed.

(** A direct block. *)
Lemma index_list_direct d ptrs n : 0 ≤ n ≤ 4 → index_list d ptrs n = [].
Proof.
  intros. unfold index_list. replace (leaves n) with 0; [done|].
  unfold leaves. symmetry. apply Z.div_small. lia.
Qed.

Lemma mapped_direct c c' ptrs bs k :
  mapped c ptrs bs → (length bs < 4)%nat →
  capacity (filesys_disk c') = capacity (filesys_disk c) →
  k ∉ bs → valid_sector (filesys_disk c') k →
  mapped c' (<[length bs := k]> ptrs) (bs ++ [k]) ∧
  ∀ x, occupies c' (<[length bs := k]> ptrs) (bs ++ [k]) x → x ∈ bs ∨ x = k.
Proof.
  intros [Hp Hm Hb Hv Hn _] Hlt Hcap Hk Hvk. unfold occupies.
  rewrite index_list_direct in Hv, Hn by lia. rewrite app_nil_r in Hn.
  assert (Z.of_nat (length (bs ++ [k])) ≤ 4) by (rewrite length_app; simpl; lia).
  split; [split|]; rewrite ?index_list_direct, ?app_nil_r by lia.
  - by rewrite length_insert.
  - unfold MAX_BLOCKS. lia.
  - intros b y Hy. pose proof (lookup_lt_Some _ _ _ Hy) as Hlb.
    unfold block_sector. rewrite (proj2 (Z.ltb_lt _ _)), Nat2Z.id by lia.
    apply lookup_app_Some in Hy as [Hy|[Hge Hy]].
    + pose proof (lookup_lt_Some _ _ _ Hy). rewrite list_lookup_total_insert_ne by lia.
      rewrite <-(Hb _ _ Hy). unfold block_sector.
      by rewrite (proj2 (Z.ltb_lt _ _)), Nat2Z.id by lia.
    + destruct (b - length bs)%nat eqn:E; [|done]. simplify_eq/=.
      replace b with (length bs) by lia. rewrite list_lookup_total_insert_eq by lia. done.
  - intros x [Hx| ->%list_elem_of_singleton]%elem_of_app; [|done].
    unfold valid_sector. rewrite Hcap. apply Hv, elem_of_app. by left.
  - apply NoDup_app. split_and!; [done| |apply NoDup_singleton].
    intros x Hx. rewrite list_elem_of_singleton. by intros ->.
  - intros x Hx. by apply not_elem_of_nil in Hx.
  - intros x. rewrite elem_of_app, list_elem_of_singleton. done.
Qed.

(** Index sectors are distinct. *)
Lemma leaf_inj c ptrs bs h1 h2 :
  let L := leaves (Z.of_nat (length bs)) in
  mapped c ptrs bs → 0 ≤ h1 < L → 0 ≤ h2 < L →
  leaf (filesys_disk c) ptrs h1 = leaf (filesys_disk c) ptrs h2 → h1 = h2.
Proof.
  intros L Hm H1 H2 E. pose proof (mp_nodup _ _ _ Hm) as Hn.
  apply NoDup_app in Hn as (_ & _ & Hn). apply NoDup_app in Hn as (_ & _ & Hn). fold L in Hn.
  assert (∀ h, 0 ≤ h < L → (leaf (filesys_disk c) ptrs <$> seqZ 0 L) !! Z.to_nat h =
    Some (leaf (filesys_disk c) ptrs h)) as Hl.
  { intros h Hh. rewrite list_lookup_fmap, (proj2 (lookup_seqZ 0 L (Z.to_nat h) h)) by lia. done. }
  assert (Z.to_nat h1 = Z.to_nat h2); [|lia].
  eapply (NoDup_lookup _ _ _ _ Hn); [by apply Hl|]. by rewrite E, Hl.
Qed.

Lemma leaf_not_root c ptrs bs h :
  mapped c ptrs bs → 10 < leaves (Z.of_nat (length bs)) →
  0 ≤ h < leaves (Z.of_nat (length bs)) →
  leaf (filesys_disk c) ptrs h ≠ ptrs !!! 14%nat.
Proof.
  intros Hm HL Hh E. pose proof (mp_nodup _ _ _ Hm) as Hn.
  apply NoDup_app in Hn as (_ & _ & Hn). apply NoDup_app in Hn as (_ & Hd & _).
  apply (Hd (ptrs !!! 14%nat)); [by rewrite (proj2 (Z.ltb_lt _ _)) by lia; left|].
  rewrite <-E. apply list_elem_of_fmap. exists h. split; [done|]. apply elem_of_seqZ. lia.
Qed.

Lemma valid_is_u32 d k : valid_sector d k → is_u32 k.
Proof. intros [? ?]. unfold is_u32. lia. Qed.
Lemma valid_u32 d k : valid_sector d k → u32 k = k.
Proof. intros Hv. by eapply u32_id, valid_is_u32. Qed.

(** The words of a leaf in use are sector numbers. *)
Lemma mapped_word c ptrs bs g q :
  mapped c ptrs bs → 0 ≤ g → 0 ≤ q < 128 → 4 + 128 * g + q < Z.of_nat (length bs) →
  let w := word (filesys_disk c) (leaf (filesys_disk c) ptrs g) q in u32 w = w.
Proof.
  intros Hm Hg Hq Hlt w. destruct (slot_unique (4 + 128 * g + q) g q) as [Eg Eq]; [done..|].
  destruct (lookup_lt_is_Some_2 bs (Z.to_nat (4 + 128 * g + q))) as [k Hk]; [lia|].
  pose proof (mp_blocks _ _ _ Hm _ _ Hk) as E. unfold block_sector in E.
  rewrite Z2Nat.id, Eg, Eq, (proj2 (Z.ltb_ge _ _)) in E by lia. fold w in E. rewrite E.
  apply (valid_u32 (filesys_disk c)), (mp_valid _ _ _ Hm), elem_of_app. left.
  by eapply list_elem_of_lookup_2.
Qed.

(** * Steps of the growth

    [grows W s ks s']: between [s] and [s'] the free sectors [ks] were taken;
    of the disk only they, the allocator's own sectors and those in [W] were
    written, and of the inodes only the one at [ip]. *)
Section grow.
Context {alloc : M fs (option Z)} {priv : list Z} {own : Z} {I : fs → Prop}.
Context `{Halloc : !Allocator alloc priv own I} `{Hclean : !Clean I}.
Context (ip : Z) (Hip : ip ≠ NULL) (Hown : ip ≠ own).

Record grows (W : Z → Prop) (s : fs) (ks : list Z) (s' : fs) : Prop := {
  gr_state : s' = set_inodes (inodes s') (set_cache (fs_cache s') (set_free_map (free_map s') s));
  gr_inodes : ∀ q, q ≠ ip → inodes s' !! q = inodes s !! q;
  gr_inv : I s';
  gr_nodup : NoDup ks;
  gr_free : ∀ k, k ∈ ks → is_free (free_map s) k;
  gr_used : ∀ k, is_used (free_map s') k ↔ is_used (free_map s) k ∨ k ∈ ks;
  gr_count : nfree (free_map s) = (nfree (free_map s') + length ks)%nat;
  gr_cap : capacity (filesys_disk (fs_cache s')) = capacity (filesys_disk (fs_cache s));
  gr_unc : ∀ m, m ∉ priv → uncached (fs_cache s) m → uncached (fs_cache s') m;
  gr_view : ∀ m, m ∉ priv → m ∉ ks → ¬ W m → view (fs_cache s') m = view (fs_cache s) m }.

Lemma gr_cnt W s ks s' :
  I s → grows W s ks s' →
  Bitmap.bit_cnt (free_map s') = Bitmap.bit_cnt (free_map s).
Proof.
  intros Hs Hg. pose proof (al_space _ Hs) as Hsp. pose proof (al_space _ (gr_inv _ _ _ _ Hg)) as Hsp'.
  by rewrite (sp_size _ Hsp), (sp_size _ Hsp'), (gr_cap _ _ _ _ Hg).
Qed.

Lemma grows_refl W s : I s → grows W s [] s.
Proof.
  intros Hs. split; try done; [by destruct s|apply NoDup_nil_2|..].
  - intros k Hk. by apply not_elem_of_nil in Hk.
  - intros k. split; [by left|]. intros [?|Hk]; [done|by apply not_elem_of_nil in Hk].
Qed.

Lemma grows_trans (W W1 W2 : Z → Prop) s ks1 s1 ks2 s2 :
  I s → grows W1 s ks1 s1 → grows W2 s1 ks2 s2 →
  (∀ x, W1 x → W x) → (∀ x, W2 x → W x ∨ x ∈ ks1) → grows W s (ks1 ++ ks2) s2.
Proof.
  intros Hs H1 H2 HW1 HW. pose proof (gr_cnt _ _ _ _ Hs H1) as Ecnt.
  assert (∀ k, k ∈ ks2 → is_free (free_map s) k ∧ k ∉ ks1) as Hk2.
  { intros k Hk. destruct (gr_free _ _ _ _ H2 k Hk) as [Hr Hb].
    rewrite Ecnt in Hr. destruct (decide (Bitmap.bit (free_map s) k = false)) as [Hf|Hu].
    - split; [done|]. intros Hin.
      destruct (proj2 (gr_used _ _ _ _ H1 k) (or_intror Hin)). congruence.
    - apply not_false_is_true in Hu.
      destruct (proj2 (gr_used _ _ _ _ H1 k) (or_introl (conj Hr Hu))). congruence. }
  split.
  - rewrite (gr_state _ _ _ _ H2), (gr_state _ _ _ _ H1). done.
  - intros q Hq. by rewrite (gr_inodes _ _ _ _ H2), (gr_inodes _ _ _ _ H1).
  - apply H2.
  - apply NoDup_app. split_and!; [apply H1| |apply H2]. intros k Hk1 Hk. by apply (Hk2 k).
  - intros k [Hk|Hk]%elem_of_app; [by apply H1|by apply Hk2].
  - intros k. rewrite (gr_used _ _ _ _ H2), (gr_used _ _ _ _ H1), elem_of_app. tauto.
  - rewrite length_app, (gr_count _ _ _ _ H1), (gr_count _ _ _ _ H2). lia.
  - by rewrite (gr_cap _ _ _ _ H2), (gr_cap _ _ _ _ H1).
  - intros m Hm Hu. by apply (gr_unc _ _ _ _ H2), (gr_unc _ _ _ _ H1).
  - intros m Hm [Hm1 Hm2]%not_elem_of_app HWm. rewrite (gr_view _ _ _ _ H2), (gr_view _ _ _ _ H1); auto.
    intros [?|?]%HW; auto.
Qed.

(** Allocation takes one sector. *)
Lemma wp_alloc s :
  I s → (0 < nfree (free_map s))%nat →
  wp alloc (λ r s', ∃ k, r = Some k ∧ grows (λ _, False) s [k] s' ∧ inodes s' = inodes s) s.
Proof.
  intros Hs Hn. eapply wp_mono; [by apply al_alloc|].
  intros r s' (k & -> & (Hk & b' & c' & -> & Hb' & (Ecap & V & U)) & Hs'). exists k.
  split_and!; [done| |done]. split; simpl; try done.
  - apply NoDup_singleton.
  - by intros ? ->%list_elem_of_singleton.
  - intros m. rewrite list_elem_of_singleton. split.
    + intros [Hm Hbit]. pose proof Hb' as (_ & E & Hbits). rewrite E in Hm.
      destruct (decide (m = k)); [by right|left]. split; [done|].
      rewrite Hbits in Hbit by lia.
      destruct (Z.leb_spec k m), (Z.ltb_spec m (k + 1)); simpl in Hbit; try done; lia.
    + intros [?| ->]; [by eapply set_range_used_mono|by eapply set_range_used].
  - rewrite (nfree_take _ _ _ Hk Hb'). lia.
  - intros m Hm _ _. by apply V.
Qed.

(** A write past the cache to a sector the client owns. *)
Lemma wp_write s k b Q :
  I s → is_used (free_map s) k → k ∉ priv → uncached (fs_cache s) k → length b = 512%nat →
  (∀ s', s' = set_cache (disk_put k b (fs_cache s)) s → grows (.= k) s [] s' →
     view (fs_cache s') k = b → Q tt s') →
  wp (on_disk (disk_write k b)) Q s.
Proof.
  intros Hs Hk Hp Hu Hb HQ. pose proof (al_space _ Hs) as Hsp.
  apply wp_fs_disk_write; [by eapply space_valid; [|apply Hk]|done|].
  destruct (disk_put_ok (fs_cache s) k b) as (? & (? & V & U) & Vk & Uk); [apply Hsp|done..|].
  apply HQ; [done| |done]. pose proof (grows_refl (.= k) s Hs) as Hr.
  split; simpl; try apply Hr; try done.
  - by apply al_write.
  - intros m _ _ Hm. by apply V.
Qed.

(** An assignment to the inode. *)
Lemma grows_inode W s i : I s → grows W s [] (set_inodes (<[ip:=i]> (inodes s)) s).
Proof.
  intros Hs. pose proof (grows_refl W s Hs) as Hr. split; simpl; try apply Hr; try done.
  - intros q Hq. by rewrite lookup_insert_ne.
  - by apply al_inode.
Qed.

(** Freshly taken sectors are the client's and not cached. *)
Lemma grows_fresh W s ks s' k :
  I s → grows W s ks s' → k ∈ ks →
  is_used (free_map s') k ∧ (k ∉ priv) ∧ uncached (fs_cache s) k ∧ uncached (fs_cache s') k ∧
  valid_sector (filesys_disk (fs_cache s')) k.
Proof.
  intros Hs Hg Hk. pose proof (gr_free _ _ _ _ Hg k Hk) as Hf.
  assert (is_used (free_map s') k) as Hused by (apply (gr_used _ _ _ _ Hg); by right).
  assert (k ∉ priv) as Hp.
  { intros Hin. by eapply used_not_free; [by eapply (al_priv s)|]. }
  pose proof (clean_free s Hs k Hf) as Hu.
  split_and!; [done..|by apply (gr_unc _ _ _ _ Hg)|].
  by eapply space_valid; [apply al_space, Hg|apply Hused].
Qed.

(** ** Filling a leaf

    [arr'] is the block [arr] with the sectors [ks] put in from slot [j] on. *)
Definition filled (arr : list Z) (j : Z) (ks arr' : list Z) : Prop :=
  length arr' = 128%nat ∧
  (∀ q, (q < Z.to_nat j)%nat → arr' !!! q = arr !!! q) ∧
  (∀ u k, ks !! u = Some k → arr' !!! (Z.to_nat j + u)%nat = k).

Lemma filled_snoc arr j ks arr' k :
  0 ≤ j → j + Z.of_nat (length ks) < 128 → filled arr j ks arr' →
  filled arr j (ks ++ [k]) (<[Z.to_nat (j + Z.of_nat (length ks)) := k]> arr').
Proof.
  intros ?? (Hl & Ho & Hn). replace (Z.to_nat (j + Z.of_nat (length ks)))
    with (Z.to_nat j + length ks)%nat by lia. split_and!.
  - by rewrite length_insert.
  - intros q Hq. rewrite list_lookup_total_insert_ne by lia. auto.
  - intros u k' [Hu|[Hge Hu]]%lookup_app_Some.
    + pose proof (lookup_lt_Some _ _ _ Hu). rewrite list_lookup_total_insert_ne by lia. auto.
    + destruct (u - length ks)%nat eqn:Eu; simpl in Hu; [|done]. simplify_eq.
      replace u with (length ks) by lia. rewrite list_lookup_total_insert_eq by lia. done.
Qed.

(** [grows] with the new sectors cleared. *)
Definition clears (s : fs) (ks : list Z) (s' : fs) : Prop :=
  grows (λ _, False) s ks s' ∧ inodes s' = inodes s ∧
  ∀ k, k ∈ ks → view (fs_cache s') k = zero_sector.

Lemma clears_zero s ks s' s2 ks2 W k :
  I s → clears s ks s' → grows W s' ks2 s2 → k ∈ ks → ¬ W k →
  view (fs_cache s2) k = zero_sector.
Proof.
  intros Hs (Hg & _ & Hz) H2 Hk HW. destruct (grows_fresh _ _ _ _ _ Hs Hg Hk) as (Hu & ? & _).
  rewrite (gr_view _ _ _ _ H2); auto. intros Hin.
  by eapply used_not_free, (gr_free _ _ _ _ H2).
Qed.

(** One allocation followed by [disk_write (..., data_default)]. *)
Lemma wp_alloc_clear s ks s1 :
  I s → clears s ks s1 → (0 < nfree (free_map s1))%nat →
  wp alloc (λ r s2, ∃ k, r = Some k ∧
    wp (on_disk (disk_write k zero_sector)) (λ _ s3, clears s (ks ++ [k]) s3) s2) s1.
Proof.
  intros Hs Hcl Hn. pose proof Hcl as (Hg & Ei & Hz).
  eapply wp_mono; [by apply wp_alloc; [apply Hg|]|].
  intros r s2 (k & -> & Hg2 & Ei2). exists k. split; [done|].
  destruct (grows_fresh _ _ _ _ k (gr_inv _ _ _ _ Hg) Hg2 ltac:(left)) as (Hu & Hp & _ & Hunc & _).
  apply wp_write; [apply Hg2|done..|]. intros s3 Es3 Hg3 Hv3.
  assert (k ∉ ks) as Hk.
  { intros Hin. destruct (grows_fresh _ _ _ _ _ Hs Hg Hin) as (Huk & _).
    eapply used_not_free; [exact Huk|]. apply (gr_free _ _ _ _ Hg2). by left. }
  assert (grows (.= k) s1 [k] s3) as Hg13.
  { change [k] with ([k] ++ []). eapply (grows_trans _ _ (.= k)); [apply Hg|done|done|done|].
    intros x ->. by left. }
  split_and!.
  - replace (ks ++ [k]) with ((ks ++ [k]) ++ []) by by rewrite app_nil_r.
    eapply (grows_trans _ (λ _, False) (.= k)); [done| |done|done|].
    + by eapply (grows_trans _ (λ _, False) (λ _, False)).
    + intros x ->. right. apply elem_of_app. right. by left.
  - rewrite Es3. simpl. by rewrite Ei2.
  - intros x [Hx| ->%list_elem_of_singleton]%elem_of_app; [|done].
    eapply (clears_zero s ks s1 s3 [k] (.= k)); [done..|]. by intros ->.
Qed.

Lemma fill_block_ok s arr j t :
  I s → length arr = 128%nat → 0 ≤ j ≤ 128 → 0 ≤ t →
  Z.min t (128 - j) ≤ Z.of_nat (nfree (free_map s)) →
  wp (fill_block alloc arr j t) (λ r s', ∃ ks arr', clears s ks s' ∧
    Z.of_nat (length ks) = Z.min t (128 - j) ∧ filled arr j ks arr' ∧
    r = Some (arr', j + Z.of_nat (length ks), t - Z.of_nat (length ks))) s.
Proof.
  intros Hs Hl Hj Ht Hn. unfold fill_block.
  eapply (wp_loop (λ q '(arr1, j1, t1) s1, ∃ ks, clears s ks s1 ∧ filled arr j ks arr1 ∧
    j1 = j + Z.of_nat (length ks) ∧ t1 = t - Z.of_nat (length ks) ∧
    Z.of_nat (length ks + q) = Z.min t (128 - j))).
  2: { exists []. split_and!; [|split_and!; [done..|]|simpl; lia|simpl; lia|].
       - split_and!; [by apply grows_refl|done|]. intros k Hk. by apply not_elem_of_nil in Hk.
       - done.
       - instantiate (1 := Z.to_nat (Z.min t (128 - j))). simpl. lia. }
  2: lia.
  intros q [[arr1 j1] t1] s1 (ks & Hcl & Hf & -> & -> & Hq).
  assert (Z.of_nat (length ks) = Z.min t (128 - j) → ∃ ks0 arr', clears s ks0 s1 ∧ Z.of_nat (length ks0) = Z.min t (128 - j) ∧
      filled arr j ks0 arr' ∧
      Some (arr1, j + Z.of_nat (length ks), t - Z.of_nat (length ks)) =
        Some (arr', j + Z.of_nat (length ks0), t - Z.of_nat (length ks0))) as Hdone.
  { intros E. by exists ks, arr1. }
  unfold PTR_PER_BLOCK. destruct (Z.ltb_spec (j + Z.of_nat (length ks)) 128) as [Hlt|Hge].
  2: { wp_go. apply Hdone. lia. }
  destruct (Z.ltb_spec 0 (t - Z.of_nat (length ks))) as [Hpos|Hz]; simpl.
  2: { wp_go. apply Hdone. lia. }
  pose proof Hcl as (Hg & _). pose proof (gr_count _ _ _ _ Hg).
  wp_unbind. eapply wp_mono; [apply wp_alloc_clear; [done|done|lia]|].
  intros r s2 (k & -> & Hw). cbn beta match. wp_unbind. eapply wp_mono; [exact Hw|].
  intros ? s3 Hcl3. wp_go. exists (q - 1)%nat. split; [lia|]. exists (ks ++ [k]).
  split_and!; [done|apply filled_snoc; [lia|lia|done]|rewrite length_app; simpl; lia..].
Qed.

Lemma wp_alloc_ptr s i idx :
  I s → inodes s !! ip = Some i → (0 < nfree (free_map s))%nat →
  wp (alloc_ptr alloc ip idx) (λ ok s', ok = true ∧ ∃ k, grows (λ _, False) s [k] s' ∧
    inodes s' = <[ip := upd_i_ptrs (<[Z.to_nat idx := k]> (i_ptrs i)) i]> (inodes s)) s.
Proof.
  intros Hs Hi Hn. unfold alloc_ptr. wp_unbind. eapply wp_mono; [by apply wp_alloc|].
  intros r s1 (k & -> & Hg & Ei). wp_unbind. eapply wp_inode_set; [by rewrite Ei|].
  wp_go. split; [done|]. exists k. split; [|by simpl; rewrite Ei].
  change [k] with ([k] ++ []). eapply grows_trans; [done|exact Hg| |done|].
  - apply (grows_inode (λ _, False)). apply Hg.
  - done.
Qed.

Lemma grows_data W s ks s' x :
  I s → grows W s ks s' → uncached (fs_cache s) x → x ∉ priv → is_used (free_map s) x → ¬ W x →
  sector_data (filesys_disk (fs_cache s')) x = sector_data (filesys_disk (fs_cache s)) x.
Proof.
  intros Hs Hg Hu Hp Hus HW.
  rewrite <-(view_miss _ x Hu), <-(view_miss _ x (gr_unc _ _ _ _ Hg x Hp Hu)).
  apply (gr_view _ _ _ _ Hg); [done| |done]. intros Hin.
  by eapply used_not_free, (gr_free _ _ _ _ Hg).
Qed.

(** The index block behind pointer [idx] is either new or read from disk. *)
Lemma wp_block_ptr s i idx (first : bool) inner Q :
  I s → inodes s !! ip = Some i → length (i_ptrs i) = 15%nat → 0 ≤ idx < 15 →
  length inner = 128%nat →
  (first = true → (0 < nfree (free_map s))%nat) →
  (first = false → valid_sector (filesys_disk (fs_cache s)) (i_ptrs i !!! Z.to_nat idx)) →
  (∀ arr X ks s', length arr = 128%nat → grows (λ _, False) s ks s' →
     inodes s' = <[ip := upd_i_ptrs (<[Z.to_nat idx := X]> (i_ptrs i)) i]> (inodes s) →
     (if first then ks = [X] else ks = [] ∧ s' = s ∧ X = i_ptrs i !!! Z.to_nat idx ∧
        arr = block_words (sector_data (filesys_disk (fs_cache s)) X)) →
     Q (Some arr) s') →
  wp (if first then ok ← alloc_ptr alloc ip idx; mret (if ok : bool then Some inner else None)
      else k ← deref (index (i_ptrs i) idx); b ← on_disk (disk_read k);
           mret (Some (block_words b))) Q s.
Proof.
  intros Hs Hi Hp Hidx Hin Hfirst Hvalid HQ. destruct first.
  - wp_unbind. eapply wp_mono; [by apply wp_alloc_ptr; [..|auto]|].
    intros ok s' (-> & k & Hg & Ei). wp_go. by apply (HQ inner k [k]).
  - wp_unbind. apply index_ptr; [lia|]. wp_unbind. apply wp_fs_disk_read; [auto|]. wp_go.
    apply (HQ _ (i_ptrs i !!! Z.to_nat idx) []); [apply length_block_words|by apply grows_refl| |done].
    rewrite list_insert_id by (apply list_lookup_lookup_total_lt; lia).
    symmetry. apply insert_id. rewrite Hi. by destruct i.
Qed.

(** The leaf [X] after its block [arr'] was written back. *)
Lemma leaf_written c X arr arr' j ks d0 :
  filled arr j ks arr' → 0 ≤ j → j + Z.of_nat (length ks) ≤ 128 →
  (∀ k, k ∈ ks → u32 k = k) →
  (∀ q, 0 ≤ q < j → arr !!! Z.to_nat q = word d0 X q ∧ u32 (word d0 X q) = word d0 X q) →
  let d' := filesys_disk (disk_put X (words_to_bytes arr') c) in
  (∀ q, 0 ≤ q < j → word d' X q = word d0 X q) ∧
  (∀ u k, ks !! u = Some k → word d' X (j + Z.of_nat u) = k).
Proof.
  intros (Hl & Ho & Hn) Hj Hjk Hk Hq d'. split.
  - intros q Hq'. unfold d'. rewrite word_put, Ho by (try done; lia).
    by destruct (Hq q Hq') as [-> ?].
  - intros u k Hu. pose proof (lookup_lt_Some _ _ _ Hu). unfold d'.
    rewrite word_put by (try done; lia).
    replace (Z.to_nat (j + Z.of_nat u)) with (Z.to_nat j + u)%nat by lia.
    rewrite (Hn u k Hu). apply Hk. by eapply list_elem_of_lookup_2.
Qed.

(** A leaf is filled from slot [j] on and written back to its sector [X]. *)
Definition leaf_filled (s : fs) (ks : list Z) (X j : Z) (s' : fs) : Prop :=
  grows (.= X) s ks s' ∧
  (∀ q, 0 ≤ q < j → word (filesys_disk (fs_cache s')) X q = word (filesys_disk (fs_cache s)) X q) ∧
  (∀ u k, ks !! u = Some k → word (filesys_disk (fs_cache s')) X (j + Z.of_nat u) = k) ∧
  (∀ k, k ∈ ks → view (fs_cache s') k = zero_sector).

Lemma wp_fill_leaf s arr j t X :
  let d := filesys_disk (fs_cache s) in
  let m := Z.min t (128 - j) in
  I s → length arr = 128%nat → 0 ≤ j ≤ 128 → 0 ≤ t → m ≤ Z.of_nat (nfree (free_map s)) →
  is_used (free_map s) X → X ∉ priv → uncached (fs_cache s) X →
  (∀ q, 0 ≤ q < j → arr !!! Z.to_nat q = word d X q ∧ u32 (word d X q) = word d X q) →
  wp (fill_block alloc arr j t) (λ r s2, ∃ ks arr',
    r = Some (arr', j + m, t - m) ∧ Z.of_nat (length ks) = m ∧ length arr' = 128%nat ∧
    inodes s2 = inodes s ∧ ∀ i Q,
      (∀ s4, leaf_filled s ks X j s4 → inodes s4 = <[ip:=i]> (inodes s) → Q tt s4) →
      wp (on_disk (disk_write X (words_to_bytes arr'))) Q
        (set_inodes (<[ip:=i]> (inodes s2)) s2)) s.
Proof.
  intros d m Hs Harr Hj Ht Hfree HuX HpX HcX Hw.
  eapply wp_mono; [by apply (fill_block_ok s arr j t)|].
  intros r s2 (ks & arr' & Hcl & Hlen & Hfill & ->). fold m in Hlen.
  pose proof Hcl as (Hg2 & Ei2 & Hz2). pose proof Hfill as (Harr' & _).
  exists ks, arr'. rewrite Hlen. split_and!; [done..|]. intros i Q HQ. set (s3 := set_inodes _ s2).
  assert (grows (λ _, False) s2 [] s3) as Hg3 by (apply grows_inode, Hg2).
  assert (X ∉ ks) as HXks.
  { intros Hk. by eapply used_not_free, (gr_free _ _ _ _ Hg2). }
  apply wp_write; [apply Hg3|apply (gr_used _ _ _ _ Hg2); by left|done
    |by apply (gr_unc _ _ _ _ Hg2)|rewrite length_words_to_bytes; lia|].
  intros s4 Es4 Hg4 Hv4. apply HQ; [|rewrite Es4; simpl; by rewrite Ei2].
  assert (grows (.= X) s2 [] s4) as Hg24.
  { change ([] : list Z) with ([] ++ [] : list Z).
    by eapply (grows_trans _ (λ _, False) (.= X)); [apply Hg2|exact Hg3|exact Hg4|..]; auto. }
  destruct (leaf_written (fs_cache s3) X arr arr' j ks d) as [Hold Hnew]; [done|lia|lia| |done|].
  { intros k Hk. destruct (grows_fresh _ _ _ _ k Hs Hg2 Hk) as (_ & _ & _ & _ & Hv).
    by eapply valid_u32. }
  split_and!.
  - rewrite <-(app_nil_r ks). eapply (grows_trans _ (λ _, False) (.= X)); [done|exact Hg2|done|done|].
    by left.
  - rewrite Es4. apply Hold.
  - rewrite Es4. apply Hnew.
  - intros k Hk. by eapply (clears_zero s ks s2 s4 [] (.= X)); [..|intros ->].
Qed.

(** ** One leaf of the second level

    With no more sectors to add than the leaf has room for, the loop over the
    leaves makes one turn and stops. *)
Lemma wp_leaf_ptr s a inner dinner (first : bool) Q :
  I s → length inner = 128%nat → 0 ≤ a < 128 → length dinner = 128%nat →
  (first = true → (0 < nfree (free_map s))%nat) →
  (first = false → valid_sector (filesys_disk (fs_cache s)) (inner !!! Z.to_nat a)) →
  (∀ arr X xs s', length arr = 128%nat → grows (λ _, False) s xs s' → inodes s' = inodes s →
     (if first then xs = [X] else xs = [] ∧ s' = s ∧ X = inner !!! Z.to_nat a ∧
        arr = block_words (sector_data (filesys_disk (fs_cache s)) X)) →
     Q (Some (<[Z.to_nat a := X]> inner, arr)) s') →
  wp (if first then
        r ← alloc;
        match r with
        | None => mret None
        | Some k => deref (index inner a);; mret (Some (<[Z.to_nat a := k]> inner, dinner))
        end
      else k ← deref (index inner a); b ← on_disk (disk_read k);
           mret (Some (inner, block_words b))) Q s.
Proof.
  intros Hs Hl Ha Hd Hfirst Hvalid HQ. destruct first.
  - wp_unbind. eapply wp_mono; [by apply wp_alloc; [|auto]|].
    intros r s' (k & -> & Hg & Ei). wp_unbind. apply index_ptr; [lia|]. wp_go.
    by apply (HQ dinner k [k]).
  - wp_unbind. apply index_ptr; [lia|]. wp_unbind. apply wp_fs_disk_read; [auto|]. wp_go.
    rewrite <-(list_insert_id inner (Z.to_nat a) (inner !!! Z.to_nat a)) at 1
      by (apply list_lookup_lookup_total_lt; lia).
    apply (HQ _ (inner !!! Z.to_nat a) []); [apply length_block_words|by apply grows_refl|done..].
Qed.

Lemma grow_double_loop_ok s i inner dinner t :
  let a := i_indir_idx i in
  let j := i_double_indir_idx i in
  let d := filesys_disk (fs_cache s) in
  I s → inodes s !! ip = Some i → length inner = 128%nat → length dinner = 128%nat →
  0 ≤ a < 128 → 0 ≤ j → 0 < t ≤ 128 - j →
  (j ≠ 0 → is_used (free_map s) (inner !!! Z.to_nat a) ∧ (inner !!! Z.to_nat a ∉ priv) ∧
     uncached (fs_cache s) (inner !!! Z.to_nat a) ∧
     ∀ q, 0 ≤ q < j → let w := word d (inner !!! Z.to_nat a) q in u32 w = w) →
  (if j =? 0 then 1 else 0) + t ≤ Z.of_nat (nfree (free_map s)) →
  wp (grow_double_loop alloc ip inner dinner a t) (λ r s', ∃ X xs ks dinner',
    grows (λ x, j ≠ 0 ∧ x = X) s (xs ++ ks) s' ∧
    (if j =? 0 then xs = [X] else xs = [] ∧ X = inner !!! Z.to_nat a) ∧
    Z.of_nat (length ks) = t ∧ length dinner' = 128%nat ∧
    inodes s' = <[ip := upd_i_double_indir_idx (if j + t =? 128 then 0 else j + t) i]> (inodes s) ∧
    (∀ q, 0 ≤ q < j → word (filesys_disk (fs_cache s')) X q = word d X q) ∧
    (∀ u k, ks !! u = Some k → word (filesys_disk (fs_cache s')) X (j + Z.of_nat u) = k) ∧
    (∀ k, k ∈ ks → view (fs_cache s') k = zero_sector) ∧
    r = Some (<[Z.to_nat a := X]> inner, dinner', if j + t =? 128 then a + 1 else a, 0)) s.
Proof.
  intros a j d Hs Hi Hin Hdin Ha Hj Ht Hleaf Hfree. unfold grow_double_loop.
  apply wp_loop_turn. unfold PTR_PER_BLOCK. rewrite (proj2 (Z.ltb_lt a 128)) by lia.
  rewrite (proj2 (Z.ltb_lt 0 t)) by lia. simpl negb. cbn iota. wp_unbind.
  eapply wp_inode_at; [done|]. fold a j. wp_unbind.
  apply (wp_leaf_ptr s a inner dinner (j =? 0)); [done|done|lia|done| | |].
  { intros E. rewrite E in Hfree. lia. }
  { intros E%Z.eqb_neq. eapply space_valid; [by apply al_space|]. by apply Hleaf. }
  intros arr X xs s1 Harr Hg1 Ei1 HX. cbn beta match. wp_unbind.
  assert (is_used (free_map s1) X ∧ (X ∉ priv) ∧ uncached (fs_cache s1) X) as (HuX & HpX & HcX).
  { destruct (Z.eqb_spec j 0).
    - subst xs. by destruct (grows_fresh _ _ _ _ X Hs Hg1 ltac:(left)) as (? & ? & _ & ? & _).
    - destruct HX as (-> & -> & -> & _). by destruct Hleaf as (? & ? & ? & _). }
  assert (Z.of_nat (length xs) = if j =? 0 then 1 else 0) as Hxs.
  { destruct (j =? 0); [by subst xs|by destruct HX as (-> & _)]. }
  pose proof (gr_count _ _ _ _ Hg1) as Hc1.
  eapply wp_mono; [apply (wp_fill_leaf s1 arr j t X); [apply Hg1|done|lia|lia|lia|done..|]|].
  { intros q Hq. destruct (Z.eqb_spec j 0); [lia|]. destruct HX as (_ & -> & -> & ->).
    split; [done|]. by apply Hleaf. }
  intros r s2 (ks & arr' & -> & Hlen & Harr' & Ei2 & Hwrite). rewrite Z.min_l in * by lia.
  rewrite Z.sub_diag. wp_unbind. rewrite Ei1 in Ei2.
  eapply wp_inode_set; [by rewrite Ei2|]. wp_unbind.
  apply index_ptr; [rewrite length_insert; lia|].
  rewrite list_lookup_total_insert_eq by lia. wp_unbind. apply Hwrite.
  intros s4 (Hg4 & Hold & Hnew & Hz) Ei4. rewrite Ei1 in Ei4. wp_unbind.
  eapply wp_inode_at; [rewrite Ei4; apply lookup_insert_eq|].
  assert (grows (λ x, j ≠ 0 ∧ x = X) s (xs ++ ks) s4) as Hg04.
  { eapply (grows_trans _ (λ _, False) (.= X)); [done|done|done|done|].
    intros x ->. destruct (Z.eqb_spec j 0); [right|by left]. subst xs. by left. }
  assert (∀ q, 0 ≤ q < j → word (filesys_disk (fs_cache s4)) X q = word d X q) as Hold'.
  { intros q Hq. rewrite Hold by done. destruct (Z.eqb_spec j 0); [lia|]. by destruct HX as (_ & -> & _). }
  assert (if j =? 0 then xs = [X] else xs = [] ∧ X = inner !!! Z.to_nat a) as HX'.
  { destruct (j =? 0); [done|]. by destruct HX as (? & _ & ? & _). }
  simpl i_double_indir_idx. destruct (Z.eqb_spec (j + t) 128) as [Ej|Ej].
  - wp_unbind. eapply wp_inode_set; [rewrite Ei4; apply lookup_insert_eq|]. wp_go.
    set (s5 := set_inodes _ s4).
    assert (grows (λ x, j ≠ 0 ∧ x = X) s (xs ++ ks) s5) as Hg05.
    { rewrite <-(app_nil_r (xs ++ ks)).
      eapply (grows_trans _ _ (λ _, False)); [done|exact Hg04|apply grows_inode, Hg4|done..]. }
    assert (inodes s5 = <[ip:=upd_i_double_indir_idx 0 i]> (inodes s)) as Ei5.
    { unfold s5. simpl. rewrite Ei4. apply insert_insert_eq. }
    apply wp_loop_turn. destruct (a + 1 <? 128); simpl negb; cbn iota; wp_go;
      by exists X, xs, ks, arr'.
  - wp_go. apply wp_loop_turn. destruct (a <? 128); simpl negb; cbn iota; wp_go;
      by exists X, xs, ks, arr'.
Qed.

(** ** The invariant of the loop

    The file started with the data sectors [bs0], all of them and its index
    sectors marked as used, and has been given the sectors [new] so far. *)
Section start.
Context (s0 : fs) (i0 : inode) (bs0 : list Z).
Context (Hs0 : I s0) (Hi0 : inodes s0 !! ip = Some i0).
Context (Hmap0 : mapped (fs_cache s0) (i_ptrs i0) bs0).
Context (Hown0 : ∀ x, occupies (fs_cache s0) (i_ptrs i0) bs0 x →
  is_used (free_map s0) x ∧ x ∉ priv).

(** The index sectors the file had. *)
Definition old_index (x : Z) : Prop :=
  occupies (fs_cache s0) (i_ptrs i0) bs0 x ∧ x ∉ bs0.

(** What growing does not change of an inode. *)
Definition meta (i : inode) :=
  (i_sector i, i_open_cnt i, i_removed i, i_deny_write_cnt i, i_length i,
   i_length_shown i, i_is_dir i, i_parent i, i_lock i).

Record growing (s : fs) (i : inode) (new : list Z) : Prop := {
  go_grows : ∃ ks, grows old_index s0 ks s ∧ new ⊆ ks ∧
    ∀ x, occupies (fs_cache s) (i_ptrs i) (bs0 ++ new) x →
      occupies (fs_cache s0) (i_ptrs i0) bs0 x ∨ x ∈ ks;
  go_inode : inodes s !! ip = Some i;
  go_meta : meta i = meta i0;
  go_u32 : Forall is_u32 (i_ptrs i0) → Forall is_u32 (i_ptrs i);
  go_mapped : mapped (fs_cache s) (i_ptrs i) (bs0 ++ new);
  go_zero : ∀ k, k ∈ new → view (fs_cache s) k = zero_sector }.

Lemma growing_inv s i new : growing s i new → I s.
Proof. intros [(ks & Hg & _)]. apply Hg. Qed.

Lemma growing_owned s i new x :
  growing s i new → occupies (fs_cache s) (i_ptrs i) (bs0 ++ new) x →
  is_used (free_map s) x ∧ x ∉ priv.
Proof.
  intros [(ks & Hg & _ & Hocc)] Hx. destruct (Hocc x Hx) as [Hx0|Hk].
  - destruct (Hown0 x Hx0). split; [|done]. apply (gr_used _ _ _ _ Hg). by left.
  - by destruct (grows_fresh _ _ _ _ _ Hs0 Hg Hk) as (? & ? & _).
Qed.

Lemma growing_start : growing s0 i0 [].
Proof.
  split; rewrite ?app_nil_r; try done; [|intros k Hk; by apply not_elem_of_nil in Hk].
  exists []. split_and!; [by apply grows_refl|done|by left].
Qed.

(** One step of the loop: the sectors [ks] were taken, [more] of them for
    data, and only index sectors of the file were written besides. *)
Lemma growing_step W s i new s' i' ks more :
  growing s i new → grows W s ks s' →
  (∀ x, W x → occupies (fs_cache s) (i_ptrs i) (bs0 ++ new) x ∧ x ∉ (bs0 ++ new)) →
  inodes s' !! ip = Some i' → meta i' = meta i → more ⊆ ks →
  (Forall is_u32 (i_ptrs i) → Forall is_u32 (i_ptrs i')) →
  mapped (fs_cache s') (i_ptrs i') ((bs0 ++ new) ++ more) →
  (∀ x, occupies (fs_cache s') (i_ptrs i') ((bs0 ++ new) ++ more) x →
     occupies (fs_cache s) (i_ptrs i) (bs0 ++ new) x ∨ x ∈ ks) →
  (∀ k, k ∈ more → view (fs_cache s') k = zero_sector) →
  growing s' i' (new ++ more).
Proof.
  intros Hgo Hg HW Hi' Hm' Hmore H32 Hmap' Hocc' Hz.
  pose proof Hgo as [(ks0 & Hg0 & Hnew & Hocc) _ Hmeta H320 _ Hz0].
  split; rewrite ?(app_assoc bs0); [|done|congruence|auto|done|].
  - exists (ks0 ++ ks). split_and!.
    + eapply (grows_trans _ old_index W); [done|exact Hg0|exact Hg|done|].
      intros x Hx. destruct (HW x Hx) as [Ho Hn]. apply not_elem_of_app in Hn as [? _].
      destruct (Hocc x Ho); [left; by split|by right].
    + apply list_subseteq_app_iff_l. split; [set_solver|set_solver].
    + intros x Hx. rewrite elem_of_app. destruct (Hocc' x Hx) as [Hx'|?]; [|by right; right].
      destruct (Hocc x Hx') as [?|?]; [by left|by right; left].
  - intros k [Hk|Hk]%elem_of_app; [|by apply Hz]. rewrite <-(Hz0 k Hk).
    destruct (growing_owned s i new k Hgo) as [Hu Hp]; [by apply mapped_occupies, elem_of_app; right|].
    apply (gr_view _ _ _ _ Hg); [done| |].
    + intros Hin. by eapply used_not_free, (gr_free _ _ _ _ Hg).
    + intros Hx. apply HW in Hx as [_ Hn]. apply Hn, elem_of_app. by right.
Qed.

(** An assignment to the inode that keeps its pointers. *)
Lemma growing_inode s i new i' :
  growing s i new → i_ptrs i' = i_ptrs i → meta i' = meta i →
  growing (set_inodes (<[ip:=i']> (inodes s)) s) i' new.
Proof.
  intros Hgo Ep Em. rewrite <-(app_nil_r new).
  pose proof (go_mapped _ _ _ Hgo) as Hm.
  eapply (growing_step (λ _, False) s i new _ i' [] []); rewrite ?Ep, ?app_nil_r; try done.
  - by apply grows_inode, (growing_inv _ _ _ Hgo).
  - apply lookup_insert_eq.
  - by left.
  - intros k Hk. by apply not_elem_of_nil in Hk.
Qed.

Lemma grow_direct_ok s i new t :
  growing s i new → (length (bs0 ++ new) < 4)%nat → (0 < nfree (free_map s))%nat →
  wp (grow_direct alloc ip (Z.of_nat (length (bs0 ++ new))) t)
    (λ r s', r = Some (t - 1, Z.of_nat (length (bs0 ++ new)) + 1) ∧ ∃ i' k,
       growing s' i' (new ++ [k]) ∧ nfree (free_map s) = S (nfree (free_map s')) ∧
       i_indir_idx i' = i_indir_idx i ∧ i_double_indir_idx i' = i_double_indir_idx i) s.
Proof.
  intros Hgo Hlt Hn. pose proof (growing_inv _ _ _ Hgo) as Hs.
  pose proof Hgo as [_ Hi _ _ Hmap _]. set (n := length (bs0 ++ new)) in *.
  unfold grow_direct. wp_unbind. eapply wp_mono; [by apply wp_alloc_ptr|].
  intros ok s1 (-> & k & Hg & Ei). rewrite Nat2Z.id in Ei. simpl negb. cbn iota. wp_unbind.
  set (i' := upd_i_ptrs _ i) in Ei.
  eapply wp_inode_at; [rewrite Ei; apply lookup_insert_eq|]. wp_unbind.
  assert (i_ptrs i' !!! n = k) as Ek.
  { apply list_lookup_total_insert_eq. rewrite (mp_ptrs _ _ _ Hmap). lia. }
  apply index_ptr; [simpl; rewrite length_insert, (mp_ptrs _ _ _ Hmap); lia|].
  rewrite Nat2Z.id, Ek. wp_unbind.
  destruct (grows_fresh _ _ _ _ k Hs Hg ltac:(left)) as (Hu & Hp & _ & Hunc & Hv).
  apply wp_write; [apply Hg|done..|]. intros s2 Es2 Hg2 Hv2. wp_go. split; [done|].
  exists i', k.
  assert (grows (λ _, False) s [k] s2) as Hg'.
  { change [k] with ([k] ++ []). eapply (grows_trans _ _ (.= k)); [done|exact Hg|done|done|].
    intros x ->. right. by left. }
  assert (k ∉ bs0 ++ new) as Hk.
  { intros Hin. destruct (growing_owned _ _ _ k Hgo) as [Hk _]; [by apply mapped_occupies|].
    eapply used_not_free, (gr_free _ _ _ _ Hg); [done|by left]. }
  destruct (mapped_direct (fs_cache s) (fs_cache s2) _ _ k Hmap Hlt) as [Hmap' Hocc];
    [apply Hg'|done|by rewrite Es2|].
  split_and!; [|rewrite (gr_count _ _ _ _ Hg'); simpl; lia|done..].
  eapply (growing_step _ s i new _ _ [k]); [done|exact Hg'|done| |done|done| |done| |].
  - rewrite Es2. simpl. rewrite Ei. apply lookup_insert_eq.
  - intros H32. apply Forall_insert; [done|]. by eapply valid_is_u32.
  - intros x Hx. destruct (Hocc x Hx) as [?| ->]; [left; by apply mapped_occupies|right; by left].
  - by intros ? ->%list_elem_of_singleton.
Qed.

(** Growth within one leaf: the sectors [xs] became index sectors and [more]
    data sectors, entered in leaf [g]. *)
Lemma leaf_step W s i new s' i' g j X xs more :
  let n := Z.of_nat (length (bs0 ++ new)) in
  let d := filesys_disk (fs_cache s) in
  let d' := filesys_disk (fs_cache s') in
  growing s i new → grows W s (xs ++ more) s' →
  n = 4 + 128 * g + j → 0 ≤ g → 0 ≤ j → j + Z.of_nat (length more) ≤ 128 →
  n + Z.of_nat (length more) ≤ MAX_BLOCKS →
  (∀ x, W x → x ∈ index_list d (i_ptrs i) n) →
  inodes s' !! ip = Some i' → meta i' = meta i → length (i_ptrs i') = 15%nat →
  (Forall is_u32 (i_ptrs i) → Forall is_u32 (i_ptrs i')) →
  (∀ b, (b < 4)%nat → i_ptrs i' !!! b = i_ptrs i !!! b) →
  (∀ h, 0 ≤ h < g → leaf d' (i_ptrs i') h = leaf d (i_ptrs i) h ∧ ¬ W (leaf d (i_ptrs i) h)) →
  leaf d' (i_ptrs i') g = X → (0 < j → leaf d (i_ptrs i) g = X) →
  (∀ q, 0 ≤ q < j → word d' X q = word d X q) →
  (∀ u k, more !! u = Some k → word d' X (j + Z.of_nat u) = k) →
  index_list d' (i_ptrs i') (n + Z.of_nat (length more)) ≡ₚ index_list d (i_ptrs i) n ++ xs →
  (∀ k, k ∈ more → view (fs_cache s') k = zero_sector) →
  growing s' i' (new ++ more).
Proof.
  intros n d d' Hgo Hg En Hg0 Hj Hjm Hmax HW Hi' Hmeta Hp' H32 Hdir Hleaves HX HXo Hold Hnew Hidx Hz.
  pose proof (growing_inv _ _ _ Hgo) as Hs. pose proof (go_mapped _ _ _ Hgo) as Hmap.
  assert (∀ x, x ∈ index_list d (i_ptrs i) n → occupies (fs_cache s) (i_ptrs i) (bs0 ++ new) x) as Hocc.
  { intros x Hx. apply elem_of_app. by right. }
  assert (∀ x, x ∈ more ++ xs → x ∈ xs ++ more) as Hcomm.
  { intros x. rewrite !elem_of_app. tauto. }
  assert (mapped (fs_cache s') (i_ptrs i') ((bs0 ++ new) ++ more) ∧
    ∀ x, occupies (fs_cache s') (i_ptrs i') ((bs0 ++ new) ++ more) x ↔
      occupies (fs_cache s) (i_ptrs i) (bs0 ++ new) x ∨ x ∈ more ∨ x ∈ xs) as [Hmap' Hocc'].
  { apply (mapped_fill (fs_cache s) (fs_cache s') (i_ptrs i) (i_ptrs i') _ more xs g X);
      fold n d d'; try done.
    - lia.
    - intros h Hh. destruct (Hleaves h Hh) as [-> HWh]. split; [done|]. intros q. unfold word.
      assert (leaf d (i_ptrs i) h ∈ index_list d (i_ptrs i) n) as Hin.
      { apply leaf_in_index. rewrite (leaves_eq n g j) by lia. destruct (j =? 0); lia. }
      destruct (growing_owned _ _ _ _ Hgo (Hocc _ Hin)).
      unfold d'. rewrite (grows_data W s (xs ++ more) s'); [done|done|done|by apply (mp_index _ _ _ Hmap)|done..].
    - split; [done|]. intros. apply HXo. lia.
    - intros q Hq. apply Hold. lia.
    - intros u k Hu. rewrite <-(Hnew u k Hu). f_equal. lia.
    - split; [rewrite Permutation_app_comm; apply Hg|]. intros x Hx%Hcomm.
      destruct (grows_fresh _ _ _ _ _ Hs Hg Hx) as (_ & _ & _ & _ & Hv). split; [|done].
      intros Ho. destruct (growing_owned _ _ _ _ Hgo Ho) as [Hu _].
      by eapply used_not_free, (gr_free _ _ _ _ Hg).
    - apply Hg.
    - intros x [Hx|Hx]%elem_of_app.
      + destruct (growing_owned _ _ _ _ Hgo (Hocc _ Hx)). apply (gr_unc _ _ _ _ Hg); [done|].
        by apply (mp_index _ _ _ Hmap).
      + eapply grows_fresh; [done|exact Hg|]. apply elem_of_app. by left. }
  eapply (growing_step W s i new s' i' (xs ++ more) more); try done.
  - intros x Hx. split; [by apply Hocc, HW|]. eapply mapped_index_not_data; [done|]. by apply HW.
  - intros x Hx. apply elem_of_app. by right.
  - intros x Hx. rewrite elem_of_app. apply Hocc' in Hx. tauto.
Qed.

(** The leaves the inode points to itself. *)
Lemma indirect_leaf_step s i new s' i' g j X xs more :
  let n := Z.of_nat (length (bs0 ++ new)) in
  let d := filesys_disk (fs_cache s) in
  let d' := filesys_disk (fs_cache s') in
  growing s i new → grows (λ x, j ≠ 0 ∧ x = X) s (xs ++ more) s' →
  n = 4 + 128 * g + j → 0 ≤ g < 10 → 0 ≤ j → j + Z.of_nat (length more) ≤ 128 →
  (0 < length more)%nat →
  (if j =? 0 then xs = [X] else xs = [] ∧ X = leaf d (i_ptrs i) g) →
  inodes s' !! ip = Some i' → meta i' = meta i →
  i_ptrs i' = <[Z.to_nat (4 + g) := X]> (i_ptrs i) →
  (∀ q, 0 ≤ q < j → word d' X q = word d X q) →
  (∀ u k, more !! u = Some k → word d' X (j + Z.of_nat u) = k) →
  (∀ k, k ∈ more → view (fs_cache s') k = zero_sector) →
  growing s' i' (new ++ more).
Proof.
  intros n d d' Hgo Hg En Hg0 Hj Hjm Hm HX Hi' Hmeta Ep Hold Hnew Hz.
  pose proof (go_mapped _ _ _ Hgo) as Hmap. pose proof (mp_ptrs _ _ _ Hmap) as Hp15.
  assert (∀ b, b ≠ Z.to_nat (4 + g) → i_ptrs i' !!! b = i_ptrs i !!! b) as Hne.
  { intros b Hb. rewrite Ep. by apply list_lookup_total_insert_ne. }
  assert (∀ h, 0 ≤ h < g → leaf d' (i_ptrs i') h = leaf d (i_ptrs i) h) as Hleaves.
  { intros h Hh. unfold leaf. rewrite !(proj2 (Z.ltb_lt _ _)) by lia. apply Hne. lia. }
  assert (leaf d' (i_ptrs i') g = X) as HleafX.
  { unfold leaf. rewrite (proj2 (Z.ltb_lt _ _)), Ep by lia. apply list_lookup_total_insert_eq. lia. }
  assert (j ≠ 0 → leaves n = g + 1 ∧ X = leaf d (i_ptrs i) g) as Hj0.
  { intros Hj0. rewrite (leaves_eq n g j) by lia. rewrite (proj2 (Z.eqb_neq _ _) Hj0) in *. by destruct HX. }
  eapply (leaf_step _ s i new s' i' g j X xs more); fold n d d'; try done; try lia.
  - unfold MAX_BLOCKS. lia.
  - intros x [Hn0 ->]. destruct (Hj0 Hn0) as [HL ->]. apply leaf_in_index. lia.
  - rewrite Ep. by rewrite length_insert.
  - intros H32. rewrite Ep. apply Forall_insert; [done|]. destruct (Z.eqb_spec j 0) as [Ej|Ej].
    + destruct (grows_fresh _ _ _ _ X (growing_inv _ _ _ Hgo) Hg) as (_ & _ & _ & _ & Hv);
        [rewrite HX; by left|]. by eapply valid_is_u32.
    + destruct (Hj0 Ej) as [HL ->]. eapply valid_is_u32, (mp_valid _ _ _ Hmap), elem_of_app.
      right. apply leaf_in_index. fold n. lia.
  - intros b Hb. apply Hne. lia.
  - intros h Hh. split; [by apply Hleaves|]. intros [Hn0 E].
    destruct (Hj0 Hn0) as [HL EX]. rewrite EX in E.
    apply (leaf_inj (fs_cache s) _ (bs0 ++ new)) in E; [lia|done|fold n; lia..].
  - destruct (Z.eqb_spec j 0) as [Ej|Ej].
    + rewrite En, HX, Ej, !Z.add_0_r.
      rewrite (index_list_first d d' (i_ptrs i) (i_ptrs i') g (proj1 Hg0) Hleaves _ X); [|done|lia..].
      by rewrite (proj2 (Z.eqb_neq g 10)) by lia.
    + destruct HX as [-> EX]. rewrite En, app_nil_r.
      rewrite (index_list_more d d' (i_ptrs i) (i_ptrs i') g Hleaves j);
        [done|lia|lia|lia|congruence|intros; lia].
Qed.

Lemma grow_indirect_ok s i new g t inner :
  let n := Z.of_nat (length (bs0 ++ new)) in
  let j := i_indir_idx i in
  let m := Z.min t (128 - j) in
  growing s i new → n = 4 + 128 * g + j → 0 ≤ g < 10 → 0 ≤ j < 128 → 0 < t →
  length inner = 128%nat →
  (if j =? 0 then 1 else 0) + m ≤ Z.of_nat (nfree (free_map s)) →
  wp (grow_indirect alloc ip (4 + g) t inner) (λ r s', ∃ i' more inner',
    growing s' i' (new ++ more) ∧ Z.of_nat (length more) = m ∧ length inner' = 128%nat ∧
    Z.of_nat (nfree (free_map s)) = Z.of_nat (nfree (free_map s')) + m + (if j =? 0 then 1 else 0) ∧
    i_double_indir_idx i' = i_double_indir_idx i ∧
    i_indir_idx i' = (if j + m =? 128 then 0 else j + m) ∧
    r = Some (t - m, if j + m =? 128 then 4 + g + 1 else 4 + g, inner')) s.
Proof.
  intros n j m Hgo En Hg Hj Ht Hin Hfree.
  pose proof (growing_inv _ _ _ Hgo) as Hs. pose proof Hgo as [_ Hi _ _ Hmap _].
  pose proof (mp_ptrs _ _ _ Hmap) as Hp15.
  set (d := filesys_disk (fs_cache s)). fold d in Hmap.
  assert (leaf d (i_ptrs i) g = i_ptrs i !!! Z.to_nat (4 + g)) as Eleaf.
  { unfold leaf. by rewrite (proj2 (Z.ltb_lt _ _)) by lia. }
  assert (0 < j → leaf d (i_ptrs i) g ∈ index_list d (i_ptrs i) n) as Hleafin.
  { intros. apply leaf_in_index. rewrite (leaves_eq n g j) by lia.
    rewrite (proj2 (Z.eqb_neq j 0)); lia. }
  unfold grow_indirect. wp_unbind. eapply wp_inode_at; [done|]. fold j. wp_unbind.
  eapply (wp_block_ptr s i (4 + g) (j =? 0)); [done..|lia|done| | |].
  { intros E. rewrite E in Hfree. lia. }
  { intros E%Z.eqb_neq. rewrite <-Eleaf. apply (mp_valid _ _ _ Hmap), elem_of_app. right.
    apply Hleafin. lia. }
  intros arr X xs s1 Harr Hg1 Ei1 HX. cbn beta match. wp_unbind.
  set (ptrs' := <[Z.to_nat (4 + g) := X]> (i_ptrs i)) in Ei1.
  set (i1 := upd_i_ptrs ptrs' i) in Ei1.
  eapply wp_inode_at; [rewrite Ei1; apply lookup_insert_eq|]. wp_unbind. simpl i_indir_idx. fold j.
  (* the leaf is the file's own and not cached *)
  assert (is_used (free_map s1) X ∧ (X ∉ priv) ∧ uncached (fs_cache s1) X) as (HuX & HpX & HcX).
  { destruct (Z.eqb_spec j 0).
    - subst xs. by destruct (grows_fresh _ _ _ _ X Hs Hg1 ltac:(left)) as (? & ? & _ & ? & _).
    - destruct HX as (-> & -> & -> & _). rewrite <-Eleaf.
      destruct (growing_owned _ _ _ (leaf d (i_ptrs i) g) Hgo) as [? ?].
      { apply elem_of_app. right. apply Hleafin. lia. }
      split_and!; [done..|]. apply (mp_index _ _ _ Hmap), Hleafin. lia. }
  assert (Z.of_nat (length xs) = if j =? 0 then 1 else 0) as Hxs.
  { destruct (j =? 0); [by subst xs|by destruct HX as (-> & _)]. }
  pose proof (gr_count _ _ _ _ Hg1) as Hc1.
  eapply wp_mono; [apply (wp_fill_leaf s1 arr j t X); [apply Hg1|done|lia|lia|fold m; lia|done..|]|].
  { intros q Hq. destruct (Z.eqb_spec j 0); [lia|]. destruct HX as (_ & -> & -> & ->).
    split; [done|]. rewrite <-Eleaf. apply (mapped_word (fs_cache s) _ (bs0 ++ new) g q); [done|lia..]. }
  intros r s2 (ks & arr' & -> & Hlen & Harr' & Ei2 & Hwrite). fold m in Hlen |- *. wp_unbind.
  rewrite Ei1 in Ei2. eapply wp_inode_set; [rewrite Ei2; apply lookup_insert_eq|]. wp_unbind.
  set (i2 := upd_i_indir_idx (j + m) i1).
  eapply wp_inode_at; [apply lookup_insert_eq|]. wp_unbind. simpl i_ptrs. simpl i_indir_idx.
  apply index_ptr; [unfold ptrs'; rewrite length_insert; lia|].
  assert (ptrs' !!! Z.to_nat (4 + g) = X) as -> by (apply list_lookup_total_insert_eq; lia).
  wp_unbind. apply Hwrite. intros s4 (Hg4 & Hold & Hnew & Hz) Ei4.
  rewrite Ei1, insert_insert_eq in Ei4.
  assert (grows (λ x, j ≠ 0 ∧ x = X) s (xs ++ ks) s4) as Hg04.
  { eapply (grows_trans _ (λ _, False) (.= X)); [done|done|done|done|].
    intros x ->. destruct (Z.eqb_spec j 0); [right|by left]. subst xs. by left. }
  assert (growing s4 i2 (new ++ ks)) as Hgo4.
  { eapply (indirect_leaf_step s i new s4 i2 g j X xs ks); fold n d; try done; try lia.
    - destruct (j =? 0); [done|]. destruct HX as (? & _ & -> & _). by rewrite Eleaf.
    - rewrite Ei4. apply lookup_insert_eq.
    - intros q Hq. rewrite Hold by done. destruct (Z.eqb_spec j 0); [lia|].
      by destruct HX as (_ & -> & _). }
  pose proof (gr_count _ _ _ _ Hg04) as Hc4. rewrite length_app in Hc4.
  unfold PTR_PER_BLOCK. destruct (Z.eqb_spec (j + m) 128).
  - wp_unbind. eapply wp_inode_set; [rewrite Ei4; apply lookup_insert_eq|]. wp_go.
    exists (upd_i_indir_idx 0 i2), ks, arr'. simpl free_map.
    split_and!; [by apply (growing_inode _ i2)|done|done|lia|done..].
  - wp_go. exists i2, ks, arr'. split_and!; [done|done|done|lia|done..].
Qed.

(** The leaves of the second level: [R] is the block that points to them. *)
Lemma double_leaf_step s i new s' i' a j X R xs more (first : bool) :
  let n := Z.of_nat (length (bs0 ++ new)) in
  let d := filesys_disk (fs_cache s) in
  let d' := filesys_disk (fs_cache s') in
  growing s i new →
  grows (λ x, (j ≠ 0 ∧ x = X) ∨ (first = false ∧ x = R)) s (xs ++ more) s' →
  n = 1284 + 128 * a + j → 0 ≤ a < 128 → 0 ≤ j → j + Z.of_nat (length more) ≤ 128 →
  (0 < length more)%nat →
  first = (a =? 0) && (j =? 0) →
  (if first then xs = [R; X] else R = i_ptrs i !!! 14%nat ∧
     if j =? 0 then xs = [X] else xs = [] ∧ X = leaf d (i_ptrs i) (10 + a)) →
  inodes s' !! ip = Some i' → meta i' = meta i →
  i_ptrs i' = <[14%nat := R]> (i_ptrs i) →
  (∀ q, 0 ≤ q < a → word d' R q = word d R q) → word d' R a = X →
  (∀ q, 0 ≤ q < j → word d' X q = word d X q) →
  (∀ u k, more !! u = Some k → word d' X (j + Z.of_nat u) = k) →
  (∀ k, k ∈ more → view (fs_cache s') k = zero_sector) →
  growing s' i' (new ++ more).
Proof.
  intros n d d' Hgo Hg En Ha Hj Hjm Hm Hfirst HX Hi' Hmeta Ep HRold HRX Hold Hnew Hz.
  pose proof (go_mapped _ _ _ Hgo) as Hmap. pose proof (mp_ptrs _ _ _ Hmap) as Hp15.
  assert (∀ b, b ≠ 14%nat → i_ptrs i' !!! b = i_ptrs i !!! b) as Hne.
  { intros b Hb. rewrite Ep. by apply list_lookup_total_insert_ne. }
  assert (i_ptrs i' !!! 14%nat = R) as ER.
  { rewrite Ep. apply list_lookup_total_insert_eq. lia. }
  assert (leaves n = if j =? 0 then 10 + a else 10 + a + 1) as HL.
  { rewrite (leaves_eq n (10 + a) j) by lia. done. }
  assert (first = false → R = i_ptrs i !!! 14%nat ∧ 10 < leaves n) as HR.
  { intros E. rewrite E in *. split; [apply HX|]. rewrite HL.
    destruct (Z.eqb_spec a 0), (Z.eqb_spec j 0); simpl in Hfirst; try done; lia. }
  assert (j ≠ 0 → X = leaf d (i_ptrs i) (10 + a) ∧ 10 + a < leaves n) as HXl.
  { intros E. rewrite (proj2 (Z.eqb_neq _ _) E), andb_false_r in *. rewrite Hfirst in HX.
    destruct HX as (_ & _ & ?). split; [done|]. lia. }
  assert (∀ h, 0 ≤ h < 10 + a → leaf d' (i_ptrs i') h = leaf d (i_ptrs i) h) as Hleaves.
  { intros h Hh. unfold leaf. destruct (Z.ltb_spec h 10); [apply Hne; lia|]. rewrite ER.
    rewrite HRold by lia. destruct HR as [-> _]; [|done]. rewrite Hfirst.
    by rewrite (proj2 (Z.eqb_neq a 0)) by lia. }
  assert (leaf d' (i_ptrs i') (10 + a) = X) as HleafX.
  { unfold leaf. rewrite (proj2 (Z.ltb_ge _ _)), ER by lia. rewrite <-HRX. f_equal. lia. }
  eapply (leaf_step _ s i new s' i' (10 + a) j X xs more); fold n d d'; try done; try lia.
  - unfold MAX_BLOCKS. lia.
  - intros x [[Hn0 ->]|[Hf ->]].
    + destruct (HXl Hn0) as [-> ?]. apply leaf_in_index. lia.
    + destruct (HR Hf) as [-> ?]. by apply root_in_index.
  - rewrite Ep. by rewrite length_insert.
  - intros H32. rewrite Ep. apply Forall_insert; [done|]. destruct first eqn:Ef.
    + destruct (grows_fresh _ _ _ _ R (growing_inv _ _ _ Hgo) Hg) as (_ & _ & _ & _ & Hv);
        [rewrite HX; by left|]. by eapply valid_is_u32.
    + destruct HR as [-> ?]; [done|]. eapply valid_is_u32, (mp_valid _ _ _ Hmap), elem_of_app.
      right. by apply root_in_index.
  - intros b Hb. apply Hne. lia.
  - intros h Hh. split; [by apply Hleaves|].
    assert (h < leaves n) by (destruct (Z.eqb_spec j 0); lia). intros [[Hn0 E]|[Hf E]].
    + destruct (HXl Hn0) as [EX ?]. rewrite EX in E.
      apply (leaf_inj (fs_cache s) _ (bs0 ++ new)) in E; [lia|done|fold n; lia..].
    + destruct (HR Hf) as [ER' ?]. rewrite ER' in E. revert E.
      apply (leaf_not_root (fs_cache s) _ (bs0 ++ new)); [done|fold n; lia..].
  - destruct (Z.eqb_spec j 0) as [Ej|Ej].
    + assert (n = 4 + 128 * (10 + a)) as En' by lia. rewrite En'.
      rewrite (index_list_first d d' (i_ptrs i) (i_ptrs i') (10 + a) ltac:(lia) Hleaves _ X);
        [|done| |lia].
      * f_equiv. destruct (Z.eqb_spec a 0) as [->|Ha0].
        -- rewrite Hfirst in HX. simpl in HX. by rewrite HX, ER.
        -- rewrite (proj2 (Z.eqb_neq (10 + a) 10)) by lia. rewrite Hfirst in HX. simpl in HX.
           by destruct HX as [_ ->].
      * intros Ha10. rewrite ER. apply HR. rewrite Hfirst. by rewrite (proj2 (Z.eqb_neq a 0)) by lia.
    + assert (first = false) as Hf by (by rewrite Hfirst, andb_false_r).
      rewrite Hf in HX. destruct HX as (HRe & -> & EX).
      assert (n = 4 + 128 * (10 + a) + j) as En' by lia. rewrite En', app_nil_r.
      rewrite (index_list_more d d' (i_ptrs i) (i_ptrs i') (10 + a) Hleaves j);
        [done|lia|lia|lia|congruence|congruence].
Qed.

Lemma grow_double_ok s i new t inner dinner :
  let n := Z.of_nat (length (bs0 ++ new)) in
  let a := i_indir_idx i in
  let j := i_double_indir_idx i in
  let first := (a =? 0) && (j =? 0) in
  let a' := if j + t =? 128 then a + 1 else a in
  growing s i new → n = 1284 + 128 * a + j → 0 ≤ a < 128 → 0 ≤ j < 128 → 0 < t ≤ 128 - j →
  length inner = 128%nat → length dinner = 128%nat →
  (if first then 1 else 0) + (if j =? 0 then 1 else 0) + t ≤ Z.of_nat (nfree (free_map s)) →
  wp (grow_double alloc ip 14 t inner dinner) (λ r s', ∃ i' more inner' dinner',
    growing s' i' (new ++ more) ∧ Z.of_nat (length more) = t ∧
    length inner' = 128%nat ∧ length dinner' = 128%nat ∧
    i_double_indir_idx i' = (if j + t =? 128 then 0 else j + t) ∧
    i_indir_idx i' = (if a' =? 128 then 0 else a') ∧
    r = Some (0, if a' =? 128 then 15 else 14, inner', dinner')) s.
Proof.
  intros n a j first a' Hgo En Ha Hj Ht Hin Hdin Hfree.
  pose proof (growing_inv _ _ _ Hgo) as Hs. pose proof Hgo as [_ Hi _ _ Hmap _].
  pose proof (mp_ptrs _ _ _ Hmap) as Hp15. set (d := filesys_disk (fs_cache s)).
  assert (leaves n = if j =? 0 then 10 + a else 10 + a + 1) as HL.
  { rewrite (leaves_eq n (10 + a) j) by lia. done. }
  assert (first = false → 10 < leaves n) as HRL.
  { unfold first. rewrite HL. destruct (Z.eqb_spec a 0), (Z.eqb_spec j 0); simpl; try done; lia. }
  assert (∀ x, x ∈ index_list d (i_ptrs i) n →
    valid_sector d x ∧ is_used (free_map s) x ∧ (x ∉ priv) ∧ uncached (fs_cache s) x) as Hidx.
  { intros x Hx. destruct (growing_owned _ _ _ x Hgo) as [? ?]; [apply elem_of_app; by right|].
    split_and!; [|done..|by apply (mp_index _ _ _ Hmap)].
    apply (mp_valid _ _ _ Hmap), elem_of_app. by right. }
  unfold grow_double. wp_unbind. eapply wp_inode_at; [done|]. fold a j first. wp_unbind.
  assert (0 ≤ (if j =? 0 then 1 else 0)) by (destruct (j =? 0); lia).
  eapply (wp_block_ptr s i 14 first); [done..|lia|done| | |].
  { intros E. rewrite E in Hfree. lia. }
  { intros E. by apply Hidx, root_in_index, HRL. }
  intros arr R xs1 s1 Harr Hg1 Ei1 HR. cbn beta match. wp_unbind.
  set (ptrs' := <[Z.to_nat 14 := R]> (i_ptrs i)) in Ei1. set (i1 := upd_i_ptrs ptrs' i) in Ei1.
  eapply wp_inode_at; [rewrite Ei1; apply lookup_insert_eq|]. wp_unbind.
  assert (Z.of_nat (length xs1) = if first then 1 else 0) as Hxs1.
  { destruct first; [by subst xs1|by destruct HR as (-> & _)]. }
  pose proof (gr_count _ _ _ _ Hg1) as Hc1.
  assert (first = false → ∀ q, arr !!! Z.to_nat q = word d R q) as Harrw.
  { intros E q. rewrite E in HR. by destruct HR as (_ & _ & _ & ->). }
  assert (j ≠ 0 → first = false ∧ arr !!! Z.to_nat a = leaf d (i_ptrs i) (10 + a) ∧
    10 + a < leaves n ∧ s1 = s) as Hjl.
  { intros Hj0. assert (first = false) as E.
    { unfold first. by rewrite (proj2 (Z.eqb_neq _ _) Hj0), andb_false_r. }
    rewrite (Harrw E). rewrite E in HR. destruct HR as (_ & ? & -> & _). split_and!; try done.
    - unfold leaf. rewrite (proj2 (Z.ltb_ge _ _)) by lia. f_equal. lia.
    - rewrite HL. rewrite (proj2 (Z.eqb_neq _ _) Hj0). lia. }
  eapply wp_mono; [apply (grow_double_loop_ok s1 i1 arr dinner t); simpl; fold a j;
    [apply Hg1|rewrite Ei1; apply lookup_insert_eq|done|done|lia|lia|lia| |lia]|].
  { intros Hj0. destruct (Hjl Hj0) as (_ & -> & ? & ->).
    destruct (Hidx (leaf d (i_ptrs i) (10 + a))) as (_ & ? & ? & ?); [apply leaf_in_index; lia|].
    split_and!; [done..|]. intros q Hq.
    apply (mapped_word (fs_cache s) _ (bs0 ++ new) (10 + a) q); [done|lia..]. }
  intros r s2 (X & xs2 & ks & dinner' & Hg2 & HX & Hlen & Hdin' & Ei2 & Hold & Hnew & Hz & ->).
  cbn beta match. wp_unbind. rewrite Ei1, insert_insert_eq in Ei2.
  change (i_double_indir_idx i1) with j in *. change (i_indir_idx i1) with a in *. fold a'.
  eapply wp_inode_set; [rewrite Ei2; apply lookup_insert_eq|]. wp_unbind.
  eapply wp_inode_at; [apply lookup_insert_eq|]. wp_unbind. simpl i_ptrs. simpl i_indir_idx.
  apply index_ptr; [unfold ptrs'; rewrite length_insert; lia|].
  assert (ptrs' !!! Z.to_nat 14 = R) as -> by (apply list_lookup_total_insert_eq; lia).
  wp_unbind. set (s3 := set_inodes _ s2).
  assert (grows (λ _, False) s2 [] s3) as Hg3 by (apply grows_inode, Hg2).
  assert (is_used (free_map s1) R ∧ (R ∉ priv) ∧ uncached (fs_cache s1) R) as (HuR & HpR & HcR).
  { destruct first.
    - subst xs1. by destruct (grows_fresh _ _ _ _ R Hs Hg1 ltac:(left)) as (? & ? & _ & ? & _).
    - destruct HR as (_ & -> & -> & _). by apply Hidx, root_in_index, HRL. }
  assert (∀ k, k ∈ xs2 ++ ks → k ≠ R) as HneR.
  { intros k Hk ->. by eapply used_not_free, (gr_free _ _ _ _ Hg2). }
  assert (X ≠ R ∧ u32 X = X) as [HXR HXu].
  { destruct (Z.eqb_spec j 0) as [E|Hj0].
    - assert (X ∈ xs2 ++ ks) as Hin2 by (subst xs2; by left). split; [by apply HneR|].
      destruct (grows_fresh _ _ _ _ X (gr_inv _ _ _ _ Hg1) Hg2 Hin2) as (_ & _ & _ & _ & Hv).
      by eapply valid_u32.
    - destruct (Hjl Hj0) as (Ef & El & HLa & _). destruct HX as [_ ->]. rewrite El.
      rewrite Ef in HR. destruct HR as (_ & _ & -> & _). split.
      + apply (leaf_not_root (fs_cache s) _ (bs0 ++ new)); [done|fold n; lia..].
      + eapply valid_u32, Hidx, leaf_in_index. lia. }
  assert (length (<[Z.to_nat a := X]> arr) = 128%nat) as Hins by by rewrite length_insert.
  apply wp_write; [apply Hg3|apply (gr_used _ _ _ _ Hg2); by left|done
    |by apply (gr_unc _ _ _ _ Hg2)|rewrite length_words_to_bytes; lia|].
  intros s4 Es4 Hg4 _. set (i2 := upd_i_indir_idx a' _) in *.
  assert (grows (λ x, (j ≠ 0 ∧ x = X) ∨ (first = false ∧ x = R)) s ((xs1 ++ xs2) ++ ks) s4) as Hg04.
  { rewrite <-(app_nil_r (_ ++ ks)).
    eapply (grows_trans _ (λ x, j ≠ 0 ∧ x = X) (.= R)); [done| |exact Hg4|auto|].
    - rewrite <-app_assoc. rewrite <-(app_nil_r (xs2 ++ ks)), app_assoc.
      eapply (grows_trans _ (λ x, j ≠ 0 ∧ x = X) (λ _, False)); [done| |exact Hg3|done|done].
      by eapply (grows_trans _ (λ _, False)); [done|exact Hg1|exact Hg2|done|auto].
    - intros x ->. destruct first; [|by left; right]. right. subst xs1.
      apply elem_of_app. left. by left. }
  assert (growing s4 i2 (new ++ ks)) as Hgo4.
  { eapply (double_leaf_step s i new s4 i2 a j X R (xs1 ++ xs2) ks first); fold n d; try done; try lia.
    - destruct (Z.eqb_spec j 0) as [E|Hj0].
      + subst xs2. destruct first; [by subst xs1|]. by destruct HR as (-> & _ & ? & _).
      + destruct (Hjl Hj0) as (Ef & El & _). rewrite Ef in *. destruct HX as [-> ->].
        by destruct HR as (-> & _ & ? & _).
    - rewrite Es4. apply lookup_insert_eq.
    - intros q Hq. assert (first = false) as Ef.
      { unfold first. by rewrite (proj2 (Z.eqb_neq a 0)) by lia. }
      rewrite Es4. simpl fs_cache. rewrite word_put by (try done; lia).
      rewrite list_lookup_total_insert_ne by lia. rewrite (Harrw Ef).
      rewrite Ef in HR. destruct HR as (_ & _ & -> & _).
      assert (word d (i_ptrs i !!! Z.to_nat 14) q = leaf d (i_ptrs i) (10 + q)) as ->.
      { unfold leaf. rewrite (proj2 (Z.ltb_ge _ _)) by lia. f_equal. lia. }
      eapply valid_u32, Hidx, leaf_in_index. rewrite HL. destruct (j =? 0); lia.
    - rewrite Es4. simpl fs_cache. rewrite word_put by (try done; lia).
      by rewrite list_lookup_total_insert_eq by lia.
    - intros q Hq. rewrite Es4. simpl fs_cache. rewrite word_put_ne by done.
      etrans; [by apply Hold|]. by destruct Hjl as (_ & _ & _ & ->); [lia|].
    - intros u k Hu. rewrite Es4. simpl fs_cache. rewrite word_put_ne by done. by apply Hnew.
    - intros k Hk. rewrite <-(Hz k Hk).
      destruct (grows_fresh _ _ _ _ k (gr_inv _ _ _ _ Hg1) Hg2) as (_ & ? & _);
        [apply elem_of_app; by right|].
      rewrite (gr_view _ _ _ _ Hg4); [done|done|apply not_elem_of_nil|].
      apply HneR, elem_of_app. by right. }
  unfold PTR_PER_BLOCK. destruct (Z.eqb_spec a' 128).
  - wp_unbind. eapply wp_inode_set; [rewrite Es4; apply lookup_insert_eq|]. wp_go.
    exists (upd_i_indir_idx 0 i2), ks, (<[Z.to_nat a := X]> arr), dinner'.
    split_and!; [by apply (growing_inode _ i2)|done..].
  - wp_go. by exists i2, ks, (<[Z.to_nat a := X]> arr), dinner'.
Qed.

(** ** The loop *)
Definition turns (n t : Z) : Z :=
  if t =? 0 then 0 else if n <? 4 then 16 - n else if n <? 1284 then 11 - (n - 4) / 128 else 1.

Lemma turns_bound n t : 0 ≤ n → 0 ≤ turns n t < 20.
Proof.
  intros. unfold turns. destruct (t =? 0); [lia|]. destruct (Z.ltb_spec n 4); [lia|].
  destruct (Z.ltb_spec n 1284); [|lia]. destruct (slot_spec n); [lia|]. lia.
Qed.

(** The state of the loop between turns. *)
Definition at_blocks (n n' : Z) (idx t : Z) (inner dinner : list Z) (s : fs) (i : inode)
    (new : list Z) : Prop :=
  growing s i new ∧ n = Z.of_nat (length (bs0 ++ new)) ∧ n ≤ n' ≤ MAX_BLOCKS ∧ t = n' - n ∧
  contained n n' ∧ total n' - total n ≤ Z.of_nat (nfree (free_map s)) ∧
  cursor n = (idx, i_indir_idx i, i_double_indir_idx i) ∧
  length inner = 128%nat ∧ length dinner = 128%nat.

Definition next_turn (n n' : Z) (r : option (Z * Z * list Z * list Z)) (s : fs) : Prop :=
  ∃ n1 idx t inner dinner i new, r = Some (idx, t, inner, dinner) ∧
    at_blocks n1 n' idx t inner dinner s i new ∧ 0 ≤ turns n1 t < turns n (n' - n).

Lemma app_snoc_length (l1 l2 l3 : list Z) :
  Z.of_nat (length (l1 ++ l2 ++ l3)) = Z.of_nat (length (l1 ++ l2)) + Z.of_nat (length l3).
Proof. rewrite !length_app. lia. Qed.

Lemma turn_direct n n' idx t inner dinner s i new :
  at_blocks n n' idx t inner dinner s i new → 0 < t → n < 4 →
  wp (grow_direct alloc ip idx t)
    (λ r s', next_turn n n' (r ← r; Some (r.2, r.1, inner, dinner)) s') s.
Proof.
  intros (Hgo & En & Hn' & -> & Hcon & Hfree & Hcur & ? & ?) Ht Hn4.
  rewrite cursor_direct in Hcur by done. simplify_eq Hcur. intros <- Ei Ed.
  pose proof (total_direct n ltac:(lia)). pose proof (total_mono (n + 1) n' ltac:(lia)).
  rewrite En. eapply wp_mono; [apply (grow_direct_ok s i new); [done|lia|lia]|].
  intros r s' (-> & i' & k & Hgo' & Hc & Ei' & Ed'). rewrite <-En. simpl.
  exists (n + 1), (n + 1), (n' - n - 1), inner, dinner, i', (new ++ [k]). split; [done|]. split.
  - split_and!; try done; try lia.
    + rewrite app_snoc_length. simpl. lia.
    + eapply contained_step; [done|lia].
    + rewrite Ei', Ed', <-Ei, <-Ed. destruct (Z.lt_ge_cases (n + 1) 4); [by apply cursor_direct|].
      replace (n + 1) with 4 by lia. done.
  - unfold turns. rewrite (proj2 (Z.eqb_neq (n' - n) 0)), (proj2 (Z.ltb_lt n 4)) by lia.
    destruct (Z.eqb_spec (n' - n - 1) 0); [lia|]. destruct (Z.ltb_spec (n + 1) 4); [lia|].
    assert (n = 3) as -> by lia. vm_compute. by split.
Qed.

Lemma turn_indirect n n' idx t inner dinner s i new :
  at_blocks n n' idx t inner dinner s i new → 0 < t → 4 ≤ n < 1284 →
  wp (grow_indirect alloc ip idx t inner)
    (λ r s', next_turn n n' (r ← r; Some (r.1.2, r.1.1, r.2, dinner)) s') s.
Proof.
  intros (Hgo & En & Hn' & -> & Hcon & Hfree & Hcur & ? & ?) Ht Hn4.
  destruct (slot_spec n) as (Hg & Hj & Es); [lia|].
  set (g := (n - 4) / 128) in *. set (j := (n - 4) mod 128) in *.
  assert (g < 10) by lia.
  rewrite (cursor_indirect n g j) in Hcur by lia. simplify_eq Hcur. intros <- Ei Ed.
  set (m := Z.min (n' - n) (128 - j)).
  pose proof (total_leaf n g j m Es Hj ltac:(lia) ltac:(lia)) as Htot.
  rewrite (proj2 (Z.eqb_neq g 10)) in Htot by lia. simpl in Htot.
  pose proof (total_mono (n + m) n' ltac:(lia)).
  eapply wp_mono; [apply (grow_indirect_ok s i new g (n' - n) inner); rewrite <-?En, <-?Ei; fold m;
    [done|lia..|done|lia]|].
  rewrite <-Ei. fold m.
  intros r s' (i' & more & inner' & Hgo' & Hlen & Hin' & Hc & Ed' & Ei' & ->). simpl.
  exists (n + m), (if j + m =? 128 then 4 + g + 1 else 4 + g), (n' - n - m), inner', dinner, i', (new ++ more).
  split; [done|]. split.
  - split_and!; try done; try lia.
    + rewrite app_snoc_length. lia.
    + eapply contained_step; [done|lia].
    + rewrite Ei', Ed', <-Ed. destruct (Z.eqb_spec (j + m) 128).
      * destruct (Z.lt_ge_cases (g + 1) 10); [rewrite (cursor_indirect _ (g + 1) 0) by lia; do 2 f_equal; lia|].
        rewrite (cursor_double _ 0 0) by lia. do 2 f_equal. lia.
      * by rewrite (cursor_indirect _ g (j + m)) by lia.
  - unfold turns. rewrite (proj2 (Z.eqb_neq (n' - n) 0)), (proj2 (Z.ltb_ge n 4)),
      (proj2 (Z.ltb_lt n 1284)) by lia. fold g.
    destruct (Z.eqb_spec (n' - n - m) 0); [lia|]. rewrite (proj2 (Z.ltb_ge _ 4)) by lia.
    destruct (slot_unique (n + m) (g + 1) 0) as [-> _]; [lia..|].
    destruct (n + m <? 1284); lia.
Qed.

Lemma turn_double n n' idx t inner dinner s i new :
  at_blocks n n' idx t inner dinner s i new → 0 < t → 1284 ≤ n →
  wp (grow_double alloc ip idx t inner dinner)
    (λ r s', next_turn n n' (r ← r; Some (r.1.1.2, r.1.1.1, r.1.2, r.2)) s') s.
Proof.
  intros (Hgo & En & Hn' & -> & Hcon & Hfree & Hcur & ? & ?) Ht Hn4. unfold MAX_BLOCKS in Hn'.
  destruct (slot_spec n) as (Hg & Hj & Es); [lia|].
  set (g := (n - 4) / 128) in *. set (j := (n - 4) mod 128) in *.
  rewrite (cursor_double n (g - 10) j) in Hcur by lia. simplify_eq Hcur. intros <- Ei Ed.
  pose proof (contained_double n n' (g - 10) j Hcon ltac:(lia) ltac:(lia) Hj) as Hroom.
  pose proof (total_leaf n g j (n' - n) Es Hj ltac:(lia) ltac:(lia)) as Htot.
  replace (n + (n' - n)) with n' in Htot by lia.
  assert ((g =? 10) = (g - 10 =? 0)) as Eg.
  { destruct (Z.eqb_spec g 10), (Z.eqb_spec (g - 10) 0); try done; lia. }
  rewrite Eg in Htot.
  eapply wp_mono; [apply (grow_double_ok s i new (n' - n) inner dinner); rewrite <-?En, <-?Ei, <-?Ed;
    [done|lia..|done|done|lia]|].
  rewrite <-Ei, <-Ed.
  intros r s' (i' & more & inner' & dinner' & Hgo' & Hlen & Hin' & Hdin' & Ed' & Ei' & ->). simpl.
  eexists n', _, 0, inner', dinner', i', (new ++ more). split; [done|]. split.
  - split_and!; try done; try lia; try (unfold MAX_BLOCKS; lia).
    + rewrite app_snoc_length. lia.
    + eapply contained_step; [done|lia].
    + rewrite Ei', Ed'. destruct (Z.eqb_spec (j + (n' - n)) 128).
      * destruct (Z.eqb_spec (g - 10 + 1) 128).
        -- replace n' with MAX_BLOCKS by (unfold MAX_BLOCKS; lia). done.
        -- by rewrite (cursor_double _ (g - 10 + 1) 0) by lia.
      * rewrite (proj2 (Z.eqb_neq (g - 10) 128)) by lia.
        by rewrite (cursor_double _ (g - 10) (j + (n' - n))) by lia.
  - unfold turns. simpl. rewrite (proj2 (Z.eqb_neq (n' - n) 0)), !(proj2 (Z.ltb_ge n _)) by lia. lia.
Qed.

Lemma grow_loop_ok n n' idx t inner dinner s i new :
  at_blocks n n' idx t inner dinner s i new →
  wp (grow_loop alloc ip idx t inner dinner) (λ r s', ∃ i' new' idx',
    r = Some idx' ∧ growing s' i' new' ∧ Z.of_nat (length (bs0 ++ new')) = n' ∧
    cursor n' = (idx', i_indir_idx i', i_double_indir_idx i')) s.
Proof.
  intros Hat0. unfold grow_loop.
  eapply (wp_loop (λ q '(idx, t, inner, dinner) s, ∃ n i new,
    at_blocks n n' idx t inner dinner s i new ∧ Z.of_nat q = turns n t)).
  2: { exists n, i, new. split; [done|]. instantiate (1 := Z.to_nat (turns n t)).
       destruct Hat0 as (_ & ? & ? & -> & _). apply Z2Nat.id. by apply turns_bound; lia. }
  2: { destruct Hat0 as (_ & ? & ? & -> & _). destruct (turns_bound n (n' - n)); lia. }
  intros q [[[idx1 t1] in1] di1] s1 (n1 & i1 & new1 & Hat & Hq).
  pose proof Hat as (Hgo & En & Hn' & Et & _ & _ & Hcur & _).
  destruct (Z.ltb_spec 0 t1) as [Ht|Ht]; simpl negb; cbn iota.
  2: { assert (n1 = n') as <- by lia. destruct (idx1 <? NUM_PTRS); wp_go; by exists i1, new1, idx1. }
  assert (∀ r s2, next_turn n1 n' r s2 → ∃ idx2 t2 in2 di2 q2, r = Some (idx2, t2, in2, di2) ∧
    (q2 < q)%nat ∧ ∃ n2 i2 new2, at_blocks n2 n' idx2 t2 in2 di2 s2 i2 new2 ∧
      Z.of_nat q2 = turns n2 t2) as Hnext.
  { intros r s2 (n2 & idx2 & t2 & in2 & di2 & i2 & new2 & -> & Hat2 & Hlt).
    exists idx2, t2, in2, di2, (Z.to_nat (turns n2 t2)). rewrite <-Et in Hlt.
    split_and!; [done|lia|]. exists n2, i2, new2. split; [done|]. lia. }
  unfold NUM_PTRS, NUM_PTRS_DIR, NUM_PTRS_INDIR, MAX_BLOCKS in *.
  pose proof (cursor_cases n1) as Hcases. rewrite Hcur in Hcases. simpl in Hcases.
  destruct Hcases as [(H4 & Ec)|[(H4 & Ec)|(H4 & Ec)]]; [unfold MAX_BLOCKS; lia|..].
  - rewrite !(proj2 (Z.ltb_lt idx1 _)) by lia. wp_unbind.
    eapply wp_mono; [by eapply turn_direct|]. intros [[t2 idx2]|] s2 Hn; [|by destruct Hn as (?&?&?&?&?&?&?&?&_)].
    apply Hnext in Hn as (? & ? & ? & ? & q2 & [= <- <- <- <-] & ? & Hat2). wp_go. by exists q2.
  - rewrite (proj2 (Z.ltb_lt idx1 15)), (proj2 (Z.ltb_ge idx1 4)), (proj2 (Z.ltb_lt idx1 _)) by lia.
    wp_unbind. eapply wp_mono; [by eapply turn_indirect|].
    intros [[[t2 idx2] in2]|] s2 Hn; [|by destruct Hn as (?&?&?&?&?&?&?&?&_)].
    apply Hnext in Hn as (? & ? & ? & ? & q2 & [= <- <- <- <-] & ? & Hat2). wp_go. by exists q2.
  - rewrite (proj2 (Z.ltb_lt idx1 15)), (proj2 (Z.ltb_ge idx1 4)), (proj2 (Z.ltb_ge idx1 _)) by lia.
    wp_unbind. eapply wp_mono; [by eapply turn_double|].
    intros [[[[t2 idx2] in2] di2]|] s2 Hn; [|by destruct Hn as (?&?&?&?&?&?&?&?&_)].
    apply Hnext in Hn as (? & ? & ? & ? & q2 & [= <- <- <- <-] & ? & Hat2). wp_go. by exists q2.
Qed.

(** ** [inode_grow] *)
Context (uninit : fs → nat → list Z) (Hjunk : ∀ s n, length (uninit s n) = n).

Lemma inode_grow_ok len n' :
  let n := Z.of_nat (length bs0) in
  n = bytes_to_sectors (i_length i0) → n' = bytes_to_sectors len →
  cursor n = (i_ptr_idx i0, i_indir_idx i0, i_double_indir_idx i0) →
  n ≤ n' ≤ MAX_BLOCKS → contained n n' →
  total n' - total n ≤ Z.of_nat (nfree (free_map s0)) →
  wp (inode_grow uninit alloc ip len) (λ r s', r = true ∧ ∃ i' new,
    growing s' i' new ∧ Z.of_nat (length (bs0 ++ new)) = n' ∧
    cursor n' = (i_ptr_idx i', i_indir_idx i', i_double_indir_idx i')) s0.
Proof.
  intros n En En' Hcur Hn Hcon Hfree. unfold inode_grow. wp_go.
  eapply wp_inode_at; [done|]. wp_unbind. rewrite <-En, <-En'.
  rewrite u32_id by (unfold MAX_BLOCKS in Hn; unfold is_u32; lia).
  eapply wp_mono; [apply (grow_loop_ok n n' _ _ _ _ s0 i0 [])|].
  { split_and!; rewrite ?app_nil_r; try done; [apply growing_start|lia|lia|..].
    - rewrite length_take, Hjunk. done.
    - rewrite length_drop, Hjunk. done. }
  intros r s1 (i1 & new & idx & -> & Hgo & Hlen & Hcur'). cbn match. wp_unbind.
  pose proof (go_inode _ _ _ Hgo) as Hi1.
  eapply wp_inode_set; [done|]. wp_unbind.
  eapply wp_inode_set; [apply lookup_insert_eq|]. wp_go. split; [done|].
  exists (upd_i_is_allocated 1 (upd_i_ptr_idx idx i1)), new. split_and!; [|done..].
  rewrite set_inodes_set_inodes. simpl. rewrite insert_insert_eq. by apply (growing_inode _ i1).
Qed.
End start.
End grow.
