(* ===== verification/InodeWrite.v ===== *)
(** Files as byte strings: [inode_read_at] and [inode_write_at]
    ([filesys/inode.c]) refine reading and writing of a string of bytes, with
    growth, for any allocator that keeps the promises of [FreeMap]. *)
From Stdlib Require Import ZArith Lia.
From stdpp Require Import base tactics option numbers list gmap.
From S2P Require Import Prelude Bytes Disk FsState Inode.
From S2P Require Bitmap.
From S2P Require Import Cache InodeIO FreeMap Grow.
Import Cache.Correct.

Open Scope Z_scope.

(** * The abstract file

    Writing [data] at [ofs] into a string, which is extended with zeros where
    it is too short. *)
Definition write_bytes (old : bytes) (ofs : Z) (data : bytes) : bytes :=
  (λ p, if (ofs <=? p) && (p <? ofs + Z.of_nat (length data)) then byte_at data (p - ofs)
        else if p <? Z.of_nat (length old) then byte_at old p else 0)
  <$> seqZ 0 (Z.max (Z.of_nat (length old)) (ofs + Z.of_nat (length data))).

(** The contents of a file: its first [len] bytes. *)
Definition contents (c : cache) (bs : list Z) (len : Z) : bytes :=
  file_byte c bs <$> seqZ 0 len.

Lemma length_contents c bs len : length (contents c bs len) = Z.to_nat len.
Proof. unfold contents. by rewrite length_fmap, length_seqZ. Qed.

Lemma byte_at_seqZ (f : Z → Z) len p :
  0 ≤ p < len → byte_at (f <$> seqZ 0 len) p = f p.
Proof.
  intros Hp. unfold byte_at. apply list_lookup_total_correct.
  rewrite list_lookup_fmap, (proj2 (lookup_seqZ 0 len (Z.to_nat p) p)) by lia. done.
Qed.

Lemma byte_at_contents c bs len p : 0 ≤ p < len → byte_at (contents c bs len) p = file_byte c bs p.
Proof. apply byte_at_seqZ. Qed.

Lemma contents_ext c c' bs bs' len :
  (∀ p, 0 ≤ p < len → file_byte c bs p = file_byte c' bs' p) →
  contents c bs len = contents c' bs' len.
Proof.
  intros H. unfold contents. apply list_fmap_ext. intros q p Hq.
  apply H. apply list_elem_of_lookup_2, elem_of_seqZ in Hq. lia.
Qed.

Lemma contents_write c bs len ofs data c' bs' len' :
  0 ≤ len → 0 ≤ ofs → len' = Z.max len (ofs + Z.of_nat (length data)) →
  (∀ p, 0 ≤ p < len' → file_byte c' bs' p =
     if (ofs <=? p) && (p <? ofs + Z.of_nat (length data)) then byte_at data (p - ofs)
     else if p <? len then file_byte c bs p else 0) →
  contents c' bs' len' = write_bytes (contents c bs len) ofs data.
Proof.
  intros Hl Ho -> H. unfold write_bytes. rewrite length_contents, Z2Nat.id by lia.
  unfold contents at 1. apply list_fmap_ext. intros q p Hq.
  apply list_elem_of_lookup_2, elem_of_seqZ in Hq. rewrite H by lia.
  destruct (_ && _); [done|]. destruct (Z.ltb_spec p len); [|done].
  by rewrite byte_at_contents by lia.
Qed.

(** * The state of an open file *)
Section file.
Context {alloc : M fs (option Z)} {priv : list Z} {own : Z} {I : fs → Prop}.
Context `{Halloc : !Allocator alloc priv own I} `{Hclean : !Clean I}.

(** The inode [i] at [ip] describes a file with the data sectors [bs]. *)
Record file_map (s : fs) (ip : Z) (i : inode) (bs : list Z) : Prop := {
  fo_inv : I s;
  fo_inode : ip ≠ NULL ∧ ip ≠ own ∧ inodes s !! ip = Some i;
  fo_mapped : mapped (fs_cache s) (i_ptrs i) bs;
  fo_owned : ∀ x, occupies (fs_cache s) (i_ptrs i) bs x → is_used (free_map s) x ∧ x ∉ priv;
  fo_length : 0 ≤ i_length i;
  fo_blocks : Z.of_nat (length bs) = (i_length i + 511) / 512;
  fo_cursor : cursor (Z.of_nat (length bs)) =
    (i_ptr_idx i, i_indir_idx i, i_double_indir_idx i);
  fo_shown : i_length_shown i ≤ i_length i;
  fo_unlocked : unlocked i }.

(** The bytes after its end are zero. *)
Definition file_ok (s : fs) (ip : Z) (i : inode) (bs : list Z) : Prop :=
  file_map s ip i bs ∧
  ∀ p, i_length i ≤ p < 512 * Z.of_nat (length bs) → file_byte (fs_cache s) bs p = 0.

Definition file_contents (s : fs) (i : inode) (bs : list Z) : bytes :=
  contents (fs_cache s) bs (i_length i).

(** What an operation on the file leaves alone: the sectors in use by others,
    the other inodes, and the rest of the state. *)
Definition others (s : fs) (ip : Z) (i : inode) (bs : list Z) (s' : fs) : Prop :=
  (∀ m, is_used (free_map s) m → m ∉ priv → ¬ occupies (fs_cache s) (i_ptrs i) bs m →
     view (fs_cache s') m = view (fs_cache s) m ∧
     (uncached (fs_cache s) m → uncached (fs_cache s') m) ∧ is_used (free_map s') m) ∧
  (∀ q, q ≠ ip → inodes s' !! q = inodes s !! q) ∧
  capacity (filesys_disk (fs_cache s')) = capacity (filesys_disk (fs_cache s)) ∧
  s' = set_inodes (inodes s') (set_cache (fs_cache s') (set_free_map (free_map s') s)).

(** The members of an inode that reading and writing do not change. *)
Definition kept (i : inode) :=
  (i_sector i, i_open_cnt i, i_removed i, i_deny_write_cnt i, i_is_dir i, i_parent i, i_lock i).

(** A file has only taken sectors that were not in use. *)
Definition takes_unused (s : fs) (i : inode) (bs : list Z) (s' : fs) (i' : inode) (bs' : list Z) : Prop :=
  ∀ x, occupies (fs_cache s') (i_ptrs i') bs' x →
    occupies (fs_cache s) (i_ptrs i) bs x ∨ ¬ is_used (free_map s) x.

Lemma blocks_bytes len : 0 ≤ len → len ≤ 512 * ((len + 511) / 512) ∧ 0 ≤ (len + 511) / 512.
Proof.
  intros. pose proof (Z.div_mod (len + 511) 512 ltac:(lia)).
  pose proof (Z.mod_pos_bound (len + 511) 512 ltac:(lia)). pose proof (Z.div_pos (len + 511) 512). lia.
Qed.

Lemma bytes_to_sectors_eq len :
  0 ≤ len < 2 ^ 31 - 511 → bytes_to_sectors len = (len + 511) / 512.
Proof.
  intros. unfold bytes_to_sectors, DISK_SECTOR_SIZE.
  replace (len + 512 - 1) with (len + 511) by lia. rewrite s32_id by (unfold is_s32; lia).
  rewrite Z.quot_div_nonneg by lia. apply u32_id. unfold is_u32.
  split; [apply Z.div_pos; lia|]. apply Z.div_lt_upper_bound; lia.
Qed.

Lemma file_map_length s ip i bs :
  file_map s ip i bs → i_length i ≤ 512 * Z.of_nat (length bs) ∧ i_length i < 2 ^ 31 - 511.
Proof.
  intros Hf. destruct (blocks_bytes (i_length i)) as [? ?]; [apply (fo_length _ _ _ _ Hf)|].
  rewrite (fo_blocks _ _ _ _ Hf). split; [done|].
  pose proof (mp_max _ _ _ (fo_mapped _ _ _ _ Hf)) as Hm. rewrite (fo_blocks _ _ _ _ Hf) in Hm.
  unfold MAX_BLOCKS in Hm. lia.
Qed.

(** A change of the file's data. *)
Lemma file_map_data s ip i bs c' :
  file_map s ip i bs → inv c' → frame (.∈ bs) (fs_cache s) c' → file_map (set_cache c' s) ip i bs.
Proof.
  intros Hf Hc' Hfr. destruct Hf.
  destruct (mapped_frame (.∈ bs) _ c' _ _ fo_mapped0 Hfr) as [Hm' Hocc]; [done|].
  split; simpl; try done.
  - eapply al_frame; [done|done|exact Hfr|]. intros x Hx. apply fo_owned0, mapped_occupies, Hx.
  - intros x. rewrite Hocc. auto.
Qed.

(** ** Reading *)
Lemma file_read_contents s ip i bs buffer size offset :
  file_ok s ip i bs → 0 ≤ offset → 0 ≤ size ≤ Z.of_nat (length buffer) →
  wp (inode_read_at ip buffer size offset) (λ r s', 
    r.1 = Z.max 0 (Z.min size (i_length_shown i - offset)) ∧
    r.2 = splice buffer 0 (slice (file_contents s i bs) offset r.1) ∧
    file_ok s' ip i bs ∧ file_contents s' i bs = file_contents s i bs ∧
    ∃ c', s' = set_cache c' s ∧ same_view (fs_cache s) c' ∧ frame (.∈ bs) (fs_cache s) c') s.
Proof.
  intros [Hf Htail] Ho Hs. destruct (file_map_length _ _ _ _ Hf) as [Hlen _].
  pose proof (fo_shown _ _ _ _ Hf). pose proof (fo_length _ _ _ _ Hf).
  destruct (fo_inode _ _ _ _ Hf) as (? & Hown & ?).
  eapply wp_mono; [apply (inode_read_at_ok s ip i bs); try done; [|apply Hf]; apply (al_space s), Hf|].
  intros [nn buf] s' (-> & (Hbl & Hin & Hout) & c' & -> & Hc' & Hv & Hfr). simpl in *.
  set (n := Z.max 0 (Z.min size (i_length_shown i - offset))) in *.
  assert (∀ p, file_byte c' bs p = file_byte (fs_cache s) bs p) as Hb.
  { intros p. unfold file_byte. by rewrite (proj1 Hv). }
  split_and!; [done| | | |by exists c'].
  - destruct (decide (n = 0)) as [E|E].
    { rewrite E in *. unfold slice. simpl. apply byte_ext; [done|]. intros p Hp. by apply Hout; lia. }
    assert (length (slice (file_contents s i bs) offset n) = Z.to_nat n) as Hsl.
    { apply length_slice; [lia..|]. unfold file_contents. rewrite length_contents. lia. }
    apply byte_ext; [rewrite length_splice; lia|]. intros p Hp.
    destruct (decide (p < n)).
    + rewrite lookup_splice_in by lia. rewrite byte_at_slice by lia.
      unfold file_contents. rewrite byte_at_contents by lia. rewrite Hin by lia. f_equal. lia.
    + rewrite lookup_splice_out by lia. apply Hout; lia.
  - split; [by apply file_map_data|]. intros p Hp. simpl. rewrite Hb. auto.
  - apply contents_ext. intros p _. simpl. apply Hb.
Qed.

(** ** Writing *)
Lemma file_map_shown s ip i bs ls :
  file_map s ip i bs → ls ≤ i_length i →
  file_map (set_inodes (<[ip := upd_i_length_shown ls i]> (inodes s)) s) ip
    (upd_i_length_shown ls i) bs.
Proof.
  intros [? (? & ? & ?) ? ? ? ? ? ? ?] Hls. split; simpl; try done.
  - by apply al_inode.
  - split_and!; [done..|]. apply lookup_insert_eq.
Qed.

Lemma write_loop_file s ip i bs buffer size offset :
  file_map s ip i bs → 0 ≤ offset → 0 ≤ size ≤ Z.of_nat (length buffer) →
  offset + size ≤ i_length i →
  wp (write_loop ip buffer size offset) (λ n s', n = size ∧ ∃ i' c',
    i' = upd_i_length_shown (Z.min (i_length i) (i_length_shown i + size)) i ∧
    s' = set_inodes (<[ip := i']> (inodes s)) (set_cache c' s) ∧
    file_map s' ip i' bs ∧ frame (.∈ bs) (fs_cache s) c' ∧
    bytes_written_ok (fs_cache s) bs buffer offset size c') s.
Proof.
  intros Hf Ho Hs He. destruct (file_map_length _ _ _ _ Hf) as [Hlen _].
  destruct (fo_inode _ _ _ _ Hf) as (? & ? & ?). pose proof (fo_shown _ _ _ _ Hf).
  eapply wp_mono; [apply (write_loop_ok s ip i bs); try done;
    [by apply (al_space s), (fo_inv _ _ _ _ Hf)|apply Hf]|].
  intros n s' (-> & c' & -> & Hc' & Hfr & Hw). split; [done|]. eexists _, c'.
  split_and!; [done|done| |done|done].
  apply (file_map_shown (set_cache c' s)); [by apply file_map_data|lia].
Qed.

(** The inode after the growth: its new length, and the lock released. *)
Definition unlock (i : inode) : inode := if i_is_dir i =? 1 then i else upd_i_lock false i.
Definition lengthened (e : Z) (i : inode) : inode := unlock (upd_i_length e i).

Lemma lengthened_fields e i :
  i_ptrs (lengthened e i) = i_ptrs i ∧ i_length (lengthened e i) = e ∧
  i_length_shown (lengthened e i) = i_length_shown i ∧ i_is_dir (lengthened e i) = i_is_dir i ∧
  i_ptr_idx (lengthened e i) = i_ptr_idx i ∧ i_indir_idx (lengthened e i) = i_indir_idx i ∧
  i_double_indir_idx (lengthened e i) = i_double_indir_idx i.
Proof. unfold lengthened, unlock. simpl. by destruct (i_is_dir i =? 1). Qed.

Lemma locked_same i :
  i_ptrs (locked i) = i_ptrs i ∧ i_length (locked i) = i_length i ∧
  i_ptr_idx (locked i) = i_ptr_idx i ∧ i_indir_idx (locked i) = i_indir_idx i ∧
  i_double_indir_idx (locked i) = i_double_indir_idx i ∧
  i_length_shown (locked i) = i_length_shown i ∧ i_is_dir (locked i) = i_is_dir i.
Proof. unfold locked. by destruct (i_is_dir i =? 1). Qed.

(** Blocks of the longer file. *)
Lemma file_byte_app_l c bs new p :
  0 ≤ p < 512 * Z.of_nat (length bs) → file_byte c (bs ++ new) p = file_byte c bs p.
Proof.
  intros. unfold file_byte. rewrite lookup_total_app_l; [done|].
  assert (p / 512 < Z.of_nat (length bs)) by (apply Z.div_lt_upper_bound; lia).
  pose proof (Z.div_pos p 512). lia.
Qed.

Lemma file_byte_app_r c bs new p :
  512 * Z.of_nat (length bs) ≤ p < 512 * Z.of_nat (length (bs ++ new)) →
  (∀ k, k ∈ new → view c k = zero_sector) → file_byte c (bs ++ new) p = 0.
Proof.
  intros Hp Hz. unfold file_byte.
  assert (Z.of_nat (length bs) ≤ p / 512) by (apply Z.div_le_lower_bound; lia).
  assert (p / 512 < Z.of_nat (length (bs ++ new))) by (apply Z.div_lt_upper_bound; lia).
  rewrite length_app in *.
  rewrite lookup_total_app_r by lia. rewrite Hz by (apply list_elem_of_lookup_total_2; lia).
  pose proof (Z.mod_pos_bound p 512 ltac:(lia)). unfold byte_at, zero_sector.
  apply list_lookup_total_correct, lookup_replicate. split; [done|]. lia.
Qed.

Section grown.
Context (s : fs) (ip : Z) (i : inode) (bs : list Z) (Hf : file_ok s ip i bs).
Let s1 := set_inodes (<[ip := locked i]> (inodes s)) s.
Context (s2 : fs) (i2 : inode) (new : list Z).
Context (Hgo : growing (priv := priv) (I := I) ip s1 (locked i) bs s2 i2 new).

Lemma owned_locked x :
  occupies (fs_cache s1) (i_ptrs (locked i)) bs x → is_used (free_map s1) x ∧ x ∉ priv.
Proof. destruct (locked_same i) as [-> _]. apply (fo_owned _ _ _ _ (proj1 Hf)). Qed.

Lemma inv_locked : I s1.
Proof. destruct Hf as [[? (? & ? & ?)]]. by apply al_inode. Qed.

(** Sectors in use that are not index sectors of the file have not changed. *)
Lemma grown_view m :
  is_used (free_map s) m → m ∉ priv → ¬ old_index s1 (locked i) bs m →
  view (fs_cache s2) m = view (fs_cache s) m ∧
  (uncached (fs_cache s) m → uncached (fs_cache s2) m) ∧ is_used (free_map s2) m.
Proof.
  intros Hu Hp Ho. destruct (go_grows _ _ _ _ _ _ _ Hgo) as (ks & Hg & _ & _). split_and!.
  - apply (gr_view _ _ _ _ _ Hg); [done| |done]. intros Hk.
    by apply (used_not_free _ _ Hu), (gr_free _ _ _ _ _ Hg).
  - by apply (gr_unc _ _ _ _ _ Hg).
  - apply (gr_used _ _ _ _ _ Hg). by left.
Qed.

Lemma grown_bytes p :
  0 ≤ p < 512 * Z.of_nat (length (bs ++ new)) →
  file_byte (fs_cache s2) (bs ++ new) p =
    if p <? i_length i then file_byte (fs_cache s) bs p else 0.
Proof.
  intros Hp. destruct Hf as [Hm Htail]. destruct (file_map_length _ _ _ _ Hm) as [Hlen _].
  destruct (Z.lt_ge_cases p (512 * Z.of_nat (length bs))) as [Hlt|Hge].
  - rewrite file_byte_app_l by lia.
    assert (bs !!! Z.to_nat (p / 512) ∈ bs) as Hin.
    { apply (mapped_block (fs_cache s) (i_ptrs i)); [apply Hm|lia]. }
    destruct (fo_owned _ _ _ _ Hm _ (mapped_occupies (fs_cache s) (i_ptrs i) bs _ Hin)) as [? ?].
    unfold file_byte at 1. destruct (grown_view (bs !!! Z.to_nat (p / 512))) as [-> _];
      [done|done|by intros [_ ?]|].
    fold (file_byte (fs_cache s) bs p). destruct (Z.ltb_spec p (i_length i)); [done|].
    apply Htail. lia.
  - rewrite (proj2 (Z.ltb_ge _ _)) by lia. apply file_byte_app_r; [lia|]. apply Hgo.
Qed.

Context (e : Z) (He : i_length i ≤ e).
Context (Hn : Z.of_nat (length (bs ++ new)) = (e + 511) / 512).
Context (Hcur : cursor (Z.of_nat (length (bs ++ new))) =
  (i_ptr_idx i2, i_indir_idx i2, i_double_indir_idx i2)).

Lemma grown_meta :
  i_is_dir i2 = i_is_dir i ∧ i_length_shown i2 = i_length_shown i ∧
  i_lock i2 = i_lock (locked i).
Proof.
  pose proof (go_meta _ _ _ _ _ _ _ Hgo) as E. unfold meta in E.
  destruct (locked_same i) as (_ & _ & _ & _ & _ & E1 & E2). simplify_eq. by rewrite <-E1, <-E2.
Qed.

Lemma grown_file :
  let i3 := lengthened e i2 in
  file_map (set_inodes (<[ip := i3]> (inodes s2)) s2) ip i3 (bs ++ new).
Proof.
  intros i3. destruct (lengthened_fields e i2) as (Ep & El & Es & Ed & Ec1 & Ec2 & Ec3).
  destruct grown_meta as (Emd & Ems & _). destruct Hf as [Hm _].
  pose proof (fo_length _ _ _ _ Hm). pose proof (fo_shown _ _ _ _ Hm).
  destruct (fo_inode _ _ _ _ Hm) as (? & ? & ?).
  fold i3 in Ep, El, Es, Ed, Ec1, Ec2, Ec3. split; simpl; rewrite ?Ep, ?El, ?Es, ?Ec1, ?Ec2, ?Ec3.
  - apply al_inode; [|done]. apply (growing_inv _ _ _ _ _ _ _ Hgo).
  - split_and!; [done..|apply lookup_insert_eq].
  - apply Hgo.
  - intros x. apply (growing_owned ip s1 (locked i) bs inv_locked owned_locked _ _ _ _ Hgo).
  - lia.
  - done.
  - done.
  - lia.
  - unfold unlocked. rewrite Ed. pose proof (fo_unlocked _ _ _ _ Hm) as [E|[E _]].
    + left. congruence.
    + right. split; [congruence|]. unfold i3, lengthened, unlock. simpl. by rewrite Emd, E.
Qed.

Lemma grown_others : others s ip i bs (set_inodes (<[ip := lengthened e i2]> (inodes s2)) s2).
Proof.
  split_and!; simpl.
  - intros m Hu Hp Ho. apply grown_view; [done..|]. intros [Hi _]. apply Ho.
    by destruct (locked_same i) as [<- _].
  - intros q Hq. rewrite lookup_insert_ne by done.
    destruct (go_grows _ _ _ _ _ _ _ Hgo) as (ks & Hg & _ & _).
    rewrite (gr_inodes _ _ _ _ _ Hg) by done. simpl. by rewrite lookup_insert_ne.
  - destruct (go_grows _ _ _ _ _ _ _ Hgo) as (ks & Hg & _ & _). apply (gr_cap _ _ _ _ _ Hg).
  - destruct (go_grows _ _ _ _ _ _ _ Hgo) as (ks & Hg & _ & _).
    pose proof (gr_state _ _ _ _ _ Hg) as E. by rewrite E.
Qed.

Lemma grown_kept : kept (lengthened e i2) = kept i.
Proof.
  pose proof (go_meta _ _ _ _ _ _ _ Hgo) as E. pose proof (fo_unlocked _ _ _ _ (proj1 Hf)) as Hu.
  unfold meta, kept, lengthened, unlock, locked, unlocked in *.
  destruct (Z.eqb_spec (i_is_dir i) 1) as [Ed|Ed]; simplify_eq/=.
  - rewrite (proj2 (Z.eqb_eq (i_is_dir i2) 1)) by congruence. simpl. congruence.
  - rewrite (proj2 (Z.eqb_neq (i_is_dir i2) 1)) by congruence. simpl.
    destruct Hu as [?|[_ ?]]; [done|congruence].
Qed.

Lemma grown_takes :
  takes_unused s i bs (set_inodes (<[ip := lengthened e i2]> (inodes s2)) s2) (lengthened e i2) (bs ++ new).
Proof.
  intros x Hx. simpl in Hx. destruct (lengthened_fields e i2) as (Ep & _). rewrite Ep in Hx.
  destruct (go_grows _ _ _ _ _ _ _ Hgo) as (ks & Hg & _ & Hocc).
  destruct (Hocc x Hx) as [Hx0|Hk].
  - left. by destruct (locked_same i) as [<- _].
  - right. intros Hu. by apply (used_not_free _ _ Hu), (gr_free _ _ _ _ _ Hg).
Qed.
End grown.

(** Putting the phases together.  [e] is the length afterwards. *)
Section write.
Context (uninit : fs → nat → list Z) (Hjunk : ∀ s n, length (uninit s n) = n).

Section phases.
Context (s : fs) (ip : Z) (i : inode) (bs : list Z) (size offset : Z).
Let e := Z.max (i_length i) (offset + size).
Let n' := (e + 511) / 512.
Context (Hok : file_ok s ip i bs) (Hdeny : i_deny_write_cnt i = 0).
Context (Ho : 0 ≤ offset) (Hsz : 0 ≤ size).
Context (Hmax : n' ≤ MAX_BLOCKS) (Hcon : contained (Z.of_nat (length bs)) n').
Context (Hfree : total n' - total (Z.of_nat (length bs)) ≤ Z.of_nat (nfree (free_map s))).

(** The state in which the copying starts: the file has its new length, the
    new bytes are zero. *)
Definition ready (s3 : fs) (i3 : inode) (new : list Z) : Prop :=
  file_map s3 ip i3 (bs ++ new) ∧ i_length i3 = e ∧ i_length_shown i3 = i_length_shown i ∧
  (∀ p, 0 ≤ p < 512 * Z.of_nat (length (bs ++ new)) → file_byte (fs_cache s3) (bs ++ new) p =
     if p <? i_length i then file_byte (fs_cache s) bs p else 0) ∧
  others s ip i bs s3 ∧
  (∀ x, x ∈ new → ¬ is_used (free_map s) x) ∧ kept i3 = kept i ∧
  takes_unused s i bs s3 i3 (bs ++ new).

Lemma new_length_bound : e < 2 ^ 31 - 511.
Proof.
  pose proof (fo_length _ _ _ _ (proj1 Hok)). destruct (blocks_bytes e) as [? ?]; [lia|].
  unfold MAX_BLOCKS, n' in *. lia.
Qed.

Lemma ready_within : offset + size ≤ i_length i → ready s i [].
Proof.
  intros Hfit. destruct Hok as [Hm Htail]. split_and!; rewrite ?app_nil_r; try done; [lia|..].
  - intros p Hp. destruct (Z.ltb_spec p (i_length i)); [done|]. apply Htail. lia.
  - by destruct s.
  - intros x Hx. by apply not_elem_of_nil in Hx.
  - intros x Hx. by left.
Qed.

Lemma write_phases buffer Q :
  (∀ s3 i3 new, ready s3 i3 new → wp (write_loop ip buffer size offset) Q s3) →
  wp (inode_write_at uninit alloc ip buffer size offset) Q s.
Proof.
  intros HQ. pose proof new_length_bound as He31. pose proof Hok as [Hm _].
  destruct (fo_inode _ _ _ _ Hm) as (Hip & Hown & Hi). pose proof (fo_length _ _ _ _ Hm).
  unfold inode_write_at. wp_unbind. eapply wp_inode_at; [done|]. rewrite Hdeny. simpl negb. cbn iota.
  wp_unbind. eapply wp_mono; [eapply wp_lock; [done|apply Hm|]|intros d t H1; wp_unbind; exact H1].
  destruct (locked_same i) as (Ep & El & Ec1 & Ec2 & Ec3 & Es & Ed).
  set (s1 := set_inodes _ s). unfold inode_length. wp_unbind.
  assert (inodes s1 !! ip = Some (locked i)) as Hi1 by apply lookup_insert_eq.
  eapply wp_inode_at; [done|]. rewrite El, s32_id by (unfold is_s32; lia). wp_go.
  destruct (Z.ltb_spec (i_length i) (size + offset)) as [Hlt|Hge].
  - assert (e = size + offset) as Ee by lia. wp_unbind.
    eapply wp_mono; [apply (inode_grow_ok ip Hip Hown s1 (locked i) bs (inv_locked s ip i bs Hok) Hi1)
      with (n' := n') (len := size + offset)|].
    + rewrite Ep. apply Hm.
    + apply (owned_locked s ip i bs Hok).
    + done.
    + rewrite El, bytes_to_sectors_eq by lia. apply (fo_blocks _ _ _ _ Hm).
    + rewrite bytes_to_sectors_eq by lia. unfold n'. by rewrite Ee.
    + rewrite Ec1, Ec2, Ec3. apply (fo_cursor _ _ _ _ Hm).
    + split; [|done]. rewrite (fo_blocks _ _ _ _ Hm). apply Z.div_le_mono; lia.
    + done.
    + done.
    + intros r s2 (-> & i2 & new & Hgo & Hn & Hcur). simpl Z.eqb. cbn iota. wp_unbind.
      eapply wp_inode_set; [apply Hgo|]. wp_go. simpl negb. cbn iota. wp_unbind.
      destruct (grown_meta s ip i bs s2 i2 new Hgo) as (Emd & _ & Eml).
      destruct (locked_fields i) as (_ & _ & Hlk).
      eapply wp_mono; [eapply wp_unlock; [apply lookup_insert_eq| |]|intros d t H1; wp_unbind; exact H1].
      { simpl. rewrite Emd, Eml. destruct (fo_unlocked _ _ _ _ Hm) as [?|[? _]]; [by left|right].
        split; [done|auto]. }
      rewrite set_inodes_set_inodes. simpl inodes. rewrite insert_insert_eq, <-Ee.
      fold (unlock (upd_i_length e i2)). fold (lengthened e i2).
      apply (HQ _ (lengthened e i2) new). destruct (lengthened_fields e i2) as (_ & ? & Es2 & _).
      destruct (grown_meta s ip i bs s2 i2 new Hgo) as (_ & Ems & _). split_and!.
      * apply (grown_file s ip i bs Hok s2 i2 new Hgo); [lia|done|by rewrite Hn].
      * done.
      * congruence.
      * simpl. apply (grown_bytes s ip i bs Hok s2 i2 new Hgo).
      * apply (grown_others s ip i bs s2 i2 new Hgo).
      * destruct (go_grows _ _ _ _ _ _ _ Hgo) as (ks & Hg & Hsub & _). intros x Hx Hu.
        by apply (used_not_free _ _ Hu), (gr_free _ _ _ _ _ Hg), Hsub.
      * by apply (grown_kept s ip i bs Hok s2 i2 new Hgo).
      * by apply (grown_takes s ip i bs s2 i2 new Hgo).
  - wp_go. simpl negb. cbn iota. wp_unbind.
    eapply wp_mono; [eapply wp_unlock; [done|rewrite Ed|]|intros d t H1; wp_unbind; exact H1].
    { destruct (fo_unlocked _ _ _ _ Hm) as [?|[? _]]; [by left|right].
      split; [done|]. by apply locked_fields. }
    unfold s1. rewrite set_inodes_set_inodes. simpl. rewrite insert_insert_eq, Ed.
    replace (if i_is_dir i =? 1 then locked i else upd_i_lock false (locked i)) with i.
    2: { unfold locked. destruct (Z.eqb_spec (i_is_dir i) 1); [done|].
         destruct (fo_unlocked _ _ _ _ Hm) as [?|[_ <-]]; [done|].
         by rewrite upd_i_lock_twice, upd_i_lock_self. }
    rewrite set_inodes_self by done. eapply HQ, ready_within. lia.
Qed.

Lemma others_data s3 i3 new c' i' :
  ready s3 i3 new → frame (.∈ (bs ++ new)) (fs_cache s3) c' →
  others s ip i bs (set_inodes (<[ip := i']> (inodes s3)) (set_cache c' s3)).
Proof.
  intros (_ & _ & _ & _ & (Hoth & Hino & Hcap & Est) & Hnew & _) (Ecap & V & U). split_and!; simpl.
  - intros m Hu Hp Hoc. destruct (Hoth m Hu Hp Hoc) as (Hv & Hun & Hu').
    assert (m ∉ bs ++ new) as Hm.
    { intros [Hb|Hb]%elem_of_app; [by apply Hoc, mapped_occupies|by apply (Hnew m)]. }
    rewrite V, Hv by done. split_and!; [done| |done]. auto.
  - intros q Hq. rewrite lookup_insert_ne by done. auto.
  - congruence.
  - by rewrite Est.
Qed.
End phases.

Lemma file_write_contents s ip i bs buffer size offset :
  let e := Z.max (i_length i) (offset + size) in
  let n' := (e + 511) / 512 in
  file_ok s ip i bs → i_deny_write_cnt i = 0 →
  0 ≤ offset → 0 ≤ size ≤ Z.of_nat (length buffer) →
  n' ≤ MAX_BLOCKS → contained (Z.of_nat (length bs)) n' →
  total n' - total (Z.of_nat (length bs)) ≤ Z.of_nat (nfree (free_map s)) →
  wp (inode_write_at uninit alloc ip buffer size offset) (λ n s', n = size ∧ ∃ i' new,
    file_ok s' ip i' (bs ++ new) ∧ i_length i' = e ∧
    i_length_shown i' = Z.min e (i_length_shown i + size) ∧
    file_contents s' i' (bs ++ new) =
      write_bytes (file_contents s i bs) offset (slice buffer 0 size) ∧
    others s ip i bs s' ∧ kept i' = kept i ∧ takes_unused s i bs s' i' (bs ++ new)) s.
Proof.
  intros e n' Hok Hdeny Ho Hsz Hmax Hcon Hfree. pose proof (fo_length _ _ _ _ (proj1 Hok)).
  apply (write_phases s ip i bs size offset); [done..|lia|done|done|done|].
  intros s3 i3 new Hready. pose proof Hready as (Hm3 & El & Es & Hb & _ & _ & Ek & Ht).
  assert (length (slice buffer 0 size) = Z.to_nat size) as Hsl by (apply length_slice; lia).
  destruct (file_map_length _ _ _ _ Hm3) as [Hlen3 _].
  eapply wp_mono; [apply (write_loop_file s3 ip i3 (bs ++ new)); [done..|fold e in El; lia]|].
  intros n s' (-> & i' & c' & Ei' & -> & Hm' & Hfr & Hw). split; [done|]. exists i', new.
  assert (i_length i' = e) as El' by (rewrite Ei'; done).
  split_and!; [|done|by rewrite Ei'; simpl; rewrite El, Es| | | |].
  - split; [done|]. intros p Hp. simpl. rewrite Hw, Hb by lia.
    rewrite !(proj2 (Z.ltb_ge p _)), andb_false_r by lia. done.
  - unfold file_contents. rewrite El'.
    apply contents_write; [lia|lia|rewrite Hsl; lia|]. intros p Hp. simpl.
    rewrite Hw, Hb by lia. rewrite Hsl, Z2Nat.id by lia.
    destruct (Z.leb_spec offset p), (Z.ltb_spec p (offset + size)); simpl; try done.
    by rewrite byte_at_slice by lia.
  - by eapply (others_data s ip i bs size offset s3 i3).
  - by rewrite Ei'.
  - intros x Hx. apply Ht. rewrite Ei' in Hx. simpl in Hx.
    destruct (mapped_frame (.∈ bs ++ new) _ c' _ _ (fo_mapped _ _ _ _ Hm3) Hfr) as [_ Hocc]; [done|].
    by apply Hocc.
Qed.
End write.
End file.

(** The allocator's invariant is only carried along in [file_ok]. *)
Lemma file_ok_inv {priv own} {I J : fs → Prop} s ip i bs :
  file_ok (priv := priv) (own := own) (I := I) s ip i bs → J s →
  file_ok (priv := priv) (own := own) (I := J) s ip i bs.
Proof. intros [[] ?] HJ. by split. Qed.
