(* ===== verification/InodeLife.v ===== *)
(** Creating, opening and closing inodes ([filesys/inode.c]: [inode_create],
    [inode_open], [inode_reopen], [inode_close]): what is on disk after a file
    was created or closed is what the next [inode_open] brings back. *)
From Stdlib Require Import ZArith Lia.
From stdpp Require Import base tactics option numbers list gmap.
From S2P Require Import Prelude Bytes Disk FsState Inode.
From S2P Require Bitmap.
From S2P Require Import Cache InodeIO FreeMap Grow InodeWrite.
Import Cache.Correct.

Open Scope Z_scope.

(** * The disk inode

    [struct inode_disk] fills one sector and survives being written and read. *)
Record wf_inode_disk (di : inode_disk) : Prop := {
  wd_length : is_s32 (d_length di);
  wd_ptrs : length (d_ptrs di) = 15%nat;
  wd_unused : length (d_unused di) = 105%nat;
  wd_words : Forall is_u32 ([d_magic di; d_is_allocated di; d_ptr_idx di; d_indir_idx di;
    d_double_indir_idx di; d_is_dir di; d_parent di] ++ d_ptrs di ++ d_unused di) }.

Lemma s32_u32 z : is_s32 z → s32 (u32 z) = z.
Proof.
  unfold is_s32, s32, u32. intros. rewrite Z.add_mod_idemp_l by lia. rewrite Z.mod_small; lia.
Qed.

Lemma inode_disk_words_ok di :
  wf_inode_disk di →
  length (inode_disk_words di) = 128%nat ∧ Forall is_u32 (inode_disk_words di) ∧
  inode_disk_of_words (inode_disk_words di) = di.
Proof.
  intros [Hl Hp Hu Hw]. unfold inode_disk_words. split_and!.
  - rewrite !length_app, Hp, Hu. done.
  - apply Forall_cons. split; [apply u32_range|]. rewrite Forall_forall in *.
    intros x Hx. apply Hw. clear -Hx. set_solver.
  - unfold inode_disk_of_words. destruct di as [len mag al ptrs i1 i2 i3 id par un]; simpl in *.
    do 15 (destruct ptrs as [|? ptrs]; [done|]). destruct ptrs; [|done]. simpl.
    by rewrite s32_u32.
Qed.

Lemma inode_disk_sector di :
  wf_inode_disk di → length (words_to_bytes (inode_disk_words di)) = 512%nat.
Proof.
  intros Hd. rewrite length_words_to_bytes. destruct (inode_disk_words_ok di Hd) as [-> _]. done.
Qed.

Lemma inode_disk_roundtrip di :
  wf_inode_disk di →
  inode_disk_of_words (bytes_to_words 128 (words_to_bytes (inode_disk_words di))) = di.
Proof.
  intros Hd. destruct (inode_disk_words_ok di Hd) as (Hl & Hu & E).
  rewrite <-(app_nil_r (words_to_bytes _)), <-Hl. by rewrite bytes_to_words_to_bytes.
Qed.

(** * Memory *)

(** The next [n] calls of [malloc] succeed, at fresh addresses. *)
Definition memory_ok (s : fs) : Prop :=
  malloc_outcomes s = [] ∧ 0 < next_address s ∧
  (∀ a, next_address s ≤ a → inodes s !! a = None).

Lemma wp_malloc s Q :
  malloc_outcomes s = [] → Q (next_address s) (set_memory (next_address s + 1) [] s) →
  wp malloc Q s.
Proof. intros Ho HQ. unfold malloc. wp_go. rewrite Ho. by wp_go. Qed.

(** * Opening *)

(** Every open inode is in memory, once per sector. *)
Definition open_ok (s : fs) : Prop :=
  ∀ ip, ip ∈ open_inodes s → ∃ i, inodes s !! ip = Some i.

Definition not_open (s : fs) (k : Z) : Prop :=
  ∀ ip i, ip ∈ open_inodes s → inodes s !! ip = Some i → i_sector i ≠ k.

Lemma find_open_none s k Q l :
  (∀ ip, ip ∈ l → ∃ i, inodes s !! ip = Some i ∧ i_sector i ≠ k) →
  Q None s → wp (find_open k l) Q s.
Proof.
  induction l as [|ip l IH]; intros Hl HQ; simpl; [by wp_go|].
  destruct (Hl ip ltac:(left)) as (i & Hi & Hne). wp_unbind. eapply wp_inode_at; [done|].
  rewrite (proj2 (Z.eqb_neq _ _) Hne). apply IH; [|done]. intros q Hq. apply Hl. by right.
Qed.

Lemma find_open_some s k Q l1 ip i l2 :
  (∀ q, q ∈ l1 → ∃ j, inodes s !! q = Some j ∧ i_sector j ≠ k) →
  inodes s !! ip = Some i → i_sector i = k →
  Q (Some ip) s → wp (find_open k (l1 ++ ip :: l2)) Q s.
Proof.
  induction l1 as [|q l1 IH]; intros Hl Hi Hk HQ; simpl.
  - wp_unbind. eapply wp_inode_at; [done|]. rewrite (proj2 (Z.eqb_eq _ _) Hk). by wp_go.
  - destruct (Hl q ltac:(left)) as (j & Hj & Hne). wp_unbind. eapply wp_inode_at; [done|].
    rewrite (proj2 (Z.eqb_neq _ _) Hne). apply IH; [|done..]. intros q' Hq. apply Hl. by right.
Qed.

(** The inode [inode_open] builds from a disk inode. *)
Definition opened (k : Z) (di : inode_disk) : inode :=
  mk_inode k 1 false 0 (d_length di) (d_length di) (d_is_allocated di) (d_ptrs di)
    (d_ptr_idx di) (d_indir_idx di) (d_double_indir_idx di) (d_is_dir di) (d_parent di) false.

Lemma inode_open_new s k di :
  malloc_outcomes s = [] → 0 < next_address s → open_ok s → not_open s k →
  valid_sector (filesys_disk (fs_cache s)) k → wf_inode_disk di →
  sector_data (filesys_disk (fs_cache s)) k = words_to_bytes (inode_disk_words di) →
  wp (inode_open k) (λ ip s', ip = next_address s ∧
    s' = set_inodes (<[ip := opened k di]> (inodes s))
           (set_memory (next_address s + 2) []
             (set_open_inodes (ip :: open_inodes s) s))) s.
Proof.
  intros Ho Ha Hop Hno Hv Hdi Hd. unfold inode_open. wp_go.
  apply find_open_none.
  { intros ip Hip. destruct (Hop ip Hip) as [i Hi]. eauto. }
  cbn match. wp_unbind. apply wp_malloc; [done|]. rewrite (proj2 (Z.eqb_neq _ _)) by (unfold NULL; lia).
  wp_go. apply wp_malloc; [done|]. simpl next_address.
  rewrite (proj2 (Z.eqb_neq _ _)) by (unfold NULL; lia). wp_unbind.
  apply wp_fs_disk_read; [done|]. simpl fs_cache. rewrite Hd. rewrite inode_disk_roundtrip by done.
  wp_go. split; [done|]. by replace (next_address s + 2) with (next_address s + 1 + 1) by lia.
Qed.

(** A sector that is open already is not read again. *)
Lemma inode_open_again s k l1 ip i l2 :
  ip ≠ NULL → open_inodes s = l1 ++ ip :: l2 →
  (∀ q, q ∈ l1 → ∃ j, inodes s !! q = Some j ∧ i_sector j ≠ k) →
  inodes s !! ip = Some i → i_sector i = k →
  wp (inode_open k) (λ r s', r = ip ∧
    s' = set_inodes (<[ip := upd_i_open_cnt (i_open_cnt i + 1) i]> (inodes s)) s) s.
Proof.
  intros Hip El Hl Hi Hk. unfold inode_open. wp_go. rewrite El.
  eapply find_open_some; [done..|]. cbn match. unfold inode_reopen.
  rewrite (proj2 (Z.eqb_neq _ _) Hip). simpl negb. cbn iota. wp_unbind.
  eapply wp_inode_set; [done|]. by wp_go.
Qed.

(** * Creating

    [created s k di bs s']: the file with disk inode [di] and the data sectors
    [bs] is on disk in [s'], its inode in sector [k]. *)
Section life.
Context (uninit : fs → nat → list Z).
Context (Hjunk : ∀ s n, length (uninit s n) = n ∧ Forall is_u32 (uninit s n)).
Context {priv : list Z} {own : Z} {I : fs → Prop}.
Context `{Halloc : !Allocator (allocator uninit) priv own I} `{Hclean : !Clean I}.

Record on_disk_file (s : fs) (k : Z) (di : inode_disk) (bs : list Z) : Prop := {
  od_data : sector_data (filesys_disk (fs_cache s)) k = words_to_bytes (inode_disk_words di);
  od_wf : wf_inode_disk di;
  od_sector : is_used (free_map s) k ∧ (k ∉ priv) ∧ uncached (fs_cache s) k ∧
    ¬ occupies (fs_cache s) (d_ptrs di) bs k;
  od_mapped : mapped (fs_cache s) (d_ptrs di) bs;
  od_owned : ∀ x, occupies (fs_cache s) (d_ptrs di) bs x → is_used (free_map s) x ∧ x ∉ priv;
  od_length : 0 ≤ d_length di ∧ Z.of_nat (length bs) = (d_length di + 511) / 512;
  od_cursor : cursor (Z.of_nat (length bs)) =
    (d_ptr_idx di, d_indir_idx di, d_double_indir_idx di);
  od_dir : d_is_dir di = 0 ∨ d_is_dir di = 1;
  od_tail : ∀ p, d_length di ≤ p < 512 * Z.of_nat (length bs) →
    file_byte (fs_cache s) bs p = 0 }.

(** Opening a file that is on disk. *)
Lemma open_file s k di bs :
  I s → on_disk_file s k di bs → memory_ok s → open_ok s → not_open s k → next_address s ≠ own →
  wp (inode_open k) (λ ip s', 
    file_ok (priv := priv) (own := own) (I := I) s' ip (opened k di) bs ∧
    file_contents s' (opened k di) bs = contents (fs_cache s) bs (d_length di) ∧
    open_inodes s' = ip :: open_inodes s ∧ fs_cache s' = fs_cache s ∧
    free_map s' = free_map s) s.
Proof.
  intros Hs [Hd Hwf Hk Hm Hown [Hl Hbs] Hcur Hdir Htail] (Ho & Ha & Hfr) Hop Hno Hne.
  pose proof (al_space _ Hs) as Hsp.
  eapply wp_mono; [apply (inode_open_new s k di); try done; eapply space_valid; [done|apply Hk]|].
  intros ip s' [-> ->]. split_and!; [|done..]. split; [|done].
  split; simpl; try done.
  - eapply al_other; [exact Hs|done..|]. simpl. by rewrite lookup_insert_ne.
  - split_and!; [unfold NULL; lia|done|apply lookup_insert_eq].
  - unfold unlocked. simpl. destruct Hdir; auto.
Qed.

Lemma mapped_nil c ptrs : length ptrs = 15%nat → mapped c ptrs [].
Proof.
  intros Hp. split; rewrite ?index_list_direct by (simpl; lia); try done.
  - intros x Hx. by apply not_elem_of_nil in Hx.
  - apply NoDup_nil_2.
  - intros x Hx. by apply not_elem_of_nil in Hx.
Qed.

Lemma not_occupies_nil c ptrs x : ¬ occupies c ptrs [] x.
Proof.
  unfold occupies. rewrite index_list_direct by (simpl; lia). simpl. apply not_elem_of_nil.
Qed.

(** The inode [inode_create] grows. *)
Definition blank_inode (junk : list Z) (is_dir : bool) : inode :=
  upd_i_is_dir (if is_dir then 1 else 0)
   (upd_i_double_indir_idx 0 (upd_i_indir_idx 0 (upd_i_ptr_idx 0
     (upd_i_is_allocated 0 (upd_i_length 0 (junk_inode junk)))))).

(** The disk inode it writes. *)
Definition new_inode_disk (i : inode) (len : Z) (is_dir : bool) : inode_disk :=
  mk_inode_disk len INODE_MAGIC 1 (i_ptrs i) (i_ptr_idx i) (i_indir_idx i)
    (i_double_indir_idx i) (if is_dir then 1 else 0) 0 (replicate 105 0).

Lemma cursor_bounds n : 0 ≤ n ≤ MAX_BLOCKS →
  is_u32 (cursor n).1.1 ∧ is_u32 (cursor n).1.2 ∧ is_u32 (cursor n).2.
Proof.
  intros Hn. unfold cursor, is_u32, MAX_BLOCKS in *.
  destruct (Z.ltb_spec n 4); simpl; [lia|]. destruct (Z.ltb_spec n 1284); simpl.
  - destruct (slot_spec n) as (? & ? & ?); [lia|]. lia.
  - destruct (Z.ltb_spec n (4 + 10 * 128 + 128 * 128)); simpl; [|lia].
    pose proof (Z.div_mod (n - 1284) 128 ltac:(lia)).
    pose proof (Z.mod_pos_bound (n - 1284) 128 ltac:(lia)). lia.
Qed.

Lemma new_inode_disk_wf i len is_dir n :
  length (i_ptrs i) = 15%nat → Forall is_u32 (i_ptrs i) → is_s32 len → 0 ≤ n ≤ MAX_BLOCKS →
  cursor n = (i_ptr_idx i, i_indir_idx i, i_double_indir_idx i) →
  wf_inode_disk (new_inode_disk i len is_dir).
Proof.
  intros Hp H32 Hl Hn Hcur. destruct (cursor_bounds n Hn) as (H1 & H2 & H3).
  rewrite Hcur in H1, H2, H3. simpl in *. split; simpl; try done.
  assert (is_u32 0 ∧ is_u32 1 ∧ is_u32 INODE_MAGIC) as (? & ? & ?) by (unfold is_u32, INODE_MAGIC; lia).
  repeat (apply Forall_cons; split; [first [done|by destruct is_dir]|]).
  apply Forall_app. split; [done|].
  by apply (Forall_replicate is_u32 105 0).
Qed.

(** What the growth of the blank inode leaves, with the inode sector [k]
    written. *)
Lemma created_file s ip i0 s2 i2 bs k len is_dir :
  growing (priv := priv) (I := I) ip s i0 [] s2 i2 bs → I s →
  let n' := (len + 511) / 512 in
  0 ≤ len < 2 ^ 31 - 511 → n' ≤ MAX_BLOCKS → Z.of_nat (length bs) = n' →
  cursor n' = (i_ptr_idx i2, i_indir_idx i2, i_double_indir_idx i2) →
  Forall is_u32 (i_ptrs i2) →
  is_used (free_map s) k → k ∉ priv → uncached (fs_cache s) k →
  let di := new_inode_disk i2 len is_dir in
  let c' := disk_put k (words_to_bytes (inode_disk_words di)) (fs_cache s2) in
  ∀ s', fs_cache s' = c' → free_map s' = free_map s2 →
  on_disk_file s' k di bs ∧ contents c' bs len = replicate (Z.to_nat len) 0.
Proof.
  intros Hgo Hs n' Hlen Hmax Hbs Hcur H32 Hk Hp Hu di c' s' Ec Em.
  pose proof (go_mapped _ _ _ _ _ _ _ Hgo) as Hmap. simpl in Hmap.
  destruct (go_grows _ _ _ _ _ _ _ Hgo) as (ks & Hg & Hsub & Hocc). simpl in Hocc.
  assert (∀ x, occupies (fs_cache s2) (i_ptrs i2) bs x → x ∈ ks) as Hks.
  { intros x Hx. destruct (Hocc x Hx) as [Hx0|]; [|done]. by apply not_occupies_nil in Hx0. }
  assert (k ∉ ks) as Hkk.
  { intros Hin. by apply (used_not_free _ _ Hk), (gr_free _ _ _ _ _ Hg). }
  assert (wf_inode_disk di) as Hwf.
  { apply (new_inode_disk_wf i2 len is_dir n'); [apply Hmap|done|unfold is_s32; lia| |done].
    split; [apply Z.div_pos; lia|done]. }
  pose proof (gr_unc _ _ _ _ _ Hg k Hp Hu) as Hu2.
  destruct (disk_put_ok (fs_cache s2) k (words_to_bytes (inode_disk_words di)))
    as (_ & Hfr & Hv & Hu'); [apply (al_space s2), Hg|done|by apply inode_disk_sector|].
  fold c' in Hfr, Hv, Hu'.
  destruct (mapped_frame (.= k) _ c' _ _ Hmap Hfr) as [Hm' Ho'].
  { intros x Hx ->. by apply Hks in Hx. }
  assert (∀ p, 0 ≤ p < 512 * Z.of_nat (length bs) → file_byte c' bs p = 0) as Hz.
  { intros p Hpp. rewrite <-(app_nil_l bs). apply file_byte_app_r; [simpl; lia|].
    intros x Hx. rewrite (proj1 (proj2 Hfr)); [by apply (go_zero _ _ _ _ _ _ _ Hgo)|].
    intros ->. by apply Hkk, Hsub. }
  split.
  - split; rewrite ?Ec, ?Em; try done.
    + rewrite <-Hv. symmetry. by apply (view_miss c').
    + split_and!; [apply (gr_used _ _ _ _ _ Hg); by left|done|done|].
      intros Hx%Ho'. by apply Hks in Hx.
    + intros x Hx%Ho'. apply Hks in Hx.
      by destruct (grows_fresh _ _ _ _ _ _ Hs Hg Hx) as (? & ? & _).
    + simpl. split; [lia|]. by rewrite Hbs.
    + simpl. by rewrite Hbs.
    + simpl. destruct is_dir; auto.
    + simpl. intros p Hpp. apply Hz. lia.
  - apply byte_ext; [rewrite length_contents, length_replicate; lia|]. intros p Hpp.
    rewrite length_contents in Hpp. rewrite byte_at_contents by lia.
    destruct (blocks_bytes len) as [? ?]; [lia|]. rewrite Hz by (unfold n' in Hbs; lia).
    unfold byte_at. symmetry. apply list_lookup_total_correct, lookup_replicate. split; [done|lia].
Qed.

Lemma inode_create_ok s k len is_dir :
  let n' := (len + 511) / 512 in
  I s → memory_ok s → next_address s + 1 ≠ own →
  is_used (free_map s) k → k ∉ priv → uncached (fs_cache s) k →
  0 ≤ len ≤ FILE_SIZE_MAX → n' ≤ MAX_BLOCKS → contained 0 n' →
  total n' ≤ Z.of_nat (nfree (free_map s)) →
  wp (inode_create uninit k len is_dir) (λ r s', r = true ∧ ∃ di bs,
    on_disk_file s' k di bs ∧ d_length di = len ∧ d_is_dir di = (if is_dir then 1 else 0) ∧
    contents (fs_cache s') bs len = replicate (Z.to_nat len) 0 ∧
    I s' ∧ inodes s' = inodes s ∧ open_inodes s' = open_inodes s ∧ memory_ok s') s.
Proof.
  intros n' Hs (Hmo & Ha & Hfr) Hown Hk Hp Hu Hlen Hmax Hcon Hfree. unfold FILE_SIZE_MAX in Hlen.
  unfold inode_create. wp_assert (by apply Z.leb_le; lia). apply wp_malloc; [done|].
  rewrite (proj2 (Z.eqb_neq _ _)) by (unfold NULL; lia). unfold FILE_SIZE_MAX.
  rewrite (proj2 (Z.ltb_ge _ _)) by lia. wp_unbind. apply wp_malloc; [done|]. simpl next_address.
  set (ip := next_address s + 1) in *. rewrite (proj2 (Z.eqb_neq _ _)) by (unfold NULL; lia). wp_go.
  set (s1 := set_memory (ip + 1) [] _). set (junk := uninit s1 26).
  set (i0 := blank_inode junk is_dir).
  do 6 (wp_unbind; eapply wp_inode_set; [apply lookup_insert_eq|]; rewrite set_inodes_twice).
  fold (blank_inode junk is_dir). fold i0. set (s2 := set_inodes _ s1).
  assert (∀ n, length (uninit s1 n) = n) as Hjl by (intros; apply Hjunk).
  assert (I s2) as Hs2.
  { eapply al_other; [exact Hs|done..|]. simpl. by rewrite lookup_insert_ne. }
  assert (length (i_ptrs i0) = 15%nat ∧ Forall is_u32 (i_ptrs i0)) as [Hp15 H32].
  { simpl. split; [rewrite length_take, length_drop; unfold junk; rewrite Hjl; done|].
    apply Forall_take, Forall_drop. apply Hjunk. }
  wp_unbind. eapply wp_mono; [apply (inode_grow_ok ip) with (s0 := s2) (i0 := i0) (bs0 := []) (n' := n')|].
  all: try done.
  { unfold NULL. lia. }
  { apply lookup_insert_eq. }
  { by apply mapped_nil. }
  { intros x Hx. by apply not_occupies_nil in Hx. }
  { intros. apply Hjunk. }
  { rewrite bytes_to_sectors_eq by lia. done. }
  { simpl. split; [apply Z.div_pos; lia|done]. }
  { change (total (Z.of_nat (length []))) with 0. simpl. lia. }
  intros r s3 (-> & i3 & bs & Hgo & Hbs & Hcur). simpl in Hbs. cbn beta iota. simpl Z.eqb. cbn iota.
  wp_unbind. eapply wp_inode_at; [apply Hgo|]. unfold free_inode. wp_go. set (s4 := set_inodes _ s3).
  fold (new_inode_disk i3 len is_dir). set (di := new_inode_disk i3 len is_dir).
  destruct (go_grows _ _ _ _ _ _ _ Hgo) as (ks & Hg & _).
  assert (I s4) as Hs4.
  { eapply al_other; [apply Hg|done..|]. simpl. by rewrite lookup_delete_ne. }
  assert (is_used (free_map s4) k) as Hk4 by (apply (gr_used _ _ _ _ _ Hg); by left).
  assert (uncached (fs_cache s4) k) as Hu4 by by apply (gr_unc _ _ _ _ _ Hg).
  pose proof (al_space _ Hs4) as Hsp4.
  assert (length (words_to_bytes (inode_disk_words di)) = 512%nat) as Hl512.
  { apply inode_disk_sector, (new_inode_disk_wf i3 len is_dir n');
      [apply Hgo|by apply Hgo|unfold is_s32; lia|split; [apply Z.div_pos; lia|done]|done]. }
  apply wp_fs_disk_write; [eapply space_valid; [done|apply Hk4]|done|]. wp_go. split; [done|].
  set (s5 := set_cache _ s4). exists di, bs.
  destruct (created_file s2 ip i0 s3 i3 bs k len is_dir Hgo Hs2) with (s' := s5) as [Hod Hz];
    [lia|done|done|done|by apply Hgo|done..|].
  pose proof (gr_state _ _ _ _ _ Hg) as Es3.
  split_and!; [done|done|done|done|by apply al_write| |unfold s5, s4; by rewrite Es3|].
  - apply map_eq. intros q. simpl. destruct (decide (q = ip)) as [->|Hq].
    + rewrite lookup_delete_eq. symmetry. apply Hfr. lia.
    + rewrite lookup_delete_ne, (gr_inodes _ _ _ _ _ Hg) by done. simpl. by rewrite lookup_insert_ne.
  - unfold s5, s4. rewrite Es3. split_and!; [done|simpl; lia|]. simpl. intros q Hq.
    rewrite lookup_delete_ne, (gr_inodes _ _ _ _ _ Hg) by lia. simpl.
    rewrite lookup_insert_ne by lia. apply Hfr. lia.
Qed.

(** * Closing *)

(** The sector of the inode is the file's own, and the inode's members fit
    their 32 bits. *)
Definition inode_sector_ok (s : fs) (i : inode) (bs : list Z) : Prop :=
  let k := i_sector i in
  is_used (free_map s) k ∧ (k ∉ priv) ∧ uncached (fs_cache s) k ∧
  ¬ occupies (fs_cache s) (i_ptrs i) bs k ∧
  Forall is_u32 (i_is_allocated i :: i_parent i :: i_ptrs i).

Definition saved (i : inode) (junk : list Z) : inode_disk :=
  mk_inode_disk (i_length i) INODE_MAGIC (i_is_allocated i) (i_ptrs i)
    (i_ptr_idx i) (i_indir_idx i) (i_double_indir_idx i) (i_is_dir i) (i_parent i) junk.

Lemma saved_wf s ip i bs junk :
  file_map (priv := priv) (own := own) (I := I) s ip i bs →
  Forall is_u32 (i_is_allocated i :: i_parent i :: i_ptrs i) →
  length junk = 105%nat → Forall is_u32 junk → wf_inode_disk (saved i junk).
Proof.
  intros Hm [? [? ?]%Forall_cons]%Forall_cons Hl Hj. destruct (file_map_length _ _ _ _ Hm) as [_ ?].
  pose proof (mp_max _ _ _ (fo_mapped _ _ _ _ Hm)).
  destruct (cursor_bounds (Z.of_nat (length bs))) as (Hc1 & Hc2 & Hc3); [lia|].
  rewrite (fo_cursor _ _ _ _ Hm) in Hc1, Hc2, Hc3. pose proof (fo_length _ _ _ _ Hm).
  split; simpl; [unfold is_s32; lia|apply Hm|done|].
  assert (is_u32 INODE_MAGIC) by (unfold is_u32, INODE_MAGIC; lia).
  assert (is_u32 (i_is_dir i)).
  { destruct (fo_unlocked _ _ _ _ Hm) as [->|[-> _]]; unfold is_u32; lia. }
  repeat (apply Forall_cons; split; [done|]). by apply Forall_app.
Qed.

Lemma inode_close_ok s ip i bs :
  file_ok (priv := priv) (own := own) (I := I) s ip i bs → inode_sector_ok s i bs →
  i_open_cnt i = 1 → i_removed i = false → malloc_outcomes s = [] → 0 < next_address s →
  wp (inode_close uninit ip) (λ _ s', ∃ di,
    on_disk_file s' (i_sector i) di bs ∧ d_length di = i_length i ∧
    d_is_dir di = i_is_dir i ∧ d_parent di = i_parent i ∧ I s' ∧
    contents (fs_cache s') bs (i_length i) = file_contents s i bs ∧
    inodes s' = delete ip (inodes s) ∧
    open_inodes s' = filter (λ p, p ≠ ip) (open_inodes s) ∧
    malloc_outcomes s' = [] ∧ next_address s' = next_address s + 1 ∧
    frame (.= i_sector i) (fs_cache s) (fs_cache s') ∧ free_map s' = free_map s ∧
    files s' = files s ∧ dirs s' = dirs s ∧ d_ptrs di = i_ptrs i) s.
Proof.
  intros [Hm Htail] (Hk & Hp & Hu & Hno & H32) Hcnt Hrem Hmo Ha.
  destruct (fo_inode _ _ _ _ Hm) as (Hip & Hown & Hi). unfold inode_close.
  rewrite (proj2 (Z.eqb_neq _ _) Hip). wp_unbind. eapply wp_inode_set; [done|]. wp_unbind.
  eapply wp_inode_at; [apply lookup_insert_eq|]. simpl i_open_cnt. rewrite Hcnt. simpl Z.eqb.
  simpl negb. cbn iota. wp_go. simpl i_removed. rewrite Hrem. wp_unbind. apply wp_malloc; [done|].
  rewrite (proj2 (Z.eqb_neq _ _)) by (simpl; unfold NULL; lia). wp_go. cbn zeta.
  match goal with |- wp _ _ ?t => set (s1 := t) end. set (junk := uninit s1 105).
  assert (wf_inode_disk (saved i junk)) as Hwf.
  { eapply saved_wf; [done|done|apply Hjunk|apply Hjunk]. }
  assert (I s1) as Hs1.
  { eapply al_other; [apply (fo_inv _ _ _ _ Hm)|done..|]. simpl. by rewrite lookup_insert_ne. }
  fold (saved i junk). set (b := words_to_bytes _).
  assert (length b = 512%nat) as Hb by by apply inode_disk_sector.
  pose proof (al_space _ Hs1) as Hsp. pose proof (space_valid s1 (i_sector i) Hsp (proj1 Hk)) as Hv.
  apply wp_fs_disk_write; [done|done|]. unfold free_inode. wp_go.
  set (s2 := set_inodes _ _).
  destruct (disk_put_ok (fs_cache s) (i_sector i) b) as (Hi' & Hfr & Hvk & Hu'); [apply Hsp|done|done|].
  set (c' := disk_put (i_sector i) b (fs_cache s)) in *.
  destruct (mapped_frame (.= i_sector i) _ c' _ _ (fo_mapped _ _ _ _ Hm) Hfr) as [Hm' Ho'].
  { intros x Hx ->. done. }
  assert (∀ p, 0 ≤ p < 512 * Z.of_nat (length bs) →
    file_byte c' bs p = file_byte (fs_cache s) bs p) as Hbytes.
  { intros p Hpp. unfold file_byte. rewrite (proj1 (proj2 Hfr)); [done|]. intros E. apply Hno.
    rewrite <-E. apply mapped_occupies, (mapped_block (fs_cache s) (i_ptrs i)); [apply Hm|done]. }
  destruct (file_map_length _ _ _ _ Hm) as [Hlen _]. pose proof (fo_length _ _ _ _ Hm).
  exists (saved i junk). split_and!; try done.
  - split; simpl; try done.
    + change (sector_data (filesys_disk c') (i_sector i) = b). rewrite <-Hvk.
      symmetry. by apply (view_miss c').
    + split_and!; [done..|]. change (¬ occupies c' (i_ptrs i) bs (i_sector i)). by rewrite Ho'.
    + intros x Hx. apply (fo_owned _ _ _ _ Hm). by apply Ho'.
    + split; [done|apply (fo_blocks _ _ _ _ Hm)].
    + apply (fo_cursor _ _ _ _ Hm).
    + destruct (fo_unlocked _ _ _ _ Hm) as [?|[? _]]; auto.
    + intros p Hpp. change (file_byte c' bs p = 0). rewrite Hbytes by lia. auto.
  - eapply al_other; [apply (al_write s1 (i_sector i) b Hs1); done|done..|]. simpl.
    by rewrite lookup_delete_ne.
  - apply contents_ext. intros p Hpp. apply Hbytes. lia.
  - simpl. by rewrite delete_insert_eq.
Qed.
End life.
