(* ===== verification/Directory.v ===== *)
(** Directories ([filesys/directory.c]) and paths ([filesys/filesys.c]).

    A directory is a file of 20-byte entries: the sector of an inode, a name
    of at most 14 bytes with its null byte, and a flag.  Strings that the code
    passes by their address are passed by their contents (the bytes before the
    null byte); the tokens of a path are cut out of a copy of it by [strtok_r],
    which runs on a memory of its own. *)
From Stdlib Require Import ZArith Lia.
From stdpp Require Import base tactics option numbers list gmap.
From S2P Require Import Prelude Bytes Disk FsState Inode.
From S2P Require CString Bitmap Cache.

Open Scope Z_scope.

Definition NAME_MAX : Z := 14.

(** * [struct dir_entry] in memory and on disk *)
Definition sizeof_dir_entry : Z := 20.
Definition e_inode_sector (e : bytes) : Z := of_le32 e.
(** From the member [name] to the end of the structure. *)
Definition e_name (e : bytes) : bytes := drop 4 e.
Definition e_in_use (e : bytes) : bool := negb (byte_at e 19 =? 0).
Definition set_e_in_use (v : bool) (e : bytes) : bytes := <[19%nat := if v then 1 else 0]> e.
Definition set_e_inode_sector (k : Z) (e : bytes) : bytes := le32 k ++ drop 4 e.
(** [strlcpy (e.name, name, sizeof e.name)]. *)
Definition strlcpy_name (name : bytes) (e : bytes) : bytes :=
  let n := Z.to_nat (Z.min (Z.of_nat (length name)) NAME_MAX) in
  take 4 e ++ take n name ++ [0] ++ drop (4 + n + 1) e.

(** The string at the start of an object; [None] when it has no null byte. *)
Fixpoint string_of (b : bytes) : option bytes :=
  match b with
  | [] => None
  | x :: b => if x =? 0 then Some [] else s ← string_of b; Some (x :: s)
  end.

Section ops.
Context (uninit : fs → nat → list Z).

(** A local variable of type [struct dir_entry]. *)
Definition local_entry : M fs bytes := gets (λ s, words_to_bytes (uninit s 5)).

(** A bound for the loops over the entries of a directory: every turn but the
    last reads an entry. *)
Definition entries_bound (ip : Z) : M fs nat :=
  i ← inode_at ip; mret (Z.to_nat (i_length_shown i) + 1)%nat.

(** * [directory.c] *)
Definition dir_create (sector entry_cnt : Z) : M fs bool :=
  inode_create uninit sector (s32 (entry_cnt * sizeof_dir_entry)) true.

Definition dir_open (ip : Z) : M fs Z :=
  dp ← malloc;
  if negb (ip =? NULL) && negb (dp =? NULL) then
    modify (λ s, set_dirs (<[dp := mk_dir ip 0]> (dirs s)) s);;
    mret dp
  else
    inode_close uninit ip;;
    free_dir dp;;
    mret NULL.

Definition dir_open_root : M fs Z := ip ← inode_open ROOT_DIR_SECTOR; dir_open ip.

Definition dir_reopen (dp : Z) : M fs Z :=
  d ← dir_at dp; ip ← inode_reopen (dir_inode d); dir_open ip.

Definition dir_get_inode (dp : Z) : M fs Z := d ← dir_at dp; mret (dir_inode d).

Definition dir_get_parent_inode (dp : Z) : M fs Z :=
  ip ← dir_get_inode dp;
  sector_parent ← inode_parent ip;
  inode_open sector_parent.

Definition dir_open_parent (dp : Z) : M fs Z :=
  ip ← dir_get_inode dp;
  sector_parent ← inode_parent ip;
  inode_parent ← inode_open sector_parent;
  if inode_parent =? NULL then mret NULL else dir_open inode_parent.

Definition dir_close (dp : Z) : M fs unit :=
  if negb (dp =? NULL) then
    d ← dir_at dp;
    inode_close uninit (dir_inode d);;
    free_dir dp
  else mret tt.

Definition dir_close_by_inode (ip : Z) : M fs unit :=
  if negb (ip =? NULL) then inode_close uninit ip else mret tt.

(** The entry and its offset. *)
Definition lookup (dp : Z) (name : bytes) : M fs (option (bytes * Z)) :=
  ASSERT (negb (dp =? NULL));;
  d ← dir_at dp;
  e ← local_entry;
  n ← entries_bound (dir_inode d);
  loop n (λ '(e, ofs),
    '(r, e) ← inode_read_at (dir_inode d) e sizeof_dir_entry ofs;
    if r =? sizeof_dir_entry then
      if e_in_use e then
        c ← deref (CString.strcmp_block (name ++ [0]) (e_name e));
        if c =? 0 then mret (inr (Some (e, ofs)))
        else mret (inl (e, ofs + sizeof_dir_entry))
      else mret (inl (e, ofs + sizeof_dir_entry))
    else mret (inr None)) (e, 0).

(** [*inode]; the return value is whether it is not the null pointer. *)
Definition dir_lookup (dp : Z) (name : bytes) : M fs Z :=
  ASSERT (negb (dp =? NULL));;
  ip ← dir_get_inode dp;
  inode_lock_acquire ip;;
  r ← lookup dp name;
  inode ← match r with
          | Some (e, _) => inode_open (e_inode_sector e)
          | None => mret NULL
          end;
  ip ← dir_get_inode dp;
  inode_lock_release ip;;
  mret inode.

(** The search of [dir_add] for a free slot, with the entry variable [e]. *)
Definition find_slot (ip : Z) (e : bytes) : M fs (bytes * Z) :=
  n ← entries_bound ip;
  loop n (λ '(e, ofs),
    '(r, e) ← inode_read_at ip e sizeof_dir_entry ofs;
    if r =? sizeof_dir_entry then
      if negb (e_in_use e) then mret (inr (e, ofs))
      else mret (inl (e, ofs + sizeof_dir_entry))
    else mret (inr (e, ofs))) (e, 0).

Definition dir_add (dp : Z) (name : bytes) (inode_sector : Z) : M fs bool :=
  ASSERT (negb (dp =? NULL));;
  ip ← dir_get_inode dp;
  inode_lock_acquire ip;;
  if (length name =? 0)%nat || (NAME_MAX <? Z.of_nat (length name)) then
    ip ← dir_get_inode dp;
    inode_lock_release ip;;
    mret false
  else
    e ← local_entry;
    r ← lookup dp name;
    success ← match r with
              | Some _ => mret false
              | None =>
                  inode ← inode_open inode_sector;
                  d ← dir_at dp;
                  inumber ← inode_get_inumber (dir_inode d);
                  inode_set_parent inode inumber;;
                  inode_close uninit inode;;
                  '(e, ofs) ← find_slot (dir_inode d) e;
                  let e := set_e_inode_sector inode_sector (strlcpy_name name (set_e_in_use true e)) in
                  n ← inode_write_at uninit (allocator uninit) (dir_inode d) e sizeof_dir_entry ofs;
                  mret (n =? sizeof_dir_entry)
              end;
    ip ← dir_get_inode dp;
    inode_lock_release ip;;
    mret success.

(** Whether the directory of the inode has no entry in use. *)
Definition no_entries (ip : Z) : M fs bool :=
  e ← local_entry;
  n ← entries_bound ip;
  loop n (λ '(e, pos),
    '(r, e) ← inode_read_at ip e sizeof_dir_entry pos;
    if r =? sizeof_dir_entry then
      if e_in_use e then mret (inr false) else mret (inl (e, pos + sizeof_dir_entry))
    else mret (inr true)) (e, 0).

Definition dir_remove (dp : Z) (name : bytes) : M fs bool :=
  ASSERT (negb (dp =? NULL));;
  ip ← dir_get_inode dp;
  inode_lock_acquire ip;;
  r ← lookup dp name;
  '(inode, success) ←
    match r with
    | None => mret (NULL, false)
    | Some (e, ofs) =>
        inode ← inode_open (e_inode_sector e);
        if inode =? NULL then mret (inode, false) else
        is_dir ← inode_is_dir inode;
        removable ← (if is_dir : bool then
                       empty ← no_entries inode;
                       if empty : bool then
                         opened ← inode_is_opened inode; mret (negb opened)
                       else mret false
                     else mret true);
        if negb removable then mret (inode, false) else
        d ← dir_at dp;
        n ← inode_write_at uninit (allocator uninit) (dir_inode d) (set_e_in_use false e)
              sizeof_dir_entry ofs;
        if negb (n =? sizeof_dir_entry) then mret (inode, false) else
        inode_remove inode;;
        mret (inode, true)
    end;
  inode_close uninit inode;;
  ip ← dir_get_inode dp;
  inode_lock_release ip;;
  mret success.

(** The name that was stored, or [None] for [false]. *)
Definition dir_readdir (dp : Z) : M fs (option bytes) :=
  ip ← dir_get_inode dp;
  inode_lock_acquire ip;;
  e ← local_entry;
  n ← entries_bound ip;
  r ← loop n (λ e,
        d ← dir_at dp;
        '(r, e) ← inode_read_at (dir_inode d) e sizeof_dir_entry (dir_pos d);
        if r =? sizeof_dir_entry then
          dir_set dp (λ d, mk_dir (dir_inode d) (dir_pos d + sizeof_dir_entry));;
          if e_in_use e then
            name ← deref (string_of (e_name e));
            mret (inr (Some (take (Z.to_nat NAME_MAX) name)))
          else mret (inl e)
        else mret (inr None)) e;
  ip ← dir_get_inode dp;
  inode_lock_release ip;;
  mret r.

(** * [filesys.c] *)

(** A call of a string function on the copy of the path. *)
Definition on_copy {A} (m : CString.mem) (op : M CString.mem A) : M fs (A * CString.mem) := λ s,
  match op m with
  | Ok r => Ok (r, s)
  | Panic => Panic
  | Undef => Undef
  | NoFuel => NoFuel
  end.

(** The bytes [bs] at address [a]. *)
Definition bytes_at (a : Z) (bs : bytes) : CString.mem :=
  list_to_map (zip (seqZ a (Z.of_nat (length bs))) bs).

(** The copy of [name] at [p], and the literal "/" elsewhere. *)
Definition SLASH : Z := 47.
Definition DOT : Z := 46.
Definition name_copy (p : Z) (name : bytes) : CString.mem * Z :=
  let d := p + Z.of_nat (length name) + 1 in
  (bytes_at p (name ++ [0; SLASH; 0]), d).

(** The string at an address of the copy. *)
Definition string_at (m : CString.mem) (a : Z) : M fs bytes :=
  loop (S (size m)) (λ '(a, acc),
    x ← deref (m !! a);
    mret (if x =? 0 then inr acc else inl (a + 1, acc ++ [x]))) (a, []).

(** [malloc (strlen (name) + 1)] and [strlcpy] into it, which checks its
    destination. *)
Definition copy_name : M fs Z :=
  p ← malloc; ASSERT (negb (p =? NULL));; mret p.

Definition parse_dir (name : bytes) : M fs Z :=
  p ← copy_name;
  let '(m, slash) := name_copy p name in
  cur ← gets current_dir;
  dir ← (if (match name with c :: _ => c =? SLASH | [] => false end) || (cur =? NULL)
         then dir_open_root else dir_reopen cur);
  '(dir_name, saveptr, m) ← on_copy m (CString.Ops.strtok_r p slash NULL);
  '(next_dir, saveptr, m) ←
    (if negb (dir_name =? NULL) then on_copy m (CString.Ops.strtok_r NULL slash saveptr)
     else mret (NULL, saveptr, m));
  if (dir_name =? NULL) && (next_dir =? NULL) then mret dir else
  loop (S (length name)) (λ '(m, dir, dir_name, next_dir, saveptr),
    if negb (next_dir =? NULL) && negb (dir =? NULL) then
      nm ← string_at m dir_name;
      r ← (if bool_decide (nm = [DOT]) then mret (Some dir)
           else if bool_decide (nm = [DOT; DOT]) then
             inode ← dir_get_parent_inode dir;
             mret (if inode =? NULL then None else Some dir)
           else
             inode ← dir_lookup dir nm;
             if inode =? NULL then mret None else
             is_dir ← inode_is_dir inode;
             if is_dir : bool then dir_close dir;; dir ← dir_open inode; mret (Some dir)
             else inode_close uninit inode;; mret (Some dir));
      match r with
      | None => mret (inr NULL)
      | Some dir =>
          '(next, saveptr, m) ← on_copy m (CString.Ops.strtok_r NULL slash saveptr);
          mret (inl (m, dir, next_dir, next, saveptr))
      end
    else mret (inr dir)) (m, dir, dir_name, next_dir, saveptr).

Definition parse_file (name : bytes) : M fs bytes :=
  p ← copy_name;
  let '(m, slash) := name_copy p name in
  '(next_token, saveptr, m) ← on_copy m (CString.Ops.strtok_r p slash NULL);
  token ← loop (S (length name)) (λ '(m, token, next_token, saveptr),
    if negb (next_token =? NULL) then
      token ← string_at m next_token;
      '(next_token, saveptr, m) ← on_copy m (CString.Ops.strtok_r NULL slash saveptr);
      mret (inl (m, token, next_token, saveptr))
    else mret (inr token)) (m, [], next_token, saveptr);
  copy_name;;
  mret token.

Definition filesys_create (name : bytes) (initial_size : Z) (is_dir : bool) : M fs bool :=
  dir ← parse_dir name;
  filename ← parse_file name;
  '(success, inode_sector) ←
    (if dir =? NULL then mret (false, 0) else
     r ← allocator uninit;
     match r with
     | None => mret (false, 0)
     | Some inode_sector =>
         ok ← inode_create uninit inode_sector initial_size is_dir;
         if negb ok then mret (false, inode_sector) else
         ok ← dir_add dir filename inode_sector;
         mret (ok, inode_sector)
     end);
  (if negb success && negb (inode_sector =? 0) then free_map_release uninit inode_sector 1
   else mret tt);;
  dir_close dir;;
  mret success.

(** A [struct file *], or a [struct dir *] in its place. *)
Definition filesys_open (name : bytes) : M fs Z :=
  if (length name =? 0)%nat then mret NULL else
  dir ← parse_dir name;
  r ← (if negb (dir =? NULL) then
         filename ← parse_file name;
         if bool_decide (filename = [DOT]) then mret (inr dir) else
         ip ← dir_get_inode dir;
         inumber ← inode_get_inumber ip;
         if (inumber =? ROOT_DIR_SECTOR) && (length filename =? 0)%nat then mret (inr dir)
         else if bool_decide (filename = [DOT; DOT]) then
           inode_parent ← dir_get_parent_inode dir;
           mret (if inode_parent =? NULL then inr NULL else inl NULL)
         else
           inode ← dir_lookup dir filename;
           mret (inl inode)
       else mret (inl NULL));
  match r with
  | inr p => mret p
  | inl inode =>
      dir_close dir;;
      if inode =? NULL then mret NULL else
      is_dir ← inode_is_dir inode;
      if is_dir : bool then dir_open inode else file_open uninit inode
  end.

Definition filesys_remove (name : bytes) : M fs bool :=
  dir ← parse_dir name;
  filename ← parse_file name;
  success ← (if negb (dir =? NULL) then dir_remove dir filename else mret false);
  dir_close dir;;
  mret success.

Definition do_format : M fs unit :=
  free_map_create uninit;;
  ok ← dir_create ROOT_DIR_SECTOR 16;
  (if negb ok then panic else mret tt);;
  free_map_close uninit.

(** The disk is there; [block] is the memory of the new bitmap. *)
Definition filesys_init (block : list Z) (format : bool) : M fs unit :=
  inode_init;;
  free_map_init block;;
  on_cache Cache.Ops.cache_init;;
  (if format then do_format else mret tt);;
  free_map_open uninit.

Definition filesys_done : M fs unit :=
  on_cache Cache.Ops.cache_write_behind_loop;;
  free_map_close uninit.
End ops.
