(* ===== verification/DirSpec.v ===== *)
(** Directories as maps from names to sectors: [lookup], [dir_lookup],
    [dir_add], [dir_readdir] ([filesys/directory.c]) against the sequence of
    entries in the directory's file, and the path components [parse_file]
    ([filesys/filesys.c]) takes apart. *)
From Stdlib Require Import ZArith Lia.
From stdpp Require Import base tactics option numbers list gmap.
From S2P Require Import Prelude Bytes Disk FsState Inode.
From S2P Require CString Bitmap.
From S2P Require Import Cache InodeIO FreeMap Grow InodeWrite InodeLife Directory.
Import Cache.Correct.

Open Scope Z_scope.

(** * The entries of a directory *)
Definition slot (c : bytes) (k : nat) : bytes := slice c (20 * Z.of_nat k) 20.
Definition nslots (c : bytes) : nat := (length c / 20)%nat.
Definition slots (c : bytes) : list bytes := slot c <$> seq 0 (nslots c).

(** The name of an entry, and the names that can be in one. *)
Definition entry_name (e : bytes) : option bytes := string_of (e_name e).
Definition good_name (name : bytes) : Prop := Forall (λ b, 0 < b < 256) name.

(** Entry [e] is in use for [name]. *)
Definition is_entry (name : bytes) (e : bytes) : Prop :=
  e_in_use e = true ∧ entry_name e = Some name.
#[export] Instance is_entry_dec name e : Decision (is_entry name e).
Proof. unfold is_entry. apply _. Defined.

(** The directory as a map: the sector of the first entry in use for a name. *)
Definition dir_map (c : bytes) (name : bytes) : option Z :=
  '(_, e) ← list_find (is_entry name) (slots c); Some (e_inode_sector e).

(** The names of the entries in use are strings. *)
Definition names_ok (c : bytes) : Prop :=
  ∀ k e, slots c !! k = Some e → e_in_use e = true →
    ∃ name, entry_name e = Some name ∧ good_name name.

(** ** Strings in entries *)
Lemma string_of_app name rest : good_name name → string_of (name ++ 0 :: rest) = Some name.
Proof.
  intros H. induction H as [|b name Hb Hn IH]; simpl; [done|].
  rewrite (proj2 (Z.eqb_neq b 0)) by lia. by rewrite IH.
Qed.

Lemma string_of_Some b name : string_of b = Some name → ∃ rest, b = name ++ 0 :: rest.
Proof.
  revert name. induction b as [|x b IH]; intros name; simpl; [done|].
  destruct (Z.eqb_spec x 0) as [->|Hx]; [intros [= <-]; by exists b|].
  destruct (string_of b) as [s|]; [|done]. intros [= <-].
  destruct (IH s eq_refl) as [rest ->]. by exists rest.
Qed.

Lemma strcmp_entry name e nm :
  good_name name → entry_name e = Some nm → good_name nm →
  CString.strcmp_block (name ++ [0]) (e_name e) = Some (CString.str_compare name nm).
Proof.
  intros Hn He Hg. destruct (string_of_Some _ _ He) as [rest ->].
  by apply CString.strcmp_block_strings.
Qed.

(** ** Slots *)
Lemma slots_lookup c k e : slots c !! k = Some e ↔ (k < nslots c)%nat ∧ e = slot c k.
Proof.
  unfold slots. rewrite list_lookup_fmap, fmap_Some. split.
  - intros (x & [-> Hx]%lookup_seq & ->). split; [lia|done].
  - intros [Hk ->]. exists k. split; [|done]. apply lookup_seq. lia.
Qed.

Lemma slot_length c k : (k < nslots c)%nat → length (slot c k) = 20%nat.
Proof.
  intros Hk. unfold slot, nslots in *. apply length_slice; [lia..|].
  pose proof (Nat.div_mod_eq (length c) 20). nia.
Qed.

Lemma nslots_mult c : (length c mod 20 = 0)%nat → length c = (20 * nslots c)%nat.
Proof. intros. unfold nslots. pose proof (Nat.div_mod_eq (length c) 20). lia. Qed.

(** An entry written into its slot, or after the last one. *)
Lemma length_write_bytes old ofs data :
  length (write_bytes old ofs data) =
    Z.to_nat (Z.max (Z.of_nat (length old)) (ofs + Z.of_nat (length data))).
Proof. unfold write_bytes. by rewrite length_fmap, length_seqZ. Qed.

Lemma slot_write c k j e :
  length e = 20%nat → (k ≤ nslots c)%nat → (length c mod 20 = 0)%nat → (j < nslots c)%nat ∨ j = k →
  slot (write_bytes c (20 * Z.of_nat k) e) j = if decide (j = k) then e else slot c j.
Proof.
  intros He Hk Hm Hj. pose proof (nslots_mult c Hm) as Hl. unfold slot.
  pose proof (length_write_bytes c (20 * Z.of_nat k) e) as Hlw.
  assert (length (slice (write_bytes c (20 * Z.of_nat k) e) (20 * Z.of_nat j) 20) = 20%nat) as Hs
    by (rewrite length_slice; lia).
  assert (length (if decide (j = k) then e else slice c (20 * Z.of_nat j) 20) = 20%nat) as Hs'
    by (case_decide; [done|]; rewrite length_slice; lia).
  apply byte_ext; [lia|]. intros p Hp. rewrite Hs in Hp. rewrite byte_at_slice by lia.
  unfold write_bytes. rewrite byte_at_seqZ by lia. case_decide as E.
  - subst j. rewrite (proj2 (Z.leb_le _ _)), (proj2 (Z.ltb_lt _ _)) by lia. simpl. f_equal. lia.
  - rewrite (proj2 (Z.ltb_lt (_ + p) (Z.of_nat (length c)))) by lia. rewrite byte_at_slice by lia.
    destruct (Z.leb_spec (20 * Z.of_nat k) (20 * Z.of_nat j + p)), (Z.ltb_spec (20 * Z.of_nat j + p) (20 * Z.of_nat k + Z.of_nat (length e)));
      simpl; try done. exfalso. lia.
Qed.

Lemma slots_write c k e :
  length e = 20%nat → (k ≤ nslots c)%nat → (length c mod 20 = 0)%nat →
  slots (write_bytes c (20 * Z.of_nat k) e) =
    if decide (k = nslots c) then slots c ++ [e] else <[k := e]> (slots c).
Proof.
  intros He Hk Hm. pose proof (nslots_mult c Hm) as Hl.
  pose proof (length_write_bytes c (20 * Z.of_nat k) e) as Hlw.
  assert (nslots (write_bytes c (20 * Z.of_nat k) e) = Nat.max (nslots c) (S k)) as Hn.
  { unfold nslots at 1. rewrite Hlw.
    replace (Z.to_nat _) with (Nat.max (nslots c) (S k) * 20)%nat by lia. by rewrite Nat.div_mul. }
  assert (length (slots c) = nslots c) as Hsl by (unfold slots; by rewrite length_fmap, length_seq).
  apply list_eq. intros j. apply option_eq. intros x. rewrite slots_lookup, Hn. case_decide as E.
  - subst k. rewrite lookup_app_Some, Hsl, slots_lookup. split.
    + intros [Hj ->]. rewrite slot_write by lia. case_decide as Ej.
      * right. subst j. split; [done|]. by rewrite Nat.sub_diag.
      * left. split; [lia|done].
    + intros [[Hj ->]|[Hj [? ->]%list_lookup_singleton_Some]]; rewrite slot_write by lia.
      * rewrite decide_False by lia. split; [lia|done].
      * rewrite decide_True by lia. split; [lia|done].
  - rewrite list_lookup_insert_Some, Hsl, slots_lookup. split.
    + intros [Hj ->]. rewrite slot_write by lia. case_decide; [left|right]; split_and!; done || lia.
    + intros [(-> & -> & Hj)|(Hj & Hj' & ->)]; rewrite slot_write by lia.
      * rewrite decide_True by done. split; [lia|done].
      * rewrite decide_False by done. split; [lia|done].
Qed.

(** ** A new entry *)
Definition new_entry (name : bytes) (sector : Z) (e : bytes) : bytes :=
  set_e_inode_sector sector (strlcpy_name name (set_e_in_use true e)).

Lemma new_entry_eq name sector e :
  length e = 20%nat → (length name ≤ 14)%nat →
  new_entry name sector e = le32 sector ++ name ++ 0 :: drop (5 + length name) (<[19%nat := 1]> e).
Proof.
  intros He Hn. unfold new_entry, set_e_inode_sector, strlcpy_name, set_e_in_use, NAME_MAX.
  set (e1 := <[19%nat := 1]> e). assert (length e1 = 20%nat) as He1 by (unfold e1; by rewrite length_insert).
  f_equal. rewrite drop_app_length' by (rewrite length_take; lia).
  replace (Z.to_nat (Z.min (Z.of_nat (length name)) 14)) with (length name) by lia.
  rewrite take_ge by lia. simpl app. do 3 f_equal. lia.
Qed.

Lemma new_entry_ok name sector e :
  length e = 20%nat → (length name ≤ 14)%nat → good_name name → is_u32 sector →
  let e' := new_entry name sector e in
  length e' = 20%nat ∧ is_entry name e' ∧ e_inode_sector e' = sector.
Proof.
  intros He Hn Hg Hs e'. unfold e'. rewrite new_entry_eq by done.
  set (e1 := <[19%nat := 1]> e). assert (length e1 = 20%nat) as He1 by (unfold e1; by rewrite length_insert).
  split_and!.
  - rewrite !length_app, length_le32. simpl. rewrite length_drop. lia.
  - split.
    + unfold e_in_use, byte_at. change (Z.to_nat 19) with 19%nat.
      replace ((le32 sector ++ name ++ 0 :: drop (5 + length name) e1) !!! 19%nat) with 1; [done|].
      symmetry. apply list_lookup_total_correct.
      rewrite lookup_app_r, length_le32 by (rewrite length_le32; lia). rewrite lookup_app_r by lia.
      destruct (19 - 4 - length name)%nat as [|j] eqn:E; [lia|]. simpl. rewrite lookup_drop.
      replace (S (S (S (S (S (length name))))) + j)%nat with 19%nat by lia. unfold e1.
      apply list_lookup_insert_eq. lia.
    + unfold entry_name, e_name. rewrite drop_app_length' by done. by apply string_of_app.
  - unfold e_inode_sector. by apply of_le32_le32.
Qed.

(** ** The map after an entry was written over one that did not count *)
Lemma list_find_insert_ne {A} (P : A → Prop) `{∀ x, Decision (P x)} l k x :
  (∀ y, l !! k = Some y → ¬ P y) → ¬ P x → list_find P (<[k := x]> l) = list_find P l.
Proof.
  intros Hold Hnew. destruct (list_find P l) as [[j y]|] eqn:E.
  - apply list_find_Some in E as (Hj & HP & Hbefore). apply list_find_Some.
    assert (j ≠ k) by (intros ->; by apply (Hold y)).
    rewrite list_lookup_insert_ne by done. split_and!; [done|done|]. intros m z Hm Hlt.
    apply list_lookup_insert_Some in Hm as [(_ & <- & _)|(_ & Hm)]; [done|]. by eapply Hbefore.
  - apply list_find_None. apply list_find_None in E. by apply Forall_insert.
Qed.

Lemma list_find_insert_new {A} (P : A → Prop) `{∀ x, Decision (P x)} l k x :
  list_find P l = None → P x → (k < length l)%nat → list_find P (<[k := x]> l) = Some (k, x).
Proof.
  intros Hn%list_find_None HP Hk. rewrite Forall_lookup in Hn. apply list_find_Some.
  split_and!; [by apply list_lookup_insert_eq|done|]. intros m z Hm Hlt.
  rewrite list_lookup_insert_ne in Hm by lia. by eapply Hn.
Qed.

Lemma dir_map_add c k name sector e :
  length e = 20%nat → (length c mod 20 = 0)%nat → is_entry name e → e_inode_sector e = sector →
  dir_map c name = None → (k ≤ nslots c)%nat →
  (∀ e0, slots c !! k = Some e0 → e_in_use e0 = false) →
  ∀ nm, dir_map (write_bytes c (20 * Z.of_nat k) e) nm =
    if decide (nm = name) then Some sector else dir_map c nm.
Proof.
  intros He Hm Hent Hsec Hnone Hk Hfree nm.
  assert (length (slots c) = nslots c) as Hsl by (unfold slots; by rewrite length_fmap, length_seq).
  assert (list_find (is_entry name) (slots c) = None) as Hno.
  { unfold dir_map in Hnone. by destruct (list_find _ _) as [[]|]. }
  unfold dir_map. rewrite slots_write by done.
  case_decide as Ek; case_decide as En; subst.
  - rewrite list_find_app_r by done. simpl. by rewrite decide_True by done.
  - destruct (list_find (is_entry nm) (slots c)) as [[j y]|] eqn:E.
    + by rewrite (list_find_app_l _ _ _ _ _ E).
    + rewrite list_find_app_r by done. simpl. rewrite decide_False; [done|].
      intros [_ E2]. destruct Hent as [_ E1]. congruence.
  - rewrite list_find_insert_new; [done|done|done|lia].
  - rewrite list_find_insert_ne; [done| |].
    + intros y Hy [Hu _]. by rewrite (Hfree y Hy) in Hu.
    + intros [_ E2]. destruct Hent as [_ E1]. congruence.
Qed.

Lemma names_ok_add c k name e :
  length e = 20%nat → (length c mod 20 = 0)%nat → is_entry name e → good_name name →
  names_ok c → (k ≤ nslots c)%nat → names_ok (write_bytes c (20 * Z.of_nat k) e).
Proof.
  intros He Hm [Hu Hn] Hg Hok Hk j x. rewrite slots_write by done.
  assert (e_in_use e = true → ∃ nm, entry_name e = Some nm ∧ good_name nm) as Hnew by eauto.
  case_decide.
  - intros [Hj|[_ [_ <-]%list_lookup_singleton_Some]]%lookup_app_Some; [by eapply Hok|done].
  - intros [(_ & <- & _)|(_ & Hj)]%list_lookup_insert_Some; [done|by eapply Hok].
Qed.

(** * Loops over the entries *)
Section loops.
Context {alloc : M fs (option Z)} {priv : list Z} {own : Z} {I : fs → Prop}.
Context `{Halloc : !Allocator alloc priv own I} `{Hclean : !Clean I}.

(** An open directory: a file whose length is a number of entries. *)
Record dir_file (s : fs) (ip : Z) (i : inode) (bs : list Z) : Prop := {
  df_file : file_ok (priv := priv) (own := own) (I := I) s ip i bs;
  df_shown : i_length_shown i = i_length i;
  df_dir : i_is_dir i = 1;
  df_mult : (length (file_contents s i bs) mod 20 = 0)%nat }.

(** The state after reading from the file. *)
Definition read_only (bs : list Z) (s s' : fs) : Prop :=
  ∃ c', s' = set_cache c' s ∧ same_view (fs_cache s) c' ∧ frame (.∈ bs) (fs_cache s) c'.

Lemma read_only_refl bs s : read_only bs s s.
Proof. exists (fs_cache s). split; [by destruct s|]. by split. Qed.

Lemma read_only_trans bs s1 s2 s3 : read_only bs s1 s2 → read_only bs s2 s3 → read_only bs s1 s3.
Proof.
  intros (c1 & -> & V1 & F1) (c2 & -> & V2 & F2). exists c2. simpl in *.
  split_and!; [by rewrite set_cache_set_cache|by etransitivity|by etransitivity].
Qed.

Lemma file_length_contents s ip i bs :
  file_ok (priv := priv) (own := own) (I := I) s ip i bs →
  Z.of_nat (length (file_contents s i bs)) = i_length i.
Proof.
  intros [Hm _]. unfold file_contents. rewrite length_contents.
  pose proof (fo_length _ _ _ _ Hm). lia.
Qed.

(** Reading at the offset of a slot gives the entry; at the end, nothing. *)
Lemma read_slot s ip i bs e k :
  dir_file s ip i bs → length e = 20%nat → (k ≤ nslots (file_contents s i bs))%nat →
  wp (inode_read_at ip e sizeof_dir_entry (20 * Z.of_nat k)) (λ r s',
    read_only bs s s' ∧ dir_file s' ip i bs ∧ file_contents s' i bs = file_contents s i bs ∧
    r = match slots (file_contents s i bs) !! k with
        | Some e' => (20, e')
        | None => (0, e)
        end) s.
Proof.
  intros [Hok Hsh Hdir Hm] He Hk. set (c := file_contents s i bs) in *.
  pose proof (file_length_contents _ _ _ _ Hok) as Hlen. fold c in Hlen.
  pose proof (nslots_mult c Hm) as Hl. unfold sizeof_dir_entry.
  eapply wp_mono; [by apply (file_read_contents (alloc := alloc)) with (1 := Hok); lia|].
  intros [n buf] s' (En & Eb & Hok' & Ec & c' & -> & Hv & Hfr). simpl in En, Eb. fold c in Eb, Ec.
  split_and!; [by exists c'| |done|].
  - split; [done..|]. rewrite Ec. done.
  - rewrite Hsh in En. destruct (decide (k = nslots c)) as [->|Hne].
    + destruct (slots c !! _) as [e'|] eqn:E; [apply slots_lookup in E; lia|].
      assert (n = 0) as -> by lia. rewrite Eb. unfold splice, slice. simpl. by rewrite drop_0.
    + rewrite (proj2 (slots_lookup c k (slot c k))) by (split; [lia|done]).
      assert (n = 20) as -> by lia. f_equal. rewrite Eb. change (slice c _ 20) with (slot c k).
      assert (length (slot c k) = 20%nat) as Hs by (apply slot_length; lia).
      unfold splice. rewrite Hs. simpl. rewrite drop_ge by (simpl; lia). by rewrite app_nil_r.
Qed.

(** A loop that stops at the first entry with the property [P]. *)
Lemma entries_loop {Y} s ip i bs (P : bytes → Prop) `{∀ e, Decision (P e)}
    (step : bytes → Z → M fs (bytes * Z + Y)) (hit stop : bytes → Z → Y)
    (body : bytes * Z → M fs (bytes * Z + Y)) e n (Q : Y → fs → Prop) :
  let c := file_contents s i bs in
  dir_file s ip i bs → length e = 20%nat → (nslots c < n)%nat →
  (∀ e ofs, body (e, ofs) =
     ('(r, e) ← inode_read_at ip e sizeof_dir_entry ofs;
      if r =? sizeof_dir_entry then step e ofs else mret (inr (stop e ofs)))) →
  (∀ k e s', slots c !! k = Some e → let ofs := 20 * Z.of_nat k in
     wp (step e ofs) (λ r s'', s'' = s' ∧
       r = if decide (P e) then inr (hit e ofs) else inl (e, ofs + sizeof_dir_entry)) s') →
  (∀ s' e', read_only bs s s' → dir_file s' ip i bs → file_contents s' i bs = c →
     length e' = 20%nat →
     Q (match list_find P (slots c) with
        | Some (k, e) => hit e (20 * Z.of_nat k)
        | None => stop e' (20 * Z.of_nat (nslots c))
        end) s') →
  wp (loop n body (e, 0)) Q s.
Proof.
  intros c Hd He Hn Hbody Hstep HQ.
  eapply (wp_loop (λ m '(e, ofs) s', ∃ k, ofs = 20 * Z.of_nat k ∧ (k + m = nslots c)%nat ∧
    length e = 20%nat ∧ read_only bs s s' ∧ dir_file s' ip i bs ∧ file_contents s' i bs = c ∧
    Forall (λ e, ¬ P e) (take k (slots c)))).
  2: { exists 0%nat. split_and!; [lia|done|done|apply read_only_refl|done|done|done]. }
  2: lia.
  intros m [e1 ofs] s1 (k & -> & Hm & He1 & Hro & Hd1 & Ec & Hno). rewrite Hbody. wp_unbind.
  eapply wp_mono; [apply read_slot; [done|done|rewrite Ec; lia]|].
  intros r s2 (Hro2 & Hd2 & Ec2 & ->). rewrite Ec in *.
  assert (length (slots c) = nslots c) as Hsl by (unfold slots; by rewrite length_fmap, length_seq).
  destruct (slots c !! k) as [e2|] eqn:E.
  - simpl. pose proof E as [Hk _]%slots_lookup.
    eapply wp_mono; [by apply Hstep|]. intros r s3 [-> ->]. case_decide as HP.
    + rewrite (proj2 (list_find_Some P (slots c) k e2)) in HQ.
      * apply HQ with (e' := e2); [by eapply read_only_trans|done|done|].
        apply slots_lookup in E as [? ->]. by apply slot_length.
      * split_and!; [done|done|]. intros j y Hj Hjk. rewrite Forall_forall in Hno.
        apply Hno. apply list_elem_of_lookup. exists j. by rewrite lookup_take_lt.
    + exists (m - 1)%nat. split; [lia|]. exists (S k). unfold sizeof_dir_entry.
      split_and!; [lia|lia| |by eapply read_only_trans|done|done|].
      * apply slots_lookup in E as [? ->]. by apply slot_length.
      * rewrite (take_S_r _ _ e2) by done. apply Forall_app. split; [done|]. by constructor.
  - simpl. wp_go. assert (k = nslots c) as ->.
    { apply lookup_ge_None in E. lia. }
    rewrite (proj2 (list_find_None P (slots c))) in HQ.
    + apply HQ with (e' := e1); [by eapply read_only_trans|done..].
    + rewrite <-Hsl, firstn_all in Hno. done.
Qed.
End loops.

(** * The operations *)
Section ops.
Context (uninit : fs → nat → list Z).
Context (Hjunk : ∀ s n, length (uninit s n) = n ∧ Forall is_u32 (uninit s n)).
Context {priv : list Z} {own : Z} {I : fs → Prop}.
Context `{Halloc : !Allocator (allocator uninit) priv own I} `{Hclean : !Clean I}.
Local Abbreviation dir_file := (dir_file (priv := priv) (own := own) (I := I)).

Lemma wp_dir_at s dp d Q : dirs s !! dp = Some d → Q d s → wp (dir_at dp) Q s.
Proof. intros Hd HQ. unfold dir_at. wp_go. rewrite Hd. by wp_go. Qed.

Lemma wp_dir_get_inode s dp d Q : dirs s !! dp = Some d → Q (dir_inode d) s → wp (dir_get_inode dp) Q s.
Proof. intros Hd HQ. unfold dir_get_inode. wp_unbind. eapply wp_dir_at; [done|]. by wp_go. Qed.

Lemma length_local_entry s : length (words_to_bytes (uninit s 5)) = 20%nat.
Proof. rewrite length_words_to_bytes. by rewrite (proj1 (Hjunk s 5)). Qed.

(** The bound of the loops is enough. *)
Lemma wp_entries_bound s ip i bs Q :
  dir_file s ip i bs →
  (∀ n, (nslots (file_contents s i bs) < n)%nat → Q n s) → wp (entries_bound ip) Q s.
Proof.
  intros [Hok Hsh _ Hm] HQ. unfold entries_bound. wp_unbind.
  destruct (fo_inode _ _ _ _ (proj1 Hok)) as (_ & _ & Hi). eapply wp_inode_at; [done|]. wp_go.
  apply HQ. pose proof (file_length_contents _ _ _ _ Hok).
  pose proof (nslots_mult _ Hm). rewrite Hsh. lia.
Qed.

(** What a search of the directory finds. *)
Definition found (name : bytes) (c : bytes) : option (bytes * Z) :=
  (λ '(k, e), (e, 20 * Z.of_nat k)) <$> list_find (is_entry name) (slots c).

Lemma lookup_ok s dp d i bs name :
  let c := file_contents s i bs in
  dp ≠ NULL → dirs s !! dp = Some d → dir_file s (dir_inode d) i bs → names_ok c → good_name name →
  wp (lookup uninit dp name) (λ r s', read_only bs s s' ∧ dir_file s' (dir_inode d) i bs ∧
    file_contents s' i bs = c ∧ r = found name c) s.
Proof.
  intros c Hdp Hd Hf Hno Hg. unfold lookup. wp_assert (by apply negb_true_iff, Z.eqb_neq).
  eapply wp_dir_at; [done|]. unfold local_entry. wp_go.
  eapply wp_entries_bound; [done|]. intros n Hn.
  eapply (entries_loop (alloc := allocator uninit) s (dir_inode d) i bs (is_entry name)
    (λ e ofs, if e_in_use e then
        c ← deref (CString.strcmp_block (name ++ [0]) (e_name e));
        if c =? 0 then mret (inr (Some (e, ofs))) else mret (inl (e, ofs + sizeof_dir_entry))
      else mret (inl (e, ofs + sizeof_dir_entry)))
    (λ e ofs, Some (e, ofs)) (λ _ _, None));
    [done|apply length_local_entry|done|done| |].
  - intros k e s' He ofs. destruct (e_in_use e) eqn:Eu; [|wp_go; split; [done|]].
    + destruct (Hno k e He Eu) as (nm & En & Hgn). rewrite (strcmp_entry name e nm) by done. wp_go.
      destruct (Z.eqb_spec (CString.str_compare name nm) 0) as [E|E]; wp_go; (split; [done|]).
      * apply CString.str_compare_eq in E as <-. by rewrite decide_True by done.
      * rewrite decide_False; [done|]. intros [_ E']. apply E, CString.str_compare_eq. congruence.
    + rewrite decide_False; [done|]. intros [? _]. congruence.
  - intros s' e' Hro Hf' Ec _. split_and!; [done..|]. unfold found. fold c.
    by destruct (list_find _ _) as [[k e]|].
Qed.

(** ** Locking a directory *)
Lemma dir_file_lock s ip i bs v :
  dir_file s ip i bs →
  dir_file (set_inodes (<[ip := upd_i_lock v i]> (inodes s)) s) ip (upd_i_lock v i) bs.
Proof.
  intros [[[? (? & ? & ?) ? ? ? ? ? ? ?] Ht] ? ? ?]. split; [split; [split|]|done..]; simpl; try done.
  - by apply al_inode.
  - split_and!; [done..|]. apply lookup_insert_eq.
  - by left.
Qed.

Lemma wp_inode_lock_acquire s ip i Q :
  inodes s !! ip = Some i → i_lock i = false →
  Q tt (set_inodes (<[ip := upd_i_lock true i]> (inodes s)) s) → wp (inode_lock_acquire ip) Q s.
Proof.
  intros Hi Hl HQ. unfold inode_lock_acquire. wp_unbind. eapply wp_inode_at; [done|].
  wp_assert (by rewrite Hl). by eapply wp_inode_set.
Qed.

Lemma wp_inode_lock_release s ip i Q :
  inodes s !! ip = Some i → i_lock i = true →
  Q tt (set_inodes (<[ip := upd_i_lock false i]> (inodes s)) s) → wp (inode_lock_release ip) Q s.
Proof.
  intros Hi Hl HQ. unfold inode_lock_release. wp_unbind. eapply wp_inode_at; [done|].
  wp_assert (by rewrite Hl). by eapply wp_inode_set.
Qed.

(** ** Changes elsewhere *)
Lemma file_frame P s s' ip i bs :
  file_ok (priv := priv) (own := own) (I := I) s ip i bs → frame P (fs_cache s) (fs_cache s') →
  (∀ x, occupies (fs_cache s) (i_ptrs i) bs x → ¬ P x ∧ is_used (free_map s') x) →
  I s' → inodes s' !! ip = Some i →
  file_ok (priv := priv) (own := own) (I := I) s' ip i bs ∧
  file_contents s' i bs = file_contents s i bs.
Proof.
  intros [Hm Ht] Hfr HP HI Hi. destruct (file_map_length _ _ _ _ Hm) as [Hlen _].
  pose proof Hm as [_ (? & ? & _) Hmap Hown ? ? ? ? ?].
  destruct (mapped_frame P _ _ _ _ Hmap Hfr) as [Hmap' Hocc]; [intros x Hx HPx; by destruct (HP x Hx)|].
  assert (∀ p, 0 ≤ p < 512 * Z.of_nat (length bs) →
    file_byte (fs_cache s') bs p = file_byte (fs_cache s) bs p) as Hb.
  { intros p Hp. unfold file_byte. rewrite (proj1 (proj2 Hfr)); [done|].
    apply HP, mapped_occupies. by apply (mapped_block (fs_cache s) (i_ptrs i)). }
  split; [split; [split|]|]; try done.
  - intros x Hx. apply Hocc in Hx. split; [by apply HP|by apply Hown].
  - intros p Hp. rewrite Hb by lia. by apply Ht.
  - unfold file_contents. apply contents_ext. intros p Hp. apply Hb. lia.
Qed.

Lemma dir_file_frame P s s' ip i bs :
  dir_file s ip i bs → frame P (fs_cache s) (fs_cache s') →
  (∀ x, occupies (fs_cache s) (i_ptrs i) bs x → ¬ P x) → free_map s' = free_map s →
  I s' → inodes s' !! ip = Some i →
  dir_file s' ip i bs ∧ file_contents s' i bs = file_contents s i bs.
Proof.
  intros [Hok ? ? Hm] Hfr HP Em HI Hi.
  destruct (file_frame P s s' ip i bs Hok Hfr) as [Hok' Ec]; [|done|done|].
  { intros x Hx. split; [by apply HP|]. rewrite Em. by apply (fo_owned _ _ _ _ (proj1 Hok)). }
  split; [|done]. split; [done..|]. by rewrite Ec.
Qed.

Local Abbreviation on_disk_file := (on_disk_file (priv := priv)).

Lemma on_disk_frame P s s' k di bs :
  on_disk_file s k di bs → frame P (fs_cache s) (fs_cache s') →
  (∀ x, x = k ∨ occupies (fs_cache s) (d_ptrs di) bs x → ¬ P x ∧ is_used (free_map s') x) →
  on_disk_file s' k di bs ∧ contents (fs_cache s') bs (d_length di) = contents (fs_cache s) bs (d_length di).
Proof.
  intros [Hd Hwf (Hk & Hp & Hu & Hno) Hmap Hown [Hl Hbs] ? ? Ht] Hfr HP.
  destruct (mapped_frame P _ _ _ _ Hmap Hfr) as [Hmap' Hocc].
  { intros x Hx HPx. by destruct (HP x (or_intror Hx)). }
  destruct (HP k (or_introl eq_refl)) as [HnP Hk'].
  assert (∀ p, 0 ≤ p < 512 * Z.of_nat (length bs) →
    file_byte (fs_cache s') bs p = file_byte (fs_cache s) bs p) as Hb.
  { intros p Hpp. unfold file_byte. rewrite (proj1 (proj2 Hfr)); [done|].
    apply HP. right. apply mapped_occupies. by apply (mapped_block (fs_cache s) (d_ptrs di)). }
  destruct (blocks_bytes (d_length di) Hl) as [Hle _].
  split; [split|]; try done.
  - by rewrite (uncached_data P _ _ _ Hfr Hu HnP).
  - split_and!; [done|done|by apply Hfr|]. by rewrite Hocc.
  - intros x Hx. apply Hocc in Hx. split; [by apply HP; right|by apply Hown].
  - intros p Hpp. rewrite Hb by lia. by apply Ht.
  - apply contents_ext. intros p Hpp. apply Hb. lia.
Qed.

(** The inode a file on disk is opened with, after its parent was set. *)
Definition adopted (k p : Z) (di : inode_disk) : inode := upd_i_parent p (opened k di).

Lemma adopted_file s s' a k p di bs :
  on_disk_file s k di bs → I s' → fs_cache s' = fs_cache s → free_map s' = free_map s →
  a ≠ NULL → a ≠ own → inodes s' !! a = Some (adopted k p di) → is_u32 p →
  file_ok (priv := priv) (own := own) (I := I) s' a (adopted k p di) bs ∧
  inode_sector_ok (priv := priv) s' (adopted k p di) bs ∧
  file_contents s' (adopted k p di) bs = contents (fs_cache s) bs (d_length di).
Proof.
  intros [Hd Hwf Hk Hm Hown [Hl Hbs] Hcur Hdir Htail] HI Ec Em Ha Ho Hi Hp.
  split_and!; [split; [split|]|..]; simpl; rewrite ?Ec, ?Em; try done.
  - unfold unlocked. simpl. destruct Hdir; auto.
  - destruct Hk as (? & ? & ? & ?). unfold inode_sector_ok. simpl. rewrite Ec, Em.
    split_and!; [done..|]. pose proof (wd_words _ Hwf) as Hw.
    apply Forall_app in Hw as [Hw1 [Hw2 _]%Forall_app]. apply Forall_cons.
    split; [by apply (Forall_lookup_1 _ _ 1 _ Hw1)|]. by apply Forall_cons.
  - unfold file_contents. by rewrite Ec.
Qed.
(** ** [dir_add] *)
Lemma find_slot_ok s ip i bs e :
  let c := file_contents s i bs in
  dir_file s ip i bs → length e = 20%nat →
  wp (find_slot ip e) (λ r s', read_only bs s s' ∧ dir_file s' ip i bs ∧
    file_contents s' i bs = c ∧ ∃ k, r.2 = 20 * Z.of_nat k ∧ length r.1 = 20%nat ∧
    (k ≤ nslots c)%nat ∧ ∀ e0, slots c !! k = Some e0 → e_in_use e0 = false) s.
Proof.
  intros c Hf He. unfold find_slot. wp_unbind. eapply wp_entries_bound; [done|]. intros n Hn.
  eapply (entries_loop (alloc := allocator uninit) s ip i bs (λ e, e_in_use e = false)
    (λ e ofs, if negb (e_in_use e) then mret (inr (e, ofs))
              else mret (inl (e, ofs + sizeof_dir_entry)))
    (λ e ofs, (e, ofs)) (λ e ofs, (e, ofs))); [done..| |].
  - intros k e1 s' _ ofs. by destruct (e_in_use e1); simpl; wp_go.
  - intros s' e' Hro Hf' Ec He'. split_and!; [done..|]. fold c.
    destruct (list_find _ (slots c)) as [[k e1]|] eqn:E; simpl.
    + apply list_find_Some in E as (Hk & Hu & _). exists k.
      pose proof Hk as [Hlt ->]%slots_lookup. split_and!; [done|by apply slot_length|lia|].
      intros e0 He0. congruence.
    + exists (nslots c). split_and!; [done|done|lia|]. intros e0 [? _]%slots_lookup. lia.
Qed.

(** The directory after [read_only] or other harmless steps. *)
Lemma read_only_fields bs s s' : read_only bs s s' →
  inodes s' = inodes s ∧ dirs s' = dirs s ∧ free_map s' = free_map s ∧
  open_inodes s' = open_inodes s ∧ malloc_outcomes s' = malloc_outcomes s ∧
  next_address s' = next_address s ∧ frame (.∈ bs) (fs_cache s) (fs_cache s').
Proof. by intros (c' & -> & _ & ?). Qed.

(** What a name is added for: a file on disk, on sectors of its own. *)
Record candidate (s : fs) (i : inode) (bs : list Z) (k : Z) (di : inode_disk) (nbs : list Z) : Prop := {
  cd_disk : on_disk_file s k di nbs;
  cd_apart : ∀ x, x = k ∨ occupies (fs_cache s) (d_ptrs di) nbs x →
    ¬ occupies (fs_cache s) (i_ptrs i) bs x }.

(** The middle part of [dir_add]: the new file learns its parent. *)
Lemma adopt_ok s dp d i bs k di nbs Q (rest : dir → M fs bool) :
  dir_file s (dir_inode d) i bs → candidate s i bs k di nbs → dirs s !! dp = Some d →
  open_ok s → not_open s k → memory_ok s → next_address s ≠ own → is_u32 (i_sector i) →
  (∀ s' di', dir_file s' (dir_inode d) i bs → file_contents s' i bs = file_contents s i bs →
     on_disk_file s' k di' nbs → d_length di' = d_length di → d_is_dir di' = d_is_dir di →
     d_ptrs di' = d_ptrs di → d_parent di' = i_sector i →
     contents (fs_cache s') nbs (d_length di) = contents (fs_cache s) nbs (d_length di) →
     frame (.= k) (fs_cache s) (fs_cache s') → free_map s' = free_map s → dirs s' = dirs s →
     open_inodes s' = open_inodes s → inodes s' = inodes s → memory_ok s' → wp (rest d) Q s') →
  wp (inode ← inode_open k; d ← dir_at dp; inumber ← inode_get_inumber (dir_inode d);
      inode_set_parent inode inumber;; inode_close uninit inode;; rest d) Q s.
Proof.
  intros Hf [Hod Hap] Hd Hop Hno (Hmo & Ha & Hfr) Hao H32 HQ.
  pose proof (df_file _ _ _ _ Hf) as Hok. pose proof (fo_inv _ _ _ _ (proj1 Hok)) as HI.
  destruct (fo_inode _ _ _ _ (proj1 Hok)) as (Hip & Hown & Hi). set (a := next_address s) in *.
  pose proof (al_space _ HI) as Hsp.
  assert (dir_inode d ≠ a) as Hne by (intros E; rewrite E, Hfr in Hi; [done|lia]).
  wp_unbind. eapply wp_mono; [apply (inode_open_new s k di); try done;
    [eapply space_valid; [done|apply (od_sector _ _ _ _ Hod)]|apply Hod..]|].
  intros a' s1 [-> ->]. fold a. wp_unbind. eapply wp_dir_at; [done|]. unfold inode_get_inumber. wp_unbind.
  eapply wp_inode_at; [simpl; rewrite lookup_insert_ne by done; exact Hi|]. wp_go.
  unfold inode_set_parent. eapply wp_inode_set; [apply lookup_insert_eq|].
  rewrite set_inodes_twice. fold (adopted k (i_sector i) di). wp_unbind.
  match goal with |- wp _ _ ?t => set (s1 := t) end.
  assert (I s1) as HI1.
  { eapply al_other; [exact HI|done..|]. simpl. by rewrite lookup_insert_ne. }
  destruct (adopted_file s s1 a k (i_sector i) di nbs) as (Hok1 & Hsec1 & Ec1); try done.
  { unfold NULL. lia. }
  { apply lookup_insert_eq. }
  eapply wp_mono; [apply (inode_close_ok uninit Hjunk (I := I) s1 a (adopted k (i_sector i) di) nbs); try done; simpl; lia|].
  intros [] s2 (di' & Hod' & El & Ed & Ep & HI2 & Ec & Ei & Eo & Emo & Ena & Hfr2 & Em & _ & Eds & Ept).
  simpl in *.
  assert (inodes s2 = inodes s) as Ei2.
  { rewrite Ei, delete_insert_eq, delete_id; [done|]. apply Hfr. lia. }
  destruct (dir_file_frame (.= k) s s2 (dir_inode d) i bs) as [Hf2 Ec2]; try done.
  { intros x Hx ->. apply (Hap k); [by left|done]. }
  { by rewrite Ei2. }
  apply (HQ s2 di'); try done.
  2: { split_and!; [done|lia|]. intros q Hq. rewrite Ei2. apply Hfr. lia. }
  rewrite Eo, filter_cons_False by (intros Hn; by apply Hn).
  apply filter_all, Forall_forall. intros q Hq ->.
  destruct (Hop a Hq) as [j Hj]. rewrite Hfr in Hj; [done|lia].
Qed.

(** The candidate while the directory is locked and read. *)
Lemma on_disk_same s s' k di bs :
  on_disk_file s k di bs → fs_cache s' = fs_cache s → free_map s' = free_map s → on_disk_file s' k di bs.
Proof. intros [] Ec Em. by split; rewrite ?Ec, ?Em. Qed.

Lemma candidate_lock s ip i bs k di nbs v :
  candidate s i bs k di nbs →
  candidate (set_inodes (<[ip := upd_i_lock v i]> (inodes s)) s) (upd_i_lock v i) bs k di nbs.
Proof. intros [Hod Hap]. split; [by eapply on_disk_same|done]. Qed.

(** A change of one inode that keeps its sector. *)
Definition inode_changed (s : fs) (ip : Z) (i i' : inode) (s' : fs) : Prop :=
  inodes s !! ip = Some i ∧ inodes s' !! ip = Some i' ∧ i_sector i' = i_sector i ∧
  (∀ q, q ≠ ip → inodes s' !! q = inodes s !! q) ∧ open_inodes s' = open_inodes s ∧
  malloc_outcomes s' = malloc_outcomes s ∧ next_address s' = next_address s.

Lemma closed_changed s ip i i' s' k :
  inode_changed s ip i i' s' → open_ok s → not_open s k → open_ok s' ∧ not_open s' k.
Proof.
  intros (Hi & Hi' & Es & Hq & Eo & _) Hop Hno. unfold open_ok, not_open. rewrite Eo. split.
  - intros q Hin. destruct (decide (q = ip)) as [->|Hne]; [by exists i'|]. rewrite Hq by done. by apply Hop.
  - intros q j Hin. destruct (decide (q = ip)) as [->|Hne].
    + rewrite Hi'. intros [= <-]. rewrite Es. by apply (Hno ip i).
    + rewrite Hq by done. by apply Hno.
Qed.

Lemma memory_changed s ip i i' s' : inode_changed s ip i i' s' → memory_ok s → memory_ok s'.
Proof.
  intros (Hi & Hi' & _ & Hq & _ & Emo & Ena) (? & ? & Hfr). split_and!; [congruence|lia|].
  rewrite Ena. intros a Ha. destruct (decide (a = ip)) as [->|Hne]; [by rewrite Hfr in Hi|].
  rewrite Hq by done. by apply Hfr.
Qed.

Lemma candidate_read s s' ip i bs k di nbs :
  dir_file s ip i bs → candidate s i bs k di nbs → read_only bs s s' →
  candidate s' i bs k di nbs ∧
  contents (fs_cache s') nbs (d_length di) = contents (fs_cache s) nbs (d_length di).
Proof.
  intros [[Hm _] _ _ _] [Hod Hap] Hro. pose proof (read_only_fields _ _ _ Hro) as
    (Ei & _ & Em & Eo & _ & _ & Hfr).
  destruct (mapped_frame _ _ _ _ _ (fo_mapped _ _ _ _ Hm) Hfr) as [_ Hocc]; [done|].
  destruct (mapped_frame (.∈ bs) _ _ _ _ (od_mapped _ _ _ _ Hod) Hfr) as [_ Hocc2].
  { intros x Hx Hb. by destruct (Hap x (or_intror Hx)); apply mapped_occupies. }
  destruct (on_disk_frame (.∈ bs) s s' k di nbs Hod Hfr) as [Hod' Ec].
  { intros x Hx. split; [intros Hb; by apply (Hap x Hx), mapped_occupies|]. rewrite Em.
    destruct Hx as [->|Hx]; [apply (od_sector _ _ _ _ Hod)|by apply (od_owned _ _ _ _ Hod)]. }
  split; [|done]. split; [done|].
  intros x. rewrite Hocc, Hocc2. apply Hap.
Qed.

Lemma candidate_adopted s s' ip i bs k di di' nbs :
  dir_file s ip i bs → candidate s i bs k di nbs → on_disk_file s' k di' nbs →
  d_ptrs di' = d_ptrs di → frame (.= k) (fs_cache s) (fs_cache s') →
  candidate s' i bs k di' nbs.
Proof.
  intros [[Hm _] _ _ _] [Hod Hap] Hod' Ep Hfr. split; [done|]. rewrite Ep.
  destruct (mapped_frame (.= k) _ _ _ _ (fo_mapped _ _ _ _ Hm) Hfr) as [_ Hocc].
  { intros x Hx ->. by destruct (Hap k (or_introl eq_refl)). }
  destruct (mapped_frame (.= k) _ _ _ _ (od_mapped _ _ _ _ Hod) Hfr) as [_ Hocc2].
  { intros x Hx ->. by destruct (od_sector _ _ _ _ Hod) as (_ & _ & _ & ?). }
  intros x. rewrite Hocc, Hocc2. apply Hap.
Qed.

(** ** Writing the entry *)
Lemma contained_refl n : contained n n.
Proof. unfold contained. assert ((n - 5) / 128 ≤ (n - 4) / 128); [apply Z.div_le_mono; lia|lia]. Qed.

Lemma write_entry_ok s ip i bs e j k di nbs :
  let c := file_contents s i bs in
  let n' := (i_length i + 20 + 511) / 512 in
  dir_file s ip i bs → i_deny_write_cnt i = 0 → length e = 20%nat → (j ≤ nslots c)%nat →
  n' ≤ MAX_BLOCKS → contained (Z.of_nat (length bs)) n' →
  total n' - total (Z.of_nat (length bs)) ≤ Z.of_nat (nfree (free_map s)) →
  on_disk_file s k di nbs →
  (∀ x, x = k ∨ occupies (fs_cache s) (d_ptrs di) nbs x → ¬ occupies (fs_cache s) (i_ptrs i) bs x) →
  wp (inode_write_at uninit (allocator uninit) ip e sizeof_dir_entry (20 * Z.of_nat j))
    (λ r s', r = sizeof_dir_entry ∧ ∃ i' new, dir_file s' ip i' (bs ++ new) ∧ kept i' = kept i ∧
       file_contents s' i' (bs ++ new) = write_bytes c (20 * Z.of_nat j) e ∧
       candidate s' i' (bs ++ new) k di nbs ∧
       contents (fs_cache s') nbs (d_length di) = contents (fs_cache s) nbs (d_length di) ∧
       (∀ q, q ≠ ip → inodes s' !! q = inodes s !! q) ∧
       s' = set_inodes (inodes s') (set_cache (fs_cache s') (set_free_map (free_map s') s))) s.
Proof.
  intros c n' [Hok Hsh Hdir Hm] Hdeny He Hj Hmax Hcon Hfree Hod Hap.
  pose proof (file_length_contents _ _ _ _ Hok) as Hlen. fold c in Hlen, Hm.
  pose proof (nslots_mult c Hm) as Hl. pose proof (fo_blocks _ _ _ _ (proj1 Hok)) as Hb.
  unfold sizeof_dir_entry.
  assert (Z.max (i_length i) (20 * Z.of_nat j + 20) = if decide (j = nslots c)
    then i_length i + 20 else i_length i) as Emax by (case_decide; lia).
  eapply wp_mono; [apply (file_write_contents uninit) with (1 := λ s n, proj1 (Hjunk s n)) (i := i) (bs := bs)|].
  all: rewrite ?Emax; try done; try lia.
  { case_decide; [done|]. rewrite <-Hb. apply (mp_max _ _ _ (fo_mapped _ _ _ _ (proj1 Hok))). }
  { case_decide; [done|]. rewrite <-Hb. apply contained_refl. }
  { case_decide; [done|]. rewrite <-Hb. lia. }
  intros r s' (-> & i' & new & Hok' & El & Es & Ec & (Hoth & Hino & Hcap & Est) & Ek & Htk).
  split; [done|]. exists i', new.
  replace (slice e 0 20) with e in Ec by (unfold slice; rewrite drop_0, take_ge by (simpl; lia); done).
  fold c in Ec. pose proof (length_write_bytes c (20 * Z.of_nat j) e) as Hlw.
  set (P := λ x, ¬ (x = k ∨ occupies (fs_cache s) (d_ptrs di) nbs x)).
  assert (∀ x, ¬ P x → x = k ∨ occupies (fs_cache s) (d_ptrs di) nbs x) as HP.
  { intros x. unfold P, occupies. apply dec_stable. }
  assert (∀ x, x = k ∨ occupies (fs_cache s) (d_ptrs di) nbs x →
    view (fs_cache s') x = view (fs_cache s) x ∧
    (uncached (fs_cache s) x → uncached (fs_cache s') x) ∧ is_used (free_map s') x) as Hkeep.
  { intros x Hx. pose proof (Hap x Hx). destruct Hx as [->|Hx].
    - destruct (od_sector _ _ _ _ Hod) as (? & ? & _). by apply Hoth.
    - destruct (od_owned _ _ _ _ Hod x Hx). by apply Hoth. }
  assert (frame P (fs_cache s) (fs_cache s')) as Hfr.
  { split_and!; [done|..]; intros x Hx; by apply Hkeep, HP. }
  destruct (on_disk_frame P s s' k di nbs Hod Hfr) as [Hod' Econ].
  { intros x Hx. split; [unfold P; auto|by apply Hkeep]. }
  assert (∀ x, occupies (fs_cache s') (d_ptrs di) nbs x ↔ occupies (fs_cache s) (d_ptrs di) nbs x) as Hocc.
  { destruct (mapped_frame P _ _ _ _ (od_mapped _ _ _ _ Hod) Hfr) as [_ ?]; [|done].
    intros x Hx HPx. destruct HPx. by right. }
  assert (candidate s' i' (bs ++ new) k di nbs) as Hcd'.
  { split; [done|]. intros x. rewrite Hocc. intros Hx Ho. destruct (Htk x Ho) as [Ho'|Hnu].
    - by apply (Hap x Hx).
    - apply Hnu. destruct Hx as [->|Hx]; [apply (od_sector _ _ _ _ Hod)|by apply (od_owned _ _ _ _ Hod)]. }
  split_and!; try done. split; [done|..].
  - rewrite El, Es, Hsh. case_decide; lia.
  - unfold kept in Ek. congruence.
  - rewrite Ec, Hlw. replace (Z.to_nat _) with (Nat.max (nslots c) (S j) * 20)%nat by lia.
    by rewrite Nat.Div0.mod_mul.
Qed.

(** The entry for a new name goes into a free slot, and the file is found under
    it from then on. *)
Lemma dir_add_ok s dp d i bs k di nbs name :
  let c := file_contents s i bs in
  let n' := (i_length i + 20 + 511) / 512 in
  dp ≠ NULL → dirs s !! dp = Some d → dir_file s (dir_inode d) i bs → i_lock i = false →
  i_deny_write_cnt i = 0 → names_ok c → good_name name → (0 < length name ≤ 14)%nat →
  dir_map c name = None → candidate s i bs k di nbs → open_ok s → not_open s k → memory_ok s → next_address s ≠ own →
  is_u32 (i_sector i) → n' ≤ MAX_BLOCKS → contained (Z.of_nat (length bs)) n' →
  total n' - total (Z.of_nat (length bs)) ≤ Z.of_nat (nfree (free_map s)) →
  wp (dir_add uninit dp name k) (λ r s', r = true ∧ ∃ i' new di',
    dir_file s' (dir_inode d) i' (bs ++ new) ∧ kept i' = kept i ∧
    let c' := file_contents s' i' (bs ++ new) in
    names_ok c' ∧ (∀ nm, dir_map c' nm = if decide (nm = name) then Some k else dir_map c nm) ∧
    candidate s' i' (bs ++ new) k di' nbs ∧ d_length di' = d_length di ∧ d_is_dir di' = d_is_dir di ∧
    d_parent di' = i_sector i ∧
    contents (fs_cache s') nbs (d_length di) = contents (fs_cache s) nbs (d_length di) ∧
    dirs s' = dirs s ∧ open_ok s' ∧ not_open s' k ∧ memory_ok s') s.
Proof.
  intros c n' Hdp Hd Hf Hlock Hdeny Hno Hg Hlen Hmiss Hcd Hop Hcl Hmem Hown H32 Hmax Hcon Hfree.
  destruct (fo_inode _ _ _ _ (proj1 (df_file _ _ _ _ Hf))) as (_ & _ & Hi).
  unfold dir_add. wp_assert (by apply negb_true_iff, Z.eqb_neq).
  eapply wp_dir_get_inode; [done|]. wp_unbind. eapply wp_inode_lock_acquire; [done..|].
  rewrite (proj2 (Nat.eqb_neq _ _)), (proj2 (Z.ltb_ge _ _)) by (unfold NAME_MAX; lia). simpl orb. cbn iota.
  unfold local_entry. wp_go. set (ip := dir_inode d) in *. set (i1 := upd_i_lock true i).
  match goal with |- wp _ _ ?t => set (s1 := t) end.
  assert (dir_file s1 ip i1 bs) as Hf1 by by apply dir_file_lock.
  pose proof (candidate_lock s ip i bs k di nbs true Hcd) as Hcd1. fold i1 s1 in Hcd1.
  assert (inode_changed s ip i i1 s1) as Hch1.
  { split_and!; try done; [apply lookup_insert_eq|]. intros q Hq. simpl. by rewrite lookup_insert_ne. }
  destruct (closed_changed _ _ _ _ _ k Hch1 Hop Hcl) as [Hop1 Hcl1].
  eapply wp_mono; [by apply (lookup_ok s1 dp d i1 bs name)|].
  intros r s2 (Hro2 & Hf2 & Ec2 & ->). change (file_contents s1 i1 bs) with c in *.
  replace (found name c) with (@None (bytes * Z)).
  2: { unfold found. unfold dir_map in Hmiss. by destruct (list_find _ _) as [[]|]. }
  destruct (candidate_read _ _ _ _ _ _ _ _ Hf1 Hcd1 Hro2) as [Hcd2 En2].
  pose proof (read_only_fields _ _ _ Hro2) as (Ei2 & Ed2 & Em2 & Eo2 & Emo2 & Ena2 & _).
  pose proof (memory_changed _ _ _ _ _ Hch1 Hmem) as Hmem1.
  cbn beta iota zeta. apply (proj2 (wp_bind _ _ _ _)).
  apply (adopt_ok s2 dp d i1 bs k di nbs _ (λ d, '(e, ofs) ← find_slot (dir_inode d) (words_to_bytes (uninit s1 5));
    n ← inode_write_at uninit (allocator uninit) (dir_inode d) (new_entry name k e) sizeof_dir_entry ofs;
    mret (n =? sizeof_dir_entry))); [done|done|by rewrite Ed2|..|by rewrite Ena2|done|].
  { unfold open_ok. by rewrite Ei2, Eo2. }
  { unfold not_open. by rewrite Ei2, Eo2. }
  { destruct Hmem1 as (? & ? & ?). by split_and!; rewrite ?Ei2, ?Emo2, ?Ena2. }
  intros s3 di' Hf3 Ec3 Hod3 El Edr Ept Epar En3 Hfr3 Em3 Ed3 Eo3 Ei3 Hmem3. wp_unbind. fold ip in Hf3 |- *.
  eapply wp_mono; [apply (find_slot_ok s3 ip i1 bs _ Hf3); apply length_local_entry|].
  intros [e ofs] s4 (Hro4 & Hf4 & Ec4 & j & Eofs & He & Hj & Hfree_j). simpl in Eofs, He. subst ofs.
  rewrite Ec3, Ec2 in *.
  assert (candidate s3 i1 bs k di' nbs) as Hcd3.
  { apply (candidate_adopted s2 s3 ip i1 bs k di di' nbs); try done. }
  destruct (candidate_read _ _ _ _ _ _ _ _ Hf3 Hcd3 Hro4) as [Hcd4 En4].
  pose proof (read_only_fields _ _ _ Hro4) as (Ei4 & Ed4 & Em4 & Eo4 & Emo4 & Ena4 & _).
  destruct (new_entry_ok name k e He) as (He' & Hent & Hsec); [lia|done| |].
  { eapply valid_is_u32, space_valid; [|apply (od_sector _ _ _ _ (cd_disk _ _ _ _ _ _ Hcd))].
    apply (al_space s), (fo_inv _ _ _ _ (proj1 (df_file _ _ _ _ Hf))). }
  wp_unbind. eapply wp_mono; [apply (write_entry_ok s4 ip i1 bs (new_entry name k e) j k di' nbs); try done|].
  { by rewrite Ec4. }
  { by rewrite Em4, Em3, Em2. }
  { apply Hcd4. }
  { apply Hcd4. }
  intros r s5 (-> & i5 & new & Hf5 & Ek5 & Ec5 & Hcd5 & En5 & Hino5 & Est5). wp_go.
  assert (dirs s5 = dirs s4) as Ed5 by by rewrite Est5.
  eapply wp_dir_get_inode; [by rewrite Ed5, Ed4, Ed3, Ed2|]. wp_unbind.
  destruct (fo_inode _ _ _ _ (proj1 (df_file _ _ _ _ Hf5))) as (_ & _ & Hi5).
  eapply wp_inode_lock_release; [exact Hi5|unfold kept in Ek5; simpl in Ek5; congruence|]. wp_go.
  set (s6 := set_inodes _ s5).
  assert (inode_changed s3 ip i1 (upd_i_lock false i5) s6) as Hch6.
  { split_and!.
    - rewrite Ei3, Ei2. apply lookup_insert_eq.
    - apply lookup_insert_eq.
    - unfold kept in Ek5. simpl in *. congruence.
    - intros q Hq. simpl. rewrite lookup_insert_ne, Hino5, Ei4 by done. done.
    - simpl. by rewrite Est5.
    - simpl. by rewrite Est5.
    - simpl. by rewrite Est5. }
  destruct (closed_changed _ _ _ _ _ k Hch6) as [Hop6 Hcl6].
  { unfold open_ok. rewrite Ei3, Ei2, Eo3, Eo2. done. }
  { unfold not_open. rewrite Ei3, Ei2, Eo3, Eo2. done. }
  split; [done|]. exists (upd_i_lock false i5), new, di'. rewrite Ec4 in Ec5.
  split_and!; [by apply dir_file_lock|unfold kept in *; simpl in *; congruence|..].
  all: change (file_contents _ (upd_i_lock false i5) (bs ++ new)) with (file_contents s5 i5 (bs ++ new));
    rewrite ?Ec5.
  - by apply (names_ok_add c j name); [| apply (df_mult _ _ _ _ Hf)|..].
  - by apply dir_map_add; [| apply (df_mult _ _ _ _ Hf)|..].
  - by apply candidate_lock.
  - done.
  - done.
  - done.
  - simpl. by rewrite <-El, En5, En4, El, En3, En2.
  - simpl. by rewrite Ed5, Ed4, Ed3, Ed2.
  - done.
  - done.
  - by apply (memory_changed s3 ip i1 (upd_i_lock false i5)).
Qed.

(** ** [dir_lookup] *)
Lemma lock_unlock i : i_lock i = false → upd_i_lock false (upd_i_lock true i) = i.
Proof. intros Hl. by rewrite upd_i_lock_twice, <-Hl, upd_i_lock_self. Qed.

Lemma opened_adopted k di : adopted k (d_parent di) di = opened k di.
Proof. done. Qed.

(** Opening the file of an entry beside the locked directory. *)
Lemma open_beside s ip i bs k di0 nbs0 (Q : Z → fs → Prop) :
  dir_file s ip i bs → candidate s i bs k di0 nbs0 → open_ok s → not_open s k →
  memory_ok s → next_address s ≠ own →
  (∀ s', dir_file s' ip i bs → file_contents s' i bs = file_contents s i bs → dirs s' = dirs s →
     fs_cache s' = fs_cache s → free_map s' = free_map s →
     (∀ di nbs, candidate s i bs k di nbs →
        inodes s' !! next_address s = Some (opened k di)) →
     Q (next_address s) s') →
  wp (inode_open k) Q s.
Proof.
  intros Hf [Hod _] Hop Hcl (Hmo & Ha & Hfr) Hown HQ.
  pose proof (df_file _ _ _ _ Hf) as Hok. pose proof (fo_inv _ _ _ _ (proj1 Hok)) as HI.
  destruct (fo_inode _ _ _ _ (proj1 Hok)) as (_ & _ & Hi).
  assert (ip ≠ next_address s) as Hne by (intros ->; by rewrite Hfr in Hi).
  eapply wp_mono; [apply (inode_open_new s k di0); try done;
    [eapply space_valid; [by apply (al_space s)|apply (od_sector _ _ _ _ Hod)]|apply Hod..]|].
  intros a s1 [-> ->]. set (s1 := set_inodes _ _).
  destruct (dir_file_frame (λ _, False) s s1 ip i bs) as [Hf1 Ec1]; try done.
  { auto. }
  { eapply al_other; [exact HI|done..|]. simpl. by rewrite lookup_insert_ne. }
  { simpl. by rewrite lookup_insert_ne. }
  apply HQ; try done. intros di nbs [Hod2 _]. simpl. rewrite lookup_insert_eq. do 2 f_equal.
  rewrite <-(inode_disk_roundtrip di0), <-(inode_disk_roundtrip di) by apply Hod || apply Hod2.
  rewrite <-(od_data _ _ _ _ Hod), <-(od_data _ _ _ _ Hod2). done.
Qed.

(** The same for a file that is open already, at [q]: its inode is shared. *)
Definition reopened (j : inode) : inode := upd_i_open_cnt (i_open_cnt j + 1) j.

(** The inode of sector [k] among the open ones, as [inode_open] searches
    them. *)
Definition open_at (s : fs) (k q : Z) (j : inode) : Prop :=
  q ≠ NULL ∧ inodes s !! q = Some j ∧ i_sector j = k ∧
  ∃ l1 l2, open_inodes s = l1 ++ q :: l2 ∧
    ∀ p, p ∈ l1 → ∃ j', inodes s !! p = Some j' ∧ i_sector j' ≠ k.

Lemma open_at_unique s k q j q' j' :
  open_at s k q j → open_at s k q' j' → q = q' ∧ j = j'.
Proof.
  intros (_ & Hj & Hk & l1 & l2 & E & Hl) (_ & Hj' & Hk' & l1' & l2' & E' & Hl').
  assert (q = q') as ->; [|split; [done|congruence]].
  rewrite E in E'. clear E. revert l1' E' Hl'. induction l1 as [|p l1 IH]; intros [|p' l1'] E' Hl';
    simplify_eq/=; [done|..].
  - destruct (Hl' p' ltac:(left)) as (? & ? & ?). congruence.
  - destruct (Hl q' ltac:(left)) as (? & ? & ?). congruence.
  - apply (IH (λ p Hp, Hl p (list_elem_of_further _ _ _ Hp)) l1'); [done|].
    intros p Hp. apply Hl'. by right.
Qed.

Lemma open_at_changed s ip i i' s' k q j :
  inode_changed s ip i i' s' → q ≠ ip → open_at s k q j → open_at s' k q j.
Proof.
  intros (Hi & Hi' & Es & Hne & Eo & _) Hq (Hq0 & Hj & Hk & l1 & l2 & El & Hl).
  split_and!; [done|by rewrite Hne|done|]. exists l1, l2. split; [by rewrite Eo|].
  intros p Hp. destruct (decide (p = ip)) as [->|Hp0]; [|by rewrite Hne by done; apply Hl].
  exists i'. split; [done|]. rewrite Es. destruct (Hl ip Hp) as (j' & Hj' & Hjk). congruence.
Qed.

Lemma reopen_beside s ip i bs k q j (Q : Z → fs → Prop) :
  dir_file s ip i bs → open_at s k q j → q ≠ ip → q ≠ own →
  (∀ s', s' = set_inodes (<[q := reopened j]> (inodes s)) s → dir_file s' ip i bs →
     file_contents s' i bs = file_contents s i bs → Q q s') →
  wp (inode_open k) Q s.
Proof.
  intros Hf (Hq0 & Hj & Hk & l1 & l2 & El & Hl) Hqi Hqo HQ.
  pose proof (df_file _ _ _ _ Hf) as Hok. destruct (fo_inode _ _ _ _ (proj1 Hok)) as (_ & _ & Hi).
  eapply wp_mono; [by apply (inode_open_again s k l1 q j l2)|]. intros r s' [-> ->].
  match goal with |- Q q ?t => set (s1 := t) end.
  destruct (dir_file_frame (λ _, False) s s1 ip i bs) as [Hf1 Ec1]; try done.
  { auto. }
  { apply al_inode; [|done]. apply (fo_inv _ _ _ _ (proj1 Hok)). }
  { simpl. by rewrite lookup_insert_ne. }
  by apply HQ.
Qed.

(** [dir_lookup] finds the entry in the directory it locks, opens its sector
    and unlocks. *)
Lemma dir_lookup_steps s dp d i bs name Q :
  let c := file_contents s i bs in
  let ip := dir_inode d in
  let s1 := set_inodes (<[ip := upd_i_lock true i]> (inodes s)) s in
  dp ≠ NULL → dirs s !! dp = Some d → dir_file s ip i bs → i_lock i = false →
  names_ok c → good_name name →
  (∀ s2, read_only bs s1 s2 → dir_file s2 ip (upd_i_lock true i) bs →
     file_contents s2 (upd_i_lock true i) bs = c →
     match dir_map c name with
     | None => Q NULL (set_inodes (<[ip := i]> (inodes s2)) s2)
     | Some k => wp (inode_open k) (λ r s3, dir_file s3 ip (upd_i_lock true i) bs ∧
         dirs s3 = dirs s2 ∧ Q r (set_inodes (<[ip := i]> (inodes s3)) s3)) s2
     end) →
  wp (dir_lookup uninit dp name) Q s.
Proof.
  intros c ip s1 Hdp Hd Hf Hlock Hno Hg HQ.
  destruct (fo_inode _ _ _ _ (proj1 (df_file _ _ _ _ Hf))) as (_ & _ & Hi). fold ip in Hi.
  unfold dir_lookup. wp_assert (by apply negb_true_iff, Z.eqb_neq).
  eapply wp_dir_get_inode; [done|]. wp_unbind. eapply wp_inode_lock_acquire; [done..|].
  fold ip. fold s1. set (i1 := upd_i_lock true i) in *. wp_unbind.
  assert (dir_file s1 ip i1 bs) as Hf1 by by apply dir_file_lock.
  eapply wp_mono; [by apply (lookup_ok s1 dp d i1 bs name)|].
  intros r s2 (Hro2 & Hf2 & Ec2 & ->). change (file_contents s1 i1 bs) with c in *. fold ip in Hf2.
  specialize (HQ s2 Hro2 Hf2 Ec2).
  pose proof (read_only_fields _ _ _ Hro2) as (Ei2 & Ed2 & _).
  assert (upd_i_lock false i1 = i) as Eun by by apply lock_unlock.
  destruct (dir_map c name) as [k|] eqn:Emap.
  - assert (∃ e ofs, found name c = Some (e, ofs) ∧ e_inode_sector e = k) as (e & ofs & -> & ->).
    { unfold found, dir_map in *. destruct (list_find _ _) as [[m e]|]; simplify_eq/=. by eexists _, _. }
    wp_unbind. eapply wp_mono; [exact HQ|]. intros r s3 (Hf3 & Ed3 & HQ3). wp_unbind.
    eapply wp_dir_get_inode; [by rewrite Ed3, Ed2|].
    destruct (fo_inode _ _ _ _ (proj1 (df_file _ _ _ _ Hf3))) as (_ & _ & Hi3). wp_unbind.
    eapply wp_inode_lock_release; [exact Hi3|done|]. wp_go. by rewrite Eun.
  - assert (found name c = None) as ->.
    { unfold found, dir_map in *. by destruct (list_find _ _) as [[m e]|]. }
    wp_go. eapply wp_dir_get_inode; [by rewrite Ed2|]. wp_unbind.
    eapply wp_inode_lock_release; [rewrite Ei2; apply lookup_insert_eq|done|]. wp_go.
    by rewrite Eun.
Qed.

(** What the directory and its file system look like when [dir_lookup] has
    unlocked it. *)
Lemma lookup_unlocked s ip i bs s2 s3 :
  dir_file s ip i bs → i_lock i = false →
  read_only bs (set_inodes (<[ip := upd_i_lock true i]> (inodes s)) s) s2 →
  dir_file s3 ip (upd_i_lock true i) bs →
  file_contents s3 (upd_i_lock true i) bs = file_contents s i bs →
  fs_cache s3 = fs_cache s2 → free_map s3 = free_map s2 →
  let s' := set_inodes (<[ip := i]> (inodes s3)) s3 in
  dir_file s' ip i bs ∧ file_contents s' i bs = file_contents s i bs ∧
  frame (.∈ bs) (fs_cache s) (fs_cache s') ∧ free_map s' = free_map s.
Proof.
  intros Hf Hl Hro Hf3 Ec Efc Efm s'. pose proof (read_only_fields _ _ _ Hro) as (_ & _ & Em & _ & _ & _ & Hfr).
  pose proof (dir_file_lock s3 ip (upd_i_lock true i) bs false Hf3) as Hf4.
  rewrite (lock_unlock i Hl) in Hf4. split_and!; [done|done|by simpl; rewrite Efc|by simpl; rewrite Efm, Em].
Qed.

(** The file of an entry that was not open. *)
Lemma lookup_opens s ip i bs k di0 nbs0 s2 (Q : Z → fs → Prop) :
  let i1 := upd_i_lock true i in
  let s1 := set_inodes (<[ip := i1]> (inodes s)) s in
  dir_file s ip i bs → i_lock i = false → read_only bs s1 s2 → dir_file s2 ip i1 bs →
  memory_ok s → next_address s ≠ own → open_ok s → not_open s k → candidate s i bs k di0 nbs0 →
  (∀ r s3, r ≠ NULL → dir_file s3 ip i1 bs → file_contents s3 i1 bs = file_contents s2 i1 bs →
     dirs s3 = dirs s2 → fs_cache s3 = fs_cache s2 → free_map s3 = free_map s2 →
     (∀ di nbs, candidate s i bs k di nbs →
        let s' := set_inodes (<[ip := i]> (inodes s3)) s3 in
        file_ok (priv := priv) (own := own) (I := I) s' r (opened k di) nbs ∧
        file_contents s' (opened k di) nbs = contents (fs_cache s) nbs (d_length di)) → Q r s3) →
  wp (inode_open k) Q s2.
Proof.
  intros i1 s1 Hf Hlock Hro2 Hf2 Hmem Hown Hop Hcl Hcd0 HQ.
  destruct (fo_inode _ _ _ _ (proj1 (df_file _ _ _ _ Hf))) as (_ & _ & Hi).
  assert (dir_file s1 ip i1 bs) as Hf1 by by apply dir_file_lock.
  pose proof (read_only_fields _ _ _ Hro2) as (Ei2 & Ed2 & Em2 & Eo2 & Emo2 & Ena2 & Hfr2).
  assert (inode_changed s ip i i1 s1) as Hch1.
  { split_and!; try done; [apply lookup_insert_eq|]. intros q Hq. simpl. by rewrite lookup_insert_ne. }
  destruct (closed_changed _ _ _ _ _ k Hch1 Hop Hcl) as [Hop1 Hcl1].
  destruct (memory_changed _ _ _ _ _ Hch1 Hmem) as (Hmo1 & Ha1 & Hfr1).
  assert (∀ di nbs, candidate s i bs k di nbs → candidate s2 i1 bs k di nbs ∧
    contents (fs_cache s2) nbs (d_length di) = contents (fs_cache s) nbs (d_length di)) as Hcd2.
  { intros di nbs Hcd. apply (candidate_read s1 s2 ip i1 bs k di nbs Hf1); [by apply candidate_lock|done]. }
  destruct (Hcd2 _ _ Hcd0) as [Hcd0' _].
  eapply (open_beside s2 ip i1 bs k); [done|exact Hcd0'|..].
  { unfold open_ok. by rewrite Ei2, Eo2. }
  { unfold not_open. by rewrite Ei2, Eo2. }
  { by split_and!; rewrite ?Ei2, ?Emo2, ?Ena2. }
  { by rewrite Ena2. }
  intros s3 Hf3 Ec3 Ed3 Efc Efm Hin.
  apply HQ; [unfold NULL; rewrite Ena2; lia|done..|]. intros di nbs Hcd s'.
  pose proof (dir_file_lock s3 ip i1 bs false Hf3) as Hf4.
  rewrite (lock_unlock i Hlock : upd_i_lock false i1 = i) in Hf4.
  destruct (Hcd2 _ _ Hcd) as [Hcd' Econ]. rewrite <-opened_adopted, <-Econ.
  pose proof (wd_words _ (od_wf _ _ _ _ (cd_disk _ _ _ _ _ _ Hcd))) as Hw.
  apply Forall_app in Hw as [Hw1 _].
  destruct (adopted_file s2 s' (next_address s2) k (d_parent di) di nbs)
    as (Hok & _ & Ec); try done; [apply Hcd'|apply Hf4|unfold NULL; rewrite Ena2; lia|by rewrite Ena2| |
      by apply (Forall_lookup_1 _ _ 6 _ Hw1)].
  simpl. rewrite lookup_insert_ne; [by apply (Hin di nbs)|]. intros E.
  destruct Hch1 as (_ & Hi1 & _). by rewrite E, Ena2, Hfr1 in Hi1 by done.
Qed.

(** The file of an entry that is open already. *)
Lemma lookup_shares s ip i bs k q j s2 (Q : Z → fs → Prop) :
  let i1 := upd_i_lock true i in
  let s1 := set_inodes (<[ip := i1]> (inodes s)) s in
  dir_file s ip i bs → read_only bs s1 s2 → dir_file s2 ip i1 bs →
  open_at s k q j → q ≠ ip → q ≠ own →
  (∀ s3, dir_file s3 ip i1 bs → file_contents s3 i1 bs = file_contents s2 i1 bs →
     dirs s3 = dirs s2 → fs_cache s3 = fs_cache s2 → free_map s3 = free_map s2 →
     let s' := set_inodes (<[ip := i]> (inodes s3)) s3 in
     I s' → inodes s' = <[q := reopened j]> (inodes s) → Q q s3) →
  wp (inode_open k) Q s2.
Proof.
  intros i1 s1 Hf Hro2 Hf2 Hat Hqi Hqo HQ.
  destruct (fo_inode _ _ _ _ (proj1 (df_file _ _ _ _ Hf))) as (_ & Hio & Hi).
  pose proof (read_only_fields _ _ _ Hro2) as (Ei2 & Ed2 & Em2 & Eo2 & Emo2 & Ena2 & Hfr2).
  assert (inode_changed s ip i i1 s1) as Hch1.
  { split_and!; try done; [apply lookup_insert_eq|]. intros p Hp. simpl. by rewrite lookup_insert_ne. }
  assert (open_at s2 k q j) as Hat2.
  { pose proof (open_at_changed _ _ _ _ _ _ _ _ Hch1 Hqi Hat) as H1. unfold open_at. by rewrite Ei2, Eo2. }
  eapply (reopen_beside s2 ip i1 bs k q j); [done|exact Hat2|done..|].
  intros s3 Es3 Hf3 Ec3. apply HQ; try (by rewrite Es3); try done.
  - apply al_inode; [|done]. apply (fo_inv _ _ _ _ (proj1 (df_file _ _ _ _ Hf3))).
  - rewrite Es3. simpl. rewrite Ei2. simpl. rewrite insert_insert_ne, insert_insert_eq by done.
    by rewrite (insert_id (inodes s) ip i).
Qed.

(** An open file beside the directory, after its count was raised. *)
Lemma reopened_file s s' ip i bs q j nbs :
  dir_file s ip i bs → file_ok (priv := priv) (own := own) (I := I) s q j nbs →
  (∀ x, occupies (fs_cache s) (i_ptrs j) nbs x → ¬ occupies (fs_cache s) (i_ptrs i) bs x) →
  frame (.∈ bs) (fs_cache s) (fs_cache s') → free_map s' = free_map s → I s' →
  inodes s' !! q = Some (reopened j) →
  file_ok (priv := priv) (own := own) (I := I) s' q (reopened j) nbs ∧
  file_contents s' (reopened j) nbs = file_contents s j nbs.
Proof.
  intros Hf Hok Hap Hfr Em HI Hq. pose proof Hok as [Hm _].
  assert (I (set_inodes (<[q := reopened j]> (inodes s)) s)) as HI1.
  { apply al_inode; apply Hm. }
  assert (file_ok (priv := priv) (own := own) (I := I)
    (set_inodes (<[q := reopened j]> (inodes s)) s) q (reopened j) nbs) as Hok1.
  { destruct Hok as [[? (? & ? & ?) ? ? ? ? ? ? ?] ?].
    split; [split|]; try done. split_and!; [done..|apply lookup_insert_eq]. }
  eapply (file_frame (.∈ bs)) in Hok1 as [Hok2 Ec]; [|exact Hfr| |exact HI|exact Hq]; [done|].
  intros x Hx. split; [intros Hb; by apply (Hap x Hx), mapped_occupies|].
  rewrite Em. by apply (fo_owned _ _ _ _ Hm).
Qed.

(** All outcomes: no entry, or the file of the entry is opened, or shared if it
    is open. *)
Lemma dir_lookup_ok s dp d i bs name :
  let c := file_contents s i bs in
  let ip := dir_inode d in
  dp ≠ NULL → dirs s !! dp = Some d → dir_file s ip i bs → i_lock i = false →
  names_ok c → good_name name → memory_ok s → next_address s ≠ own → open_ok s →
  (∀ k, dir_map c name = Some k →
     (∃ q j, open_at s k q j ∧ q ≠ ip ∧ q ≠ own) ∨
     (not_open s k ∧ ∃ di nbs, candidate s i bs k di nbs)) →
  wp (dir_lookup uninit dp name) (λ r s', (dir_file s' ip i bs ∧ file_contents s' i bs = c ∧
      frame (.∈ bs) (fs_cache s) (fs_cache s') ∧ free_map s' = free_map s) ∧
    dirs s' = dirs s ∧
    match dir_map c name with
    | None => r = NULL ∧ inodes s' = inodes s
    | Some k => r ≠ NULL ∧
        (∀ q j, open_at s k q j → r = q ∧ inodes s' = <[q := reopened j]> (inodes s)) ∧
        (not_open s k → ∀ di nbs, candidate s i bs k di nbs →
           file_ok (priv := priv) (own := own) (I := I) s' r (opened k di) nbs ∧
           file_contents s' (opened k di) nbs = contents (fs_cache s) nbs (d_length di))
    end) s.
Proof.
  intros c ip Hdp Hd Hf Hlock Hno Hg Hmem Hown Hop Hfile.
  destruct (fo_inode _ _ _ _ (proj1 (df_file _ _ _ _ Hf))) as (_ & _ & Hi).
  apply (dir_lookup_steps s dp d i bs name); try done. intros s2 Hro2 Hf2 Ec2.
  pose proof (read_only_fields _ _ _ Hro2) as (Ei2 & Ed2 & _).
  fold c in Ec2 |- *. fold ip in Hro2, Hf2 |- *. destruct (dir_map c name) as [k|].
  - destruct (Hfile k eq_refl) as [(q & j & Hat & Hqi & Hqo)|(Hcl & di0 & nbs0 & Hcd0)].
    + apply (lookup_shares s ip i bs k q j s2); try done.
      intros s3 Hf3 Ec3 Ed3 Efc Efm s' HI' Ei'. split; [done|split; [done|]].
      split; [|split; [by simpl; rewrite Ed3, Ed2|split; [apply Hat|split]]].
      * eapply lookup_unlocked; try done. by rewrite Ec3.
      * intros q' j' Hat'. destruct (open_at_unique _ _ _ _ _ _ Hat Hat') as [<- <-]. done.
      * intros Hcl. destruct Hat as (_ & Hj & Hk & l1 & l2 & El & _).
        destruct (Hcl q j); [|done..]. rewrite El. apply elem_of_app. right. by left.
    + apply (lookup_opens s ip i bs k di0 nbs0 s2); try done.
      intros r s3 Hr Hf3 Ec3 Ed3 Efc Efm Hnew. split; [done|split; [done|]].
      split; [|split; [by simpl; rewrite Ed3, Ed2|split; [done|split]]].
      * eapply lookup_unlocked; try done. by rewrite Ec3.
      * intros q j (_ & Hj & Hk & l1 & l2 & El & _). destruct (Hcl q j); [|done..].
        rewrite El. apply elem_of_app. right. by left.
      * intros _. exact Hnew.
  - split; [by eapply lookup_unlocked|split; [by simpl; rewrite Ed2|split; [done|]]].
    simpl. rewrite Ei2. simpl. by rewrite insert_insert_eq, insert_id.
Qed.
End ops.
