(* ===== verification/PathSpec.v ===== *)
(** Reading a directory ([dir_readdir], [filesys/directory.c]) and taking a
    path apart ([parse_file], [filesys/filesys.c]). *)
From Stdlib Require Import ZArith Lia.
From stdpp Require Import base tactics option numbers list gmap.
From S2P Require Import Prelude Bytes Disk FsState Inode.
From S2P Require CString Bitmap.
From S2P Require Import Cache InodeIO FreeMap Grow InodeWrite InodeLife Directory DirSpec.
Import Cache.Correct.

Open Scope Z_scope.

(** * The copy of a path in memory *)
Lemma bytes_at_lookup a bs i b :
  bs !! i = Some b → bytes_at a bs !! (a + Z.of_nat i) = Some b.
Proof.
  intros Hi. unfold bytes_at. apply elem_of_list_to_map.
  - rewrite fst_zip by (rewrite length_seqZ; lia). apply NoDup_seqZ.
  - apply list_elem_of_lookup. exists i. apply lookup_zip_Some. split; [|done].
    apply lookup_seqZ. apply lookup_lt_Some in Hi. lia.
Qed.

Lemma bytes_at_block a bs : CString.block (bytes_at a bs) a bs.
Proof. intros i b. apply bytes_at_lookup. Qed.

(** The copy and the delimiters, as strings that do not overlap. *)
Lemma name_copy_ok p name :
  0 < p → good_name name →
  let '(m, d) := name_copy p name in
  CString.cstr m p name ∧ CString.cstr m d [SLASH] ∧ p + Z.of_nat (length name) < d.
Proof.
  intros Hp Hg. simpl. set (m := bytes_at p (name ++ [0; SLASH; 0])).
  assert (CString.block m p ((name ++ [0]) ++ [SLASH; 0])) as Hb.
  { rewrite <-app_assoc. apply bytes_at_block. }
  apply CString.block_app in Hb as [H1 H2]. rewrite length_app in H2. simpl in H2.
  split_and!; [by split_and!| |lia]. split_and!; [lia| |repeat constructor; unfold SLASH; lia].
  by replace (p + Z.of_nat (length name) + 1) with (p + Z.of_nat (length name + 1)) by lia.
Qed.

(** Reading a string out of the copy. *)
Lemma string_at_ok m a bs (s : fs) :
  CString.cstr m a bs → wp (string_at m a) (λ r s', r = bs ∧ s' = s) s.
Proof.
  intros Hs. unfold string_at.
  eapply (wp_loop (λ k '(p, acc) s', s' = s ∧ ∃ rest, bs = acc ++ rest ∧
    p = a + Z.of_nat (length acc) ∧ k = length rest)).
  2: { split; [done|]. exists bs. split_and!; [done|simpl; lia|done]. }
  2: { apply CString.cstr_size in Hs. lia. }
  intros k [p acc] s' (-> & rest & E & -> & ->). rewrite E in Hs. apply CString.cstr_suffix in Hs.
  destruct rest as [|x rest].
  - pose proof (CString.cstr_end _ _ _ Hs) as H0. simpl in H0. rewrite Z.add_0_r in H0.
    rewrite H0. wp_go. simpl. by rewrite app_nil_r in E.
  - destruct (CString.cstr_byte _ _ _ 0 x Hs eq_refl) as [Hx Hb]. rewrite Z.add_0_r in Hx.
    rewrite Hx. wp_go. rewrite (proj2 (Z.eqb_neq x 0)) by lia. exists (length rest).
    split; [simpl; lia|]. split; [done|]. exists rest. rewrite <-app_assoc, length_app. simpl.
    split_and!; [done|lia|done].
Qed.

Lemma wp_on_copy {A} m (op : M CString.mem A) Q (s : fs) :
  wp op (λ a m', Q (a, m') s) m → wp (on_copy m op) Q s.
Proof.
  rewrite !wp_ok. intros (a & m' & E & HQ). exists (a, m'), s. unfold on_copy. by rewrite E.
Qed.

(** One more token of the copy. *)
Lemma next_token m d s0 save0 p xs (s : fs) Q :
  CString.cstr m p xs → CString.cstr m d [SLASH] → p + Z.of_nat (length xs) < d →
  p = (if s0 =? CString.NULL then save0 else s0) →
  (CString.tokens [SLASH] xs = [] → ∀ save, Q (NULL, save, m) s) →
  (∀ tok save m' t rest, CString.tokens [SLASH] xs = t :: CString.tokens [SLASH] rest →
     (length rest < length xs)%nat → tok ≠ NULL → CString.cstr m' tok t →
     CString.cstr m' save rest → CString.cstr m' d [SLASH] →
     save + Z.of_nat (length rest) < d → Q (tok, save, m') s) →
  wp (on_copy m (CString.Ops.strtok_r s0 d save0)) Q s.
Proof.
  intros Hs Hd Hlt Ep Hnone Hsome. apply wp_on_copy.
  eapply wp_mono; [apply (CString.strtok_r_ok m d [SLASH] p xs); [done|done|lia|done]|].
  intros [tok save] m' H. rewrite CString.tokens_eq in Hnone.
  pose proof (CString.tokens_eq [SLASH] xs) as Et.
  pose proof (CString.skip_length [SLASH] xs) as Hsk.
  destruct (CString.skip [SLASH] xs) as [|x rest] eqn:E; cbn [fst snd] in H.
  - destruct H as [-> ->]. by apply Hnone.
  - destruct H as (Hle & Ht & Ha & H1 & H2 & Hch). pose proof Hs as (Hp & _).
    assert (x ∉ [SLASH]) as Hx by by eapply CString.skip_head.
    assert (length (CString.after [SLASH] (x :: rest)) < length xs)%nat.
    { simpl. rewrite decide_False by done. pose proof (CString.after_length [SLASH] rest).
      simpl in Hsk. lia. }
    apply (Hsome _ _ _ _ _ Et); [done|unfold NULL; lia|done|done| |lia].
    eapply CString.cstr_changes; [exact Hch|lia|done].
Qed.

(** The position of [parse_file] in the path: [done] are the tokens it has
    seen, [next] points to the next one, [k] bounds the number of turns left. *)
Definition at_token (name : bytes) (d : Z) (m : CString.mem) (done : list bytes)
    (next save : Z) (k : nat) : Prop :=
  (next = NULL ∧ CString.tokens [SLASH] name = done ∧ k = 0%nat) ∨
  (∃ t rest, CString.tokens [SLASH] name = done ++ t :: CString.tokens [SLASH] rest ∧
     next ≠ NULL ∧ CString.cstr m next t ∧ CString.cstr m save rest ∧
     CString.cstr m d [SLASH] ∧ save + Z.of_nat (length rest) < d ∧ k = S (length rest)).

(** A call of [strtok_r] moves on to the next token. *)
Lemma at_token_step name d m done s0 save0 p xs (s : fs) :
  CString.cstr m p xs → CString.cstr m d [SLASH] → p + Z.of_nat (length xs) < d →
  p = (if s0 =? CString.NULL then save0 else s0) →
  CString.tokens [SLASH] name = done ++ CString.tokens [SLASH] xs →
  wp (on_copy m (CString.Ops.strtok_r s0 d save0)) (λ '(next, save, m') s',
    s' = s ∧ ∃ k, (k ≤ length xs)%nat ∧ at_token name d m' done next save k) s.
Proof.
  intros Hs Hd Hlt Ep Et. apply (next_token m d s0 save0 p xs); [done..| |].
  - intros E save. split; [done|]. exists 0%nat. split; [lia|]. left.
    by rewrite E, app_nil_r in Et.
  - intros tok save m' t rest E Hl Hne Ht Hr Hd' Hlt'. split; [done|]. exists (S (length rest)).
    split; [lia|]. right. exists t, rest. rewrite E in Et. by split_and!.
Qed.

Lemma parse_loop_ok name d m next save k n (s : fs) :
  at_token name d m [] next save k → (k < n)%nat →
  wp (loop n (λ '(m, token, next_token, saveptr),
    if negb (next_token =? NULL) then
      token ← string_at m next_token;
      '(next_token, saveptr, m) ← on_copy m (CString.Ops.strtok_r NULL d saveptr);
      mret (inl (m, token, next_token, saveptr))
    else mret (inr token)) (m, [], next, save))
    (λ r s', r = default [] (last (CString.tokens [SLASH] name)) ∧ s' = s) s.
Proof.
  intros Hat Hk.
  eapply (wp_loop (λ k '(m, token, next, save) s', s' = s ∧ ∃ done, token = default [] (last done) ∧
    at_token name d m done next save k)); [|split; [done|]; by exists []|done].
  clear m next save k Hat Hk. intros k [[[m token] next] save] s' (-> & dn & -> & Hat).
  destruct Hat as [(-> & E & ->)|(t & rest & E & Hne & Ht & Hr & Hd & Hlt & ->)].
  - simpl. wp_go. by rewrite E.
  - rewrite (proj2 (Z.eqb_neq _ _) Hne). simpl. wp_unbind.
    eapply wp_mono; [by apply (string_at_ok m next t)|]. intros r s' [-> ->]. wp_unbind.
    eapply wp_mono; [apply (at_token_step name d m (dn ++ [t]) NULL save save rest); try done|].
    { by rewrite E, <-app_assoc. }
    intros [[next' save'] m'] s' (-> & k & Hk & Hat). wp_go. exists k. split; [lia|].
    split; [done|]. exists (dn ++ [t]). by rewrite last_snoc.
Qed.

(** [parse_file] returns the last component of the path. *)
Lemma parse_file_ok name s :
  good_name name → malloc_outcomes s = [] → 0 < next_address s →
  wp (parse_file name) (λ r s', r = default [] (last (CString.tokens [SLASH] name)) ∧
    s' = set_memory (next_address s + 2) [] s) s.
Proof.
  intros Hg Hmo Ha. unfold parse_file, copy_name. wp_unbind. apply wp_malloc; [done|].
  wp_assert (by apply negb_true_iff, Z.eqb_neq; unfold NULL; lia).
  pose proof (name_copy_ok (next_address s) name Ha Hg) as Hc.
  destruct (name_copy _ name) as [m0 d]. destruct Hc as (Hn & Hd & Hlt). wp_unbind.
  eapply wp_mono; [apply (at_token_step name d m0 [] _ _ (next_address s) name); try done|].
  { by rewrite (proj2 (Z.eqb_neq _ _)) by (unfold CString.NULL; lia). }
  intros [[next save] m1] s1 (-> & k & Hk & Hat). wp_unbind.
  eapply wp_mono; [apply (parse_loop_ok name d m1 next save k); [done|lia]|].
  intros r s1 [-> ->]. wp_unbind. apply wp_malloc; [done|].
  wp_assert (by apply negb_true_iff, Z.eqb_neq; simpl; unfold NULL; lia). split; [done|]. simpl.
  by replace (next_address s + 1 + 1) with (next_address s + 2) by lia.
Qed.

(** * Reading a directory *)
Section readdir.
Context (uninit : fs → nat → list Z).
Context (Hjunk : ∀ s n, length (uninit s n) = n ∧ Forall is_u32 (uninit s n)).
Context {priv : list Z} {own : Z} {I : fs → Prop}.
Context `{Halloc : !Allocator (allocator uninit) priv own I}.
Local Abbreviation dir_file := (dir_file (priv := priv) (own := own) (I := I)).

(** The entries from position [j] on: the first one in use, and where it is. *)
Definition next_entry (c : bytes) (j : nat) : option (nat * bytes) :=
  list_find (λ e, e_in_use e = true) (drop j (slots c)).

(** What [dir_readdir] returns and the position it leaves. *)
Definition readdir_result (c : bytes) (j : nat) : option bytes * nat :=
  match next_entry c j with
  | Some (m, e) => (take (Z.to_nat NAME_MAX) <$> entry_name e, S (j + m))
  | None => (None, nslots c)
  end.

Lemma dir_file_set_dirs s ip i bs ds : dir_file s ip i bs → dir_file (set_dirs ds s) ip i bs.
Proof.
  intros Hf. pose proof Hf as [[Hm _] _ _ _]. destruct (fo_inode _ _ _ _ Hm) as (_ & _ & Hi).
  destruct (dir_file_frame (priv := priv) (own := own) (I := I) (λ _, False) s (set_dirs ds s) ip i bs) as [? _]; try done; [auto|].
  eapply al_other; [apply (fo_inv _ _ _ _ Hm)|done..].
Qed.

Lemma wp_dir_set s dp d f Q :
  dirs s !! dp = Some d → Q tt (set_dirs (<[dp := f d]> (dirs s)) s) → wp (dir_set dp f) Q s.
Proof. intros Hd HQ. unfold dir_set. wp_unbind. eapply wp_dir_at; [done|]. by wp_go. Qed.

(** The loop, as the position moves on from [20 q]. *)
Definition reading (s : fs) (dp ip : Z) (i : inode) (bs : list Z) (q : nat) (s' : fs) : Prop :=
  dirs s' = <[dp := mk_dir ip (20 * Z.of_nat q)]> (dirs s) ∧ dir_file s' ip i bs ∧
  file_contents s' i bs = file_contents s i bs ∧ inodes s' = inodes s.

Lemma next_entry_skip c q e :
  slots c !! q = Some e → e_in_use e = false → readdir_result c q = readdir_result c (S q).
Proof.
  intros He Hu. unfold readdir_result, next_entry. rewrite (drop_S _ e) by done. simpl.
  rewrite decide_False by congruence. destruct (list_find _ _) as [[m x]|]; simpl; [|done].
  by replace (q + S m)%nat with (S q + m)%nat by lia.
Qed.

Lemma readdir_loop_ok s dp ip i bs e j n :
  let c := file_contents s i bs in
  dirs s !! dp = Some (mk_dir ip (20 * Z.of_nat j)) → dir_file s ip i bs → names_ok c →
  length e = 20%nat → (j ≤ nslots c)%nat → (nslots c < n)%nat →
  wp (loop n (λ e,
        d ← dir_at dp;
        '(r, e) ← inode_read_at (dir_inode d) e sizeof_dir_entry (dir_pos d);
        if r =? sizeof_dir_entry then
          dir_set dp (λ d, mk_dir (dir_inode d) (dir_pos d + sizeof_dir_entry));;
          if e_in_use e then
            name ← deref (string_of (e_name e));
            mret (inr (Some (take (Z.to_nat NAME_MAX) name)))
          else mret (inl e)
        else mret (inr None)) e)
    (λ r s', r = (readdir_result c j).1 ∧ reading s dp ip i bs (readdir_result c j).2 s') s.
Proof.
  intros c Hd Hf Hno He Hj Hn.
  eapply (wp_loop (λ k e s', ∃ q, (q + k = nslots c)%nat ∧ length e = 20%nat ∧
    reading s dp ip i bs q s' ∧ readdir_result c q = readdir_result c j)).
  2: { exists j. split_and!; [instantiate (1 := (nslots c - j)%nat); lia|done| |done].
       split_and!; [|done..]. by rewrite insert_id. }
  2: lia.
  intros k e1 s1 (q & Hq & He1 & (Ed & Hf1 & Ec1 & Ei1) & <-). wp_unbind.
  eapply wp_dir_at; [rewrite Ed; apply lookup_insert_eq|]. simpl dir_inode. simpl dir_pos.
  wp_unbind. eapply wp_mono; [apply (read_slot (alloc := allocator uninit) s1 ip i bs e1 q); [done..|rewrite Ec1; fold c; lia]|].
  intros r s2 (Hro & Hf2 & Ec2 & ->). rewrite Ec1 in *. fold c in Ec2 |- *.
  pose proof (read_only_fields _ _ _ Hro) as (Ei2 & Ed2 & _).
  destruct (slots c !! q) as [e2|] eqn:E.
  - simpl. wp_unbind. eapply wp_dir_set; [rewrite Ed2, Ed; apply lookup_insert_eq|].
    simpl. set (s3 := set_dirs _ s2). pose proof E as [Hlt _]%slots_lookup.
    assert (reading s dp ip i bs (S q) s3) as Hr3.
    { split_and!; [|by apply dir_file_set_dirs|done|simpl; congruence]. simpl.
      rewrite Ed2, Ed, insert_insert_eq. unfold sizeof_dir_entry.
      by replace (20 * Z.of_nat q + 20) with (20 * Z.of_nat (S q)) by lia. }
    destruct (e_in_use e2) eqn:Eu; wp_go.
    + destruct (Hno q e2 E Eu) as (nm & En & _). unfold entry_name in En. rewrite En. wp_go.
      unfold readdir_result, next_entry. rewrite (drop_S _ e2) by done. simpl.
      rewrite decide_True by done. simpl. unfold entry_name. rewrite En, Nat.add_0_r. done.
    + exists (k - 1)%nat. split; [lia|]. exists (S q). split_and!; [lia| |done|].
      * apply slots_lookup in E as [? ->]. by apply slot_length.
      * symmetry. by eapply next_entry_skip.
  - simpl. wp_go. apply lookup_ge_None in E.
    assert (length (slots c) = nslots c) as Hsl by (unfold slots; by rewrite length_fmap, length_seq).
    assert (q = nslots c) as -> by lia. unfold readdir_result, next_entry.
    rewrite drop_ge by lia. simpl. split; [done|]. split_and!; [congruence|done|done|congruence].
Qed.

Lemma dir_readdir_ok s dp ip i bs j :
  let c := file_contents s i bs in
  dirs s !! dp = Some (mk_dir ip (20 * Z.of_nat j)) → dir_file s ip i bs → i_lock i = false →
  names_ok c → (j ≤ nslots c)%nat →
  wp (dir_readdir uninit dp) (λ r s', r = (readdir_result c j).1 ∧
    reading s dp ip i bs (readdir_result c j).2 s') s.
Proof.
  intros c Hd Hf Hl Hno Hj. destruct (fo_inode _ _ _ _ (proj1 (df_file _ _ _ _ Hf))) as (_ & _ & Hi).
  unfold dir_readdir. wp_unbind. eapply wp_dir_get_inode; [done|]. wp_unbind. simpl dir_inode.
  eapply wp_inode_lock_acquire; [done..|]. unfold local_entry. wp_go.
  set (i1 := upd_i_lock true i). match goal with |- wp _ _ ?t => set (s1 := t) end.
  assert (dir_file s1 ip i1 bs) as Hf1 by by apply (dir_file_lock uninit).
  eapply wp_entries_bound; [done|]. intros n Hn. wp_unbind.
  eapply wp_mono; [apply (readdir_loop_ok s1 dp ip i1 bs); try done; by apply length_local_entry|].
  change (file_contents s1 i1 bs) with c. intros r s2 [-> (Ed & Hf2 & Ec & Ei)].
  destruct (fo_inode _ _ _ _ (proj1 (df_file _ _ _ _ Hf2))) as (_ & _ & Hi2). wp_unbind.
  eapply wp_dir_get_inode; [rewrite Ed; apply lookup_insert_eq|]. wp_unbind. simpl dir_inode.
  eapply wp_inode_lock_release; [done..|]. wp_go. split; [done|].
  assert (upd_i_lock false i1 = i) as Ei1.
  { unfold i1. by rewrite upd_i_lock_twice, <-Hl, upd_i_lock_self. }
  rewrite Ei1. split_and!; [done| |done|].
  - rewrite <-Ei1. by apply (dir_file_lock uninit).
  - simpl. rewrite Ei. simpl. by rewrite insert_insert_eq, insert_id.
Qed.
End readdir.
