(* ===== verification/KernelTheorems.v ===== *)
(** The main theorems about the kernel library and the buffer cache: lists
    ([KList], [KListSort]), bitmaps ([Bitmap]) and [Cache], each with an
    instance at a concrete state. *)
From Stdlib Require Import ZArith Lia.
From stdpp Require Import base tactics option numbers list gmap sorting.
From S2P Require Import Prelude Bytes Disk.
From S2P Require KList KListSort Bitmap Cache.

Open Scope Z_scope.

(** * Lists *)
Module Lists.
Import KList.

(** A list of five elements, at 8, 16, ... 40, in the order 24, 8, 40, 16, 32. *)
Definition five : list Z := [24; 8; 40; 16; 32].
Fixpoint linked (p : Z) (c : list Z) : heap :=
  match c with
  | [] => ∅
  | x :: c' => <[x := mk_elem p (firstd NULL c')]> (linked x c')
  end.
Definition five_heap : heap := linked NULL (nodes 100 five).

Lemma five_ok : is_list five_heap 100 five.
Proof.
  split_and!; [vm_compute; repeat split|..]; apply (bool_decide_unpack _); by vm_compute.
Qed.

Lemma Zltb_asym : ∀ a b, (a <? b) = true → (b <? a) = false.
Proof. intros a b H%Z.ltb_lt. apply Z.ltb_ge. lia. Qed.

(** C16: [list_sort] terminates without failing an assertion, whatever the
    order of the list, and leaves a well-formed list that is a permutation of
    the old one and sorted by [less]; memory outside the list is untouched.  If
    [less] is a weak order the sort is stable: the elements of one rank, of
    which [less] puts neither before the other, are in the order they had. *)
Theorem list_sort_correct (less : Z → Z → bool) fuel h l xs :
  (∀ a b, less a b = true → less b a = false) →
  is_list h l xs → (length xs < fuel)%nat → Z.of_nat (length xs) < 2 ^ 32 →
  wp (Ops.list_sort less fuel l)
    (λ _ h', ∃ xs', is_list h' l xs' ∧ xs' ≡ₚ xs ∧ Sorted (λ a b, less b a = false) xs' ∧
       same_outside (nodes l xs) h h' ∧
       ((∀ a b c, less a c = true → less a b = true ∨ less b c = true) →
        ∀ c, filter (λ x, less c x = false ∧ less x c = false) xs' =
             filter (λ x, less c x = false ∧ less x c = false) xs)) h.
Proof.
  intros Hasym Hl Hf Hn. eapply wp_mono; [by apply KListSort.list_sort_ok|].
  intros ? h' (xs' & ? & [? Hst] & ? & ?). exists xs'. split_and!; [done..|].
  intros Hw c. exact (Hst Hw c).
Qed.

(** Sorted by the remainder modulo 16: 24, 8 and 40 have the same rank, and so
    have 16 and 32. *)
Definition by_16 (a b : Z) : bool := a mod 16 <? b mod 16.

Lemma list_sort_correct_witness :
  wp (Ops.list_sort by_16 6 100)
    (λ _ h', ∃ xs', is_list h' 100 xs' ∧ xs' ≡ₚ five ∧
       Sorted (λ a b, by_16 b a = false) xs' ∧ same_outside (nodes 100 five) five_heap h' ∧
       filter (λ x, by_16 8 x = false ∧ by_16 x 8 = false) xs' = [24; 8; 40] ∧
       filter (λ x, by_16 0 x = false ∧ by_16 x 0 = false) xs' = [16; 32]) five_heap.
Proof.
  eapply wp_mono; [apply (list_sort_correct by_16 6 five_heap 100 five);
    [|exact five_ok|unfold five; simpl; lia..]|].
  - intros a b H%Z.ltb_lt. apply Z.ltb_ge. lia.
  - intros _ h' (xs' & ? & ? & ? & ? & Hst). exists xs'. split_and!; [done..| |];
      rewrite Hst; try reflexivity; intros a b c Hac%Z.ltb_lt; unfold by_16;
      rewrite !Z.ltb_lt; lia.
Defined.

(** [list_insert_ordered] puts the new element into a sorted list so that
    it stays sorted, and changes nothing else in memory. *)
Theorem list_insert_ordered_correct (less : Z → Z → bool) fuel h l xs e :
  (∀ a b, less a b = true → less b a = false) →
  is_list h l xs → Sorted (λ a b, less b a = false) xs →
  e ∉ nodes l xs → e ≠ NULL → is_Some (h !! e) → (length xs < fuel)%nat →
  wp (Ops.list_insert_ordered less fuel l e)
    (λ _ h', ∃ xs', is_list h' l xs' ∧ xs' ≡ₚ e :: xs ∧ Sorted (λ a b, less b a = false) xs' ∧
       same_outside (e :: nodes l xs) h h') h.
Proof.
  intros Hasym Hl Hs He Hne Hh Hf. eapply wp_mono; [by apply Correct.list_insert_ordered_ok|].
  intros ? h' [Hl' Ho]. exists (Correct.insert_seq less e xs). split_and!; [done| | |done].
  - apply Correct.insert_seq_perm.
  - by apply Correct.insert_seq_sorted.
Qed.

Definition three_heap : heap := <[48 := mk_elem 7 7]> (linked NULL (nodes 100 [8; 24; 56])).

Lemma list_insert_ordered_correct_witness :
  wp (Ops.list_insert_ordered Z.ltb 4 100 48)
    (λ _ h', ∃ xs', is_list h' 100 xs' ∧ xs' ≡ₚ 48 :: [8; 24; 56] ∧
       Sorted (λ a b, (b <? a) = false) xs' ∧
       same_outside (48 :: nodes 100 [8; 24; 56]) three_heap h') three_heap.
Proof.
  apply (list_insert_ordered_correct Z.ltb 4 three_heap 100 [8; 24; 56] 48).
  - exact Zltb_asym.
  - split_and!; [vm_compute; repeat split|..]; apply (bool_decide_unpack _); by vm_compute.
  - repeat constructor.
  - apply (bool_decide_unpack _). by vm_compute.
  - done.
  - vm_compute. eauto.
  - simpl. lia.
Defined.

(** [list_reverse] reverses the list in place. *)
Theorem list_reverse_correct fuel h l xs :
  is_list h l xs → (length xs < fuel)%nat →
  wp (Ops.list_reverse fuel l)
    (λ _ h', is_list h' l (rev xs) ∧ same_outside (nodes l xs) h h') h.
Proof. apply KListSort.list_reverse_ok. Qed.

Lemma list_reverse_correct_witness :
  wp (Ops.list_reverse 6 100)
    (λ _ h', is_list h' 100 [32; 16; 40; 8; 24] ∧ same_outside (nodes 100 five) five_heap h')
    five_heap.
Proof.
  apply (list_reverse_correct 6 five_heap 100 five); [exact five_ok|unfold five; simpl; lia].
Defined.

(** [list_splice] moves a run of elements within a list to the front of
    another run without losing an element. *)
Theorem list_splice_correct h l xs ys zs ws :
  is_list h l (xs ++ ys ++ zs ++ ws) → ys ≠ [] → zs ≠ [] →
  wp (Ops.list_splice (firstd NULL ys) (firstd NULL zs) (firstd (tail_of l) ws))
    (λ _ h', is_list h' l (xs ++ zs ++ ys ++ ws) ∧
             same_outside (nodes l (xs ++ ys ++ zs ++ ws)) h h') h.
Proof. apply KListSort.list_splice_ok. Qed.

Lemma list_splice_correct_witness :
  wp (Ops.list_splice 8 16 (tail_of 100))
    (λ _ h', is_list h' 100 [24; 16; 32; 8; 40] ∧ same_outside (nodes 100 five) five_heap h')
    five_heap.
Proof.
  apply (list_splice_correct five_heap 100 [24] [8; 40] [16; 32] []);
    [exact five_ok|done|done].
Defined.

(** A list used as a queue: an element pushed at the back comes out at the
    front after all that were there, and a removed element is gone. *)
Theorem list_queue_correct h l x xs e :
  is_list h l (x :: xs) → e ∉ nodes l (x :: xs) → e ≠ NULL → is_Some (h !! e) →
  wp (Ops.list_push_back l e;; r ← Ops.list_pop_front l; Ops.list_remove e;; mret r)
    (λ r h', r = x ∧ is_list h' l xs) h.
Proof.
  intros Hl He Hne Hh. wp_unbind. eapply wp_mono; [by apply Correct.list_push_back_ok|].
  intros ? h1 [Hl1 _]. wp_unbind.
  eapply wp_mono; [apply (Correct.list_pop_front_ok h1 l x (xs ++ [e])); by rewrite app_comm_cons|].
  intros r h2 (-> & Hl2 & _). wp_unbind.
  eapply wp_mono; [by apply (Correct.list_remove_ok h2 l xs e [])|].
  intros ? h3 (_ & Hl3 & _). wp_go. split; [done|]. by rewrite app_nil_r in Hl3.
Qed.

Lemma list_queue_correct_witness :
  wp (Ops.list_push_back 100 48;; r ← Ops.list_pop_front 100; Ops.list_remove 48;; mret r)
    (λ r h', r = 8 ∧ is_list h' 100 [24; 56]) three_heap.
Proof.
  apply (list_queue_correct three_heap 100 8 [24; 56] 48).
  - split_and!; [vm_compute; repeat split|..]; apply (bool_decide_unpack _); by vm_compute.
  - apply (bool_decide_unpack _). by vm_compute.
  - done.
  - vm_compute. eauto.
Defined.
End Lists.

(** * Bitmaps *)
Module Bitmaps.
Import Bitmap.

(** A map of 40 bits of which 0, 1, 2 and 5 are set. *)
Definition map40 : bitmap := mk_bitmap 40 [39; 0].
Lemma map40_wf : wf map40.
Proof.
  split; simpl; [lia|done|]. repeat constructor; unfold is_u32; lia.
Qed.

Lemma not_all_eq b i cnt v :
  ¬ Correct.all_eq b i cnt v → ∃ j, i ≤ j < i + cnt ∧ bit b j = negb v.
Proof.
  intros Hn. destruct (decide (Exists (λ j, bit b j = negb v) (seqZ i cnt))) as [He|He].
  - apply Exists_exists in He as (j & Hj%elem_of_seqZ & ?). exists j. split; [lia|done].
  - destruct Hn. intros j Hj. rewrite <-Forall_Exists_neg, Forall_forall in He.
    specialize (He j ltac:(apply elem_of_seqZ; lia)). by destruct (bit b j), v.
Qed.

(** C22: [bitmap_scan_and_flip] returns the first group of [cnt] bits of the
    given value at or after [start] and flips exactly these, or
    [BITMAP_ERROR] and no change when there is no such group.  For a [cnt] of
    zero it returns [start], where its comment says 0
    ([Findings.Bitmaps.empty_group_at_start]). *)
Theorem bitmap_scan_and_flip_correct b start cnt v :
  wf b → 0 ≤ start ≤ bit_cnt b → 0 ≤ cnt →
  wp (Ops.bitmap_scan_and_flip start cnt v)
    (λ r b', ((r = BITMAP_ERROR ∧ b' = b ∧
                ∀ i, start ≤ i → i + cnt ≤ bit_cnt b →
                  ∃ j, i ≤ j < i + cnt ∧ bit b j = negb v) ∨
             (start ≤ r ∧ r + cnt ≤ bit_cnt b ∧ set_range b b' r cnt (negb v) ∧
                (∀ j, r ≤ j < r + cnt → bit b j = v) ∧
                ∀ i, start ≤ i < r → ∃ j, i ≤ j < i + cnt ∧ bit b j = negb v))
             ∧ (cnt = 0 → r = start)) b.
Proof.
  intros Hw Hs Hc. pose proof (wf_cnt _ Hw).
  eapply wp_mono; [by apply Correct.bitmap_scan_and_flip_ok|].
  intros r b' [[(? & ? & Hall & Hno)|[-> Hno]] Hb']; (split; [|intros ->]).
  - right. rewrite (proj2 (Z.eqb_neq _ _)) in Hb' by (unfold BITMAP_ERROR; lia).
    split_and!; [done..|]. intros i Hi. by apply not_all_eq, Hno.
  - destruct (decide (r = start)); [done|]. destruct (Hno start); [lia|intros j Hj; lia].
  - left. rewrite Z.eqb_refl in Hb'. split_and!; [done..|]. intros i ? ?. by apply not_all_eq, Hno.
  - destruct (Hno start); [lia..|intros j Hj; lia].
Qed.

Lemma bitmap_scan_and_flip_correct_witness :
  wp (Ops.bitmap_scan_and_flip 0 2 false)
    (λ r b', ((r = BITMAP_ERROR ∧ b' = map40 ∧
                ∀ i, 0 ≤ i → i + 2 ≤ 40 → ∃ j, i ≤ j < i + 2 ∧ bit map40 j = true) ∨
             (0 ≤ r ∧ r + 2 ≤ 40 ∧ set_range map40 b' r 2 true ∧
                (∀ j, r ≤ j < r + 2 → bit map40 j = false) ∧
                ∀ i, 0 ≤ i < r → ∃ j, i ≤ j < i + 2 ∧ bit map40 j = true))
             ∧ (2 = 0 → r = 0)) map40.
Proof.
  apply (bitmap_scan_and_flip_correct map40 0 2 false); [exact map40_wf|simpl; lia|lia].
Defined.

(** [bitmap_set_multiple] sets the bits of its range to the value and no
    other bit, and [bitmap_test] afterwards reads each of them back. *)
Theorem bitmap_set_multiple_correct b start cnt v i :
  wf b → 0 ≤ start → 0 ≤ cnt → start + cnt ≤ bit_cnt b → 0 ≤ i < bit_cnt b →
  wp (Ops.bitmap_set_multiple start cnt v;; Ops.bitmap_test i)
    (λ r b', set_range b b' start cnt v ∧
       r = if (start <=? i) && (i <? start + cnt) then v else bit b i) b.
Proof.
  intros Hw ? ? ? Hi. wp_unbind. eapply wp_mono; [by apply Correct.bitmap_set_multiple_ok|].
  intros ? b' Hb'. pose proof Hb' as (Hw' & Ec & Hbits).
  apply Correct.bitmap_test_ok; [done|lia|]. split; [done|]. apply Hbits. lia.
Qed.

Lemma bitmap_set_multiple_correct_witness :
  wp (Ops.bitmap_set_multiple 30 8 true;; Ops.bitmap_test 31)
    (λ r b', set_range map40 b' 30 8 true ∧ r = true) map40.
Proof.
  apply (bitmap_set_multiple_correct map40 30 8 true 31); [exact map40_wf|simpl; lia..].
Defined.

(** [bitmap_count] counts the bits of the value in the range. *)
Theorem bitmap_count_correct b start cnt v :
  wf b → 0 ≤ start → 0 ≤ cnt → start + cnt ≤ bit_cnt b →
  wp (Ops.bitmap_count start cnt v)
    (λ r b', b' = b ∧
       r = Z.of_nat (length (filter (λ i, bit b i = v) (seqZ start cnt)))) b.
Proof. apply Correct.bitmap_count_ok. Qed.

Lemma bitmap_count_correct_witness :
  wp (Ops.bitmap_count 1 10 true) (λ r b', b' = map40 ∧ r = 3) map40.
Proof.
  apply (bitmap_count_correct map40 1 10 true); [exact map40_wf|simpl; lia..].
Defined.
End Bitmaps.

(** * The buffer cache *)
Module BufferCache.
Import Cache.

(** An empty cache in front of an empty disk of 100 sectors. *)
Definition cache100 : cache := mk_cache (mk_disk 100 ∅) [] 0 false false.
Lemma cache100_inv : inv cache100.
Proof.
  split; split; simpl; try done. apply NoDup_nil_2.
Qed.

(** C7: Any sequence of [cache_read], [cache_write] and
    [cache_write_behind_loop] returns what the same reads and writes of an
    array of sectors return, through every replacement of an entry, and keeps
    the cache's invariant (at most 64 entries, no sector twice, every clean
    entry equal to its sector). *)
Theorem cache_refines_array rs c a :
  inv c → (∀ k, view c k = a k) → Forall (in_bounds (capacity (filesys_disk c))) rs →
  wp (serve_all rs) (λ bs c', inv c' ∧ bs = (array_run rs a).1 ∧
    (∀ k, view c' k = (array_run rs a).2 k)) c.
Proof. apply Refine.serve_all_ok. Qed.

Definition requests : list request :=
  [Write 7 [1; 2; 3] 0 10 3; Read 7 [9; 9; 9; 9] 1 11 2; Flush; Read 7 [9] 0 12 1].

Lemma cache_refines_array_witness :
  wp (serve_all requests) (λ bs c', inv c' ∧ bs = [[]; [9; 2; 3; 9]; []; [3]] ∧
    (∀ k, view c' k = (array_run requests (λ _, zero_sector)).2 k)) cache100.
Proof.
  apply (cache_refines_array requests cache100 (λ _, zero_sector));
    [exact cache100_inv|done|].
  repeat constructor; simpl; lia.
Defined.

(** After [cache_write_behind_loop] the disk itself holds what the file
    system sees, so nothing is lost when the machine stops. *)
Theorem write_behind_flushes c :
  inv c →
  wp Ops.cache_write_behind_loop
    (λ _ c', inv c' ∧ (∀ k, view c' k = view c k) ∧
       ∀ k, sector_data (filesys_disk c') k = view c k) c.
Proof.
  intros Hi. eapply wp_mono; [by apply Correct.cache_write_behind_loop_ok|].
  intros ? c' (? & [? _] & ?). done.
Qed.

Lemma write_behind_flushes_witness :
  wp Ops.cache_write_behind_loop
    (λ _ c', inv c' ∧ (∀ k, view c' k = view cache100 k) ∧
       ∀ k, sector_data (filesys_disk c') k = view cache100 k) cache100.
Proof. apply (write_behind_flushes cache100). exact cache100_inv. Defined.

(** When the cache is full, [evict_cache] always finds an entry: it gives
    the sector's contents to an entry it takes over, writes the old contents
    back if they were dirty, and leaves the disk as the file system sees it
    unchanged. *)
Theorem evict_cache_correct c k :
  core c → (∀ j x, buffer_cache_list c !! j = Some x → is_using x = false) →
  valid_sector (filesys_disk c) k → uncached c k → buffer_cache_list c ≠ [] →
  wp (Ops.evict_cache k) (λ r c', ∃ i e, r = Some i ∧ buffer_cache_list c' !! i = Some e ∧
    sector e = k ∧ data e = view c k ∧ core c' ∧ same_view c c') c.
Proof.
  intros Hc Hidle Hv Hmiss Hne. eapply wp_mono; [by apply Correct.evict_cache_ok|].
  intros r c' (i & -> & Hc' & Hs & _ & (e & Hi & Hk) & _). exists i, e.
  split_and!; [done..| |done|done]. rewrite <-(proj1 Hs), <-Hk. symmetry.
  by apply (view_hit c' i e).
Qed.

(** One dirty entry with its second chance still to come. *)
Definition one_entry : cache :=
  mk_cache (mk_disk 100 ∅) [mk_bc 5 (replicate 512 1) true true false] 1 false false.

Lemma evict_cache_correct_witness :
  wp (Ops.evict_cache 6) (λ r c', ∃ i e, r = Some i ∧ buffer_cache_list c' !! i = Some e ∧
    sector e = 6 ∧ data e = view one_entry 6 ∧ core c' ∧ same_view one_entry c') one_entry.
Proof.
  apply (evict_cache_correct one_entry 6).
  - split; simpl; try done; [apply NoDup_singleton|].
    intros [|i] e Hi; simplify_eq/=. by split.
  - intros [|i] e Hi; by simplify_eq/=.
  - split; simpl; lia.
  - intros [|i] e Hi; simplify_eq/=. done.
  - done.
Defined.
End BufferCache.
