(* ===== verification/FsTheorems.v ===== *)
(** The theorems about files: what [inode_read_at], [inode_write_at],
    [inode_grow], [inode_create], [inode_open], [inode_close] and
    [free_map_allocate] promise on a running system, where the free map is
    kept in a file of its own. *)
From Stdlib Require Import ZArith Lia.
From stdpp Require Import base tactics option numbers list gmap.
From S2P Require Import Prelude Bytes Disk FsState Inode.
From S2P Require Bitmap.
From S2P Require Import Cache InodeIO FreeMap Grow InodeWrite InodeLife.
Import Cache.Correct.

Open Scope Z_scope.

(** * Shared by the statements *)

(** The free map is mounted and its file holds it. *)
Definition running (fp fip : Z) (fi : inode) (fbs priv : list Z) (s : fs) : Prop :=
  mounted fp fip fi fbs priv s ∧ in_sync fbs s.

#[export] Instance running_allocator uninit fp fip fi fbs priv :
  Allocator (allocator uninit) priv fip (running fp fip fi fbs priv).
Proof. apply mounted_allocator. Qed.

(** The same while no free sector is in the cache. *)
Definition clean_running (fp fip : Z) (fi : inode) (fbs priv : list Z) (s : fs) : Prop :=
  running fp fip fi fbs priv s ∧ no_stale s.

#[export] Instance clean_running_allocator uninit fp fip fi fbs priv :
  Allocator (allocator uninit) priv fip (clean_running fp fip fi fbs priv).
Proof. apply clean_allocator, running_allocator. Qed.

#[export] Instance clean_running_clean fp fip fi fbs priv : Clean (clean_running fp fip fi fbs priv).
Proof. by intros s [_ ?]. Qed.

(** A file that is open on a running system. *)
Abbreviation live fp fip fi fbs priv := (file_ok (priv := priv) (own := fip) (I := running fp fip fi fbs priv)).

Lemma live_clean fp fip fi fbs priv s ip i bs :
  live fp fip fi fbs priv s ip i bs → no_stale s →
  file_ok (priv := priv) (own := fip) (I := clean_running fp fip fi fbs priv) s ip i bs.
Proof. intros Hok Hf. eapply file_ok_inv; [exact Hok|]. split; [apply Hok|done]. Qed.

Lemma clean_live fp fip fi fbs priv s ip i bs :
  file_ok (priv := priv) (own := fip) (I := clean_running fp fip fi fbs priv) s ip i bs →
  live fp fip fi fbs priv s ip i bs ∧ no_stale s.
Proof.
  intros Hok. destruct (fo_inv _ _ _ _ (proj1 Hok)) as [Hr Hf].
  split; [by eapply file_ok_inv|done].
Qed.

(** Uninitialised memory holds some 32-bit words. *)
Definition words_in_memory (uninit : fs → nat → list Z) : Prop :=
  ∀ s n, length (uninit s n) = n ∧ Forall is_u32 (uninit s n).
Definition zeros (_ : fs) (n : nat) : list Z := replicate n 0.
Lemma zeros_ok : words_in_memory zeros.
Proof.
  intros s n. split; [apply length_replicate|]. apply Forall_replicate. unfold is_u32. lia.
Qed.

(** * A small running system

    64 sectors: 0 and 1 are the inodes of the free map and of the root, 2
    holds the free map, 3 the inode of an empty file, which is open.  The
    other sectors are free in [s0] and in use in [full]. *)
Module Sample.
Definition fmap_inode : inode :=
  mk_inode 0 1 false 0 8 8 1 (2 :: replicate 14 0) 1 0 0 0 0 false.
Definition empty_inode : inode :=
  mk_inode 3 1 false 0 0 0 1 (replicate 15 0) 0 0 0 0 1 false.
Definition empty_disk_inode : inode_disk :=
  mk_inode_disk 0 INODE_MAGIC 1 (replicate 15 0) 0 0 0 0 1 (replicate 105 0).
Definition sectors0 (map : list Z) : gmap Z bytes :=
  {[ 2 := words_to_bytes map ++ replicate 504 0;
     3 := words_to_bytes (inode_disk_words empty_disk_inode) ]}.
Definition system (map : list Z) : fs :=
  mk_fs (mk_cache (mk_disk 64 (sectors0 map)) [] 0 false false) (Bitmap.mk_bitmap 64 map) 50
    {[ 40 := fmap_inode; 41 := empty_inode ]} {[ 50 := mk_file 40 0 false ]} ∅ 0 [41; 40] 100 [].
Definition s0 : fs := system [15; 0].
Definition full : fs := system [2 ^ 32 - 1; 2 ^ 32 - 1].

Section system.
Context (map : list Z) (Hmap : map = [15; 0] ∨ map = [2 ^ 32 - 1; 2 ^ 32 - 1]).

Lemma cache_inv : inv (fs_cache (system map)).
Proof.
  split; split; simpl; try done; [|apply NoDup_nil_2].
  intros k b Hk. simpl in Hk. unfold sectors0 in Hk.
  apply lookup_insert_Some in Hk as [[<- <-]|[_ Hk]]; [by destruct Hmap as [-> | ->]|].
  by apply lookup_singleton_Some in Hk as [<- <-].
Qed.

Lemma space_ok : space (system map).
Proof.
  split; [apply cache_inv|..]; try done.
  destruct Hmap as [-> | ->]; (split; simpl; [lia|done|]); repeat constructor; unfold is_u32; lia.
Qed.

Lemma fmap_mapped : mapped (fs_cache (system map)) (i_ptrs fmap_inode) [2].
Proof.
  split; rewrite ?index_list_direct by (simpl; lia); try done.
  - intros [|b] k Hk; by simplify_eq/=.
  - intros x Hx. simpl in Hx. apply list_elem_of_singleton in Hx as ->. split; simpl; lia.
  - apply NoDup_singleton.
Qed.

Lemma no_stale_ok : no_stale (system map).
Proof. by intros k _ i e Hi. Qed.

Lemma running_ok : running 50 40 fmap_inode [2] [2] (system map).
Proof.
  split.
  - split; [apply space_ok|..|apply fmap_mapped| |]; try done.
    + split_and!; [done..|]. by exists (mk_file 40 0 false).
    + split; [done|]. right. done.
    + intros x Hx. apply list_elem_of_singleton in Hx as ->.
      split; [simpl; lia|]. by destruct Hmap as [-> | ->].
  - intros p Hp. change (Bitmap.byte_cnt _) with 8 in Hp.
    assert (p ∈ seqZ 0 8) as Hs by (apply elem_of_seqZ; lia). clear Hp. revert p Hs.
    apply Forall_forall. destruct Hmap as [-> | ->]; vm_compute; repeat constructor.
Qed.

(** The open, empty file. *)
Lemma file_in : live 50 40 fmap_inode [2] [2] (system map) 41 empty_inode [].
Proof.
  split.
  - split; [apply running_ok|..]; try done.
    + by apply mapped_nil.
    + intros x Hx. by apply not_occupies_nil in Hx.
    + right. done.
  - intros p Hp. simpl in Hp. lia.
Qed.
End system.

Lemma no_stale0 : no_stale s0.
Proof. apply no_stale_ok. Qed.
Lemma running0 : running 50 40 fmap_inode [2] [2] s0.
Proof. apply running_ok. by left. Qed.
Lemma empty_ok : live 50 40 fmap_inode [2] [2] s0 41 empty_inode [].
Proof. apply file_in. by left. Qed.
Lemma free60 : Z.of_nat (nfree (free_map s0)) = 60.
Proof. vm_compute. reflexivity. Qed.

Lemma memory0 : memory_ok s0.
Proof.
  split_and!; [done..|]. intros a Ha. change (100 ≤ a) in Ha.
  change (({[ 40 := fmap_inode; 41 := empty_inode ]} : gmap Z inode) !! a = None).
  by rewrite lookup_insert_ne, lookup_singleton_ne by lia.
Qed.

Lemma open0 ip i : ip ∈ open_inodes s0 → inodes s0 !! ip = Some i →
  (ip = 41 ∧ i = empty_inode) ∨ (ip = 40 ∧ i = fmap_inode).
Proof.
  intros [->|[->|Hin%not_elem_of_nil]%elem_of_cons]%elem_of_cons Hi; [left|right|done];
    split; try done; vm_compute in Hi; by simplify_eq.
Qed.

Lemma open0_ok : open_ok s0.
Proof.
  intros ip [->|[->|Hin%not_elem_of_nil]%elem_of_cons]%elem_of_cons; [by eexists..|done].
Qed.

(** The empty file on disk. *)
Lemma empty_disk_wf : wf_inode_disk empty_disk_inode.
Proof.
  split; simpl; [unfold is_s32; lia|done..|].
  repeat (apply Forall_cons; split; [unfold is_u32, INODE_MAGIC; lia|]). apply Forall_nil_2.
Qed.
End Sample.

(** * Reading and writing *)
Module Files.

(** C1: On a running system [inode_write_at] writes all [size] bytes and its
    effect on the file is [write_bytes]: the bytes at [offset] are replaced,
    the file grows if they do not fit and the gap before them is zero; the
    file stays well-formed, and the sectors and inodes of the others are as
    before.  It is assumed that no free sector is still in the cache, which
    [inode_close] of a removed file breaks ([Findings.Files]), that there is
    room on the disk, and that the growth does not run from one leaf of the
    doubly indirect level into the next. *)
Theorem inode_write_at_refines uninit fp fip fi fbs priv s ip i bs buffer size offset :
  words_in_memory uninit →
  let e := Z.max (i_length i) (offset + size) in
  let n' := (e + 511) / 512 in
  live fp fip fi fbs priv s ip i bs → no_stale s → i_deny_write_cnt i = 0 →
  0 ≤ offset → 0 ≤ size ≤ Z.of_nat (length buffer) →
  n' ≤ MAX_BLOCKS → contained (Z.of_nat (length bs)) n' →
  total n' - total (Z.of_nat (length bs)) ≤ Z.of_nat (nfree (free_map s)) →
  wp (inode_write_at uninit (allocator uninit) ip buffer size offset) (λ n s', n = size ∧
    ∃ i' new, live fp fip fi fbs priv s' ip i' (bs ++ new) ∧ i_length i' = e ∧
    i_length_shown i' = Z.min e (i_length_shown i + size) ∧
    file_contents s' i' (bs ++ new) =
      write_bytes (file_contents s i bs) offset (slice buffer 0 size) ∧
    others (priv := priv) s ip i bs s' ∧ kept i' = kept i ∧
    takes_unused s i bs s' i' (bs ++ new) ∧ no_stale s') s.
Proof.
  intros Hj e n' Hok Hf ??????. eapply wp_mono; [apply file_write_contents with (2 := live_clean _ _ _ _ _ _ _ _ _ Hok Hf); [intros; apply Hj|done..]|].
  intros n s' (-> & i' & new & [Hok' Hf']%clean_live & ? & ? & ? & ? & ? & ?). split; [done|].
  exists i', new. by split_and!.
Qed.

(** C17: [inode_read_at] reads as many of the bytes asked for as the file
    shows, they are the file's contents, the rest of the buffer is untouched,
    and nothing the file system sees changes; no free sector enters the
    cache. *)
Theorem inode_read_at_refines fp fip fi fbs priv s ip i bs buffer size offset :
  live fp fip fi fbs priv s ip i bs → 0 ≤ offset → 0 ≤ size ≤ Z.of_nat (length buffer) →
  wp (inode_read_at ip buffer size offset) (λ r s',
    r.1 = Z.max 0 (Z.min size (i_length_shown i - offset)) ∧
    r.2 = splice buffer 0 (slice (file_contents s i bs) offset r.1) ∧
    live fp fip fi fbs priv s' ip i bs ∧ file_contents s' i bs = file_contents s i bs ∧
    (∃ c', s' = set_cache c' s ∧ same_view (fs_cache s) c') ∧ (no_stale s → no_stale s')) s.
Proof.
  intros Hok Ho Hs. eapply wp_mono; [by apply (file_read_contents (alloc := allocator zeros)) with (1 := Hok)|].
  intros r s' (? & ? & ? & ? & c' & -> & ? & Hfr). split_and!; [done..|by exists c'|]. intros Hf.
  eapply no_stale_frame; [done|exact Hfr|]. intros x Hx. by eapply (fo_owned _ _ _ _ (proj1 Hok)), mapped_occupies.
Qed.

(** What is written is in the file. *)
Lemma slice_write_bytes old ofs data :
  0 ≤ ofs → slice (write_bytes old ofs data) ofs (Z.of_nat (length data)) = data.
Proof.
  intros Ho.
  assert (length (write_bytes old ofs data) =
    Z.to_nat (Z.max (Z.of_nat (length old)) (ofs + Z.of_nat (length data)))) as Hl
    by (unfold write_bytes; by rewrite length_fmap, length_seqZ).
  assert (length (slice (write_bytes old ofs data) ofs (Z.of_nat (length data))) = length data)
    as Hs by (rewrite length_slice; lia).
  apply byte_ext; [done|]. intros p Hp. rewrite Hs in Hp. rewrite byte_at_slice by lia.
  unfold write_bytes. rewrite byte_at_seqZ by lia.
  rewrite (proj2 (Z.leb_le _ _)), (proj2 (Z.ltb_lt _ _)) by lia. simpl. f_equal. lia.
Qed.

Lemma slice_all (b : bytes) : slice b 0 (Z.of_nat (length b)) = b.
Proof. unfold slice. simpl. rewrite drop_0, Nat2Z.id. apply firstn_all. Qed.

Lemma splice_all (b b' : bytes) : length b' = length b → splice b 0 b' = b'.
Proof.
  intros Hl. apply byte_ext; [rewrite length_splice; lia|]. intros p Hp.
  rewrite length_splice in Hp by lia. rewrite lookup_splice_in by lia. f_equal. lia.
Qed.

(** C3: In a file that shows its whole length ([length_shown] equals
    [length]), what [inode_write_at] writes at an offset not past the end
    [inode_read_at] reads back, also where the write made the file grow; it is
    assumed that writes are not denied, that there is room, that the growth
    stays within one leaf of the doubly indirect level and that no free sector
    is still in the cache.  The conditions on the lengths are needed:
    [Findings.Files.sparse_write_is_hidden] is a write past the end that is not
    read back. *)
Theorem write_then_read uninit fp fip fi fbs priv s ip i bs buffer offset out :
  words_in_memory uninit →
  let size := Z.of_nat (length buffer) in
  let n' := (Z.max (i_length i) (offset + size) + 511) / 512 in
  live fp fip fi fbs priv s ip i bs → no_stale s → i_deny_write_cnt i = 0 →
  i_length_shown i = i_length i →
  0 ≤ offset ≤ i_length i → length out = length buffer →
  n' ≤ MAX_BLOCKS → contained (Z.of_nat (length bs)) n' →
  total n' - total (Z.of_nat (length bs)) ≤ Z.of_nat (nfree (free_map s)) →
  wp (inode_write_at uninit (allocator uninit) ip buffer size offset;;
      inode_read_at ip out size offset) (λ r s', r = (size, buffer)) s.
Proof.
  intros Hj size n' Hok Hst Hd Hsh Ho Hout Hm Hc Hf. wp_unbind.
  eapply wp_mono; [eapply file_write_contents;
    [intros; apply Hj|exact (live_clean _ _ _ _ _ _ _ _ _ Hok Hst)|done|lia|lia|done..]|].
  intros n s1 (_ & i' & new & Hok' & El & Es & Ec & _).
  eapply wp_mono; [by apply (file_read_contents (alloc := allocator uninit)) with (1 := Hok'); lia|].
  intros [r buf] s2 (Er & Eb & _). simpl in *.
  assert (r = size) as -> by lia. f_equal. rewrite Eb, Ec, slice_all.
  unfold size. rewrite slice_write_bytes by lia. by apply splice_all.
Qed.

(** While writes are denied [inode_write_at] writes nothing and changes
    nothing. *)
Theorem inode_write_at_denied uninit alloc s ip i buffer size offset :
  inodes s !! ip = Some i → i_deny_write_cnt i ≠ 0 →
  wp (inode_write_at uninit alloc ip buffer size offset) (λ n s', n = 0 ∧ s' = s) s.
Proof.
  intros Hi Hd. unfold inode_write_at. wp_unbind. eapply wp_inode_at; [done|].
  rewrite (proj2 (Z.eqb_neq _ _) Hd). simpl. by wp_go.
Qed.

(** [byte_to_sector] finds the sector of a byte of the file through the
    direct, indirect and doubly indirect blocks, and is [-1] past its end. *)
Theorem byte_to_sector_correct s ip i bs pos :
  ip ≠ NULL → inodes s !! ip = Some i → mapped (fs_cache s) (i_ptrs i) bs →
  i_length i ≤ 512 * Z.of_nat (length bs) → 0 ≤ pos →
  wp (byte_to_sector ip pos)
    (λ k s', s' = s ∧ k = if pos <? i_length i then bs !!! Z.to_nat (pos / 512)
                          else u32 (-1)) s.
Proof. apply byte_to_sector_any. Qed.

(** C15: [inode_grow] gives a file its new blocks, on all three levels of the
    index: they were free, are zero and in order after the old ones, the index
    cursor is where the next growth goes on, and all other sectors in use keep
    their contents.  It is assumed that no free sector is still in the cache,
    for [inode_grow] clears the new ones with [disk_write], past the cache:
    [Findings.Files.stale_gap] shows the bytes of a removed file in the new
    blocks of another. *)
Theorem inode_grow_correct uninit fp fip fi fbs priv s ip i bs len :
  words_in_memory uninit → live fp fip fi fbs priv s ip i bs → no_stale s →
  let n := Z.of_nat (length bs) in
  let n' := (len + 511) / 512 in
  i_length i ≤ len → n' ≤ MAX_BLOCKS → contained n n' →
  total n' - total n ≤ Z.of_nat (nfree (free_map s)) →
  wp (inode_grow uninit (allocator uninit) ip len) (λ r s', r = true ∧ ∃ i' new,
    inodes s' !! ip = Some i' ∧ mapped (fs_cache s') (i_ptrs i') (bs ++ new) ∧
    Z.of_nat (length (bs ++ new)) = n' ∧
    cursor n' = (i_ptr_idx i', i_indir_idx i', i_double_indir_idx i') ∧
    (∀ k, k ∈ new → is_free (free_map s) k ∧ view (fs_cache s') k = zero_sector) ∧
    (∀ k, is_used (free_map s) k → k ∉ priv → ¬ occupies (fs_cache s) (i_ptrs i) bs k →
       is_used (free_map s') k ∧ view (fs_cache s') k = view (fs_cache s) k) ∧
    running fp fip fi fbs priv s' ∧ no_stale s') s.
Proof.
  intros Hj Hok Hst n n' Hlen Hmax Hcon Hfree. pose proof (live_clean _ _ _ _ _ _ _ _ _ Hok Hst) as [Hm _].
  pose proof (fo_length _ _ _ _ Hm).
  destruct (file_map_length _ _ _ _ Hm) as [_ Hl]. destruct (fo_inode _ _ _ _ Hm) as (? & ? & ?).
  assert (0 ≤ len < 2 ^ 31 - 511).
  { destruct (blocks_bytes len) as [? _]; [lia|]. unfold n', MAX_BLOCKS in *. lia. }
  eapply wp_mono; [apply (inode_grow_ok (own := fip) (I := clean_running fp fip fi fbs priv) ip) with (s0 := s) (i0 := i) (bs0 := bs) (n' := n')|].
  all: try apply Hm; try done.
  { intros. apply Hj. }
  { rewrite bytes_to_sectors_eq by lia. apply Hm. }
  { by rewrite bytes_to_sectors_eq by lia. }
  { split; [|done]. fold n. unfold n, n'. rewrite (fo_blocks _ _ _ _ Hm). apply Z.div_le_mono; lia. }
  intros r s' (-> & i' & new & Hgo & Hlen' & Hcur). split; [done|]. exists i', new.
  destruct (go_grows _ _ _ _ _ _ _ Hgo) as (ks & Hg & Hsub & _).
  split_and!; [by apply Hgo|by apply Hgo|done|done| | |apply Hg|apply Hg].
  - intros k Hk. split; [by apply (gr_free _ _ _ _ _ Hg), Hsub|by apply (go_zero _ _ _ _ _ _ _ Hgo)].
  - intros k Hk Hp Ho. split; [by apply (gr_used _ _ _ _ _ Hg); left|].
    apply (gr_view _ _ _ _ _ Hg); [done| |].
    + intros Hin. by apply (used_not_free _ _ Hk), (gr_free _ _ _ _ _ Hg).
    + intros [Hw _]. by apply Ho.
Qed.

(** ** The theorems at work

    300 bytes into the empty file of [Sample]. *)
Definition text : bytes := replicate 300 7.

Lemma inode_write_at_refines_witness :
  wp (inode_write_at zeros (allocator zeros) 41 text 300 0) (λ n s', n = 300 ∧
    ∃ i' new, live 50 40 Sample.fmap_inode [2] [2] s' 41 i' ([] ++ new) ∧ i_length i' = 300 ∧
    i_length_shown i' = 300 ∧
    file_contents s' i' ([] ++ new) = write_bytes [] 0 (slice text 0 300) ∧
    others (priv := [2]) Sample.s0 41 Sample.empty_inode [] s' ∧
    kept i' = kept Sample.empty_inode ∧
    takes_unused Sample.s0 Sample.empty_inode [] s' i' ([] ++ new) ∧ no_stale s') Sample.s0.
Proof.
  apply (inode_write_at_refines zeros 50 40 Sample.fmap_inode [2] [2] Sample.s0 41
    Sample.empty_inode [] text 300 0);
    [apply zeros_ok|apply Sample.empty_ok|apply Sample.no_stale0|done|lia|simpl; lia|done|done|].
  rewrite Sample.free60. vm_compute. discriminate.
Defined.

Lemma inode_read_at_refines_witness :
  wp (inode_read_at 41 text 300 0) (λ r s',
    r.1 = 0 ∧ r.2 = splice text 0 (slice [] 0 r.1) ∧
    live 50 40 Sample.fmap_inode [2] [2] s' 41 Sample.empty_inode [] ∧
    file_contents s' Sample.empty_inode [] = [] ∧
    (∃ c', s' = set_cache c' Sample.s0 ∧ same_view (fs_cache Sample.s0) c') ∧
    (no_stale Sample.s0 → no_stale s')) Sample.s0.
Proof.
  apply (inode_read_at_refines 50 40 Sample.fmap_inode [2] [2] Sample.s0 41
    Sample.empty_inode [] text 300 0); [apply Sample.empty_ok|lia|simpl; lia].
Defined.

Lemma write_then_read_witness :
  wp (inode_write_at zeros (allocator zeros) 41 text 300 0;;
      inode_read_at 41 (replicate 300 0) 300 0) (λ r s', r = (300, text)) Sample.s0.
Proof.
  apply (write_then_read zeros 50 40 Sample.fmap_inode [2] [2] Sample.s0 41
    Sample.empty_inode [] text 0 (replicate 300 0));
    [apply zeros_ok|apply Sample.empty_ok|apply Sample.no_stale0|done|done|simpl; lia|done|done|done|].
  rewrite Sample.free60. vm_compute. discriminate.
Defined.

(** The same file while it is being executed. *)
Definition denied : fs :=
  set_inodes {[ 41 := upd_i_deny_write_cnt 1 Sample.empty_inode ]} Sample.s0.
Lemma inode_write_at_denied_witness :
  wp (inode_write_at zeros (allocator zeros) 41 text 300 0) (λ n s', n = 0 ∧ s' = denied) denied.
Proof.
  by apply (inode_write_at_denied zeros (allocator zeros) denied 41
    (upd_i_deny_write_cnt 1 Sample.empty_inode)).
Defined.

Lemma byte_to_sector_correct_witness :
  wp (byte_to_sector 40 7) (λ k s', s' = Sample.s0 ∧ k = 2) Sample.s0.
Proof.
  apply (byte_to_sector_correct Sample.s0 40 Sample.fmap_inode [2] 7);
    [done|done|apply Sample.fmap_mapped|simpl; lia|lia].
Defined.

(** Growth into the first indirect block. *)
Lemma inode_grow_correct_witness :
  wp (inode_grow zeros (allocator zeros) 41 5000) (λ r s', r = true ∧ ∃ i' new,
    inodes s' !! 41 = Some i' ∧ mapped (fs_cache s') (i_ptrs i') ([] ++ new) ∧
    Z.of_nat (length ([] ++ new)) = 10 ∧
    cursor 10 = (i_ptr_idx i', i_indir_idx i', i_double_indir_idx i') ∧
    (∀ k, k ∈ new → is_free (free_map Sample.s0) k ∧ view (fs_cache s') k = zero_sector) ∧
    (∀ k, is_used (free_map Sample.s0) k → k ∉ [2] →
       ¬ occupies (fs_cache Sample.s0) (i_ptrs Sample.empty_inode) [] k →
       is_used (free_map s') k ∧ view (fs_cache s') k = view (fs_cache Sample.s0) k) ∧
    running 50 40 Sample.fmap_inode [2] [2] s' ∧ no_stale s') Sample.s0.
Proof.
  apply (inode_grow_correct zeros 50 40 Sample.fmap_inode [2] [2] Sample.s0 41
    Sample.empty_inode [] 5000); [apply zeros_ok|apply Sample.empty_ok|apply Sample.no_stale0|simpl; lia|done|done|].
  rewrite Sample.free60. vm_compute. discriminate.
Defined.
End Files.

(** * The free map *)
Module Allocation.

(** C20: While there is room, [free_map_allocate] of one sector takes a free
    one, marks it used, and writes the map to its file, so that the map on
    disk (through the cache) is the map in memory; only the file's own sectors
    change, and no free sector enters the cache. *)
Theorem free_map_allocate_takes uninit fp fip fi fbs priv s :
  running fp fip fi fbs priv s → (0 < nfree (free_map s))%nat →
  wp (free_map_allocate uninit 2 1) (λ r s', ∃ k, r = Some k ∧
    is_free (free_map s) k ∧ is_used (free_map s') k ∧
    (∀ m, is_used (free_map s) m → is_used (free_map s') m) ∧
    nfree (free_map s) = S (nfree (free_map s')) ∧
    (∀ m, m ∉ priv → view (fs_cache s') m = view (fs_cache s) m) ∧
    in_sync fbs s' ∧ running fp fip fi fbs priv s' ∧ (no_stale s → no_stale s')) s.
Proof.
  intros Hr Hn. eapply wp_mono; [by apply (al_alloc s Hr)|].
  intros r s' (k & -> & Ht & Hr'). exists k.
  assert (no_stale s → no_stale s') as Hst.
  { intros Hf. eapply no_stale_take; [done| |exact Ht]. intros x. by apply (al_priv (Allocator := running_allocator uninit fp fip fi fbs priv) s). }
  destruct Ht as (Hk & b' & c' & -> & Hb & Hfr).
  split_and!; [done|done|by eapply set_range_used| |by eapply nfree_take| |apply Hr'|done|done].
  - intros m. by apply (set_range_used_mono _ _ k).
  - intros m Hm. by apply Hfr.
Qed.

Lemma free_map_allocate_takes_witness :
  wp (free_map_allocate zeros 2 1) (λ r s', ∃ k, r = Some k ∧
    is_free (free_map Sample.s0) k ∧ is_used (free_map s') k ∧
    (∀ m, is_used (free_map Sample.s0) m → is_used (free_map s') m) ∧
    nfree (free_map Sample.s0) = S (nfree (free_map s')) ∧
    (∀ m, m ∉ [2] → view (fs_cache s') m = view (fs_cache Sample.s0) m) ∧
    in_sync [2] s' ∧ running 50 40 Sample.fmap_inode [2] [2] s' ∧
    (no_stale Sample.s0 → no_stale s')) Sample.s0.
Proof.
  apply (free_map_allocate_takes zeros 50 40 Sample.fmap_inode [2] [2] Sample.s0);
    [apply Sample.running0|]. vm_compute. apply le_n_S, Nat.le_0_l.
Defined.

(** On a full disk [free_map_allocate] fails and changes nothing. *)
Theorem free_map_allocate_full uninit fp fip fi fbs priv s :
  running fp fip fi fbs priv s → nfree (free_map s) = 0%nat →
  wp (free_map_allocate uninit 2 1) (λ r s', r = None ∧ s' = s) s.
Proof. intros. by apply (al_full (Allocator := running_allocator uninit fp fip fi fbs priv)). Qed.

Lemma free_map_allocate_full_witness :
  wp (free_map_allocate zeros 2 1) (λ r s', r = None ∧ s' = Sample.full) Sample.full.
Proof.
  apply (free_map_allocate_full zeros 50 40 Sample.fmap_inode [2] [2] Sample.full);
    [apply Sample.running_ok; by right|]. vm_compute. reflexivity.
Defined.
End Allocation.

(** * Creating, opening and closing *)
Module Life.

(** [struct inode_disk] survives being written to its sector and read
    back. *)
Theorem inode_disk_reads_back di :
  wf_inode_disk di →
  inode_disk_of_words (bytes_to_words 128 (words_to_bytes (inode_disk_words di))) = di.
Proof. apply inode_disk_roundtrip. Qed.

Lemma inode_disk_reads_back_witness :
  inode_disk_of_words (bytes_to_words 128
    (words_to_bytes (inode_disk_words Sample.empty_disk_inode))) = Sample.empty_disk_inode.
Proof. apply (inode_disk_reads_back Sample.empty_disk_inode). apply Sample.empty_disk_wf. Defined.

(** The free map's inode is in memory, so it is at no fresh address. *)
Lemma fresh_not_own fp fip fi fbs priv s a :
  running fp fip fi fbs priv s → memory_ok s → next_address s ≤ a → a ≠ fip.
Proof.
  intros [Hm _] (_ & _ & Hfr) Ha ->. destruct (mo_inode _ _ _ _ _ _ Hm) as [_ Hi].
  rewrite (Hfr fip Ha) in Hi. done.
Qed.

(** C19: While no free sector is in the cache and there is room, a file
    made by [inode_create] in a sector in use that is not cached, and opened by
    [inode_open], has the length and kind asked for and reads as zeros.  After the removal of a file it may show the removed file's bytes
    ([Findings.Files.stale_create]). *)
Theorem create_then_open uninit fp fip fi fbs priv s k len is_dir :
  words_in_memory uninit → running fp fip fi fbs priv s → no_stale s → memory_ok s →
  let n' := (len + 511) / 512 in
  is_used (free_map s) k → k ∉ priv → uncached (fs_cache s) k →
  0 ≤ len ≤ FILE_SIZE_MAX → n' ≤ MAX_BLOCKS → contained 0 n' →
  total n' ≤ Z.of_nat (nfree (free_map s)) → open_ok s → not_open s k →
  wp (r ← inode_create uninit k len is_dir; ip ← inode_open k; mret (r, ip))
    (λ r s', r.1 = true ∧ ∃ i bs, live fp fip fi fbs priv s' r.2 i bs ∧
       i_sector i = k ∧ i_length i = len ∧ i_is_dir i = (if is_dir then 1 else 0) ∧
       file_contents s' i bs = replicate (Z.to_nat len) 0 ∧ no_stale s') s.
Proof.
  intros Hj Hr Hst Hmem n' Hk Hp Hu Hlen Hmax Hcon Hfree Hop Hno.
  pose proof (conj Hr Hst : clean_running fp fip fi fbs priv s) as Hc. wp_unbind.
  eapply wp_mono; [by apply (inode_create_ok uninit Hj (I := clean_running fp fip fi fbs priv));
    try done; eapply fresh_not_own; [done|done|lia]|].
  intros r s1 (-> & di & bs & Hod & El & Ed & Hz & Hr1 & Ei & Eo & Hmem1). wp_unbind.
  eapply wp_mono; [apply (open_file uninit (I := clean_running fp fip fi fbs priv)) with (2 := Hod); try done|].
  - intros q. unfold open_ok in Hop. rewrite Eo, Ei. apply Hop.
  - intros q j. rewrite Eo, Ei. apply Hno.
  - eapply fresh_not_own; [apply Hr1|done|lia].
  - intros ip s2 ([Hok Hst2]%clean_live & Ec & _). wp_go. split; [done|]. exists (opened k di), bs.
    split_and!; try done. by rewrite Ec, El.
Qed.

(** A directory of two blocks in sector 1. *)
Lemma create_then_open_witness :
  wp (r ← inode_create zeros 1 600 true; ip ← inode_open 1; mret (r, ip))
    (λ r s', r.1 = true ∧ ∃ i bs, live 50 40 Sample.fmap_inode [2] [2] s' r.2 i bs ∧
       i_sector i = 1 ∧ i_length i = 600 ∧ i_is_dir i = 1 ∧
       file_contents s' i bs = replicate 600 0 ∧ no_stale s') Sample.s0.
Proof.
  apply (create_then_open zeros 50 40 Sample.fmap_inode [2] [2] Sample.s0 1 600 true);
    [apply zeros_ok|apply Sample.running0|apply Sample.no_stale0|apply Sample.memory0|split; [simpl; lia|done]| |
     done|unfold FILE_SIZE_MAX; lia|done|done| |apply Sample.open0_ok|].
  - by intros ?%list_elem_of_singleton.
  - rewrite Sample.free60. vm_compute. discriminate.
  - by intros ip i Hin [[-> ->]|[-> ->]]%Sample.open0.
Defined.

(** C18: What [inode_close] writes when the last user leaves is what the next
    [inode_open] brings back: the same sectors, length, kind, parent and
    contents; no free sector enters the cache. *)
Theorem close_then_open uninit fp fip fi fbs priv s ip i bs :
  words_in_memory uninit → live fp fip fi fbs priv s ip i bs →
  inode_sector_ok (priv := priv) s i bs → i_open_cnt i = 1 → i_removed i = false →
  memory_ok s → open_ok s →
  (∀ q j, q ∈ open_inodes s → q ≠ ip → inodes s !! q = Some j → i_sector j ≠ i_sector i) →
  wp (inode_close uninit ip;; inode_open (i_sector i))
    (λ ip' s', ∃ i', live fp fip fi fbs priv s' ip' i' bs ∧
       i_sector i' = i_sector i ∧ i_length i' = i_length i ∧ i_is_dir i' = i_is_dir i ∧
       i_parent i' = i_parent i ∧ file_contents s' i' bs = file_contents s i bs ∧
       (no_stale s → no_stale s')) s.
Proof.
  intros Hj Hok Hsec Hcnt Hrem Hmem Hop Hone. pose proof Hmem as (Hmo & Ha & Hfr). wp_unbind.
  eapply wp_mono; [by apply (inode_close_ok uninit Hj (I := running fp fip fi fbs priv) s ip i bs)|].
  intros [] s1 (di & Hod & El & Ed & Ep & Hr1 & Ec & Ei & Eo & Emo & Ena & Hfr1 & Emap & _).
  assert (memory_ok s1) as Hmem1.
  { split_and!; [done|lia|]. intros a Hle. rewrite Ei, lookup_delete_None. right. apply Hfr. lia. }
  eapply wp_mono; [apply (open_file uninit (I := running fp fip fi fbs priv)) with (2 := Hod); try done|].
  - intros q. rewrite Eo, Ei. intros [Hq Hin]%list_elem_of_filter.
    rewrite lookup_delete_ne by done. by apply Hop.
  - intros q j. rewrite Eo, Ei. intros [Hq Hin]%list_elem_of_filter.
    rewrite lookup_delete_ne by done. by apply Hone.
  - eapply fresh_not_own; [done|done|lia].
  - intros ip' s2 (Hok2 & Ec2 & _ & Efc & Efm). exists (opened (i_sector i) di).
    split_and!; try done; [by rewrite Ec2, El|]. unfold no_stale. rewrite Efc, Efm, Emap.
    intros Hst k Hk. apply Hfr1; [|by apply Hst]. intros ->. by eapply used_not_free; [apply Hsec|].
Qed.

Lemma close_then_open_witness :
  wp (inode_close zeros 41;; inode_open 3)
    (λ ip' s', ∃ i', live 50 40 Sample.fmap_inode [2] [2] s' ip' i' [] ∧
       i_sector i' = 3 ∧ i_length i' = 0 ∧ i_is_dir i' = 0 ∧
       i_parent i' = 1 ∧ file_contents s' i' [] = [] ∧
       (no_stale Sample.s0 → no_stale s')) Sample.s0.
Proof.
  apply (close_then_open zeros 50 40 Sample.fmap_inode [2] [2] Sample.s0 41 Sample.empty_inode []);
    [apply zeros_ok|apply Sample.empty_ok| |done|done|apply Sample.memory0|apply Sample.open0_ok|].
  - split_and!; [split; [simpl; lia|done]|by intros ?%list_elem_of_singleton|done| |].
    + apply not_occupies_nil.
    + simpl. repeat (apply Forall_cons; split; [unfold is_u32; lia|]). apply Forall_nil_2.
  - intros q j Hin Hq [[-> ->]|[-> ->]]%Sample.open0; done.
Defined.

(** Opening a sector that is open already shares the inode in memory: the
    one in [open_inodes] is returned with its count raised, and the disk is
    not read. *)
Theorem inode_open_shares s k l1 ip i l2 :
  ip ≠ NULL → open_inodes s = l1 ++ ip :: l2 →
  (∀ q, q ∈ l1 → ∃ j, inodes s !! q = Some j ∧ i_sector j ≠ k) →
  inodes s !! ip = Some i → i_sector i = k →
  wp (inode_open k) (λ r s', r = ip ∧
    s' = set_inodes (<[ip := upd_i_open_cnt (i_open_cnt i + 1) i]> (inodes s)) s) s.
Proof. apply inode_open_again. Qed.

Lemma inode_open_shares_witness :
  wp (inode_open 0) (λ r s', r = 40 ∧
    s' = set_inodes (<[40 := upd_i_open_cnt 2 Sample.fmap_inode]> (inodes Sample.s0)) Sample.s0)
    Sample.s0.
Proof.
  apply (inode_open_shares Sample.s0 0 [41] 40 Sample.fmap_inode []); try done.
  intros q ->%list_elem_of_singleton. by exists Sample.empty_inode.
Defined.
End Life.
