(* ===== verification/DirTheorems.v ===== *)
(** The theorems about directories and paths, on a running system. *)
From Stdlib Require Import ZArith Lia.
From stdpp Require Import base tactics option numbers list gmap.
From S2P Require Import Prelude Bytes Disk FsState Inode.
From S2P Require CString Bitmap.
From S2P Require Import Cache InodeIO FreeMap Grow InodeWrite InodeLife.
From S2P Require Import Directory DirSpec PathSpec FsTheorems.
Import Cache.Correct.

Open Scope Z_scope.

(** A directory that is open on a running system. *)
Abbreviation open_dir fp fip fi fbs priv :=
  (dir_file (priv := priv) (own := fip) (I := running fp fip fi fbs priv)).

Lemma open_dir_clean fp fip fi fbs priv s ip i bs :
  open_dir fp fip fi fbs priv s ip i bs → no_stale s →
  dir_file (priv := priv) (own := fip) (I := clean_running fp fip fi fbs priv) s ip i bs.
Proof. intros [Hok ? ? ?] Hf. split; [by apply live_clean|done..]. Qed.

Lemma clean_open_dir fp fip fi fbs priv s ip i bs :
  dir_file (priv := priv) (own := fip) (I := clean_running fp fip fi fbs priv) s ip i bs →
  open_dir fp fip fi fbs priv s ip i bs ∧ no_stale s.
Proof. intros [[Hok Hf]%clean_live ? ? ?]. by split. Qed.

(** * A directory on the small system

    The empty root directory, inode 42, is open as directory 60; the empty
    file with its inode in sector 3 is not open. *)
Module DirSample.
Definition root_inode : inode :=
  mk_inode 1 1 false 0 0 0 1 (replicate 15 0) 0 0 0 1 1 false.
Definition s1 : fs :=
  set_dirs {[ 60 := mk_dir 42 0 ]} (set_open_inodes [42; 40]
    (set_inodes {[ 40 := Sample.fmap_inode; 42 := root_inode ]} Sample.s0)).

Lemma running1 : running 50 40 Sample.fmap_inode [2] [2] s1.
Proof.
  by eapply (al_other (Allocator := running_allocator zeros 50 40 Sample.fmap_inode [2] [2]));
    [apply Sample.running0|..].
Qed.

Lemma no_stale1 : no_stale s1.
Proof. by intros k _ i e Hi. Qed.

Lemma root_ok : open_dir 50 40 Sample.fmap_inode [2] [2] s1 42 root_inode [].
Proof.
  split; [split; [split; [apply running1|..]; try done|]|done..].
  - by apply mapped_nil.
  - intros x Hx. by apply not_occupies_nil in Hx.
  - by left.
  - intros p Hp. simpl in Hp. lia.
Qed.

Lemma names1 : names_ok (file_contents s1 root_inode []).
Proof. intros k e [Hk _]%slots_lookup. vm_compute in Hk. lia. Qed.

Lemma file3 : candidate (priv := [2]) s1 root_inode [] 3 Sample.empty_disk_inode [].
Proof.
  split.
  - split; try done.
    + apply Sample.empty_disk_wf.
    + split_and!; [split; [simpl; lia|done]|by intros ?%list_elem_of_singleton|done|apply not_occupies_nil].
    + by apply mapped_nil.
    + intros x Hx. by apply not_occupies_nil in Hx.
    + by left.
    + intros p Hp. simpl in Hp. lia.
  - intros x _ Hx. by apply not_occupies_nil in Hx.
Qed.

Lemma memory1 : memory_ok s1.
Proof.
  split_and!; [done..|]. intros a Ha. change (100 ≤ a) in Ha.
  change (({[ 40 := Sample.fmap_inode; 42 := root_inode ]} : gmap Z inode) !! a = None).
  by rewrite lookup_insert_ne, lookup_singleton_ne by lia.
Qed.

Lemma closed1 : open_ok s1 ∧ not_open s1 3.
Proof.
  split.
  - intros ip [->|[->|Hin%not_elem_of_nil]%elem_of_cons]%elem_of_cons; [by eexists..|done].
  - intros ip i [->|[->|Hin%not_elem_of_nil]%elem_of_cons]%elem_of_cons; [..|done];
      intros E; vm_compute in E; by simplify_eq.
Qed.

Definition a_txt : bytes := [97; 46; 116].
Lemma a_txt_good : good_name a_txt.
Proof. repeat constructor; lia. Qed.

(** The root directory with an entry for the file in sector 3, in sector 4.
    In [closed] the file is not open, in [shared] it is, at 41. *)
Definition one_inode : inode :=
  mk_inode 1 1 false 0 20 20 1 (4 :: replicate 14 0) 1 0 0 1 1 false.
Definition one_system (inos : gmap Z inode) (opens : list Z) : fs :=
  mk_fs (Cache.mk_cache (mk_disk 64 (<[4 := new_entry a_txt 3 (replicate 20 0) ++ replicate 492 0]>
      (Sample.sectors0 [31; 0]))) [] 0 false false) (Bitmap.mk_bitmap 64 [31; 0]) 50
    (<[40 := Sample.fmap_inode]> (<[42 := one_inode]> inos)) {[ 50 := mk_file 40 0 false ]}
    {[ 60 := mk_dir 42 0 ]} 0 opens 100 [].
Definition closed : fs := one_system ∅ [42; 40].
Definition shared : fs := one_system {[ 41 := Sample.empty_inode ]} [42; 41; 40].

Section one.
Context (inos : gmap Z inode) (opens : list Z).
Let s := one_system inos opens.

Lemma one_running : running 50 40 Sample.fmap_inode [2] [2] s.
Proof.
  split.
  - split; simpl.
    + split; [| |done|done].
      * split; split; simpl; try done; [|apply NoDup_nil_2]. intros k b Hk. simpl in Hk.
        apply lookup_insert_Some in Hk as [[<- <-]|[_ Hk]]; [done|]. unfold Sample.sectors0 in Hk.
        apply lookup_insert_Some in Hk as [[<- <-]|[_ Hk]]; [done|].
        by apply lookup_singleton_Some in Hk as [<- <-].
      * split; simpl; [lia|done|]. repeat constructor; unfold is_u32; lia.
    + split_and!; [done..|]. by exists (mk_file 40 0 false).
    + split; [done|]. apply lookup_insert_eq.
    + split; [done|]. by right.
    + done.
    + split; rewrite ?index_list_direct by (simpl; lia); try done.
      * intros [|b] k Hk; by simplify_eq/=.
      * intros x ->%list_elem_of_singleton. split; simpl; lia.
      * apply NoDup_singleton.
    + done.
    + intros x ->%list_elem_of_singleton. split; [simpl; lia|done].
  - intros p Hp. change (Bitmap.byte_cnt _) with 8 in Hp.
    assert (p ∈ seqZ 0 8) as Hs by (apply elem_of_seqZ; lia). clear Hp. revert p Hs.
    apply Forall_forall. vm_compute. repeat constructor.
Qed.

Lemma one_mapped : mapped (fs_cache s) (i_ptrs one_inode) [4].
Proof.
  split; rewrite ?index_list_direct by (simpl; lia); try done.
  - intros [|b] k Hk; by simplify_eq/=.
  - intros x ->%list_elem_of_singleton. split; simpl; lia.
  - apply NoDup_singleton.
Qed.

Lemma one_occupies x : occupies (fs_cache s) (i_ptrs one_inode) [4] x → x = 4.
Proof. unfold occupies. rewrite index_list_direct by (simpl; lia). simpl. by intros ?%list_elem_of_singleton. Qed.

Lemma one_tail p : 20 ≤ p < 512 → file_byte (fs_cache s) [4] p = 0.
Proof.
  intros Hp. assert (forallb (λ p, file_byte (fs_cache s) [4] p =? 0) (seqZ 20 492) = true) as Hz.
  { vm_compute. reflexivity. }
  rewrite forallb_forall in Hz. apply Z.eqb_eq, Hz, list_elem_of_In, elem_of_seqZ. lia.
Qed.

Lemma one_dir : open_dir 50 40 Sample.fmap_inode [2] [2] s 42 one_inode [4].
Proof.
  split; [split; [split; [apply one_running|..]; try done|]|done..].
  - split_and!; [done..|]. simpl. by rewrite lookup_insert_ne, lookup_insert_eq.
  - apply one_mapped.
  - intros x ->%one_occupies. split; [split; [simpl; lia|done]|by intros ?%list_elem_of_singleton].
  - by left.
  - apply one_tail.
Qed.

Lemma one_slots : slots (file_contents s one_inode [4]) = [new_entry a_txt 3 (replicate 20 0)].
Proof. vm_compute. reflexivity. Qed.

Lemma one_names : names_ok (file_contents s one_inode [4]).
Proof.
  intros k e. rewrite one_slots. intros [_ <-]%list_lookup_singleton_Some _. exists a_txt.
  split; [done|apply a_txt_good].
Qed.

Lemma one_leads : dir_map (file_contents s one_inode [4]) a_txt = Some 3.
Proof. vm_compute. reflexivity. Qed.

Lemma one_candidate : candidate (priv := [2]) s one_inode [4] 3 Sample.empty_disk_inode [].
Proof.
  split.
  - split; try done.
    + apply Sample.empty_disk_wf.
    + split_and!; [split; [simpl; lia|done]|by intros ?%list_elem_of_singleton|done|apply not_occupies_nil].
    + by apply mapped_nil.
    + intros x Hx. by apply not_occupies_nil in Hx.
    + by left.
    + intros p Hp. simpl in Hp. lia.
  - intros x [->|Hx]; [by intros ?%one_occupies|]. by apply not_occupies_nil in Hx.
Qed.

Lemma one_memory : (∀ a, 100 ≤ a → inos !! a = None) → memory_ok s.
Proof.
  intros Hin. split_and!; [done..|]. intros a Ha. change (100 ≤ a) in Ha. simpl.
  rewrite !lookup_insert_ne by lia. by apply Hin.
Qed.
End one.

Lemma leads_closed : dir_map (file_contents closed one_inode [4]) a_txt = Some 3.
Proof. apply one_leads. Qed.
Lemma leads_shared : dir_map (file_contents shared one_inode [4]) a_txt = Some 3.
Proof. apply one_leads. Qed.

Lemma memory_closed : memory_ok closed.
Proof. by apply one_memory. Qed.
Lemma memory_shared : memory_ok shared.
Proof. apply one_memory. intros a Ha. by rewrite lookup_singleton_ne by lia. Qed.

Lemma closed_ok : open_ok closed ∧ not_open closed 3.
Proof.
  split.
  - intros ip [->|[->|Hin%not_elem_of_nil]%elem_of_cons]%elem_of_cons; [by eexists..|done].
  - intros ip i [->|[->|Hin%not_elem_of_nil]%elem_of_cons]%elem_of_cons; [..|done];
      intros E; vm_compute in E; by simplify_eq.
Qed.

Lemma shared_ok : open_ok shared ∧ open_at shared 3 41 Sample.empty_inode.
Proof.
  split.
  - intros ip [->|[->|[->|Hin%not_elem_of_nil]%elem_of_cons]%elem_of_cons]%elem_of_cons;
      [by eexists..|done].
  - split_and!; [done..|]. exists [42], [40]. split; [done|].
    intros p ->%list_elem_of_singleton. by exists one_inode.
Qed.
End DirSample.

Module Directories.

(** C28: [dir_add] of a new name to a directory is an insertion into the map
    from names to sectors, whether the entry goes into a free slot or the
    directory grows: the name leads to the file from then on and every other
    name leads where it did; the file itself is unchanged but for its parent.
    It is assumed that no free sector is still in the cache, in case the
    directory grows into one. *)
Theorem dir_add_inserts uninit fp fip fi fbs priv s dp d i bs k di nbs name :
  words_in_memory uninit →
  let c := file_contents s i bs in
  let n' := (i_length i + 20 + 511) / 512 in
  dp ≠ NULL → dirs s !! dp = Some d → open_dir fp fip fi fbs priv s (dir_inode d) i bs → no_stale s →
  i_lock i = false → i_deny_write_cnt i = 0 → names_ok c →
  good_name name → (0 < length name ≤ 14)%nat → dir_map c name = None →
  candidate (priv := priv) s i bs k di nbs → open_ok s → not_open s k → memory_ok s →
  is_u32 (i_sector i) → n' ≤ MAX_BLOCKS → contained (Z.of_nat (length bs)) n' →
  total n' - total (Z.of_nat (length bs)) ≤ Z.of_nat (nfree (free_map s)) →
  wp (dir_add uninit dp name k) (λ r s', r = true ∧ ∃ i' new di',
    open_dir fp fip fi fbs priv s' (dir_inode d) i' (bs ++ new) ∧
    let c' := file_contents s' i' (bs ++ new) in
    names_ok c' ∧ (∀ nm, dir_map c' nm = if decide (nm = name) then Some k else dir_map c nm) ∧
    candidate (priv := priv) s' i' (bs ++ new) k di' nbs ∧ d_parent di' = i_sector i ∧
    contents (fs_cache s') nbs (d_length di) = contents (fs_cache s) nbs (d_length di) ∧
    no_stale s') s.
Proof.
  intros Hj c n' Hdp Hd Hf Hst Hl Hdeny Hno Hg Hlen Hmiss Hcd Hop Hcl Hmem H32 Hmax Hcon Hfree.
  assert (next_address s ≠ fip) as Hne.
  { eapply (Life.fresh_not_own fp fip fi fbs priv s); [apply Hf|done|lia]. }
  eapply wp_mono; [by apply (dir_add_ok uninit Hj (I := clean_running fp fip fi fbs priv) s dp d i bs k di nbs); try done; apply open_dir_clean|].
  intros r s' (-> & i' & new & di' & [? ?]%clean_open_dir & _ & ? & ? & ? & _ & _ & ? & ? & _).
  split; [done|]. by exists i', new, di'.
Qed.

Lemma dir_add_inserts_witness :
  wp (dir_add zeros 60 DirSample.a_txt 3) (λ r s', r = true ∧ ∃ i' new di',
    open_dir 50 40 Sample.fmap_inode [2] [2] s' 42 i' ([] ++ new) ∧
    let c' := file_contents s' i' ([] ++ new) in
    names_ok c' ∧ (∀ nm, dir_map c' nm = if decide (nm = DirSample.a_txt) then Some 3 else None) ∧
    candidate (priv := [2]) s' i' ([] ++ new) 3 di' [] ∧ d_parent di' = 1 ∧
    contents (fs_cache s') [] 0 = [] ∧ no_stale s') DirSample.s1.
Proof.
  apply (dir_add_inserts zeros 50 40 Sample.fmap_inode [2] [2] DirSample.s1 60 (mk_dir 42 0)
    DirSample.root_inode [] 3 Sample.empty_disk_inode [] DirSample.a_txt);
    [apply zeros_ok|done|done|apply DirSample.root_ok|apply DirSample.no_stale1|done|done|apply DirSample.names1|
     apply DirSample.a_txt_good|simpl; lia|done|apply DirSample.file3|apply DirSample.closed1|
     apply DirSample.closed1|apply DirSample.memory1|unfold is_u32; simpl; lia|done|done|].
  change (free_map DirSample.s1) with (free_map Sample.s0). rewrite Sample.free60. vm_compute. discriminate.
Defined.

(** C29: [dir_lookup] of a name the directory does not have returns the null
    pointer.  For a name that leads to a sector that is not open it opens the
    file there, with the file's contents; if the sector is open already,
    [dir_lookup] returns the inode in memory with its count raised and changes
    no other inode, and the file, if it is well-formed, keeps its contents.
    The directory is as before and no free sector enters the cache.  It is
    assumed that the name leads to a file: a sector that is open, though not as
    the directory itself or the free map, or one that is not open and holds the
    inode of a file apart from the directory. *)
Theorem dir_lookup_finds uninit fp fip fi fbs priv s dp d i bs name :
  words_in_memory uninit →
  let c := file_contents s i bs in
  dp ≠ NULL → dirs s !! dp = Some d → open_dir fp fip fi fbs priv s (dir_inode d) i bs →
  i_lock i = false → names_ok c → good_name name → memory_ok s → open_ok s →
  (∀ k, dir_map c name = Some k →
     (∃ q j, open_at s k q j ∧ q ≠ dir_inode d ∧ q ≠ fip) ∨
     (not_open s k ∧ ∃ di nbs, candidate (priv := priv) s i bs k di nbs)) →
  wp (dir_lookup uninit dp name) (λ r s',
    open_dir fp fip fi fbs priv s' (dir_inode d) i bs ∧ file_contents s' i bs = c ∧
    (no_stale s → no_stale s') ∧
    match dir_map c name with
    | None => r = NULL ∧ inodes s' = inodes s
    | Some k => r ≠ NULL ∧
        (∀ q j, open_at s k q j →
           r = q ∧ inodes s' = <[q := reopened j]> (inodes s) ∧
           ∀ nbs, live fp fip fi fbs priv s q j nbs →
             (∀ x, occupies (fs_cache s) (i_ptrs j) nbs x → ¬ occupies (fs_cache s) (i_ptrs i) bs x) →
             live fp fip fi fbs priv s' q (reopened j) nbs ∧
             file_contents s' (reopened j) nbs = file_contents s j nbs) ∧
        (not_open s k → ∀ di nbs, candidate (priv := priv) s i bs k di nbs →
           live fp fip fi fbs priv s' r (opened k di) nbs ∧
           file_contents s' (opened k di) nbs = contents (fs_cache s) nbs (d_length di))
    end) s.
Proof.
  intros Hj c Hdp Hd Hf Hl Hno Hg Hmem Hop Hfile.
  assert (next_address s ≠ fip) as Hne.
  { eapply (Life.fresh_not_own fp fip fi fbs priv s); [apply Hf|done|lia]. }
  eapply wp_mono; [by apply (dir_lookup_ok uninit Hj (I := running fp fip fi fbs priv) s dp d i bs name)|].
  intros r s' ((Hf' & Ec & Hfr & Em) & _ & Hr). fold c in Hr. split_and!; [done..| |].
  - intros Hst k. rewrite Em. intros Hk. apply Hfr; [|by apply Hst]. intros Hb.
    apply (used_not_free _ _ (proj1 (fo_owned _ _ _ _ (proj1 (df_file _ _ _ _ Hf)) _
      (mapped_occupies (fs_cache s) (i_ptrs i) bs k Hb))) Hk).
  - destruct (dir_map c name) as [k|]; [|done]. destruct Hr as (? & Hsh & ?). split_and!; [done| |done].
    intros q j Hat. destruct (Hsh q j Hat) as [-> Ei]. split_and!; [done..|]. intros nbs Hlive Hap.
    apply (reopened_file uninit s s' (dir_inode d) i bs q j nbs); try done; [apply Hf'|].
    rewrite Ei. apply lookup_insert_eq.
Qed.

(** The name of the file in a directory that has it: the file is opened at the
    next address if it was closed, and shared if it was open. *)
Lemma dir_lookup_finds_witness :
  wp (dir_lookup zeros 60 DirSample.a_txt) (λ r s',
    live 50 40 Sample.fmap_inode [2] [2] s' r (opened 3 Sample.empty_disk_inode) [] ∧
    file_contents s' (opened 3 Sample.empty_disk_inode) [] = []) DirSample.closed ∧
  wp (dir_lookup zeros 60 DirSample.a_txt) (λ r s', r = 41 ∧
    inodes s' = <[41 := reopened Sample.empty_inode]> (inodes DirSample.shared)) DirSample.shared.
Proof.
  split.
  - eapply wp_mono; [apply (dir_lookup_finds zeros 50 40 Sample.fmap_inode [2] [2] DirSample.closed 60
      (mk_dir 42 0) DirSample.one_inode [4] DirSample.a_txt);
      [apply zeros_ok|done|done|apply DirSample.one_dir|done|apply DirSample.one_names|
       apply DirSample.a_txt_good|apply DirSample.memory_closed|apply DirSample.closed_ok|]|].
    + intros k Hk. right. rewrite DirSample.leads_closed in Hk. injection Hk as <-.
      split; [apply DirSample.closed_ok|]. exists Sample.empty_disk_inode, [].
      apply DirSample.one_candidate.
    + intros r s' (_ & _ & _ & Hr). rewrite DirSample.leads_closed in Hr. destruct Hr as (_ & _ & Hr).
      apply Hr; [apply DirSample.closed_ok|apply DirSample.one_candidate].
  - eapply wp_mono; [apply (dir_lookup_finds zeros 50 40 Sample.fmap_inode [2] [2] DirSample.shared 60
      (mk_dir 42 0) DirSample.one_inode [4] DirSample.a_txt);
      [apply zeros_ok|done|done|apply DirSample.one_dir|done|apply DirSample.one_names|
       apply DirSample.a_txt_good|apply DirSample.memory_shared|apply DirSample.shared_ok|]|].
    + intros k Hk. left. rewrite DirSample.leads_shared in Hk. injection Hk as <-.
      exists 41, Sample.empty_inode. split_and!; [apply DirSample.shared_ok|done|done].
    + intros r s' (_ & _ & _ & Hr). rewrite DirSample.leads_shared in Hr. destruct Hr as (_ & Hr & _).
      destruct (Hr 41 Sample.empty_inode) as (-> & -> & _); [apply DirSample.shared_ok|]. by split.
Defined.

(** C30: A file added to a directory under a name is what [dir_lookup] of the
    name opens, with its contents, while no free sector is in the cache. *)
Theorem add_then_lookup uninit fp fip fi fbs priv s dp d i bs k di nbs name :
  words_in_memory uninit →
  let c := file_contents s i bs in
  let n' := (i_length i + 20 + 511) / 512 in
  dp ≠ NULL → dirs s !! dp = Some d → open_dir fp fip fi fbs priv s (dir_inode d) i bs → no_stale s →
  i_lock i = false → i_deny_write_cnt i = 0 → names_ok c →
  good_name name → (0 < length name ≤ 14)%nat → dir_map c name = None →
  candidate (priv := priv) s i bs k di nbs → open_ok s → not_open s k → memory_ok s →
  is_u32 (i_sector i) → n' ≤ MAX_BLOCKS → contained (Z.of_nat (length bs)) n' →
  total n' - total (Z.of_nat (length bs)) ≤ Z.of_nat (nfree (free_map s)) →
  wp (dir_add uninit dp name k;; dir_lookup uninit dp name) (λ r s', ∃ i',
    live fp fip fi fbs priv s' r i' nbs ∧ i_sector i' = k ∧ i_parent i' = i_sector i ∧
    file_contents s' i' nbs = contents (fs_cache s) nbs (d_length di) ∧ no_stale s') s.
Proof.
  intros Hj c n' Hdp Hd Hf Hst Hl Hdeny Hno Hg Hlen Hmiss Hcd Hop Hcl Hmem H32 Hmax Hcon Hfree.
  assert (next_address s ≠ fip) as Hne.
  { eapply (Life.fresh_not_own fp fip fi fbs priv s); [apply Hf|done|lia]. }
  wp_unbind.
  eapply wp_mono; [by apply (dir_add_ok uninit Hj (I := clean_running fp fip fi fbs priv) s dp d i bs k di nbs); try done; apply open_dir_clean|].
  intros r s1 (_ & i1 & new & di1 & Hf1 & Ek & Hno1 & Hmap1 & Hcd1 & El & Ed & Ep & Ec & Edirs & Hop1 & Hcl1 & Hmem1).
  assert (next_address s1 ≠ fip) as Hne1.
  { eapply (Life.fresh_not_own fp fip fi fbs priv s1); [apply Hf1|done|lia]. }
  eapply wp_mono; [apply (dir_lookup_ok uninit Hj (I := clean_running fp fip fi fbs priv) s1 dp d i1 (bs ++ new) name); try done|].
  - by rewrite Edirs.
  - unfold kept in Ek. congruence.
  - intros k'. rewrite Hmap1, decide_True by done. intros [= <-]. right. split; [done|]. by exists di1, nbs.
  - rewrite Hmap1, decide_True by done. intros r1 s2 (_ & _ & _ & _ & Hfile).
    destruct (Hfile Hcl1 di1 nbs Hcd1) as [[Hok ?]%clean_live Ec2]. exists (opened k di1).
    split_and!; [done|done|done| |done]. by rewrite Ec2, El.
Qed.

Lemma add_then_lookup_witness :
  wp (dir_add zeros 60 DirSample.a_txt 3;; dir_lookup zeros 60 DirSample.a_txt) (λ r s', ∃ i',
    live 50 40 Sample.fmap_inode [2] [2] s' r i' [] ∧ i_sector i' = 3 ∧ i_parent i' = 1 ∧
    file_contents s' i' [] = [] ∧ no_stale s') DirSample.s1.
Proof.
  apply (add_then_lookup zeros 50 40 Sample.fmap_inode [2] [2] DirSample.s1 60 (mk_dir 42 0)
    DirSample.root_inode [] 3 Sample.empty_disk_inode [] DirSample.a_txt);
    [apply zeros_ok|done|done|apply DirSample.root_ok|apply DirSample.no_stale1|done|done|apply DirSample.names1|
     apply DirSample.a_txt_good|simpl; lia|done|apply DirSample.file3|apply DirSample.closed1|
     apply DirSample.closed1|apply DirSample.memory1|unfold is_u32; simpl; lia|done|done|].
  change (free_map DirSample.s1) with (free_map Sample.s0). rewrite Sample.free60. vm_compute. discriminate.
Defined.

(** [dir_readdir] returns the name of the first entry in use from the
    directory's position on and moves the position behind it, or reports the
    end; so repeated calls enumerate the names in order. *)
Theorem dir_readdir_next uninit fp fip fi fbs priv s dp ip i bs j :
  words_in_memory uninit →
  let c := file_contents s i bs in
  dirs s !! dp = Some (mk_dir ip (20 * Z.of_nat j)) → open_dir fp fip fi fbs priv s ip i bs →
  i_lock i = false → names_ok c → (j ≤ nslots c)%nat →
  wp (dir_readdir uninit dp) (λ r s', r = (readdir_result c j).1 ∧
    dirs s' !! dp = Some (mk_dir ip (20 * Z.of_nat (readdir_result c j).2)) ∧
    open_dir fp fip fi fbs priv s' ip i bs ∧ file_contents s' i bs = c) s.
Proof.
  intros Hj c Hd Hf Hl Hno Hle.
  eapply wp_mono; [by apply (dir_readdir_ok uninit Hj (I := running fp fip fi fbs priv) s dp ip i bs j)|].
  intros r s' [-> (Ed & ? & ? & _)]. split_and!; [done| |done..]. rewrite Ed. apply lookup_insert_eq.
Qed.

Lemma dir_readdir_next_witness :
  wp (dir_readdir zeros 60) (λ r s', r = None ∧
    dirs s' !! 60 = Some (mk_dir 42 0) ∧
    open_dir 50 40 Sample.fmap_inode [2] [2] s' 42 DirSample.root_inode [] ∧
    file_contents s' DirSample.root_inode [] = []) DirSample.s1.
Proof.
  apply (dir_readdir_next zeros 50 40 Sample.fmap_inode [2] [2] DirSample.s1 60 42
    DirSample.root_inode [] 0);
    [apply zeros_ok|done|apply DirSample.root_ok|done|apply DirSample.names1|done].
Defined.

(** [parse_file] returns the last component of a path: what follows its
    last run of slashes, trailing slashes aside. *)
Theorem parse_file_last name s :
  good_name name → malloc_outcomes s = [] → 0 < next_address s →
  wp (parse_file name) (λ r s', r = default [] (last (CString.tokens [SLASH] name)) ∧
    s' = set_memory (next_address s + 2) [] s) s.
Proof. apply parse_file_ok. Qed.

(** The path "/a//b.". *)
Lemma parse_file_last_witness :
  wp (parse_file [47; 97; 47; 47; 98; 46]) (λ r s', r = [98; 46] ∧
    s' = set_memory 102 [] DirSample.s1) DirSample.s1.
Proof.
  apply (parse_file_last [47; 97; 47; 47; 98; 46] DirSample.s1); [|done|done].
  repeat constructor; lia.
Defined.
End Directories.
