(* ===== verification/Threads.v ===== *)
(** Threads, the scheduler, semaphores, locks, condition variables and the
    timer ([threads/thread.c], [threads/synch.c], [devices/timer.c] and the
    interrupt entry of [threads/interrupt.c]).

    The state is the kernel's memory as these files see it.  A thread is named
    by the address of its page.  The intrusive lists (the run queue, the
    sleepers, the waiters of a semaphore or a condition) are the sequences
    that the list operations of [KList.v] maintain; that no thread's [elem]
    is ever in two of them at once is a theorem here ([SchedInv.v]).

    Threads switch inside calls.  What a thread that was switched out still
    has to do is on its kernel stack; [frames] is that stack, one [frame] for
    each point of the code at which a thread can lose the processor (in
    [schedule], or by a timer interrupt while interrupts are on).  A call runs
    up to the next such point, [resume] runs the running thread on from its
    innermost frame, and [interrupt] is a timer interrupt.  Interleavings of
    threads are sequences of these steps. *)
From Stdlib Require Import ZArith Lia.
From stdpp Require Import base tactics option list gmap.
From S2P Require Import Prelude.
From S2P Require KList CString.

Open Scope Z_scope.

Abbreviation NULL := KList.NULL.
Definition bytes := list Z.

Inductive thread_status := THREAD_RUNNING | THREAD_READY | THREAD_BLOCKED | THREAD_DYING.
Inductive intr_level := INTR_OFF | INTR_ON.
#[global] Instance thread_status_eq_dec : EqDecision thread_status.
Proof. solve_decision. Defined.
#[global] Instance intr_level_eq_dec : EqDecision intr_level.
Proof. solve_decision. Defined.

Definition THREAD_MAGIC : Z := 0xcd6abf4b.
Definition PRI_MIN : Z := 0.
Definition PRI_DEFAULT : Z := 31.
Definition PRI_MAX : Z := 63.
Definition TID_ERROR : Z := -1.
Definition TIME_SLICE : Z := 4.
Definition PGSIZE : Z := 4096.
Definition INT64_MAX : Z := 2 ^ 63 - 1.

(** The function a new thread runs and its argument: [idle], or one whose code
    makes the calls below in some order. *)
Inductive thread_func := FUNC_idle (idle_started : Z) | FUNC_other (f aux : Z).

(** A semaphore is named by where it is: on its own at an address, or as a
    member of a [struct lock], a [struct semaphore_elem] or a [struct thread]
    at an address. *)
Inductive sema_id :=
| S_at (addr : Z) | S_lock (lock : Z) | S_elem (waiter : Z)
| S_load (t : Z) | S_wait (t : Z) | S_exited (t : Z).
#[global] Instance sema_id_eq_dec : EqDecision sema_id.
Proof. solve_decision. Defined.
#[global] Instance sema_id_countable : Countable sema_id.
Proof.
  refine (inj_countable' (λ s, match s with
    | S_at a => (0, a) | S_lock l => (1, l) | S_elem w => (2, w)
    | S_load t => (3, t) | S_wait t => (4, t) | S_exited t => (5, t) end)
    (λ '(n, a), if decide (n = 0) then S_at a else if decide (n = 1) then S_lock a
      else if decide (n = 2) then S_elem a else if decide (n = 3) then S_load a
      else if decide (n = 4) then S_wait a else S_exited a) _).
  by intros [].
Defined.

(** Where a thread stands in the calls it is in. *)
Inductive frame :=
| F_set_level (old_level : intr_level)         (* last line of thread_yield, thread_sleep *)
| F_iret (level : intr_level)                  (* return from an interrupt *)
| F_sema_down (sema : sema_id) (old_level : intr_level)  (* sema_down, at the loop's test *)
| F_acquired (lock : Z)                        (* lock_acquire, after sema_down *)
| F_released (lock : Z)                        (* lock_release, before sema_up *)
| F_wait_down (waiter lock : Z)                (* cond_wait, after lock_release *)
| F_wait_acquire (lock : Z)                    (* cond_wait, after sema_down *)
| F_broadcast (cond lock : Z)                  (* cond_broadcast, at the loop's test *)
| F_next_tid (t : Z)                           (* allocate_tid, after lock_acquire *)
| F_create (t : Z) (function : thread_func)      (* thread_create, after allocate_tid *)
| F_kernel_thread (function : thread_func)       (* kernel_thread *)
| F_start (idle_started : sema_id)             (* thread_start, after thread_create *)
| F_idle                                       (* idle, at the top of the loop *)
| F_halt                                       (* idle, after thread_block *)
| F_wakeup_time (w : Z)                        (* timer_sleep, after timer_ticks *)
| F_wakeup_write (w : Z)                       (* update_wakeup_call_time, at the store *)
| F_sleep.                                     (* timer_sleep, at thread_sleep *)

(** [struct file_entry], with its address. *)
Record file_entry := mk_fe { fe_addr : Z; fe_fd : Z; fe_file : Z }.

(** [struct thread]; its semaphores are among the kernel's semaphores. *)
Record thread := mk_thread {
  tid : Z; status : thread_status; name : bytes; stack : Z; priority : Z;
  wakeup_time : Z; pagedir : Z; fd_vld : Z; th_parent : Z; list_children : list Z;
  is_exited : bool; exit_status : Z; is_loaded : bool; magic : Z; map_id : Z;
  list_file : list file_entry; frames : list frame }.

Record semaphore := mk_sema { value : Z; waiters : list Z }.

Record kernel := mk_kernel {
  threads : gmap Z thread; running : Z; idle_thread : Z; initial_thread : Z;
  ready_list : list Z; sleep_list : list Z; wakeup_call_time : Z;
  semas : gmap sema_id semaphore; holders : gmap Z Z; conds : gmap Z (list Z);
  intr : intr_level; in_external_intr : bool; yield_on_return : bool;
  ticks : Z; thread_ticks : Z; idle_ticks : Z; user_ticks : Z; kernel_ticks : Z;
  next_tid : Z }.

(** The static locks. *)
Definition tid_lock : Z := 16.
Definition filelock : Z := 48.

(** * Assignments *)
Definition set_status v t := mk_thread (tid t) v (name t) (stack t) (priority t) (wakeup_time t)
  (pagedir t) (fd_vld t) (th_parent t) (list_children t) (is_exited t) (exit_status t) (is_loaded t)
  (magic t) (map_id t) (list_file t) (frames t).
Definition set_priority v t := mk_thread (tid t) (status t) (name t) (stack t) v (wakeup_time t)
  (pagedir t) (fd_vld t) (th_parent t) (list_children t) (is_exited t) (exit_status t) (is_loaded t)
  (magic t) (map_id t) (list_file t) (frames t).
Definition set_wakeup v t := mk_thread (tid t) (status t) (name t) (stack t) (priority t) v
  (pagedir t) (fd_vld t) (th_parent t) (list_children t) (is_exited t) (exit_status t) (is_loaded t)
  (magic t) (map_id t) (list_file t) (frames t).
Definition set_tid v t := mk_thread v (status t) (name t) (stack t) (priority t) (wakeup_time t)
  (pagedir t) (fd_vld t) (th_parent t) (list_children t) (is_exited t) (exit_status t) (is_loaded t)
  (magic t) (map_id t) (list_file t) (frames t).
Definition set_stack v t := mk_thread (tid t) (status t) (name t) v (priority t) (wakeup_time t)
  (pagedir t) (fd_vld t) (th_parent t) (list_children t) (is_exited t) (exit_status t) (is_loaded t)
  (magic t) (map_id t) (list_file t) (frames t).
Definition set_children v t := mk_thread (tid t) (status t) (name t) (stack t) (priority t)
  (wakeup_time t) (pagedir t) (fd_vld t) (th_parent t) v (is_exited t) (exit_status t) (is_loaded t)
  (magic t) (map_id t) (list_file t) (frames t).
Definition set_frames v t := mk_thread (tid t) (status t) (name t) (stack t) (priority t)
  (wakeup_time t) (pagedir t) (fd_vld t) (th_parent t) (list_children t) (is_exited t) (exit_status t)
  (is_loaded t) (magic t) (map_id t) (list_file t) v.

Definition set_threads v k := mk_kernel v (running k) (idle_thread k) (initial_thread k)
  (ready_list k) (sleep_list k) (wakeup_call_time k) (semas k) (holders k) (conds k) (intr k)
  (in_external_intr k) (yield_on_return k) (ticks k) (thread_ticks k) (idle_ticks k) (user_ticks k)
  (kernel_ticks k) (next_tid k).
Definition set_running v k := mk_kernel (threads k) v (idle_thread k) (initial_thread k)
  (ready_list k) (sleep_list k) (wakeup_call_time k) (semas k) (holders k) (conds k) (intr k)
  (in_external_intr k) (yield_on_return k) (ticks k) (thread_ticks k) (idle_ticks k) (user_ticks k)
  (kernel_ticks k) (next_tid k).
Definition set_idle v k := mk_kernel (threads k) (running k) v (initial_thread k)
  (ready_list k) (sleep_list k) (wakeup_call_time k) (semas k) (holders k) (conds k) (intr k)
  (in_external_intr k) (yield_on_return k) (ticks k) (thread_ticks k) (idle_ticks k) (user_ticks k)
  (kernel_ticks k) (next_tid k).
Definition set_initial v k := mk_kernel (threads k) (running k) (idle_thread k) v
  (ready_list k) (sleep_list k) (wakeup_call_time k) (semas k) (holders k) (conds k) (intr k)
  (in_external_intr k) (yield_on_return k) (ticks k) (thread_ticks k) (idle_ticks k) (user_ticks k)
  (kernel_ticks k) (next_tid k).
Definition set_ready v k := mk_kernel (threads k) (running k) (idle_thread k) (initial_thread k)
  v (sleep_list k) (wakeup_call_time k) (semas k) (holders k) (conds k) (intr k)
  (in_external_intr k) (yield_on_return k) (ticks k) (thread_ticks k) (idle_ticks k) (user_ticks k)
  (kernel_ticks k) (next_tid k).
Definition set_sleep v k := mk_kernel (threads k) (running k) (idle_thread k) (initial_thread k)
  (ready_list k) v (wakeup_call_time k) (semas k) (holders k) (conds k) (intr k)
  (in_external_intr k) (yield_on_return k) (ticks k) (thread_ticks k) (idle_ticks k) (user_ticks k)
  (kernel_ticks k) (next_tid k).
Definition set_call_time v k := mk_kernel (threads k) (running k) (idle_thread k) (initial_thread k)
  (ready_list k) (sleep_list k) v (semas k) (holders k) (conds k) (intr k)
  (in_external_intr k) (yield_on_return k) (ticks k) (thread_ticks k) (idle_ticks k) (user_ticks k)
  (kernel_ticks k) (next_tid k).
Definition set_semas v k := mk_kernel (threads k) (running k) (idle_thread k) (initial_thread k)
  (ready_list k) (sleep_list k) (wakeup_call_time k) v (holders k) (conds k) (intr k)
  (in_external_intr k) (yield_on_return k) (ticks k) (thread_ticks k) (idle_ticks k) (user_ticks k)
  (kernel_ticks k) (next_tid k).
Definition set_holders v k := mk_kernel (threads k) (running k) (idle_thread k) (initial_thread k)
  (ready_list k) (sleep_list k) (wakeup_call_time k) (semas k) v (conds k) (intr k)
  (in_external_intr k) (yield_on_return k) (ticks k) (thread_ticks k) (idle_ticks k) (user_ticks k)
  (kernel_ticks k) (next_tid k).
Definition set_conds v k := mk_kernel (threads k) (running k) (idle_thread k) (initial_thread k)
  (ready_list k) (sleep_list k) (wakeup_call_time k) (semas k) (holders k) v (intr k)
  (in_external_intr k) (yield_on_return k) (ticks k) (thread_ticks k) (idle_ticks k) (user_ticks k)
  (kernel_ticks k) (next_tid k).
Definition set_intr v k := mk_kernel (threads k) (running k) (idle_thread k) (initial_thread k)
  (ready_list k) (sleep_list k) (wakeup_call_time k) (semas k) (holders k) (conds k) v
  (in_external_intr k) (yield_on_return k) (ticks k) (thread_ticks k) (idle_ticks k) (user_ticks k)
  (kernel_ticks k) (next_tid k).
(** [in_external_intr] and [yield_on_return]. *)
Definition set_external v y k := mk_kernel (threads k) (running k) (idle_thread k) (initial_thread k)
  (ready_list k) (sleep_list k) (wakeup_call_time k) (semas k) (holders k) (conds k) (intr k)
  v y (ticks k) (thread_ticks k) (idle_ticks k) (user_ticks k) (kernel_ticks k) (next_tid k).
Definition set_ticks v k := mk_kernel (threads k) (running k) (idle_thread k) (initial_thread k)
  (ready_list k) (sleep_list k) (wakeup_call_time k) (semas k) (holders k) (conds k) (intr k)
  (in_external_intr k) (yield_on_return k) v (thread_ticks k) (idle_ticks k) (user_ticks k)
  (kernel_ticks k) (next_tid k).
Definition set_thread_ticks v k := mk_kernel (threads k) (running k) (idle_thread k) (initial_thread k)
  (ready_list k) (sleep_list k) (wakeup_call_time k) (semas k) (holders k) (conds k) (intr k)
  (in_external_intr k) (yield_on_return k) (ticks k) v (idle_ticks k) (user_ticks k)
  (kernel_ticks k) (next_tid k).
Definition set_stats i u n k := mk_kernel (threads k) (running k) (idle_thread k) (initial_thread k)
  (ready_list k) (sleep_list k) (wakeup_call_time k) (semas k) (holders k) (conds k) (intr k)
  (in_external_intr k) (yield_on_return k) (ticks k) (thread_ticks k) i u n (next_tid k).
Definition set_next_tid v k := mk_kernel (threads k) (running k) (idle_thread k) (initial_thread k)
  (ready_list k) (sleep_list k) (wakeup_call_time k) (semas k) (holders k) (conds k) (intr k)
  (in_external_intr k) (yield_on_return k) (ticks k) (thread_ticks k) (idle_ticks k) (user_ticks k)
  (kernel_ticks k) v.

(** [t->field] of a thread, and an assignment to one. *)
Definition load_thread (t : Z) : M kernel thread := k ← get; deref (threads k !! t).
Definition upd_thread (t : Z) (f : thread → thread) : M kernel unit :=
  x ← load_thread t; modify (λ k, set_threads (<[t := f x]> (threads k)) k).
Definition load_sema (s : sema_id) : M kernel semaphore := k ← get; deref (semas k !! s).
Definition store_sema (s : sema_id) (x : semaphore) : M kernel unit :=
  modify (λ k, set_semas (<[s := x]> (semas k)) k).

(** A signed 64-bit or 32-bit result that does not overflow. *)
Definition int64 (z : Z) : M kernel Z :=
  if (- 2 ^ 63 <=? z) && (z <? 2 ^ 63) then mret z else undef.
Definition int32 (z : Z) : M kernel Z :=
  if (- 2 ^ 31 <=? z) && (z <? 2 ^ 31) then mret z else undef.

(** * Interrupts *)
Definition intr_get_level : M kernel intr_level := gets intr.
Definition intr_context : M kernel bool := gets in_external_intr.

Definition intr_enable : M kernel intr_level :=
  old_level ← intr_get_level;
  c ← intr_context; ASSERT (negb c);;
  modify (set_intr INTR_ON);;
  mret old_level.

Definition intr_disable : M kernel intr_level :=
  old_level ← intr_get_level;
  modify (set_intr INTR_OFF);;
  mret old_level.

Definition intr_set_level (level : intr_level) : M kernel intr_level :=
  if decide (level = INTR_ON) then intr_enable else intr_disable.

Definition intr_yield_on_return : M kernel unit :=
  c ← intr_context; ASSERT c;;
  modify (λ k, set_external (in_external_intr k) true k).

(** * Threads *)
Definition running_thread : M kernel Z := gets running.

Definition is_thread (t : Z) : M kernel bool :=
  if t =? NULL then mret false else
  x ← load_thread t; mret (magic x =? THREAD_MAGIC).

Definition thread_current : M kernel Z :=
  t ← running_thread;
  b ← is_thread t; ASSERT b;;
  x ← load_thread t; ASSERT (bool_decide (status x = THREAD_RUNNING));;
  mret t.

(** The running thread is at [f] from now on when it is resumed. *)
Definition push_frame (f : frame) : M kernel unit :=
  t ← running_thread; upd_thread t (λ x, set_frames (f :: frames x) x).

(** [sema != NULL]; a member of a structure is not at the null address. *)
Definition sema_nonnull (sema : sema_id) : bool :=
  match sema with S_at a => negb (a =? NULL) | _ => true end.

Definition sema_init (sema : sema_id) (v : Z) : M kernel unit :=
  ASSERT (sema_nonnull sema);;
  store_sema sema (mk_sema v []).

Definition lock_init (lock : Z) : M kernel unit :=
  ASSERT (negb (lock =? NULL));;
  modify (λ k, set_holders (<[lock := NULL]> (holders k)) k);;
  sema_init (S_lock lock) 1.

(** The orders of the two queues. *)
Definition compare_priority (k : kernel) (a b : Z) : bool :=
  match threads k !! a, threads k !! b with
  | Some x, Some y => priority y <? priority x
  | _, _ => false
  end.

Definition compare_wakeup_time (k : kernel) (a b : Z) : bool :=
  match threads k !! a, threads k !! b with
  | Some x, Some y => wakeup_time x <? wakeup_time y
  | _, _ => false
  end.

(** [list_insert_ordered] into [ready_list] and [sleep_list]. *)
Definition ready_insert (t : Z) : M kernel unit :=
  k ← get;
  put (set_ready (KList.Correct.insert_seq (compare_priority k) t (ready_list k)) k).
Definition sleep_insert (t : Z) : M kernel unit :=
  k ← get;
  put (set_sleep (KList.Correct.insert_seq (compare_wakeup_time k) t (sleep_list k)) k).

(** [memset], then the fields of a new thread; the page is the thread's from
    here on. *)
Definition init_thread (t : Z) (nm : bytes) (prio : Z) : M kernel unit :=
  ASSERT (negb (t =? NULL));;
  ASSERT ((PRI_MIN <=? prio) && (prio <=? PRI_MAX));;
  parent ← running_thread;
  modify (λ k, set_threads (<[t := mk_thread 0 THREAD_BLOCKED (take 15 nm) (t + PGSIZE) prio 0
    NULL 3 parent [] false 0 false THREAD_MAGIC 0 [] []]> (threads k)) k);;
  sema_init (S_load t) 0;;
  sema_init (S_wait t) 0;;
  sema_init (S_exited t) 0.

Definition alloc_frame (t size : Z) : M kernel Z :=
  b ← is_thread t; ASSERT b;;
  ASSERT (size mod 4 =? 0);;
  upd_thread t (λ x, set_stack (stack x - size) x);;
  x ← load_thread t; mret (stack x).

Definition next_thread_to_run : M kernel Z :=
  k ← get;
  match ready_list k with
  | [] => mret (idle_thread k)
  | t :: ts => put (set_ready ts k);; mret t
  end.

(** The page of a dead thread is given back. *)
Definition palloc_free_page (t : Z) : M kernel unit :=
  modify (λ k, set_threads (delete t (threads k)) k).

Definition schedule_tail (prev : Z) : M kernel unit :=
  curr ← running_thread;
  l ← intr_get_level; ASSERT (bool_decide (l = INTR_OFF));;
  upd_thread curr (set_status THREAD_RUNNING);;
  modify (set_thread_ticks 0);;
  if prev =? NULL then mret tt else
  p ← load_thread prev;
  i ← gets initial_thread;
  if bool_decide (status p = THREAD_DYING) && negb (prev =? i) then
    ASSERT (negb (prev =? curr));;
    palloc_free_page prev
  else mret tt.

(** The processor goes on with [next]'s stack. *)
Definition switch_threads (curr next : Z) : M kernel Z :=
  modify (set_running next);; mret curr.

Definition schedule : M kernel unit :=
  curr ← running_thread;
  next ← next_thread_to_run;
  l ← intr_get_level; ASSERT (bool_decide (l = INTR_OFF));;
  x ← load_thread curr; ASSERT (bool_decide (status x ≠ THREAD_RUNNING));;
  b ← is_thread next; ASSERT b;;
  prev ← (if curr =? next then mret NULL else switch_threads curr next);
  schedule_tail prev.

Definition thread_block : M kernel unit :=
  c ← intr_context; ASSERT (negb c);;
  l ← intr_get_level; ASSERT (bool_decide (l = INTR_OFF));;
  t ← thread_current;
  upd_thread t (set_status THREAD_BLOCKED);;
  schedule.

Definition thread_unblock (t : Z) : M kernel unit :=
  b ← is_thread t; ASSERT b;;
  old_level ← intr_disable;
  x ← load_thread t; ASSERT (bool_decide (status x = THREAD_BLOCKED));;
  ready_insert t;;
  upd_thread t (set_status THREAD_READY);;
  intr_set_level old_level;;
  mret tt.

Definition thread_yield : M kernel unit :=
  curr ← thread_current;
  c ← intr_context; ASSERT (negb c);;
  old_level ← intr_disable;
  i ← gets idle_thread;
  (if curr =? i then mret tt else ready_insert curr);;
  upd_thread curr (set_status THREAD_READY);;
  push_frame (F_set_level old_level);;
  schedule.

(** After [process_exit], which belongs to the process code. *)
Definition thread_exit : M kernel unit :=
  c ← intr_context; ASSERT (negb c);;
  intr_disable;;
  t ← thread_current;
  upd_thread t (set_status THREAD_DYING);;
  schedule.

Definition thread_name : M kernel bytes := t ← thread_current; x ← load_thread t; mret (name x).
Definition thread_tid : M kernel Z := t ← thread_current; x ← load_thread t; mret (tid x).

Definition thread_set_priority (new_priority : Z) : M kernel unit :=
  t ← thread_current; upd_thread t (set_priority new_priority).
Definition thread_get_priority : M kernel Z :=
  t ← thread_current; x ← load_thread t; mret (priority x).

(** The hooks of the feedback-queue scheduler, which the kernel does not have. *)
Definition thread_set_nice (nice : Z) : M kernel unit := mret tt.
Definition thread_get_nice : M kernel Z := mret 0.
Definition thread_get_load_avg : M kernel Z := mret 0.
Definition thread_get_recent_cpu : M kernel Z := mret 0.

(** * Semaphores *)

(** [sema_down] from the test of its loop on. *)
Definition sema_down_loop (sema : sema_id) (old_level : intr_level) : M kernel unit :=
  s ← load_sema sema;
  if value s =? 0 then
    t ← thread_current;
    store_sema sema (mk_sema (value s) (waiters s ++ [t]));;
    push_frame (F_sema_down sema old_level);;
    thread_block
  else
    store_sema sema (mk_sema (value s - 1) (waiters s));;
    intr_set_level old_level;;
    mret tt.

Definition sema_down (sema : sema_id) : M kernel unit :=
  ASSERT (sema_nonnull sema);;
  c ← intr_context; ASSERT (negb c);;
  old_level ← intr_disable;
  sema_down_loop sema old_level.

Definition sema_try_down (sema : sema_id) : M kernel bool :=
  ASSERT (sema_nonnull sema);;
  old_level ← intr_disable;
  s ← load_sema sema;
  success ← (if 0 <? value s
             then store_sema sema (mk_sema (value s - 1) (waiters s));; mret true
             else mret false);
  intr_set_level old_level;;
  mret success.

Definition sema_up (sema : sema_id) : M kernel unit :=
  ASSERT (sema_nonnull sema);;
  old_level ← intr_disable;
  s ← load_sema sema;
  (match waiters s with
   | [] => mret tt
   | t :: ts => store_sema sema (mk_sema (value s) ts);; thread_unblock t
   end);;
  s ← load_sema sema;
  store_sema sema (mk_sema (u32 (value s + 1)) (waiters s));;
  intr_set_level old_level;;
  mret tt.

(** * Locks *)
Definition load_holder (lock : Z) : M kernel Z := k ← get; deref (holders k !! lock).
Definition store_holder (lock t : Z) : M kernel unit :=
  load_holder lock;; modify (λ k, set_holders (<[lock := t]> (holders k)) k).

Definition lock_held_by_current_thread (lock : Z) : M kernel bool :=
  ASSERT (negb (lock =? NULL));;
  h ← load_holder lock; t ← thread_current; mret (h =? t).

Definition lock_acquire (lock : Z) : M kernel unit :=
  ASSERT (negb (lock =? NULL));;
  c ← intr_context; ASSERT (negb c);;
  b ← lock_held_by_current_thread lock; ASSERT (negb b);;
  push_frame (F_acquired lock);;
  sema_down (S_lock lock).

Definition lock_acquired (lock : Z) : M kernel unit :=
  t ← thread_current; store_holder lock t.

Definition lock_try_acquire (lock : Z) : M kernel bool :=
  ASSERT (negb (lock =? NULL));;
  b ← lock_held_by_current_thread lock; ASSERT (negb b);;
  success ← sema_try_down (S_lock lock);
  (if success : bool then push_frame (F_acquired lock) else mret tt);;
  mret success.

Definition lock_release (lock : Z) : M kernel unit :=
  ASSERT (negb (lock =? NULL));;
  b ← lock_held_by_current_thread lock; ASSERT b;;
  store_holder lock NULL;;
  push_frame (F_released lock).

(** * Condition variables *)
Definition load_cond (cond : Z) : M kernel (list Z) := k ← get; deref (conds k !! cond).
Definition store_cond (cond : Z) (ws : list Z) : M kernel unit :=
  modify (λ k, set_conds (<[cond := ws]> (conds k)) k).

Definition cond_init (cond : Z) : M kernel unit :=
  ASSERT (negb (cond =? NULL));; store_cond cond [].

(** [waiter] is the address of the local variable. *)
Definition cond_wait (waiter cond lock : Z) : M kernel unit :=
  ASSERT (negb (cond =? NULL));;
  ASSERT (negb (lock =? NULL));;
  c ← intr_context; ASSERT (negb c);;
  b ← lock_held_by_current_thread lock; ASSERT b;;
  sema_init (S_elem waiter) 0;;
  ws ← load_cond cond; store_cond cond (ws ++ [waiter]);;
  push_frame (F_wait_down waiter lock);;
  lock_release lock.

Definition cond_signal (cond lock : Z) : M kernel unit :=
  ASSERT (negb (cond =? NULL));;
  ASSERT (negb (lock =? NULL));;
  c ← intr_context; ASSERT (negb c);;
  b ← lock_held_by_current_thread lock; ASSERT b;;
  ws ← load_cond cond;
  match ws with
  | [] => mret tt
  | w :: ws => store_cond cond ws;; sema_up (S_elem w)
  end.

Definition broadcast_loop (cond lock : Z) : M kernel unit :=
  ws ← load_cond cond;
  match ws with
  | [] => mret tt
  | _ => push_frame (F_broadcast cond lock);; cond_signal cond lock
  end.

Definition cond_broadcast (cond lock : Z) : M kernel unit :=
  ASSERT (negb (cond =? NULL));;
  ASSERT (negb (lock =? NULL));;
  broadcast_loop cond lock.

(** * Creating threads *)

(** Up to the lock; the identifier goes into the new thread [t]. *)
Definition allocate_tid (t : Z) : M kernel unit :=
  push_frame (F_next_tid t);;
  lock_acquire tid_lock.

Definition allocate_tid_locked (t : Z) : M kernel unit :=
  n ← gets next_tid;
  n' ← int32 (n + 1);
  modify (set_next_tid n');;
  upd_thread t (set_tid n);;
  lock_release tid_lock.

(** [page] is what [palloc_get_page] returns. *)
Definition thread_create (nm : bytes) (prio : Z) (function : thread_func) (page : Z) : M kernel Z :=
  if page =? NULL then mret TID_ERROR else
  init_thread page nm prio;;
  push_frame (F_create page function);;
  allocate_tid page;;
  mret page.

(** The rest of it: the three stack frames and the run queue.  The current
    directory is the file system's. *)
Definition thread_create_started (t : Z) (function : thread_func) : M kernel Z :=
  p ← thread_current;
  upd_thread p (λ x, set_children (list_children x ++ [t]) x);;
  alloc_frame t 12;;
  alloc_frame t 4;;
  alloc_frame t 28;;
  upd_thread t (set_frames [F_kernel_thread function]);;
  thread_unblock t;;
  x ← load_thread t; mret (tid x).

(** [idle] up to its loop, and the loop's two parts. *)
Definition idle (idle_started : sema_id) : M kernel unit :=
  t ← thread_current;
  modify (set_idle t);;
  push_frame F_idle;;
  sema_up idle_started.
Definition idle_block : M kernel unit :=
  intr_disable;; push_frame F_halt;; thread_block.
Definition idle_halt : M kernel unit :=
  modify (set_intr INTR_ON);; push_frame F_idle.

Definition kernel_thread (function : thread_func) : M kernel unit :=
  intr_enable;;
  match function with
  | FUNC_idle idle_started => idle (S_at idle_started)
  | FUNC_other _ _ => mret tt
  end.

(** * Sleeping *)
Definition get_wakeup_call_time : M kernel Z := gets wakeup_call_time.

Definition update_wakeup_call_time (w : Z) : M kernel unit :=
  c ← gets wakeup_call_time;
  if w <? c then modify (set_call_time w) else mret tt.

Definition thread_set_wakeup_time (w : Z) : M kernel unit :=
  t ← thread_current; upd_thread t (set_wakeup w).

Definition thread_sleep : M kernel unit :=
  curr ← thread_current;
  c ← intr_context; ASSERT (negb c);;
  old_level ← intr_disable;
  sleep_insert curr;;
  push_frame (F_set_level old_level);;
  thread_block.

(** [list_remove]. *)
Definition sleep_remove (t : Z) : M kernel unit :=
  modify (λ k, set_sleep (filter (.≠ t) (sleep_list k)) k).

(** The loop of [thread_wakeup], with the rest of the list from [e] on. *)
Fixpoint wakeup_loop (es : list Z) (now : Z) : M kernel unit :=
  match es with
  | [] => mret tt
  | e :: es =>
      x ← load_thread e;
      if wakeup_time x <=? now then
        sleep_remove e;; thread_unblock e;; wakeup_loop es now
      else update_wakeup_call_time (wakeup_time x)
  end.

Definition thread_wakeup (now : Z) : M kernel unit :=
  es ← gets sleep_list;
  wakeup_loop es now;;
  l ← gets sleep_list;
  match l with [] => update_wakeup_call_time INT64_MAX | _ => mret tt end.

Definition timer_ticks : M kernel Z :=
  old_level ← intr_disable; t ← gets ticks; intr_set_level old_level;; mret t.

Definition timer_elapsed (since : Z) : M kernel Z := t ← timer_ticks; int64 (t - since).

Definition timer_sleep (n : Z) : M kernel unit :=
  start ← timer_ticks;
  l ← intr_get_level; ASSERT (bool_decide (l = INTR_ON));;
  w ← int64 (n + start);
  push_frame (F_wakeup_time w).

(** Sleeping for [num / denom] seconds; a time below a tick is a busy wait,
    which changes nothing. *)
Definition TIMER_FREQ : Z := 100.
Definition busy_wait (loops : Z) : M kernel unit := mret tt.
Definition real_time_sleep (loops_per_tick num denom : Z) : M kernel unit :=
  n ← int64 (num * TIMER_FREQ);
  let t := Z.quot n denom in
  l ← intr_get_level; ASSERT (bool_decide (l = INTR_ON));;
  if 0 <? t then timer_sleep t else
  ASSERT (Z.rem denom 1000 =? 0);;
  m ← int64 (loops_per_tick * num);
  m ← int64 (Z.quot m 1000 * TIMER_FREQ);
  busy_wait (Z.quot m (Z.quot denom 1000)).
Definition timer_msleep (loops_per_tick ms : Z) : M kernel unit := real_time_sleep loops_per_tick ms 1000.
Definition timer_usleep (loops_per_tick us : Z) : M kernel unit :=
  real_time_sleep loops_per_tick us (1000 * 1000).
Definition timer_nsleep (loops_per_tick ns : Z) : M kernel unit :=
  real_time_sleep loops_per_tick ns (1000 * 1000 * 1000).

(** [thread_set_wakeup_time] and the test of [update_wakeup_call_time], whose
    store comes later if a timer interrupt falls between the two. *)
Definition timer_sleep_update (w : Z) : M kernel unit :=
  thread_set_wakeup_time w;;
  push_frame F_sleep;;
  c ← gets wakeup_call_time;
  if w <? c then push_frame (F_wakeup_write w) else mret tt.

Definition thread_tick : M kernel unit :=
  t ← thread_current;
  k ← get;
  x ← load_thread t;
  (if t =? idle_thread k then modify (set_stats (idle_ticks k + 1) (user_ticks k) (kernel_ticks k))
   else if negb (pagedir x =? NULL)
   then modify (set_stats (idle_ticks k) (user_ticks k + 1) (kernel_ticks k))
   else modify (set_stats (idle_ticks k) (user_ticks k) (kernel_ticks k + 1)));;
  let n := u32 (thread_ticks k + 1) in
  modify (set_thread_ticks n);;
  if TIME_SLICE <=? n then intr_yield_on_return else mret tt.

Definition timer_interrupt : M kernel unit :=
  t ← gets ticks;
  t' ← int64 (t + 1);
  modify (set_ticks t');;
  thread_tick;;
  c ← get_wakeup_call_time;
  if c <=? t' then thread_wakeup t' else mret tt.

(** [intr_handler] for the timer's vector. *)
Definition intr_handler : M kernel unit :=
  l ← intr_get_level; ASSERT (bool_decide (l = INTR_OFF));;
  c ← intr_context; ASSERT (negb c);;
  modify (set_external true false);;
  timer_interrupt;;
  l ← intr_get_level; ASSERT (bool_decide (l = INTR_OFF));;
  c ← intr_context; ASSERT c;;
  y ← gets yield_on_return;
  modify (set_external false y);;
  if y : bool then thread_yield else mret tt.

(** The processor takes a timer interrupt. *)
Definition interrupt : M kernel unit :=
  push_frame (F_iret INTR_ON);;
  modify (set_intr INTR_OFF);;
  intr_handler.

(** * Open files of a thread *)
Definition file_entry_find_by_fd (fd : Z) : M kernel Z :=
  t ← thread_current; x ← load_thread t;
  mret (match list_find (λ fe, fe_fd fe = fd) (list_file x) with
        | Some (_, fe) => fe_addr fe | None => NULL end).

Definition file_find_by_fd (fd : Z) : M kernel Z :=
  t ← thread_current; x ← load_thread t;
  mret (match list_find (λ fe, fe_fd fe = fd) (list_file x) with
        | Some (_, fe) => fe_file fe | None => NULL end).

Definition filelock_init : M kernel unit := lock_init filelock.
Definition filelock_acquire : M kernel unit := lock_acquire filelock.
Definition filelock_release : M kernel unit := lock_release filelock.

(** * Running threads *)

(** The running thread goes on from a frame. *)
Definition run_frame (f : frame) : M kernel unit :=
  match f with
  | F_set_level old_level => intr_set_level old_level;; mret tt
  | F_iret level => modify (set_intr level)
  | F_sema_down sema old_level => sema_down_loop sema old_level
  | F_acquired lock => lock_acquired lock
  | F_released lock => sema_up (S_lock lock)
  | F_wait_down waiter lock => push_frame (F_wait_acquire lock);; sema_down (S_elem waiter)
  | F_wait_acquire lock => lock_acquire lock
  | F_broadcast cond lock => broadcast_loop cond lock
  | F_next_tid t => allocate_tid_locked t
  | F_create t function => thread_create_started t function;; mret tt
  | F_kernel_thread function => kernel_thread function
  | F_start idle_started => intr_enable;; sema_down idle_started
  | F_idle => idle_block
  | F_halt => idle_halt
  | F_wakeup_time w => timer_sleep_update w
  | F_wakeup_write w => modify (set_call_time w)
  | F_sleep => thread_sleep
  end.

Definition resume : M kernel unit :=
  t ← running_thread;
  x ← load_thread t;
  match frames x with
  | [] => undef
  | f :: fs => upd_thread t (set_frames fs);; run_frame f
  end.

(** [thread_init] and [thread_start], each up to its first switch point. *)
Definition thread_init : M kernel unit :=
  l ← intr_get_level; ASSERT (bool_decide (l = INTR_OFF));;
  lock_init tid_lock;;
  modify (λ k, set_ready [] (set_sleep [] k));;
  t ← running_thread;
  modify (set_initial t);;
  init_thread t [109; 97; 105; 110] PRI_DEFAULT;;
  upd_thread t (set_status THREAD_RUNNING);;
  allocate_tid t.

Definition thread_start (idle_started page : Z) : M kernel unit :=
  sema_init (S_at idle_started) 0;;
  push_frame (F_start (S_at idle_started));;
  thread_create [105; 100; 108; 101] PRI_MIN (FUNC_idle idle_started) page;;
  mret tt.
