(* ===== verification/SchedInv.v ===== *)
(** The scheduler's invariant: where every thread is, and that each step of
    [Threads.v] keeps it. *)
From Stdlib Require Import ZArith Lia.
From stdpp Require Import base tactics option list gmap sorting relations.
From S2P Require Import Prelude Threads.
From S2P Require KList.

Open Scope Z_scope.

(** * The steps of the system *)
Inductive call :=
| C_sema_init (sema : sema_id) (v : Z) | C_sema_down (sema : sema_id)
| C_sema_try_down (sema : sema_id) | C_sema_up (sema : sema_id)
| C_lock_init (lock : Z) | C_lock_acquire (lock : Z) | C_lock_try_acquire (lock : Z)
| C_lock_release (lock : Z)
| C_cond_init (cond : Z) | C_cond_wait (waiter cond lock : Z) | C_cond_signal (cond lock : Z)
| C_cond_broadcast (cond lock : Z)
| C_thread_create (nm : bytes) (prio : Z) (function : thread_func) (page : Z)
| C_thread_yield | C_thread_exit | C_thread_set_priority (p : Z) | C_timer_sleep (n : Z).

Definition run_call (c : call) : M kernel unit :=
  match c with
  | C_sema_init sema v => sema_init sema v
  | C_sema_down sema => sema_down sema
  | C_sema_try_down sema => sema_try_down sema;; mret tt
  | C_sema_up sema => sema_up sema
  | C_lock_init lock => lock_init lock
  | C_lock_acquire lock => lock_acquire lock
  | C_lock_try_acquire lock => lock_try_acquire lock;; mret tt
  | C_lock_release lock => lock_release lock
  | C_cond_init cond => cond_init cond
  | C_cond_wait waiter cond lock => cond_wait waiter cond lock
  | C_cond_signal cond lock => cond_signal cond lock
  | C_cond_broadcast cond lock => cond_broadcast cond lock
  | C_thread_create nm prio function page => thread_create nm prio function page;; mret tt
  | C_thread_yield => thread_yield
  | C_thread_exit => thread_exit
  | C_thread_set_priority p => thread_set_priority p
  | C_timer_sleep n => timer_sleep n
  end.

(** No thread waits at [s]: memory that is about to hold a new semaphore. *)
Definition unwaited (k : kernel) (s : sema_id) : Prop :=
  ∀ x, semas k !! s = Some x → waiters x = [].

(** The semaphore of a lock is used through the lock only. *)
Definition raw (s : sema_id) : Prop := match s with S_lock _ => False | _ => True end.
Definition other_func (f : thread_func) : Prop := match f with FUNC_idle _ => False | _ => True end.

(** What the callers owe: new semaphores and locks are put where none is in
    use, a new thread gets a page that no thread has, and nobody else runs
    [idle]. *)
Definition usable (k : kernel) (c : call) : Prop :=
  match c with
  | C_sema_init sema v => raw sema ∧ is_u32 v ∧ unwaited k sema
  | C_sema_down sema | C_sema_try_down sema | C_sema_up sema => raw sema
  | C_lock_init lock => holders k !! lock = None ∧ unwaited k (S_lock lock)
  | C_cond_wait waiter _ _ => unwaited k (S_elem waiter)
  | C_thread_create _ _ function page => other_func function ∧
      (page = NULL ∨ threads k !! page = None ∧ unwaited k (S_load page) ∧
        unwaited k (S_wait page) ∧ unwaited k (S_exited page))
  | _ => True
  end.

Definition frames_of (k : kernel) (x : Z) : list frame := from_option frames [] (threads k !! x).

Inductive step : kernel → kernel → Prop :=
| step_call c k k' :
    running k ≠ idle_thread k → frames_of k (running k) = [] → usable k c → run_call c k = Ok (tt, k') → step k k'
| step_resume k k' : resume k = Ok (tt, k') → step k k'
| step_interrupt k k' : intr k = INTR_ON → interrupt k = Ok (tt, k') → step k k'.

(** * The invariant *)

(** A place where a thread's [elem] can be linked. *)
Inductive place := InReady | InSleep | InSema (s : sema_id).
#[global] Instance place_eq_dec : EqDecision place.
Proof. solve_decision. Defined.

Definition sema_waiters (k : kernel) (s : sema_id) : list Z := from_option waiters [] (semas k !! s).

Definition members (k : kernel) (p : place) : list Z :=
  match p with
  | InReady => ready_list k
  | InSleep => sleep_list k
  | InSema s => sema_waiters k s
  end.

Definition place_status (p : place) : thread_status :=
  match p with InReady => THREAD_READY | _ => THREAD_BLOCKED end.

(** What a thread in a queue does next. *)
Definition place_frames (p : place) (fs : list frame) : Prop :=
  match p with
  | InReady => True
  | InSleep => ∃ l fs', fs = F_set_level l :: fs'
  | InSema s => ∃ l fs', fs = F_sema_down s l :: fs'
  end.

(** [y] is in the middle of creating [x]. *)
Definition creates (fs : list frame) (x : Z) : Prop :=
  ∃ function, last fs = Some (F_create x function).
Definition creating (k : kernel) (y x : Z) : Prop := creates (frames_of k y) x.

(** The frames of the idle thread, and those of the others. *)
Definition plain_frame (f : frame) : Prop :=
  match f with
  | F_kernel_thread (FUNC_idle _) | F_create _ (FUNC_idle _) | F_idle | F_halt | F_start _ => False
  | _ => True
  end.

Definition idle_frame (f : frame) : Prop :=
  match f with F_set_level _ | F_iret _ | F_idle | F_halt => True | _ => False end.

Definition frame_ok (i x : Z) (f : frame) : Prop :=
  if decide (x = i) then idle_frame f else plain_frame f.
Definition not_create (f : frame) : Prop := match f with F_create _ _ => False | _ => True end.

Definition top_calm (fs : list frame) : Prop :=
  match fs with F_sema_down _ _ :: _ => False | _ => True end.

(** [sema_down] of a lock's semaphore is called by [lock_acquire]. *)
Definition called_by (f : frame) (fs : list frame) : Prop :=
  match f with F_sema_down (S_lock l) _ => head fs = Some (F_acquired l) | _ => True end.

(** A thread creates a thread from its outermost frame only, and is in
    [sema_down] in its innermost frame only. *)
Fixpoint frames_ok (i x : Z) (fs : list frame) : Prop :=
  match fs with
  | [] => True
  | f :: fs' => frame_ok i x f ∧ (fs' = [] ∨ not_create f) ∧ top_calm fs' ∧ called_by f fs' ∧
      frames_ok i x fs'
  end.

Definition located (r loose : option Z) (k : kernel) (x : Z) (t : thread) : Prop :=
  match status t with
  | THREAD_RUNNING => r = Some x
  | THREAD_READY => x = idle_thread k ∨ x ∈ ready_list k
  | THREAD_BLOCKED =>
      x = idle_thread k ∧ (∃ fs, frames t = F_halt :: fs) ∨ loose = Some x ∨
      x ∈ sleep_list k ∨ (∃ s, x ∈ sema_waiters k s) ∨ (∃ y, creating k y x)
  | THREAD_DYING => x ≠ idle_thread k ∧ frames t = []
  end.

(** [r] is the thread whose status is running, if there is one; [loose] is a
    blocked thread that has been taken out of its queue. *)
Record inv (r loose : option Z) (k : kernel) : Prop := {
  inv_thread : ∀ x t, threads k !! x = Some t →
    magic t = THREAD_MAGIC ∧ x ≠ NULL ∧ frames_ok (idle_thread k) x (frames t) ∧ located r loose k x t;
  inv_member : ∀ p x, x ∈ members k p → x ≠ idle_thread k ∧ loose ≠ Some x ∧
    ∃ t, threads k !! x = Some t ∧ status t = place_status p ∧ place_frames p (frames t);
  inv_nodup : ∀ p, NoDup (members k p);
  inv_once : ∀ p q x, x ∈ members k p → x ∈ members k q → p = q;
  inv_creating : ∀ y x, creating k y x → x ≠ idle_thread k ∧ loose ≠ Some x ∧
    (∀ p, x ∉ members k p) ∧
    ∃ t, threads k !! x = Some t ∧ status t = THREAD_BLOCKED ∧ th_parent t = y ∧ frames t = [];
  inv_loose : ∀ x, loose = Some x → x ≠ idle_thread k ∧
    ∃ t, threads k !! x = Some t ∧ status t = THREAD_BLOCKED;
  inv_running : ∀ x, r = Some x → x = running k ∧
    ∃ t, threads k !! x = Some t ∧ status t = THREAD_RUNNING;
  inv_idle : is_Some (threads k !! idle_thread k);
  inv_ready_sorted : Sorted (KList.Correct.ord (compare_priority k)) (ready_list k);
  inv_sleep_sorted : Sorted (KList.Correct.ord (compare_wakeup_time k)) (sleep_list k) }.

(** The invariant between steps. *)
Abbreviation sched_ok k := (inv (Some (running k)) None k).

(** The part of the state the invariant is about. *)
Definition same_core (k k' : kernel) : Prop :=
  threads k' = threads k ∧ running k' = running k ∧ idle_thread k' = idle_thread k ∧
  ready_list k' = ready_list k ∧ sleep_list k' = sleep_list k ∧ semas k' = semas k.

Lemma inv_core r L k k' : same_core k k' → inv r L k → inv r L k'.
Proof.
  destruct k, k'. unfold same_core. simpl.
  intros (-> & -> & -> & -> & -> & ->) []. by constructor.
Qed.

Lemma located_ext r L k k' x t :
  idle_thread k' = idle_thread k → (∀ p, members k' p = members k p) →
  (∀ y z, creating k' y z ↔ creating k y z) → located r L k x t → located r L k' x t.
Proof.
  intros Ei Hmem Hcr. pose proof (Hmem InReady) as Hr. pose proof (Hmem InSleep) as Hs. simpl in *.
  unfold located. rewrite Ei, Hr, Hs. destruct (status t); try done.
  intros [?|[?|[?|[[s Hw]|[y ?]]]]]; [naive_solver..| |].
  - do 3 right; left. exists s. change (x ∈ members k' (InSema s)). by rewrite Hmem.
  - do 4 right. exists y. by apply Hcr.
Qed.

(** * Moving one thread *)

Lemma Sorted_agree (R R' : Z → Z → Prop) (l : list Z) :
  (∀ a b, a ∈ l → b ∈ l → R a b → R' a b) → Sorted R l → Sorted R' l.
Proof.
  intros Hag Hs. induction Hs as [|a l Hs IH Hd]; constructor.
  - apply IH. intros x y ??. apply Hag; set_solver.
  - inversion Hd; constructor. apply Hag; [set_solver..|done].
Qed.

(** The keys of the queues' orders. *)
Definition same_keys (k k' : kernel) (x : Z) : Prop :=
  priority <$> threads k' !! x = priority <$> threads k !! x ∧
  wakeup_time <$> threads k' !! x = wakeup_time <$> threads k !! x.

Lemma compare_agree k k' a b :
  same_keys k k' a → same_keys k k' b →
  compare_priority k' a b = compare_priority k a b ∧
  compare_wakeup_time k' a b = compare_wakeup_time k a b.
Proof.
  unfold same_keys, compare_priority, compare_wakeup_time. intros [] [].
  destruct (threads k' !! a), (threads k !! a), (threads k' !! b), (threads k !! b);
    simplify_eq/=; split; congruence.
Qed.

Lemma sorted_keys k k' l :
  (∀ x, x ∈ l → same_keys k k' x) →
  (Sorted (KList.Correct.ord (compare_priority k)) l →
   Sorted (KList.Correct.ord (compare_priority k')) l) ∧
  (Sorted (KList.Correct.ord (compare_wakeup_time k)) l →
   Sorted (KList.Correct.ord (compare_wakeup_time k')) l).
Proof.
  intros Hk. split; apply Sorted_agree; intros a b Ha Hb; unfold KList.Correct.ord;
    destruct (compare_agree k k' b a); auto; congruence.
Qed.

Lemma frames_of_insert k k' x t' y :
  threads k' = <[x := t']> (threads k) →
  frames_of k' y = if decide (y = x) then frames t' else frames_of k y.
Proof.
  unfold frames_of. intros ->. destruct (decide (y = x)) as [->|].
  - by rewrite lookup_insert_eq.
  - by rewrite lookup_insert_ne.
Qed.

(** One thread [x] changes its status, its frames and its queue; every other
    thread is where it was. *)
Lemma inv_move r L r' L' k k' x t t' :
  inv r L k → threads k !! x = Some t → threads k' = <[x := t']> (threads k) →
  idle_thread k' = idle_thread k → (∀ y, ¬ creating k y x) →
  (∀ z, creates (frames t') z ↔ creates (frames t) z) →
  magic t' = THREAD_MAGIC → frames_ok (idle_thread k) x (frames t') →
  (∀ y, y ≠ x → (r' = Some y ↔ r = Some y) ∧ (L' = Some y ↔ L = Some y) ∧
     ∀ p, y ∈ members k' p ↔ y ∈ members k p) →
  (∀ p, NoDup (members k' p)) →
  located r' L' k' x t' →
  (∀ p, x ∈ members k' p → x ≠ idle_thread k ∧ L' ≠ Some x ∧
     status t' = place_status p ∧ place_frames p (frames t')) →
  (∀ p q, x ∈ members k' p → x ∈ members k' q → p = q) →
  (L' = Some x → x ≠ idle_thread k ∧ status t' = THREAD_BLOCKED) →
  (∀ y, r' = Some y → y = running k') → (r' = Some x → status t' = THREAD_RUNNING) →
  Sorted (KList.Correct.ord (compare_priority k')) (ready_list k') →
  Sorted (KList.Correct.ord (compare_wakeup_time k')) (sleep_list k') →
  inv r' L' k'.
Proof.
  intros Hi Hx Et Eidle Hnc Hcr Hmg Hpl Hy Hnd Hloc Hmem Honce HL Hrun Hrx Hs1 Hs2.
  assert (∀ y t, y ≠ x → threads k' !! y = Some t ↔ threads k !! y = Some t) as Hne.
  { intros y u ?. rewrite Et. by rewrite lookup_insert_ne. }
  assert (threads k' !! x = Some t') as Hx' by (rewrite Et; apply lookup_insert_eq).
  assert (∀ y z, creating k' y z ↔ creating k y z) as Hcre.
  { intros y z. unfold creating. rewrite (frames_of_insert k k' x t') by done. case_decide; [|done].
    subst. unfold frames_of. rewrite Hx. apply Hcr. }
  assert (∀ y, y ≠ x → (∃ s, y ∈ sema_waiters k' s) ↔ (∃ s, y ∈ sema_waiters k s)) as Hsw.
  { intros y Hyx. destruct (Hy y Hyx) as (_ & _ & Hp). split; intros [s Hs]; exists s; by apply (Hp (InSema s)). }
  split; rewrite ?Eidle.
  - intros y u Hu. destruct (decide (y = x)) as [->|Hyx].
    { rewrite Hx' in Hu. simplify_eq. destruct (inv_thread _ _ _ Hi x t Hx) as (_ & ? & _). done. }
    apply Hne in Hu; [|done]. destruct (inv_thread _ _ _ Hi y u Hu) as (? & ? & ? & Hl).
    split_and!; [done..|]. unfold located in *. rewrite Eidle. specialize (Hsw y Hyx).
    destruct (Hy y Hyx) as (Hr & HL' & Hp). destruct (status u); [by apply Hr| | |done].
    + destruct Hl as [?|?]; [by left|right; by apply (Hp InReady)].
    + destruct Hl as [?|[?|[?|[?|[z ?]]]]]; [by left|..]; right.
      * left. by apply HL'.
      * right; left. by apply (Hp InSleep).
      * do 2 right; left. by apply Hsw.
      * do 3 right. exists z. by apply Hcre.
  - intros p y Hyp. destruct (decide (y = x)) as [->|Hyx].
    { destruct (Hmem p Hyp) as (? & ? & ? & ?). split_and!; [done..|]. by exists t'. }
    destruct (Hy y Hyx) as (_ & HL' & Hp). apply Hp in Hyp.
    destruct (inv_member _ _ _ Hi p y Hyp) as (? & ? & u & ? & ?). split_and!; [done|naive_solver|].
    exists u. by rewrite Hne.
  - done.
  - intros p q y Hp Hq. destruct (decide (y = x)) as [->|Hyx]; [eauto|].
    destruct (Hy y Hyx) as (_ & _ & Hpq). apply Hpq in Hp. apply Hpq in Hq.
    by apply (inv_once _ _ _ Hi p q y).
  - intros y z Hcz. apply Hcre in Hcz.
    destruct (inv_creating _ _ _ Hi y z Hcz) as (? & ? & Hnp & u & Hu & ?).
    assert (z ≠ x) as Hzx by (intros ->; by eapply Hnc).
    destruct (Hy z Hzx) as (_ & HL' & Hp).
    split_and!; [done|naive_solver|intros p; rewrite Hp; apply Hnp|]. exists u. by rewrite Hne.
  - intros y HLy. destruct (decide (y = x)) as [->|Hyx].
    { destruct (HL HLy). split; [done|]. by exists t'. }
    destruct (Hy y Hyx) as (_ & HL' & _). apply HL' in HLy.
    destruct (inv_loose _ _ _ Hi y HLy) as (? & u & ? & ?). split; [done|]. exists u. by rewrite Hne.
  - intros y Hry. split; [by apply Hrun|]. destruct (decide (y = x)) as [->|Hyx]; [exists t'; auto|].
    destruct (Hy y Hyx) as (Hr & _). apply Hr in Hry.
    destruct (inv_running _ _ _ Hi y Hry) as (? & u & ? & ?). exists u. by rewrite Hne.
  - destruct (inv_idle _ _ _ Hi) as [u Hu]. destruct (decide (idle_thread k = x)) as [E|E].
    + exists t'. by rewrite E.
    + exists u. by rewrite Hne.
  - done.
  - done.
Qed.

(** * The transitions of the running thread *)

Lemma creates_cons f fs z : not_create f → creates (f :: fs) z ↔ creates fs z.
Proof.
  unfold creates. destruct fs as [|g fs]; [|done].
  destruct f; intros Hf; simpl in *; (split; intros [? ?]; done).
Qed.

Lemma plain_ok i x f : x ≠ i → frame_ok i x f ↔ plain_frame f.
Proof. intros. unfold frame_ok. by rewrite decide_False. Qed.

Lemma idle_ok i f : frame_ok i i f ↔ idle_frame f.
Proof. unfold frame_ok. by rewrite decide_True. Qed.

(** Frames that every thread may have. *)
Lemma common_ok i x f : idle_frame f → plain_frame f → frame_ok i x f.
Proof. unfold frame_ok. by case_decide. Qed.

Lemma running_alone r L k x t p :
  inv r L k → threads k !! x = Some t → status t = THREAD_RUNNING →
  (x ∉ members k p) ∧ (∀ y, ¬ creating k y x) ∧ L ≠ Some x.
Proof.
  intros Hi Hx Hst. split_and!.
  - intros Hp. destruct (inv_member _ _ _ Hi p x Hp) as (_ & _ & u & Hu & Hs & _).
    destruct p; simplify_eq/=; congruence.
  - intros y Hc. destruct (inv_creating _ _ _ Hi y x Hc) as (_ & _ & _ & u & Hu & Hs & _).
    simplify_eq/=; congruence.
  - intros HL. destruct (inv_loose _ _ _ Hi x HL) as (_ & u & Hu & Hs). simplify_eq/=; congruence.
Qed.

Lemma sema_waiters_insert k k' s x s' :
  semas k' = <[s := x]> (semas k) →
  sema_waiters k' s' = if decide (s' = s) then waiters x else sema_waiters k s'.
Proof.
  unfold sema_waiters. intros ->. destruct (decide (s' = s)) as [->|].
  - by rewrite lookup_insert_eq.
  - by rewrite lookup_insert_ne.
Qed.

Lemma same_keys_insert k k' x t t' y :
  threads k !! x = Some t → threads k' = <[x := t']> (threads k) →
  priority t' = priority t → wakeup_time t' = wakeup_time t → same_keys k k' y.
Proof.
  intros Hx Et Ep Ew. unfold same_keys. rewrite Et. destruct (decide (y = x)) as [->|].
  - rewrite lookup_insert_eq, Hx. simpl. by rewrite Ep, Ew.
  - by rewrite lookup_insert_ne.
Qed.

Lemma same_keys_insert_ne k k' x t' y :
  threads k' = <[x := t']> (threads k) → y ≠ x → same_keys k k' y.
Proof. intros Et Hne. unfold same_keys. by rewrite Et, lookup_insert_ne. Qed.

(** The running thread's frames and keys change. *)
Lemma inv_upd_running k k' x t t' :
  inv (Some x) None k → threads k !! x = Some t → threads k' = <[x := t']> (threads k) →
  same_core (set_threads (threads k') k) k' →
  status t' = status t → magic t' = THREAD_MAGIC →
  frames_ok (idle_thread k) x (frames t') →
  (∀ z, creates (frames t') z ↔ creates (frames t) z) →
  inv (Some x) None k'.
Proof.
  intros Hi Hx Et (_ & Er & Ei & Erd & Esl & Es) Est Hm Hpl Hcr. simpl in *.
  destruct (inv_running _ _ _ Hi x eq_refl) as (Hrun & u & Hu & Hst). simplify_eq.
  assert (∀ p, members k' p = members k p) as Hmem.
  { intros []; simpl; unfold sema_waiters; congruence. }
  assert (∀ p, running k ∉ members k p) as Hno.
  { intros p. by destruct (running_alone _ _ _ _ _ p Hi Hx Hst). }
  assert (∀ p y, y ∈ members k p → same_keys k k' y) as Hkeys.
  { intros p y Hy. eapply same_keys_insert_ne; [done|]. intros ->. by eapply Hno. }
  destruct (running_alone _ _ _ _ _ InReady Hi Hx Hst) as (_ & ? & _).
  eapply (inv_move (Some (running k)) None (Some (running k)) None k k' (running k) t t');
    rewrite ?Est; try done.
  - intros y _. split_and!; [done..|]. intros p. by rewrite Hmem.
  - intros p. rewrite Hmem. apply (inv_nodup _ _ _ Hi).
  - unfold located. by rewrite Est, Hst.
  - intros p. rewrite Hmem. intros ?. by destruct (Hno p).
  - intros p q. rewrite Hmem. intros ?. by destruct (Hno p).
  - by intros y [= <-].
  - rewrite Erd. destruct (sorted_keys k k' (ready_list k) (Hkeys InReady)) as [Hs _].
    apply Hs, (inv_ready_sorted _ _ _ Hi).
  - rewrite Esl. destruct (sorted_keys k k' (sleep_list k) (Hkeys InSleep)) as [_ Hs].
    apply Hs, (inv_sleep_sorted _ _ _ Hi).
Qed.

(** The running thread gives up the processor: into the queue [p], or into
    none. *)
Lemma inv_leave k k' x t t' p :
  inv (Some x) None k → threads k !! x = Some t → threads k' = <[x := t']> (threads k) →
  idle_thread k' = idle_thread k → magic t' = THREAD_MAGIC →
  frames_ok (idle_thread k) x (frames t') →
  (∀ z, creates (frames t') z ↔ creates (frames t) z) →
  (∀ q y, y ∈ members k' q ↔ y ∈ members k q ∨ p = Some q ∧ y = x) →
  (∀ q, NoDup (members k' q)) →
  match p with
  | Some q => x ≠ idle_thread k ∧ status t' = place_status q ∧ place_frames q (frames t')
  | None => located None None k' x t'
  end →
  Sorted (KList.Correct.ord (compare_priority k')) (ready_list k') →
  Sorted (KList.Correct.ord (compare_wakeup_time k')) (sleep_list k') →
  inv None None k'.
Proof.
  intros Hi Hx Et Ei Hm Hpl Hcr Hmem Hnd Hp Hs1 Hs2.
  destruct (inv_running _ _ _ Hi x eq_refl) as (-> & u & Hu & Hst). simplify_eq.
  assert (∀ q, running k ∈ members k' q → p = Some q) as Hq.
  { intros q [Hin|[? _]]%Hmem; [|done]. by destruct (running_alone _ _ _ _ _ q Hi Hx Hst). }
  destruct (running_alone _ _ _ _ _ InReady Hi Hx Hst) as (_ & ? & _).
  eapply (inv_move (Some (running k)) None None None k k' (running k) t t'); try done.
  - intros y Hy. split_and!; [naive_solver..|]. intros q. rewrite Hmem. naive_solver.
  - destruct p as [q|]; [|done]. destruct Hp as (_ & Es & _). unfold located. rewrite Es.
    assert (running k ∈ members k' q) as Hin by (apply Hmem; auto).
    destruct q; simpl in *; eauto 6.
  - intros q Hin%Hq. subst p. naive_solver.
  - intros q q' ->%Hq Hin%Hq. congruence.
Qed.

(** An insertion into the run queue or among the sleepers keeps the order. *)
Lemma ready_insert_sorted r L k x :
  inv r L k →
  Sorted (KList.Correct.ord (compare_priority k)) (KList.Correct.insert_seq (compare_priority k) x (ready_list k)).
Proof.
  intros Hi. apply KList.Correct.insert_seq_sorted, (inv_ready_sorted _ _ _ Hi).
  intros a b. unfold compare_priority. destruct (threads k !! a), (threads k !! b); simpl; try done. lia.
Qed.

Lemma sleep_insert_sorted r L k x :
  inv r L k →
  Sorted (KList.Correct.ord (compare_wakeup_time k)) (KList.Correct.insert_seq (compare_wakeup_time k) x (sleep_list k)).
Proof.
  intros Hi. apply KList.Correct.insert_seq_sorted, (inv_sleep_sorted _ _ _ Hi).
  intros a b. unfold compare_wakeup_time. destruct (threads k !! a), (threads k !! b); simpl; try done. lia.
Qed.

Lemma elem_of_insert_seq less x y l : y ∈ KList.Correct.insert_seq less x l ↔ y ∈ l ∨ y = x.
Proof. rewrite (KList.Correct.insert_seq_perm less x l), elem_of_cons. naive_solver. Qed.

Lemma insert_seq_nodup less x l : NoDup l → x ∉ l → NoDup (KList.Correct.insert_seq less x l).
Proof. intros. rewrite (KList.Correct.insert_seq_perm less x l). by constructor. Qed.

Section leave.
Variables (k k' : kernel) (x : Z) (t : thread).
Hypothesis Hi : inv (Some x) None k.
Hypothesis Hx : threads k !! x = Some t.
Hypothesis Hidle : idle_thread k' = idle_thread k.
Implicit Types f : frame.

Lemma leave_facts : x = running k ∧ status t = THREAD_RUNNING ∧ magic t = THREAD_MAGIC ∧
  frames_ok (idle_thread k) x (frames t) ∧ ∀ p, x ∉ members k p.
Proof.
  destruct (inv_running _ _ _ Hi x eq_refl) as (? & u & Hu & Hst). simplify_eq.
  destruct (inv_thread _ _ _ Hi _ _ Hx) as (? & _ & ? & _).
  split_and!; try done. intros p. by destruct (running_alone _ _ _ _ _ p Hi Hx Hst).
Qed.

Lemma leave_keys t' (l : list Z) : threads k' = <[x := t']> (threads k) →
  priority t' = priority t → wakeup_time t' = wakeup_time t → ∀ y, y ∈ l → same_keys k k' y.
Proof. intros. by eapply same_keys_insert. Qed.

Definition left_with (st : thread_status) (fs : list frame) : Prop :=
  threads k' = <[x := set_status st (set_frames fs t)]> (threads k).

(** [sema_down] on a semaphore at zero. *)
Lemma leave_sema s sm v' l :
  x ≠ idle_thread k → top_calm (frames t) → called_by (F_sema_down s l) (frames t) →
  semas k !! s = Some sm → left_with THREAD_BLOCKED (F_sema_down s l :: frames t) →
  ready_list k' = ready_list k → sleep_list k' = sleep_list k →
  semas k' = <[s := mk_sema v' (waiters sm ++ [x])]> (semas k) → inv None None k'.
Proof.
  intros Hni Hcalm Hcall Hs Et Er Es Esem. destruct leave_facts as (? & ? & ? & ? & Hno).
  assert (sema_waiters k s = waiters sm) as Ews by (unfold sema_waiters; by rewrite Hs).
  eapply (inv_leave k k' x t _ (Some (InSema s))); simpl; try done.
  - split_and!; [by apply plain_ok|by right|done..].
  - intros z. by apply creates_cons.
  - intros [| |s'] y; simpl; [rewrite Er; naive_solver|rewrite Es; naive_solver|].
    rewrite (sema_waiters_insert k k' s _ s') by done. case_decide; [subst; simpl|naive_solver].
    rewrite Ews, elem_of_app, list_elem_of_singleton. naive_solver.
  - intros [| |s']; simpl; [rewrite Er; apply (inv_nodup _ _ _ Hi InReady)|rewrite Es; apply (inv_nodup _ _ _ Hi InSleep)|].
    rewrite (sema_waiters_insert k k' s _ s') by done. pose proof (inv_nodup _ _ _ Hi (InSema s')) as Hnd.
    case_decide; [subst; simpl in *; rewrite Ews in Hnd|done]. apply NoDup_app. split_and!; [done| |apply NoDup_singleton].
    intros y Hy ->%list_elem_of_singleton. apply (Hno (InSema s)). simpl. by rewrite Ews.
  - split_and!; [done|done|by eexists _, _].
  - rewrite Er. eapply sorted_keys; [by eapply leave_keys|apply (inv_ready_sorted _ _ _ Hi)].
  - rewrite Es. eapply sorted_keys; [by eapply leave_keys|apply (inv_sleep_sorted _ _ _ Hi)].
Qed.

(** [thread_sleep]. *)
Lemma leave_sleep l :
  x ≠ idle_thread k → top_calm (frames t) → left_with THREAD_BLOCKED (F_set_level l :: frames t) →
  ready_list k' = ready_list k → semas k' = semas k →
  sleep_list k' = KList.Correct.insert_seq (compare_wakeup_time k) x (sleep_list k) →
  inv None None k'.
Proof.
  intros Hni Hcalm Et Er Esem Es. destruct leave_facts as (? & ? & ? & ? & Hno).
  eapply (inv_leave k k' x t _ (Some InSleep)); simpl; try done.
  - split_and!; [by apply plain_ok|by right|done..].
  - intros z. by apply creates_cons.
  - intros [| |s'] y; simpl; [rewrite Er; naive_solver|rewrite Es, elem_of_insert_seq; naive_solver|].
    unfold sema_waiters. rewrite Esem. naive_solver.
  - intros [| |s']; simpl; [rewrite Er; apply (inv_nodup _ _ _ Hi InReady)| |
      unfold sema_waiters; rewrite Esem; apply (inv_nodup _ _ _ Hi (InSema s'))].
    rewrite Es. apply insert_seq_nodup; [apply (inv_nodup _ _ _ Hi InSleep)|apply (Hno InSleep)].
  - split_and!; [done|done|by eexists _, _].
  - rewrite Er. eapply sorted_keys; [by eapply leave_keys|apply (inv_ready_sorted _ _ _ Hi)].
  - rewrite Es. eapply sorted_keys; [by eapply leave_keys|by eapply sleep_insert_sorted].
Qed.

(** [thread_yield] of a thread other than the idle thread. *)
Lemma leave_ready l :
  x ≠ idle_thread k → top_calm (frames t) → left_with THREAD_READY (F_set_level l :: frames t) →
  sleep_list k' = sleep_list k → semas k' = semas k →
  ready_list k' = KList.Correct.insert_seq (compare_priority k) x (ready_list k) →
  inv None None k'.
Proof.
  intros Hni Hcalm Et Es Esem Er. destruct leave_facts as (? & ? & ? & ? & Hno).
  eapply (inv_leave k k' x t _ (Some InReady)); simpl; try done.
  - split_and!; [by apply plain_ok|by right|done..].
  - intros z. by apply creates_cons.
  - intros [| |s'] y; simpl; [rewrite Er, elem_of_insert_seq; naive_solver|rewrite Es; naive_solver|].
    unfold sema_waiters. rewrite Esem. naive_solver.
  - intros [| |s']; simpl; [|rewrite Es; apply (inv_nodup _ _ _ Hi InSleep)|
      unfold sema_waiters; rewrite Esem; apply (inv_nodup _ _ _ Hi (InSema s'))].
    rewrite Er. apply insert_seq_nodup; [apply (inv_nodup _ _ _ Hi InReady)|apply (Hno InReady)].
  - rewrite Er. eapply sorted_keys; [by eapply leave_keys|by eapply ready_insert_sorted].
  - rewrite Es. eapply sorted_keys; [by eapply leave_keys|apply (inv_sleep_sorted _ _ _ Hi)].
Qed.

(** The idle thread yields or blocks, or a thread dies: into no queue. *)
Lemma leave_none st fs :
  left_with st fs → ready_list k' = ready_list k → sleep_list k' = sleep_list k →
  semas k' = semas k → frames_ok (idle_thread k) x fs → (∀ z, creates fs z ↔ creates (frames t) z) →
  match st with
  | THREAD_RUNNING => False
  | THREAD_READY => x = idle_thread k
  | THREAD_BLOCKED => x = idle_thread k ∧ ∃ fs', fs = F_halt :: fs'
  | THREAD_DYING => x ≠ idle_thread k ∧ fs = []
  end → inv None None k'.
Proof.
  intros Et Er Es Esem Hpl Hcr Hst. destruct leave_facts as (? & ? & ? & ? & Hno).
  assert (∀ p, members k' p = members k p) as Hmem.
  { intros []; simpl; unfold sema_waiters; congruence. }
  eapply (inv_leave k k' x t _ None); simpl; try done.
  - intros q y. rewrite Hmem. naive_solver.
  - intros q. rewrite Hmem. apply (inv_nodup _ _ _ Hi).
  - unfold located. simpl. rewrite Hidle. destruct st; naive_solver.
  - rewrite Er. eapply sorted_keys; [by eapply leave_keys|apply (inv_ready_sorted _ _ _ Hi)].
  - rewrite Es. eapply sorted_keys; [by eapply leave_keys|apply (inv_sleep_sorted _ _ _ Hi)].
Qed.
End leave.

(** * Values of semaphores *)
Lemma inv_values r L k k' :
  same_core (set_semas (semas k') k) k' → (∀ s, sema_waiters k' s = sema_waiters k s) →
  inv r L k → inv r L k'.
Proof.
  intros (Et & Er & Ei & Erd & Esl & _) Hw Hi. simpl in *.
  assert (∀ p, members k' p = members k p) as Hmem.
  { intros []; simpl; congruence. }
  assert (∀ y x, creating k' y x ↔ creating k y x) as Hcr.
  { intros. unfold creating, frames_of. by rewrite Et. }
  assert (∀ x, same_keys k k' x) as Hk by (intros; unfold same_keys; by rewrite Et).
  split; rewrite ?Et, ?Ei, ?Er, ?Erd, ?Esl.
  - intros x t Hx. destruct (inv_thread _ _ _ Hi x t Hx) as (? & ? & ? & Hl).
    split_and!; [done..|]. by eapply located_ext.
  - intros p x. rewrite Hmem. apply (inv_member _ _ _ Hi).
  - intros p. rewrite Hmem. apply (inv_nodup _ _ _ Hi).
  - intros p q x. rewrite !Hmem. apply (inv_once _ _ _ Hi).
  - intros y x Hc%Hcr. destruct (inv_creating _ _ _ Hi y x Hc) as (? & ? & ? & ?).
    split_and!; [done..| |done]. intros p. by rewrite Hmem.
  - apply (inv_loose _ _ _ Hi).
  - apply (inv_running _ _ _ Hi).
  - apply (inv_idle _ _ _ Hi).
  - eapply sorted_keys; [intros; apply Hk|apply (inv_ready_sorted _ _ _ Hi)].
  - eapply sorted_keys; [intros; apply Hk|apply (inv_sleep_sorted _ _ _ Hi)].
Qed.

(** * Waking a thread *)
Section wake.
Variables (r : option Z) (k k' : kernel) (x : Z).
Hypothesis Hidle : idle_thread k' = idle_thread k.
Hypothesis Hrunning : running k' = running k.

Lemma member_facts L p : inv r L k → x ∈ members k p → ∃ t,
  threads k !! x = Some t ∧ status t = place_status p ∧ magic t = THREAD_MAGIC ∧
  frames_ok (idle_thread k) x (frames t) ∧ place_frames p (frames t) ∧ (∀ y, ¬ creating k y x) ∧
  x ≠ idle_thread k ∧ ∀ q, x ∈ members k q → q = p.
Proof.
  intros Hi Hp. destruct (inv_member _ _ _ Hi p x Hp) as (? & _ & t & Hx & Hs & ?).
  destruct (inv_thread _ _ _ Hi x t Hx) as (? & _ & ? & _). exists t. split_and!; try done.
  - intros y Hc. by destruct (inv_creating _ _ _ Hi y x Hc) as (_ & _ & Hn & _), (Hn p).
  - intros q Hq. by apply (inv_once _ _ _ Hi q p x).
Qed.

(** A blocked thread is taken out of its queue. *)
Lemma inv_unlink p :
  inv r None k → x ∈ members k p → p ≠ InReady → threads k' = threads k → ready_list k' = ready_list k →
  (∀ q y, y ∈ members k' q ↔ y ∈ members k q ∧ y ≠ x) → (∀ q, NoDup (members k' q)) →
  Sorted (KList.Correct.ord (compare_wakeup_time k)) (sleep_list k') →
  inv r (Some x) k'.
Proof.
  intros Hi Hp Hnr Et Er Hmem Hnd Hs.
  destruct (member_facts None p Hi Hp) as (t & Hx & Hst & ? & ? & ? & ? & ? & ?).
  assert (status t = THREAD_BLOCKED) as Hb by (rewrite Hst; by destruct p).
  assert (∀ y, same_keys k k' y) as Hk by (intros; unfold same_keys; by rewrite Et).
  eapply (inv_move r None r (Some x) k k' x t t); try done.
  - by rewrite Et, insert_id.
  - intros y Hy. split_and!; [done|naive_solver|]. intros q. rewrite Hmem. naive_solver.
  - unfold located. rewrite Hb. auto.
  - intros q [_ ?]%Hmem. done.
  - intros q q' [_ ?]%Hmem. done.
  - intros y Hy. rewrite Hrunning. by apply (inv_running _ _ _ Hi).
  - intros Hr. destruct (inv_running _ _ _ Hi x Hr) as (_ & u & ? & ?). simplify_eq. congruence.
  - rewrite Er. eapply sorted_keys; [intros; apply Hk|apply (inv_ready_sorted _ _ _ Hi)].
  - eapply sorted_keys; [intros; apply Hk|done].
Qed.

Lemma inv_pop_sema s sm v' ws :
  inv r None k → semas k !! s = Some sm → waiters sm = x :: ws → threads k' = threads k →
  ready_list k' = ready_list k → sleep_list k' = sleep_list k →
  semas k' = <[s := mk_sema v' ws]> (semas k) → inv r (Some x) k'.
Proof.
  intros Hi Hs Hw Et Er Es Esem.
  assert (sema_waiters k s = x :: ws) as Ews by (unfold sema_waiters; by rewrite Hs).
  assert (x ∈ members k (InSema s)) as Hx by (simpl; rewrite Ews; by left).
  destruct (member_facts None (InSema s) Hi Hx) as (t & _ & _ & _ & _ & _ & _ & _ & Honly).
  pose proof (inv_nodup _ _ _ Hi (InSema s)) as Hnd. simpl in Hnd. rewrite Ews, NoDup_cons in Hnd.
  assert (∀ q y, y ∈ members k' q ↔ y ∈ members k q ∧ y ≠ x) as Hmem.
  { intros q y. destruct (decide (q = InSema s)) as [->|Hq].
    - simpl. rewrite (sema_waiters_insert k k' s _ s) by done. rewrite decide_True, Ews, elem_of_cons by done.
      simpl. naive_solver.
    - assert (members k' q = members k q) as ->.
      { destruct q as [| |s']; simpl; [done..|]. rewrite (sema_waiters_insert k k' s _ s') by done.
        rewrite decide_False; [done|congruence]. }
      split; [|naive_solver]. intros Hy. split; [done|]. intros ->. by apply Hq, Honly. }
  eapply (inv_unlink (InSema s)); try done.
  - intros [| |s']; simpl; [rewrite Er; apply (inv_nodup _ _ _ Hi InReady)|rewrite Es; apply (inv_nodup _ _ _ Hi InSleep)|].
    rewrite (sema_waiters_insert k k' s _ s') by done. case_decide; [by apply Hnd|apply (inv_nodup _ _ _ Hi (InSema s'))].
  - rewrite Es. apply (inv_sleep_sorted _ _ _ Hi).
Qed.

Lemma inv_pop_sleep xs :
  inv r None k → sleep_list k = x :: xs → threads k' = threads k →
  ready_list k' = ready_list k → sleep_list k' = xs → semas k' = semas k → inv r (Some x) k'.
Proof.
  intros Hi Esl Et Er Es Esem.
  assert (x ∈ members k InSleep) as Hx by (simpl; rewrite Esl; by left).
  destruct (member_facts None InSleep Hi Hx) as (t & _ & _ & _ & _ & _ & _ & _ & Honly).
  pose proof (inv_nodup _ _ _ Hi InSleep) as Hnd. simpl in Hnd. rewrite Esl, NoDup_cons in Hnd.
  eapply (inv_unlink InSleep); try done.
  - intros q y. destruct (decide (q = InSleep)) as [->|Hq].
    + simpl. rewrite Es, Esl, elem_of_cons. naive_solver.
    + assert (members k' q = members k q) as ->.
      { destruct q as [| |s']; simpl; [done..|]. unfold sema_waiters. by rewrite Esem. }
      split; [|naive_solver]. intros Hy. split; [done|]. intros ->. by apply Hq, Honly.
  - intros [| |s']; simpl; [rewrite Er; apply (inv_nodup _ _ _ Hi InReady)|rewrite Es; apply Hnd|].
    unfold sema_waiters. rewrite Esem. apply (inv_nodup _ _ _ Hi (InSema s')).
  - rewrite Es. pose proof (inv_sleep_sorted _ _ _ Hi) as Hs. rewrite Esl in Hs. by inversion Hs.
Qed.

(** [thread_unblock]. *)
Lemma inv_unblock t :
  inv r (Some x) k → threads k !! x = Some t →
  threads k' = <[x := set_status THREAD_READY t]> (threads k) →
  ready_list k' = KList.Correct.insert_seq (compare_priority k) x (ready_list k) →
  sleep_list k' = sleep_list k → semas k' = semas k → inv r None k'.
Proof.
  intros Hi Hx Et Er Es Esem.
  assert (∀ p, x ∉ members k p) as Hno.
  { intros p Hp. by destruct (inv_member _ _ _ Hi p x Hp) as (_ & ? & _). }
  assert (∀ y, ¬ creating k y x) as Hnc.
  { intros y Hc. by destruct (inv_creating _ _ _ Hi y x Hc) as (_ & ? & _). }
  destruct (inv_loose _ _ _ Hi x eq_refl) as (? & u & Hu & ?). simplify_eq.
  destruct (inv_thread _ _ _ Hi _ _ Hx) as (? & _ & ? & _).
  assert (∀ q y, y ∈ members k' q ↔ y ∈ members k q ∨ q = InReady ∧ y = x) as Hmem.
  { intros [| |s'] y; simpl; [rewrite Er, elem_of_insert_seq; naive_solver|rewrite Es; naive_solver|].
    unfold sema_waiters. rewrite Esem. naive_solver. }
  assert (∀ q, x ∈ members k' q → q = InReady) as Hq.
  { intros q [Hin|[? _]]%Hmem; [|done]. by destruct (Hno q). }
  assert (∀ y, same_keys k k' y) as Hk by (intros; by eapply same_keys_insert).
  eapply (inv_move r (Some x) r None k k' x t _); try done; simpl.
  - intros y Hy. split_and!; [done|naive_solver|]. intros q. rewrite Hmem. naive_solver.
  - intros [| |s']; simpl; [|rewrite Es; apply (inv_nodup _ _ _ Hi InSleep)|
      unfold sema_waiters; rewrite Esem; apply (inv_nodup _ _ _ Hi (InSema s'))].
    rewrite Er. apply insert_seq_nodup; [apply (inv_nodup _ _ _ Hi InReady)|apply (Hno InReady)].
  - unfold located. simpl. right. apply (Hmem InReady). auto.
  - by intros q ->%Hq.
  - by intros q q' ->%Hq ->%Hq.
  - intros y Hy. rewrite Hrunning. by apply (inv_running _ _ _ Hi).
  - intros Hr. destruct (inv_running _ _ _ Hi x Hr) as (_ & u & ? & ?). simplify_eq. congruence.
  - rewrite Er. eapply sorted_keys; [intros; apply Hk|by eapply ready_insert_sorted].
  - rewrite Es. eapply sorted_keys; [intros; apply Hk|apply (inv_sleep_sorted _ _ _ Hi)].
Qed.
End wake.

(** * Choosing the next thread *)
Section pick.
Variables (k k' : kernel) (x : Z) (t : thread).
Hypothesis Hi : inv None None k.
Hypothesis Hx : threads k !! x = Some t.
Hypothesis Hidle : idle_thread k' = idle_thread k.
Hypothesis Hrun : running k' = x.
Hypothesis Ht : threads k' = <[x := set_status THREAD_RUNNING t]> (threads k).
Hypothesis Hsleep : sleep_list k' = sleep_list k.
Hypothesis Hsemas : semas k' = semas k.

Lemma inv_pick_ready : ready_list k = x :: ready_list k' → inv (Some x) None k'.
Proof.
  intros Er. assert (x ∈ members k InReady) as Hp by (simpl; rewrite Er; by left).
  destruct (member_facts None k x None InReady Hi Hp) as (u & ? & ? & ? & ? & _ & ? & ? & Honly).
  simplify_eq.
  pose proof (inv_nodup _ _ _ Hi InReady) as Hnd. simpl in Hnd. rewrite Er, NoDup_cons in Hnd.
  assert (∀ q y, y ∈ members k' q ↔ y ∈ members k q ∧ y ≠ running k') as Hmem.
  { intros q y. destruct (decide (q = InReady)) as [->|Hq].
    - simpl. rewrite Er, elem_of_cons. naive_solver.
    - assert (members k' q = members k q) as ->.
      { destruct q as [| |s']; simpl; [done..|]. unfold sema_waiters. by rewrite Hsemas. }
      split; [|naive_solver]. intros Hy. split; [done|]. intros ->. by apply Hq, Honly. }
  assert (∀ y, same_keys k k' y) as Hk by (intros; by eapply same_keys_insert).
  eapply (inv_move None None (Some (running k')) None k k' (running k') t _); try done; simpl.
  - intros y Hy. split_and!; [naive_solver|done|]. intros q. rewrite Hmem. naive_solver.
  - intros [| |s']; simpl; [apply Hnd|rewrite Hsleep; apply (inv_nodup _ _ _ Hi InSleep)|
      unfold sema_waiters; rewrite Hsemas; apply (inv_nodup _ _ _ Hi (InSema s'))].
  - intros q [_ ?]%Hmem. done.
  - intros q q' [_ ?]%Hmem. done.
  - intros y. congruence.
  - eapply sorted_keys; [intros; apply Hk|]. pose proof (inv_ready_sorted _ _ _ Hi) as Hs.
    rewrite Er in Hs. by inversion Hs.
  - rewrite Hsleep. eapply sorted_keys; [intros; apply Hk|apply (inv_sleep_sorted _ _ _ Hi)].
Qed.

Lemma inv_pick_idle :
  x = idle_thread k → ready_list k' = ready_list k → inv (Some x) None k'.
Proof.
  intros Ex Er. destruct (inv_thread _ _ _ Hi x t Hx) as (? & ? & ? & _).
  assert (∀ q, members k' q = members k q) as Hmem.
  { intros []; simpl; unfold sema_waiters; congruence. }
  assert (∀ q, x ∉ members k q) as Hno.
  { intros q Hq. by destruct (inv_member _ _ _ Hi q x Hq). }
  assert (∀ y, same_keys k k' y) as Hk by (intros; by eapply same_keys_insert).
  eapply (inv_move None None (Some x) None k k' x t _); try done; simpl.
  - intros y Hc. by destruct (inv_creating _ _ _ Hi y x Hc).
  - intros y Hy. split_and!; [naive_solver|done|]. intros q. by rewrite Hmem.
  - intros q. rewrite Hmem. apply (inv_nodup _ _ _ Hi).
  - intros q. rewrite Hmem. by intros ?%Hno.
  - intros q q'. rewrite Hmem. by intros ?%Hno.
  - intros y. congruence.
  - rewrite Er. eapply sorted_keys; [intros; apply Hk|apply (inv_ready_sorted _ _ _ Hi)].
  - rewrite Hsleep. eapply sorted_keys; [intros; apply Hk|apply (inv_sleep_sorted _ _ _ Hi)].
Qed.
End pick.

(** A dead thread's page is freed. *)
Lemma inv_free r k k' x t :
  inv r None k → threads k !! x = Some t → status t = THREAD_DYING →
  threads k' = delete x (threads k) → same_core (set_threads (threads k') k) k' →
  inv r None k'.
Proof.
  intros Hi Hx Hst Et (_ & Er & Ei & Erd & Esl & Es). simpl in *.
  destruct (inv_thread _ _ _ Hi x t Hx) as (_ & _ & _ & Hl). unfold located in Hl. rewrite Hst in Hl.
  destruct Hl as [Hni Hfr].
  assert (∀ y u, y ≠ x → threads k' !! y = Some u ↔ threads k !! y = Some u) as Hne.
  { intros y u ?. rewrite Et. by rewrite lookup_delete_ne. }
  assert (∀ p, members k' p = members k p) as Hmem.
  { intros []; simpl; unfold sema_waiters; congruence. }
  assert (∀ y, frames_of k' y = frames_of k y) as Hfo.
  { intros y. unfold frames_of. rewrite Et. destruct (decide (y = x)) as [->|].
    - by rewrite lookup_delete_eq, Hx.
    - by rewrite lookup_delete_ne. }
  assert (∀ y u, threads k !! y = Some u → status u ≠ THREAD_DYING → threads k' !! y = Some u) as Hlive.
  { intros y u Hu Hs. apply Hne; [|done]. intros ->. simplify_eq. }
  assert (∀ p y, y ∈ members k p → same_keys k k' y) as Hk.
  { intros p y Hy. destruct (inv_member _ _ _ Hi p y Hy) as (_ & _ & u & Hu & Hs & _).
    unfold same_keys. rewrite (Hlive y u) by (done || (rewrite Hs; by destruct p)). by rewrite Hu. }
  split; rewrite ?Er, ?Ei, ?Erd, ?Esl.
  - intros y u Hu. assert (y ≠ x) as Hyx by (intros ->; rewrite Et, lookup_delete_eq in Hu; done).
    apply Hne in Hu; [|done]. destruct (inv_thread _ _ _ Hi y u Hu) as (? & ? & ? & Hl).
    split_and!; [done..|]. eapply (located_ext r None k); [done..| |done].
    intros. unfold creating. by rewrite Hfo.
  - intros p y. rewrite Hmem. intros Hy. destruct (inv_member _ _ _ Hi p y Hy) as (? & ? & u & ? & Hs & ?).
    split_and!; [done..|]. exists u. split; [|done]. apply Hlive; [done|]. rewrite Hs. by destruct p.
  - intros p. rewrite Hmem. apply (inv_nodup _ _ _ Hi).
  - intros p q y. rewrite !Hmem. apply (inv_once _ _ _ Hi).
  - intros y z. unfold creating. rewrite Hfo. intros Hc.
    destruct (inv_creating _ _ _ Hi y z Hc) as (? & ? & ? & u & ? & Hs & ?).
    split_and!; [done..|intros p; by rewrite Hmem|]. exists u. split; [|done].
    apply Hlive; [done|]. by rewrite Hs.
  - done.
  - intros y Hy. destruct (inv_running _ _ _ Hi y Hy) as (? & u & ? & Hs). split; [done|].
    exists u. split; [|done]. apply Hlive; [done|]. by rewrite Hs.
  - destruct (inv_idle _ _ _ Hi) as [u ?]. exists u. by apply Hne.
  - eapply sorted_keys; [apply (Hk InReady)|apply (inv_ready_sorted _ _ _ Hi)].
  - eapply sorted_keys; [apply (Hk InSleep)|apply (inv_sleep_sorted _ _ _ Hi)].
Qed.

(** * Creating a thread *)

(** A page becomes a blocked thread that is in no queue. *)
Lemma inv_new r k k' x t' :
  inv r None k → threads k !! x = None → x ≠ NULL → threads k' = <[x := t']> (threads k) →
  same_core (set_threads (threads k') k) k' →
  magic t' = THREAD_MAGIC → status t' = THREAD_BLOCKED → frames t' = [] →
  inv r (Some x) k'.
Proof.
  intros Hi Hx H0 Et (_ & Er & Ei & Erd & Esl & Es) Hm Hst Hfr. simpl in *.
  assert (∀ y u, threads k !! y = Some u → y ≠ x ∧ threads k' !! y = Some u) as Hold.
  { intros y u Hu. assert (y ≠ x) by congruence. split; [done|]. rewrite Et. by rewrite lookup_insert_ne. }
  assert (∀ p, members k' p = members k p) as Hmem.
  { intros []; simpl; unfold sema_waiters; congruence. }
  assert (∀ y z, creating k' y z ↔ creating k y z) as Hcr.
  { intros y z. unfold creating. rewrite (frames_of_insert k k' x t') by done. case_decide; [|done].
    subst. unfold frames_of. by rewrite Hx, Hfr. }
  assert (∀ p y, y ∈ members k p → same_keys k k' y) as Hk.
  { intros p y Hy. destruct (inv_member _ _ _ Hi p y Hy) as (_ & _ & u & Hu & _).
    unfold same_keys. destruct (Hold y u Hu) as [_ ->]. by rewrite Hu. }
  destruct (inv_idle _ _ _ Hi) as [ui Hui]. destruct (Hold _ _ Hui) as [? Hui'].
  split; rewrite ?Er, ?Ei, ?Erd, ?Esl.
  - intros y u Hu. destruct (decide (y = x)) as [->|Hyx].
    + rewrite Et, lookup_insert_eq in Hu. simplify_eq. rewrite Hfr. split_and!; [done..|].
      unfold located. rewrite Hst. auto.
    + rewrite Et, lookup_insert_ne in Hu by done. destruct (inv_thread _ _ _ Hi y u Hu) as (? & ? & ? & Hl).
      split_and!; [done..|]. eapply (located_ext r (Some x) k); [done..|].
      unfold located in *. destruct (status u); naive_solver.
  - intros p y. rewrite Hmem. intros Hy. destruct (inv_member _ _ _ Hi p y Hy) as (? & _ & u & Hu & ?).
    destruct (Hold y u Hu). split_and!; [done|congruence|]. by exists u.
  - intros p. rewrite Hmem. apply (inv_nodup _ _ _ Hi).
  - intros p q y. rewrite !Hmem. apply (inv_once _ _ _ Hi).
  - intros y z Hc%Hcr. destruct (inv_creating _ _ _ Hi y z Hc) as (? & _ & ? & u & Hu & ?).
    destruct (Hold z u Hu). split_and!; [done|congruence|intros p; by rewrite Hmem|]. by exists u.
  - intros y [= <-]. split; [done|]. exists t'. by rewrite Et, lookup_insert_eq.
  - intros y Hy. destruct (inv_running _ _ _ Hi y Hy) as (? & u & Hu & ?). destruct (Hold y u Hu).
    split; [done|]. by exists u.
  - by exists ui.
  - eapply sorted_keys; [apply (Hk InReady)|apply (inv_ready_sorted _ _ _ Hi)].
  - eapply sorted_keys; [apply (Hk InSleep)|apply (inv_sleep_sorted _ _ _ Hi)].
Qed.

(** The loose thread [x] is one that the running thread [y] creates, or is
    loose again. *)
Lemma inv_creator (L L' : option Z) k k' x y t t' tx :
  inv (Some y) L k → y ≠ idle_thread k → threads k !! y = Some t → threads k' = <[y := t']> (threads k) →
  same_core (set_threads (threads k') k) k' → threads k !! x = Some tx →
  status t' = status t → magic t' = magic t → priority t' = priority t → wakeup_time t' = wakeup_time t →
  frames_ok (idle_thread k) y (frames t') →
  (L = Some x ∧ frames t = [] ∧ L' = None ∧ creates (frames t') x ∧ th_parent tx = y ∧ frames tx = [] ∨
   L = None ∧ creates (frames t) x ∧ L' = Some x ∧ frames t' = []) →
  inv (Some y) L' k'.
Proof.
  intros Hi Hni Hy Et (_ & Er & Ei & Erd & Esl & Es) Hx Est Em Epr Ew Hpl Hcase. simpl in *.
  destruct (inv_running _ _ _ Hi y eq_refl) as (Hrun & u & Hu & Hst). simplify_eq.
  assert (x ≠ running k ∧ status tx = THREAD_BLOCKED ∧ x ≠ idle_thread k ∧ ∀ p, x ∉ members k p) as (Hxy & Hb & Hxi & Hxno).
  { destruct Hcase as [(-> & _)|(_ & Hc & _)].
    - destruct (inv_loose _ _ _ Hi x eq_refl) as (? & u & ? & ?). simplify_eq. split_and!; [congruence|done..|].
      intros p Hp. by destruct (inv_member _ _ _ Hi p x Hp) as (_ & ? & _).
    - destruct (inv_creating _ _ _ Hi (running k) x) as (? & _ & ? & u & ? & ? & _).
      { unfold creating, frames_of. by rewrite Hy. }
      simplify_eq. split_and!; congruence || done. }
  assert (∀ z u, z ≠ running k → threads k' !! z = Some u ↔ threads k !! z = Some u) as Hne.
  { intros z u ?. rewrite Et. by rewrite lookup_insert_ne. }
  assert (∀ p, members k' p = members k p) as Hmem.
  { intros []; simpl; unfold sema_waiters; congruence. }
  assert (∀ z, same_keys k k' z) as Hk by (intros; by eapply (same_keys_insert k k' (running k))).
  assert (∀ w z, z ≠ x → creating k' w z ↔ creating k w z) as Hcr.
  { intros w z Hz. unfold creating. rewrite (frames_of_insert k k' (running k) t') by done.
    case_decide; [subst|done]. unfold frames_of. rewrite Hy. simpl. unfold creates in *.
    destruct Hcase as [(_ & -> & _ & (f & ->) & _)|(_ & (f & ->) & _ & ->)]; naive_solver. }
  assert (∀ z, z ≠ x → L' = Some z ↔ L = Some z) as HL.
  { intros z Hz. naive_solver. }
  assert (∀ z, creating k' z x → L' = None ∧ z = running k ∧ th_parent tx = z ∧ frames tx = []) as Hcx.
  { intros z. unfold creating. rewrite (frames_of_insert k k' (running k) t') by done.
    case_decide; [subst|].
    - intros Hc. destruct Hcase as [(_ & _ & -> & _ & ? & ?)|(_ & _ & _ & E)]; [done|].
      rewrite E in Hc. by destruct Hc as [? ?].
    - intros Hc. exfalso. destruct (inv_creating _ _ _ Hi z x Hc) as (_ & HLx & _ & u & ? & _ & Hpar & _).
      destruct Hcase as [(-> & _)|(_ & Hc' & _)]; [done|].
      destruct (inv_creating _ _ _ Hi (running k) x) as (_ & _ & _ & u' & ? & _ & Hpar' & _).
      { unfold creating, frames_of. by rewrite Hy. }
      simplify_eq. }
  split; rewrite ?Er, ?Ei, ?Erd, ?Esl.
  - intros z u Hz. destruct (decide (z = running k)) as [->|Hzy].
    { rewrite Et, lookup_insert_eq in Hz. simplify_eq. destruct (inv_thread _ _ _ Hi _ _ Hy) as (? & ? & _).
      split_and!; [congruence|done..|]. unfold located. by rewrite Est, Hst. }
    apply Hne in Hz; [|done]. destruct (inv_thread _ _ _ Hi z u Hz) as (? & ? & ? & Hl). split_and!; [done..|].
    unfold located in *. rewrite Ei, Erd, Esl. destruct (decide (z = x)) as [->|Hzx].
    + simplify_eq. rewrite Hb. destruct Hcase as [(_ & _ & _ & Hc & _)|(_ & _ & -> & _)]; [|auto].
      do 4 right. exists (running k). unfold creating. rewrite (frames_of_insert k k' (running k) t') by done.
      by rewrite decide_True.
    + destruct (status u); try done. destruct Hl as [?|[?|[?|[[s Hs]|[w ?]]]]]; [by left|..].
      * right; left. by apply HL.
      * auto.
      * do 3 right; left. exists s. unfold sema_waiters in *. by rewrite Es.
      * do 4 right. exists w. by apply Hcr.
  - intros p z. rewrite Hmem. intros Hz. destruct (inv_member _ _ _ Hi p z Hz) as (? & ? & u & Hu' & Hs & ?).
    assert (z ≠ x) by (intros ->; by destruct (Hxno p)).
    assert (z ≠ running k) by (intros ->; simplify_eq; rewrite Hst in Hs; by destruct p).
    split_and!; [done|by rewrite HL|]. exists u. by rewrite Hne.
  - intros p. rewrite Hmem. apply (inv_nodup _ _ _ Hi).
  - intros p q z. rewrite !Hmem. apply (inv_once _ _ _ Hi).
  - intros w z Hc. destruct (decide (z = x)) as [->|Hzx].
    + destruct (Hcx w Hc) as (-> & ? & ? & ?). split_and!; [done..|intros p; by rewrite Hmem|].
      exists tx. by rewrite Hne.
    + apply Hcr in Hc; [|done]. destruct (inv_creating _ _ _ Hi w z Hc) as (? & ? & ? & u & ? & Hs & ?).
      assert (z ≠ running k) by (intros ->; simplify_eq; congruence).
      split_and!; [done|by rewrite HL|intros p; by rewrite Hmem|]. exists u. by rewrite Hne.
  - intros z Hz. destruct (decide (z = x)) as [->|Hzx]; [split; [done|]; exists tx; by rewrite Hne|].
    apply HL in Hz; [|done]. destruct (inv_loose _ _ _ Hi z Hz) as (? & u & ? & Hs). split; [done|].
    exists u. rewrite Hne; [done|]. intros ->. simplify_eq. congruence.
  - intros z [= <-]. split; [done|]. exists t'. rewrite Et, lookup_insert_eq. by rewrite Est.
  - destruct (inv_idle _ _ _ Hi) as [u ?]. exists u. by rewrite Hne.
  - eapply sorted_keys; [intros; apply Hk|apply (inv_ready_sorted _ _ _ Hi)].
  - eapply sorted_keys; [intros; apply Hk|apply (inv_sleep_sorted _ _ _ Hi)].
Qed.
