(* ===== verification/SchedOps.v ===== *)
(** The operations of [Threads.v] keep the scheduler's invariant; the core
    ones are shown to run through without a failed assertion. *)
From Stdlib Require Import ZArith Lia.
From stdpp Require Import base tactics option list gmap sorting relations.
From S2P Require Import Prelude Threads SchedInv.
From S2P Require KList.

Open Scope Z_scope.

Lemma wp_load_thread x t Q k :
  threads k !! x = Some t → wp (mret t) Q k → wp (load_thread x) Q k.
Proof. intros Hx HQ. unfold load_thread. wp_go. rewrite Hx. by wp_go. Qed.

Lemma wp_upd_thread x f t (Q : unit → kernel → Prop) k :
  threads k !! x = Some t → Q tt (set_threads (<[x := f t]> (threads k)) k) →
  wp (upd_thread x f) Q k.
Proof. intros Hx HQ. unfold upd_thread. wp_unbind. eapply wp_load_thread; [done|]. by wp_go. Qed.

Lemma wp_is_thread x t Q k :
  threads k !! x = Some t → magic t = THREAD_MAGIC → x ≠ NULL → Q true k → wp (is_thread x) Q k.
Proof.
  intros Hx Hm H0 HQ. unfold is_thread. apply Z.eqb_neq in H0. rewrite H0.
  wp_unbind. eapply wp_load_thread; [done|]. wp_go. by rewrite Hm, Z.eqb_refl.
Qed.

Lemma wp_is_thread_inv r L x t Q k :
  inv r L k → threads k !! x = Some t → Q true k → wp (is_thread x) Q k.
Proof.
  intros Hi Hx. destruct (inv_thread _ _ _ Hi x t Hx) as (? & ? & _). by eapply wp_is_thread.
Qed.

Lemma wp_thread_current x L Q k :
  inv (Some x) L k → Q x k → wp thread_current Q k.
Proof.
  intros Hi HQ. destruct (inv_running _ _ _ Hi x eq_refl) as (-> & t & Hx & Hs).
  unfold thread_current, running_thread. wp_go. eapply wp_is_thread_inv; [done..|]. wp_go.
  eapply wp_load_thread; [done|]. wp_go. wp_assert (by rewrite Hs). done.
Qed.

(** * The scheduler *)

(** The order of the run queue: its head has the highest priority. *)
Definition prio (k : kernel) (x : Z) : Z := from_option priority 0 (threads k !! x).

(** What [schedule] leaves alone. *)
Record switched (k k' : kernel) : Prop := {
  sw_intr : intr k' = INTR_OFF;
  sw_external : in_external_intr k' = in_external_intr k;
  sw_semas : semas k' = semas k;
  sw_holders : holders k' = holders k;
  sw_conds : conds k' = conds k;
  sw_sleep : sleep_list k' = sleep_list k;
  sw_call_time : wakeup_call_time k' = wakeup_call_time k;
  sw_ticks : ticks k' = ticks k;
  sw_idle : idle_thread k' = idle_thread k;
  sw_initial : initial_thread k' = initial_thread k;
  sw_tid : next_tid k' = next_tid k;
  sw_frames : ∀ x, frames_of k' x = frames_of k x;
  sw_prio : ∀ x, is_Some (threads k' !! x) → prio k' x = prio k x;
  sw_next : running k' = default (idle_thread k) (head (ready_list k));
  sw_ready : ready_list k' = tail (ready_list k) }.

(** [schedule_tail] after the switch to [next]. *)
Lemma schedule_tail_ok k curr next t tn :
  threads k !! curr = Some t → threads k !! next = Some tn → running k = next → curr ≠ next → curr ≠ NULL →
  intr k = INTR_OFF →
  wp (schedule_tail curr) (λ _ k', let m := <[next := set_status THREAD_RUNNING tn]> (threads k) in
    k' = set_thread_ticks 0 (set_threads m k) ∨
    status t = THREAD_DYING ∧ k' = set_threads (delete curr m) (set_thread_ticks 0 (set_threads m k))) k.
Proof.
  intros Hc Hn Hr Hne H0 Hi. unfold schedule_tail, running_thread, intr_get_level. wp_go.
  wp_assert (by rewrite Hi). rewrite Hr. eapply wp_upd_thread; [done|]. wp_go.
  apply Z.eqb_neq in H0. rewrite H0. wp_unbind.
  eapply (wp_load_thread curr t); [simpl; by rewrite lookup_insert_ne|]. wp_go.
  destruct (bool_decide _ && _) eqn:E; [|by wp_go; left].
  apply andb_true_iff in E as [Hd%bool_decide_eq_true _].
  wp_assert (by apply Z.eqb_neq in Hne; rewrite Hne). unfold palloc_free_page. wp_go. by right.
Qed.

(** The outcome of the choice, whichever thread it is. *)
Lemma schedule_ok k :
  inv None None k → is_Some (threads k !! running k) → intr k = INTR_OFF →
  wp schedule (λ _ k', inv (Some (running k')) None k' ∧ switched k k') k.
Proof.
  intros Hi [t Ht] Hoff.
  set (next := default (idle_thread k) (head (ready_list k))).
  set (k1 := set_ready (tail (ready_list k)) k).
  assert (∃ tn, threads k !! next = Some tn) as [tn Hn].
  { subst next. destruct (ready_list k) as [|x xs] eqn:E; simpl.
    - by apply (inv_idle _ _ _ Hi).
    - destruct (inv_member _ _ _ Hi InReady x) as (_ & _ & u & ? & _); [simpl; rewrite E; by left|]. by exists u. }
  assert (∀ k', threads k' = <[next := set_status THREAD_RUNNING tn]> (threads k) → running k' = next →
    same_core (set_running next (set_threads (threads k') k1)) k' → inv (Some next) None k') as Hpick.
  { intros k' Et Er (_ & _ & Ei & Erd & Esl & Es). simpl in *. subst next.
    destruct (ready_list k) as [|x xs] eqn:E; simpl in *.
    - eapply (inv_pick_idle k k'); try done. congruence.
    - eapply (inv_pick_ready k k'); try done. congruence. }
  destruct (inv_thread _ _ _ Hi _ _ Ht) as (_ & Hr0 & _ & Hl).
  assert (status t ≠ THREAD_RUNNING) as Hs.
  { unfold located in Hl. intros E. by rewrite E in Hl. }
  assert (∀ y k', threads k' = <[next := set_status THREAD_RUNNING tn]> (threads k) →
     frames_of k' y = frames_of k y ∧ prio k' y = prio k y) as Hfo.
  { intros y k' Et. rewrite (frames_of_insert k k' next _ y Et). unfold prio, frames_of. rewrite Et.
    destruct (decide (y = next)) as [->|]; [by rewrite lookup_insert_eq, Hn|by rewrite lookup_insert_ne]. }
  unfold schedule, running_thread, intr_get_level. wp_go. unfold next_thread_to_run. wp_go.
  apply (wp_mono _ (λ a s, a = next ∧ s = k1)).
  { subst next k1. destruct (ready_list k) as [|x xs] eqn:E; wp_go; [|done]. split; [done|].
    destruct k; simpl in *. by subst. }
  intros ? ? [-> ->]. wp_go. wp_assert (by rewrite bool_decide_true).
  eapply wp_load_thread; [done|]. wp_go. wp_assert (by rewrite bool_decide_true).
  destruct (inv_thread _ _ _ Hi _ _ Hn) as (? & ? & _).
  eapply (wp_is_thread next tn); [done..|]. wp_go.
  destruct (Z.eqb_spec (running k) next) as [E|Hne].
  - wp_go. unfold schedule_tail, running_thread, intr_get_level. wp_go. wp_assert (by rewrite bool_decide_true).
    simpl. rewrite E. eapply wp_upd_thread; [done|]. wp_go. split.
    + simpl. rewrite E. by apply Hpick.
    + split; try done; intros y; try intros _; by apply Hfo.
  - unfold switch_threads. wp_go.
    eapply wp_mono; [by eapply (schedule_tail_ok (set_running next k1) (running k) next t tn)|].
    intros [] k'. cbn beta zeta. simpl. set (m := <[next := _]> (threads k)). intros [->|[Hd ->]].
    + split; [by apply Hpick|]. split; try done; intros y; try intros _; by apply Hfo.
    + split.
      * eapply (inv_free _ (set_thread_ticks 0 (set_threads m (set_running next k1))) _ (running k) t);
          [by apply Hpick| |done|done|done]. simpl. subst m. by rewrite lookup_insert_ne.
      * split; try done.
        -- intros y. unfold located in Hl. rewrite Hd in Hl. unfold frames_of. simpl.
           destruct (decide (y = running k)) as [->|].
           ++ rewrite lookup_delete_eq, Ht. simpl. by destruct Hl.
           ++ rewrite lookup_delete_ne by done. by apply (Hfo y (set_threads m k)).
        -- intros y. simpl. unfold prio. simpl. destruct (decide (y = running k)) as [->|].
           ++ rewrite lookup_delete_eq. by intros [].
           ++ rewrite lookup_delete_ne by done. intros _. by apply (Hfo y (set_threads m k)).
Qed.

(** * Blocking and waking *)
Lemma wp_current x t Q k :
  running k = x → threads k !! x = Some t → status t = THREAD_RUNNING → magic t = THREAD_MAGIC → x ≠ NULL →
  Q x k → wp thread_current Q k.
Proof.
  intros <- Hx Hs Hm H0 HQ. unfold thread_current, running_thread. wp_go.
  eapply wp_is_thread; [done..|]. wp_go. eapply wp_load_thread; [done|]. wp_go.
  wp_assert (by rewrite Hs). done.
Qed.

(** Interrupts may be turned on only outside interrupt handlers. *)
Definition calm (k : kernel) : Prop := intr k = INTR_ON → in_external_intr k = false.

Lemma wp_intr_set_level l (Q : intr_level → kernel → Prop) k :
  (l = INTR_ON → in_external_intr k = false) → Q (intr k) (set_intr l k) → wp (intr_set_level l) Q k.
Proof.
  intros Hc HQ. unfold intr_set_level. case_decide.
  - subst. unfold intr_enable, intr_get_level, intr_context. wp_go. wp_assert (by rewrite Hc). done.
  - destruct l; [|done]. unfold intr_disable, intr_get_level. by wp_go.
Qed.

Lemma wp_intr_disable (Q : intr_level → kernel → Prop) k :
  Q (intr k) (set_intr INTR_OFF k) → wp intr_disable Q k.
Proof. intros HQ. unfold intr_disable, intr_get_level. by wp_go. Qed.

Lemma wp_push_frame x f t (Q : unit → kernel → Prop) k :
  running k = x → threads k !! x = Some t →
  Q tt (set_threads (<[x := set_frames (f :: frames t) t]> (threads k)) k) → wp (push_frame f) Q k.
Proof. intros <- Hx HQ. unfold push_frame, running_thread. wp_go. by eapply wp_upd_thread. Qed.

(** The end of every call that blocks: the running thread [x] is already in
    its queue. *)
Lemma thread_block_ok x t k :
  running k = x → threads k !! x = Some t → status t = THREAD_RUNNING → magic t = THREAD_MAGIC → x ≠ NULL →
  in_external_intr k = false → intr k = INTR_OFF →
  let k1 := set_threads (<[x := set_status THREAD_BLOCKED t]> (threads k)) k in
  inv None None k1 →
  wp thread_block (λ _ k', sched_ok k' ∧ switched k1 k') k.
Proof.
  intros Hr Hx Hs Hm H0 Hext Hoff k1 Hi. unfold thread_block, intr_context, intr_get_level. wp_go.
  wp_assert (by rewrite Hext). wp_assert (by rewrite Hoff).
  eapply wp_current; [done..|]. wp_go. eapply wp_upd_thread; [done|].
  apply (schedule_ok k1); [done| |done]. simpl. rewrite Hr, lookup_insert_eq. by eexists.
Qed.

(** [sema_down] from its loop on, on an existing semaphore. *)
Definition blocked_on (x : Z) (t : thread) (s : sema_id) (sm : semaphore) (l : intr_level) (k : kernel) : kernel :=
  set_threads (<[x := set_status THREAD_BLOCKED (set_frames (F_sema_down s l :: frames t) t)]> (threads k))
    (set_semas (<[s := mk_sema (value sm) (waiters sm ++ [x])]> (semas k)) k).

Lemma sema_down_loop_ok x t s sm l k :
  inv (Some x) None k → x ≠ idle_thread k → threads k !! x = Some t → top_calm (frames t) →
  called_by (F_sema_down s l) (frames t) → semas k !! s = Some sm →
  in_external_intr k = false → intr k = INTR_OFF →
  wp (sema_down_loop s l) (λ _ k', sched_ok k' ∧
    if value sm =? 0 then switched (blocked_on x t s sm l k) k'
    else k' = set_intr l (set_semas (<[s := mk_sema (value sm - 1) (waiters sm)]> (semas k)) k)) k.
Proof.
  intros Hi Hni Hx Hcalm Hcall Hs Hext Hoff. destruct (leave_facts k x t Hi Hx) as (Hr & Hst & Hm & _ & _).
  destruct (inv_thread _ _ _ Hi x t Hx) as (_ & H0 & _).
  unfold sema_down_loop, load_sema. wp_go. rewrite Hs. wp_go. destruct (value sm =? 0) eqn:Ev.
  - wp_unbind. eapply wp_current; [done..|]. unfold store_sema. wp_go.
    eapply wp_push_frame; [done|done|]. wp_unbind.
    eapply wp_mono; [eapply (thread_block_ok x (set_frames (F_sema_down s l :: frames t) t)); try done|].
    + simpl. apply lookup_insert_eq.
    + eapply (leave_sema k _ x t Hi Hx); [done|done|done|done|done| |done|done|done].
      unfold left_with. simpl. by rewrite insert_insert_eq.
    + intros [] k'. cbn beta zeta. intros [? Hsw]. split; [done|].
      unfold blocked_on. cbn [threads set_semas set_threads] in Hsw. rewrite insert_insert_eq in Hsw. done.
  - unfold store_sema. wp_go. eapply wp_intr_set_level; [done|]. wp_go. split; [|done].
    simpl. subst x. eapply inv_values; [done| |done]. intros s'.
    erewrite sema_waiters_insert by done. case_decide; [|done]. subst. simpl.
    unfold sema_waiters. by rewrite Hs.
Qed.

(** [thread_unblock] of a thread that is in no queue. *)
Definition unblocked (x : Z) (t : thread) (k : kernel) : kernel :=
  set_threads (<[x := set_status THREAD_READY t]> (threads k))
    (set_ready (KList.Correct.insert_seq (compare_priority k) x (ready_list k)) k).

(** The invariant of a state that differs outside its core. *)
Ltac inv_same :=
  match goal with
  | H : inv ?r ?L ?k |- inv ?r ?L ?k' => solve [apply (inv_core r L k k'); [done|exact H]]
  end.

Lemma kernel_eq k k' :
  threads k = threads k' → running k = running k' → idle_thread k = idle_thread k' →
  initial_thread k = initial_thread k' → ready_list k = ready_list k' → sleep_list k = sleep_list k' →
  wakeup_call_time k = wakeup_call_time k' → semas k = semas k' → holders k = holders k' →
  conds k = conds k' → intr k = intr k' → in_external_intr k = in_external_intr k' →
  yield_on_return k = yield_on_return k' → ticks k = ticks k' → thread_ticks k = thread_ticks k' →
  idle_ticks k = idle_ticks k' → user_ticks k = user_ticks k' → kernel_ticks k = kernel_ticks k' →
  next_tid k = next_tid k' → k = k'.
Proof. destruct k, k'. simpl. intros. by subst. Qed.

(** The goal is [H] up to the way its state is written. *)
Ltac same_kernel H :=
  lazymatch type of H with
  | ?Q ?a ?k2 => lazymatch goal with
    | |- Q a ?k1 => replace k1 with k2; [exact H|apply kernel_eq; try done; simpl]
    end
  end.

Lemma inv_unblocked r x t k :
  inv r (Some x) k → threads k !! x = Some t → inv r None (unblocked x t k).
Proof. intros Hi Hx. by eapply (inv_unblock r k). Qed.

Lemma thread_unblock_ok r x k (Q : unit → kernel → Prop) :
  inv r (Some x) k → calm k →
  (∀ t, threads k !! x = Some t → inv r None (unblocked x t k) → Q tt (unblocked x t k)) →
  wp (thread_unblock x) Q k.
Proof.
  intros Hi Hc HQ. destruct (inv_loose _ _ _ Hi x eq_refl) as (_ & t & Hx & Hs).
  unfold thread_unblock. wp_unbind. eapply wp_is_thread_inv; [done..|]. wp_go.
  eapply wp_intr_disable. wp_go. eapply wp_load_thread; [done|]. wp_go. wp_assert (by rewrite Hs).
  unfold ready_insert. wp_go. eapply wp_upd_thread; [done|]. wp_go.
  eapply wp_intr_set_level; [done|]. wp_go. simpl.
  specialize (HQ t Hx (inv_unblocked _ _ _ _ Hi Hx)).
  same_kernel HQ.
Qed.

(** [sema_up]. *)
Definition upped (s : sema_id) (sm : semaphore) (k : kernel) : kernel :=
  match waiters sm with
  | [] => set_semas (<[s := mk_sema (u32 (value sm + 1)) []]> (semas k)) k
  | x :: ws =>
      let k1 := set_semas (<[s := mk_sema (u32 (value sm + 1)) ws]> (semas k)) k in
      match threads k !! x with Some t => unblocked x t k1 | None => k1 end
  end.

Lemma upped_inv r s sm k :
  inv r None k → semas k !! s = Some sm → inv r None (upped s sm k).
Proof.
  intros Hi Hs. unfold upped. destruct (waiters sm) as [|x ws] eqn:Ew.
  - eapply inv_values; [done| |done]. intros s'. erewrite sema_waiters_insert by done.
    case_decide; [subst|done]. unfold sema_waiters. rewrite Hs. simpl. by rewrite Ew.
  - assert (x ∈ members k (InSema s)) as Hin.
    { simpl. unfold sema_waiters. rewrite Hs. simpl. rewrite Ew. by left. }
    destruct (inv_member _ _ _ Hi (InSema s) x Hin) as (_ & _ & t & Hx & _). rewrite Hx.
    apply inv_unblocked; [|done]. by eapply (inv_pop_sema r k).
Qed.

Lemma sema_up_ok r s sm k (Q : unit → kernel → Prop) :
  inv r None k → semas k !! s = Some sm → sema_nonnull s = true → calm k →
  (inv r None (upped s sm k) → Q tt (upped s sm k)) → wp (sema_up s) Q k.
Proof.
  intros Hi Hs H0 Hc HQ. pose proof (upped_inv _ _ _ _ Hi Hs) as Hi'. specialize (HQ Hi').
  unfold sema_up. wp_assert (by rewrite H0). eapply wp_intr_disable.
  unfold load_sema, store_sema. wp_go. simpl. rewrite Hs. wp_go. unfold upped in *.
  destruct (waiters sm) as [|x ws] eqn:Ew.
  - wp_go. simpl. rewrite Hs. wp_go. eapply wp_intr_set_level; [done|]. wp_go. simpl. rewrite Ew. by destruct k.
  - assert (x ∈ members k (InSema s)) as Hin.
    { simpl. unfold sema_waiters. rewrite Hs. simpl. rewrite Ew. by left. }
    destruct (inv_member _ _ _ Hi (InSema s) x Hin) as (_ & _ & t & Hx & _). rewrite Hx in *.
    wp_go. eapply (thread_unblock_ok r).
    + by eapply (inv_pop_sema r k).
    + done.
    + simpl. intros t' Ht' _. simplify_eq. unfold load_sema. wp_go. simpl. rewrite lookup_insert_eq. wp_go.
      eapply wp_intr_set_level; [done|]. wp_go. simpl.
      same_kernel HQ. by rewrite insert_insert_eq.
Qed.

(** [thread_yield]. *)
Definition yielded (x : Z) (t : thread) (k : kernel) : kernel :=
  set_threads (<[x := set_status THREAD_READY (set_frames (F_set_level (intr k) :: frames t) t)]> (threads k))
    (set_ready (if x =? idle_thread k then ready_list k
                else KList.Correct.insert_seq (compare_priority k) x (ready_list k))
      (set_intr INTR_OFF k)).

Lemma yielded_inv x t k :
  inv (Some x) None k → threads k !! x = Some t → top_calm (frames t) → inv None None (yielded x t k).
Proof.
  intros Hi Hx Hcalm. destruct (leave_facts k x t Hi Hx) as (Hr & Hst & Hm & Hpl & _).
  unfold yielded. destruct (Z.eqb_spec x (idle_thread k)) as [E|E].
  - eapply (leave_none k _ x t Hi Hx); try done.
    + split_and!; [by apply common_ok|by right|done..].
    + intros z. by apply creates_cons.
  - by eapply (leave_ready k _ x t Hi Hx).
Qed.

Lemma thread_yield_ok x t k :
  inv (Some x) None k → threads k !! x = Some t → top_calm (frames t) → in_external_intr k = false →
  wp thread_yield (λ _ k', sched_ok k' ∧ switched (yielded x t k) k') k.
Proof.
  intros Hi Hx Hcalm Hext. destruct (leave_facts k x t Hi Hx) as (Hr & _).
  pose proof (yielded_inv x t k Hi Hx Hcalm) as Hi'.
  unfold thread_yield. wp_unbind. eapply wp_thread_current; [done|]. unfold intr_context. wp_go.
  wp_assert (by rewrite Hext). eapply wp_intr_disable. wp_go.
  apply (wp_mono _ (λ _ s, s = set_ready (if x =? idle_thread k then ready_list k
                else KList.Correct.insert_seq (compare_priority k) x (ready_list k)) (set_intr INTR_OFF k))).
  { simpl. destruct (x =? idle_thread k); [wp_go; by destruct k|]. unfold ready_insert. by wp_go. }
  intros _ ? ->. wp_unbind. eapply wp_upd_thread; [done|]. wp_unbind.
  eapply wp_push_frame; [done|simpl; apply lookup_insert_eq|]. simpl. rewrite insert_insert_eq.
  apply (schedule_ok (yielded x t k)); [done| |done]. simpl. subst x. rewrite lookup_insert_eq. by eexists.
Qed.

(** [thread_sleep], [thread_exit] and the idle thread's block. *)
Definition slept (x : Z) (t : thread) (k : kernel) : kernel :=
  set_threads (<[x := set_status THREAD_BLOCKED (set_frames (F_set_level (intr k) :: frames t) t)]> (threads k))
    (set_sleep (KList.Correct.insert_seq (compare_wakeup_time k) x (sleep_list k)) (set_intr INTR_OFF k)).

Lemma thread_sleep_ok x t k :
  inv (Some x) None k → x ≠ idle_thread k → threads k !! x = Some t → top_calm (frames t) →
  in_external_intr k = false →
  wp thread_sleep (λ _ k', sched_ok k' ∧ switched (slept x t k) k') k.
Proof.
  intros Hi Hni Hx Hcalm Hext. destruct (leave_facts k x t Hi Hx) as (Hr & Hst & Hm & Hpl & _).
  destruct (inv_thread _ _ _ Hi x t Hx) as (_ & H0 & _).
  unfold thread_sleep. wp_unbind. eapply wp_thread_current; [done|]. unfold intr_context. wp_go.
  wp_assert (by rewrite Hext). eapply wp_intr_disable. unfold sleep_insert. wp_go.
  eapply wp_push_frame; [done|done|]. wp_unbind.
  eapply wp_mono; [eapply (thread_block_ok x); simpl; [done|apply lookup_insert_eq|done..|]|].
  - by eapply (leave_sleep k _ x t Hi Hx); [done|done|done|unfold left_with; simpl; by rewrite insert_insert_eq|..].
  - intros [] k'. cbn beta zeta. simpl. rewrite insert_insert_eq. done.
Qed.

Definition exited (x : Z) (t : thread) (k : kernel) : kernel :=
  set_threads (<[x := set_status THREAD_DYING t]> (threads k)) (set_intr INTR_OFF k).

Lemma thread_exit_ok x t k :
  inv (Some x) None k → x ≠ idle_thread k → threads k !! x = Some t → frames t = [] →
  in_external_intr k = false →
  wp thread_exit (λ _ k', sched_ok k' ∧ switched (exited x t k) k') k.
Proof.
  intros Hi Hni Hx Hf Hext. destruct (leave_facts k x t Hi Hx) as (Hr & _).
  unfold thread_exit, intr_context. wp_go. wp_assert (by rewrite Hext). eapply wp_intr_disable. wp_unbind.
  eapply (wp_thread_current x None); [inv_same|]. wp_unbind. eapply wp_upd_thread; [done|].
  apply (schedule_ok (exited x t k)); [|simpl; subst x; rewrite lookup_insert_eq; by eexists|done].
  eapply (leave_none k (exited x t k) x t Hi Hx eq_refl THREAD_DYING []); try done.
  - unfold left_with. simpl. do 2 f_equal. destruct t; simpl in *. by subst.
  - by rewrite Hf.
Qed.

Definition idled (x : Z) (t : thread) (k : kernel) : kernel :=
  set_threads (<[x := set_status THREAD_BLOCKED (set_frames (F_halt :: frames t) t)]> (threads k))
    (set_intr INTR_OFF k).

Lemma idle_block_ok x t k :
  inv (Some x) None k → x = idle_thread k → threads k !! x = Some t → top_calm (frames t) →
  in_external_intr k = false →
  wp idle_block (λ _ k', sched_ok k' ∧ switched (idled x t k) k') k.
Proof.
  intros Hi Hni Hx Hcalm Hext. destruct (leave_facts k x t Hi Hx) as (Hr & Hst & Hm & Hpl & _).
  destruct (inv_thread _ _ _ Hi x t Hx) as (_ & H0 & _).
  unfold idle_block. wp_unbind. eapply wp_intr_disable. wp_unbind.
  eapply wp_push_frame; [done|done|]. wp_unbind.
  eapply wp_mono; [eapply (thread_block_ok x); simpl; [done|apply lookup_insert_eq|done..|]|].
  - eapply leave_none with (st := THREAD_BLOCKED) (fs := F_halt :: frames t); [exact Hi|exact Hx|..];
      try done; simpl.
    + unfold left_with. simpl. by rewrite insert_insert_eq.
    + split_and!; [rewrite Hni; by apply idle_ok|by right|done..].
    + intros z. by apply creates_cons.
    + split; [done|by eexists].
  - intros [] k'. cbn beta zeta. simpl. rewrite insert_insert_eq. done.
Qed.

(** * The timer *)
Definition wakeup_of (k : kernel) (x : Z) : Z := from_option wakeup_time 0 (threads k !! x).

(** What waking the sleepers that are due at [now] changes. *)
Record wakes (now : Z) (k k' : kernel) : Prop := {
  wk_sleep : sleep_list k' = filter (λ x, now < wakeup_of k x) (sleep_list k);
  wk_ready : ready_list k' ≡ₚ filter (λ x, wakeup_of k x ≤ now) (sleep_list k) ++ ready_list k;
  wk_frames : ∀ x, frames_of k' x = frames_of k x;
  wk_prio : ∀ x, prio k' x = prio k x;
  wk_wakeup : ∀ x, wakeup_of k' x = wakeup_of k x;
  wk_call : wakeup_call_time k' ≤ wakeup_call_time k;
  wk_same : running k' = running k ∧ idle_thread k' = idle_thread k ∧ initial_thread k' = initial_thread k ∧
    semas k' = semas k ∧ holders k' = holders k ∧ conds k' = conds k ∧ intr k' = intr k ∧
    in_external_intr k' = in_external_intr k ∧ yield_on_return k' = yield_on_return k ∧ ticks k' = ticks k ∧
    next_tid k' = next_tid k }.

Lemma compare_wakeup_of k a b :
  is_Some (threads k !! a) → is_Some (threads k !! b) →
  compare_wakeup_time k a b = (wakeup_of k a <? wakeup_of k b).
Proof. unfold compare_wakeup_time, wakeup_of. by intros [x ->] [y ->]. Qed.

Lemma compare_prio_of k a b :
  is_Some (threads k !! a) → is_Some (threads k !! b) →
  compare_priority k a b = (prio k b <? prio k a).
Proof. unfold compare_priority, prio. by intros [x ->] [y ->]. Qed.

Lemma inv_member_some r L k p x : inv r L k → x ∈ members k p → is_Some (threads k !! x).
Proof. intros Hi Hp. destruct (inv_member _ _ _ Hi p x Hp) as (_ & _ & t & ? & _). by exists t. Qed.

(** The sleepers in the order of their times, the ready in the order of their
    priorities. *)
Lemma sleep_strongly_sorted r L k :
  inv r L k → StronglySorted (λ a b, wakeup_of k a ≤ wakeup_of k b) (sleep_list k).
Proof.
  intros Hi. apply Sorted_StronglySorted; [intros a b c; simpl; lia|].
  eapply Sorted_agree; [|apply (inv_sleep_sorted _ _ _ Hi)]. intros a b Ha Hb. unfold KList.Correct.ord.
  rewrite compare_wakeup_of by (by eapply (inv_member_some _ _ _ InSleep)). lia.
Qed.

Lemma ready_strongly_sorted r L k :
  inv r L k → StronglySorted (λ a b, prio k b ≤ prio k a) (ready_list k).
Proof.
  intros Hi. apply Sorted_StronglySorted; [intros a b c; simpl; lia|].
  eapply Sorted_agree; [|apply (inv_ready_sorted _ _ _ Hi)]. intros a b Ha Hb. unfold KList.Correct.ord.
  rewrite compare_prio_of by (by eapply (inv_member_some _ _ _ InReady)). lia.
Qed.

(** A thread is queued behind the ready threads of its own priority. *)
Lemma queued_behind k x xs :
  is_Some (threads k !! x) → (∀ y, y ∈ xs → is_Some (threads k !! y)) →
  StronglySorted (λ a b, prio k b ≤ prio k a) xs →
  ∃ before after, xs = before ++ after ∧
    KList.Correct.insert_seq (compare_priority k) x xs = before ++ x :: after ∧
    (∀ y, y ∈ before → prio k x ≤ prio k y) ∧ (∀ y, y ∈ after → prio k y < prio k x).
Proof.
  intros Hx. induction xs as [|z xs IH]; intros Hin Hs; simpl.
  { exists [], []. split_and!; [done..| |]; by intros y ?%not_elem_of_nil. }
  apply StronglySorted_inv in Hs as [Hs Hall]. rewrite Forall_forall in Hall.
  rewrite compare_prio_of by (done || apply Hin; by left).
  destruct (Z.ltb_spec (prio k z) (prio k x)) as [Hlt|Hge].
  - exists [], (z :: xs). split_and!; [done..|by intros y ?%not_elem_of_nil|].
    intros y [->|Hy]%elem_of_cons; [done|]. specialize (Hall y Hy). lia.
  - destruct IH as (before & after & -> & -> & Hb & Ha); [intros; apply Hin; by right|done|].
    exists (z :: before), after. split_and!; [done..| |done].
    intros y [->|Hy]%elem_of_cons; [lia|auto].
Qed.

Lemma unblocked_same x t k :
  threads k !! x = Some t → ∀ y, frames_of (unblocked x t k) y = frames_of k y ∧
    prio (unblocked x t k) y = prio k y ∧ wakeup_of (unblocked x t k) y = wakeup_of k y.
Proof.
  intros Hx y. unfold frames_of, prio, wakeup_of, unblocked. simpl.
  destruct (decide (y = x)) as [->|]; [by rewrite lookup_insert_eq, Hx|by rewrite lookup_insert_ne].
Qed.

Lemma wakes_nothing now k c :
  StronglySorted (λ a b, wakeup_of k a ≤ wakeup_of k b) (sleep_list k) →
  match sleep_list k with [] => True | x :: _ => now < wakeup_of k x end → c ≤ wakeup_call_time k →
  wakes now k (set_call_time c k).
Proof.
  intros Hs Hh Hc.
  assert (Forall (λ x, now < wakeup_of k x) (sleep_list k)) as Hall.
  { destruct Hs as [|x l _ Hx]; [done|]. constructor; [done|]. eapply Forall_impl; [done|]. simpl. lia. }
  split; try done.
  - simpl. by rewrite filter_all.
  - simpl. rewrite filter_none; [done|]. eapply Forall_impl; [done|]. simpl. lia.
Qed.

Lemma wakeup_loop_ok r now es k :
  inv r None k → sleep_list k = es → calm k →
  wp (wakeup_loop es now) (λ _ k', inv r None k' ∧ wakes now k k') k.
Proof.
  revert k. induction es as [|e es IH]; intros k Hi Hes Hc; simpl.
  { wp_go. split; [done|]. replace k with (set_call_time (wakeup_call_time k) k) at 2 by by destruct k.
    apply wakes_nothing; [by eapply sleep_strongly_sorted|by rewrite Hes|done]. }
  assert (e ∈ members k InSleep) as He by (simpl; rewrite Hes; by left).
  destruct (inv_member _ _ _ Hi InSleep e He) as (_ & _ & t & Ht & _).
  pose proof (inv_nodup _ _ _ Hi InSleep) as Hnd. simpl in Hnd. rewrite Hes, NoDup_cons in Hnd.
  wp_unbind. eapply wp_load_thread; [done|]. wp_go.
  assert (wakeup_of k e = wakeup_time t) as Ew by (unfold wakeup_of; by rewrite Ht).
  destruct (Z.leb_spec (wakeup_time t) now) as [Hle|Hlt].
  - unfold sleep_remove. wp_go.
    assert (filter (.≠ e) (sleep_list k) = es) as Efil.
    { rewrite Hes, filter_cons, decide_False by (intros Hx; by apply Hx). apply filter_all.
      apply Forall_forall. intros y Hy ->. by destruct Hnd. }
    rewrite Efil. eapply (thread_unblock_ok r); [by eapply (inv_pop_sleep r k)|done|].
    simpl. intros u Hu Hi1. assert (u = t) as -> by congruence.
    eapply wp_mono; [apply (IH _ Hi1); done|]. intros [] k' [Hi' Hw]. split; [done|].
    assert (∀ y, wakeup_of (unblocked e t (set_sleep es k)) y = wakeup_of k y) as Hwk.
    { intros y. by destruct (unblocked_same e t (set_sleep es k) Ht y) as (_ & _ & ->). }
    destruct Hw as [H1 H2 H3 H4 H5 H6 H7]. split.
    + rewrite H1, Hes, filter_cons, decide_False by lia. simpl. apply list_filter_iff. intros y. by rewrite Hwk.
    + rewrite H2, Hes, filter_cons, decide_True by lia. simpl.
      rewrite (KList.Correct.insert_seq_perm _ e), Permutation_middle. f_equiv.
      erewrite list_filter_iff; [done|]. intros y. simpl. by rewrite Hwk.
    + intros y. rewrite H3. by destruct (unblocked_same e t (set_sleep es k) Ht y).
    + intros y. rewrite H4. by destruct (unblocked_same e t (set_sleep es k) Ht y) as (_ & -> & _).
    + intros y. by rewrite H5, Hwk.
    + done.
    + done.
  - unfold update_wakeup_call_time. wp_go.
    assert (∀ c, c ≤ wakeup_call_time k → wakes now k (set_call_time c k)) as Hno.
    { intros c Hcc. apply wakes_nothing; [by eapply sleep_strongly_sorted|rewrite Hes; lia|done]. }
    destruct (Z.ltb_spec (wakeup_time t) (wakeup_call_time k)) as [Hl|Hl]; wp_go.
    + split; [inv_same|]. apply Hno. lia.
    + split; [done|]. specialize (Hno (wakeup_call_time k) ltac:(lia)). by destruct k.
Qed.

Lemma thread_wakeup_ok r now k :
  inv r None k → calm k → wp (thread_wakeup now) (λ _ k', inv r None k' ∧ wakes now k k') k.
Proof.
  intros Hi Hc. unfold thread_wakeup. wp_go.
  eapply wp_mono; [by apply (wakeup_loop_ok r)|]. intros [] k1 [Hi1 Hw]. wp_go.
  destruct (sleep_list k1) eqn:E; [|by wp_go]. unfold update_wakeup_call_time. wp_go.
  destruct (Z.ltb_spec INT64_MAX (wakeup_call_time k1)) as [Hl|Hl]; wp_go; [|done].
  split; [inv_same|]. destruct Hw as [H1 H2 H3 H4 H5 H6 H7]. split; try done. simpl. lia.
Qed.

(** A tick of the clock only counts, and asks for a switch at the end of the
    time slice. *)
Definition ticked (k k' : kernel) : Prop :=
  same_core k k' ∧ initial_thread k' = initial_thread k ∧ holders k' = holders k ∧ conds k' = conds k ∧
  wakeup_call_time k' = wakeup_call_time k ∧ intr k' = intr k ∧ in_external_intr k' = in_external_intr k ∧
  ticks k' = ticks k ∧ next_tid k' = next_tid k ∧
  (yield_on_return k' = true ↔ yield_on_return k = true ∨ TIME_SLICE ≤ u32 (thread_ticks k + 1)).

Lemma thread_tick_ok x k :
  inv (Some x) None k → in_external_intr k = true → wp thread_tick (λ _ k', ticked k k') k.
Proof.
  intros Hi Hext. destruct (inv_running _ _ _ Hi x eq_refl) as (_ & t & Ht & _).
  unfold thread_tick. wp_unbind. eapply wp_thread_current; [done|]. wp_go.
  eapply wp_load_thread; [done|]. wp_go.
  apply (wp_mono _ (λ _ s, ∃ i u n, s = set_stats i u n k)).
  { destruct (x =? idle_thread k); [wp_go; eauto|]. destruct (negb _); wp_go; eauto. }
  intros [] ? (i & u & n & ->). wp_go.
  destruct (Z.leb_spec TIME_SLICE (u32 (thread_ticks k + 1))).
  - unfold intr_yield_on_return, intr_context. wp_go. wp_assert done. unfold ticked. simpl.
    split_and!; try done. naive_solver.
  - wp_go. unfold ticked. simpl. split_and!; try done. naive_solver lia.
Qed.

(** The handler up to the switch: the clock advances and the due sleepers are
    woken. *)
Definition timer_woken (k k' : kernel) : Prop :=
  ∃ k1, ticked (set_ticks (ticks k + 1) k) k1 ∧
    if wakeup_call_time k <=? ticks k + 1 then wakes (ticks k + 1) k1 k' else k' = k1.

Lemma timer_woken_same k k' : timer_woken k k' →
  intr k' = intr k ∧ in_external_intr k' = in_external_intr k ∧ running k' = running k ∧
  idle_thread k' = idle_thread k ∧ initial_thread k' = initial_thread k ∧
  semas k' = semas k ∧ holders k' = holders k ∧ conds k' = conds k ∧ ticks k' = ticks k + 1 ∧
  next_tid k' = next_tid k ∧ ∀ x, frames_of k' x = frames_of k x.
Proof.
  intros (k1 & ((Et & Er & Ei & Erd & Esl & Es) & ? & ? & ? & ? & ? & ? & ? & ? & _) & Hk). simpl in *.
  assert (∀ x, frames_of k1 x = frames_of k x) as Hf by (intros x; unfold frames_of; by rewrite Et).
  destruct (_ <=? _); [|subst; split_and!; try done].
  destruct Hk as [_ _ Hf' _ _ _ (? & ? & ? & ? & ? & ? & ? & ? & ? & ? & ?)].
  split_and!; try congruence.
Qed.

Lemma int64_ok z (Q : Z → kernel → Prop) k : - 2 ^ 63 ≤ z < 2 ^ 63 → Q z k → wp (int64 z) Q k.
Proof.
  intros Hz HQ. unfold int64. rewrite (proj2 (andb_true_iff _ _)) by lia. by wp_go.
Qed.

Lemma timer_interrupt_ok x k :
  inv (Some x) None k → in_external_intr k = true → intr k = INTR_OFF → - 2 ^ 63 ≤ ticks k + 1 < 2 ^ 63 →
  wp timer_interrupt (λ _ k', inv (Some x) None k' ∧ timer_woken k k') k.
Proof.
  intros Hi Hext Hoff Ht. unfold timer_interrupt. wp_go. eapply int64_ok; [done|]. wp_go.
  eapply wp_mono; [eapply (thread_tick_ok x); [inv_same|done]|].
  intros [] k1 Hk1. unfold get_wakeup_call_time. wp_go.
  assert (inv (Some x) None k1) as Hi1 by (eapply inv_core; [apply Hk1|inv_same]).
  assert (wakeup_call_time k1 = wakeup_call_time k) as -> by apply Hk1.
  assert (intr k1 = INTR_OFF) as Hoff1 by (rewrite <-Hoff; apply Hk1).
  destruct (wakeup_call_time k <=? ticks k + 1) eqn:E.
  - eapply wp_mono; [eapply (thread_wakeup_ok (Some x)); [done|]|].
    { intros Hon. congruence. }
    intros [] k2 [? ?]. split; [done|]. exists k1. by rewrite E.
  - wp_go. split; [done|]. exists k1. by rewrite E.
Qed.

(** The interrupted state as the handler sees it. *)
Definition entered (t : thread) (k : kernel) : kernel :=
  set_external true false (set_intr INTR_OFF
    (set_threads (<[running k := set_frames (F_iret INTR_ON :: frames t) t]> (threads k)) k)).

Lemma interrupt_ok k t :
  sched_ok k → threads k !! running k = Some t → top_calm (frames t) → in_external_intr k = false →
  - 2 ^ 63 ≤ ticks k + 1 < 2 ^ 63 →
  wp interrupt (λ _ k', sched_ok k' ∧ in_external_intr k' = false ∧
    ∃ k1, timer_woken (entered t k) k1 ∧
      if yield_on_return k1 then
        ∃ t1, threads k1 !! running k = Some t1 ∧ switched (yielded (running k) t1 (set_external false true k1)) k'
      else k' = set_external false false k1) k.
Proof.
  intros Hi Ht Hcalm Hext Htk. unfold interrupt. wp_unbind. eapply wp_push_frame; [done|done|]. wp_go.
  unfold intr_handler, intr_get_level, intr_context. wp_go. wp_assert done. wp_assert (simpl; by rewrite Hext).
  assert (inv (Some (running k)) None (entered t k)) as Hi1.
  { destruct (leave_facts k (running k) t Hi Ht) as (_ & _ & ? & ? & _).
    eapply (inv_upd_running k _ (running k) t); try done; simpl.
    - split_and!; [by apply common_ok|by right|done..].
    - intros z. by apply creates_cons. }
  eapply wp_mono; [by apply (timer_interrupt_ok (running k) (entered t k))|].
  intros [] k1 [Hi2 Hw]. wp_go.
  destruct (timer_woken_same _ _ Hw) as (Hoff & He & Hr & _ & _ & _ & _ & _ & _ & _ & Hfr). simpl in *.
  wp_assert (by rewrite Hoff). wp_assert (by rewrite He).
  destruct (yield_on_return k1) eqn:Ey.
  - assert (inv (Some (running k)) None (set_external false true k1)) as Hi3 by inv_same.
    destruct (inv_running _ _ _ Hi3 (running k) eq_refl) as (_ & t1 & Ht1 & _).
    assert (top_calm (frames t1)) as Hcalm1.
    { specialize (Hfr (running k)). unfold frames_of in Hfr. simpl in *.
      rewrite Ht1, lookup_insert_eq in Hfr. simpl in Hfr. by rewrite Hfr. }
    eapply wp_mono; [by apply (thread_yield_ok (running k) t1)|].
    intros [] k' [Hok Hsw]. split_and!; [done|by rewrite (sw_external _ _ Hsw)|].
    exists k1. split; [done|]. rewrite Ey. by exists t1.
  - wp_go. split_and!; [simpl; rewrite Hr; inv_same|done|]. exists k1. split; [done|]. by rewrite Ey.
Qed.
