(* ===== verification/SchedSteps.v ===== *)
(** Every step of the system keeps the scheduler's invariant, and is made of
    a few kinds of actions on the semaphores and locks.  From these actions
    follow that no wake-up is lost and that locks exclude. *)
From Stdlib Require Import ZArith Lia.
From stdpp Require Import base tactics option list gmap sorting relations.
From S2P Require Import Prelude Threads SchedInv SchedOps.
From S2P Require KList.

Open Scope Z_scope.

(** * Partial correctness: [Q] holds if the command returns. *)
Definition wlp {S A} (m : M S A) (Q : A → S → Prop) (s : S) : Prop :=
  ∀ a s', m s = Ok (a, s') → Q a s'.

Section wlp.
Context {S : Type}.
Implicit Types s : S.

Lemma wlp_wp {A} (m : M S A) Q s : wp m Q s → wlp m Q s.
Proof. intros (a & s' & E & HQ)%wp_ok ?? E'. rewrite E in E'. by simplify_eq. Qed.
Lemma wlp_mono {A} (m : M S A) (P Q : A → S → Prop) s :
  wlp m P s → (∀ a s', P a s' → Q a s') → wlp m Q s.
Proof. intros Hm HPQ a s' E. by apply HPQ, Hm. Qed.
Lemma wlp_bind {A B} (m : M S A) (k : A → M S B) Q s :
  wlp m (λ a s', wlp (k a) Q s') s → wlp (m ≫= k) Q s.
Proof.
  intros Hm b s2. unfold mbind, M_bind. destruct (m s) as [[a s']| | |] eqn:E; [|done..].
  by apply Hm.
Qed.
Lemma wlp_ret {A} (a : A) (Q : A → S → Prop) s : Q a s → wlp (mret a) Q s.
Proof. by intros HQ ?? [= <- <-]. Qed.
Lemma wlp_get (Q : S → S → Prop) s : Q s s → wlp get Q s.
Proof. by intros HQ ?? [= <- <-]. Qed.
Lemma wlp_gets {A} (f : S → A) Q s : Q (f s) s → wlp (gets f) Q s.
Proof. by intros HQ ?? [= <- <-]. Qed.
Lemma wlp_modify f (Q : unit → S → Prop) s : Q tt (f s) → wlp (modify f) Q s.
Proof. by intros HQ ?? [= <- <-]. Qed.
Lemma wlp_ASSERT b (Q : unit → S → Prop) s : (b = true → Q tt s) → wlp (ASSERT b) Q s.
Proof. destruct b; [|done]. by intros HQ ?? [= <- <-]; auto. Qed.
Lemma wlp_deref {A} (o : option A) (Q : A → S → Prop) s :
  (∀ a, o = Some a → Q a s) → wlp (deref o) Q s.
Proof. destruct o; [|done]. by intros HQ ?? [= <- <-]; auto. Qed.
Lemma wlp_undef {A} (Q : A → S → Prop) s : wlp undef Q s.
Proof. by intros ?? ?. Qed.
End wlp.
#[global] Opaque wlp.

(** Runs the primitives at the front; what an [ASSERT] or a read tells is
    introduced. *)
Ltac wlp_go :=
  cbn beta;
  repeat (lazymatch goal with
  | |- wlp (mbind _ _) _ _ => apply wlp_bind
  | |- wlp (mret _) _ _ => apply wlp_ret
  | |- wlp get _ _ => apply wlp_get
  | |- wlp (gets _) _ _ => apply wlp_gets
  | |- wlp (modify _) _ _ => apply wlp_modify
  | |- wlp (ASSERT _) _ _ => apply wlp_ASSERT; intros ?
  | |- wlp (deref _) _ _ => apply wlp_deref; intros ? ?
  end; cbn beta).

(** * Actions *)

(** How many times a thread that stands at [fs] has claimed lock [l]: it took
    the semaphore and has not set the holder yet, or reset the holder and has
    not raised the semaphore yet. *)
Definition claim (l : Z) (f : frame) : nat :=
  match f with
  | F_released l' | F_acquired l' => if decide (l' = l) then 1 else 0
  | _ => 0
  end.
Definition claims (l : Z) (fs : list frame) : nat := sum_list_with (claim l) fs.

(** A thread that waits for the lock's semaphore has not taken it. *)
Definition tok (l : Z) (fs : list frame) : nat :=
  match fs with
  | F_sema_down (S_lock _) _ :: F_acquired _ :: fs' => claims l fs'
  | _ => claims l fs
  end.

Definition others_same (x : Z) (k k' : kernel) : Prop := ∀ y, y ≠ x → frames_of k' y = frames_of k y.
Definition at_down (k : kernel) (s : sema_id) (x : Z) : Prop := ∃ l fs, frames_of k x = F_sema_down s l :: fs.
Definition lock_unit (s : sema_id) (l : Z) : nat := if decide (s = S_lock l) then 1 else 0.

Inductive act (k k' : kernel) : Prop :=
| act_frames x :
    others_same x k k' → semas k' = semas k → holders k' = holders k →
    top_calm (frames_of k x) → (∀ l, tok l (frames_of k' x) = tok l (frames_of k x)) → act k k'
| act_same :
    (∀ y, frames_of k' y = frames_of k y) → semas k' = semas k → holders k' = holders k → act k k'
| act_take x s sm :
    others_same x k k' → holders k' = holders k → semas k !! s = Some sm → value sm ≠ 0 →
    semas k' = <[s := mk_sema (value sm - 1) (waiters sm)]> (semas k) →
    top_calm (frames_of k x) ∨ at_down k s x ∧ x ∉ waiters sm →
    (∀ l, tok l (frames_of k' x) = tok l (frames_of k x) + lock_unit s l)%nat → act k k'
| act_wait x s sm :
    others_same x k k' → holders k' = holders k → semas k !! s = Some sm → value sm = 0 →
    semas k' = <[s := mk_sema 0 (waiters sm ++ [x])]> (semas k) →
    top_calm (frames_of k x) ∨ at_down k s x → x ∉ waiters sm → at_down k' s x →
    (∀ l, tok l (frames_of k' x) = tok l (frames_of k x)) → act k k'
| act_up x s sm :
    others_same x k k' → holders k' = holders k → semas k !! s = Some sm →
    semas k' = <[s := mk_sema (u32 (value sm + 1)) (tail (waiters sm))]> (semas k) →
    top_calm (frames_of k x) →
    (∀ l, tok l (frames_of k x) = tok l (frames_of k' x) + lock_unit s l)%nat → act k k'
| act_hold x l h :
    others_same x k k' → semas k' = semas k → holders k !! l = Some h →
    holders k' = <[l := x]> (holders k) → x ≠ NULL → top_calm (frames_of k x) →
    (∀ l', tok l' (frames_of k x) = tok l' (frames_of k' x) + if decide (l' = l) then 1 else 0)%nat → act k k'
| act_release x l :
    others_same x k k' → semas k' = semas k → holders k !! l = Some x →
    holders k' = <[l := NULL]> (holders k) → x ≠ NULL → top_calm (frames_of k x) →
    (∀ l', tok l' (frames_of k' x) = tok l' (frames_of k x) + if decide (l' = l) then 1 else 0)%nat → act k k'
| act_init s v :
    (∀ y, frames_of k' y = frames_of k y) → holders k' = holders k → raw s → is_u32 v → unwaited k s →
    semas k' = <[s := mk_sema v []]> (semas k) → act k k'
| act_lock_init l :
    (∀ y, frames_of k' y = frames_of k y) → holders k !! l = None → unwaited k (S_lock l) →
    holders k' = <[l := NULL]> (holders k) → semas k' = <[S_lock l := mk_sema 1 []]> (semas k) → act k k'.

(** * No lost wake-up *)

(** Threads wait at a semaphore only while all its units are spoken for by
    threads that were woken and are on their way. *)
Record sema_ok (k : kernel) (s : sema_id) (sm : semaphore) : Prop := {
  so_u32 : is_u32 (value sm);
  so_nodup : NoDup (waiters sm);
  so_down : ∀ x, x ∈ waiters sm → at_down k s x;
  so_woken : waiters sm = [] ∨ ∃ W, NoDup W ∧ value sm ≤ Z.of_nat (length W) ∧
    ∀ x, x ∈ W → at_down k s x ∧ x ∉ waiters sm }.
Definition semas_ok (k : kernel) : Prop := ∀ s sm, semas k !! s = Some sm → sema_ok k s sm.

Lemma calm_not_down k s x : top_calm (frames_of k x) → ¬ at_down k s x.
Proof. intros Hc (l & fs & E). by rewrite E in Hc. Qed.

Lemma at_down_same x k k' s y : others_same x k k' → y ≠ x → at_down k s y → at_down k' s y.
Proof. intros Ho Hy (l & fs & E). exists l, fs. by rewrite Ho. Qed.

(** A semaphore that an action does not touch, while [x] was not in it. *)
Lemma sema_ok_frame x k k' s sm :
  others_same x k k' → (¬ at_down k s x ∨ at_down k' s x) → sema_ok k s sm → sema_ok k' s sm.
Proof.
  intros Ho Hx [Hu Hnd Hd Hw].
  assert (∀ y, at_down k s y → at_down k' s y) as Hat.
  { intros y Hy. destruct (decide (y = x)) as [->|]; [by destruct Hx|by eapply at_down_same]. }
  split; [done..|auto|]. destruct Hw as [?|(W & ? & ? & HW)]; [by left|right].
  exists W. split_and!; try done. intros y Hy. destruct (HW y Hy). auto.
Qed.

Lemma others_same_all x k k' : (∀ y, frames_of k' y = frames_of k y) → others_same x k k'.
Proof. intros H y _. apply H. Qed.

Lemma at_down_other k s s' x : at_down k s x → s' ≠ s → ¬ at_down k s' x.
Proof. intros (l & fs & E) Hne (l' & fs' & E'). rewrite E in E'. by simplify_eq. Qed.

Lemma sema_take_ok x k k' s sm :
  others_same x k k' → value sm ≠ 0 → top_calm (frames_of k x) ∨ at_down k s x ∧ x ∉ waiters sm →
  sema_ok k s sm → sema_ok k' s (mk_sema (value sm - 1) (waiters sm)).
Proof.
  intros Ho Hv Hx [Hu Hnd Hd Hw]. unfold is_u32 in *.
  assert (x ∉ waiters sm) as Hxw.
  { destruct Hx as [Hc|[_ ?]]; [|done]. intros Hin. by eapply calm_not_down, Hd. }
  split; simpl; [unfold is_u32; lia|done| |].
  - intros y Hy. eapply at_down_same; [done| |by apply Hd]. by intros ->.
  - destruct Hw as [?|(W & HndW & HvW & HW)]; [by left|right].
    exists (filter (.≠ x) W). split_and!.
    + by apply NoDup_filter.
    + assert (length W ≤ S (length (filter (.≠ x) W)))%nat; [|lia].
      clear -HndW. induction HndW as [|a W Ha HW IH]; simpl; [lia|].
      rewrite filter_cons. case_decide as Hax; simpl; [lia|].
      rewrite filter_all; [lia|]. apply Forall_forall. intros y Hy ->. by apply Ha; destruct (decide (a = x)); subst.
    + intros y [Hyx Hy]%list_elem_of_filter. destruct (HW y Hy). split; [|done]. by eapply at_down_same.
Qed.

Lemma sema_wait_ok x k k' s sm :
  others_same x k k' → value sm = 0 → x ∉ waiters sm → at_down k' s x →
  sema_ok k s sm → sema_ok k' s (mk_sema 0 (waiters sm ++ [x])).
Proof.
  intros Ho Hv Hx Hd' [Hu Hnd Hd Hw]. split; simpl.
  - unfold is_u32. lia.
  - apply NoDup_app. split_and!; [done| |apply NoDup_singleton]. by intros y Hy ->%list_elem_of_singleton.
  - intros y [Hy| ->%list_elem_of_singleton]%elem_of_app; [|done].
    eapply at_down_same; [done| |by apply Hd]. by intros ->.
  - right. exists []. split_and!; [apply NoDup_nil_2|done|]. by intros y Hy%not_elem_of_nil.
Qed.

Lemma sema_up_sema_ok x k k' s sm :
  others_same x k k' → top_calm (frames_of k x) →
  sema_ok k s sm → sema_ok k' s (mk_sema (u32 (value sm + 1)) (tail (waiters sm))).
Proof.
  intros Ho Hc [Hu Hnd Hd Hw].
  assert (∀ y, at_down k s y → at_down k' s y) as Hat.
  { intros y Hy. eapply at_down_same; [done| |done]. intros ->. by eapply calm_not_down. }
  assert (u32 (value sm + 1) ≤ value sm + 1) as Hle.
  { unfold u32, is_u32 in *. apply Z.mod_le; lia. }
  destruct (waiters sm) as [|z ws] eqn:E; simpl.
  - split; simpl; [apply u32_range|done|by intros y Hy%not_elem_of_nil|by left].
  - apply NoDup_cons in Hnd as [Hz Hnd]. split; simpl; [apply u32_range|done| |].
    + intros y Hy. apply Hat, Hd. by right.
    + destruct Hw as [?|(W & HndW & HvW & HW)]; [done|right]. exists (z :: W). split_and!.
      * constructor; [|done]. intros HzW. destruct (HW z HzW) as [_ Hn]. apply Hn. by left.
      * simpl. lia.
      * intros y [->|Hy]%elem_of_cons; [split; [apply Hat, Hd; by left|done]|].
        destruct (HW y Hy) as [? Hn]. split; [auto|]. intros ?. apply Hn. by right.
Qed.

Lemma act_semas_ok k k' : act k k' → semas_ok k → semas_ok k'.
Proof.
  intros Ha Hok s' sm'. destruct Ha as
    [x Ho Es _ Hc _|Hf Es _|x s sm Ho _ Hs Hv Es Hx _|x s sm Ho _ Hs Hv Es Hx Hnw Hd _
    |x s sm Ho _ Hs Es Hc _|x l h Ho Es _ _ _ Hc _|x l Ho Es _ _ _ Hc _|s v Hf _ _ Hv Hw Es
    |l Hf _ Hw _ Es]; rewrite Es; try
      (intros Hs'; eapply (sema_ok_frame x); [done|left; by apply calm_not_down|by apply Hok]).
  - intros Hs'. eapply (sema_ok_frame 0); [by apply others_same_all| |by apply Hok].
    unfold at_down. rewrite Hf. destruct (frames_of k 0) as [|[] ?]; try (left; naive_solver).
    destruct (decide (sema = s')) as [->|]; [right; eauto|left; naive_solver].
  - destruct (decide (s' = s)) as [->|Hne].
    + rewrite lookup_insert_eq. intros [= <-]. eapply (sema_take_ok x); eauto.
    + rewrite lookup_insert_ne by done. intros Hs'. eapply (sema_ok_frame x); [done| |by apply Hok].
      left. destruct Hx as [?|[? _]]; [by apply calm_not_down|by eapply at_down_other].
  - destruct (decide (s' = s)) as [->|Hne].
    + rewrite lookup_insert_eq. intros [= <-]. eapply (sema_wait_ok x); eauto.
    + rewrite lookup_insert_ne by done. intros Hs'. eapply (sema_ok_frame x); [done| |by apply Hok].
      left. destruct Hx as [?|?]; [by apply calm_not_down|by eapply at_down_other].
  - destruct (decide (s' = s)) as [->|Hne].
    + rewrite lookup_insert_eq. intros [= <-]. eapply (sema_up_sema_ok x); eauto.
    + rewrite lookup_insert_ne by done. intros Hs'.
      eapply (sema_ok_frame x); [done|left; by apply calm_not_down|by apply Hok].
  - destruct (decide (s' = s)) as [->|Hne].
    + rewrite lookup_insert_eq. intros [= <-]. split; simpl; [done|apply NoDup_nil_2|by intros y ?%not_elem_of_nil|by left].
    + rewrite lookup_insert_ne by done. intros Hs'. destruct (Hok s' sm' Hs') as [? ? Hd Hwk].
      assert (∀ y, at_down k' s' y ↔ at_down k s' y) as Hat by (intros y; unfold at_down; by rewrite Hf).
      split; [done..|intros; by apply Hat, Hd|]. setoid_rewrite Hat. done.
  - destruct (decide (s' = S_lock l)) as [->|Hne].
    + rewrite lookup_insert_eq. intros [= <-]. split; simpl; [by compute|apply NoDup_nil_2|by intros y ?%not_elem_of_nil|by left].
    + rewrite lookup_insert_ne by done. intros Hs'. destruct (Hok s' sm' Hs') as [? ? Hd Hwk].
      assert (∀ y, at_down k' s' y ↔ at_down k s' y) as Hat by (intros y; unfold at_down; by rewrite Hf).
      split; [done..|intros; by apply Hat, Hd|]. setoid_rewrite Hat. done.
Qed.

(** * Mutual exclusion *)

(** The threads inside lock [l], whose holder field is [h]. *)
Definition units (k : kernel) (l h x : Z) : nat :=
  (tok l (frames_of k x) + if decide (h = x ∧ h ≠ NULL) then 1 else 0)%nat.

(** Either the lock's semaphore is up and nobody is inside, or it is down and
    exactly one thread is. *)
Definition exclusive (v : Z) (u : Z → nat) : Prop :=
  v = 1 ∧ (∀ x, u x = 0%nat) ∨ v = 0 ∧ ∃ o, u o = 1%nat ∧ ∀ x, x ≠ o → u x = 0%nat.

Definition lock_ok (k : kernel) (l : Z) : Prop :=
  match holders k !! l with
  | None => semas k !! S_lock l = None ∧ ∀ x, tok l (frames_of k x) = 0%nat
  | Some h => ∃ sm, semas k !! S_lock l = Some sm ∧ exclusive (value sm) (units k l h)
  end.
Definition locks_ok (k : kernel) : Prop := ∀ l, lock_ok k l.

Lemma exclusive_ext v u u' : (∀ x, u' x = u x) → exclusive v u → exclusive v u'.
Proof.
  intros E [[? H]|(? & o & ? & H)]; [left|right]; split; auto.
  - intros x. by rewrite E.
  - exists o. rewrite E. split; [done|]. intros x ?. rewrite E. auto.
Qed.

Lemma exclusive_take v u u' x :
  v ≠ 0 → (∀ y, y ≠ x → u' y = u y) → u' x = (u x + 1)%nat → exclusive v u → exclusive (v - 1) u'.
Proof.
  intros Hv Ho Hx [[-> H]|(? & _)]; [|done]. right. split; [done|]. exists x. rewrite Hx, H. split; [done|].
  intros y Hy. by rewrite Ho, H.
Qed.

Lemma exclusive_up v u u' x :
  (∀ y, y ≠ x → u' y = u y) → u x = (u' x + 1)%nat → exclusive v u → exclusive (u32 (v + 1)) u'.
Proof.
  intros Ho Hx [[-> H]|(-> & o & Hu & H)]; [specialize (H x); lia|].
  left. split; [done|]. assert (o = x) as -> by (destruct (decide (o = x)); [done|]; specialize (H x); lia).
  intros y. destruct (decide (y = x)) as [->|]; [lia|]. rewrite Ho; auto.
Qed.

Lemma exclusive_one v u x y : exclusive v u → (0 < u x)%nat → (0 < u y)%nat → x = y ∧ u x = 1%nat.
Proof.
  intros [[_ H]|(_ & o & Hu & H)] Hx Hy; [specialize (H x); lia|].
  assert (x = o) as -> by (destruct (decide (x = o)); [done|]; specialize (H x); lia).
  split; [|done]. destruct (decide (y = o)); [done|]. specialize (H y); lia.
Qed.

Lemma units_same k k' l h x y :
  others_same x k k' → y ≠ x → units k' l h y = units k l h y.
Proof. intros Ho Hy. unfold units. by rewrite Ho. Qed.

(** The cases of an action: the lock [l'] is concerned or not. *)
Section lock_acts.
Variables (k k' : kernel) (l' : Z).

Lemma lock_ok_frame :
  holders k' !! l' = holders k !! l' → semas k' !! S_lock l' = semas k !! S_lock l' →
  (∀ y, tok l' (frames_of k' y) = tok l' (frames_of k y)) → lock_ok k l' → lock_ok k' l'.
Proof.
  unfold lock_ok. intros -> -> Htk. destruct (holders k !! l') as [h|].
  - intros (sm & ? & Hex). exists sm. split; [done|]. eapply exclusive_ext; [|done].
    intros y. unfold units. by rewrite Htk.
  - intros [? H]. split; [done|]. intros y. by rewrite Htk.
Qed.

Lemma tok_others x n m :
  others_same x k k' → (tok l' (frames_of k' x) + n = tok l' (frames_of k x) + m)%nat → n = m →
  ∀ y, tok l' (frames_of k' y) = tok l' (frames_of k y).
Proof. intros Ho Hx -> y. destruct (decide (y = x)) as [->|]; [lia|by rewrite Ho]. Qed.

(** The lock's semaphore goes from [sm] to value [v], and the number of units
    of [x] changes. *)
Lemma lock_ok_sema x sm sm' :
  others_same x k k' → holders k' !! l' = holders k !! l' → semas k !! S_lock l' = Some sm →
  semas k' !! S_lock l' = Some sm' →
  (∀ h, exclusive (value sm) (units k l' h) → exclusive (value sm') (units k' l' h)) →
  lock_ok k l' → lock_ok k' l'.
Proof.
  unfold lock_ok. intros Ho -> Hs Hs' Hex. destruct (holders k !! l') as [h|]; [|intros []; congruence].
  intros (sm0 & ? & He). simplify_eq. exists sm'. split; [done|]. auto.
Qed.
End lock_acts.

Lemma act_locks_ok k k' : act k k' → locks_ok k → locks_ok k'.
Proof.
  intros Ha Hok l'. specialize (Hok l'). destruct Ha as
    [x Ho Es Eh _ Ht|Hf Es Eh|x s sm Ho Eh Hs Hv Es _ Ht|x s sm Ho Eh Hs Hv Es _ _ _ Ht
    |x s sm Ho Eh Hs Es _ Ht|x l h Ho Es Hh Eh H0 _ Ht|x l Ho Es Hh Eh H0 _ Ht|s v Hf Eh Hraw _ _ Es
    |l Hf Hh _ Eh Es]; unfold lock_unit in *; try specialize (Ht l').
  - eapply lock_ok_frame; [by rewrite Eh|by rewrite Es|by apply (tok_others _ _ _ x 0 0); [|lia|]|done].
  - eapply lock_ok_frame; [by rewrite Eh|by rewrite Es|intros y; by rewrite Hf|done].
  - destruct (decide (s = S_lock l')) as [->|Hne].
    + eapply (lock_ok_sema k k' l' x); [done|by rewrite Eh|done|rewrite Es; apply lookup_insert_eq| |done].
      intros h Hex. eapply (exclusive_take _ _ _ x); [done|intros y; by apply units_same| |done].
      unfold units. lia.
    + eapply lock_ok_frame; [by rewrite Eh|by rewrite Es, lookup_insert_ne|by apply (tok_others _ _ _ x 0 0); [|lia|]|done].
  - destruct (decide (s = S_lock l')) as [->|Hne].
    + eapply (lock_ok_sema k k' l' x); [done|by rewrite Eh|done|rewrite Es; apply lookup_insert_eq| |done].
      intros h. rewrite Hv. apply exclusive_ext. intros y. unfold units.
      by rewrite (tok_others k k' l' x 0 0); [|done|lia|].
    + eapply lock_ok_frame; [by rewrite Eh|by rewrite Es, lookup_insert_ne|by apply (tok_others _ _ _ x 0 0); [|lia|]|done].
  - destruct (decide (s = S_lock l')) as [->|Hne].
    + eapply (lock_ok_sema k k' l' x); [done|by rewrite Eh|done|rewrite Es; apply lookup_insert_eq| |done].
      intros h Hex. eapply (exclusive_up _ _ _ x); [intros y; by apply units_same| |done].
      unfold units. lia.
    + eapply lock_ok_frame; [by rewrite Eh|by rewrite Es, lookup_insert_ne|by apply (tok_others _ _ _ x 0 0); [|lia|]|done].
  - destruct (decide (l' = l)) as [->|Hne].
    + unfold lock_ok in *. rewrite Eh, lookup_insert_eq, Es. rewrite Hh in Hok. destruct Hok as (sm & Hs & Hex).
      exists sm. split; [done|].
      eapply exclusive_ext; [|done]. intros y.
      assert (0 < units k l h x)%nat as Hx by (unfold units; lia).
      assert (h ≠ y ∨ h = NULL) as Hhy.
      { destruct (decide (h = NULL)) as [|Hn]; [by right|]. left. intros ->.
        assert (units k l y y = tok l (frames_of k y) + 1)%nat as Ey by (unfold units; by rewrite decide_True).
        destruct (exclusive_one _ _ x y Hex Hx) as [-> Hone]; lia. }
      unfold units. rewrite (decide_False (P := h = y ∧ _)) by naive_solver.
      destruct (decide (y = x)) as [->|Hy]; [rewrite decide_True by done; lia|].
      rewrite decide_False by naive_solver. by rewrite Ho.
    + eapply lock_ok_frame; [by rewrite Eh, lookup_insert_ne|by rewrite Es|by apply (tok_others _ _ _ x 0 0); [|lia|]|done].
  - destruct (decide (l' = l)) as [->|Hne].
    + unfold lock_ok in *. rewrite Eh, lookup_insert_eq, Es. rewrite Hh in Hok. destruct Hok as (sm & Hs & Hex).
      exists sm. split; [done|]. eapply exclusive_ext; [|done]. intros y. unfold units.
      rewrite (decide_False (P := NULL = y ∧ _)) by naive_solver.
      destruct (decide (y = x)) as [->|Hy]; [rewrite decide_True by done; lia|].
      rewrite decide_False by naive_solver. by rewrite Ho.
    + eapply lock_ok_frame; [by rewrite Eh, lookup_insert_ne|by rewrite Es|by apply (tok_others _ _ _ x 0 0); [|lia|]|done].
  - eapply lock_ok_frame; [by rewrite Eh|rewrite Es; by rewrite lookup_insert_ne by (by intros ->)|intros y; by rewrite Hf|done].
  - destruct (decide (l' = l)) as [->|Hne].
    + unfold lock_ok in *. rewrite Eh, Es, !lookup_insert_eq. rewrite Hh in Hok. destruct Hok as [_ Htok].
      eexists. split; [done|]. left. split; [done|]. intros y. unfold units.
      rewrite Hf, Htok, decide_False by naive_solver. done.
    + eapply lock_ok_frame; [by rewrite Eh, lookup_insert_ne|rewrite Es; by rewrite lookup_insert_ne by congruence|intros y; by rewrite Hf|done].
Qed.

(** * Updates that the invariant does not see *)
Definition core_thread (t : thread) : thread := set_tid 0 (set_stack 0 (set_children [] t)).

Lemma core_fields t t' : core_thread t' = core_thread t →
  status t' = status t ∧ magic t' = magic t ∧ priority t' = priority t ∧ wakeup_time t' = wakeup_time t ∧
  th_parent t' = th_parent t ∧ frames t' = frames t.
Proof. destruct t, t'. intros [=]. by simplify_eq/=. Qed.

Lemma inv_agree r L k k' :
  same_core (set_threads (threads k') k) k' → core_thread <$> threads k' = core_thread <$> threads k →
  inv r L k → inv r L k' ∧ ∀ x, frames_of k' x = frames_of k x.
Proof.
  intros (_ & Er & Ei & Erd & Esl & Es) Em Hi. simpl in *.
  assert (∀ x, core_thread <$> threads k' !! x = core_thread <$> threads k !! x) as Hx.
  { intros x. by rewrite <-!lookup_fmap, Em. }
  assert (∀ x t, threads k !! x = Some t → ∃ t', threads k' !! x = Some t' ∧ core_thread t' = core_thread t) as Hto.
  { intros x t Ht. specialize (Hx x). rewrite Ht in Hx. destruct (threads k' !! x) as [t'|]; [|done]. apply (inj Some) in Hx. eauto. }
  assert (∀ x t', threads k' !! x = Some t' → ∃ t, threads k !! x = Some t ∧ core_thread t' = core_thread t) as Hfrom.
  { intros x t' Ht. specialize (Hx x). rewrite Ht in Hx. destruct (threads k !! x) as [t|]; [|done]. apply (inj Some) in Hx. eauto. }
  assert (∀ x, frames_of k' x = frames_of k x) as Hf.
  { intros x. unfold frames_of. destruct (threads k !! x) as [t|] eqn:E.
    - destruct (Hto x t E) as (t' & -> & Hc). apply core_fields in Hc as (_ & _ & _ & _ & _ & Ef). simpl. done.
    - destruct (threads k' !! x) as [t'|] eqn:E'; [|done]. destruct (Hfrom x t' E') as (? & ? & _). congruence. }
  assert (∀ p, members k' p = members k p) as Hmem.
  { intros []; simpl; unfold sema_waiters; congruence. }
  assert (∀ x, same_keys k k' x) as Hk.
  { intros x. unfold same_keys. destruct (threads k !! x) as [t|] eqn:E.
    - destruct (Hto x t E) as (t' & -> & Hc). apply core_fields in Hc as (_ & _ & Ep & Ew & _). simpl. by rewrite Ep, Ew.
    - destruct (threads k' !! x) as [t'|] eqn:E'; [|done]. destruct (Hfrom x t' E') as (? & ? & _). congruence. }
  split; [|done]. split; rewrite ?Er, ?Ei, ?Erd, ?Esl.
  - intros x t' Ht'. destruct (Hfrom x t' Ht') as (t & Ht & (Es' & Em' & _ & _ & _ & Ef)%core_fields).
    destruct (inv_thread _ _ _ Hi x t Ht) as (? & ? & ? & Hl). rewrite Em', Ef. split_and!; [done..|].
    eapply (located_ext r L k); [done|done|intros; unfold creating; by rewrite Hf|].
    unfold located in *. by rewrite Es', Ef.
  - intros p x. rewrite Hmem. intros Hp. destruct (inv_member _ _ _ Hi p x Hp) as (? & ? & t & Ht & ? & ?).
    destruct (Hto x t Ht) as (t' & Ht' & (Es' & _ & _ & _ & _ & Ef)%core_fields).
    split_and!; [done..|]. exists t'. by rewrite Es', Ef.
  - intros p. rewrite Hmem. apply (inv_nodup _ _ _ Hi).
  - intros p q x. rewrite !Hmem. apply (inv_once _ _ _ Hi).
  - intros y x. unfold creating. rewrite Hf. intros Hc.
    destruct (inv_creating _ _ _ Hi y x Hc) as (? & ? & ? & t & Ht & ? & ? & ?).
    destruct (Hto x t Ht) as (t' & Ht' & (Es' & _ & _ & _ & Ep & Ef)%core_fields).
    split_and!; [done..|intros p; by rewrite Hmem|]. exists t'. by rewrite Es', Ep, Ef.
  - intros x HL. destruct (inv_loose _ _ _ Hi x HL) as (? & t & Ht & ?).
    destruct (Hto x t Ht) as (t' & ? & (Es' & _)%core_fields). split; [done|]. exists t'. by rewrite Es'.
  - intros x Hr. destruct (inv_running _ _ _ Hi x Hr) as (? & t & Ht & ?).
    destruct (Hto x t Ht) as (t' & ? & (Es' & _)%core_fields). split; [done|]. exists t'. by rewrite Es'.
  - destruct (inv_idle _ _ _ Hi) as [t Ht]. destruct (Hto _ t Ht) as (t' & ? & _). by exists t'.
  - eapply sorted_keys; [intros; apply Hk|apply (inv_ready_sorted _ _ _ Hi)].
  - eapply sorted_keys; [intros; apply Hk|apply (inv_sleep_sorted _ _ _ Hi)].
Qed.

(** * Steps *)
Record ok (k : kernel) : Prop := {
  ok_sched : sched_ok k;
  ok_ext : in_external_intr k = false;
  ok_top : top_calm (frames_of k (running k)) ∨ intr k = INTR_OFF }.

Definition good (k k' : kernel) : Prop := ok k' ∧ rtc act k k'.

(** The running thread [x] between two points of its code. *)
Record runs (x : Z) (t : thread) (k : kernel) : Prop := {
  rn_inv : inv (Some x) None k;
  rn_thread : threads k !! x = Some t;
  rn_calm : top_calm (frames t);
  rn_ext : in_external_intr k = false }.

Lemma runs_frames x t k : runs x t k → frames_of k x = frames t.
Proof. intros [_ Hx _ _]. unfold frames_of. by rewrite Hx. Qed.

Lemma runs_facts x t k : runs x t k → x = running k ∧ status t = THREAD_RUNNING ∧
  magic t = THREAD_MAGIC ∧ x ≠ NULL ∧ frames_ok (idle_thread k) x (frames t).
Proof.
  intros [Hi Hx _ _]. destruct (leave_facts k x t Hi Hx) as (? & ? & ? & ? & _).
  by destruct (inv_thread _ _ _ Hi x t Hx) as (_ & ? & _).
Qed.

Lemma runs_core x t k k' :
  same_core k k' → in_external_intr k' = in_external_intr k → runs x t k → runs x t k'.
Proof.
  intros Hc Hext [Hi Hx Hcalm He]. split; [by eapply inv_core| |done|congruence].
  destruct Hc as (-> & _). done.
Qed.

Lemma good_trans k k1 k' : rtc act k k1 → good k1 k' → good k k'.
Proof. intros H [? ?]. split; [done|by etrans]. Qed.

Lemma good_here x t k k' : runs x t k' → rtc act k k' → good k k'.
Proof.
  intros Hr Ha. destruct (runs_facts _ _ _ Hr) as (Hrun & _). split; [|done].
  split; [rewrite <-Hrun; apply Hr|apply Hr|left]. rewrite <-Hrun, (runs_frames x t) by done. apply Hr.
Qed.

Lemma good_switch k k1 k' :
  sched_ok k' → switched k1 k' → in_external_intr k1 = false → rtc act k k1 → good k k'.
Proof.
  intros Hok Hsw He Ha. split.
  - split; [done|by rewrite (sw_external _ _ Hsw)|right; apply Hsw].
  - etrans; [done|]. apply rtc_once, act_same; apply Hsw.
Qed.

(** The running thread's innermost frames change. *)
Definition at_frames (x : Z) (fs : list frame) (t : thread) (k : kernel) : kernel :=
  set_threads (<[x := set_frames fs t]> (threads k)) k.

Lemma frames_of_at x fs t k y :
  frames_of (at_frames x fs t k) y = if decide (y = x) then fs else frames_of k y.
Proof. by rewrite (frames_of_insert k _ x (set_frames fs t)). Qed.

Lemma runs_at x t k fs :
  runs x t k → top_calm fs → frames_ok (idle_thread k) x fs →
  (∀ z, creates fs z ↔ creates (frames t) z) →
  runs x (set_frames fs t) (at_frames x fs t k).
Proof.
  intros Hr Hc Hf Hcr. destruct (runs_facts _ _ _ Hr) as (? & ? & ? & ? & ?). destruct Hr as [Hi Hx _ He].
  split; [|simpl; apply lookup_insert_eq|done|done].
  by eapply (inv_upd_running k _ x t).
Qed.

Lemma runs_push x t k f :
  runs x t k → top_calm [f] → frame_ok (idle_thread k) x f → not_create f →
  runs x (set_frames (f :: frames t) t) (at_frames x (f :: frames t) t k).
Proof.
  intros Hr Hc Hf Hn. destruct (runs_facts _ _ _ Hr) as (_ & _ & _ & _ & Hok).
  apply runs_at; [done|by destruct f| |by intros z; apply creates_cons].
  split_and!; [done|by right|apply Hr|by destruct f|done].
Qed.

(** A frame that has nothing to do with locks goes on or off. *)
Lemma act_at x t k fs :
  runs x t k → (∀ l, tok l fs = tok l (frames t)) → act k (at_frames x fs t k).
Proof.
  intros Hr Ht. eapply (act_frames _ _ x); try done.
  - intros y Hy. by rewrite frames_of_at, decide_False.
  - rewrite (runs_frames x t) by done. apply Hr.
  - intros l. by rewrite frames_of_at, decide_True, (runs_frames x t).
Qed.

Lemma wlp_push_frame x t k f (Q : unit → kernel → Prop) :
  runs x t k → Q tt (at_frames x (f :: frames t) t k) → wlp (push_frame f) Q k.
Proof.
  intros Hr HQ. destruct (runs_facts _ _ _ Hr) as (? & _). apply wlp_wp.
  eapply wp_push_frame; [done|apply Hr|done].
Qed.

Lemma wlp_current x t k Q : runs x t k → Q x k → wlp thread_current Q k.
Proof. intros Hr HQ. apply wlp_wp. eapply wp_thread_current; [apply Hr|done]. Qed.

Lemma tok_calm l f fs : top_calm (f :: fs) → tok l (f :: fs) = (claim l f + claims l fs)%nat.
Proof. intros H. by destruct f as [| |s ? | | | | | | | | | | | | | |]. Qed.
Lemma tok_claims l fs : top_calm fs → tok l fs = claims l fs.
Proof. destruct fs as [|f fs]; [done|]. apply tok_calm. Qed.

(** * Semaphores and locks *)
Section sync.
Variables (x : Z) (t : thread) (k : kernel).
Hypothesis Hr : runs x t k.
Hypothesis Hni : x ≠ idle_thread k.

(** [sema_down] as a whole, seen from the state [k0] that its caller was in:
    it takes a unit or joins the waiters. *)
Lemma sema_down_good k0 s :
  holders k = holders k0 → semas k = semas k0 → others_same x k0 k → top_calm (frames_of k0 x) →
  (∀ l, tok l (frames t) = tok l (frames_of k0 x) + lock_unit s l)%nat →
  (∀ l lv, tok l (F_sema_down s lv :: frames t) = tok l (frames_of k0 x)) →
  called_by (F_sema_down s (intr k)) (frames t) →
  wlp (sema_down s) (λ _ k', good k0 k') k.
Proof.
  intros Eh Es Ho Hc Htake Hwait Hcall. unfold sema_down, intr_context, intr_disable, intr_get_level. wlp_go.
  destruct (semas k !! s) as [sm|] eqn:Hs; [|unfold sema_down_loop, load_sema; wlp_go; simplify_eq/=; congruence].
  apply wlp_wp. eapply wp_mono.
  { apply (sema_down_loop_ok x t s sm (intr k) (set_intr INTR_OFF k)); try done; try apply Hr.
    eapply inv_core; [|apply Hr]. done. }
  intros [] k' [Hok Hk']. destruct (value sm =? 0) eqn:Ev.
  - eapply good_switch; [done|done|simpl; apply Hr|]. apply rtc_once.
    apply Z.eqb_eq in Ev. eapply (act_wait _ _ x s sm); simpl; try done.
    + intros y Hy. rewrite <-Ho by done. erewrite frames_of_insert by done. by rewrite decide_False.
    + by rewrite <-Es.
    + by rewrite Ev, Es.
    + by left.
    + intros Hin. destruct (inv_member _ _ _ (rn_inv _ _ _ Hr) (InSema s) x) as (_ & _ & u & Hu & Hst & _).
      { simpl. unfold sema_waiters. by rewrite Hs. }
      destruct (runs_facts _ _ _ Hr) as (_ & Hst' & _). destruct Hr as [_ Hx _ _]. simplify_eq/=. congruence.
    + unfold at_down. erewrite frames_of_insert by done. rewrite decide_True by done. by eexists _, _.
    + intros l. erewrite frames_of_insert by done. rewrite decide_True by done. apply Hwait.
  - apply Z.eqb_neq in Ev. subst k'.
    assert (runs x t (set_intr (intr k) (set_semas (<[s := mk_sema (value sm - 1) (waiters sm)]> (semas k))
      (set_intr INTR_OFF k)))) as Hr'.
    { split; [|apply Hr..]. destruct (runs_facts _ _ _ Hr) as (-> & _). done. }
    eapply (good_here x t); [done|]. apply rtc_once.
    eapply (act_take _ _ x s sm); simpl; try done.
    + by rewrite <-Es.
    + by rewrite Es.
    + by left.
    + intros l. etrans; [|apply Htake]. f_equal. apply (runs_frames x t k Hr).
Qed.

Lemma sema_down_raw s : raw s → wlp (sema_down s) (λ _ k', good k k') k.
Proof.
  intros Hs. assert (∀ l, lock_unit s l = 0%nat) as Hu by (intros l; unfold lock_unit; by destruct s).
  apply sema_down_good; try done.
  - rewrite (runs_frames x t) by done. apply Hr.
  - intros l. rewrite (runs_frames x t), Hu by done. lia.
  - intros l lv. rewrite (runs_frames x t), (tok_claims l (frames t)) by (done || apply Hr). by destruct s.
  - by destruct s.
Qed.

End sync.

Section calls.
Variables (x : Z) (t : thread) (k : kernel).
Hypothesis Hr : runs x t k.
Hypothesis Hni : x ≠ idle_thread k.

Lemma others_at fs : others_same x k (at_frames x fs t k).
Proof. intros y Hy. by rewrite frames_of_at, decide_False. Qed.

Lemma calm_here : top_calm (frames_of k x).
Proof. rewrite (runs_frames x t) by done. apply Hr. Qed.

Lemma tok_here l : tok l (frames_of k x) = claims l (frames t).
Proof. rewrite (runs_frames x t) by done. apply tok_claims, Hr. Qed.

(** [lock_acquire]. *)
Lemma lock_acquire_good l : wlp (lock_acquire l) (λ _ k', good k k') k.
Proof.
  unfold lock_acquire, lock_held_by_current_thread, intr_context, load_holder. wlp_go.
  eapply wlp_current; [done|]. wlp_go. eapply wlp_push_frame; [done|]. cbn beta.
  eapply (sema_down_good x (set_frames (F_acquired l :: frames t) t)); try done.
  - by apply runs_push; [|done|apply plain_ok|].
  - apply others_at.
  - apply calm_here.
  - intros l'. rewrite tok_here. cbn [frames set_frames]. rewrite tok_calm by done. unfold claim, lock_unit.
    destruct (decide (l = l')), (decide (S_lock l = S_lock l')); simplify_eq/=; lia.
  - intros l' lv. rewrite tok_here. done.
Qed.

Lemma wlp_intr_set_level l (Q : intr_level → kernel → Prop) k1 :
  in_external_intr k1 = false → Q (intr k1) (set_intr l k1) → wlp (intr_set_level l) Q k1.
Proof. intros He HQ. apply wlp_wp. by apply wp_intr_set_level. Qed.

Lemma runs_semas m : (∀ s, sema_waiters (set_semas m k) s = sema_waiters k s) → runs x t (set_semas m k).
Proof. intros Hw. split; [|apply Hr..]. eapply inv_values; [done|done|apply Hr]. Qed.

Lemma runs_value s sm v :
  semas k !! s = Some sm → runs x t (set_semas (<[s := mk_sema v (waiters sm)]> (semas k)) k).
Proof.
  intros Hs. apply runs_semas. intros s'. erewrite sema_waiters_insert by done. case_decide; [|done].
  subst. unfold sema_waiters. by rewrite Hs.
Qed.

Lemma sema_try_down_wlp s (Q : bool → kernel → Prop) :
  (∀ sm, semas k !! s = Some sm → value sm ≠ 0 →
     Q true (set_semas (<[s := mk_sema (value sm - 1) (waiters sm)]> (semas k)) k)) →
  Q false k → wlp (sema_try_down s) Q k.
Proof.
  intros HQ HQf. unfold sema_try_down, intr_disable, intr_get_level, load_sema, store_sema. wlp_go.
  destruct (Z.ltb_spec 0 (value a)); wlp_go; (apply wlp_intr_set_level; [apply Hr|]); wlp_go.
  - specialize (HQ a ltac:(done) ltac:(lia)). same_kernel HQ.
  - same_kernel HQf.
Qed.

Lemma sema_try_down_good s : raw s → wlp (sema_try_down s) (λ _ k', good k k') k.
Proof.
  intros Hs. apply sema_try_down_wlp; [|by eapply good_here].
  intros sm Hsm Hv. eapply good_here; [by apply runs_value|]. apply rtc_once.
  eapply (act_take _ _ x s sm); try done; [left; apply calm_here|].
  intros l. unfold lock_unit. rewrite decide_False by (by intros ->). by rewrite Nat.add_0_r.
Qed.

Lemma lock_try_acquire_good l : wlp (lock_try_acquire l) (λ _ k', good k k') k.
Proof.
  unfold lock_try_acquire, lock_held_by_current_thread, load_holder. wlp_go.
  eapply wlp_current; [done|]. wlp_go. apply sema_try_down_wlp; [|wlp_go; by eapply good_here].
  intros sm Hs Hv. wlp_go.
  pose proof (runs_value (S_lock l) sm (value sm - 1) Hs) as Hr1.
  eapply wlp_push_frame; [done|]. wlp_go.
  eapply good_here; [by apply runs_push; [|done|apply plain_ok|]|]. apply rtc_once.
  eapply (act_take _ _ x (S_lock l) sm); try done.
  - intros y Hy. by rewrite frames_of_at, decide_False.
  - left. apply calm_here.
  - intros l'. rewrite tok_here, frames_of_at, decide_True, tok_calm by done. unfold claim, lock_unit.
    destruct (decide (l = l')), (decide (S_lock l = S_lock l')); simplify_eq/=; lia.
Qed.

(** [sema_up], seen from the state [k0] of the caller. *)
Lemma upped_facts s sm : semas k !! s = Some sm →
  runs x t (upped s sm k) ∧ (∀ y, frames_of (upped s sm k) y = frames_of k y) ∧
  holders (upped s sm k) = holders k ∧
  semas (upped s sm k) = <[s := mk_sema (u32 (value sm + 1)) (tail (waiters sm))]> (semas k).
Proof.
  intros Hs. pose proof (upped_inv _ _ _ _ (rn_inv _ _ _ Hr) Hs) as Hi. unfold upped in *.
  destruct (waiters sm) as [|y ws] eqn:Ew.
  { split_and!; try done. split; [done|apply Hr..]. }
  assert (y ∈ members k (InSema s)) as Hin.
  { simpl. unfold sema_waiters. rewrite Hs. simpl. rewrite Ew. by left. }
  destruct (inv_member _ _ _ (rn_inv _ _ _ Hr) (InSema s) y Hin) as (_ & _ & u & Hu & Hst & _). rewrite Hu in *.
  assert (y ≠ x) as Hyx.
  { intros ->. destruct (runs_facts _ _ _ Hr) as (_ & Hst' & _). destruct Hr as [_ Hx _ _]. simplify_eq/=. congruence. }
  split_and!; try done.
  - split; [done| |apply Hr..]. simpl. rewrite lookup_insert_ne by done. apply Hr.
  - intros z. by apply (unblocked_same y u (set_semas _ k) Hu z).
Qed.

Lemma sema_up_good k0 s :
  holders k = holders k0 → semas k = semas k0 → others_same x k0 k → top_calm (frames_of k0 x) →
  (∀ l, tok l (frames_of k0 x) = tok l (frames t) + lock_unit s l)%nat →
  wlp (sema_up s) (λ _ k', good k0 k') k.
Proof.
  intros Eh Es Ho Hc Htok. destruct (semas k !! s) as [sm|] eqn:Hs.
  2: { unfold sema_up, intr_disable, intr_get_level, load_sema. wlp_go. simplify_eq/=; congruence. }
  destruct (sema_nonnull s) eqn:Hn.
  2: { unfold sema_up. wlp_go. congruence. }
  destruct (upped_facts s sm Hs) as (Hr' & Hf & Hh & Hsem).
  apply wlp_wp. eapply sema_up_ok; [apply Hr|done|done|intros _; apply Hr|]. intros _.
  eapply good_here; [done|]. apply rtc_once. eapply (act_up _ _ x s sm).
  - intros y Hy. by rewrite Hf, Ho.
  - by rewrite Hh.
  - by rewrite <-Es.
  - by rewrite Hsem, Es.
  - done.
  - intros l. by rewrite Htok, Hf, (runs_frames x t).
Qed.

Lemma sema_up_raw s : raw s → wlp (sema_up s) (λ _ k', good k k') k.
Proof.
  intros Hs. apply sema_up_good; try done; [apply calm_here|].
  intros l. rewrite (runs_frames x t) by done. unfold lock_unit. rewrite decide_False by (by intros ->). lia.
Qed.

(** [lock_release]. *)
Lemma lock_release_good l : wlp (lock_release l) (λ _ k', good k k') k.
Proof.
  unfold lock_release, lock_held_by_current_thread, load_holder, store_holder. wlp_go.
  eapply wlp_current; [done|]. wlp_go.
  match goal with H : (?h =? x) = true |- _ => apply Z.eqb_eq in H as -> end.
  destruct (runs_facts _ _ _ Hr) as (_ & _ & _ & Hnull & _).
  set (k1 := set_holders (<[l := NULL]> (holders k)) k).
  assert (runs x t k1) as Hr1 by (by apply (runs_core _ _ k)).
  unfold load_holder. wlp_go. eapply wlp_push_frame; [done|]. eapply good_here; [by apply runs_push; [|done|apply plain_ok|]|].
  apply rtc_once. eapply (act_release _ _ x l); try done.
  - intros y Hy. by rewrite frames_of_at, decide_False.
  - apply calm_here.
  - intros l'. rewrite tok_here, frames_of_at, decide_True, tok_calm by done. unfold claim.
    destruct (decide (l = l')), (decide (l' = l)); simplify_eq/=; lia.
Qed.
End calls.

Section more_calls.
Variables (x : Z) (t : thread) (k : kernel).
Hypothesis Hr : runs x t k.
Hypothesis Hni : x ≠ idle_thread k.

Lemma unwaited_semas s v : unwaited k s →
  ∀ s', sema_waiters (set_semas (<[s := mk_sema v []]> (semas k)) k) s' = sema_waiters k s'.
Proof.
  intros Hu s'. erewrite sema_waiters_insert by done. case_decide; [subst; simpl|done].
  unfold sema_waiters. destruct (semas k !! s) as [sm|] eqn:E; [|done]. simpl. by rewrite (Hu sm).
Qed.

Lemma sema_init_wlp s v (Q : unit → kernel → Prop) :
  raw s → is_u32 v → unwaited k s →
  (∀ k', runs x t k' → idle_thread k' = idle_thread k → rtc act k k' → Q tt k') → wlp (sema_init s v) Q k.
Proof.
  intros Hs Hv Hu HQ. unfold sema_init, store_sema. wlp_go. apply HQ; [|done|].
  - eapply runs_semas; [done|]. by apply unwaited_semas.
  - apply rtc_once. by eapply (act_init _ _ s v).
Qed.

Lemma sema_init_good s v : raw s → is_u32 v → unwaited k s → wlp (sema_init s v) (λ _ k', good k k') k.
Proof. intros. apply sema_init_wlp; try done. intros k' Hk' _ Ha. by eapply good_here. Qed.

Lemma lock_init_good l :
  holders k !! l = None → unwaited k (S_lock l) → wlp (lock_init l) (λ _ k', good k k') k.
Proof.
  intros Hh Hu. unfold lock_init, sema_init, store_sema. wlp_go. eapply (good_here x t).
  - eapply (runs_core _ _ (set_semas (<[S_lock l := mk_sema 1 []]> (semas k)) k)); [done|done|].
    eapply runs_semas; [done|]. by apply unwaited_semas.
  - apply rtc_once. by eapply (act_lock_init _ _ l).
Qed.

Lemma act_core k1 k2 : threads k2 = threads k1 → semas k2 = semas k1 → holders k2 = holders k1 → act k1 k2.
Proof. intros Et Es Eh. apply act_same; [|done..]. intros y. unfold frames_of. by rewrite Et. Qed.

Lemma cond_init_good c : wlp (cond_init c) (λ _ k', good k k') k.
Proof.
  unfold cond_init, store_cond. wlp_go. eapply (good_here x t); [by apply (runs_core _ _ k)|].
  by apply rtc_once, act_core.
Qed.

Lemma cond_wait_good w c l : unwaited k (S_elem w) → wlp (cond_wait w c l) (λ _ k', good k k') k.
Proof.
  intros Hu. unfold cond_wait, intr_context, lock_held_by_current_thread, load_holder. wlp_go.
  eapply wlp_current; [done|]. wlp_go. apply sema_init_wlp; [done|by compute|done|].
  intros k1 Hr1 Ei Ha1. unfold load_cond, store_cond. wlp_go.
  set (k2 := set_conds _ k1). assert (runs x t k2) as Hr2 by by apply (runs_core _ _ k1).
  assert (x ≠ idle_thread k2) as Hni2 by (simpl; by rewrite Ei).
  eapply wlp_push_frame; [done|]. cbn beta. eapply wlp_mono.
  - by eapply lock_release_good; [by apply runs_push; [|done|apply plain_ok|]|].
  - intros [] k'. apply good_trans. etrans; [done|]. eapply rtc_l; [by apply (act_core k1 k2)|].
    apply rtc_once, act_at; [done|]. intros l'. rewrite tok_calm by done. rewrite tok_claims by apply Hr. done.
Qed.

Lemma cond_signal_good c l : wlp (cond_signal c l) (λ _ k', good k k') k.
Proof.
  unfold cond_signal, intr_context, lock_held_by_current_thread, load_holder, load_cond, store_cond. wlp_go.
  eapply wlp_current; [done|]. wlp_go. case_match; wlp_go; [by eapply good_here|].
  eapply wlp_mono; [eapply (sema_up_raw x t); [by apply (runs_core _ _ k)|done]|].
  intros [] k'. apply good_trans. by apply rtc_once, act_core.
Qed.
End more_calls.

(** A push of a frame that claims nothing, then the rest of the call. *)
Lemma push_then x t k f (m : M kernel unit) :
  runs x t k → x ≠ idle_thread k → plain_frame f → not_create f → top_calm [f] → (∀ l, claim l f = 0%nat) →
  (∀ t' k', runs x t' k' → idle_thread k' = idle_thread k → frames t' = f :: frames t →
     wlp m (λ _ k2, good k' k2) k') →
  wlp (push_frame f;; m) (λ _ k2, good k k2) k.
Proof.
  intros Hr Hni Hp Hn Hc Hcl Hm. wlp_go. eapply wlp_push_frame; [done|]. cbn beta.
  eapply wlp_mono; [eapply (Hm (set_frames (f :: frames t) t)); [|done|done]; by apply runs_push; [|done|apply plain_ok|]|].
  intros [] k'. apply good_trans. apply rtc_once, act_at; [done|]. intros l.
  rewrite tok_calm, Hcl by (by destruct f). by rewrite tok_claims by apply Hr.
Qed.

Section last_calls.
Variables (x : Z) (t : thread) (k : kernel).
Hypothesis Hr : runs x t k.
Hypothesis Hni : x ≠ idle_thread k.

Lemma broadcast_loop_good c l : wlp (broadcast_loop c l) (λ _ k', good k k') k.
Proof.
  unfold broadcast_loop, load_cond. wlp_go. case_match; [wlp_go; by eapply good_here|].
  eapply push_then; try done. intros t' k' Hr' Ei _. by eapply cond_signal_good.
Qed.

(** A change of the running thread's own fields. *)
Lemma upd_thread_good t' f (Q : unit → kernel → Prop) :
  t' = f t → status t' = status t → magic t' = magic t → frames t' = frames t →
  (∀ k', runs x t' k' → idle_thread k' = idle_thread k → act k k' → Q tt k') →
  wlp (upd_thread x f) Q k.
Proof.
  intros -> Es Em Ef HQ. destruct (runs_facts _ _ _ Hr) as (? & ? & ? & ? & ?).
  apply wlp_wp. eapply wp_upd_thread; [apply Hr|]. apply HQ; [|done|].
  - split; [|simpl; apply lookup_insert_eq|rewrite Ef; apply Hr|apply Hr].
    eapply (inv_upd_running k _ x t); try done; rewrite ?Em, ?Ef; try done; apply Hr.
  - apply act_same; [|done..]. intros y. erewrite frames_of_insert by done. case_decide; [|done].
    subst y. by rewrite Ef, (runs_frames x t).
Qed.

Lemma thread_set_priority_good p : wlp (thread_set_priority p) (λ _ k', good k k') k.
Proof.
  unfold thread_set_priority. wlp_go. eapply wlp_current; [done|].
  eapply upd_thread_good; try done. intros k' Hr' _ Ha. eapply good_here; [done|by apply rtc_once].
Qed.

Lemma wlp_int64 z (Q : Z → kernel → Prop) k1 : Q z k1 → wlp (int64 z) Q k1.
Proof. intros HQ. unfold int64. case_match; [by apply wlp_ret|]. by apply wlp_undef. Qed.

Lemma push_good f :
  plain_frame f → not_create f → top_calm [f] → (∀ l, claim l f = 0%nat) →
  wlp (push_frame f) (λ _ k', good k k') k.
Proof.
  intros Hp Hn Hc Hcl. eapply wlp_push_frame; [done|].
  eapply good_here; [by apply runs_push; [|done|apply plain_ok|]|].
  apply rtc_once, act_at; [done|]. intros l.
  rewrite tok_calm, Hcl by (by destruct f). by rewrite tok_claims by apply Hr.
Qed.

Lemma timer_sleep_good n : wlp (timer_sleep n) (λ _ k', good k k') k.
Proof.
  unfold timer_sleep, timer_ticks, intr_disable, intr_get_level. wlp_go.
  apply wlp_intr_set_level; [apply Hr|]. wlp_go. apply wlp_int64.
  replace (set_intr (intr k) (set_intr INTR_OFF k)) with k by by apply kernel_eq. by apply push_good.
Qed.
End last_calls.

(** * Creating a thread *)
Lemma inv_init r L k s v :
  unwaited k s → inv r L k → inv r L (set_semas (<[s := mk_sema v []]> (semas k)) k).
Proof. intros Hu Hi. eapply inv_values; [done|by apply unwaited_semas|done]. Qed.

Lemma init_thread_wlp x t k page nm prio (Q : unit → kernel → Prop) :
  runs x t k → threads k !! page = None → page ≠ NULL →
  unwaited k (S_load page) → unwaited k (S_wait page) → unwaited k (S_exited page) →
  (∀ k' tx, inv (Some x) (Some page) k' → threads k' = <[page := tx]> (threads k) →
     th_parent tx = x → frames tx = [] → running k' = x → idle_thread k' = idle_thread k →
     in_external_intr k' = false → rtc act k k' → Q tt k') →
  wlp (init_thread page nm prio) Q k.
Proof.
  intros Hr Hp H0 Hu1 Hu2 Hu3 HQ. destruct (runs_facts _ _ _ Hr) as (Hrun & _).
  unfold init_thread, running_thread, sema_init, store_sema. wlp_go.
  set (tx := mk_thread _ _ _ _ _ _ _ _ _ _ _ _ _ _ _ _ _).
  set (k1 := set_threads (<[page := tx]> (threads k)) k).
  assert (inv (Some x) (Some page) k1) as Hi1 by (eapply (inv_new (Some x) k k1 page tx); [apply Hr|done..]).
  eapply (HQ _ tx); try done.
  - do 3 (eapply inv_init; [intros sm; simpl; rewrite ?lookup_insert_ne by done; auto|]). done.
  - apply Hr.
  - eapply rtc_l; [apply (act_same k k1); [|done..]|].
    { intros y. erewrite frames_of_insert by done. case_decide; [|done]. subst. unfold frames_of. by rewrite Hp. }
    set (k2 := set_semas (<[S_load page := mk_sema 0 []]> (semas k1)) k1).
    set (k3 := set_semas (<[S_wait page := mk_sema 0 []]> (semas k2)) k2).
    eapply (rtc_l _ _ k2); [by eapply (act_init _ _ (S_load page) 0)|].
    eapply (rtc_l _ _ k3); [eapply (act_init _ _ (S_wait page) 0); try done|].
    { intros sm. simpl. rewrite lookup_insert_ne by done. auto. }
    eapply rtc_once, (act_init _ _ (S_exited page) 0); try done.
    intros sm. simpl. rewrite !lookup_insert_ne by done. auto.
Qed.

Lemma claims_nil l fs : (∀ f, f ∈ fs → claim l f = 0%nat) → claims l fs = 0%nat.
Proof.
  unfold claims. induction fs as [|f fs IH]; intros H; simpl; [done|].
  rewrite (H f), IH by (intros; apply H; set_solver) || set_solver. done.
Qed.

Lemma thread_create_good x t k nm prio function page :
  runs x t k → x ≠ idle_thread k → frames t = [] → usable k (C_thread_create nm prio function page) →
  wlp (thread_create nm prio function page) (λ _ k', good k k') k.
Proof.
  intros Hr Hni Hf [Hfun Hpage]. unfold thread_create. destruct (Z.eqb_spec page NULL) as [|H0].
  { wlp_go. by eapply good_here. }
  destruct Hpage as [?|(Hp & Hu1 & Hu2 & Hu3)]; [done|]. wlp_go.
  apply (init_thread_wlp x t k); try done. intros k1 tx Hi1 Et1 Hpar Hfx Hrun1 Ei1 He1 Ha1.
  destruct (runs_facts _ _ _ Hr) as (_ & Hst & Hm & _ & _).
  assert (page ≠ x) as Hpx by (intros ->; by rewrite (rn_thread _ _ _ Hr) in Hp).
  assert (threads k1 !! x = Some t) as Hx1 by (rewrite Et1, lookup_insert_ne by done; apply Hr).
  apply wlp_bind, wlp_wp. eapply wp_push_frame; [done|done|]. cbn beta. rewrite Hf.
  set (k2 := set_threads _ k1).
  assert (runs x (set_frames [F_create page function] t) k2) as Hr2.
  { split; [|simpl; apply lookup_insert_eq|done|done].
    eapply (inv_creator (Some page) None k1 k2 page x t _ tx); try done; rewrite ?Ei1; try done.
    - rewrite Et1. apply lookup_insert_eq.
    - split_and!; [apply plain_ok; [done|]|by left|done..]. by destruct function.
    - left. split_and!; try done. by exists function. }
  assert (rtc act k k2) as Ha2.
  { etrans; [done|]. apply rtc_once, (act_frames _ _ x); try done.
    - intros y Hy. erewrite frames_of_insert by done. by rewrite decide_False.
    - unfold frames_of. rewrite Hx1. simpl. by rewrite Hf.
    - intros l. erewrite frames_of_insert by done. rewrite decide_True by done.
      unfold frames_of. rewrite Hx1. simpl. by rewrite Hf. }
  wlp_go. eapply (wlp_mono _ (λ _ k', good k2 k')).
  - unfold allocate_tid. eapply push_then; try done; [simpl; by rewrite Ei1|].
    intros t' k' Hr' Ei' _. eapply lock_acquire_good; [done|]. rewrite Ei'. simpl. by rewrite Ei1.
  - intros [] k' Hg. wlp_go. by eapply good_trans.
Qed.

(** The rest of [thread_create], after the identifier. *)
Definition agree (k k' : kernel) : Prop :=
  core_thread <$> threads k' = core_thread <$> threads k ∧ same_core (set_threads (threads k') k) k' ∧
  holders k' = holders k ∧ in_external_intr k' = in_external_intr k ∧ intr k' = intr k.

Lemma upd_agree y f (Q : unit → kernel → Prop) k :
  (∀ t, core_thread (f t) = core_thread t) → (∀ k', agree k k' → Q tt k') → wlp (upd_thread y f) Q k.
Proof.
  intros Hc HQ. unfold upd_thread, load_thread. wlp_go. apply HQ. split; [|done]. simpl.
  rewrite fmap_insert, Hc, insert_id; [done|]. by rewrite lookup_fmap, H.
Qed.

Lemma agree_trans k1 k2 k3 : agree k1 k2 → agree k2 k3 → agree k1 k3.
Proof. unfold agree, same_core. simpl. intros (? & ? & ? & ? & ?) (? & ? & ? & ? & ?). split_and!; naive_solver congruence. Qed.

Lemma alloc_frame_wlp y n (Q : Z → kernel → Prop) k :
  (∀ k' a, agree k k' → Q a k') → wlp (alloc_frame y n) Q k.
Proof.
  intros HQ. unfold alloc_frame, is_thread, load_thread. case_match; wlp_go; [done|].
  apply upd_agree; [done|]. intros k' Hag. wlp_go. auto.
Qed.

Lemma agree_facts r L k k' : inv r L k → agree k k' →
  inv r L k' ∧ act k k' ∧ ∀ y t, threads k !! y = Some t → ∃ t', threads k' !! y = Some t' ∧ core_thread t' = core_thread t.
Proof.
  intros Hi (Em & Hc & Hh & _). destruct (inv_agree r L k k' Hc Em Hi) as [? Hf]. split_and!; [done| |].
  - apply act_same; [done| |done]. apply Hc.
  - intros y t Ht. assert (core_thread <$> threads k' !! y = core_thread <$> threads k !! y) as E.
    { by rewrite <-!lookup_fmap, Em. }
    rewrite Ht in E. destruct (threads k' !! y) as [t'|]; [|done]. apply (inj Some) in E. eauto.
Qed.

(** The frames of a loose thread. *)
Lemma inv_loose_frames r y t k fs :
  inv r (Some y) k → threads k !! y = Some t → (∀ z, creates fs z ↔ creates (frames t) z) →
  frames_ok (idle_thread k) y fs → inv r (Some y) (at_frames y fs t k).
Proof.
  intros Hi Hy Hcr Hok. destruct (inv_loose _ _ _ Hi y eq_refl) as (? & u & Hu & Hst). simplify_eq.
  destruct (inv_thread _ _ _ Hi _ _ Hy) as (? & ? & _ & _).
  assert (∀ p, y ∉ members k p) as Hno.
  { intros p Hp. by destruct (inv_member _ _ _ Hi p y Hp) as (_ & ? & _). }
  assert (∀ z, same_keys k (at_frames y fs t k) z) as Hk by (intros; by eapply same_keys_insert).
  eapply (inv_move r (Some y) r (Some y) k _ y t); try done.
  - intros z Hc. by destruct (inv_creating _ _ _ Hi z y Hc) as (_ & ? & _).
  - intros p. apply (inv_nodup _ _ _ Hi).
  - unfold located. simpl. rewrite Hst. auto.
  - intros p Hp. by destruct (Hno p).
  - intros p q Hp. by destruct (Hno p).
  - intros z Hz. by apply (inv_running _ _ _ Hi).
  - intros Hr. destruct (inv_running _ _ _ Hi y Hr) as (_ & u & ? & ?). simplify_eq. congruence.
  - eapply sorted_keys; [intros; apply Hk|apply (inv_ready_sorted _ _ _ Hi)].
  - eapply sorted_keys; [intros; apply Hk|apply (inv_sleep_sorted _ _ _ Hi)].
Qed.

Lemma thread_create_started_good x t k page function :
  runs x t k → x ≠ idle_thread k → frames t = [F_create page function] →
  wlp (upd_thread x (set_frames []);; run_frame (F_create page function)) (λ _ k', good k k') k.
Proof.
  intros Hr Hni Hf. destruct (runs_facts _ _ _ Hr) as (Hrun & Hst & Hm & _ & Hok).
  destruct (inv_creating _ _ _ (rn_inv _ _ _ Hr) x page) as (Hpi & _ & _ & tx & Hpage & _ & _ & Hfx).
  { unfold creating. rewrite (runs_frames x t), Hf by done. by exists function. }
  assert (page ≠ x) as Hpx by (intros ->; rewrite (rn_thread _ _ _ Hr) in Hpage; simplify_eq; congruence).
  wlp_go. apply wlp_wp. eapply wp_upd_thread; [apply Hr|]. cbn beta. set (k1 := set_threads _ k).
  assert (inv (Some x) (Some page) k1) as Hi1.
  { eapply (inv_creator None (Some page) k k1 page x t _ tx); try done; [apply Hr|apply Hr|].
    right. split_and!; try done. rewrite Hf. by exists function. }
  assert (act k k1) as Ha1.
  { apply (act_at x t k []); [done|]. intros l. by rewrite Hf. }
  cbn [run_frame]. unfold thread_create_started. wlp_go.
  assert (threads k1 !! x = Some (set_frames [] t)) as Hx1 by (simpl; apply lookup_insert_eq).
  eapply wlp_wp, (wp_current x); try done; [by destruct (inv_thread _ _ _ Hi1 _ _ Hx1) as (_ & ? & _)|].
  wlp_go. apply upd_agree; [done|]. intros k2 Hag2. wlp_go.
  apply alloc_frame_wlp. intros k3 ? Hag3. wlp_go.
  apply alloc_frame_wlp. intros k4 ? Hag4. wlp_go.
  apply alloc_frame_wlp. intros k5 ? Hag5. wlp_go.
  assert (agree k1 k5) as Hag by eauto using agree_trans.
  clear dependent k2 k3 k4. destruct (agree_facts _ _ _ _ Hi1 Hag) as (Hi5 & Ha5 & Hth).
  destruct (Hth x _ Hx1) as (t5 & Hx5 & (Hst5 & Hm5 & _ & _ & _ & Hf5)%core_fields).
  destruct (Hth page tx) as (tp & Hp5 & (_ & _ & _ & _ & _ & Hfp)%core_fields);
    [simpl; by rewrite lookup_insert_ne|]. rewrite Hfx in Hfp.
  destruct Hag as (_ & (_ & Hrun5 & Hid5 & _) & _ & He5 & _). simpl in *.
  assert (top_calm (frames t5)) as Hc5 by (by rewrite Hf5).
  set (k6 := at_frames page [F_kernel_thread function] tp k5).
  assert (inv (Some x) (Some page) k6) as Hi6.
  { apply inv_loose_frames; [done|done|intros z; rewrite Hfp; by apply creates_cons|]. split_and!; [|by left|done..]. rewrite Hid5.
    apply plain_ok; [done|]. rewrite Hf in Hok. destruct Hok as [Hfo _]. apply plain_ok in Hfo; [|done].
    by destruct function. }
  assert (act k5 k6) as Ha6.
  { eapply (act_frames _ _ page); try done.
    - intros y Hy. unfold k6. by rewrite frames_of_at, decide_False.
    - unfold frames_of. rewrite Hp5. simpl. by rewrite Hfp.
    - intros l. unfold k6. rewrite frames_of_at, decide_True by done. unfold frames_of. rewrite Hp5. simpl. by rewrite Hfp. }
  eapply wlp_wp, wp_upd_thread; [done|]. wlp_go.
  apply wlp_wp. eapply (thread_unblock_ok (Some x) page k6); [done|intros _; simpl; rewrite He5; apply Hr|].
  intros tp' Hp' Hi7. unfold load_thread. wlp_go.
  eapply (good_here x t5).
  - split; [done|simpl; by rewrite !lookup_insert_ne|done|simpl; rewrite He5; apply Hr].
  - eapply rtc_l; [done|]. eapply rtc_l; [done|]. eapply rtc_l; [done|]. apply rtc_once, act_same; try done.
    intros y. by apply unblocked_same.
Qed.

(** * Resuming a thread *)

(** The innermost frame is taken off. *)
Lemma runs_pop x t k f fs :
  inv (Some x) None k → threads k !! x = Some t → in_external_intr k = false →
  frames t = f :: fs → not_create f →
  runs x (set_frames fs t) (at_frames x fs t k) ∧ frame_ok (idle_thread k) x f.
Proof.
  intros Hi Hx He Hf Hn. destruct (leave_facts k x t Hi Hx) as (_ & _ & ? & Hok & _).
  rewrite Hf in Hok. destruct Hok as (Hfo & _ & Hc & _ & Hok). split; [|done].
  split; [|simpl; apply lookup_insert_eq|done|done].
  eapply (inv_upd_running k _ x t); try done. simpl. intros z. rewrite Hf. symmetry. by apply creates_cons.
Qed.

Section resume.
Variables (x : Z) (t : thread) (k : kernel) (f : frame) (fs : list frame).
Hypothesis Hi : inv (Some x) None k.
Hypothesis Hx : threads k !! x = Some t.
Hypothesis He : in_external_intr k = false.
Hypothesis Hf : frames t = f :: fs.
Hypothesis Hn : not_create f.
Let k1 := at_frames x fs t k.
Let t1 := set_frames fs t.

Lemma pop_runs : runs x t1 k1.
Proof. by eapply runs_pop. Qed.

Lemma pop_others : others_same x k k1.
Proof. intros y Hy. unfold k1. by rewrite frames_of_at, decide_False. Qed.

Lemma pop_frames : frames_of k x = f :: fs ∧ frames_of k1 x = fs.
Proof. split; [unfold frames_of; by rewrite Hx|]. unfold k1. by rewrite frames_of_at, decide_True. Qed.

Lemma pop_tok l : top_calm (f :: fs) → tok l (frames_of k x) = (claim l f + tok l (frames t1))%nat.
Proof.
  intros Hc. destruct pop_frames as [-> _]. rewrite tok_calm by done. simpl. f_equal.
  symmetry. apply tok_claims, pop_runs.
Qed.

Lemma pop_act : top_calm (f :: fs) → (∀ l, claim l f = 0%nat) → act k k1.
Proof.
  intros Hc Hcl. destruct pop_frames as [E E1]. eapply (act_frames _ _ x); try done; [apply pop_others|by rewrite E|].
  intros l. rewrite pop_tok, Hcl by done. by rewrite E1.
Qed.

Lemma pop_then (m : M kernel unit) :
  top_calm (f :: fs) → (∀ l, claim l f = 0%nat) →
  wlp m (λ _ k', good k1 k') k1 → wlp m (λ _ k', good k k') k1.
Proof.
  intros Hc Hcl Hm. eapply wlp_mono; [done|]. intros [] k'. by apply good_trans, rtc_once, pop_act.
Qed.

(** Back in [sema_down] after having been woken. *)
Lemma sema_down_again s lv :
  f = F_sema_down s lv → intr k = INTR_OFF → x ≠ idle_thread k →
  wlp (sema_down_loop s lv) (λ _ k', good k k') k1.
Proof.
  intros Ef Hoff Hni. pose proof pop_runs as Hr. pose proof pop_others as Ho. destruct pop_frames as [E E1].
  rewrite Ef in E. destruct (leave_facts k x t Hi Hx) as (Hrun & Hst & _ & Hok & Hno).
  rewrite Hf, Ef in Hok. destruct Hok as (_ & _ & Hc & Hcall & _).
  assert (∀ l, claims l fs = tok l (F_sema_down s lv :: fs) + lock_unit s l)%nat as Htok.
  { intros l. unfold lock_unit. destruct s as [| l0| | | |]; simpl in *; try lia.
    destruct fs as [|f' fs']; [done|]. injection Hcall as ->. simpl.
    destruct (decide (S_lock l0 = S_lock l)), (decide (l0 = l)); simplify_eq/=; lia. }
  destruct (semas k1 !! s) as [sm|] eqn:Hs; [|unfold sema_down_loop, load_sema; wlp_go; simplify_eq/=; congruence].
  assert (x ∉ waiters sm) as Hxw.
  { intros Hin. apply (Hno (InSema s)). simpl. unfold sema_waiters. change (semas k) with (semas k1). by rewrite Hs. }
  apply wlp_wp. eapply wp_mono.
  { apply (sema_down_loop_ok x t1 s sm lv k1); try done; apply Hr. }
  intros [] k' [Hok Hk']. destruct (value sm =? 0) eqn:Ev.
  - eapply good_switch; [done|done|simpl; apply Hr|]. apply rtc_once.
    apply Z.eqb_eq in Ev. eapply (act_wait _ _ x s sm); simpl; try done.
    + intros y Hy. rewrite <-Ho by done. erewrite frames_of_insert by done. by rewrite decide_False.
    + by rewrite Ev.
    + right. by exists lv, fs.
    + exists lv, fs. erewrite frames_of_insert by done. by rewrite decide_True.
    + intros l. erewrite frames_of_insert by done. rewrite decide_True by done. by rewrite E.
  - apply Z.eqb_neq in Ev. subst k'. eapply (good_here x t1).
    + split; [|apply Hr..]. simpl in Hok. by rewrite <-Hrun in Hok.
    + apply rtc_once. eapply (act_take _ _ x s sm); simpl; try done.
      * right. split; [by exists lv, fs|done].
      * intros l. rewrite E, <-Htok. etrans; [|by apply tok_claims]. f_equal. apply E1.
Qed.

(** [lock_acquire] sets the holder, [lock_release] raises the semaphore. *)
Lemma lock_acquired_good l : f = F_acquired l → wlp (lock_acquired l) (λ _ k', good k k') k1.
Proof.
  intros Ef. pose proof pop_runs as Hr. destruct pop_frames as [E E1].
  unfold lock_acquired, store_holder, load_holder. wlp_go. eapply wlp_current; [done|]. wlp_go.
  destruct (runs_facts _ _ _ Hr) as (_ & _ & _ & Hnull & _).
  eapply (good_here x t1); [by apply (runs_core _ _ k1)|].
  apply rtc_once. eapply (act_hold _ _ x l); try done; [apply pop_others|by rewrite E, Ef|].
  intros l'. rewrite pop_tok by (by rewrite Ef). rewrite Ef. simpl.
  change (frames_of _ x) with (frames_of k1 x). rewrite E1.
  destruct (decide (l = l')), (decide (l' = l)); simplify_eq/=; lia.
Qed.

Lemma lock_released_good l : f = F_released l → wlp (sema_up (S_lock l)) (λ _ k', good k k') k1.
Proof.
  intros Ef. pose proof pop_runs as Hr. destruct pop_frames as [E E1].
  eapply (sema_up_good x t1 k1 Hr k); try done; [apply pop_others|by rewrite E, Ef|].
  intros l'. rewrite pop_tok by (by rewrite Ef). rewrite Ef. simpl. unfold lock_unit.
  destruct (decide (l = l')), (decide (S_lock l = S_lock l')); simplify_eq/=; lia.
Qed.
End resume.

(** The running thread leaves with a frame that claims nothing. *)
Lemma switch_push x t k K k' f t' :
  runs x t k → threads K = <[x := t']> (threads k) → frames t' = f :: frames t →
  semas K = semas k → holders K = holders k → in_external_intr K = false →
  top_calm [f] → (∀ l, claim l f = 0%nat) → sched_ok k' → switched K k' → good k k'.
Proof.
  intros Hr Et Ef Es Eh He Hc Hcl Hok Hsw. eapply good_switch; [done..|]. apply rtc_once.
  eapply (act_frames _ _ x); try done.
  - intros y Hy. erewrite frames_of_insert by done. by rewrite decide_False.
  - rewrite (runs_frames x t) by done. apply Hr.
  - intros l. erewrite frames_of_insert by done. rewrite decide_True, Ef, tok_calm, Hcl by (by destruct f).
    rewrite (runs_frames x t), tok_claims by (done || apply Hr). done.
Qed.

Lemma thread_yield_good x t k : runs x t k → wlp thread_yield (λ _ k', good k k') k.
Proof.
  intros Hr. apply wlp_wp. eapply wp_mono; [by apply (thread_yield_ok x t); apply Hr|].
  intros [] k' [Hok Hsw]. eapply (switch_push x t k (yielded x t k)); try done. apply Hr.
Qed.

Lemma thread_sleep_good x t k :
  runs x t k → x ≠ idle_thread k → wlp thread_sleep (λ _ k', good k k') k.
Proof.
  intros Hr Hni. apply wlp_wp. eapply wp_mono; [by apply (thread_sleep_ok x t); [apply Hr|done|apply Hr..]|].
  intros [] k' [Hok Hsw]. eapply (switch_push x t k (slept x t k)); try done. apply Hr.
Qed.

Lemma idle_block_good x t k :
  runs x t k → x = idle_thread k → wlp idle_block (λ _ k', good k k') k.
Proof.
  intros Hr Hid. apply wlp_wp. eapply wp_mono; [by apply (idle_block_ok x t); [apply Hr|done|apply Hr..]|].
  intros [] k' [Hok Hsw]. eapply (switch_push x t k (idled x t k)); try done. apply Hr.
Qed.

Lemma idle_halt_good x t k :
  runs x t k → x = idle_thread k → wlp idle_halt (λ _ k', good k k') k.
Proof.
  intros Hr Hid. unfold idle_halt. wlp_go.
  assert (runs x t (set_intr INTR_ON k)) as Hr1 by (by apply (runs_core _ _ k)).
  eapply wlp_push_frame; [done|].
  eapply good_here; [apply runs_push; [done|done|simpl; rewrite Hid; by apply idle_ok|done]|].
  eapply rtc_l; [by apply (act_core k (set_intr INTR_ON k))|]. apply rtc_once, act_at; [done|].
  intros l. rewrite tok_calm by done. by rewrite (tok_claims l (frames t)) by apply Hr.
Qed.

Lemma thread_exit_good x t k :
  runs x t k → x ≠ idle_thread k → frames t = [] → wlp thread_exit (λ _ k', good k k') k.
Proof.
  intros Hr Hni Hf. apply wlp_wp. eapply wp_mono; [by apply (thread_exit_ok x t); [apply Hr|done|apply Hr|done|apply Hr]|].
  intros [] k' [Hok Hsw]. eapply good_switch; [done|done|apply Hr|]. apply rtc_once, act_same; try done.
  intros y. erewrite frames_of_insert by done. case_decide; [|done]. subst y. by rewrite (runs_frames x t).
Qed.

Lemma runs_agree x t k k' : runs x t k → agree k k' →
  ∃ t', runs x t' k' ∧ act k k' ∧ idle_thread k' = idle_thread k.
Proof.
  intros Hr Hag. destruct (agree_facts _ _ _ _ (rn_inv _ _ _ Hr) Hag) as (Hi & Ha & Hth).
  destruct (Hth x t (rn_thread _ _ _ Hr)) as (t' & Ht' & (_ & _ & _ & _ & _ & Ef)%core_fields).
  destruct Hag as (_ & (_ & _ & ? & _) & _ & He & _).
  exists t'. split_and!; [|done|done]. split; [done|done|rewrite Ef; apply Hr|rewrite He; apply Hr].
Qed.

Lemma allocate_tid_locked_good x t k y :
  runs x t k → x ≠ idle_thread k → wlp (allocate_tid_locked y) (λ _ k', good k k') k.
Proof.
  intros Hr Hni. unfold allocate_tid_locked, int32. wlp_go. case_match; [|by apply wlp_undef]. wlp_go.
  set (k1 := set_next_tid _ k). assert (runs x t k1) as Hr1 by (by apply (runs_core _ _ k)).
  apply upd_agree; [done|]. intros k2 Hag. destruct (runs_agree x t k1 k2 Hr1 Hag) as (t2 & Hr2 & Ha2 & Ei2).
  eapply wlp_mono; [eapply (lock_release_good x t2); [done|by rewrite Ei2]|].
  intros [] k'. apply good_trans. eapply rtc_l; [by apply (act_core k k1)|]. by apply rtc_once.
Qed.

Lemma timer_sleep_update_good x t k w :
  runs x t k → x ≠ idle_thread k → wlp (timer_sleep_update w) (λ _ k', good k k') k.
Proof.
  intros Hr Hni. unfold timer_sleep_update, thread_set_wakeup_time. wlp_go. eapply wlp_current; [done|].
  eapply (upd_thread_good x t k Hr (set_wakeup w t)); try done. intros k1 Hr1 Ei1 Ha1.
  change (wlp (push_frame F_sleep;; (c ← gets wakeup_call_time;
    if w <? c then push_frame (F_wakeup_write w) else mret tt)) (λ _ k', good k k') k1).
  apply (wlp_mono _ (λ _ k', good k1 k')); [|intros [] k'; by apply good_trans, rtc_once].
  eapply push_then; try done; [by rewrite Ei1|]. intros t2 k2 Hr2 Ei2 _. wlp_go. case_match.
  - eapply push_good; try done. by rewrite Ei2, Ei1.
  - wlp_go. by eapply good_here.
Qed.

Lemma same_good x t k k' : runs x t k → same_core k k' → holders k' = holders k →
  in_external_intr k' = in_external_intr k → good k k'.
Proof.
  intros Hr Hc Hh He. eapply (good_here x t); [by apply (runs_core _ _ k)|]. apply rtc_once, act_core; [apply Hc..|done].
Qed.

Lemma resume_good k : ok k → wlp resume (λ _ k', good k k') k.
Proof.
  intros [Hi He Htop]. unfold resume, running_thread, load_thread. wlp_go.
  match goal with H : threads k !! running k = Some ?u |- _ => rename H into Hx; rename u into t end.
  destruct (frames t) as [|f fs] eqn:Hf; [by apply wlp_undef|].
  assert (frames_of k (running k) = f :: fs) as Efr by (unfold frames_of; by rewrite Hx).
  rewrite Efr in Htop.
  assert (not_create f ∨ ∃ y g, f = F_create y g) as [Hn|(y & g & ->)] by (destruct f; eauto; by left).
  2: { destruct (leave_facts k _ t Hi Hx) as (_ & _ & _ & Hok & _). rewrite Hf in Hok.
       destruct Hok as (Hfo & [-> |?] & _); [|done].
       apply (thread_create_started_good _ t); [split; [done..|by rewrite Hf|done]| |done].
       intros E. unfold frame_ok in Hfo. by rewrite decide_True in Hfo. }
  destruct (runs_pop _ t k f fs Hi Hx He Hf Hn) as [Hr Hfo].
  apply wlp_bind, wlp_wp. eapply wp_upd_thread; [done|].
  set (x := running k) in *. change (wlp (run_frame f) (λ _ k', good k k') (at_frames x fs t k)).
  assert (∀ P : Prop, ¬ idle_frame f → (x ≠ idle_thread (at_frames x fs t k) → P) → P) as Hnot.
  { intros P Hid HP. apply HP. intros E. unfold frame_ok in Hfo. simpl in E. rewrite decide_True in Hfo by done. done. }
  assert (∀ P : Prop, ¬ plain_frame f → (x = idle_thread (at_frames x fs t k) → P) → P) as Hidle.
  { intros P Hid HP. apply HP. simpl. unfold frame_ok in Hfo. by case_decide. }
  destruct f as [lv|lv|s lv|l|l|w l|l|c l|y|y g|g|s| | |w|w|]; try done; cbn [run_frame];
    try (eapply (pop_then x t k _ fs); [done|done|done|done|done|done|done|]).
  - apply wlp_bind, wlp_intr_set_level; [done|]. wlp_go. by eapply same_good.
  - wlp_go. by eapply same_good.
  - apply Hnot; [by intros []|]. intros Hni. eapply (sema_down_again x t k _ fs); try done. by destruct Htop.
  - by eapply (lock_acquired_good x t k _ fs).
  - by eapply (lock_released_good x t k _ fs).
  - apply Hnot; [by intros []|]. intros Hni. eapply push_then; try done. intros t' k' Hr' Ei _.
    eapply sema_down_raw; try done. by rewrite Ei.
  - apply Hnot; [by intros []|]. intros Hni. by eapply lock_acquire_good.
  - apply Hnot; [by intros []|]. intros Hni. by eapply broadcast_loop_good.
  - apply Hnot; [by intros []|]. intros Hni. by eapply allocate_tid_locked_good.
  - unfold kernel_thread, intr_enable, intr_get_level, intr_context. wlp_go.
    apply Hnot; [by intros []|]. intros Hni. destruct g; [|wlp_go; by eapply same_good].
    exfalso. unfold frame_ok in Hfo. by rewrite decide_False in Hfo.
  - exfalso. unfold frame_ok in Hfo. by case_decide.
  - apply Hidle; [by intros []|]. intros Hid. by eapply idle_block_good.
  - apply Hidle; [by intros []|]. intros Hid. by eapply idle_halt_good.
  - apply Hnot; [by intros []|]. intros Hni. by eapply timer_sleep_update_good.
  - wlp_go. by eapply same_good.
  - apply Hnot; [by intros []|]. intros Hni. by eapply thread_sleep_good.
Qed.

Lemma interrupt_good k : ok k → intr k = INTR_ON → wlp interrupt (λ _ k', good k k') k.
Proof.
  intros [Hi He Htop] Hon. destruct (inv_running _ _ _ Hi _ eq_refl) as (_ & t & Ht & _).
  assert (runs (running k) t k) as Hr.
  { split; [done|done| |done]. destruct Htop as [Htop|]; [|congruence]. unfold frames_of in Htop. by rewrite Ht in Htop. }
  destruct (decide (- 2 ^ 63 ≤ ticks k + 1 < 2 ^ 63)) as [Htk|Htk].
  - apply wlp_wp. eapply wp_mono; [by apply (interrupt_ok k t); [..|apply Hr| |]|].
    intros [] k' (Hok & He' & k1 & Hw & Hk').
    destruct (timer_woken_same _ _ Hw) as (_ & _ & Hrun & _ & _ & Es & Eh & _ & _ & _ & Hfr). simpl in *.
    assert (rtc act k k1) as Ha.
    { eapply (rtc_l _ _ (entered t k)).
      - eapply (act_frames _ _ (running k)); try done.
        + intros y Hy. erewrite frames_of_insert by done. by rewrite decide_False.
        + rewrite (runs_frames _ t) by done. apply Hr.
        + intros l. erewrite frames_of_insert by done. rewrite decide_True by done. simpl.
          rewrite (runs_frames _ t), (tok_claims l (frames t)) by (done || apply Hr). done.
      - apply rtc_once, act_same; [apply Hfr|done..]. }
    destruct (yield_on_return k1).
    + destruct Hk' as (t1 & Ht1 & Hsw). eapply good_switch; [done|done|done|]. etrans; [done|].
      assert (frames_of k1 (running k) = F_iret INTR_ON :: frames t) as Ef1.
      { rewrite Hfr. erewrite frames_of_insert by done. by rewrite decide_True. }
      assert (frames t1 = F_iret INTR_ON :: frames t) as Eft by (unfold frames_of in Ef1; by rewrite Ht1 in Ef1).
      apply rtc_once, (act_frames _ _ (running k)); try done.
      * intros y Hy. erewrite (frames_of_insert k1) by done. by rewrite decide_False.
      * by rewrite Ef1.
      * intros l. erewrite (frames_of_insert k1) by done. rewrite decide_True, Ef1 by done. simpl. by rewrite Eft.
    + subst k'. split; [|etrans; [done|]; by apply rtc_once, act_core]. split; [done|done|left].
      change (frames_of _ _) with (frames_of k1 (running k1)). rewrite Hrun, Hfr.
      erewrite frames_of_insert by done. by rewrite decide_True.
  - unfold interrupt, push_frame, running_thread, upd_thread, load_thread, intr_handler, timer_interrupt. wlp_go.
    unfold intr_get_level, intr_context. wlp_go. simpl. unfold int64.
    rewrite (proj2 (andb_false_iff _ _)) by lia. apply wlp_undef.
Qed.

Lemma run_call_good k c :
  ok k → running k ≠ idle_thread k → frames_of k (running k) = [] → usable k c →
  wlp (run_call c) (λ _ k', good k k') k.
Proof.
  intros [Hi He _] Hni Hf Hu. destruct (inv_running _ _ _ Hi _ eq_refl) as (_ & t & Ht & _).
  assert (frames t = []) as Hft by (unfold frames_of in Hf; by rewrite Ht in Hf).
  assert (runs (running k) t k) as Hr by (split; [done..|by rewrite Hft|done]).
  destruct c; cbn [run_call].
  - destruct Hu as (? & ? & ?). by eapply sema_init_good.
  - by eapply sema_down_raw.
  - wlp_go. eapply wlp_mono; [by eapply sema_try_down_good|]. intros b k' Hg. by wlp_go.
  - by eapply sema_up_raw.
  - destruct Hu. by eapply lock_init_good.
  - by eapply lock_acquire_good.
  - wlp_go. eapply wlp_mono; [by eapply lock_try_acquire_good|]. intros b k' Hg. by wlp_go.
  - by eapply lock_release_good.
  - by eapply cond_init_good.
  - by eapply cond_wait_good.
  - by eapply cond_signal_good.
  - unfold cond_broadcast. wlp_go. by eapply broadcast_loop_good.
  - wlp_go. eapply wlp_mono; [by eapply thread_create_good|]. intros b k' Hg. by wlp_go.
  - by eapply thread_yield_good.
  - by eapply thread_exit_good.
  - by eapply thread_set_priority_good.
  - by eapply timer_sleep_good.
Qed.

Lemma wlp_elim {S A} (m : M S A) Q s a s' : wlp m Q s → m s = Ok (a, s') → Q a s'.
Proof. Transparent wlp. intros H. apply H. Opaque wlp. Qed.

Theorem step_good k k' : ok k → step k k' → good k k'.
Proof.
  intros Hok Hs. destruct Hs as [c k k' Hni Hf Hu E|k k' E|k k' Hon E].
  - exact (wlp_elim _ (λ _ k', good k k') _ _ _ (run_call_good k c Hok Hni Hf Hu) E).
  - exact (wlp_elim _ (λ _ k', good k k') _ _ _ (resume_good k Hok) E).
  - exact (wlp_elim _ (λ _ k', good k k') _ _ _ (interrupt_good k Hok Hon) E).
Qed.

(** The invariants of a running system. *)
Record system_ok (k : kernel) : Prop := {
  sy_ok : ok k; sy_semas : semas_ok k; sy_locks : locks_ok k }.

Lemma acts_ok k k' : rtc act k k' → semas_ok k → locks_ok k → semas_ok k' ∧ locks_ok k'.
Proof.
  induction 1 as [|k k1 k' Ha _ IH]; [done|]. intros Hs Hl.
  apply IH; [by eapply act_semas_ok|by eapply act_locks_ok].
Qed.

Lemma steps_ok k k' : rtc step k k' → system_ok k → system_ok k'.
Proof.
  induction 1 as [|k k1 k' Hs _ IH]; [done|]. intros [Hok Hsem Hlk]. apply IH.
  destruct (step_good k k1 Hok Hs) as [? Ha]. destruct (acts_ok _ _ Ha Hsem Hlk). by split.
Qed.
