(* ===== verification/ThreadTheorems.v ===== *)
(** The theorems about threads, semaphores, locks and the timer, over all
    interleavings of the steps of [SchedInv.v]. *)
From Stdlib Require Import ZArith Lia.
From stdpp Require Import base tactics option list gmap sorting relations.
From S2P Require Import Prelude Threads SchedInv SchedOps SchedSteps.
From S2P Require KList.

Open Scope Z_scope.

(** * A booted system

    The memory before [thread_init]: the code runs on the page at 4096. *)
Module Boot.
Definition memory : kernel :=
  mk_kernel ∅ 4096 NULL NULL [] [] INT64_MAX ∅ ∅ ∅ INTR_OFF false false 0 0 0 0 0 1.

Fixpoint resumes (n : nat) : M kernel unit :=
  match n with O => mret tt | S n => resume;; resumes n end.

(** [thread_init] and [thread_start], with the idle thread on the page at
    8192, until the main thread is back. *)
Definition boot : M kernel unit :=
  thread_init;; resumes 3;; thread_start 300 8192;; resumes 8.

Definition main_thread : thread :=
  mk_thread 1 THREAD_RUNNING [109; 97; 105; 110] 8192 PRI_DEFAULT 0 NULL 3 4096 [8192]
    false 0 false THREAD_MAGIC 0 [] [].
Definition idle_thread : thread :=
  mk_thread 2 THREAD_BLOCKED [105; 100; 108; 101] 12244 PRI_MIN 0 NULL 3 4096 []
    false 0 false THREAD_MAGIC 0 [] [F_halt].
Definition booted : kernel :=
  mk_kernel {[ 4096 := main_thread; 8192 := idle_thread ]} 4096 8192 4096 [] [] INT64_MAX
    {[ S_lock tid_lock := mk_sema 1 []; S_at 300 := mk_sema 0 [];
       S_load 4096 := mk_sema 0 []; S_wait 4096 := mk_sema 0 []; S_exited 4096 := mk_sema 0 [];
       S_load 8192 := mk_sema 0 []; S_wait 8192 := mk_sema 0 []; S_exited 8192 := mk_sema 0 [] ]}
    {[ tid_lock := NULL ]} ∅ INTR_ON false false 0 0 0 0 0 3.

Example boot_booted : boot memory = Ok (tt, booted).
Proof. vm_compute. reflexivity. Qed.

Lemma booted_thread x t :
  threads booted !! x = Some t → x = 4096 ∧ t = main_thread ∨ x = 8192 ∧ t = idle_thread.
Proof.
  simpl. intros [[<- <-]|[_ [<- <-]%lookup_singleton_Some]]%lookup_insert_Some; auto.
Qed.

Lemma booted_waiters s : sema_waiters booted s = [].
Proof.
  unfold sema_waiters. destruct (semas booted !! s) as [sm|] eqn:E; [|done].
  assert (map_Forall (λ _ x, waiters x = []) (semas booted)) as H.
  { repeat (apply map_Forall_insert_2; [done|]). by apply map_Forall_empty. }
  by apply (H s sm).
Qed.

Lemma booted_no_member p x : x ∉ members booted p.
Proof. destruct p; simpl; rewrite ?booted_waiters; apply not_elem_of_nil. Qed.

Lemma booted_frames y : frames_of booted y = [] ∨ frames_of booted y = [F_halt].
Proof.
  unfold frames_of. destruct (threads booted !! y) as [t|] eqn:E; [|by left].
  apply booted_thread in E as [[-> ->]|[-> ->]]; auto.
Qed.

Lemma booted_ok : system_ok booted.
Proof.
  split.
  - split; [|done|by left]. split; try done.
    + intros x t Ht. unfold located.
      apply booted_thread in Ht as [[-> ->]|[-> ->]]; simpl; split_and!; try done; [by left|].
      left. split; [done|]. by eexists.
    + intros p x Hx. by apply booted_no_member in Hx.
    + intros []; simpl; rewrite ?booted_waiters; apply NoDup_nil_2.
    + intros p q x Hx. by apply booted_no_member in Hx.
    + intros y x [f Hc]. by destruct (booted_frames y) as [E|E]; rewrite E in Hc.
    + intros x [= <-]. split; [done|]. by exists main_thread.
  - intros s sm Hs.
    assert (map_Forall (λ _ x, is_u32 (value x) ∧ waiters x = []) (semas booted)) as H.
    { repeat (apply map_Forall_insert_2; [split; [by compute|done]|]). by apply map_Forall_empty. }
    destruct (H s sm Hs) as [? Hw]. split; [done|rewrite Hw; apply NoDup_nil_2| |by left].
    rewrite Hw. by intros x ?%not_elem_of_nil.
  - intros l. assert (∀ y, tok l (frames_of booted y) = 0%nat) as Htok.
    { intros y. by destruct (booted_frames y) as [-> | ->]. }
    unfold lock_ok. destruct (decide (l = tid_lock)) as [->|Hl].
    + eexists. split; [done|]. left. split; [done|]. intros y. unfold units. rewrite Htok, decide_False by naive_solver. done.
    + assert (holders booted !! l = None) as -> by (by apply lookup_singleton_ne).
      split; [|done]. simpl. rewrite lookup_insert_ne by congruence.
      repeat rewrite lookup_insert_ne by done. by rewrite lookup_singleton_ne.
Qed.
End Boot.

(** * Runs

    A run is a sequence of steps that is executed; what the callers owe is
    checked on the way. *)
Inductive event := Ev_call (c : call) | Ev_resume | Ev_tick.

Definition unwaitedb (k : kernel) (s : sema_id) : bool :=
  match semas k !! s with Some x => bool_decide (waiters x = []) | None => true end.
Definition rawb (s : sema_id) : bool := match s with S_lock _ => false | _ => true end.

Definition usableb (k : kernel) (c : call) : bool :=
  match c with
  | C_sema_init sema v => rawb sema && (0 <=? v) && (v <? 2 ^ 32) && unwaitedb k sema
  | C_sema_down sema | C_sema_try_down sema | C_sema_up sema => rawb sema
  | C_lock_init lock => bool_decide (holders k !! lock = None) && unwaitedb k (S_lock lock)
  | C_cond_wait waiter _ _ => unwaitedb k (S_elem waiter)
  | C_thread_create _ _ (FUNC_idle _) _ => false
  | C_thread_create _ _ (FUNC_other _ _) page => (page =? NULL) ||
      match threads k !! page with
      | None => unwaitedb k (S_load page) && unwaitedb k (S_wait page) && unwaitedb k (S_exited page)
      | Some _ => false
      end
  | _ => true
  end.

Definition perform (e : event) : M kernel unit :=
  k ← get;
  match e with
  | Ev_call c =>
      if negb (running k =? idle_thread k) && usableb k c &&
         match frames_of k (running k) with [] => true | _ => false end
      then run_call c else undef
  | Ev_resume => resume
  | Ev_tick => if decide (intr k = INTR_ON) then interrupt else undef
  end.

Fixpoint run (es : list event) : M kernel unit :=
  match es with [] => mret tt | e :: es => perform e;; run es end.

Lemma unwaitedb_ok k s : unwaitedb k s = true → unwaited k s.
Proof. unfold unwaitedb, unwaited. intros H x E. rewrite E in H. by apply bool_decide_eq_true in H. Qed.

Lemma usableb_ok k c : usableb k c = true → usable k c.
Proof.
  assert (∀ s, rawb s = true → raw s) as Hraw by by intros [].
  destruct c; simpl; try done; try apply Hraw; try apply unwaitedb_ok.
  - intros [[[? ?]%andb_true_iff ?]%andb_true_iff ?%unwaitedb_ok]%andb_true_iff.
    split_and!; [auto|unfold is_u32; lia|done].
  - intros [?%bool_decide_eq_true ?%unwaitedb_ok]%andb_true_iff. done.
  - destruct function; [done|]. intros [?%Z.eqb_eq|H]%orb_true_iff; [by split; [|left]|]. split; [done|right].
    destruct (threads k !! page); [done|].
    apply andb_true_iff in H as [[?%unwaitedb_ok ?%unwaitedb_ok]%andb_true_iff ?%unwaitedb_ok]. done.
Qed.

Lemma run_steps es k k' : run es k = Ok (tt, k') → rtc step k k'.
Proof.
  revert k. induction es as [|e es IH]; intros k; simpl.
  - intros [= ->]. apply rtc_refl.
  - unfold mbind, M_bind. destruct (perform e k) as [[[] k1]| | |] eqn:E; [|done..].
    intros Hr. eapply rtc_l; [|by apply IH]. revert E. unfold perform, mbind, M_bind. simpl.
    destruct e as [c| |]; [|by apply step_resume|].
    + destruct (negb _ && _ && _) eqn:G; [|done].
      apply andb_true_iff in G as [[Hn Hu]%andb_true_iff Hf]. intros E. apply (step_call c); [|by destruct (frames_of _ _)| |done].
      * apply negb_true_iff, Z.eqb_neq in Hn. done.
      * by apply usableb_ok.
    + case_decide; [|done]. by apply step_interrupt.
Qed.

(** Creating a thread on [page] with the default priority. *)
Definition create (page : Z) : list event :=
  [Ev_call (C_thread_create [] PRI_DEFAULT (FUNC_other 0 0) page); Ev_resume; Ev_resume; Ev_resume; Ev_resume].

(** The elements of a list are its head and those of its tail. *)
Lemma elem_of_head_tail (d y : Z) l : y ∈ l → y ∈ tail l ∨ y = default d (head l).
Proof. intros Hy. destruct l; [by apply not_elem_of_nil in Hy|]. apply elem_of_cons in Hy as [->|]; auto. Qed.

Module Scheduling.

(** The main thread waits for a semaphore; the idle thread runs. *)
Definition waiting : kernel :=
  match run_call (C_sema_down (S_at 300)) Boot.booted with Ok (_, k) => k | _ => Boot.booted end.

Lemma waiting_steps : rtc step Boot.booted waiting.
Proof.
  apply rtc_once, (step_call (C_sema_down (S_at 300))); [done|done|done|].
  vm_compute. reflexivity.
Qed.

(** C23: However calls, resumed threads and timer interrupts interleave: exactly
    one thread has the status running; the run queue holds exactly the ready
    threads other than the idle thread, in the order of their priorities; the
    sleepers are in the order of their times; a thread's list element is in at
    most one queue, and there once; every blocked thread other than the idle
    thread is in a queue from which it will be woken, or is being created. *)
Theorem scheduler_invariant k k' :
  system_ok k → rtc step k k' →
  (∀ x, (∃ t, threads k' !! x = Some t ∧ status t = THREAD_RUNNING) ↔ x = running k') ∧
  (∀ x, x ∈ ready_list k' ↔ x ≠ idle_thread k' ∧ ∃ t, threads k' !! x = Some t ∧ status t = THREAD_READY) ∧
  StronglySorted (λ a b, prio k' b ≤ prio k' a) (ready_list k') ∧
  StronglySorted (λ a b, wakeup_of k' a ≤ wakeup_of k' b) (sleep_list k') ∧
  (∀ p, NoDup (members k' p)) ∧
  (∀ p q x, x ∈ members k' p → x ∈ members k' q → p = q) ∧
  (∀ x t, threads k' !! x = Some t → status t = THREAD_BLOCKED → x ≠ idle_thread k' →
     (∃ p, p ≠ InReady ∧ x ∈ members k' p) ∨ ∃ y, creating k' y x).
Proof.
  intros Hk Hs. destruct (steps_ok k k' Hs Hk) as [[Hi _ _] _ _]. split_and!.
  - intros x. split.
    + intros (t & Ht & Hst). destruct (inv_thread _ _ _ Hi x t Ht) as (_ & _ & _ & Hl).
      unfold located in Hl. rewrite Hst in Hl. by injection Hl.
    + intros ->. by destruct (inv_running _ _ _ Hi _ eq_refl) as [_ ?].
  - intros x. split.
    + intros Hx. destruct (inv_member _ _ _ Hi InReady x Hx) as (? & _ & t & ? & ? & _). eauto.
    + intros (Hni & t & Ht & Hst). destruct (inv_thread _ _ _ Hi x t Ht) as (_ & _ & _ & Hl).
      unfold located in Hl. rewrite Hst in Hl. by destruct Hl.
  - by eapply ready_strongly_sorted.
  - by eapply sleep_strongly_sorted.
  - apply (inv_nodup _ _ _ Hi).
  - apply (inv_once _ _ _ Hi).
  - intros x t Ht Hst Hni. destruct (inv_thread _ _ _ Hi x t Ht) as (_ & _ & _ & Hl).
    unfold located in Hl. rewrite Hst in Hl.
    destruct Hl as [[? _]|[?|[?|[[s ?]|?]]]]; [done|done|left; by exists InSleep|left; by exists (InSema s)|by right].
Qed.

Lemma scheduler_invariant_witness :
  running waiting = 8192 ∧ members waiting (InSema (S_at 300)) = [4096] ∧
  (∀ p q x, x ∈ members waiting p → x ∈ members waiting q → p = q).
Proof.
  split_and!; [done|done|].
  apply (scheduler_invariant Boot.booted waiting); [apply Boot.booted_ok|apply waiting_steps].
Defined.

(** C26: [thread_yield] never fails in such a state, whatever the run queue
    holds.  The yielding thread is queued behind all ready threads of its own or
    a higher priority and before those of a lower one; the first of the queue
    gets the processor, and the others keep their order.  So the processor goes
    to a thread with the highest priority among the ready ones and the yielding
    one, among equals to the one that was queued first, and threads of equal
    priority take turns. *)
Theorem thread_yield_highest k x t :
  inv (Some x) None k → threads k !! x = Some t → frames t = [] → x ≠ idle_thread k →
  in_external_intr k = false →
  wp thread_yield (λ _ k', sched_ok k' ∧ prio k x ≤ prio k (running k') ∧
    (∀ y, y ∈ ready_list k → prio k y ≤ prio k (running k')) ∧
    (running k' = x → ∀ y, y ∈ ready_list k → prio k y < prio k x) ∧
    ∃ before after, ready_list k = before ++ after ∧
      (∀ y, y ∈ before → prio k x ≤ prio k y) ∧ (∀ y, y ∈ after → prio k y < prio k x) ∧
      running k' :: ready_list k' = before ++ x :: after) k.
Proof.
  intros Hi Hx Hf Hni Hext. assert (top_calm (frames t)) as Hc by (by rewrite Hf).
  eapply wp_mono; [by apply (thread_yield_ok x t)|]. intros [] k' [Hok Hsw].
  pose proof (ready_strongly_sorted _ _ _ Hi) as Hs.
  destruct (queued_behind k x (ready_list k)) as (before & after & El & Eq & Hb & Ha); [by exists t| |done|].
  { intros y Hy. by eapply (inv_member_some _ _ _ InReady). }
  assert (running k' :: ready_list k' = before ++ x :: after) as Er.
  { rewrite (sw_next _ _ Hsw), (sw_ready _ _ Hsw). simpl. apply Z.eqb_neq in Hni. rewrite Hni, Eq.
    by destruct before. }
  rewrite El in Hs |- *. apply StronglySorted_app in Hs as (Hba & Hs1 & _).
  assert (∀ y, y ∈ before ++ x :: after → prio k y ≤ prio k (running k')) as Hmax.
  { destruct before as [|z before]; injection Er as Er _; rewrite Er; simpl.
    - intros y [->|Hy]%elem_of_cons; [lia|]. specialize (Ha y Hy). lia.
    - apply StronglySorted_inv in Hs1 as [_ Hs1]. rewrite Forall_forall in Hs1.
      intros y [->|[Hy|[->|Hy]%elem_of_cons]%elem_of_app]%elem_of_cons; [lia|by apply Hs1|apply Hb; by left|].
      specialize (Ha y Hy). specialize (Hb z ltac:(left)). lia. }
  split_and!; [done|apply Hmax, elem_of_app; right; by left| | |by exists before, after].
  - intros y Hy. apply Hmax. rewrite elem_of_app, elem_of_cons in *. tauto.
  - intros Ex y [Hy|Hy]%elem_of_app; [|by apply Ha]. exfalso.
    destruct (leave_facts k x t Hi Hx) as (_ & _ & _ & _ & Hno). apply (Hno InReady). simpl. rewrite El.
    destruct before as [|z before]; [by apply not_elem_of_nil in Hy|]. injection Er as Er _.
    rewrite <-Ex, Er. by left.
Qed.

(** Two more threads of the main thread's priority are ready: the one created
    first runs next, and the main thread is queued behind the other. *)
Definition two_ready : kernel :=
  match run (create 12288 ++ create 16384) Boot.booted with Ok (_, k) => k | _ => Boot.booted end.

Lemma two_ready_ok : system_ok two_ready.
Proof.
  apply (steps_ok Boot.booted); [|apply Boot.booted_ok].
  eapply (run_steps (create 12288 ++ create 16384)). vm_compute. reflexivity.
Qed.

Lemma thread_yield_highest_witness :
  ready_list two_ready = [12288; 16384] ∧ prio two_ready 12288 = prio two_ready 4096 ∧
  prio two_ready 16384 = prio two_ready 4096 ∧
  wp thread_yield (λ _ k', running k' = 12288 ∧ ready_list k' = [16384; 4096]) two_ready.
Proof.
  assert (ready_list two_ready = [12288; 16384] ∧ prio two_ready 12288 = prio two_ready 4096 ∧
    prio two_ready 16384 = prio two_ready 4096) as (El & E1 & E2) by (split_and!; vm_compute; reflexivity).
  split; [exact El|split; [exact E1|split; [exact E2|]]].
  assert (∃ t, threads two_ready !! 4096 = Some t ∧ frames t = []) as (t & Et & Hf).
  { eexists. split; vm_compute; reflexivity. }
  assert (running two_ready = 4096) as Erun by (vm_compute; reflexivity).
  pose proof two_ready_ok as [[Hi _ _] _ _]. rewrite Erun in Hi.
  eapply wp_mono; [apply (thread_yield_highest two_ready 4096 t);
    [exact Hi|exact Et|exact Hf|vm_compute; discriminate|vm_compute; reflexivity]|].
  intros _ k' (_ & _ & _ & _ & before & after & El' & _ & Ha & Er).
  clear t Et Hf Hi Erun. revert El El' Ha E1 E2. generalize two_ready. intros k El El' Ha E1 E2.
  destruct after as [|y after].
  - rewrite app_nil_r, El in El'. subst before. by injection Er as -> ->.
  - specialize (Ha y ltac:(left)).
    assert (y ∈ ready_list k) as Hy by (rewrite El'; apply elem_of_app; right; left).
    rewrite El in Hy. apply elem_of_cons in Hy as [->|Hy]; [lia|]. apply list_elem_of_singleton in Hy as ->. lia.
Defined.

(** C27: While [wakeup_call_time] is not later than any sleeper's time, a timer
    interrupt that is taken with interrupts on and before the clock overflows
    never fails: the clock advances by one, and of the sleepers exactly those
    whose time has come leave the queue of sleepers, each to be ready or
    running; the bound is kept.  A [timer_sleep] that is preempted can break the
    bound ([Findings.Sleeping.sleeper_is_late]). *)
Theorem timer_interrupt_wakes k :
  ok k → intr k = INTR_ON → - 2 ^ 63 ≤ ticks k + 1 < 2 ^ 63 →
  (∀ x, x ∈ sleep_list k → wakeup_call_time k ≤ wakeup_of k x) →
  wp interrupt (λ _ k', ok k' ∧ ticks k' = ticks k + 1 ∧
    sleep_list k' = filter (λ x, ticks k + 1 < wakeup_of k x) (sleep_list k) ∧
    (∀ x, x ∈ sleep_list k → wakeup_of k x ≤ ticks k + 1 → x ∈ ready_list k' ∨ x = running k') ∧
    (∀ x, x ∈ sleep_list k' → wakeup_call_time k' ≤ wakeup_of k x)) k.
Proof.
  intros Hok Hon Htk Hcall. pose proof (interrupt_good k Hok Hon) as Hg. destruct Hok as [Hi He Htop].
  destruct (inv_running _ _ _ Hi _ eq_refl) as (_ & t & Ht & _).
  assert (top_calm (frames t)) as Hc.
  { destruct Htop as [Htop|]; [|congruence]. unfold frames_of in Htop. by rewrite Ht in Htop. }
  pose proof (interrupt_ok k t Hi Ht Hc He Htk) as Hwp. apply wp_ok in Hwp as ([] & k' & E & Hpost).
  apply wp_ok. exists tt, k'. split; [done|]. destruct (wlp_elim _ _ _ _ _ Hg E) as [Hok' _].
  split; [done|]. destruct Hpost as (_ & _ & k1 & Hw & Hk').
  assert (∀ y, wakeup_of (entered t k) y = wakeup_of k y) as Ew.
  { intros y. unfold wakeup_of, entered. simpl. destruct (decide (y = running k)) as [->|].
    - by rewrite lookup_insert_eq, Ht.
    - by rewrite lookup_insert_ne. }
  assert (∀ y, y ∈ ready_list k1 → y ∈ ready_list k' ∨ y = running k') as Hrun.
  { destruct (yield_on_return k1); [|subst; simpl; auto]. destruct Hk' as (t1 & _ & Hsw). intros y Hy.
    rewrite (sw_next _ _ Hsw), (sw_ready _ _ Hsw). simpl.
    apply (elem_of_head_tail (idle_thread k1)). destruct (running k =? idle_thread k1); [done|].
    apply elem_of_insert_seq. by left. }
  assert (sleep_list k' = sleep_list k1 ∧ ticks k' = ticks k1 ∧ wakeup_call_time k' = wakeup_call_time k1) as (-> & -> & ->).
  { destruct (yield_on_return k1); [|by subst]. destruct Hk' as (t1 & _ & Hsw).
    split_and!; [by rewrite (sw_sleep _ _ Hsw)|by rewrite (sw_ticks _ _ Hsw)|by rewrite (sw_call_time _ _ Hsw)]. }
  assert (ticks k1 = ticks k + 1) as -> by apply (timer_woken_same _ _ Hw).
  split; [done|]. destruct Hw as (k0 & ((Et0 & _ & _ & _ & Es0 & _) & _ & _ & _ & Ec0 & _) & Hw). simpl in *.
  assert (∀ y, wakeup_of k0 y = wakeup_of k y) as Ew0.
  { intros y. rewrite <-Ew. unfold wakeup_of. by rewrite Et0. }
  destruct (Z.leb_spec (wakeup_call_time k) (ticks k + 1)) as [Hle|Hlt].
  - destruct Hw as [H1 H2 _ _ _ H6 _].
    assert (sleep_list k1 = filter (λ x, ticks k + 1 < wakeup_of k x) (sleep_list k)) as Es1.
    { rewrite H1, Es0. apply list_filter_iff. intros y. by rewrite Ew0. }
    split; [done|]. split.
    + intros y Hy Hw. apply Hrun. rewrite H2, elem_of_app, list_elem_of_filter, Es0, Ew0. by left.
    + rewrite Es1. intros y [_ Hy]%list_elem_of_filter. specialize (Hcall y Hy). lia.
  - subst k1. rewrite Es0, Ec0. split_and!; [| |done].
    2: { intros y Hy Hw. specialize (Hcall y Hy). lia. }
    symmetry. apply filter_all, Forall_forall.
    intros y Hy. specialize (Hcall y Hy). lia.
Qed.

(** The main thread sleeps for one tick and another thread for five; the idle
    thread runs.  The next interrupt wakes the first and not the second. *)
Definition both_sleep : list event :=
  create 12288 ++ [Ev_call (C_timer_sleep 1); Ev_resume; Ev_resume; Ev_resume; Ev_resume;
    Ev_call (C_timer_sleep 5); Ev_resume; Ev_resume; Ev_resume].
Definition two_sleepers : kernel :=
  match run both_sleep Boot.booted with Ok (_, k) => k | _ => Boot.booted end.

Lemma two_sleepers_ok : system_ok two_sleepers.
Proof.
  apply (steps_ok Boot.booted); [|apply Boot.booted_ok].
  eapply (run_steps both_sleep). vm_compute. reflexivity.
Qed.

Lemma timer_interrupt_wakes_witness :
  sleep_list two_sleepers = [4096; 12288] ∧
  wp interrupt (λ _ k', ticks k' = 1 ∧ sleep_list k' = [12288] ∧
    (4096 ∈ ready_list k' ∨ 4096 = running k')) two_sleepers.
Proof.
  assert (sleep_list two_sleepers = [4096; 12288] ∧ ticks two_sleepers = 0 ∧
    wakeup_call_time two_sleepers = 1 ∧ wakeup_of two_sleepers 4096 = 1 ∧
    wakeup_of two_sleepers 12288 = 5) as (El & Et & Ec & E1 & E2) by (split_and!; vm_compute; reflexivity).
  split; [exact El|]. pose proof two_sleepers_ok as [Hok _ _].
  eapply wp_mono; [apply (timer_interrupt_wakes two_sleepers);
    [exact Hok|vm_compute; reflexivity|rewrite Et; lia|]|].
  - intros x. rewrite El, Ec. intros [->|Hx]%elem_of_cons; [lia|].
    apply list_elem_of_singleton in Hx as ->. lia.
  - intros _ k' (_ & Et' & Es & Hw & _). clear Hok Ec. revert El Et E1 E2 Et' Es Hw.
    generalize two_sleepers. intros k El Et E1 E2 Et' Es Hw. rewrite Et in Et', Es, Hw. split; [exact Et'|split].
    + rewrite Es, El, !filter_cons, E1, E2. reflexivity.
    + apply Hw; [rewrite El; left|rewrite E1; lia].
Defined.
End Scheduling.

Module Synchronization.

(** Thread [x] is in the critical section of lock [l]: it is the holder, or it
    has taken the lock's semaphore and is about to become the holder, or it
    has resigned as the holder and is about to raise the semaphore. *)
Definition inside (k : kernel) (l x : Z) : Prop :=
  holders k !! l = Some x ∧ x ≠ NULL ∨ (0 < tok l (frames_of k x))%nat.

(** C24: Locks exclude: in every state that a system can reach by any
    interleaving, at most one thread is inside a lock, and while one is, the
    lock's semaphore is down. *)
Theorem lock_mutual_exclusion k k' l x :
  system_ok k → rtc step k k' → inside k' l x →
  (∀ y, inside k' l y → y = x) ∧
  ∃ sm, semas k' !! S_lock l = Some sm ∧ value sm = 0.
Proof.
  intros Hk Hs Hx. destruct (steps_ok k k' Hs Hk) as [_ _ Hl]. specialize (Hl l). unfold lock_ok in Hl.
  destruct (holders k' !! l) as [h|] eqn:Eh.
  - destruct Hl as (sm & Hsm & Hex).
    assert (∀ y, inside k' l y → 0 < units k' l h y)%nat as Hu.
    { intros y [[Hy ?]|?]; unfold units; [|lia]. rewrite Eh in Hy. simplify_eq. rewrite decide_True by done. lia. }
    split.
    + intros y Hy. by apply (exclusive_one _ _ y x Hex); apply Hu.
    + exists sm. split; [done|]. destruct Hex as [[_ H0]|[? _]]; [|done]. specialize (Hu x Hx). specialize (H0 x). lia.
  - destruct Hl as [_ H0]. destruct Hx as [[? _]|Hx]; [congruence|]. rewrite H0 in Hx. lia.
Qed.

(** The main thread has just taken the lock of the thread identifiers. *)
Definition locked : kernel :=
  match run_call (C_lock_acquire tid_lock) Boot.booted with Ok (_, k) => k | _ => Boot.booted end.

Lemma lock_mutual_exclusion_witness :
  (∀ y, inside locked tid_lock y → y = 4096) ∧
  ∃ sm, semas locked !! S_lock tid_lock = Some sm ∧ value sm = 0.
Proof.
  apply (lock_mutual_exclusion Boot.booted locked); [apply Boot.booted_ok| |].
  - apply rtc_once, (step_call (C_lock_acquire tid_lock)); [done|done|done|]. vm_compute. reflexivity.
  - right. vm_compute. repeat constructor.
Defined.

(** C25: No wake-up is lost: if a semaphore is up while threads wait for it,
    some thread that was woken is ready or running and about to take it. *)
Theorem no_lost_wakeup k k' s sm :
  system_ok k → rtc step k k' → semas k' !! s = Some sm → waiters sm ≠ [] → value sm ≠ 0 →
  ∃ x t, threads k' !! x = Some t ∧ (status t = THREAD_READY ∨ status t = THREAD_RUNNING) ∧
    at_down k' s x ∧ x ∉ waiters sm.
Proof.
  intros Hk Hs Hsm Hw Hv. destruct (steps_ok k k' Hs Hk) as [[Hi _ _] Hsem _].
  destruct (Hsem s sm Hsm) as [Hu _ _ [?|(W & _ & Hlen & HW)]]; [done|].
  destruct W as [|x W]; [simpl in Hlen; unfold is_u32 in Hu; lia|].
  destruct (HW x ltac:(by left)) as [Hd Hx]. pose proof Hd as (lv & fs & Hf). unfold frames_of in Hf.
  destruct (threads k' !! x) as [t|] eqn:Ht; [|done]. simpl in Hf. exists x, t. split; [done|]. split; [|done].
  destruct (inv_thread _ _ _ Hi x t Ht) as (_ & _ & _ & Hl). unfold located in Hl.
  destruct (status t) eqn:Hst; [by right|by left| |destruct Hl; congruence]. exfalso.
  destruct Hl as [[_ [fs' ?]]|[?|[Hin|[[s' Hin]|[y Hc]]]]]; [congruence|done|..].
  - destruct (inv_member _ _ _ Hi InSleep x Hin) as (_ & _ & u & Hu' & _ & l & fs' & E). simplify_eq. congruence.
  - destruct (inv_member _ _ _ Hi (InSema s') x Hin) as (_ & _ & u & Hu' & _ & l & fs' & E). simplify_eq.
    rewrite Hf in E. simplify_eq. apply Hx. unfold sema_waiters in Hin. by rewrite Hsm in Hin.
  - destruct (inv_creating _ _ _ Hi y x Hc) as (_ & _ & _ & u & Hu' & _ & _ & E). simplify_eq. congruence.
Qed.

(** Two threads wait for the semaphore, and the main thread raises it: one of
    the two is ready while the other still waits. *)
Definition two_waiting : list event :=
  create 12288 ++ create 16384 ++ [Ev_call C_thread_yield;
    Ev_resume; Ev_call (C_sema_down (S_at 300)); Ev_resume; Ev_call (C_sema_down (S_at 300));
    Ev_resume; Ev_call (C_sema_up (S_at 300))].

Lemma no_lost_wakeup_witness :
  match run two_waiting Boot.booted with
  | Ok (_, k') => ∃ x t, threads k' !! x = Some t ∧ (status t = THREAD_READY ∨ status t = THREAD_RUNNING) ∧
      at_down k' (S_at 300) x ∧ x ∉ [16384]
  | _ => False
  end.
Proof.
  destruct (run two_waiting Boot.booted) as [[[] k']| | |] eqn:E; [|by vm_compute in E..].
  apply (no_lost_wakeup Boot.booted k' (S_at 300) (mk_sema 1 [16384])); [apply Boot.booted_ok|by eapply run_steps| |done|done].
  vm_compute in E. injection E as <-. vm_compute. reflexivity.
Defined.
End Synchronization.
