(* ===== verification/Arithmetic.v ===== *)
(** 64-bit division on a 32-bit machine ([lib/arithmetic.c]), with every
    intermediate value at its width.  [DIVL] traps with a divide error when
    its quotient does not fit in 32 bits, and a divide error in the kernel
    ends in [PANIC] ([userprog/exception.c], [kill]). *)
From Stdlib Require Import ZArith Lia.
From stdpp Require Import base tactics option numbers list.
From S2P Require Import Prelude.

Open Scope Z_scope.

(** [uint64_t] and [int64_t]. *)
Definition u64 (z : Z) : Z := z mod 2 ^ 64.
Definition s64 (z : Z) : Z := (z + 2 ^ 63) mod 2 ^ 64 - 2 ^ 63.
Definition is_u64 (z : Z) : Prop := 0 ≤ z < 2 ^ 64.
Definition is_s64 (z : Z) : Prop := - 2 ^ 63 ≤ z < 2 ^ 63.

Module Ops.
Section ops.
Context {S : Type}.

Definition divl (n d : Z) : M S Z :=
  let n1 := u32 (Z.shiftr n 32) in
  let n0 := u32 n in
  let dividend := n1 * 2 ^ 32 + n0 in
  if (d =? 0) || (2 ^ 32 <=? dividend / d) then panic else mret (dividend / d).

Definition nlz (x : Z) : Z :=
  let n := 0 in
  let '(n, x) := if x <=? 65535 then (n + 16, u32 (Z.shiftl x 16)) else (n, x) in
  let '(n, x) := if x <=? 16777215 then (n + 8, u32 (Z.shiftl x 8)) else (n, x) in
  let '(n, x) := if x <=? 268435455 then (n + 4, u32 (Z.shiftl x 4)) else (n, x) in
  let '(n, x) := if x <=? 1073741823 then (n + 2, u32 (Z.shiftl x 2)) else (n, x) in
  if x <=? 2147483647 then n + 1 else n.

Definition udiv64 (n d : Z) : M S Z :=
  if Z.shiftr d 32 =? 0 then
    let b := Z.shiftl 1 32 in
    let n1 := u32 (Z.shiftr n 32) in
    let n0 := u32 n in
    let d0 := u32 d in
    if d0 =? 0 then panic else          (* n1 % d0 and n1 / d0 trap *)
    q ← divl (u64 (b * (n1 mod d0) + n0)) d0;
    mret (u64 (q + b * (n1 / d0)))
  else if n <? d then mret 0
  else
    let d1 := u32 (Z.shiftr d 32) in
    let s := nlz d1 in
    q ← divl (Z.shiftr n 1) (u32 (Z.shiftr (u64 (Z.shiftl d s)) 32));
    let q := Z.shiftr q (31 - s) in
    mret (if u64 (n - u64 (u64 (q - 1) * d)) <? d then u64 (q - 1) else q).

(** The remainder is returned as [uint32_t]. *)
Definition umod64 (n d : Z) : M S Z :=
  q ← udiv64 n d;
  mret (u32 (u64 (n - u64 (d * q)))).

(** The conversion of [q_abs] to [int64_t] and its negation wrap, as the
    compiled code does.  In C the negation of the smallest number, which is
    reached for it divided by 1, overflows. *)
Definition sdiv64 (n d : Z) : M S Z :=
  let n_abs := if 0 <=? n then u64 n else u64 (- u64 n) in
  let d_abs := if 0 <=? d then u64 d else u64 (- u64 d) in
  q_abs ← udiv64 n_abs d_abs;
  mret (if eqb (n <? 0) (d <? 0) then s64 q_abs else s64 (- s64 q_abs)).

(** The remainder is returned as [int32_t]. *)
Definition smod64 (n d : Z) : M S Z :=
  q ← sdiv64 n d;
  mret (s32 (s64 (n - s64 (d * q)))).

(** The routines the compiler calls. *)
Definition __divdi3 (n d : Z) : M S Z := sdiv64 n d.
Definition __moddi3 (n d : Z) : M S Z := r ← smod64 n d; mret (s64 r).
Definition __udivdi3 (n d : Z) : M S Z := udiv64 n d.
Definition __umoddi3 (n d : Z) : M S Z := r ← umod64 n d; mret (u64 r).
End ops.
End Ops.
Import Ops.

Lemma u64_id z : is_u64 z → u64 z = z.
Proof. unfold is_u64, u64. intros. apply Z.mod_small. lia. Qed.
Lemma s64_id z : is_s64 z → s64 z = z.
Proof. unfold is_s64, s64. intros. rewrite Z.mod_small; lia. Qed.
Lemma u32_high n : is_u64 n → u32 (Z.shiftr n 32) = n / 2 ^ 32.
Proof.
  intros [? ?]. rewrite Z.shiftr_div_pow2 by lia. apply u32_id. split.
  - apply Z.div_pos; lia.
  - apply Z.div_lt_upper_bound; lia.
Qed.

Lemma divl_ok {S} n d (s : S) : is_u64 n → 0 < d → n / d < 2 ^ 32 → divl n d s = Ok (n / d, s).
Proof.
  intros Hn Hd Hq. unfold divl. rewrite u32_high by done. unfold u32.
  replace (n / 2 ^ 32 * 2 ^ 32 + n mod 2 ^ 32) with n
    by (rewrite (Z_div_mod_eq_full n (2 ^ 32)) at 1; lia).
  destruct (Z.eqb_spec d 0); [lia|]. by destruct (Z.leb_spec (2 ^ 32) (n / d)); [lia|].
Qed.

(** [nlz] counts the shift that moves the highest bit of a word to the top. *)
Lemma nlz_ok x : 0 < x < 2 ^ 32 → 0 ≤ nlz x ≤ 31 ∧ 2 ^ 31 ≤ x * 2 ^ nlz x < 2 ^ 32.
Proof.
  intros Hx. unfold nlz. cbv zeta.
  repeat match goal with |- context [if ?a <=? ?b then (_, u32 (Z.shiftl _ ?k)) else _] =>
    destruct (Z.leb_spec a b);
      [replace (u32 (Z.shiftl a k)) with (a * 2 ^ k)
         by (rewrite Z.shiftl_mul_pow2, u32_id; unfold is_u32; lia)|]; cbv beta iota
  end;
  match goal with |- context [if ?a <=? ?b then _ else _] => destruct (Z.leb_spec a b) end;
  (split; [lia|]); cbn; lia.
Qed.

(** The comment's proof for 32-bit divisors. *)
Lemma div_by_word n d b :
  0 < d → 0 < b → n / d = (b * (n / b mod d) + n mod b) / d + b * (n / b / d).
Proof.
  intros Hd Hb. rewrite <-Z.div_add by lia. f_equal.
  rewrite (Z_div_mod_eq_full n b) at 1. rewrite (Z_div_mod_eq_full (n / b) d) at 1. ring.
Qed.

(** Dividing by the top word of the shifted divisor gives the quotient or one
    more: [k] is the weight of the bits that are dropped, [v] the top word. *)
Lemma quotient_estimate n d v k K :
  0 < k → k * K = 2 ^ 33 → v * k ≤ d < v * k + k → 2 ^ 31 ≤ v → 0 < K ≤ 2 ^ 32 →
  d ≤ n < 2 ^ 64 → n / d ≤ n / (v * k) ≤ n / d + 1.
Proof.
  intros Hk HkK Hd Hv HK Hn. assert (0 < v * k) by nia. split.
  - apply Z.div_le_compat_l; nia.
  - apply Z.lt_succ_r, Z.div_lt_upper_bound; [done|].
    pose proof (Z_div_mod_eq_full n d) as En. pose proof (Z.mod_pos_bound n d ltac:(nia)).
    assert (n / d + 1 ≤ K).
    { apply Zlt_le_succ, Z.div_lt_upper_bound; [nia|]. nia. }
    assert ((n / d + 1) * (k - 1) ≤ v * k); [|nia].
    transitivity (K * (k - 1)); [nia|]. nia.
Qed.

(** Shifting the divisor to the top of 64 bits: [p] is the shift's weight. *)
Lemma normalized d p k :
  0 < p → 0 < k → k * p = 2 ^ 32 → 0 ≤ d → 2 ^ 31 ≤ d / 2 ^ 32 * p < 2 ^ 32 →
  2 ^ 63 ≤ d * p < 2 ^ 64 ∧ 2 ^ 31 ≤ d * p / 2 ^ 32 < 2 ^ 32 ∧
  d * p / 2 ^ 32 * k ≤ d < d * p / 2 ^ 32 * k + k.
Proof.
  intros Hp Hk E Hd [Hlo Hhi].
  pose proof (Z_div_mod_eq_full d (2 ^ 32)) as Ed. pose proof (Z.mod_pos_bound d (2 ^ 32) ltac:(lia)).
  assert (d / 2 ^ 32 + 1 ≤ k) by nia.
  assert (Hds : 2 ^ 63 ≤ d * p < 2 ^ 64).
  { split; [nia|]. apply Z.lt_le_trans with (2 ^ 32 * k * p); [|lia]. apply Z.mul_lt_mono_pos_r; lia. }
  split; [done|]. split.
  - split; [apply Z.div_le_lower_bound|apply Z.div_lt_upper_bound]; lia.
  - pose proof (Z_div_mod_eq_full (d * p) (2 ^ 32)) as Ev.
    pose proof (Z.mod_pos_bound (d * p) (2 ^ 32) ltac:(lia)). rewrite <-E in Ev, H1.
    set (v := d * p / (k * p)) in *. rewrite <-E. fold v. nia.
Qed.

Section correct.
Context {S : Type}.
Implicit Types s : S.

Lemma udiv64_small n d s :
  is_u64 n → 0 < d < 2 ^ 32 → udiv64 n d s = Ok (n / d, s).
Proof.
  intros Hn Hd. unfold udiv64. rewrite (Z.shiftr_div_pow2 d), (Z.div_small d) by lia. simpl (0 =? 0).
  cbv iota zeta. rewrite (u32_high n Hn), (u32_id d), Z.shiftl_mul_pow2, Z.mul_1_l by (done || unfold is_u32; lia).
  unfold u32. destruct (Z.eqb_spec d 0); [lia|].
  pose proof (Z.mod_pos_bound (n / 2 ^ 32) d ltac:(lia)). pose proof (Z.mod_pos_bound n (2 ^ 32) ltac:(lia)).
  set (m := 2 ^ 32 * (n / 2 ^ 32 mod d) + n mod 2 ^ 32).
  assert (0 ≤ m < 2 ^ 32 * d) by nia. rewrite (u64_id m) by (unfold is_u64; nia).
  rewrite (bind_ok _ _ _ _ _ (divl_ok m d s ltac:(unfold is_u64; nia) ltac:(lia)
    ltac:(apply Z.div_lt_upper_bound; lia))).
  unfold mret, M_ret. unfold m. rewrite <-div_by_word, u64_id; [done| |lia|lia].
  split; [apply Z.div_pos; unfold is_u64 in *; lia|].
  apply Z.div_lt_upper_bound; [lia|]. unfold is_u64 in *. nia.
Qed.

(** The correction step: from the estimate to the quotient, in 64 bits. *)
Lemma correction n d q :
  is_u64 n → 0 < d ≤ n → n / d ≤ q ≤ n / d + 1 →
  (if u64 (n - u64 (u64 (q - 1) * d)) <? d then u64 (q - 1) else q) = n / d.
Proof.
  unfold is_u64. intros Hn Hd Hq.
  pose proof (Z_div_mod_eq_full n d) as En. pose proof (Z.mod_pos_bound n d ltac:(lia)).
  assert (1 ≤ n / d) by (apply Z.div_le_lower_bound; lia).
  assert (n / d ≤ n) by (apply Z.div_le_upper_bound; nia).
  assert ((q - 1) * d ≤ n) by nia.
  rewrite (u64_id (q - 1)) by (unfold is_u64; lia).
  rewrite (u64_id ((q - 1) * d)) by (unfold is_u64; nia).
  rewrite u64_id by (unfold is_u64; nia). destruct (Z.ltb_spec (n - (q - 1) * d) d); nia.
Qed.

Lemma udiv64_large n d s :
  is_u64 n → is_u64 d → 2 ^ 32 ≤ d → udiv64 n d s = Ok (n / d, s).
Proof.
  unfold is_u64. intros Hn Hd Hl. unfold udiv64. rewrite (Z.shiftr_div_pow2 d) by lia.
  assert (1 ≤ d / 2 ^ 32) by (apply Z.div_le_lower_bound; lia).
  assert (d / 2 ^ 32 < 2 ^ 32) by (apply Z.div_lt_upper_bound; lia).
  destruct (Z.eqb_spec (d / 2 ^ 32) 0); [lia|].
  destruct (Z.ltb_spec n d) as [|Hge]; [by rewrite Z.div_small by lia|]. cbv zeta.
  rewrite (u32_id (d / 2 ^ 32)) by (unfold is_u32; lia).
  destruct (nlz_ok (d / 2 ^ 32) ltac:(lia)) as [Hs Ht]. set (sh := nlz (d / 2 ^ 32)) in *.
  assert (Hk : 2 ^ (32 - sh) * 2 ^ (sh + 1) = 2 ^ 33) by (rewrite <-Z.pow_add_r by lia; f_equal; lia).
  assert (Hsh : 2 ^ (32 - sh) * 2 ^ sh = 2 ^ 32) by (rewrite <-Z.pow_add_r by lia; f_equal; lia).
  assert (H1 : 2 ^ (sh + 1) = 2 * 2 ^ sh) by (rewrite Z.pow_add_r by lia; lia).
  pose proof (Z.pow_pos_nonneg 2 sh ltac:(lia) ltac:(lia)).
  pose proof (Z.pow_pos_nonneg 2 (32 - sh) ltac:(lia) ltac:(lia)).
  destruct (normalized d (2 ^ sh) (2 ^ (32 - sh))) as (Hds & Hvr & Hvd); try done; try lia.
  set (v := d * 2 ^ sh / 2 ^ 32) in *.
  assert (Hv : u32 (Z.shiftr (u64 (Z.shiftl d sh)) 32) = v).
  { rewrite Z.shiftl_mul_pow2, u64_id by (unfold is_u64; lia).
    apply u32_high. unfold is_u64. lia. }
  rewrite Hv, (Z.shiftr_div_pow2 n) by lia. change (2 ^ 1) with 2.
  assert (n / 2 / v < 2 ^ 32).
  { apply Z.div_lt_upper_bound; [lia|]. apply Z.div_lt_upper_bound; lia. }
  rewrite (bind_ok _ _ _ _ _ (divl_ok (n / 2) v s
    ltac:(split; [apply Z.div_pos|apply Z.div_lt_upper_bound]; lia) ltac:(lia) ltac:(done))).
  unfold mret, M_ret. do 2 f_equal. rewrite Z.shiftr_div_pow2 by lia.
  apply correction; [unfold is_u64; lia|lia|].
  assert (H32 : 2 ^ (32 - sh) = 2 * 2 ^ (31 - sh))
    by (replace (32 - sh) with (1 + (31 - sh)) by lia; by rewrite Z.pow_add_r by lia).
  assert (0 < 2 ^ (31 - sh)) by (apply Z.pow_pos_nonneg; lia).
  rewrite !Z.div_div by lia. replace (2 * (v * 2 ^ (31 - sh))) with (v * 2 ^ (32 - sh)) by lia.
  apply (quotient_estimate n d v (2 ^ (32 - sh)) (2 ^ (sh + 1))); [lia..| |lia].
  split; [lia|]. apply (Z.pow_le_mono_r 2 (sh + 1) 32); lia.
Qed.

Lemma udiv64_ok n d s : is_u64 n → is_u64 d → d ≠ 0 → udiv64 n d s = Ok (n / d, s).
Proof.
  intros Hn Hd Hz. destruct (Z.lt_ge_cases d (2 ^ 32)); unfold is_u64 in Hd.
  - apply udiv64_small; [done|lia].
  - by apply udiv64_large.
Qed.

Lemma udiv64_zero n s : is_u64 n → udiv64 n 0 s = Panic.
Proof. done. Qed.

Lemma magnitude z : is_s64 z → (if 0 <=? z then u64 z else u64 (- u64 z)) = Z.abs z ∧ is_u64 (Z.abs z).
Proof.
  unfold is_s64, is_u64. intros Hz. split; [|lia]. destruct (Z.leb_spec 0 z).
  - rewrite u64_id, Z.abs_eq; unfold is_u64; lia.
  - rewrite Z.abs_neq by lia. unfold u64.
    rewrite <-(Z.mod_unique z (2 ^ 64) (-1) (z + 2 ^ 64)) by lia. symmetry.
    apply Z.mod_unique with (-1); lia.
Qed.

Lemma s64_opp z : s64 (- s64 z) = s64 (- z).
Proof.
  unfold s64. f_equal. pose proof (Z_div_mod_eq_full (z + 2 ^ 63) (2 ^ 64)) as E.
  replace (- ((z + 2 ^ 63) mod 2 ^ 64 - 2 ^ 63) + 2 ^ 63)
    with (- z + 2 ^ 63 + (z + 2 ^ 63) / 2 ^ 64 * 2 ^ 64) by lia.
  by rewrite Z.mod_add by lia.
Qed.

(** Signed division rounds to zero; the one quotient that does not fit, the
    smallest number by -1, wraps around. *)
Lemma sdiv64_ok n d s :
  is_s64 n → is_s64 d → d ≠ 0 → sdiv64 n d s = Ok (s64 (Z.quot n d), s).
Proof.
  intros Hn Hd Hz. unfold sdiv64. destruct (magnitude n Hn) as [-> Hn'], (magnitude d Hd) as [-> Hd'].
  cbv zeta. rewrite (bind_ok _ _ _ _ _ (udiv64_ok _ _ s Hn' Hd' ltac:(lia))).
  unfold mret, M_ret. do 2 f_equal. rewrite Z.quot_div by done. unfold is_s64, is_u64 in *.
  assert (0 ≤ Z.abs n / Z.abs d) by (apply Z.div_pos; lia).
  assert (Z.abs n / Z.abs d ≤ Z.abs n) by (apply Z.div_le_upper_bound; nia).
  destruct (Z.eq_dec n 0) as [->|]; [rewrite !Z.div_0_l by lia; by destruct (0 <? 0), (d <? 0)|].
  destruct (Z.ltb_spec n 0), (Z.ltb_spec d 0); simpl;
    rewrite ?(Z.sgn_neg n), ?(Z.sgn_pos n), ?(Z.sgn_neg d), ?(Z.sgn_pos d) by lia;
    rewrite ?s64_opp; f_equal; lia.
Qed.

(** The remainder comes back through a 32-bit type. *)
Lemma umod64_ok n d s :
  is_u64 n → is_u64 d → d ≠ 0 → umod64 n d s = Ok (u32 (n mod d), s).
Proof.
  intros Hn Hd Hz. unfold umod64. rewrite (bind_ok _ _ _ _ _ (udiv64_ok n d s Hn Hd Hz)).
  unfold mret, M_ret. do 2 f_equal. unfold is_u64 in *.
  pose proof (Z_div_mod_eq_full n d). pose proof (Z.mod_pos_bound n d ltac:(lia)).
  assert (0 ≤ n / d) by (apply Z.div_pos; lia).
  rewrite (u64_id (d * (n / d))) by (unfold is_u64; nia).
  rewrite u64_id by (unfold is_u64; nia). f_equal. lia.
Qed.

Lemma s64_wrap z : ∃ k, s64 z = z + k * 2 ^ 64.
Proof.
  unfold s64. exists (- ((z + 2 ^ 63) / 2 ^ 64)).
  pose proof (Z_div_mod_eq_full (z + 2 ^ 63) (2 ^ 64)). lia.
Qed.

Lemma s64_add_wrap z k : s64 (z + k * 2 ^ 64) = s64 z.
Proof.
  unfold s64. f_equal. replace (z + k * 2 ^ 64 + 2 ^ 63) with (z + 2 ^ 63 + k * 2 ^ 64) by lia.
  by rewrite Z.mod_add by lia.
Qed.

Lemma smod64_ok n d s :
  is_s64 n → is_s64 d → d ≠ 0 → smod64 n d s = Ok (s32 (Z.rem n d), s).
Proof.
  intros Hn Hd Hz. unfold smod64. rewrite (bind_ok _ _ _ _ _ (sdiv64_ok n d s Hn Hd Hz)).
  unfold mret, M_ret. do 3 f_equal.
  destruct (s64_wrap (Z.quot n d)) as [k ->], (s64_wrap (d * (Z.quot n d + k * 2 ^ 64))) as [j ->].
  pose proof (Z.quot_rem' n d). pose proof (Z.rem_bound_abs n d Hz).
  replace (n - (d * (Z.quot n d + k * 2 ^ 64) + j * 2 ^ 64))
    with (Z.rem n d + (- (d * k + j)) * 2 ^ 64) by lia.
  rewrite s64_add_wrap. apply s64_id. unfold is_s64 in *. lia.
Qed.
End correct.
