(* ===== verification/CStdlib.v ===== *)
(** [lib/stdlib.c]: number parsing, heap sort and binary search over arrays of
    elements of any size, on the flat memory of [CString].  A comparison
    function is a function of the bytes of the two elements it is given. *)
From Stdlib Require Import ZArith Lia.
From stdpp Require Import base tactics option numbers list gmap sorting.
From S2P Require Import Prelude CString.

Open Scope Z_scope.

(** [lib/ctype.h], on a [char]. *)
Definition isspace (c : Z) : bool :=
  (c =? 32) || (c =? 12) || (c =? 10) || (c =? 13) || (c =? 9) || (c =? 11).
Definition isdigit (c : Z) : bool := (48 <=? c) && (c <=? 57).

(** The result of [int] arithmetic, undefined when it overflows. *)
Definition int_value {S} (z : Z) : M S Z :=
  if (- 2 ^ 31 <=? z) && (z <? 2 ^ 31) then mret z else undef.

Module Ops.
Import CString.Ops.

Definition atoi (s : Z) : M mem Z :=
  ASSERT (negb (s =? NULL));;
  s ← scan (λ s, c ← load s; mret (if isspace c then inl (s + 1) else inr s)) s;
  c ← load s;
  let '(negative, s) :=
    if c =? 43 then (false, s + 1) else if c =? 45 then (true, s + 1) else (false, s) in
  value ← scan (λ '(s, value),
    c ← load s;
    if isdigit c then
      v ← int_value (value * 10);
      v ← int_value (v - (c - 48));
      mret (inl (s + 1, v))
    else mret (inr value)) (s, 0);
  if negb negative then int_value (- value) else mret value.

(** The [n] bytes at [a]. *)
Fixpoint load_block (n : nat) (a : Z) : M mem (list Z) :=
  match n with
  | O => mret []
  | S n' => b ← load a; bs ← load_block n' (a + 1); mret (b :: bs)
  end.

Definition do_swap (array a_idx b_idx size : Z) : M mem unit :=
  let a := array + u32 (u32 (a_idx - 1) * size) in
  let b := array + u32 (u32 (b_idx - 1) * size) in
  for_upto (Z.to_nat size) 0 (λ i,
    t ← load (a + i);
    y ← load (b + i);
    store (a + i) y;;
    store (b + i) t).

Section sort.
Context (compare : list Z → list Z → Z).

Definition do_compare (array a_idx b_idx size : Z) : M mem Z :=
  x ← load_block (Z.to_nat size) (array + u32 (u32 (a_idx - 1) * size));
  y ← load_block (Z.to_nat size) (array + u32 (u32 (b_idx - 1) * size));
  mret (compare x y).

Definition heapify (array i cnt size : Z) : M mem unit :=
  loop (Z.to_nat cnt + 1) (λ i,
    let left := u32 (2 * i) in
    let right := u32 (2 * i + 1) in
    let max := i in
    max ← (if left <=? cnt then
             c ← do_compare array left max size; mret (if 0 <? c then left else max)
           else mret max);
    max ← (if right <=? cnt then
             c ← do_compare array right max size; mret (if 0 <? c then right else max)
           else mret max);
    if max =? i then mret (inr tt) else
    do_swap array i max size;;
    mret (inl max)) i.

Definition sort (array cnt size : Z) : M mem unit :=
  ASSERT (negb (array =? NULL) || (cnt =? 0));;
  ASSERT (0 <? size);;
  for_upto (Z.to_nat (cnt / 2)) 0 (λ k, heapify array (cnt / 2 - k) cnt size);;
  for_upto (Z.to_nat (cnt - 1)) 0 (λ k,
    let i := cnt - k in
    do_swap array 1 i size;;
    heapify array 1 (i - 1) size).

(** [binary_search] with the bytes of the key. *)
Definition binary_search (key : list Z) (array cnt size : Z) : M mem Z :=
  loop (Z.to_nat cnt + 1) (λ '(first, last),
    if first <? last then
      let range := u32 (last - first) / size in
      let middle := first + u32 (range / 2 * size) in
      e ← load_block (Z.to_nat size) middle;
      let cmp := compare key e in
      mret (if cmp <? 0 then inl (first, middle)
            else if 0 <? cmp then inl (middle + size, last)
            else inr middle)
    else mret (inr NULL)) (array, array + u32 (size * cnt)).
End sort.

(** The interface without auxiliary data: [compare_thunk] passes the two
    elements on. *)
Definition compare_thunk (compare : list Z → list Z → Z) (a b : list Z) : Z := compare a b.
Definition qsort compare (array cnt size : Z) : M mem unit :=
  sort (compare_thunk compare) array cnt size.
Definition bsearch compare (key : list Z) (array cnt size : Z) : M mem Z :=
  binary_search (compare_thunk compare) key array cnt size.
End Ops.
Import CString.Ops Ops.

(** * Arrays of elements *)
Section arrays.
Context (array : Z) (size : nat).
Implicit Types (m : mem) (l : list (list Z)).

(** The elements [l] lie at [array], one after the other. *)
Definition elements m l : Prop :=
  ∀ k e, l !! k = Some e → length e = size ∧ block m (array + Z.of_nat k * Z.of_nat size) e.

(** Only the [n] elements' bytes differ. *)
Definition within (n : nat) m m' : Prop := changes_at array (Z.of_nat n * Z.of_nat size) m m'.

Definition swap_elements {A} (i j : nat) (l : list A) : list A :=
  match l !! i, l !! j with
  | Some x, Some y => <[i := y]> (<[j := x]> l)
  | _, _ => l
  end.

Lemma changes_trans a n m1 m2 m3 : changes_at a n m1 m2 → changes_at a n m2 m3 → changes_at a n m1 m3.
Proof. intros [H1 H2] [H3 H4]. split; [|congruence]. intros x Hx. by rewrite H3, H1. Qed.

Lemma load_block_ok m a bs n :
  block m a bs → n = length bs → wp (load_block n a) (λ r m', r = bs ∧ m' = m) m.
Proof.
  intros Hb ->. revert a Hb. induction bs as [|b bs IH]; intros a Hb; simpl; [by wp_go|].
  apply block_cons in Hb as [Hb Hbs]. wp_unbind. eapply wp_mload; [done|]. wp_unbind.
  eapply wp_mono; [by apply IH|]. intros r m' [-> ->]. by wp_go.
Qed.

(** Swapping two regions byte by byte. *)
Lemma swap_loop m a b n xs ys :
  length xs = n → length ys = n → block m a xs → block m b ys →
  a + Z.of_nat n ≤ b ∨ b + Z.of_nat n ≤ a →
  wp (for_upto n 0 (λ i,
        t ← load (a + i); y ← load (b + i); store (a + i) y;; store (b + i) t))
    (λ _ m', block m' a ys ∧ block m' b xs ∧ dom m' = dom m ∧
       ∀ x, ¬ (a ≤ x < a + Z.of_nat n) → ¬ (b ≤ x < b + Z.of_nat n) → m' !! x = m !! x) m.
Proof.
  intros Hlx Hly Hx Hy Hd.
  eapply wp_mono; [apply (wp_for_upto (λ j m', 0 ≤ j ∧ dom m' = dom m ∧
    (∀ i x, xs !! i = Some x → m' !! (if Z.of_nat i <? j then b + Z.of_nat i else a + Z.of_nat i) = Some x) ∧
    (∀ i y, ys !! i = Some y → m' !! (if Z.of_nat i <? j then a + Z.of_nat i else b + Z.of_nat i) = Some y) ∧
    ∀ x, ¬ (a ≤ x < a + Z.of_nat n) → ¬ (b ≤ x < b + Z.of_nat n) → m' !! x = m !! x))|].
  - intros j m' Hj (? & Hdom & Hxs & Hys & Hrest).
    destruct (lookup_lt_is_Some_2 xs (Z.to_nat j)) as [x Ex]; [lia|].
    destruct (lookup_lt_is_Some_2 ys (Z.to_nat j)) as [y Ey]; [lia|].
    pose proof (Hxs _ _ Ex) as Hxj. pose proof (Hys _ _ Ey) as Hyj. rewrite Z2Nat.id, Z.ltb_irrefl in * by lia.
    wp_unbind. eapply wp_mload; [done|]. wp_unbind. eapply wp_mload; [done|]. wp_unbind.
    eapply wp_mstore; [done|]. eapply wp_mstore; [rewrite lookup_insert_ne by lia; done|].
    split_and!; [lia| | | |].
    + rewrite !dom_insert_lookup_L; [done|by exists x|]. rewrite lookup_insert_ne by lia. by exists y.
    + intros i z Hi. pose proof (lookup_lt_Some _ _ _ Hi). specialize (Hxs _ _ Hi).
      destruct (Z.ltb_spec (Z.of_nat i) (j + 1)), (Z.ltb_spec (Z.of_nat i) j); try lia.
      * by rewrite !lookup_insert_ne by lia.
      * assert (i = Z.to_nat j) as -> by lia. rewrite Ex in Hi. injection Hi as [= ->].
        rewrite Z2Nat.id by lia. apply lookup_insert_eq.
      * by rewrite !lookup_insert_ne by lia.
    + intros i z Hi. pose proof (lookup_lt_Some _ _ _ Hi). specialize (Hys _ _ Hi).
      destruct (Z.ltb_spec (Z.of_nat i) (j + 1)), (Z.ltb_spec (Z.of_nat i) j); try lia.
      * by rewrite !lookup_insert_ne by lia.
      * assert (i = Z.to_nat j) as -> by lia. rewrite Ey in Hi. injection Hi as [= ->].
        rewrite Z2Nat.id by lia. rewrite lookup_insert_ne by lia. apply lookup_insert_eq.
      * by rewrite !lookup_insert_ne by lia.
    + intros z Ha Hb. rewrite !lookup_insert_ne by lia. by apply Hrest.
  - split_and!; [lia|done|..]; [|..|done]; intros i z Hi; rewrite (proj2 (Z.ltb_ge _ 0)) by lia;
      [by apply Hx|by apply Hy].
  - intros _ m' (_ & Hdom & Hxs & Hys & Hrest). split_and!; [..|done|done]; intros i z Hi;
      pose proof (lookup_lt_Some _ _ _ Hi);
      [specialize (Hys _ _ Hi)|specialize (Hxs _ _ Hi)]; by rewrite (proj2 (Z.ltb_lt _ _)) in * by lia.
Qed.

(** The element with the 1-based index [p]. *)
Definition ix (l : list (list Z)) (p : Z) : option (list Z) := l !! Z.to_nat (p - 1).

Lemma elements_length m l p e : elements m l → ix l p = Some e → length e = size.
Proof. intros Hm He. by destruct (Hm _ _ He). Qed.

(** The address of an element does not overflow. *)
Lemma element_address l p :
  Z.of_nat (length l) * Z.of_nat size < 2 ^ 32 → (0 < size)%nat → 1 ≤ p ≤ Z.of_nat (length l) →
  u32 (u32 (p - 1) * Z.of_nat size) = Z.of_nat (Z.to_nat (p - 1)) * Z.of_nat size.
Proof.
  intros Hl Hs Hp. rewrite (u32_id (p - 1)) by (unfold is_u32; nia).
  rewrite Z2Nat.id by lia. apply u32_id. unfold is_u32. nia.
Qed.

Lemma do_compare_ok compare m l p q x y :
  Z.of_nat (length l) * Z.of_nat size < 2 ^ 32 → (0 < size)%nat →
  1 ≤ p ≤ Z.of_nat (length l) → 1 ≤ q ≤ Z.of_nat (length l) →
  elements m l → ix l p = Some x → ix l q = Some y →
  wp (do_compare compare array p q (Z.of_nat size)) (λ r m', r = compare x y ∧ m' = m) m.
Proof.
  intros Hl Hs Hp Hq Hm Hx Hy. unfold do_compare. rewrite !(element_address l) by done.
  destruct (Hm _ _ Hx) as [? ?], (Hm _ _ Hy) as [? ?]. wp_unbind.
  eapply wp_mono; [eapply load_block_ok; [done|lia]|]. intros r m1 [-> ->]. wp_unbind.
  eapply wp_mono; [eapply load_block_ok; [done|lia]|]. intros r m2 [-> ->]. by wp_go.
Qed.

Lemma do_swap_ok m l p q :
  Z.of_nat (length l) * Z.of_nat size < 2 ^ 32 → (0 < size)%nat →
  1 ≤ p ≤ Z.of_nat (length l) → 1 ≤ q ≤ Z.of_nat (length l) → p ≠ q → elements m l →
  wp (do_swap array p q (Z.of_nat size))
    (λ _ m', elements m' (swap_elements (Z.to_nat (p - 1)) (Z.to_nat (q - 1)) l) ∧
       within (length l) m m') m.
Proof.
  intros Hl Hs Hp Hq Hne Hm. unfold do_swap. rewrite !(element_address l) by done. cbv zeta.
  set (i := Z.to_nat (p - 1)). set (j := Z.to_nat (q - 1)).
  assert (i ≠ j) by (unfold i, j; lia).
  destruct (lookup_lt_is_Some_2 l i) as [x Hx]; [unfold i; lia|].
  destruct (lookup_lt_is_Some_2 l j) as [y Hy]; [unfold j; lia|].
  pose proof (lookup_lt_Some _ _ _ Hx). pose proof (lookup_lt_Some _ _ _ Hy).
  destruct (Hm _ _ Hx) as [Lx Bx], (Hm _ _ Hy) as [Ly By]. rewrite Nat2Z.id.
  eapply wp_mono; [apply (swap_loop m _ _ size x y); [done..|nia]|].
  intros [] m' (Bx' & By' & Hdom & Hrest). split.
  - unfold swap_elements. rewrite Hx, Hy. intros k e He.
    destruct (decide (k = i)) as [->|Hki].
    { rewrite list_lookup_insert_eq in He by (rewrite length_insert; lia). by simplify_eq. }
    rewrite list_lookup_insert_ne in He by done. destruct (decide (k = j)) as [->|Hkj].
    { rewrite list_lookup_insert_eq in He by lia. by simplify_eq. }
    rewrite list_lookup_insert_ne in He by done. destruct (Hm _ _ He) as [Le Be].
    split; [done|]. intros o b Ho. pose proof (lookup_lt_Some _ _ _ Ho).
    rewrite Hrest; [by apply Be|nia|nia].
  - split; [|done]. intros z Hz. apply Hrest; nia.
Qed.

(** Swapping as a permutation. *)
Lemma swap_lookup {A} (l : list A) i j k :
  (i < length l)%nat → (j < length l)%nat →
  swap_elements i j l !! k = l !! (if decide (k = i) then j else if decide (k = j) then i else k).
Proof.
  intros Hi Hj. unfold swap_elements.
  destruct (lookup_lt_is_Some_2 l i Hi) as [x Hx], (lookup_lt_is_Some_2 l j Hj) as [y Hy].
  rewrite Hx, Hy. destruct (decide (k = i)) as [->|].
  - by rewrite list_lookup_insert_eq by (rewrite length_insert; lia).
  - rewrite list_lookup_insert_ne by done. destruct (decide (k = j)) as [->|].
    + by rewrite list_lookup_insert_eq by lia.
    + by rewrite list_lookup_insert_ne.
Qed.

Lemma swap_length {A} (l : list A) i j : length (swap_elements i j l) = length l.
Proof. unfold swap_elements. destruct (l !! i), (l !! j); by rewrite ?length_insert. Qed.

Lemma swap_permutation {A} (l : list A) i j :
  (i < length l)%nat → (j < length l)%nat → swap_elements i j l ≡ₚ l.
Proof.
  intros Hi Hj. apply Permutation_inj. split; [apply swap_length|].
  exists (λ k, if decide (k = i) then j else if decide (k = j) then i else k). split.
  - intros a b. repeat case_decide; subst; done || congruence.
  - intros k. by apply swap_lookup.
Qed.

Lemma swap_take {A} (l : list A) i j n :
  (i < n)%nat → (j < n)%nat → take n (swap_elements i j l) = swap_elements i j (take n l).
Proof.
  intros Hi Hj. unfold swap_elements. rewrite !lookup_take_lt by done.
  destruct (l !! i), (l !! j); try done. by rewrite !take_insert_lt.
Qed.

Lemma swap_drop {A} (l : list A) i j n :
  (i < n)%nat → (j < n)%nat → drop n (swap_elements i j l) = drop n l.
Proof.
  intros Hi Hj. unfold swap_elements. destruct (l !! i), (l !! j); try done.
  by rewrite !drop_insert_lt.
Qed.
End arrays.

(** * Heaps *)

(** What a comparison function owes its callers: a [strcmp]-type result. *)
Class Comparator (compare : list Z → list Z → Z) : Prop := {
  compare_sign x y : Z.sgn (compare y x) = - Z.sgn (compare x y);
  compare_trans x y z : compare x y ≤ 0 → compare y z ≤ 0 → compare x z ≤ 0 }.

Section heap.
Context (compare : list Z → list Z → Z) `{!Comparator compare} (array : Z) (size : nat).
Context (Hsize : (0 < size)%nat).
Implicit Types (m : mem) (l : list (list Z)).

Lemma compare_total x y : 0 < compare x y → compare y x ≤ 0.
Proof. intros H. pose proof (compare_sign x y). lia. Qed.

Definition below (y x : list Z) : Prop := compare y x ≤ 0.

Lemma below_refl x : below x x.
Proof. unfold below. destruct (Z.lt_ge_cases 0 (compare x x)); [by apply compare_total|done]. Qed.
Lemma below_trans x y z : below x y → below y z → below x z.
Proof. apply compare_trans. Qed.

(** Every node from [lo] on, but [hole], is at least as large as its children. *)
Definition heap_order l (lo cnt hole : Z) : Prop :=
  ∀ p c x y, lo ≤ p → p ≠ hole → c = 2 * p ∨ c = 2 * p + 1 → c ≤ cnt →
    ix l p = Some x → ix l c = Some y → below y x.

(** While an element floats down, its position [i] is the hole, and the parent
    of the hole dominates the hole's children. *)
Definition sifting l (lo cnt i : Z) : Prop :=
  heap_order l lo cnt i ∧
  ∀ c x y, lo ≤ i / 2 → c = 2 * i ∨ c = 2 * i + 1 → c ≤ cnt →
    ix l (i / 2) = Some x → ix l c = Some y → below y x.

Lemma ix_some l p : 1 ≤ p ≤ Z.of_nat (length l) → is_Some (ix l p).
Proof. intros ?. apply lookup_lt_is_Some_2. lia. Qed.

Lemma ix_swap l p q r :
  1 ≤ p ≤ Z.of_nat (length l) → 1 ≤ q ≤ Z.of_nat (length l) → 1 ≤ r →
  ix (swap_elements (Z.to_nat (p - 1)) (Z.to_nat (q - 1)) l) r =
  ix l (if decide (r = p) then q else if decide (r = q) then p else r).
Proof.
  intros Hp Hq Hr. unfold ix. rewrite swap_lookup by lia. repeat case_decide; done || lia.
Qed.

(** The larger of the best node so far and one more child. *)
Lemma larger_ok m l cnt best c x :
  elements array size m l → Z.of_nat (length l) * Z.of_nat size < 2 ^ 32 →
  cnt ≤ Z.of_nat (length l) → 1 ≤ best ≤ cnt → 1 ≤ c → ix l best = Some x →
  wp (if c <=? cnt then
        r ← do_compare compare array c best (Z.of_nat size); mret (if 0 <? r then c else best)
      else mret best)
    (λ b m', m' = m ∧ ∃ z, ix l b = Some z ∧ below x z ∧ (b = best ∨ b = c ∧ c ≤ cnt) ∧
       ∀ y, c ≤ cnt → ix l c = Some y → below y z) m.
Proof.
  intros Hm Hlen Hcnt Hb Hc Hx. destruct (Z.leb_spec c cnt).
  - destruct (ix_some l c) as [y Hy]; [lia|]. wp_unbind.
    eapply wp_mono; [apply (do_compare_ok array size compare m l c best y x); done || lia|].
    intros r m' [-> ->]. wp_go. split; [done|]. destruct (Z.ltb_spec 0 (compare y x)).
    + exists y. split_and!; [done|by apply compare_total|by right|].
      intros y' _ Hy'. simplify_eq. apply below_refl.
    + exists x. split_and!; [done|apply below_refl|by left|]. intros y' _ Hy'. by simplify_eq.
  - wp_go. split; [done|]. exists x. split_and!; [done|apply below_refl|by left|]. lia.
Qed.

(** Nothing to do: the hole is closed. *)
Lemma sifted l lo cnt i x :
  sifting l lo cnt i → ix l i = Some x →
  (∀ c y, c = 2 * i ∨ c = 2 * i + 1 → c ≤ cnt → ix l c = Some y → below y x) →
  heap_order l lo cnt 0.
Proof.
  intros [Ho _] Hx Hch p c u v Hlo Hp Hc Hcnt Hu Hv. destruct (decide (p = i)) as [->|].
  - simplify_eq. by eapply Hch.
  - by eapply (Ho p c).
Qed.

(** One step down. *)
Lemma sift_step l lo cnt i mx x z :
  1 ≤ lo ≤ i → i ≤ cnt ≤ Z.of_nat (length l) → mx = 2 * i ∨ mx = 2 * i + 1 → mx ≤ cnt →
  sifting l lo cnt i → ix l i = Some x → ix l mx = Some z → below x z →
  (∀ c y, c = 2 * i ∨ c = 2 * i + 1 → c ≤ cnt → ix l c = Some y → below y z) →
  sifting (swap_elements (Z.to_nat (i - 1)) (Z.to_nat (mx - 1)) l) lo cnt mx.
Proof.
  intros Hlo Hi Hmx Hle [Ho Hg] Hx Hz Hxz Hch. split.
  - intros p c u v Hp Hne Hc Hcnt. rewrite !ix_swap by lia.
    destruct (decide (c = i)) as [->|].
    + rewrite (decide_False (P := p = i)), (decide_False (P := p = mx)) by lia.
      assert (i / 2 = p) as Ep by (symmetry; apply Z.div_unique with (i - 2 * p); lia).
      intros Hu Hv. apply (Hg mx u v); rewrite ?Ep; done.
    + destruct (decide (p = i)) as [->|].
      * intros Hu Hv. simplify_eq. destruct (decide (c = mx)); [by simplify_eq|by eapply Hch].
      * rewrite (decide_False (P := p = mx)), (decide_False (P := c = mx)) by lia.
        by apply Ho.
  - intros c u v _ Hc Hcnt.
    replace (mx / 2) with i by (apply Z.div_unique with (mx - 2 * i); lia).
    rewrite !ix_swap by lia. rewrite (decide_True (P := i = i)), (decide_False (P := c = i)), (decide_False (P := c = mx)) by lia.
    intros Hu Hv. simplify_eq. eapply (Ho mx c); done || lia.
Qed.

(** The first [cnt] elements are rearranged, and nothing else. *)
Definition rearranged (cnt : Z) l l' : Prop :=
  length l' = length l ∧ take (Z.to_nat cnt) l' ≡ₚ take (Z.to_nat cnt) l ∧
  drop (Z.to_nat cnt) l' = drop (Z.to_nat cnt) l.

Lemma rearranged_refl cnt l : rearranged cnt l l.
Proof. done. Qed.

Lemma rearranged_swap cnt l0 l p q :
  rearranged cnt l0 l → 1 ≤ p ≤ cnt → 1 ≤ q ≤ cnt → cnt ≤ Z.of_nat (length l) →
  rearranged cnt l0 (swap_elements (Z.to_nat (p - 1)) (Z.to_nat (q - 1)) l).
Proof.
  intros (El & Et & Ed) Hp Hq Hcnt. split_and!.
  - by rewrite swap_length.
  - rewrite swap_take by lia. etrans; [|exact Et]. apply swap_permutation; rewrite length_take; lia.
  - by rewrite swap_drop by lia.
Qed.

Lemma heapify_ok m l lo i cnt :
  elements array size m l → Z.of_nat (length l) * Z.of_nat size < 2 ^ 32 →
  1 ≤ lo ≤ i → i ≤ cnt ≤ Z.of_nat (length l) → cnt < 2 ^ 31 → sifting l lo cnt i →
  wp (heapify compare array i cnt (Z.of_nat size))
    (λ _ m', ∃ l', elements array size m' l' ∧ rearranged cnt l l' ∧ heap_order l' lo cnt 0 ∧
       within array size (length l) m m') m.
Proof.
  intros Hm Hlen Hlo Hi Hcnt Hsift. unfold heapify.
  apply (wp_loop (λ k i m', ∃ l', elements array size m' l' ∧ rearranged cnt l l' ∧
    sifting l' lo cnt i ∧ lo ≤ i ≤ cnt ∧ k = Z.to_nat (cnt - i) ∧
    within array size (length l) m m')) with (k := Z.to_nat (cnt - i)); [|exists l; split_and!; done || lia|lia].
  assert (1 ≤ lo ∧ cnt ≤ Z.of_nat (length l)) as [? ?] by lia. clear i Hi Hlo Hsift. intros k i m' (l' & Hm' & Hr & Hsift & Hi & -> & Hw). pose proof Hr as (El & _ & _).
  rewrite !u32_id by (unfold is_u32; lia). cbv zeta.
  destruct (ix_some l' i) as [x Hx]; [lia|]. wp_unbind.
  eapply wp_mono; [apply (larger_ok m' l' cnt i (2 * i) x); done || lia|].
  intros b m1 (-> & z & Hz & Hxz & Hb & Hleft). wp_unbind.
  eapply wp_mono; [apply (larger_ok m' l' cnt b (2 * i + 1) z); done || lia|].
  intros b' m1 (-> & z' & Hz' & Hzz & Hb' & Hright).
  assert (∀ c y, c = 2 * i ∨ c = 2 * i + 1 → c ≤ cnt → ix l' c = Some y → below y z') as Hch.
  { intros c y [->| ->] Hc Hy; [|by apply Hright]. eapply below_trans; [by apply Hleft|done]. }
  destruct (Z.eqb_spec b' i) as [->|Hne].
  - wp_go. exists l'. split_and!; [done..| |done]. simplify_eq. by eapply sifted.
  - wp_unbind. eapply wp_mono; [apply (do_swap_ok array size m' l' i b'); done || lia|].
    intros [] m2 [Hm2 Hw2]. wp_go. exists (Z.to_nat (cnt - b')). split; [lia|].
    eexists. split_and!; [exact Hm2|apply rearranged_swap; done || lia| |lia|lia|done|].
    + eapply (sift_step l' lo cnt i b' x z'); try done; try lia. by eapply below_trans.
    + rewrite El in Hw2. by eapply changes_trans.
Qed.

(** The root of a heap is its largest element. *)
Lemma heap_root l cnt x p y :
  heap_order l 1 cnt 0 → cnt ≤ Z.of_nat (length l) → ix l 1 = Some x → 1 ≤ p ≤ cnt →
  ix l p = Some y → below y x.
Proof.
  intros Ho Hcnt Hx. revert y. induction (Z.lt_wf 0 p) as [p _ IH]. intros y Hp Hy.
  destruct (decide (p = 1)) as [->|]; [simplify_eq; apply below_refl|].
  assert (1 ≤ p / 2 < p) by (split; [apply Z.div_le_lower_bound|apply Z.div_lt_upper_bound]; lia).
  destruct (ix_some l (p / 2)) as [z Hz]; [lia|].
  eapply below_trans; [|apply (IH (p / 2)); [lia|lia|done]].
  apply (Ho (p / 2) p z y); try done; try lia.
  pose proof (Z_div_mod_eq_full p 2). pose proof (Z.mod_pos_bound p 2 ltac:(lia)). lia.
Qed.

(** Sorted from position [i] on, and everything before is smaller. *)
Definition sorted_from (i : Z) l : Prop :=
  StronglySorted below (drop (Z.to_nat i) l) ∧
  Forall (λ x, Forall (below x) (drop (Z.to_nat i) l)) (take (Z.to_nat i) l).

Lemma rearranged_trans c c' l1 l2 l3 :
  0 ≤ c ≤ c' → rearranged c' l1 l2 → rearranged c l2 l3 → rearranged c' l1 l3.
Proof.
  intros Hc (L1 & T1 & D1) (L2 & T2 & D2).
  assert (∀ l, take (Z.to_nat c') l = take (Z.to_nat c) l ++ take (Z.to_nat (c' - c)) (drop (Z.to_nat c) l)) as Et.
  { intros l. rewrite <-(take_drop (Z.to_nat c) l) at 1. rewrite take_app, take_take, length_take.
    rewrite Nat.min_r by lia. f_equal.
    destruct (decide (Z.to_nat c ≤ length l)%nat); [f_equal; lia|]. rewrite drop_ge by lia. by rewrite !take_nil. }
  assert (∀ l, drop (Z.to_nat c') l = drop (Z.to_nat (c' - c)) (drop (Z.to_nat c) l)) as Ed.
  { intros l. rewrite drop_drop. f_equal. lia. }
  split_and!; [congruence| |by rewrite <-D1, !Ed, D2].
  rewrite <-T1, !Et, D2. by rewrite T2.
Qed.

(** The elements before [i] stay smaller when they are rearranged. *)
Lemma sorted_from_rearranged i l l' : sorted_from i l → rearranged i l l' → sorted_from i l'.
Proof. intros [H1 H2] (_ & T & D). split; rewrite D; [done|]. by rewrite T. Qed.

(** The largest of the first [i] elements moved to their end. *)
Lemma sorted_from_step i l x :
  2 ≤ i ≤ Z.of_nat (length l) → sorted_from i l → heap_order l 1 i 0 → ix l 1 = Some x →
  sorted_from (i - 1) (swap_elements 0 (Z.to_nat (i - 1)) l).
Proof.
  intros Hi [Hs Hb] Ho Hx. set (l' := swap_elements _ _ l).
  assert (rearranged i l l') as (El & T & D)
    by (apply (rearranged_swap i l l 1 i); done || lia).
  assert (l' !! Z.to_nat (i - 1) = Some x) as Hx'.
  { unfold l'. rewrite swap_lookup by lia. rewrite decide_False, decide_True by lia. exact Hx. }
  assert (drop (Z.to_nat (i - 1)) l' = x :: drop (Z.to_nat i) l) as Ed.
  { rewrite (drop_S l' x) by done. rewrite <-D. do 2 f_equal. lia. }
  assert (Forall (λ y, below y x) (take (Z.to_nat i) l)) as Hmax.
  { apply Forall_lookup_2. intros k y [Hk Hl]%lookup_take_Some.
    apply (heap_root l i x (Z.of_nat k + 1) y); try done; try lia.
    unfold ix. by replace (Z.to_nat (Z.of_nat k + 1 - 1)) with k by lia. }
  assert (take (Z.to_nat i) l' = take (Z.to_nat (i - 1)) l' ++ [x]) as Et.
  { rewrite <-(take_S_r _ _ x) by done. f_equal. lia. }
  rewrite <-T, Et, Forall_app in Hmax, Hb. rewrite Forall_singleton in Hb.
  destruct Hmax as [Hmax _], Hb as [Hb Hbx]. split; rewrite Ed.
  - by constructor.
  - rewrite Forall_forall in Hmax, Hb |- *. intros y Hy. constructor; auto.
Qed.

Lemma build_ok m l cnt :
  elements array size m l → Z.of_nat (length l) * Z.of_nat size < 2 ^ 32 →
  cnt = Z.of_nat (length l) → cnt < 2 ^ 31 →
  wp (for_upto (Z.to_nat (cnt / 2)) 0 (λ k, heapify compare array (cnt / 2 - k) cnt (Z.of_nat size)))
    (λ _ m', ∃ l', elements array size m' l' ∧ rearranged cnt l l' ∧ heap_order l' 1 cnt 0 ∧
       within array size (length l) m m') m.
Proof.
  intros Hm Hlen Hcnt Hlt. pose proof (Z_div_mod_eq_full cnt 2).
  pose proof (Z.mod_pos_bound cnt 2 ltac:(lia)).
  eapply wp_mono; [apply (wp_for_upto (λ k m', 0 ≤ k ∧ ∃ l', elements array size m' l' ∧
    rearranged cnt l l' ∧ heap_order l' (cnt / 2 - k + 1) cnt 0 ∧ within array size (length l) m m'))|].
  - intros k m' Hk (? & l' & Hm' & Hr & Ho & Hw). pose proof Hr as (El & _ & _).
    eapply wp_mono; [apply (heapify_ok m' l' (cnt / 2 - k)); [done|lia|lia|lia|lia|]|].
    + split; [|intros c x y Hf; pose proof (Z.div_lt (cnt / 2 - k) 2); lia]. intros p c x y Hp Hne. apply Ho; lia.
    + intros [] m2 (l2 & Hm2 & Hr2 & Ho2 & Hw2). split; [lia|]. exists l2. split_and!; [done| | |].
      * eapply (rearranged_trans cnt cnt); done || lia.
      * by replace (cnt / 2 - (k + 1) + 1) with (cnt / 2 - k) by lia.
      * rewrite El in Hw2. by eapply changes_trans.
  - split; [lia|]. exists l. split_and!; [done..| |done]. intros p c x y Hp Hne Hc Hle. lia.
  - intros _ m' (_ & l' & Hm' & Hr & Ho & Hw). exists l'.
    by replace (cnt / 2 - (0 + Z.of_nat (Z.to_nat (cnt / 2))) + 1) with 1 in Ho by lia.
Qed.

Lemma extract_ok m l cnt :
  elements array size m l → Z.of_nat (length l) * Z.of_nat size < 2 ^ 32 →
  cnt = Z.of_nat (length l) → cnt < 2 ^ 31 → heap_order l 1 cnt 0 →
  wp (for_upto (Z.to_nat (cnt - 1)) 0 (λ k,
        do_swap array 1 (cnt - k) (Z.of_nat size);;
        heapify compare array 1 (cnt - k - 1) (Z.of_nat size)))
    (λ _ m', ∃ l', elements array size m' l' ∧ l' ≡ₚ l ∧ StronglySorted below l' ∧
       within array size (length l) m m') m.
Proof.
  intros Hm Hlen Hcnt Hlt Ho.
  eapply wp_mono; [apply (wp_for_upto (λ k m', 0 ≤ k ∧ ∃ l', elements array size m' l' ∧
    rearranged cnt l l' ∧ heap_order l' 1 (cnt - k) 0 ∧ sorted_from (cnt - k) l' ∧
    within array size (length l) m m'))|].
  - intros k m' Hk (? & l' & Hm' & Hr & Ho' & Hs & Hw). pose proof Hr as (El & _ & _). wp_unbind.
    eapply wp_mono; [apply (do_swap_ok array size m' l' 1 (cnt - k)); done || lia|].
    intros [] m1 [Hm1 Hw1]. destruct (ix_some l' 1) as [x Hx]; [lia|].
    pose proof (sorted_from_step (cnt - k) l' x ltac:(lia) Hs Ho' Hx) as Hs1.
    set (l1 := swap_elements _ _ l') in *. change (swap_elements (Z.to_nat 0) _ l') with l1 in *.
    assert (length l1 = length l') as El1 by apply swap_length.
    eapply wp_mono; [apply (heapify_ok m1 l1 1 1 (cnt - k - 1)); [done|lia|lia|lia|lia|]|].
    + split; [|by intros c u v Hf]. intros p c u v Hp Hne Hc Hle Hu Hv.
      unfold l1 in Hu, Hv. rewrite ix_swap in Hu, Hv by lia.
      rewrite (decide_False (P := p = 1)), (decide_False (P := p = cnt - k)) in Hu by lia.
      rewrite (decide_False (P := c = 1)), (decide_False (P := c = cnt - k)) in Hv by lia.
      eapply (Ho' p c); done || lia.
    + intros [] m2 (l2 & Hm2 & Hr2 & Ho2 & Hw2). split; [lia|]. exists l2.
      replace (cnt - (k + 1)) with (cnt - k - 1) by lia.
      assert (rearranged cnt l l1) as Hr1 by (apply rearranged_swap; done || lia).
      split_and!; [done| |done|by eapply sorted_from_rearranged|].
      * eapply (rearranged_trans (cnt - k - 1) cnt); done || lia.
      * rewrite El1, El in Hw2. rewrite El in Hw1. eapply changes_trans; [done|]. by eapply changes_trans.
  - split; [lia|]. exists l. rewrite Z.sub_0_r. split_and!; [done..| |done].
    split; rewrite drop_ge by lia; [constructor|]. by apply Forall_true.
  - intros _ m' (_ & l' & Hm' & Hr & Ho' & [Hs Hb] & Hw). exists l'. split_and!; [done| | |done].
    + destruct Hr as (El & T & _). rewrite !firstn_all2 in T by lia. done.
    + destruct l' as [|x l']; [constructor|].
      assert (Z.to_nat (cnt - (0 + Z.of_nat (Z.to_nat (cnt - 1)))) = 1%nat) as E
        by (destruct Hr as (El & _); simpl in El; lia).
      rewrite E in Hs, Hb. constructor; [exact Hs|]. by apply Forall_cons in Hb as [? _].
Qed.

Lemma sort_ok m l :
  elements array size m l → array ≠ NULL → Z.of_nat (length l) * Z.of_nat size < 2 ^ 32 →
  Z.of_nat (length l) < 2 ^ 31 →
  wp (sort compare array (Z.of_nat (length l)) (Z.of_nat size))
    (λ _ m', ∃ l', elements array size m' l' ∧ l' ≡ₚ l ∧ StronglySorted below l' ∧
       within array size (length l) m m') m.
Proof.
  intros Hm Ha Hlen Hlt. unfold sort.
  wp_assert (by rewrite (proj2 (Z.eqb_neq _ _) Ha)). wp_assert (apply Z.ltb_lt; lia).
  eapply wp_mono; [by apply build_ok|]. intros [] m1 (l1 & Hm1 & Hr & Ho & Hw).
  pose proof Hr as (El & T & _). rewrite !firstn_all2 in T by lia. rewrite <-El.
  eapply wp_mono; [apply extract_ok; rewrite ?El; done|].
  intros [] m2 (l2 & Hm2 & P & Hs & Hw2). exists l2. split_and!; [done|by rewrite P|done|].
  rewrite El in *. by eapply changes_trans.
Qed.

Lemma sorted_below l i j x y :
  StronglySorted below l → l !! i = Some x → l !! j = Some y → (i ≤ j)%nat → below x y.
Proof.
  intros Hs. revert i j. induction Hs as [|z l Hs IH Hf]; intros i j Hi Hj Hij; [done|].
  destruct i as [|i], j as [|j]; simplify_eq/=; [apply below_refl| |lia|apply (IH i j); done || lia].
  by eapply (Forall_lookup_1 _ _ _ _ Hf).
Qed.

(** In a sorted array the elements after one that is too large, and before one
    that is too small, are too. *)
Lemma sorted_larger key l i j x y :
  StronglySorted below l → l !! i = Some x → l !! j = Some y → (i ≤ j)%nat →
  compare key x < 0 → compare key y < 0.
Proof.
  intros Hs Hi Hj Hij Hx. pose proof (compare_sign key x). pose proof (compare_sign key y).
  assert (below x y) as Hxy by by eapply sorted_below.
  destruct (Z.lt_ge_cases (compare key y) 0); [done|].
  pose proof (compare_trans x y key Hxy ltac:(lia)). lia.
Qed.

Lemma sorted_smaller key l i j x y :
  StronglySorted below l → l !! i = Some x → l !! j = Some y → (i ≤ j)%nat →
  0 < compare key y → 0 < compare key x.
Proof.
  intros Hs Hi Hj Hij Hx. pose proof (compare_sign key x). pose proof (compare_sign key y).
  assert (below x y) as Hxy by by eapply sorted_below.
  destruct (Z.lt_ge_cases 0 (compare key x)); [done|].
  assert (compare key y ≤ 0) by (by eapply compare_trans; [|exact Hxy]). lia.
Qed.

Lemma binary_search_ok m l key :
  Z.of_nat (length l) * Z.of_nat size < 2 ^ 32 →
  elements array size m l → StronglySorted below l →
  wp (binary_search compare key array (Z.of_nat (length l)) (Z.of_nat size))
    (λ r m', m' = m ∧
       ((∃ k e, l !! k = Some e ∧ compare key e = 0 ∧ r = array + Z.of_nat k * Z.of_nat size) ∨
        (r = NULL ∧ Forall (λ e, compare key e ≠ 0) l))) m.
Proof.
  intros H32 Hm Hs. unfold binary_search.
  assert (∀ f, 0 ≤ f ≤ Z.of_nat (length l) → is_u32 (f * Z.of_nat size)) as Hin
    by (intros; unfold is_u32; nia).
  apply (wp_loop (λ k '(first, last) m', m' = m ∧ ∃ f g, k = Z.to_nat (g - f) ∧
    first = array + f * Z.of_nat size ∧ last = array + g * Z.of_nat size ∧
    0 ≤ f ≤ g ∧ g ≤ Z.of_nat (length l) ∧
    (∀ i e, l !! i = Some e → Z.of_nat i < f → 0 < compare key e) ∧
    (∀ i e, l !! i = Some e → g ≤ Z.of_nat i → compare key e < 0))) with (k := length l);
    [| |lia].
  - intros k [first last] m' (-> & f & g & -> & -> & -> & Hfg & Hg & Hlo & Hhi).
    destruct (Z.ltb_spec (array + f * Z.of_nat size) (array + g * Z.of_nat size)).
    + cbv zeta.
      replace (array + g * Z.of_nat size - (array + f * Z.of_nat size)) with ((g - f) * Z.of_nat size) by lia.
      rewrite (u32_id ((g - f) * _)) by (apply Hin; lia).
      rewrite Z.div_mul by lia. set (h := f + (g - f) / 2).
      assert (f ≤ h < g).
      { assert (f < g) by nia. unfold h. pose proof (Z.div_lt (g - f) 2 ltac:(lia) ltac:(lia)).
        pose proof (Z.div_pos (g - f) 2). lia. }
      destruct (lookup_lt_is_Some_2 l (Z.to_nat h)) as [e He]; [lia|].
      destruct (Hm _ _ He) as [Le Be]. rewrite Z2Nat.id in Be by lia.
      rewrite (u32_id ((g - f) / 2 * _)) by (apply Hin; lia).
      replace (array + f * Z.of_nat size + (g - f) / 2 * Z.of_nat size)
        with (array + h * Z.of_nat size) by (unfold h; lia).
      wp_unbind. eapply wp_mono; [eapply load_block_ok; [exact Be|lia]|]. intros r m1 [-> ->]. wp_go.
      destruct (Z.ltb_spec (compare key e) 0) as [Hlt|Hge];
        [|destruct (Z.ltb_spec 0 (compare key e)) as [Hgt|Hle]].
      * exists (Z.to_nat (h - f)). split; [lia|]. split; [done|]. exists f, h.
        split_and!; try done; try lia. intros i e' He' Hi.
        apply (sorted_larger key l (Z.to_nat h) i e e'); done || lia.
      * exists (Z.to_nat (g - (h + 1))). split; [lia|]. split; [done|]. exists (h + 1), g.
        split_and!; try done; try lia. intros i e' He' Hi.
        apply (sorted_smaller key l i (Z.to_nat h) e' e); done || lia.
      * split; [done|]. left. exists (Z.to_nat h), e. split_and!; [done|lia|]. rewrite Z2Nat.id; lia.
    + wp_go. split; [done|]. right. split; [done|]. apply Forall_lookup_2. intros i e He Hz.
      destruct (Z.lt_ge_cases (Z.of_nat i) f); [specialize (Hlo i e He)|specialize (Hhi i e He)]; nia.
  - rewrite (Z.mul_comm (Z.of_nat size)), u32_id by (apply Hin; lia).
    split; [done|]. exists 0, (Z.of_nat (length l)). split_and!; try lia.
    intros i e He. apply lookup_lt_Some in He. lia.
Qed.
End heap.

(** * Numbers *)

(** The number a string of digits stands for. *)
Definition decimal (ds : list Z) : Z := foldl (λ v d, v * 10 + (d - 48)) 0 ds.

Lemma decimal_snoc ds d : decimal (ds ++ [d]) = decimal ds * 10 + (d - 48).
Proof. unfold decimal. by rewrite foldl_app. Qed.

Lemma decimal_nonneg ds : Forall (λ d, isdigit d = true) ds → 0 ≤ decimal ds.
Proof.
  induction ds as [|d ds IH] using rev_ind; intros Hd; [done|].
  rewrite decimal_snoc. apply Forall_app in Hd as [Hds [Hd _]%Forall_cons].
  apply andb_true_iff in Hd as [?%Z.leb_le ?%Z.leb_le]. specialize (IH Hds). lia.
Qed.

Lemma decimal_mono ds es :
  Forall (λ d, isdigit d = true) (ds ++ es) → decimal ds ≤ decimal (ds ++ es).
Proof.
  induction es as [|e es IH] using rev_ind; intros Hd; [by rewrite app_nil_r|].
  rewrite app_assoc in *. rewrite decimal_snoc. apply Forall_app in Hd as [Hds [Hd _]%Forall_cons].
  apply andb_true_iff in Hd as [?%Z.leb_le ?%Z.leb_le]. pose proof (decimal_nonneg _ Hds).
  specialize (IH Hds). lia.
Qed.

Lemma wp_int_value {S} z Q (s : S) : is_s32 z → Q z s → wp (int_value z) Q s.
Proof.
  intros [? ?] HQ. unfold int_value. rewrite (proj2 (Z.leb_le _ _)), (proj2 (Z.ltb_lt _ _)) by lia.
  by wp_go.
Qed.

Section numbers.
Implicit Types (m : mem) (xs ds : list Z).

(** The byte after a prefix: a byte of the rest, or the null byte. *)
Lemma cstr_next m a xs ys :
  cstr m a (xs ++ ys) → m !! (a + Z.of_nat (length xs)) = Some (hd 0 ys).
Proof.
  intros Hs. apply cstr_suffix in Hs as (_ & Hb & _).
  rewrite <-(Z.add_0_r (a + _)). apply (Hb 0%nat). by destruct ys.
Qed.

Lemma spaces_loop m a xs ys (Q : Z → mem → Prop) :
  cstr m a (xs ++ ys) → Forall (λ c, isspace c = true) xs → isspace (hd 0 ys) = false →
  Q (a + Z.of_nat (length xs)) m →
  wp (scan (λ s, c ← load s; mret (if isspace c then inl (s + 1) else inr s)) a) Q m.
Proof.
  intros Hs Hx Hy HQ.
  apply (wp_scan (λ k p m', m' = m ∧ ∃ pre rest, xs = pre ++ rest ∧
    p = a + Z.of_nat (length pre) ∧ k = length rest) _ _ _ _ (length xs)).
  - apply cstr_size in Hs. rewrite length_app in Hs. lia.
  - split; [done|]. exists [], xs. simpl. split_and!; [done|lia|done].
  - intros k p m' (-> & pre & rest & -> & -> & ->). wp_unbind. rewrite <-app_assoc in Hs.
    eapply wp_mload; [by eapply cstr_next|]. wp_go. destruct rest as [|c rest]; simpl.
    + rewrite Hy. by rewrite app_nil_r in HQ.
    + apply Forall_app in Hx as [_ [Hc _]%Forall_cons]. rewrite Hc. exists (length rest).
      split; [simpl; lia|]. split; [done|]. exists (pre ++ [c]), rest. rewrite <-app_assoc, length_app.
      simpl. split_and!; [done|lia|done].
Qed.

Lemma digits_loop m a ds ys (Q : Z → mem → Prop) :
  cstr m a (ds ++ ys) → Forall (λ d, isdigit d = true) ds → isdigit (hd 0 ys) = false →
  decimal ds ≤ 2 ^ 31 → Q (- decimal ds) m →
  wp (scan (λ '(s, value),
    c ← load s;
    if isdigit c then
      v ← int_value (value * 10);
      v ← int_value (v - (c - 48));
      mret (inl (s + 1, v))
    else mret (inr value)) (a, 0)) Q m.
Proof.
  intros Hs Hd Hy Hr HQ.
  apply (wp_scan (λ k '(p, v) m', m' = m ∧ ∃ pre rest, ds = pre ++ rest ∧
    p = a + Z.of_nat (length pre) ∧ v = - decimal pre ∧ k = length rest) _ _ _ _ (length ds)).
  - apply cstr_size in Hs. rewrite length_app in Hs. lia.
  - split; [done|]. exists [], ds. simpl. split_and!; [done|lia|done|done].
  - intros k [p v] m' (-> & pre & rest & -> & -> & -> & ->). wp_unbind. rewrite <-app_assoc in Hs.
    eapply wp_mload; [by eapply cstr_next|]. destruct rest as [|c rest]; simpl hd.
    + rewrite Hy. wp_go. by rewrite app_nil_r in HQ.
    + assert (pre ++ c :: rest = (pre ++ [c]) ++ rest) as E by by rewrite <-app_assoc.
      pose proof Hd as Hd'. rewrite E in Hd', Hr. pose proof (decimal_mono _ _ Hd') as Hmono.
      apply Forall_app in Hd as [Hpre [Hc _]%Forall_cons]. rewrite Hc.
      apply andb_true_iff in Hc as [?%Z.leb_le ?%Z.leb_le].
      pose proof (decimal_nonneg _ Hpre). rewrite decimal_snoc in Hmono.
      wp_unbind. apply wp_int_value; [unfold is_s32; lia|].
      wp_unbind. apply wp_int_value; [unfold is_s32; lia|]. wp_go.
      exists (length rest). split; [simpl; lia|]. split; [done|]. exists (pre ++ [c]), rest.
      rewrite decimal_snoc, length_app. simpl. split_and!; [done|lia|lia|done].
Qed.

Lemma not_space d : isdigit d = true → isspace d = false ∧ d ≠ 43 ∧ d ≠ 45.
Proof.
  intros [?%Z.leb_le ?%Z.leb_le]%andb_true_iff. split; [|lia]. unfold isspace.
  repeat (apply orb_false_iff; split); apply Z.eqb_neq; lia.
Qed.

(** White space, a sign or none, and digits up to something else. *)
Lemma atoi_ok m a sp (negative : bool) sign d ds rest :
  cstr m a (sp ++ sign ++ (d :: ds) ++ rest) → Forall (λ c, isspace c = true) sp →
  (if negative then sign = [45] else sign = [] ∨ sign = [43]) →
  Forall (λ d, isdigit d = true) (d :: ds) → isdigit (hd 0 rest) = false →
  let v := if negative then - decimal (d :: ds) else decimal (d :: ds) in
  is_s32 v → wp (atoi a) (λ r m', r = v ∧ m' = m) m.
Proof.
  intros Hs Hsp Hsg Hd Hrest v Hv. pose proof (decimal_nonneg _ Hd). pose proof Hs as (Ha & _).
  pose proof Hd as [(Hns & Hn1 & Hn2)%not_space _]%Forall_cons. unfold atoi.
  wp_assert (by apply negb_true_iff, Z.eqb_neq; unfold NULL; lia).
  apply (spaces_loop m a sp (sign ++ (d :: ds) ++ rest)); [done..| |].
  { destruct negative; [by subst|]. destruct Hsg; by subst. }
  wp_unbind. eapply wp_mload; [by eapply cstr_next|]. apply cstr_suffix in Hs.
  assert (∀ s (neg : bool), neg = negative → s = a + Z.of_nat (length sp) + Z.of_nat (length sign) →
    wp (value ← scan (λ '(s, value), c ← load s;
          if isdigit c then
            v ← int_value (value * 10); v ← int_value (v - (c - 48)); mret (inl (s + 1, v))
          else mret (inr value)) (s, 0);
        if negb neg then int_value (- value) else mret value) (λ r m', r = v ∧ m' = m) m) as Hrun.
  { intros s neg -> ->. apply cstr_suffix in Hs. wp_unbind. eapply digits_loop; [done..| |].
    - unfold v, is_s32 in Hv. destruct negative; lia.
    - unfold v in *. destruct negative; simpl negb; [by wp_go|]. rewrite Z.opp_involutive.
      by apply wp_int_value. }
  destruct negative; [subst sign; apply Hrun; [done|simpl; lia]|].
  destruct Hsg; subst sign; simpl hd.
  - rewrite (proj2 (Z.eqb_neq d 43)), (proj2 (Z.eqb_neq d 45)) by done. apply Hrun; [done|simpl; lia].
  - apply Hrun; [done|simpl; lia].
Qed.
End numbers.
