(* ===== verification/Stdio.v ===== *)
(** Formatted output ([lib/stdio.c]).  The state is the memory and the data of
    the output function; a variable argument list is the list of 32-bit words
    the caller pushed, of which a 64-bit argument takes two.  64-bit division
    is the routine of [lib/arithmetic.c] the compiler calls. *)
From Stdlib Require Import ZArith Lia.
From stdpp Require Import base tactics option numbers list gmap.
From S2P Require Import Prelude CString Arithmetic CStdlib.

Open Scope Z_scope.

Record vsnprintf_aux := mk_aux { aux_p : Z; aux_length : Z; aux_max_length : Z }.

Definition MINUS : Z := Z.shiftl 1 0.
Definition PLUS : Z := Z.shiftl 1 1.
Definition SPACE : Z := Z.shiftl 1 2.
Definition POUND : Z := Z.shiftl 1 3.
Definition ZERO : Z := Z.shiftl 1 4.
Definition GROUP : Z := Z.shiftl 1 5.

Inductive argument_type := CHAR | SHORT | INT | INTMAX | LONG | LONGLONG | PTRDIFFT | SIZET.

Record printf_conversion := mk_conversion {
  flags : Z; width : Z; precision : Z; type : argument_type }.

Record integer_base := mk_base { base : Z; digits : list Z; x_char : Z; group : Z }.

Definition decimal_digits : list Z := [48; 49; 50; 51; 52; 53; 54; 55; 56; 57].
Definition base_d : integer_base := mk_base 10 decimal_digits 0 3.
Definition base_o : integer_base := mk_base 8 (take 8 decimal_digits) 0 3.
Definition base_x : integer_base := mk_base 16 (decimal_digits ++ [97; 98; 99; 100; 101; 102]) 120 4.
Definition base_X : integer_base := mk_base 16 (decimal_digits ++ [65; 66; 67; 68; 69; 70]) 88 4.

(** Where the linker put the string constants of [stdio.c]. *)
Record literals := mk_literals { no_in_kernel : Z; no_conversion : Z; null_string : Z }.

(** [c & F]. *)
Definition has (f c : Z) : bool := negb (Z.land c f =? 0).

Module Ops.
Section output.
Context {A : Type}.
Abbreviation st := (mem * A)%type.
Context (output : Z → M st unit).

Definition on_mem {R} (m : M mem R) : M st R := zoom fst (λ m s, (m, s.2)) m.
Definition load (a : Z) : M st Z := on_mem (CString.Ops.load a).
Definition scan {X Y} (body : X → M st (X + Y)) (x : X) : M st Y :=
  s ← get; loop (S (size s.1)) body x.

(** [va_arg]. *)
Definition va_word (args : list Z) : M st (Z * list Z) :=
  match args with w :: ws => mret (w, ws) | [] => undef end.
Definition va_two_words (args : list Z) : M st (Z * list Z) :=
  match args with lo :: hi :: ws => mret (lo + 2 ^ 32 * hi, ws) | _ => undef end.
Definition va_int (args : list Z) : M st (Z * list Z) :=
  '(w, ws) ← va_word args; mret (s32 w, ws).
Definition va_long_long (args : list Z) : M st (Z * list Z) :=
  '(w, ws) ← va_two_words args; mret (s64 w, ws).

Definition output_dup (ch cnt : Z) : M st unit := for_upto (Z.to_nat cnt) 0 (λ _, output ch).

(** [*cp++ = ch], into [char buf[64]]. *)
Definition put_char (buf : list Z) (ch : Z) : M st (list Z) :=
  if (length buf <? 64)%nat then mret (buf ++ [ch]) else undef.

(** The loop that puts the digits of [value] into [buf], the last one first. *)
Definition accumulate_digits (value : Z) (b : integer_base) (c : printf_conversion) : M st (list Z) :=
  loop 65 (λ '(value, digit_cnt, buf),
    if 0 <? value then
      buf ← (if has GROUP (flags c) && (0 <? digit_cnt) && (Z.rem digit_cnt (group b) =? 0)
             then put_char buf 44 else mret buf);
      r ← Arithmetic.Ops.__umoddi3 value (base b);
      d ← deref (digits b !! Z.to_nat r);
      buf ← put_char buf d;
      value ← Arithmetic.Ops.__udivdi3 value (base b);
      mret (inl (value, digit_cnt + 1, buf))
    else mret (inr buf)) (value, 0, []).

(** The zeros that make up the precision, and the one of [%#o]. *)
Definition append_zeros (b : integer_base) (c : printf_conversion) (buf : list Z) : M st (list Z) :=
  let precision := if precision c <? 0 then 1 else precision c in
  buf ← loop 65 (λ buf,
    if (Z.of_nat (length buf) <? precision) && (length buf <? 63)%nat
    then buf ← put_char buf 48; mret (inl buf) else mret (inr buf)) buf;
  if has POUND (flags c) && (base b =? 8) &&
     ((length buf =? 0)%nat || negb (bool_decide (last buf = Some 48)))
  then put_char buf 48 else mret buf.

(** The digits leave the buffer from its end. *)
Definition output_buffer (buf : list Z) : M st unit :=
  loop 65 (λ buf,
    match last buf with
    | Some ch => output ch;; mret (inl (removelast buf))
    | None => mret (inr tt)
    end) buf.

Definition format_integer (value : Z) (is_signed negative : bool)
    (b : integer_base) (c : printf_conversion) : M st unit :=
  let sign :=
    if is_signed then
      if has PLUS (flags c) then (if negative then 45 else 43)
      else if has SPACE (flags c) then (if negative then 45 else 32)
      else if negative then 45 else 0
    else 0 in
  let x := if has POUND (flags c) && negb (value =? 0) then x_char b else 0 in
  buf ← accumulate_digits value b c;
  buf ← append_zeros b c buf;
  let pad_cnt := width c - Z.of_nat (length buf) - (if x =? 0 then 0 else 2)
                 - (if sign =? 0 then 0 else 1) in
  let pad_cnt := if pad_cnt <? 0 then 0 else pad_cnt in
  (if Z.land (flags c) (Z.lor MINUS ZERO) =? 0 then output_dup 32 pad_cnt else mret tt);;
  (if negb (sign =? 0) then output sign else mret tt);;
  (if negb (x =? 0) then output 48;; output x else mret tt);;
  (if has ZERO (flags c) then output_dup 48 pad_cnt else mret tt);;
  output_buffer buf;;
  (if has MINUS (flags c) then output_dup 32 pad_cnt else mret tt).

(** [string[i]] is given as a function, for a string in memory and for the one
    local character of [%c]. *)
Definition format_string (string : Z → M st Z) (length : Z) (c : printf_conversion) : M st unit :=
  (if (length <? width c) && negb (has MINUS (flags c))
   then output_dup 32 (width c - length) else mret tt);;
  for_upto (Z.to_nat length) 0 (λ i, ch ← string i; output ch);;
  (if (length <? width c) && has MINUS (flags c)
   then output_dup 32 (width c - length) else mret tt).

(** The loop that reads a field width or a precision. *)
Definition parse_number (format : Z) : M st (Z * Z) :=
  scan (λ '(format, n),
    ch ← load format;
    if isdigit ch then
      v ← int_value (n * 10);
      v ← int_value (v + ch);
      v ← int_value (v - 48);
      mret (inl (format + 1, v))
    else mret (inr (format, n))) (format, 0).

Definition parse_conversion (format : Z) (args : list Z)
    : M st (Z * printf_conversion * list Z) :=
  '(format, flags) ← scan (λ '(format, flags),
    ch ← load format;
    mret (if ch =? 45 then inl (format + 1, Z.lor flags MINUS)
          else if ch =? 43 then inl (format + 1, Z.lor flags PLUS)
          else if ch =? 32 then inl (format + 1, Z.lor flags SPACE)
          else if ch =? 35 then inl (format + 1, Z.lor flags POUND)
          else if ch =? 48 then inl (format + 1, Z.lor flags ZERO)
          else if ch =? 39 then inl (format + 1, Z.lor flags GROUP)
          else inr (format, flags))) (format, 0);
  let flags := if has MINUS flags then Z.ldiff flags ZERO else flags in
  let flags := if has PLUS flags then Z.ldiff flags SPACE else flags in
  ch ← load format;
  '(format, width, args) ← (if ch =? 42 then
      '(w, args) ← va_int args; mret (format + 1, w, args)
    else
      '(format, w) ← parse_number format; mret (format, w, args));
  '(width, flags) ← (if width <? 0 then
      w ← int_value (- width); mret (w, Z.lor flags MINUS)
    else mret (width, flags));
  ch ← load format;
  '(format, precision, args) ← (if ch =? 46 then
      let format := format + 1 in
      ch ← load format;
      '(format, p, args) ← (if ch =? 42 then
          '(p, args) ← va_int args; mret (format + 1, p, args)
        else
          '(format, p) ← parse_number format; mret (format, p, args));
      mret (format, (if p <? 0 then -1 else p), args)
    else mret (format, -1, args));
  let flags := if 0 <=? precision then Z.ldiff flags ZERO else flags in
  ch ← load format;
  '(format, type) ← (if ch =? 104 then
      ch ← load (format + 1);
      mret (if ch =? 104 then (format + 2, CHAR) else (format + 1, SHORT))
    else if ch =? 106 then mret (format + 1, INTMAX)
    else if ch =? 108 then
      ch ← load (format + 1);
      mret (if ch =? 108 then (format + 2, LONGLONG) else (format + 1, LONG))
    else if ch =? 116 then mret (format + 1, PTRDIFFT)
    else if ch =? 122 then mret (format + 1, SIZET)
    else mret (format, INT));
  mret (format, mk_conversion flags width precision type, args).

(** The argument of a signed conversion. *)
Definition signed_argument (t : argument_type) (args : list Z) : M st (Z * list Z) :=
  match t with
  | CHAR => '(w, args) ← va_int args; mret ((w + 2 ^ 7) mod 2 ^ 8 - 2 ^ 7, args)
  | SHORT => '(w, args) ← va_int args; mret ((w + 2 ^ 15) mod 2 ^ 16 - 2 ^ 15, args)
  | INT | LONG | PTRDIFFT => va_int args
  | INTMAX | LONGLONG => va_long_long args
  | SIZET =>
      '(w, args) ← va_word args;
      mret (if (2 ^ 32 - 1) / 2 <? w then w - (2 ^ 32 - 1) - 1 else w, args)
  end.

(** The argument of an unsigned conversion. *)
Definition unsigned_argument (t : argument_type) (args : list Z) : M st (Z * list Z) :=
  match t with
  | CHAR => '(w, args) ← va_word args; mret (w mod 2 ^ 8, args)
  | SHORT => '(w, args) ← va_word args; mret (w mod 2 ^ 16, args)
  | INT | LONG | SIZET => va_word args
  | INTMAX | LONGLONG => va_two_words args
  | PTRDIFFT =>
      '(w, args) ← va_int args;
      mret (Z.land (u64 w) (Z.lor (Z.shiftl (2 ^ 31 - 1) 1) 1), args)
  end.

Context (lit : literals).

(** [depth] bounds the calls to itself, made to report a conversion that does
    not exist; the formats of these reports make none. *)
Fixpoint __vprintf (depth : nat) (format : Z) (args : list Z) : M st unit :=
  match depth with
  | O => no_fuel
  | S depth' =>
  scan (λ '(format, args),
    ch ← load format;
    if ch =? 0 then mret (inr tt) else
    if negb (ch =? 37) then output ch;; mret (inl (format + 1, args)) else
    let format := format + 1 in
    ch ← load format;
    if ch =? 37 then output 37;; mret (inl (format + 1, args)) else
    '(format, c, args) ← parse_conversion format args;
    ch ← load format;
    args ← (if (ch =? 100) || (ch =? 105) then
        '(value, args) ← signed_argument (type c) args;
        v ← (if value <? 0 then (if value =? - 2 ^ 63 then undef else mret (- value)) else mret value);
        format_integer v true (value <? 0) base_d c;;
        mret args
      else if (ch =? 111) || (ch =? 117) || (ch =? 120) || (ch =? 88) then
        '(value, args) ← unsigned_argument (type c) args;
        let b := if ch =? 111 then base_o else if ch =? 117 then base_d
                 else if ch =? 120 then base_x else base_X in
        format_integer value false false b c;;
        mret args
      else if ch =? 99 then
        '(w, args) ← va_int args;
        let local := w mod 2 ^ 8 in
        format_string (λ i, if i =? 0 then mret local else undef) 1 c;;
        mret args
      else if ch =? 115 then
        '(s, args) ← va_word args;
        let s := if s =? NULL then null_string lit else s in
        n ← on_mem (CString.Ops.strnlen s (u32 (precision c)));
        format_string (λ i, load (s + i)) (s32 n) c;;
        mret args
      else if ch =? 112 then
        '(p, args) ← va_word args;
        format_integer p false false base_x (mk_conversion POUND (width c) (precision c) (type c));;
        mret args
      else if (ch =? 102) || (ch =? 101) || (ch =? 69) || (ch =? 103) || (ch =? 71) || (ch =? 110) then
        __vprintf depth' (no_in_kernel lit) [ch];;
        mret args
      else
        __vprintf depth' (no_conversion lit) [ch];;
        mret args);
    mret (inl (format + 1, args))) (format, args)
  end.

(** [__printf] passes its variable arguments on. *)
Definition __printf (format : Z) (args : list Z) : M st unit := __vprintf 2 format args.
End output.

Definition vsnprintf_helper (ch : Z) : M (mem * vsnprintf_aux) unit :=
  '(m, aux) ← get;
  put (m, mk_aux (aux_p aux) (aux_length aux + 1) (aux_max_length aux));;
  if aux_length aux <? aux_max_length aux then
    on_mem (CString.Ops.store (aux_p aux) ch);;
    modify (λ '(m, aux), (m, mk_aux (aux_p aux + 1) (aux_length aux) (aux_max_length aux)))
  else mret tt.

Definition vsnprintf (lit : literals) (buffer buf_size format : Z) (args : list Z) : M mem Z :=
  λ m,
  let aux := mk_aux buffer 0 (if 0 <? buf_size then s32 (buf_size - 1) else 0) in
  match (__vprintf vsnprintf_helper lit 2 format args;;
         aux ← gets snd;
         (if 0 <? buf_size then on_mem (CString.Ops.store (aux_p aux) 0) else mret tt);;
         mret (aux_length aux)) (m, aux) with
  | Ok (r, (m', _)) => Ok (r, m')
  | Panic => Panic
  | Undef => Undef
  | NoFuel => NoFuel
  end.

Definition snprintf (lit : literals) (buffer buf_size format : Z) (args : list Z) : M mem Z :=
  vsnprintf lit buffer buf_size format args.
End Ops.
Import Ops.

(** * Commands that only differ in how they are put together *)
Section monad.
Context {S : Type}.
Implicit Types s : S.

Lemma bind_assoc {A B C} (m : M S A) (f : A → M S B) (g : B → M S C) s :
  ((m ≫= f) ≫= g) s = (m ≫= (λ a, f a ≫= g)) s.
Proof. unfold mbind, M_bind. by destruct (m s) as [[a s']| | |]. Qed.

Lemma bind_ext {A B} (m m' : M S A) (f g : A → M S B) s :
  m s = m' s → (∀ a s', f a s' = g a s') → (m ≫= f) s = (m' ≫= g) s.
Proof. intros Hm H. unfold mbind, M_bind. rewrite Hm. by destruct (m' s) as [[a s']| | |]. Qed.

Lemma loop_turn {X Y} n (body : X → M S (X + Y)) x s r s' :
  body x s = Ok (r, s') →
  loop (Datatypes.S n) body x s = match r with inl x' => loop n body x' s' | inr y => Ok (y, s') end.
Proof. intros H. simpl. rewrite (bind_ok _ _ _ _ _ H). by destruct r. Qed.

Lemma bind_ret_r (m : M S unit) s : (m;; mret tt) s = m s.
Proof. unfold mbind, M_bind. by destruct (m s) as [[[] s']| | |]. Qed.
End monad.

(** * What a conversion prints *)

(** The digits of a number, the last one first. *)
Fixpoint number_digits (n : nat) (b v : Z) : list Z :=
  match n with
  | O => []
  | S n' => if v =? 0 then [] else v mod b :: number_digits n' b (v / b)
  end.

(** Digits as characters, with a comma before every group but the first. *)
Fixpoint digit_text (b : integer_base) (grouped : bool) (i : Z) (ds : list Z) : list Z :=
  match ds with
  | [] => []
  | d :: ds =>
      (if grouped && (0 <? i) && (Z.rem i (group b) =? 0) then [44] else []) ++
      default 0 (digits b !! Z.to_nat d) :: digit_text b grouped (i + 1) ds
  end.

Definition sign_text (is_signed negative : bool) (c : printf_conversion) : list Z :=
  if negb is_signed then [] else
  if negative then [45] else
  if has PLUS (flags c) then [43] else if has SPACE (flags c) then [32] else [].

(** The digits of [value], at least as many as the precision asks for and the
    buffer of 64 bytes holds. *)
Definition body_text (value : Z) (b : integer_base) (c : printf_conversion) : list Z :=
  let t := digit_text b (has GROUP (flags c)) 0 (number_digits 64 (base b) value) in
  let p := if precision c <? 0 then 1 else precision c in
  let t := t ++ replicate (Z.to_nat (Z.min p 63) - length t) 48 in
  let t := if has POUND (flags c) && (base b =? 8) && negb (bool_decide (last t = Some 48))
           then t ++ [48] else t in
  reverse t.

Definition prefix_text (value : Z) (b : integer_base) (c : printf_conversion) : list Z :=
  if has POUND (flags c) && negb (value =? 0) && negb (x_char b =? 0) then [48; x_char b] else [].

Definition integer_text (value : Z) (is_signed negative : bool) (b : integer_base)
    (c : printf_conversion) : list Z :=
  let sign := sign_text is_signed negative c in
  let prefix := prefix_text value b c in
  let body := body_text value b c in
  let pad := Z.to_nat (width c - Z.of_nat (length (sign ++ prefix ++ body))) in
  (if negb (has MINUS (flags c)) && negb (has ZERO (flags c)) then replicate pad 32 else []) ++
  sign ++ prefix ++
  (if has ZERO (flags c) then replicate pad 48 else []) ++
  body ++
  (if has MINUS (flags c) then replicate pad 32 else []).

Section text.
Context {A : Type} (output : Z → M (mem * A) unit).
Implicit Types s : mem * A.

Fixpoint emit (text : list Z) : M (mem * A) unit :=
  match text with [] => mret tt | ch :: text => output ch;; emit text end.

Lemma emit_app xs ys s : emit (xs ++ ys) s = (emit xs;; emit ys) s.
Proof.
  revert s. induction xs as [|x xs IH]; intros s; [done|]. simpl. rewrite bind_assoc.
  apply bind_ext; [done|]. intros [] s'. apply IH.
Qed.

Lemma output_dup_emit ch cnt s : output_dup output ch cnt s = emit (replicate (Z.to_nat cnt) ch) s.
Proof.
  unfold output_dup. generalize 0. revert s. induction (Z.to_nat cnt) as [|n IH]; intros s i; [done|].
  simpl. apply bind_ext; [done|]. intros [] s'. apply IH.
Qed.

(** The digits leave the buffer in reverse. *)
Lemma reverse_loop n buf s :
  (length buf < n)%nat →
  loop n (λ buf, match last buf with
                 | Some ch => output ch;; mret (inl (removelast buf))
                 | None => mret (inr tt)
                 end) buf s = emit (reverse buf) s.
Proof.
  revert buf s. induction n as [|n IH]; intros buf s Hn; [lia|].
  destruct buf as [|ch buf _] using rev_ind; [done|].
  simpl loop. rewrite last_snoc, reverse_snoc, bind_assoc. simpl. apply bind_ext; [done|].
  intros [] s'. rewrite removelast_last. rewrite length_app in Hn. simpl in Hn.
  rewrite <-IH by lia. done.
Qed.

Lemma put_char_ok buf ch s : (length buf < 64)%nat → put_char buf ch s = Ok (buf ++ [ch], s).
Proof. intros H. unfold put_char. by rewrite (proj2 (Nat.ltb_lt _ _) H). Qed.

Lemma zeros_loop n p buf s :
  (length buf ≤ 63)%nat → (63 - length buf < n)%nat →
  loop n (λ buf, if (Z.of_nat (length buf) <? p) && (length buf <? 63)%nat
                 then buf ← put_char buf 48; mret (inl buf) else mret (inr buf)) buf s =
  Ok (buf ++ replicate (Z.to_nat (Z.min p 63) - length buf) 48, s).
Proof.
  revert buf. induction n as [|n IH]; intros buf Hl Hn; [lia|]. simpl loop.
  destruct (Z.ltb_spec (Z.of_nat (length buf)) p), (Nat.ltb_spec (length buf) 63); simpl andb; cbv iota.
  1: { rewrite bind_assoc, (bind_ok _ _ _ _ _ (put_char_ok buf 48 s ltac:(lia))). simpl.
       rewrite (bind_ok _ _ s (inl (buf ++ [48])) s) by done. rewrite IH by (rewrite length_app; simpl; lia).
       rewrite <-app_assoc. do 2 f_equal. rewrite length_app. simpl.
       replace (Z.to_nat (Z.min p 63) - length buf)%nat with
         (S (Z.to_nat (Z.min p 63) - (length buf + 1))) by lia. done. }
  all: rewrite (bind_ok _ _ s (inr buf) s) by done; simpl;
    replace (Z.to_nat (Z.min p 63) - length buf)%nat with 0%nat by lia; by rewrite app_nil_r.
Qed.

Definition well_based (b : integer_base) : Prop :=
  8 ≤ base b ≤ 16 ∧ length (digits b) = Z.to_nat (base b).

Lemma number_digits_length n b v : 1 < b → ∀ k, 0 ≤ v < b ^ Z.of_nat k → (length (number_digits n b v) ≤ k)%nat.
Proof.
  intros Hb. revert v. induction n as [|n IH]; intros v k Hv; simpl; [lia|].
  destruct (Z.eqb_spec v 0); simpl; [lia|]. destruct k as [|k]; [change (b ^ Z.of_nat 0) with 1 in Hv; lia|].
  assert (length (number_digits n b (v / b)) ≤ k)%nat; [|lia]. apply IH. split; [apply Z.div_pos; lia|].
  apply Z.div_lt_upper_bound; [lia|]. rewrite <-Z.pow_succ_r, <-Nat2Z.inj_succ by lia. lia.
Qed.

Lemma digit_text_length b g i ds : (length (digit_text b g i ds) ≤ 2 * length ds)%nat.
Proof.
  revert i. induction ds as [|d ds IH]; intros i; simpl; [lia|]. specialize (IH (i + 1)).
  rewrite length_app. simpl. destruct (_ && _); simpl; lia.
Qed.

(** A 64-bit number has at most 22 digits, and at most as many commas. *)
Lemma digits_fit b g v :
  well_based b → is_u64 v → (length (digit_text b g 0 (number_digits 64 (base b) v)) ≤ 44)%nat.
Proof.
  intros [Hb _] [? ?]. pose proof (digit_text_length b g 0 (number_digits 64 (base b) v)).
  assert (length (number_digits 64 (base b) v) ≤ 22)%nat; [|lia].
  apply number_digits_length; [lia|]. split; [done|].
  apply Z.lt_le_trans with (8 ^ 22); [lia|]. change (Z.of_nat 22) with 22. apply Z.pow_le_mono_l. lia.
Qed.

Lemma accumulate_loop b g n v i buf s :
  well_based b → 0 ≤ v < base b ^ Z.of_nat n → v < 2 ^ 64 →
  (length buf + length (digit_text b g i (number_digits n (base b) v)) ≤ 64)%nat →
  loop (S n) (λ '(value, digit_cnt, buf),
    if 0 <? value then
      buf ← (if g && (0 <? digit_cnt) && (Z.rem digit_cnt (group b) =? 0)
             then put_char buf 44 else mret buf);
      r ← Arithmetic.Ops.__umoddi3 value (base b);
      d ← deref (digits b !! Z.to_nat r);
      buf ← put_char buf d;
      value ← Arithmetic.Ops.__udivdi3 value (base b);
      mret (inl (value, digit_cnt + 1, buf))
    else mret (inr buf)) (v, i, buf) s =
  Ok (buf ++ digit_text b g i (number_digits n (base b) v), s).
Proof.
  intros [Hb Hd]. revert v i buf. induction n as [|n IH]; intros v i buf Hv H64 Hl.
  { change (base b ^ Z.of_nat 0) with 1 in Hv. replace v with 0 by lia.
    rewrite (loop_turn _ _ _ _ (inr buf) s) by done. by rewrite app_nil_r. }
  set (body := λ _, _). cbn [number_digits] in *. destruct (Z.eqb_spec v 0) as [->|Hne].
  { rewrite (loop_turn _ _ _ _ (inr buf) s) by done. by rewrite app_nil_r. }
  cbn [digit_text] in *. set (comma := if _ && _ then [44] else [] : list Z) in *.
  pose proof (Z.mod_pos_bound v (base b) ltac:(lia)) as Hmod.
  destruct (lookup_lt_is_Some_2 (digits b) (Z.to_nat (v mod base b))) as [d Ed]; [lia|].
  rewrite Ed in *. cbn [default] in *. rewrite length_app in Hl. cbn [length] in Hl.
  assert (body (v, i, buf) s = Ok (inl (v / base b, i + 1, buf ++ comma ++ [d]), s)) as Hbody.
  { unfold body. rewrite (proj2 (Z.ltb_lt 0 v)) by lia.
    rewrite (bind_ok _ _ s (buf ++ comma) s).
    2: { unfold comma in *. destruct (_ && _); [apply put_char_ok; simpl in Hl; lia|by rewrite app_nil_r]. }
    assert (Arithmetic.Ops.__umoddi3 v (base b) s = Ok (v mod base b, s)) as Em.
    { unfold Arithmetic.Ops.__umoddi3.
      rewrite (bind_ok _ _ _ _ _ (umod64_ok v (base b) s ltac:(split; lia) ltac:(split; lia) ltac:(lia))).
      rewrite u32_id by (unfold is_u32; lia). unfold mret, M_ret. rewrite u64_id by (split; lia). done. }
    rewrite (bind_ok _ _ _ _ _ Em), (bind_ok _ _ s d s) by (by rewrite Ed).
    rewrite (bind_ok _ _ _ _ _ (put_char_ok (buf ++ comma) d s ltac:(rewrite length_app; lia))).
    unfold Arithmetic.Ops.__udivdi3.
    rewrite (bind_ok _ _ _ _ _ (udiv64_ok v (base b) s ltac:(split; lia) ltac:(split; lia) ltac:(lia))).
    by rewrite <-app_assoc. }
  rewrite (loop_turn _ _ _ _ _ _ Hbody). unfold body. rewrite IH.
  - by rewrite <-!app_assoc.
  - split; [apply Z.div_pos; lia|]. apply Z.div_lt_upper_bound; [lia|].
    rewrite <-Z.pow_succ_r, <-Nat2Z.inj_succ by lia. lia.
  - apply Z.le_lt_trans with v; [|done]. apply Z.div_le_upper_bound; nia.
  - rewrite !length_app. simpl. lia.
Qed.

Lemma no_padding_flags f :
  (Z.land f (Z.lor MINUS ZERO) =? 0) = negb (has MINUS f) && negb (has ZERO f).
Proof.
  unfold has. rewrite !negb_involutive, Z.land_lor_distr_r.
  apply eq_bool_prop_intro. rewrite andb_True, !Is_true_true, !Z.eqb_eq. apply Z.lor_eq_0_iff.
Qed.

Lemma accumulate_digits_ok value b c s :
  well_based b → is_u64 value →
  accumulate_digits value b c s =
  Ok (digit_text b (has GROUP (flags c)) 0 (number_digits 64 (base b) value), s).
Proof.
  intros Hb Hv. pose proof (digits_fit b (has GROUP (flags c)) value Hb Hv) as Hfit.
  apply (accumulate_loop b (has GROUP (flags c)) 64 value 0 [] s Hb); destruct Hb as [Hb _], Hv as [? ?];
    [|done|cbn [length]; lia].
  split; [done|]. apply Z.lt_le_trans with (2 ^ 64); [done|]. apply Z.pow_le_mono_l. lia.
Qed.

Lemma append_zeros_ok value b c s :
  well_based b → is_u64 value →
  append_zeros b c (digit_text b (has GROUP (flags c)) 0 (number_digits 64 (base b) value)) s =
    Ok (reverse (body_text value b c), s) ∧ (length (body_text value b c) ≤ 64)%nat.
Proof.
  intros Hb Hv. pose proof (digits_fit b (has GROUP (flags c)) value Hb Hv) as Hfit.
  unfold body_text, append_zeros. cbv zeta. set (t := digit_text _ _ _ _) in *. clearbody t.
  set (p := if _ <? 0 then _ else _).
  rewrite (bind_ok _ _ _ _ _ (zeros_loop 65 p t s ltac:(lia) ltac:(lia))).
  set (t' := t ++ replicate _ 48).
  assert (length t' ≤ 63)%nat by (unfold t'; rewrite length_app, length_replicate; lia).
  assert (((length t' =? 0)%nat || negb (bool_decide (last t' = Some 48))) =
    negb (bool_decide (last t' = Some 48))) as -> by (by destruct t').
  destruct (_ && negb _).
  - rewrite put_char_ok by lia. rewrite reverse_involutive, length_reverse, length_app. simpl. split; [done|lia].
  - rewrite reverse_involutive, length_reverse. split; [done|lia].
Qed.

Lemma if_emit (g : bool) (m : M (mem * A) unit) xs s :
  (∀ s, m s = emit xs s) → (if g then m else mret tt) s = emit (if g then xs else []) s.
Proof. by destruct g. Qed.

Lemma output_emit ch s : output ch s = emit [ch] s.
Proof. simpl. by rewrite bind_ret_r. Qed.

Lemma then_emit (m : M (mem * A) unit) xs (k : M (mem * A) unit) ys s :
  (∀ s, m s = emit xs s) → (∀ s, k s = emit ys s) → (m;; k) s = emit (xs ++ ys) s.
Proof. intros Hm Hk. rewrite emit_app. by apply bind_ext; [|intros [] s']. Qed.

(** [format_integer] prints [integer_text]. *)
Lemma format_integer_text value is_signed negative b c s :
  well_based b → is_u64 value →
  format_integer output value is_signed negative b c s =
  emit (integer_text value is_signed negative b c) s.
Proof.
  intros Hb Hv. unfold format_integer. cbv zeta.
  rewrite (bind_ok _ _ _ _ _ (accumulate_digits_ok value b c s Hb Hv)).
  destruct (append_zeros_ok value b c s Hb Hv) as [Hz Hlen].
  rewrite (bind_ok _ _ _ _ _ Hz), length_reverse. unfold integer_text.
  set (sign := if is_signed then _ else 0). set (x := if _ && _ then x_char b else 0).
  set (pad := if _ <? 0 then 0 else _).
  assert (sign_text is_signed negative c = if negb (sign =? 0) then [sign] else []) as Es.
  { unfold sign_text, sign. by destruct is_signed, negative, (has PLUS (flags c)), (has SPACE (flags c)). }
  assert (prefix_text value b c = if negb (x =? 0) then [48; x] else []) as Ex.
  { unfold prefix_text, x. destruct (has POUND _ && _); simpl; [|done]. by destruct (Z.eqb_spec (x_char b) 0). }
  set (sg := sign_text _ _ _) in *. set (pf := prefix_text _ _ _) in *. set (bd := body_text _ _ _) in *.
  assert (Z.to_nat (width c - Z.of_nat (length (sg ++ pf ++ bd))) = Z.to_nat pad) as ->.
  { unfold pad. rewrite Es, Ex, !length_app.
    destruct (Z.eqb_spec x 0), (Z.eqb_spec sign 0); cbn [negb length];
      match goal with |- context [?a <? 0] => destruct (Z.ltb_spec a 0) end; lia. }
  rewrite no_padding_flags, Es, Ex.
  clearbody sign x pad. apply then_emit; intros s1; [apply if_emit; intros; apply output_dup_emit|].
  apply then_emit; clear s1; intros s1; [apply if_emit; intros; apply output_emit|].
  apply then_emit; clear s1; intros s1.
  { apply if_emit. intros s2. apply (then_emit _ [48] _ [x]); intros; apply output_emit. }
  apply then_emit; clear s1; intros s1; [apply if_emit; intros; apply output_dup_emit|].
  apply then_emit; clear s1; intros s1; [|apply if_emit; intros; apply output_dup_emit].
  unfold output_buffer. rewrite reverse_loop, reverse_involutive; [done|]. rewrite length_reverse. lia.
Qed.
End text.

(** * Printing into a buffer *)

(** The decimal digits of a number stand for the number. *)
Lemma decimal_reverse n v i :
  0 ≤ v < 10 ^ Z.of_nat n →
  let t := reverse (digit_text base_d false i (number_digits n 10 v)) in
  decimal t = v ∧ Forall (λ d, isdigit d = true) t.
Proof.
  cbv zeta. revert v i. induction n as [|n IH]; intros v i Hv.
  { change (10 ^ Z.of_nat 0) with 1 in Hv. simpl. split; [unfold decimal; simpl; lia|constructor]. }
  cbn [number_digits]. destruct (Z.eqb_spec v 0) as [->|]; [by split|].
  pose proof (Z.mod_pos_bound v 10 ltac:(lia)) as Hm. pose proof (Z_div_mod_eq_full v 10).
  cbn [digit_text andb app].
  assert (∀ d, 0 ≤ d < 10 → default 0 (digits base_d !! Z.to_nat d) = 48 + d) as Hd.
  { intros d Hr. assert (d = 0 ∨ d = 1 ∨ d = 2 ∨ d = 3 ∨ d = 4 ∨ d = 5 ∨ d = 6 ∨ d = 7 ∨ d = 8 ∨ d = 9)
      as Hd by lia. by destruct_or! Hd; subst d. }
  rewrite Hd by done. destruct (IH (v / 10) (i + 1)) as [Ev Hf].
  { split; [apply Z.div_pos; lia|]. apply Z.div_lt_upper_bound; [lia|].
    rewrite <-Z.pow_succ_r, <-Nat2Z.inj_succ by lia. lia. }
  rewrite reverse_cons, decimal_snoc, Ev. split; [lia|]. apply Forall_app. split; [done|].
  apply Forall_singleton. unfold isdigit. apply andb_true_iff. split; apply Z.leb_le; lia.
Qed.

Definition plain : printf_conversion := mk_conversion 0 0 (-1) INT.

Lemma digit_text_ungrouped b i ds : length (digit_text b false i ds) = length ds.
Proof. revert i. induction ds as [|d ds IH]; intros i; simpl; [done|]. by rewrite IH. Qed.

(** [%d] of a number: its sign and its digits. *)
Lemma integer_text_plain v neg :
  0 ≤ v < 2 ^ 64 →
  ∃ d ds, integer_text v true neg base_d plain = (if neg then [45] else []) ++ d :: ds ∧
    decimal (d :: ds) = v ∧ Forall (λ d, isdigit d = true) (d :: ds) ∧
    ∀ k, (1 ≤ k)%nat → v < 10 ^ Z.of_nat k → (length (d :: ds) ≤ k)%nat.
Proof.
  intros Hv. unfold integer_text. simpl (width plain). unfold body_text, prefix_text, sign_text.
  change (has GROUP (flags plain)) with false. change (has POUND (flags plain)) with false.
  change (has MINUS (flags plain)) with false. change (has ZERO (flags plain)) with false.
  change (has PLUS (flags plain)) with false. change (has SPACE (flags plain)) with false.
  cbn [andb negb app]. change (base base_d) with 10.
  destruct (decimal_reverse 64 v 0) as [Ev Hf]; [split; [lia|]; etrans; [apply Hv|done]|].
  set (t := digit_text _ _ _ _) in *. change (precision plain <? 0) with true. cbv iota zeta.
  change (Z.to_nat (Z.min 1 63)) with 1%nat.
  assert (∀ pad, replicate (Z.to_nat (0 - Z.of_nat pad)) 32 = @nil Z) as Hpad.
  { intros pad. by replace (Z.to_nat (0 - Z.of_nat pad)) with 0%nat by lia. }
  rewrite Hpad. simpl app. rewrite !app_nil_r.
  destruct (reverse t) as [|d ds] eqn:Et.
  - assert (t = []) as -> by (apply (f_equal reverse) in Et; by rewrite reverse_involutive in Et).
    exists 48, []. unfold decimal in Ev. simpl in Ev. subst v.
    split; [by destruct neg|]. split_and!; [done|by repeat constructor|done].
  - assert (1 ≤ length t)%nat by (rewrite <-length_reverse, Et; simpl; lia).
    replace (1 - length t)%nat with 0%nat by lia. simpl replicate. rewrite app_nil_r, Et.
    exists d, ds. split_and!; [by destruct neg|done|done|]. intros k _ Hk.
    rewrite <-Et, length_reverse. unfold t. rewrite digit_text_ungrouped.
    apply number_digits_length; lia.
Qed.

Section buffer.
Implicit Types (m : mem) (text : list Z).

(** What [vsnprintf_helper] keeps of a text: as much as fits. *)
Lemma emit_buffer text m p len mx :
  (∀ x, p ≤ x < p + (mx - len) → is_Some (m !! x)) →
  ∃ m' p', emit vsnprintf_helper text (m, mk_aux p len mx) =
    Ok (tt, (m', mk_aux p' (len + Z.of_nat (length text)) mx)) ∧
    p' = p + Z.of_nat (length (take (Z.to_nat (mx - len)) text)) ∧
    block m' p (take (Z.to_nat (mx - len)) text) ∧
    changes_at p (p' - p) m m'.
Proof.
  revert m p len. induction text as [|ch text IH]; intros m p len Hw.
  { exists m, p. rewrite take_nil. simpl. rewrite !Z.add_0_r. split_and!; [done|lia| |done].
    by intros i b Hi. }
  cbn [emit]. destruct (Z.lt_ge_cases len mx) as [Hlt|Hge].
  - destruct (Hw p) as [w Ew]; [lia|].
    assert (vsnprintf_helper ch (m, mk_aux p len mx) =
      Ok (tt, (<[p := ch]> m, mk_aux (p + 1) (len + 1) mx))) as Hh.
    { unfold vsnprintf_helper, mbind, M_bind, get, put, modify. cbn. rewrite (proj2 (Z.ltb_lt _ _) Hlt).
      unfold on_mem, zoom, CString.Ops.store, mbind, M_bind, get, put, deref. cbn. by rewrite Ew. }
    rewrite (bind_ok _ _ _ _ _ Hh).
    destruct (IH (<[p := ch]> m) (p + 1) (len + 1)) as (m' & p' & E & Ep & Hb & Hch).
    { intros x Hx. rewrite lookup_insert_ne by lia. apply Hw. lia. }
    exists m', p'. rewrite E.
    replace (Z.to_nat (mx - len)) with (S (Z.to_nat (mx - (len + 1)))) by lia.
    cbn [take length].
    replace (len + Z.of_nat (S (length text))) with (len + 1 + Z.of_nat (length text)) by lia.
    split_and!; [done|lia| |].
    + apply block_cons. split; [|done]. rewrite (proj1 Hch) by lia. apply lookup_insert_eq.
    + destruct Hch as [Hch Hd]. split.
      * intros x Hx. rewrite Hch by lia. by rewrite lookup_insert_ne by lia.
      * rewrite Hd. apply dom_insert_lookup_L. by exists w.
  - assert (vsnprintf_helper ch (m, mk_aux p len mx) = Ok (tt, (m, mk_aux p (len + 1) mx))) as Hh.
    { unfold vsnprintf_helper, mbind, M_bind, get, put, modify. cbn. by rewrite (proj2 (Z.ltb_ge _ _) Hge). }
    rewrite (bind_ok _ _ _ _ _ Hh).
    destruct (IH m p (len + 1)) as (m' & p' & E & Ep & Hb & Hch); [lia|].
    exists m', p'. rewrite E.
    replace (Z.to_nat (mx - (len + 1))) with 0%nat in * by lia.
    replace (Z.to_nat (mx - len)) with 0%nat by lia. cbn [take length] in *.
    replace (len + Z.of_nat (S (length text))) with (len + 1 + Z.of_nat (length text)) by lia.
    split_and!; [done|by rewrite Ep|done|done].
Qed.

Lemma byte_load_ok {A} (s : mem * A) a v : s.1 !! a = Some v → load a s = Ok (v, s).
Proof.
  intros H. unfold load, on_mem, zoom, CString.Ops.load, mbind, M_bind, get. rewrite H. by destruct s.
Qed.

Lemma scan_turn {A X Y} (body : X → M (mem * A) (X + Y)) x s r s' :
  body x s = Ok (r, s') →
  scan body x s = match r with inl x' => loop (size s.1) body x' s' | inr y => Ok (y, s') end.
Proof. apply loop_turn. Qed.

Lemma parse_number_none {A} (s : mem * A) format ch :
  s.1 !! format = Some ch → isdigit ch = false → parse_number format s = Ok ((format, 0), s).
Proof.
  intros Hl Hd. unfold parse_number. rewrite (scan_turn _ _ _ (inr (format, 0)) s); [done|].
  by rewrite (bind_ok _ _ _ _ _ (byte_load_ok s format ch Hl)), Hd.
Qed.

(** A conversion without flags, width, precision and type. *)
Lemma parse_plain {A} (s : mem * A) format args :
  s.1 !! format = Some 100 → parse_conversion format args s = Ok ((format, plain, args), s).
Proof.
  intros Hl. pose proof (byte_load_ok s format 100 Hl) as Hload. unfold parse_conversion.
  rewrite (bind_ok _ _ s (format, 0) s).
  2: { rewrite (scan_turn _ _ _ (inr (format, 0)) s); [done|]. by rewrite (bind_ok _ _ _ _ _ Hload). }
  cbn iota beta. rewrite (bind_ok _ _ _ _ _ Hload). simpl (100 =? 42). cbv iota.
  rewrite (bind_ok _ _ s (format, 0, args) s).
  2: { by rewrite (bind_ok _ _ _ _ _ (parse_number_none s format 100 Hl eq_refl)). }
  cbn iota beta. rewrite (bind_ok _ _ s (0, 0) s) by done.
  cbn iota beta. rewrite (bind_ok _ _ _ _ _ Hload). rewrite (bind_ok _ _ s (format, -1, args) s) by done.
  cbn iota beta. rewrite (bind_ok _ _ _ _ _ Hload). by rewrite (bind_ok _ _ s (format, INT) s) by done.
Qed.

Lemma well_based_d : well_based base_d.
Proof. by split. Qed.

Lemma s32_of_u32 n : is_s32 n → s32 (u32 n) = n.
Proof.
  unfold is_s32, s32, u32. intros Hn. rewrite Z.add_mod_idemp_l, Z.mod_small by lia. lia.
Qed.

(** [%d] with any output function. *)
Lemma vprintf_d {A} (output : Z → M (mem * A) unit) lit (s s' : mem * A) format n :
  cstr s.1 format [37; 100] → is_s32 n →
  emit output (integer_text (Z.abs n) true (n <? 0) base_d plain) s = Ok (tt, s') →
  s'.1 !! (format + 2) = Some 0 →
  __vprintf output lit 2 format [u32 n] s = Ok (tt, s').
Proof.
  intros (Hpos & Hb & Hf) Hn Hemit Hend. pose proof (block_size _ _ _ Hb) as Hsz. simpl in Hsz.
  apply block_cons in Hb as [H0 Hb]. apply block_cons in Hb as [H1 Hb].
  cbn [__vprintf]. rewrite (scan_turn _ _ s (inl (format + 2, [])) s').
  - destruct (size s.1) as [|k]; [lia|]. rewrite (loop_turn _ _ _ _ (inr tt) s'); [done|].
    by rewrite (bind_ok _ _ _ _ _ (byte_load_ok s' (format + 2) 0 Hend)).
  - rewrite (bind_ok _ _ _ _ _ (byte_load_ok s format 37 H0)). simpl (37 =? 0). simpl (37 =? 37).
    cbn [negb]. cbv iota. rewrite (bind_ok _ _ _ _ _ (byte_load_ok s (format + 1) 100 H1)). simpl (100 =? 37). cbv iota.
    rewrite (bind_ok _ _ _ _ _ (parse_plain s (format + 1) [u32 n] H1)). cbn iota beta.
    rewrite (bind_ok _ _ _ _ _ (byte_load_ok s (format + 1) 100 H1)). simpl (100 =? 100). cbn [orb]. cbv iota.
    rewrite (bind_ok _ _ s ([] : list Z) s').
    { cbn iota beta. unfold mret, M_ret. do 2 f_equal. by rewrite <-Z.add_assoc. }
    cbn [type plain signed_argument va_int va_word].
    rewrite (bind_ok _ _ s (n, []) s).
    2: { unfold va_int, va_word. rewrite (bind_ok _ _ s (u32 n, []) s) by done. unfold mret, M_ret.
         by rewrite s32_of_u32. }
    cbn iota beta. unfold is_s32 in Hn.
    rewrite (bind_ok _ _ s (Z.abs n) s).
    2: { destruct (Z.ltb_spec n 0).
         - destruct (Z.eqb_spec n (- 2 ^ 63)); [lia|]. by rewrite Z.abs_neq by lia.
         - by rewrite Z.abs_eq by lia. }
    rewrite (bind_ok _ _ s tt s'); [done|].
    rewrite format_integer_text; [done|apply well_based_d|unfold is_u64; lia].
Qed.

Lemma snprintf_d m lit format buffer size n :
  cstr m format [37; 100] → is_s32 n → 0 < buffer → 0 < size < 2 ^ 31 →
  (∀ x, buffer ≤ x < buffer + size → is_Some (m !! x)) →
  format + 2 < buffer ∨ buffer + size ≤ format →
  let text := integer_text (Z.abs n) true (n <? 0) base_d plain in
  wp (snprintf lit buffer size format [u32 n])
    (λ r m', r = Z.of_nat (length text) ∧ cstr m' buffer (take (Z.to_nat (size - 1)) text) ∧
       changes_at buffer size m m') m.
Proof.
  intros Hfmt Hn Hbuf Hsz Hw Hd text. apply wp_ok.
  destruct (emit_buffer text m buffer 0 (size - 1)) as (m1 & p & E & Ep & Hb & Hch).
  { intros x Hx. apply Hw. lia. }
  rewrite Z.sub_0_r in *. set (kept := take (Z.to_nat (size - 1)) text) in *.
  assert (Z.of_nat (length kept) ≤ size - 1) as Hk by (unfold kept; rewrite length_take; lia).
  assert (m1 !! (format + 2) = Some 0) as Hend.
  { rewrite (proj1 Hch) by lia. destruct Hfmt as (_ & Hf & _). by apply (Hf 2%nat). }
  destruct (Hw p) as [w Ew]; [lia|]. rewrite <-(proj1 Hch p) in Ew by lia.
  exists (0 + Z.of_nat (length text)), (<[p := 0]> m1). split; [|split_and!; [lia| |]].
  - unfold snprintf, vsnprintf. rewrite (proj2 (Z.ltb_lt 0 size)) by lia.
    rewrite s32_id by (unfold is_s32; lia).
    rewrite (bind_ok _ _ _ _ _ (vprintf_d vsnprintf_helper lit (m, mk_aux buffer 0 (size - 1)) _ format n Hfmt Hn E Hend)).
    unfold gets, on_mem, zoom, CString.Ops.store, mbind, M_bind, get, put, deref. cbn. by rewrite Ew.
  - destruct (integer_text_plain (Z.abs n) (n <? 0)) as (d & ds & Et & _ & Hdig & _); [unfold is_s32 in Hn; lia|].
    split_and!; [done| |].
    + apply block_app. split.
      * intros i b Hi. pose proof (lookup_lt_Some _ _ _ Hi). rewrite lookup_insert_ne by lia. by apply Hb.
      * apply block_cons. rewrite <-Ep. split; [apply lookup_insert_eq|]. by intros i b Hi.
    + apply Forall_take. unfold text. rewrite Et. apply Forall_app. split.
      * destruct (n <? 0); [|constructor]. apply Forall_singleton. lia.
      * eapply Forall_impl; [exact Hdig|]. intros x [?%Z.leb_le ?%Z.leb_le]%andb_true_iff. lia.
  - destruct Hch as [Hch Hdom]. split.
    + intros x Hx. rewrite lookup_insert_ne by lia. apply Hch. lia.
    + rewrite dom_insert_lookup_L; [done|]. by exists w.
Qed.
End buffer.
