(* ===== verification/LibTheorems.v ===== *)
(** The C library of the kernel: 64-bit division ([lib/arithmetic.c]), sorting
    and searching ([lib/stdlib.c]) and formatted output ([lib/stdio.c]). *)
From Stdlib Require Import ZArith Lia.
From stdpp Require Import base tactics option numbers list gmap sorting.
From S2P Require Import Prelude CString Arithmetic CStdlib Stdio.

Open Scope Z_scope.

Module Division.
Import Arithmetic.Ops.

(** C35: The division routines the compiler calls agree with mathematical
    division: for every 64-bit dividend and every nonzero divisor the unsigned
    quotient is the floor, the signed one is truncated towards zero (and wraps
    for the one quotient that does not fit), and [DIVL] never traps. *)
Theorem division_correct {S} (s : S) n d m e :
  is_u64 n → is_u64 d → d ≠ 0 → is_s64 m → is_s64 e → e ≠ 0 →
  __udivdi3 n d s = Ok (n / d, s) ∧ __divdi3 m e s = Ok (s64 (Z.quot m e), s).
Proof. intros. split; [by apply udiv64_ok|by apply sdiv64_ok]. Qed.

Lemma division_correct_witness :
  __udivdi3 (2 ^ 64 - 1) (2 ^ 32 + 1) tt = Ok (2 ^ 32 - 1, tt) ∧
  __divdi3 (- 2 ^ 63) 3 tt = Ok (- 3074457345618258602, tt).
Proof.
  apply (division_correct tt (2 ^ 64 - 1) (2 ^ 32 + 1) (- 2 ^ 63) 3);
    unfold is_u64, is_s64; lia.
Defined.

(** The remainder routines return their result through a 32-bit type: they
    agree with the mathematical remainder modulo 2^32 only, so exactly the
    remainders that fit in 32 bits come back right. *)
Theorem remainder_truncated {S} (s : S) n d m e :
  is_u64 n → is_u64 d → d ≠ 0 → is_s64 m → is_s64 e → e ≠ 0 →
  __umoddi3 n d s = Ok ((n mod d) mod 2 ^ 32, s) ∧
  (__umoddi3 n d s = Ok (n mod d, s) ↔ n mod d < 2 ^ 32) ∧
  __moddi3 m e s = Ok (s32 (Z.rem m e), s).
Proof.
  intros Hn Hd Hz Hm He Hez. assert (__umoddi3 n d s = Ok ((n mod d) mod 2 ^ 32, s)) as E.
  { unfold __umoddi3. rewrite (bind_ok _ _ _ _ _ (umod64_ok n d s Hn Hd Hz)). unfold mret, M_ret, u32.
    rewrite u64_id; [done|]. pose proof (Z.mod_pos_bound (n mod d) (2 ^ 32)). unfold is_u64. lia. }
  unfold is_u64 in Hd. pose proof (Z.mod_pos_bound n d ltac:(lia)). split_and!; [done| |].
  - rewrite E. split.
    + intros [= E']. rewrite <-E'. apply Z.mod_pos_bound. lia.
    + intros ?. by rewrite Z.mod_small by lia.
  - unfold __moddi3. rewrite (bind_ok _ _ _ _ _ (smod64_ok m e s Hm He Hez)). unfold mret, M_ret.
    rewrite s64_id; [done|]. unfold s32, is_s64.
    pose proof (Z.mod_pos_bound (Z.rem m e + 2 ^ 31) (2 ^ 32)). lia.
Qed.

Lemma remainder_truncated_witness :
  __umoddi3 (2 ^ 33 + 5) (2 ^ 40) tt = Ok (5, tt) ∧ ¬ (2 ^ 33 + 5) mod 2 ^ 40 < 2 ^ 32.
Proof.
  destruct (remainder_truncated tt (2 ^ 33 + 5) (2 ^ 40) (-7) 2) as (E & H & _);
    try (unfold is_u64, is_s64; lia). split; [exact E|]. intros Hlt%H. by rewrite E in Hlt.
Defined.
End Division.

Module Sorting.
Import CStdlib.Ops.

(** C36: [sort], a heap sort, terminates and leaves a sorted rearrangement of the
    array's elements, whatever their size and whatever total preorder the
    comparison function decides; memory outside the array is untouched. *)
Theorem sort_correct compare `{!Comparator compare} m array size l :
  (0 < size)%nat → array ≠ NULL → elements array size m l →
  Z.of_nat (length l) * Z.of_nat size < 2 ^ 32 → Z.of_nat (length l) < 2 ^ 31 →
  wp (qsort compare array (Z.of_nat (length l)) (Z.of_nat size))
    (λ _ m', ∃ l', elements array size m' l' ∧ l' ≡ₚ l ∧ StronglySorted (below compare) l' ∧
       changes_at array (Z.of_nat (length l) * Z.of_nat size) m m') m.
Proof. intros Hs Ha Hm Hlen Hlt. by apply (sort_ok compare array size). Qed.

(** C40: [binary_search] of a sorted array, whose size in bytes fits a [size_t],
    terminates: it returns the address of an element equal to the key, or the
    null pointer when there is none. *)
Theorem binary_search_correct compare `{!Comparator compare} m array size l key :
  (0 < size)%nat → Z.of_nat (length l) * Z.of_nat size < 2 ^ 32 →
  elements array size m l → StronglySorted (below compare) l →
  wp (bsearch compare key array (Z.of_nat (length l)) (Z.of_nat size))
    (λ r m', m' = m ∧
       ((∃ k e, l !! k = Some e ∧ compare key e = 0 ∧ r = array + Z.of_nat k * Z.of_nat size) ∨
        (r = NULL ∧ Forall (λ e, compare key e ≠ 0) l))) m.
Proof. intros Hs H32 Hm Hl. by apply (binary_search_ok compare array size). Qed.

(** Elements compared by their first byte. *)
Definition by_first (x y : list Z) : Z := hd 0 x - hd 0 y.
#[local] Instance by_first_ok : Comparator by_first.
Proof. split; unfold by_first; lia. Qed.

Definition sample : list (list Z) := [[30; 1]; [10; 2]; [20; 3]; [10; 4]].
Definition sample_mem (l : list (list Z)) : mem :=
  list_to_map (zip (seqZ 100 (Z.of_nat (length (concat l)))) (concat l)).

Lemma sample_elements : elements 100 2 (sample_mem sample) sample.
Proof.
  intros k e Hk. do 4 (destruct k as [|k]; [injection Hk as <-; split; [done|];
    repeat (apply block_cons; split; [by vm_compute|]); by intros i b Hi|]). done.
Qed.
Definition sorted_sample : list (list Z) := [[10; 2]; [10; 4]; [20; 3]; [30; 1]].
Lemma sorted_sample_elements : elements 100 2 (sample_mem sorted_sample) sorted_sample.
Proof.
  intros k e Hk. do 4 (destruct k as [|k]; [injection Hk as <-; split; [done|];
    repeat (apply block_cons; split; [by vm_compute|]); by intros i b Hi|]). done.
Qed.

Lemma sort_correct_witness :
  wp (qsort by_first 100 4 2)
    (λ _ m', ∃ l', elements 100 2 m' l' ∧ l' ≡ₚ sample ∧ StronglySorted (below by_first) l' ∧
       changes_at 100 8 (sample_mem sample) m') (sample_mem sample).
Proof. apply (sort_correct by_first (sample_mem sample) 100 2 sample); [lia|done|apply sample_elements|done..]. Defined.

Lemma binary_search_correct_witness :
  wp (bsearch by_first [20] 100 4 2)
    (λ r m', m' = sample_mem sorted_sample ∧
       ((∃ k e, sorted_sample !! k = Some e ∧ by_first [20] e = 0 ∧ r = 100 + Z.of_nat k * 2) ∨
        (r = NULL ∧ Forall (λ e, by_first [20] e ≠ 0) sorted_sample))) (sample_mem sorted_sample).
Proof.
  apply (binary_search_correct by_first (sample_mem sorted_sample) 100 2 sorted_sample [20]);
    [lia|simpl; lia|apply sorted_sample_elements|]. repeat constructor; unfold below, by_first; simpl; lia.
Defined.
End Sorting.

Module Printing.
Import CStdlib.Ops Stdio.Ops.

(** [format_integer] prints every 64-bit number, in each of its bases and
    under any flags, width and precision, as [integer_text] describes it: sign,
    prefix, digits with their groups, zeros and padding; and it never leaves
    its buffer of 64 bytes, since it always gets to print. *)
Theorem format_integer_correct {A} (output : Z → M (mem * A) unit) value is_signed negative b c s :
  is_u64 value → b ∈ [base_d; base_o; base_x; base_X] →
  format_integer output value is_signed negative b c s =
    emit output (integer_text value is_signed negative b c) s.
Proof.
  intros Hv Hb. apply format_integer_text; [|done].
  by repeat (apply elem_of_cons in Hb as [->|Hb]; [by split|]); apply not_elem_of_nil in Hb.
Qed.

(** A console that collects what is printed. *)
Definition collect (ch : Z) : M (mem * list Z) unit := modify (λ '(m, out), (m, out ++ [ch])).

(** [-1,234,567] in a field of twelve. *)
Lemma format_integer_correct_witness :
  format_integer collect 1234567 true true base_d (mk_conversion GROUP 12 (-1) INT) (∅, []) =
    Ok (tt, (∅, [32; 32; 45; 49; 44; 50; 51; 52; 44; 53; 54; 55])).
Proof.
  rewrite (format_integer_correct collect 1234567 true true base_d (mk_conversion GROUP 12 (-1) INT) (∅, []));
    [by vm_compute|unfold is_u64; lia|apply elem_of_cons; by left].
Defined.

(** C39: Printing and reading back: [snprintf] of any [int] with [%d] into a
    buffer of at least 12 bytes, then [atoi] of the buffer, gives the number. *)
Theorem print_then_parse lit m format buffer size n :
  cstr m format [37; 100] → is_s32 n → 0 < buffer → 12 ≤ size < 2 ^ 31 →
  (∀ x, buffer ≤ x < buffer + size → is_Some (m !! x)) →
  format + 2 < buffer ∨ buffer + size ≤ format →
  wp (snprintf lit buffer size format [u32 n];; atoi buffer) (λ r _, r = n) m.
Proof.
  intros Hf Hn Hb Hs Hw Hd. wp_unbind.
  eapply wp_mono; [apply (snprintf_d m lit format buffer size n); done || lia|].
  intros r m' (_ & Hbuf & _). unfold is_s32 in Hn.
  destruct (integer_text_plain (Z.abs n) (n <? 0)) as (d & ds & Et & Ev & Hdig & Hlen); [lia|].
  specialize (Hlen 10%nat ltac:(lia) ltac:(lia)).
  rewrite Et, firstn_all2 in Hbuf by (rewrite length_app; destruct (n <? 0); cbn [length] in *; lia).
  rewrite <-(app_nil_r (d :: ds)) in Hbuf.
  eapply wp_mono; [apply (atoi_ok m' buffer [] (n <? 0) (if n <? 0 then [45] else []) d ds [])|].
  - exact Hbuf.
  - constructor.
  - destruct (n <? 0); [done|by left].
  - done.
  - done.
  - rewrite Ev. unfold is_s32. destruct (Z.ltb_spec n 0); lia.
  - intros r' m2 [-> _]. rewrite Ev. destruct (Z.ltb_spec n 0); lia.
Qed.

(** The format at 100, the buffer at 200. *)
Definition print_mem : mem :=
  <[100 := 37]> (<[101 := 100]> (<[102 := 0]> (list_to_map ((λ x, (x, 0)) <$> seqZ 200 16)))).
Definition print_literals : literals := mk_literals 300 330 360.

Lemma print_then_parse_witness :
  wp (snprintf print_literals 200 16 100 [u32 (- 2 ^ 31)];; atoi 200) (λ r _, r = - 2 ^ 31) print_mem.
Proof.
  apply (print_then_parse print_literals print_mem 100 200 16 (- 2 ^ 31)).
  - split_and!; [done| |repeat constructor; lia].
    repeat (apply block_cons; split; [by vm_compute|]). by intros i b Hi.
  - unfold is_s32. lia.
  - done.
  - lia.
  - intros x Hx. unfold print_mem. rewrite !lookup_insert_ne by lia. exists 0.
    apply elem_of_list_to_map; [by vm_compute; repeat (constructor; [set_solver|]); constructor|].
    apply list_elem_of_fmap. exists x. split; [done|]. apply elem_of_seqZ. lia.
  - lia.
Defined.
End Printing.
