(* ===== verification/Hash.v ===== *)
(** Hash tables ([lib/kernel/hash.c]) on the memory of linked cells of
    [KList]: a table is an array of [struct list]s, 16 bytes each, and its
    elements are list elements ([struct hash_elem] has no other member).  The
    hash and comparison functions are functions of the element; [malloc] is a
    parameter that may fail at any call. *)
From Stdlib Require Import ZArith Lia.
From stdpp Require Import base tactics option numbers list gmap.
From S2P Require Import Prelude KList.

Open Scope Z_scope.

Record hash := mk_hash { elem_cnt : Z; bucket_cnt : Z; buckets : Z }.
Record hash_iterator := mk_iterator { it_bucket : Z; it_elem : Z }.

(** The memory, the table, and the number of calls of [malloc] so far. *)
Record state := mk_state { hp : heap; table : hash; calls : nat }.
Definition set_hp (h : heap) (s : state) : state := mk_state h (table s) (calls s).
Definition set_table (t : hash) (s : state) : state := mk_state (hp s) t (calls s).

Definition FNV_32_PRIME : Z := 16777619.
Definition FNV_32_BASIS : Z := 2166136261.
Definition MIN_ELEMS_PER_BUCKET : Z := 1.
Definition BEST_ELEMS_PER_BUCKET : Z := 2.
Definition MAX_ELEMS_PER_BUCKET : Z := 4.

Module Ops.
Import KList.Ops.

Definition hash_bytes (buf : list Z) : Z :=
  foldl (λ hash b, Z.lxor (u32 (hash * FNV_32_PRIME)) b) FNV_32_BASIS buf.
Fixpoint hash_string_loop (hash : Z) (s : list Z) : Z :=
  match s with
  | [] => hash
  | b :: s => if b =? 0 then hash else hash_string_loop (Z.lxor (u32 (hash * FNV_32_PRIME)) b) s
  end.
Definition hash_string (s : list Z) : Z := hash_string_loop FNV_32_BASIS s.
Definition hash_int (i : Z) : Z :=
  let w := u32 i in
  hash_bytes [w mod 256; w / 2 ^ 8 mod 256; w / 2 ^ 16 mod 256; w / 2 ^ 24 mod 256].

Definition turn_off_least_1bit (x : Z) : Z := Z.land x (u32 (x - 1)).
Definition is_power_of_2 (x : Z) : bool := negb (x =? 0) && (turn_off_least_1bit x =? 0).

Section table.
Context (hash_func : Z → Z) (less : Z → Z → bool).
Context (alloc : nat → heap → Z → Z) (junk : Z → list_elem).

Definition on_heap {A} (m : M heap A) : M state A := zoom hp set_hp m.

(** The bound of the loops over a bucket: there are no more elements than
    cells. *)
Definition over {X Y} (body : X → M state (X + Y)) (x : X) : M state Y :=
  s ← get; loop (S (size (hp s))) body x.

(** The [n] cells of 8 bytes at [a]. *)
Definition cells (a : Z) (n : nat) : list Z := (λ k, a + 8 * Z.of_nat k) <$> seq 0 n.

Definition malloc (bytes : Z) : M state Z :=
  s ← get;
  let a := alloc (calls s) (hp s) bytes in
  put (mk_state (if a =? NULL then hp s
                 else foldr (λ c h, <[c := junk c]> h) (hp s) (cells a (Z.to_nat (bytes / 8))))
         (table s) (S (calls s)));;
  mret a.
Definition free (a : Z) (n : nat) : M state unit :=
  modify (λ s, set_hp (foldr delete (hp s) (cells a n)) s).

Definition hash_clear (destructor : option (Z → M state unit)) : M state unit :=
  t ← gets table;
  for_upto (Z.to_nat (bucket_cnt t)) 0 (λ i,
    let bucket := buckets t + 16 * i in
    (match destructor with
     | None => mret tt
     | Some f =>
         over (λ _ : unit,
           b ← on_heap (list_empty bucket);
           if negb b then
             e ← on_heap (list_pop_front bucket); f e;; mret (inl tt)
           else mret (inr tt)) tt
     end);;
    on_heap (list_init bucket));;
  modify (λ s, set_table (mk_hash 0 (bucket_cnt (table s)) (buckets (table s))) s).

Definition hash_init : M state bool :=
  modify (λ s, set_table (mk_hash 0 4 (buckets (table s))) s);;
  a ← malloc (u32 (16 * 4));
  modify (λ s, set_table (mk_hash 0 4 a) s);;
  if negb (a =? NULL) then hash_clear None;; mret true else mret false.

Definition hash_destroy (destructor : option (Z → M state unit)) : M state unit :=
  (match destructor with None => mret tt | Some _ => hash_clear destructor end);;
  t ← gets table;
  free (buckets t) (Z.to_nat (2 * bucket_cnt t)).

Definition find_bucket (e : Z) : M state Z :=
  t ← gets table;
  let bucket_idx := Z.land (hash_func e) (u32 (bucket_cnt t - 1)) in
  mret (buckets t + 16 * bucket_idx).

Definition find_elem (bucket e : Z) : M state Z :=
  i ← on_heap (list_begin bucket);
  over (λ i,
    en ← on_heap (list_end bucket);
    if i =? en then mret (inr NULL) else
    if negb (less i e) && negb (less e i) then mret (inr i) else
    i ← on_heap (list_next i);
    mret (inl i)) i.

Definition insert_elem (bucket e : Z) : M state unit :=
  modify (λ s, set_table (mk_hash (u32 (elem_cnt (table s) + 1)) (bucket_cnt (table s))
                            (buckets (table s))) s);;
  on_heap (list_push_front bucket e).

Definition remove_elem (e : Z) : M state unit :=
  modify (λ s, set_table (mk_hash (u32 (elem_cnt (table s) - 1)) (bucket_cnt (table s))
                            (buckets (table s))) s);;
  on_heap (list_remove e);;
  mret tt.

(** The number of buckets for [n] elements. *)
Definition ideal_bucket_cnt (n : Z) : M state Z :=
  let new_bucket_cnt := n / BEST_ELEMS_PER_BUCKET in
  let new_bucket_cnt := if new_bucket_cnt <? 4 then 4 else new_bucket_cnt in
  loop 33 (λ x, if negb (is_power_of_2 x) then mret (inl (turn_off_least_1bit x)) else mret (inr x))
    new_bucket_cnt.

(** Moves the elements of one old bucket. *)
Definition move_bucket (old_bucket : Z) : M state unit :=
  elem ← on_heap (list_begin old_bucket);
  over (λ elem,
    en ← on_heap (list_end old_bucket);
    if elem =? en then mret (inr tt) else
    new_bucket ← find_bucket elem;
    next ← on_heap (list_next elem);
    on_heap (list_remove elem);;
    on_heap (list_push_front new_bucket elem);;
    mret (inl next)) elem.

Definition rehash : M state unit :=
  t ← gets table;
  let old_buckets := buckets t in
  let old_bucket_cnt := bucket_cnt t in
  new_bucket_cnt ← ideal_bucket_cnt (elem_cnt t);
  if new_bucket_cnt =? old_bucket_cnt then mret tt else
  new_buckets ← malloc (u32 (16 * new_bucket_cnt));
  if new_buckets =? NULL then mret tt else
  for_upto (Z.to_nat new_bucket_cnt) 0 (λ i, on_heap (list_init (new_buckets + 16 * i)));;
  modify (λ s, set_table (mk_hash (elem_cnt (table s)) new_bucket_cnt new_buckets) s);;
  for_upto (Z.to_nat old_bucket_cnt) 0 (λ i, move_bucket (old_buckets + 16 * i));;
  free old_buckets (Z.to_nat (2 * old_bucket_cnt)).

Definition hash_insert (new : Z) : M state Z :=
  bucket ← find_bucket new;
  old ← find_elem bucket new;
  (if old =? NULL then insert_elem bucket new else mret tt);;
  rehash;;
  mret old.

Definition hash_replace (new : Z) : M state Z :=
  bucket ← find_bucket new;
  old ← find_elem bucket new;
  (if negb (old =? NULL) then remove_elem old else mret tt);;
  insert_elem bucket new;;
  rehash;;
  mret old.

Definition hash_find (e : Z) : M state Z :=
  bucket ← find_bucket e;
  find_elem bucket e.

Definition hash_delete (e : Z) : M state Z :=
  bucket ← find_bucket e;
  found ← find_elem bucket e;
  (if negb (found =? NULL) then remove_elem found;; rehash else mret tt);;
  mret found.

Definition hash_apply (action : Z → M state unit) : M state unit :=
  t ← gets table;
  for_upto (Z.to_nat (bucket_cnt t)) 0 (λ i,
    let bucket := buckets t + 16 * i in
    elem ← on_heap (list_begin bucket);
    over (λ elem,
      en ← on_heap (list_end bucket);
      if elem =? en then mret (inr tt) else
      next ← on_heap (list_next elem);
      action elem;;
      mret (inl next)) elem).

Definition hash_first : M state hash_iterator :=
  t ← gets table;
  e ← on_heap (list_head (buckets t));
  mret (mk_iterator (buckets t) e).

(** Returns the iterator it has advanced; [hash_cur] is its element. *)
Definition hash_next (i : hash_iterator) : M state hash_iterator :=
  e ← on_heap (list_next (it_elem i));
  t ← gets table;
  loop (Z.to_nat (bucket_cnt t) + 1) (λ i,
    en ← on_heap (list_end (it_bucket i));
    if it_elem i =? en then
      let bucket := it_bucket i + 16 in
      if buckets t + 16 * bucket_cnt t <=? bucket then mret (inr (mk_iterator bucket NULL)) else
      e ← on_heap (list_begin bucket);
      mret (inl (mk_iterator bucket e))
    else mret (inr i)) (mk_iterator (it_bucket i) e).

Definition hash_cur (i : hash_iterator) : Z := it_elem i.
Definition hash_size : M state Z := gets (λ s, elem_cnt (table s)).
Definition hash_empty : M state bool := gets (λ s, elem_cnt (table s) =? 0).
End table.
End Ops.
Import KList.Ops Ops.

(** * Several lists in one memory *)

(** Each list is given by its address and its interior. *)
Definition all_nodes (ls : list (Z * list Z)) : list Z := ls ≫= λ p, nodes p.1 p.2.

Definition lists_ok (h : heap) (ls : list (Z * list Z)) : Prop :=
  Forall (λ p, is_list h p.1 p.2) ls ∧ NoDup (all_nodes ls).

Section lists.
Implicit Types (h : heap) (ls : list (Z * list Z)).

Lemma all_nodes_app ls ls' : all_nodes (ls ++ ls') = all_nodes ls ++ all_nodes ls'.
Proof. apply bind_app. Qed.
Lemma all_nodes_cons l xs ls : all_nodes ((l, xs) :: ls) = nodes l xs ++ all_nodes ls.
Proof. done. Qed.

Lemma elem_of_all_nodes a ls : a ∈ all_nodes ls ↔ ∃ l xs, (l, xs) ∈ ls ∧ a ∈ nodes l xs.
Proof.
  unfold all_nodes. rewrite list_elem_of_bind. split.
  - intros ([l xs] & ? & ?). eauto.
  - intros (l & xs & ? & ?). by exists (l, xs).
Qed.

(** One list of several: the others are apart from it. *)
Lemma lists_ok_at h A l xs B :
  lists_ok h (A ++ (l, xs) :: B) ↔
  is_list h l xs ∧ lists_ok h (A ++ B) ∧ ∀ a, a ∈ nodes l xs → a ∉ all_nodes (A ++ B).
Proof.
  unfold lists_ok. rewrite !Forall_app, Forall_cons, !all_nodes_app, all_nodes_cons. split.
  - intros ((HA & Hl & HB) & Hn). rewrite (Permutation_app_swap_app (all_nodes A)) in Hn.
    apply NoDup_app in Hn as (_ & Hd & Hn). done.
  - intros (Hl & ((HA & HB) & Hn) & Hd). split; [done|].
    rewrite (Permutation_app_swap_app (all_nodes A)). apply NoDup_app. split; [apply Hl|done].
Qed.

(** Changes to the cells of one list, and to cells of none. *)
Lemma lists_ok_change h h' c A l xs xs' B :
  lists_ok h (A ++ (l, xs) :: B) → is_list h' l xs' → same_outside c h h' →
  (∀ a, a ∈ c → a ∉ all_nodes (A ++ B)) → (∀ a, a ∈ nodes l xs' → a ∈ c ∨ a ∈ nodes l xs) →
  lists_ok h' (A ++ (l, xs') :: B).
Proof.
  intros (_ & [Hf Hn] & Hd)%lists_ok_at Hl Hs Hc Hx. apply lists_ok_at. split_and!; [done| |].
  - split; [|done]. rewrite Forall_forall in Hf |- *. intros [l' ys] Hin.
    eapply is_list_frame; [done| |by apply (Hf _ Hin)]. simpl. intros a Ha Hac.
    apply (Hc a Hac), elem_of_all_nodes. eauto.
  - intros a [?|?]%Hx; auto.
Qed.
End lists.

(** Cells stay allocated. *)
Definition keeps (h h' : heap) : Prop := ∀ x, is_Some (h !! x) → is_Some (h' !! x).

Section lists_ops.
Implicit Types (h : heap) (ls : list (Z * list Z)).
Import KList.Correct.

Lemma lists_some h ls a : lists_ok h ls → a ∈ all_nodes ls → is_Some (h !! a).
Proof.
  intros [Hf _] (l & xs & Hin & Ha)%elem_of_all_nodes. rewrite Forall_forall in Hf.
  destruct (Hf _ Hin) as (Hc & _). by eapply chain_elem_of.
Qed.

Lemma lists_nonnull h ls a : lists_ok h ls → a ∈ all_nodes ls → a ≠ NULL.
Proof.
  intros [Hf _] (l & xs & Hin & Ha)%elem_of_all_nodes ->. rewrite Forall_forall in Hf.
  by destruct (Hf _ Hin) as (_ & _ & ?).
Qed.

Lemma keeps_outside h h' c ls :
  same_outside c h h' → lists_ok h' ls → (∀ a, a ∈ c → a ∈ all_nodes ls) → keeps h h'.
Proof.
  intros Hs Hl Hc x Hx. destruct (decide (x ∈ c)) as [Hin|Hni].
  - by eapply lists_some; [|apply Hc].
  - by rewrite Hs.
Qed.

Lemma keeps_refl h : keeps h h.
Proof. by intros x. Qed.

Lemma keeps_trans h1 h2 h3 : keeps h1 h2 → keeps h2 h3 → keeps h1 h3.
Proof. unfold keeps. eauto. Qed.

Lemma list_size_bound h l xs : is_list h l xs → (length xs < size h)%nat.
Proof.
  intros (Hc & Hn & _). assert ((list_to_set (nodes l xs) : gset Z) ⊆ dom h) as Hs.
  { intros a Ha%elem_of_list_to_set. apply elem_of_dom. by eapply chain_elem_of. }
  apply subseteq_size in Hs. rewrite size_list_to_set in Hs by done.
  pose proof (size_dom (M := gmap Z) (D := gset Z) h) as E.
  unfold nodes in Hs. cbn [length] in Hs. rewrite length_app in Hs. simpl in Hs. lia.
Qed.

Lemma lists_push h A l xs B e :
  lists_ok h (A ++ (l, xs) :: B) → e ∉ all_nodes (A ++ (l, xs) :: B) → e ≠ NULL → is_Some (h !! e) →
  wp (list_push_front l e) (λ _ h', lists_ok h' (A ++ (l, e :: xs) :: B) ∧ keeps h h') h.
Proof.
  intros Hl He H0 Hs. pose proof Hl as (Hx & _ & Hd)%lists_ok_at.
  rewrite all_nodes_app, all_nodes_cons in He.
  eapply wp_mono; [apply list_push_front_ok; [done| |done|done]; set_solver|].
  intros [] h' [Hl' Hs']. assert (lists_ok h' (A ++ (l, e :: xs) :: B)) as Hls.
  { eapply lists_ok_change; [done|done|exact Hs'| |].
    - intros a [->|Ha]%elem_of_cons; [rewrite all_nodes_app; set_solver|by apply Hd].
    - unfold nodes. set_solver. }
  split; [done|]. eapply keeps_outside; [done..|].
  intros a Ha. rewrite all_nodes_app, all_nodes_cons. clear -Ha. unfold nodes in *. set_solver.
Qed.

Lemma lists_remove h A l xs e ys B :
  lists_ok h (A ++ (l, xs ++ e :: ys) :: B) →
  wp (list_remove e) (λ _ h', lists_ok h' (A ++ (l, xs ++ ys) :: B) ∧ keeps h h' ∧
    (e ∉ all_nodes (A ++ (l, xs ++ ys) :: B)) ∧ e ≠ NULL ∧ is_Some (h' !! e)) h.
Proof.
  intros Hl. pose proof Hl as (Hx & _ & Hd)%lists_ok_at.
  assert (e ∈ nodes l (xs ++ e :: ys)) as Hin by (unfold nodes; set_solver).
  eapply wp_mono; [by apply list_remove_ok|]. intros r h' (_ & Hl' & Hs' & He).
  assert (lists_ok h' (A ++ (l, xs ++ ys) :: B)) as Hls.
  { eapply lists_ok_change; [done|done|exact Hs'| |].
    - intros a Ha. apply Hd. unfold nodes in *. set_solver.
    - unfold nodes. set_solver. }
  pose proof (lists_some h _ e Hl) as Hsome. pose proof (lists_nonnull h _ e Hl) as Hnn.
  assert (e ∈ all_nodes (A ++ (l, xs ++ e :: ys) :: B)) as Hin'
    by (rewrite all_nodes_app, all_nodes_cons, !elem_of_app; auto).
  split_and!; [done| | |by apply Hnn|rewrite He; by apply Hsome].
  - eapply keeps_outside; [done..|]. intros a Ha. rewrite all_nodes_app, all_nodes_cons, !elem_of_app. auto.
  - destruct Hx as (_ & Hn & _). specialize (Hd e Hin). rewrite all_nodes_app in Hd |- *. rewrite all_nodes_cons.
    unfold nodes in *. rewrite <-app_assoc in Hn |- *. simpl in Hn.
    apply NoDup_cons in Hn as [Hh Hn]. rewrite <-Permutation_middle in Hn.
    apply NoDup_cons in Hn as [Hn _]. clear -Hd Hh Hn. set_solver.
Qed.

Lemma lists_init h ls l :
  lists_ok h ls → l ≠ NULL → tail_of l ≠ NULL → is_Some (h !! l) → is_Some (h !! tail_of l) →
  l ∉ all_nodes ls → tail_of l ∉ all_nodes ls →
  wp (list_init l) (λ _ h', lists_ok h' (ls ++ [(l, [])]) ∧ keeps h h') h.
Proof.
  intros Hl H0 Ht Hs1 Hs2 H1 H2. eapply wp_mono; [by apply list_init_ok|]. intros [] h' [Hl' Hs].
  assert (lists_ok h' (ls ++ [(l, [])])) as Hls.
  { apply lists_ok_at. rewrite app_nil_r. destruct Hl as [Hf Hn].
    assert (∀ a, a ∈ nodes l [] → a ∉ all_nodes ls) as Hd.
    { intros a. unfold nodes, head_of. simpl. set_solver. }
    split_and!; [done| |done]. split; [|done]. rewrite Forall_forall in Hf |- *. intros [k xs] Hin.
    eapply is_list_frame; [done| |by apply (Hf _ Hin)]. simpl. intros a Ha Hn'.
    apply (Hd a Hn'), elem_of_all_nodes. eauto. }
  split; [done|]. eapply keeps_outside; [done..|]. intros a Ha. rewrite all_nodes_app, all_nodes_cons. clear -Ha. set_solver.
Qed.
End lists_ops.

(** * The buckets of a table *)
Fixpoint bucket_lists (a : Z) (bs : list (list Z)) : list (Z * list Z) :=
  match bs with [] => [] | xs :: bs => (a, xs) :: bucket_lists (a + 16) bs end.

Lemma bucket_lists_app a bs bs' :
  bucket_lists a (bs ++ bs') = bucket_lists a bs ++ bucket_lists (a + 16 * Z.of_nat (length bs)) bs'.
Proof.
  revert a. induction bs as [|xs bs IH]; intros a; simpl; [by rewrite Z.add_0_r|].
  rewrite IH. do 3 f_equal. lia.
Qed.

(** One bucket of several. *)
Lemma bucket_lists_at a bs i xs :
  bs !! i = Some xs → ∃ A B, bucket_lists a bs = A ++ (a + 16 * Z.of_nat i, xs) :: B ∧
    ∀ ys, bucket_lists a (<[i := ys]> bs) = A ++ (a + 16 * Z.of_nat i, ys) :: B.
Proof.
  intros Hi. exists (bucket_lists a (take i bs)), (bucket_lists (a + 16 * Z.of_nat i + 16) (drop (S i) bs)).
  pose proof (lookup_lt_Some _ _ _ Hi) as Hlt.
  assert (∀ ys, bucket_lists a (take i bs ++ ys :: drop (S i) bs) =
    bucket_lists a (take i bs) ++ (a + 16 * Z.of_nat i, ys) :: bucket_lists (a + 16 * Z.of_nat i + 16) (drop (S i) bs)) as H.
  { intros ys. rewrite bucket_lists_app, length_take, Nat.min_l by lia. done. }
  split.
  - rewrite <-H. by rewrite take_drop_middle.
  - intros ys. rewrite <-H. f_equal. by apply insert_take_drop.
Qed.

Lemma cells_succ a n : cells a (S n) = a :: cells (a + 8) n.
Proof.
  unfold cells. change (seq 0 (S n)) with (0%nat :: seq 1 n). rewrite fmap_cons, <-seq_shift.
  f_equal; [lia|]. rewrite <-list_fmap_compose.
  apply list_fmap_ext. intros i x _. unfold compose. lia.
Qed.

(** The cells of the array and the elements. *)
Lemma bucket_nodes a bs : all_nodes (bucket_lists a bs) ≡ₚ cells a (2 * length bs) ++ concat bs.
Proof.
  revert a. induction bs as [|xs bs IH]; intros a; [done|].
  cbn [bucket_lists]. rewrite all_nodes_cons, IH.
  assert (cells a (2 * length (xs :: bs)) = a :: tail_of a :: cells (a + 16) (2 * length bs)) as ->.
  { cbn [length]. replace (2 * S (length bs))%nat with (S (S (2 * length bs))) by lia.
    rewrite !cells_succ. unfold tail_of. do 3 f_equal. lia. }
  unfold nodes, head_of. simpl. apply perm_skip. rewrite <-!app_assoc. simpl.
  rewrite (Permutation_app_comm xs). simpl. apply perm_skip.
  rewrite <-!app_assoc. apply Permutation_app_head. apply Permutation_app_comm.
Qed.

(** * The number of buckets *)

Lemma land_odd_even a b : Z.land (2 * a + 1) (2 * b) = 2 * Z.land a b.
Proof.
  apply Z.bits_inj'. intros i Hi. rewrite Z.land_spec.
  destruct (Z.eq_dec i 0) as [->|]; [by rewrite !Z.testbit_even_0, andb_false_r|].
  replace i with (Z.succ (i - 1)) by lia.
  by rewrite Z.testbit_odd_succ, !Z.testbit_even_succ, Z.land_spec by lia.
Qed.
Lemma land_even_odd a b : Z.land (2 * a) (2 * b + 1) = 2 * Z.land a b.
Proof. by rewrite Z.land_comm, land_odd_even, Z.land_comm. Qed.

(** [x & (x - 1)] turns off the lowest bit. *)
Lemma lowest_bit x : 0 < x → ∃ v q, 0 ≤ v ∧ 0 ≤ q ∧ x = 2 ^ v * (2 * q + 1) ∧
  Z.land x (x - 1) = 2 ^ v * (2 * q).
Proof.
  induction (Z.lt_wf 0 x) as [x _ IH]. intros Hx.
  pose proof (Z_div_mod_eq_full x 2). pose proof (Z.mod_pos_bound x 2 ltac:(lia)).
  destruct (Z.eq_dec (x mod 2) 0) as [E|E].
  - destruct (IH (x / 2)) as (v & q & ? & ? & Ev & El); [lia|lia|].
    exists (v + 1), q. rewrite Z.pow_add_r by lia. split_and!; [lia|lia|lia|].
    replace x with (2 * (x / 2)) at 1 by lia. replace (x - 1) with (2 * (x / 2 - 1) + 1) by lia.
    rewrite land_even_odd, El. lia.
  - exists 0, (x / 2). split_and!; [lia|lia|lia|].
    replace x with (2 * (x / 2) + 1) at 1 by lia. replace (x - 1) with (2 * (x / 2)) by lia.
    rewrite land_odd_even, Z.land_diag. lia.
Qed.

Lemma is_power_of_2_iff x v q :
  is_u32 x → 0 ≤ v → 0 ≤ q → x = 2 ^ v * (2 * q + 1) → Z.land x (x - 1) = 2 ^ v * (2 * q) →
  is_power_of_2 x = (q =? 0).
Proof.
  unfold is_u32. intros Hx Hv Hq Ex El. pose proof (Z.pow_pos_nonneg 2 v ltac:(lia) Hv).
  unfold is_power_of_2, turn_off_least_1bit. assert (0 < x) by nia.
  rewrite (u32_id (x - 1)) by (unfold is_u32; lia). rewrite El, (proj2 (Z.eqb_neq x 0)) by lia. simpl.
  destruct (Z.eqb_spec q 0) as [->|]; [by rewrite Z.mul_0_r|]. apply Z.eqb_neq. nia.
Qed.

(** The loop keeps the highest bit. *)
Lemma ideal_bucket_cnt_ok n s :
  is_u32 n → ∃ k, 2 ≤ k < 32 ∧ 2 ^ k ≤ Z.max 4 (n / 2) < 2 ^ (k + 1) ∧
    wp (ideal_bucket_cnt n) (λ r s', r = 2 ^ k ∧ s' = s) s.
Proof.
  unfold is_u32. intros Hn. set (x0 := Z.max 4 (n / 2)).
  assert (4 ≤ x0 < 2 ^ 32) as Hx0.
  { unfold x0. pose proof (Z.div_lt_upper_bound n 2 (2 ^ 32)). lia. }
  destruct (Z.log2_spec x0) as [Hlo Hhi]; [lia|]. set (k := Z.log2 x0) in *.
  assert (2 ≤ k < 32) as Hk.
  { split; [apply (Z.log2_le_mono 4); lia|]. apply Z.log2_lt_pow2; lia. }
  exists k. split_and!; [lia|lia|lia|by rewrite Z.add_1_r|].
  unfold ideal_bucket_cnt, BEST_ELEMS_PER_BUCKET. cbv zeta.
  replace (if n / 2 <? 4 then 4 else n / 2) with x0
    by (unfold x0; destruct (Z.ltb_spec (n / 2) 4); lia).
  apply (wp_loop (λ m x s', s' = s ∧ 2 ^ k ≤ x < 2 ^ Z.succ k ∧ (m ≤ 32)%nat ∧
    ∃ y, x = 2 ^ (32 - Z.of_nat m) * y)) with (k := 32%nat).
  - intros m x s' (-> & Hx & Hm & y & Ey). rewrite Z.pow_succ_r in Hx by lia.
    destruct (lowest_bit x) as (v & q & Hv & Hq & Ex & El).
    { pose proof (Z.pow_pos_nonneg 2 k). lia. }
    assert (2 ^ Z.succ k ≤ 2 ^ 32) by (apply Z.pow_le_mono_r; lia). rewrite Z.pow_succ_r in * by lia.
    rewrite (is_power_of_2_iff x v q) by (done || (unfold is_u32; lia)).
    pose proof (Z.pow_pos_nonneg 2 v ltac:(lia) Hv).
    destruct (Z.eqb_spec q 0) as [->|Hne]; simpl negb; cbv iota; wp_go.
    + split; [|done]. rewrite Z.mul_1_r in Ex. rewrite Ex in Hx |- *. f_equal.
      assert (k ≤ v) by (apply (Z.pow_le_mono_r_iff 2); lia).
      assert (v < Z.succ k); [|lia]. apply (Z.pow_lt_mono_r_iff 2); [lia|lia|].
      rewrite Z.pow_succ_r by lia. lia.
    + assert (v < k) as Hvk by (apply (Z.pow_lt_mono_r_iff 2); [lia|lia|nia]).
      assert (32 - Z.of_nat m ≤ v) as Hmv.
      { destruct (Z.le_gt_cases (32 - Z.of_nat m) v) as [|Hgt]; [done|exfalso].
        assert (2 ^ (32 - Z.of_nat m) = 2 ^ v * 2 * 2 ^ (32 - Z.of_nat m - v - 1)) as Ep.
        { rewrite <-(Z.pow_1_r 2) at 3. rewrite <-!Z.pow_add_r by lia. f_equal. lia. }
        rewrite Ep in Ey. set (w := 2 ^ (32 - Z.of_nat m - v - 1)) in *.
        assert (2 ^ v * (2 * q + 1) = 2 ^ v * (2 * (w * y))) as E by (rewrite <-Ex, Ey; ring).
        apply Z.mul_reg_l in E; lia. }
      exists (m - 1)%nat. split; [lia|]. split; [done|].
      unfold turn_off_least_1bit. rewrite u32_id by (unfold is_u32; lia). rewrite El.
      assert (2 ^ k = 2 ^ v * (2 * 2 ^ (k - v - 1))) as Ek.
      { rewrite <-Z.pow_succ_r, <-Z.pow_add_r by lia. f_equal. lia. }
      assert (2 * 2 ^ (k - v - 1) ≤ 2 * q + 1) by (apply (Z.mul_le_mono_pos_l _ _ (2 ^ v)); lia).
      split_and!; [rewrite Ek; apply Z.mul_le_mono_nonneg_l; lia|lia|lia|]. exists (2 ^ (v - (32 - Z.of_nat m)) * q).
      replace (2 ^ v * (2 * q)) with (2 ^ v * 2 ^ 1 * q) by ring.
      rewrite Z.mul_assoc, <-!Z.pow_add_r by lia. do 2 f_equal. lia.
  - split; [done|]. split_and!; [lia|lia|lia|]. exists x0. simpl. lia.
  - lia.
Qed.

(** * Tables as sets of elements *)
Section correct.
Context (hash_func : Z → Z) (less : Z → Z → bool).
Context (alloc : nat → heap → Z → Z) (junk : Z → list_elem).
Import KList.Correct.

(** Elements that the table takes for equal. *)
Definition eqv (x y : Z) : bool := negb (less x y) && negb (less y x).

(** What the two functions and the allocator owe the table. *)
Class Hashing : Prop := {
  hash_range x : is_u32 (hash_func x);
  hash_eqv x y : eqv x y = true → hash_func x = hash_func y;
  eqv_refl x : eqv x x = true;
  eqv_trans x y z : eqv x y = true → eqv y z = true → eqv x z = true;
  alloc_fresh n h b : alloc n h b ≠ NULL →
    0 < alloc n h b ∧ ∀ c, c ∈ cells (alloc n h b) (Z.to_nat (b / 8)) → h !! c = None }.
Context `{!Hashing}.

Lemma eqv_sym x y : eqv x y = eqv y x.
Proof. unfold eqv. apply andb_comm. Qed.

(** The bucket of an element, of [cnt]. *)
Definition place (cnt : Z) (x : Z) : nat := Z.to_nat (Z.land (hash_func x) (cnt - 1)).

Definition placed (cnt : Z) (bs : list (list Z)) : Prop :=
  ∀ i xs x, bs !! i = Some xs → x ∈ xs → place cnt x = i.

Record table_at (s : state) (bs : list (list Z)) (es : list Z) : Prop := {
  tb_lists : lists_ok (hp s) (bucket_lists (buckets (table s)) bs);
  tb_power : ∃ k, 2 ≤ k < 32 ∧ bucket_cnt (table s) = 2 ^ k;
  tb_length : Z.of_nat (length bs) = bucket_cnt (table s);
  tb_placed : placed (bucket_cnt (table s)) bs;
  tb_elems : es ≡ₚ concat bs;
  tb_count : elem_cnt (table s) = Z.of_nat (length es) }.


(** An allocated cell that is not part of the array of buckets. *)
Definition outside (s : state) (x : Z) : Prop :=
  x ≠ NULL ∧ is_Some (hp s !! x) ∧ x ∉ cells (buckets (table s)) (Z.to_nat (2 * bucket_cnt (table s))).

Lemma set_hp_id s : set_hp (hp s) s = s.
Proof. by destruct s. Qed.

Lemma place_lt k x : 0 ≤ k → (place (2 ^ k) x < Z.to_nat (2 ^ k))%nat.
Proof.
  intros Hk. unfold place. pose proof (Z.pow_pos_nonneg 2 k ltac:(lia) Hk).
  rewrite Z.sub_1_r, <-Z.ones_equiv, Z.land_ones by done.
  pose proof (Z.mod_pos_bound (hash_func x) (2 ^ k)). lia.
Qed.

(** The bucket [find_bucket] finds. *)
Lemma find_bucket_ok s k e Q :
  2 ≤ k < 32 → bucket_cnt (table s) = 2 ^ k →
  Q (buckets (table s) + 16 * Z.of_nat (place (2 ^ k) e)) s → wp (find_bucket hash_func e) Q s.
Proof.
  intros Hk Ek HQ. unfold find_bucket. wp_go. rewrite Ek.
  assert (4 ≤ 2 ^ k ≤ 2 ^ 31) by (split; [apply (Z.pow_le_mono_r 2 2)|apply Z.pow_le_mono_r]; lia).
  rewrite u32_id by (unfold is_u32; lia). unfold place in HQ.
  rewrite Z2Nat.id in HQ; [done|]. apply Z.land_nonneg. left. apply hash_range.
Qed.

Lemma find_elem_ok s l xs e :
  is_list (hp s) l xs →
  wp (find_elem less l e) (λ r s', s' = s ∧
    ((r = NULL ∧ Forall (λ x, eqv x e = false) xs) ∨
     ∃ xs1 xs2, xs = xs1 ++ r :: xs2 ∧ eqv r e = true)) s.
Proof.
  intros Hl. unfold find_elem, on_heap. wp_unbind. rewrite wp_zoom.
  eapply wp_list_begin; [done|]. rewrite set_hp_id. unfold over. wp_go.
  apply (wp_loop (λ n i s', s' = s ∧ ∃ xs1 xs2, xs = xs1 ++ xs2 ∧ n = length xs2 ∧
    i = firstd (tail_of l) xs2 ∧ Forall (λ x, eqv x e = false) xs1)) with (k := length xs).
  - intros n i s' (-> & xs1 & xs2 & -> & -> & -> & Hno). wp_unbind. rewrite wp_zoom.
    eapply wp_list_end; [done|]. rewrite set_hp_id, (firstd_eqb_tail (hp s) l xs1 xs2 Hl).
    destruct xs2 as [|x xs2]; simpl firstd.
    { wp_go. split; [done|]. left. by rewrite app_nil_r. }
    fold (eqv x e). destruct (eqv x e) eqn:Ex.
    { wp_go. split; [done|]. right. eauto. }
    wp_unbind. rewrite wp_zoom. eapply wp_list_next_elem; [done|]. rewrite set_hp_id. wp_go.
    exists (length xs2). split; [simpl; lia|]. split; [done|]. exists (xs1 ++ [x]), xs2.
    rewrite <-app_assoc. split_and!; [done..|]. apply Forall_app. auto.
  - split; [done|]. by exists [], xs.
  - apply list_size_bound in Hl. lia.
Qed.

(** Putting an element into its bucket, and taking one out. *)
Lemma concat_update (bs : list (list Z)) i xs ys :
  bs !! i = Some xs → ∃ rest, concat bs ≡ₚ xs ++ rest ∧ concat (<[i := ys]> bs) ≡ₚ ys ++ rest.
Proof.
  intros Hi. exists (concat (take i bs) ++ concat (drop (S i) bs)).
  pose proof (lookup_lt_Some _ _ _ Hi). split.
  - rewrite <-(take_drop_middle bs i xs Hi) at 1. rewrite concat_app. simpl.
    apply Permutation_app_swap_app.
  - rewrite insert_take_drop by lia. rewrite concat_app. simpl. apply Permutation_app_swap_app.
Qed.

Lemma concat_put (bs : list (list Z)) i x xs :
  bs !! i = Some xs → concat (<[i := x :: xs]> bs) ≡ₚ x :: concat bs.
Proof. intros Hi. destruct (concat_update bs i xs (x :: xs) Hi) as (rest & -> & ->). done. Qed.

Lemma concat_take (bs : list (list Z)) i x xs ys :
  bs !! i = Some (xs ++ x :: ys) → concat bs ≡ₚ x :: concat (<[i := xs ++ ys]> bs).
Proof.
  intros Hi. destruct (concat_update bs i _ (xs ++ ys) Hi) as (rest & -> & ->).
  rewrite <-!app_assoc. simpl. by rewrite <-Permutation_middle.
Qed.

Lemma placed_update cnt bs i xs :
  placed cnt bs → (∀ x, x ∈ xs → place cnt x = i) → placed cnt (<[i := xs]> bs).
Proof.
  intros Hp Hx j ys y Hj Hy. apply list_lookup_insert_Some in Hj as [(-> & -> & _)|[_ Hj]]; [by apply Hx|].
  by eapply Hp.
Qed.

Lemma move_bucket_ok s k A ob xs B nbs :
  2 ≤ k < 32 → bucket_cnt (table s) = 2 ^ k → Z.of_nat (length nbs) = 2 ^ k →
  lists_ok (hp s) (A ++ (ob, xs) :: B ++ bucket_lists (buckets (table s)) nbs) → placed (2 ^ k) nbs →
  wp (move_bucket hash_func ob) (λ _ s', ∃ h' nbs', s' = set_hp h' s ∧
    lists_ok h' (A ++ (ob, []) :: B ++ bucket_lists (buckets (table s)) nbs') ∧ keeps (hp s) h' ∧
    length nbs' = length nbs ∧ placed (2 ^ k) nbs' ∧ concat nbs' ≡ₚ xs ++ concat nbs) s.
Proof.
  intros Hk Ek Hn Hl Hp. set (nb := buckets (table s)) in *. unfold move_bucket, on_heap. wp_unbind. rewrite wp_zoom.
  pose proof Hl as (Hx & _ & _)%lists_ok_at.
  eapply wp_list_begin; [done|]. rewrite set_hp_id. unfold over. wp_go.
  apply (wp_loop (λ n i s', ∃ h' ys nbs', s' = set_hp h' s ∧ n = length ys ∧ i = firstd (tail_of ob) ys ∧
    lists_ok h' (A ++ (ob, ys) :: B ++ bucket_lists nb nbs') ∧ keeps (hp s) h' ∧
    length nbs' = length nbs ∧ placed (2 ^ k) nbs' ∧ ys ++ concat nbs' ≡ₚ xs ++ concat nbs))
    with (k := length xs).
  - intros n i s' (h1 & ys & nbs1 & -> & -> & -> & Hl1 & Hk1 & Hn1 & Hp1 & Hc1).
    pose proof Hl1 as (Hy & _ & _)%lists_ok_at. wp_unbind. rewrite wp_zoom. cbn [hp set_hp].
    eapply wp_list_end; [done|]. rewrite (firstd_eqb_tail h1 ob [] ys Hy).
    destruct ys as [|x ys]; simpl firstd; [wp_go; by exists h1, nbs1|].
    wp_unbind. eapply find_bucket_ok; [done|done|]. cbn [table set_hp].
    fold nb. set (j := place (2 ^ k) x). wp_unbind. rewrite wp_zoom. cbn [hp set_hp].
    eapply (wp_list_next_elem _ _ []); [done|]. wp_unbind. rewrite wp_zoom. cbn [hp set_hp].
    eapply wp_mono; [by apply (lists_remove h1 A ob [] x ys)|].
    intros r h2 (Hl2 & Hk2 & Hni & Hx0 & Hxs). cbn [app] in *. wp_unbind. rewrite wp_zoom. cbn [hp set_hp].
    destruct (lookup_lt_is_Some_2 nbs1 j) as [zs Hj]; [pose proof (place_lt k x); lia|].
    destruct (bucket_lists_at nb nbs1 j zs Hj) as (A' & B' & E & E'). rewrite E in Hl2, Hni.
    rewrite !app_comm_cons, !app_assoc in Hl2, Hni.
    eapply wp_mono; [by apply (lists_push h2 ((A ++ (ob, ys) :: B) ++ A') (nb + 16 * Z.of_nat j) zs B' x)|].
    intros [] h3 [Hl3 Hk3]. wp_go. exists (length ys). split; [simpl; lia|].
    exists h3, ys, (<[j := x :: zs]> nbs1). split_and!; [done|done|done| | |by rewrite length_insert| |].
    + rewrite E', !app_comm_cons, !app_assoc. exact Hl3.
    + eapply keeps_trans; [done|]. by eapply keeps_trans.
    + apply placed_update; [done|]. intros y [->|Hy']%elem_of_cons; [done|]. by eapply Hp1.
    + rewrite (concat_put _ _ _ _ Hj), <-Permutation_middle. exact Hc1.
  - exists (hp s), xs, nbs. rewrite set_hp_id. split_and!; (done || apply keeps_refl).
  - apply list_size_bound in Hx. lia.
Qed.

Lemma elem_of_cells c a n : c ∈ cells a n ↔ ∃ k, (k < n)%nat ∧ c = a + 8 * Z.of_nat k.
Proof.
  unfold cells. rewrite list_elem_of_fmap. split.
  - intros (k & -> & Hk%elem_of_seq). exists k. split; [lia|done].
  - intros (k & Hk & ->). exists k. split; [done|]. apply elem_of_seq. lia.
Qed.

Lemma lists_ok_agree h h' ls :
  lists_ok h ls → (∀ a, a ∈ all_nodes ls → h' !! a = h !! a) → lists_ok h' ls.
Proof.
  intros [Hf Hn] Ha. split; [|done]. rewrite Forall_forall in Hf |- *. intros [l xs] Hin.
  destruct (Hf _ Hin) as (Hc & ? & ?). split_and!; [|done..]. eapply chain_agree; [|exact Hc].
  intros a Hx. apply Ha, elem_of_all_nodes. eauto.
Qed.

Lemma lists_ok_app_r h ls ls' : lists_ok h (ls ++ ls') →
  lists_ok h ls' ∧ ∀ a, a ∈ all_nodes ls → a ∉ all_nodes ls'.
Proof.
  intros [Hf Hn]. rewrite all_nodes_app in Hn. apply NoDup_app in Hn as (_ & Hd & Hn).
  apply Forall_app in Hf as [_ Hf]. done.
Qed.

Lemma bucket_elem a bs x : x ∈ all_nodes (bucket_lists a bs) ↔
  x ∈ cells a (2 * length bs) ∨ x ∈ concat bs.
Proof. by rewrite bucket_nodes, elem_of_app. Qed.

Lemma elem_of_buckets (x : Z) bs : x ∈ concat bs ↔ ∃ ys, x ∈ ys ∧ ys ∈ bs.
Proof.
  induction bs as [|zs bs IH]; simpl; [set_solver|]. rewrite elem_of_app, IH. split.
  - intros [?|(ys & ? & ?)]; [exists zs|exists ys]; set_solver.
  - intros (ys & ? & [->|?]%elem_of_cons); eauto.
Qed.

Lemma concat_empty n : concat (replicate n ([] : list Z)) = [].
Proof. by induction n. Qed.

(** New cells are fresh, and hold anything. *)
Lemma malloc_ok s b :
  wp (malloc alloc junk b) (λ r s', table s' = table s ∧ keeps (hp s) (hp s') ∧
    (∀ x, is_Some (hp s !! x) → hp s' !! x = hp s !! x) ∧
    (r ≠ NULL → 0 < r ∧ ∀ c, c ∈ cells r (Z.to_nat (b / 8)) → hp s !! c = None ∧ is_Some (hp s' !! c))) s.
Proof.
  unfold malloc. wp_go. set (a := alloc _ _ _). simpl.
  assert (∀ cs x, foldr (λ c h, <[c := junk c]> h) (hp s) cs !! x =
    if decide (x ∈ cs) then Some (junk x) else hp s !! x) as Hl.
  { induction cs as [|c cs IH]; intros x; simpl; [done|]. destruct (decide (x = c)) as [->|].
    - rewrite lookup_insert_eq, decide_True by set_solver. done.
    - rewrite lookup_insert_ne by done. rewrite IH. destruct (decide (x ∈ cs)).
      + by rewrite decide_True by set_solver.
      + by rewrite decide_False by set_solver. }
  split; [done|]. destruct (Z.eqb_spec a NULL) as [E|Hne].
  { split_and!; [apply keeps_refl|done|done]. }
  destruct (alloc_fresh (calls s) (hp s) b Hne) as [Hpos Hf]. fold a in Hpos, Hf.
  assert (∀ x, is_Some (hp s !! x) → foldr (λ c h, <[c := junk c]> h) (hp s) (cells a (Z.to_nat (b / 8))) !! x = hp s !! x) as Hsame.
  { intros x [v Hv]. rewrite Hl, decide_False; [done|]. intros Hx. apply Hf in Hx. congruence. }
  split_and!; [|done|].
  - intros x Hx. by rewrite Hsame.
  - intros _. split; [done|]. intros c Hc. split; [by apply Hf|]. rewrite Hl, decide_True by done. eauto.
Qed.

Lemma init_buckets_ok s ls a n :
  lists_ok (hp s) ls → 0 < a → (∀ c, c ∈ cells a (2 * n) → is_Some (hp s !! c) ∧ c ∉ all_nodes ls) →
  wp (for_upto n 0 (λ i, on_heap (list_init (a + 16 * i)))) (λ _ s', ∃ h', s' = set_hp h' s ∧
    lists_ok h' (ls ++ bucket_lists a (replicate n [])) ∧ keeps (hp s) h') s.
Proof.
  intros Hl Ha Hc.
  eapply wp_mono; [apply (wp_for_upto (λ j s', 0 ≤ j ∧ ∃ h', s' = set_hp h' s ∧
    lists_ok h' (ls ++ bucket_lists a (replicate (Z.to_nat j) [])) ∧ keeps (hp s) h'))|].
  - intros j s' Hj (_ & h1 & -> & Hl1 & Hk1). unfold on_heap. rewrite wp_zoom. cbn [hp set_hp].
    set (m := Z.to_nat j) in *.
    assert (∀ d, (d = 0 ∨ d = 1)%nat → let c := a + 8 * Z.of_nat (2 * m + d) in
      is_Some (h1 !! c) ∧ c ∉ all_nodes (ls ++ bucket_lists a (replicate m []))) as Hd.
    { intros d Hd c. destruct (Hc c) as [Hs Hn]; [apply elem_of_cells; exists (2 * m + d)%nat; lia|].
      split; [by apply Hk1|]. rewrite all_nodes_app, elem_of_app, bucket_elem, concat_empty, length_replicate.
      intros [?|[(i & Hi & Ei)%elem_of_cells|?%not_elem_of_nil]]; [done| |done]. unfold c in Ei. lia. }
    destruct (Hd 0%nat) as [Hh Hh']; [lia|]. destruct (Hd 1%nat) as [Ht Ht']; [lia|].
    replace (a + 8 * Z.of_nat (2 * m + 0)) with (a + 16 * j) in Hh, Hh' by lia.
    replace (a + 8 * Z.of_nat (2 * m + 1)) with (tail_of (a + 16 * j)) in Ht, Ht' by (unfold tail_of; lia).
    eapply wp_mono; [apply (lists_init h1 _ (a + 16 * j) Hl1); try done; unfold NULL, tail_of; lia|].
    intros [] h2 [Hl2 Hk2]. split; [lia|]. exists h2. split_and!; [done| |by eapply keeps_trans].
    replace (Z.to_nat (j + 1)) with (m + 1)%nat by lia.
    rewrite replicate_add, bucket_lists_app, length_replicate, app_assoc. simpl.
    by replace (16 * Z.of_nat m) with (16 * j) by lia.
  - split; [lia|]. exists (hp s). rewrite set_hp_id, app_nil_r. split_and!; [done|done|apply keeps_refl].
  - intros [] s' (_ & h' & -> & Hl' & Hk). exists h'. by rewrite Z.add_0_l, Nat2Z.id in Hl'.
Qed.

Lemma move_all_ok s k ob bs nbs :
  2 ≤ k < 32 → bucket_cnt (table s) = 2 ^ k → Z.of_nat (length nbs) = 2 ^ k →
  lists_ok (hp s) (bucket_lists ob bs ++ bucket_lists (buckets (table s)) nbs) → placed (2 ^ k) nbs →
  concat nbs = [] →
  wp (for_upto (length bs) 0 (λ i, move_bucket hash_func (ob + 16 * i))) (λ _ s', ∃ h' nbs',
    s' = set_hp h' s ∧
    lists_ok h' (bucket_lists ob (replicate (length bs) []) ++ bucket_lists (buckets (table s)) nbs') ∧
    keeps (hp s) h' ∧ length nbs' = length nbs ∧ placed (2 ^ k) nbs' ∧ concat nbs' ≡ₚ concat bs) s.
Proof.
  intros Hk Ek Hn Hl Hp He. set (nb := buckets (table s)) in *.
  eapply wp_mono; [apply (wp_for_upto (λ j s', 0 ≤ j ∧ ∃ h' nbs', s' = set_hp h' s ∧
    lists_ok h' (bucket_lists ob (replicate (Z.to_nat j) [] ++ drop (Z.to_nat j) bs) ++ bucket_lists nb nbs') ∧
    keeps (hp s) h' ∧ length nbs' = length nbs ∧ placed (2 ^ k) nbs' ∧
    concat nbs' ≡ₚ concat (take (Z.to_nat j) bs)))|].
  - intros j s' Hj (_ & h1 & nbs1 & -> & Hl1 & Hk1 & Hn1 & Hp1 & Hc1).
    set (m := Z.to_nat j) in *. replace (ob + 16 * j) with (ob + 16 * Z.of_nat m) by lia.
    destruct (lookup_lt_is_Some_2 bs m) as [xs Hm]; [lia|].
    assert (bs = take m bs ++ xs :: drop (S m) bs) as Eb by by rewrite take_drop_middle.
    rewrite (drop_S _ _ _ Hm) in Hl1. set (obs := replicate m [] ++ xs :: drop (S m) bs) in *.
    assert (obs !! m = Some xs) as Ho.
    { unfold obs. rewrite lookup_app_r by (rewrite length_replicate; lia).
      by rewrite length_replicate, Nat.sub_diag. }
    destruct (bucket_lists_at ob obs m xs Ho) as (A & B & E & E'). specialize (E' []).
    rewrite E, <-app_assoc, <-app_comm_cons in Hl1.
    eapply wp_mono; [apply (move_bucket_ok (set_hp h1 s) k A _ xs B nbs1); try done; lia|].
    intros [] s2 (h2 & nbs2 & -> & Hl2 & Hk2 & Hn2 & Hp2 & Hc2). split; [lia|]. exists h2, nbs2.
    split_and!; [done| |by eapply keeps_trans|congruence|done|].
    + rewrite app_comm_cons, app_assoc, <-E' in Hl2.
      replace (<[m := []]> obs) with (replicate (Z.to_nat (j + 1)) [] ++ drop (Z.to_nat (j + 1)) bs) in Hl2; [exact Hl2|].
      unfold obs. rewrite insert_app_r_alt, length_replicate, Nat.sub_diag by (rewrite length_replicate; lia).
      simpl. replace (Z.to_nat (j + 1)) with (m + 1)%nat by lia. rewrite replicate_add, <-app_assoc. simpl.
      by replace (m + 1)%nat with (S m) by lia.
    + replace (Z.to_nat (j + 1)) with (S m) by lia. rewrite (take_S_r _ _ _ Hm), concat_app. simpl.
      rewrite app_nil_r, Hc2, Hc1. apply Permutation_app_comm.
  - split; [lia|]. exists (hp s), nbs. rewrite set_hp_id, He. split_and!; try done. apply keeps_refl.
  - intros [] s' (_ & h' & nbs' & -> & Hl' & Hk' & Hn' & Hp' & Hc'). exists h', nbs'.
    rewrite Z.add_0_l, Nat2Z.id in *. rewrite drop_all, app_nil_r in Hl'. by rewrite firstn_all in Hc'.
Qed.

Lemma free_cells h cs x : foldr delete (h : heap) cs !! x = if decide (x ∈ cs) then None else h !! x.
Proof.
  induction cs as [|c cs IH]; simpl; [done|]. destruct (decide (x = c)) as [->|].
  - rewrite lookup_delete_eq, decide_True by set_solver. done.
  - rewrite lookup_delete_ne by done. rewrite IH. destruct (decide (x ∈ cs)).
    + by rewrite decide_True by set_solver.
    + by rewrite decide_False by set_solver.
Qed.

(** [rehash] keeps the elements, whether or not memory is left for it. *)
Lemma rehash_ok s bs es :
  table_at s bs es → Z.of_nat (length es) < 2 ^ 28 →
  wp (rehash hash_func alloc junk) (λ _ s', (∃ bs', table_at s' bs' es) ∧
    ∀ x, outside s x → outside s' x) s.
Proof.
  intros [Hl (k0 & Hk0 & Ek0) Hlen Hp Hes Hcnt] Hsmall. unfold rehash. wp_go.
  set (ob := buckets (table s)) in *. rewrite Hcnt.
  destruct (ideal_bucket_cnt_ok (Z.of_nat (length es)) s) as (k & Hk & Hrange & Hideal); [unfold is_u32; lia|].
  eapply wp_mono; [exact Hideal|]. intros r s1 [-> ->]. clear Hideal.
  assert (4 ≤ 2 ^ k < 2 ^ 28) as Hkr.
  { split; [apply (Z.pow_le_mono_r 2 2); lia|]. pose proof (Z.div_lt_upper_bound (Z.of_nat (length es)) 2 (2 ^ 28)). lia. }
  destruct (Z.eqb_spec (2 ^ k) (bucket_cnt (table s))) as [E|Hne].
  { wp_go. split; [|done]. exists bs. by split; eauto. }
  rewrite u32_id by (unfold is_u32; lia). wp_unbind.
  eapply wp_mono; [apply malloc_ok|]. intros nb s1 (Et & Hkeep & Hsame & Hnew).
  destruct (Z.eqb_spec nb NULL) as [->|Hnn].
  { wp_go. split.
    - exists bs. split; rewrite ?Et; eauto. eapply lists_ok_agree; [exact Hl|].
      intros a Ha. apply Hsame. by eapply lists_some.
    - intros x (? & Hx & ?). split_and!; [done|by apply Hkeep|by rewrite Et]. }
  destruct (Hnew Hnn) as [Hpos Hcells]. clear Hnew.
  replace (Z.to_nat (16 * 2 ^ k / 8)) with (2 * Z.to_nat (2 ^ k))%nat in Hcells
    by (replace (16 * 2 ^ k) with (2 * 2 ^ k * 8) by lia; rewrite Z.div_mul by lia; lia).
  set (n := Z.to_nat (2 ^ k)) in *. wp_unbind.
  eapply wp_mono; [apply (init_buckets_ok s1 (bucket_lists ob bs) nb n)|].
  { eapply lists_ok_agree; [exact Hl|]. intros a Ha. apply Hsame. by eapply lists_some. }
  { done. }
  { intros c Hc. destruct (Hcells c Hc) as [Hc0 Hc1]. split; [done|]. intros Hin.
    destruct (lists_some _ _ _ Hl Hin) as [v Hv]. congruence. }
  intros [] s2 (h2 & -> & Hl2 & Hk2). wp_go. cbn [table set_hp].
  set (s3 := set_table (mk_hash (elem_cnt (table s1)) (2 ^ k) nb) (set_hp h2 s1)).
  replace (Z.to_nat (bucket_cnt (table s))) with (length bs) by lia.
  eapply wp_mono; [apply (move_all_ok s3 k ob bs (replicate n []))|]; try done.
  { rewrite length_replicate. lia. }
  { intros i xs x Hi. apply lookup_replicate in Hi as [-> _]. by intros ?%not_elem_of_nil. }
  { apply concat_empty. }
  intros [] s4 (h4 & nbs & -> & Hl4 & Hk4 & Hn4 & Hp4 & Hc4). unfold free. wp_go. cbn [hp set_hp table s3 set_table].
  rewrite length_replicate in Hn4. apply lists_ok_app_r in Hl4 as [Hl4 Hd].
  replace (Z.to_nat (2 * bucket_cnt (table s))) with (2 * length bs)%nat by lia.
  assert (∀ x, x ∈ cells ob (2 * length bs) → x ∉ all_nodes (bucket_lists nb nbs)) as Hold.
  { intros x Hx. apply Hd. rewrite bucket_elem, length_replicate. by left. }
  split.
  - exists nbs. split; unfold s3; cbn [hp table set_hp set_table bucket_cnt buckets elem_cnt].
    + eapply lists_ok_agree; [exact Hl4|]. intros a Ha. rewrite free_cells, decide_False; [done|].
      intros Hin. by apply (Hold a).
    + eauto.
    + rewrite Hn4. unfold n. lia.
    + done.
    + by rewrite Hc4.
    + by rewrite Et.
  - intros x (Hx0 & Hx1 & Hx2). split_and!; [done| |]; unfold s3; cbn [hp table set_hp set_table bucket_cnt buckets].
    + rewrite free_cells, decide_False; [by apply Hk4, Hk2, Hkeep|].
      by replace (Z.to_nat (2 * bucket_cnt (table s))) with (2 * length bs)%nat in Hx2 by lia.
    + replace (Z.to_nat (2 * 2 ^ k)) with (2 * n)%nat by lia. intros Hin.
      destruct (Hcells x Hin) as [Hc0 _]. destruct Hx1 as [v Hv]. congruence.
Qed.

(** The search of the bucket an element belongs to. *)
Lemma search_ok s bs es e :
  table_at s bs es →
  wp (find_bucket hash_func e) (λ b s1, s1 = s ∧ ∃ xs,
    let i := place (bucket_cnt (table s)) e in
    bs !! i = Some xs ∧ b = buckets (table s) + 16 * Z.of_nat i ∧
    wp (find_elem less b e) (λ r s2, s2 = s ∧
      ((r = NULL ∧ ∀ x, x ∈ es → eqv x e = false) ∨
       ∃ xs1 xs2, xs = xs1 ++ r :: xs2 ∧ r ∈ es ∧ eqv r e = true)) s) s.
Proof.
  intros [Hl (k & Hk & Ek) Hlen Hp Hes _]. eapply find_bucket_ok; [done|done|]. split; [done|]. rewrite Ek in *.
  destruct (lookup_lt_is_Some_2 bs (place (2 ^ k) e)) as [xs Hi]; [pose proof (place_lt k e); lia|].
  exists xs. split_and!; [done..|]. destruct (bucket_lists_at (buckets (table s)) bs _ xs Hi) as (A & B & E & _).
  rewrite E in Hl. apply lists_ok_at in Hl as (Hx & _).
  eapply wp_mono; [by apply find_elem_ok|]. intros r s2 [-> [[-> Hno]|(xs1 & xs2 & -> & Hr)]]; (split; [done|]).
  - left. split; [done|]. intros x Hx'. destruct (eqv x e) eqn:Ex; [|done]. exfalso.
    rewrite Hes in Hx'. apply elem_of_buckets in Hx' as (ys & Hxy & Hys).
    apply list_elem_of_lookup in Hys as [j Hj]. pose proof (Hp _ _ _ Hj Hxy) as Ep.
    unfold place in *. rewrite (hash_eqv _ _ Ex) in Ep. rewrite Ep, Hj in Hi. injection Hi as ->.
    rewrite Forall_forall in Hno. specialize (Hno x Hxy). congruence.
  - right. exists xs1, xs2. split_and!; [done| |done]. rewrite Hes. apply elem_of_buckets.
    exists (xs1 ++ r :: xs2). split; [set_solver|]. by eapply list_elem_of_lookup_2.
Qed.

Lemma insert_elem_ok s bs es e xs :
  let i := place (bucket_cnt (table s)) e in
  table_at s bs es → bs !! i = Some xs → e ∉ es → outside s e → Z.of_nat (length es) < 2 ^ 28 →
  wp (insert_elem (buckets (table s) + 16 * Z.of_nat i) e) (λ _ s',
    table_at s' (<[i := e :: xs]> bs) (e :: es) ∧ ∀ x, outside s x → outside s' x) s.
Proof.
  intros i [Hl Hpow Hlen Hp Hes Hcnt] Hi Hni (H0 & Hs & Hc) Hsmall. unfold insert_elem, on_heap. wp_go.
  rewrite wp_zoom. cbn [hp set_table].
  destruct (bucket_lists_at (buckets (table s)) bs i xs Hi) as (A & B & E & E').
  assert (e ∉ all_nodes (bucket_lists (buckets (table s)) bs)) as Hn.
  { rewrite bucket_elem, <-Hes. replace (2 * length bs)%nat with (Z.to_nat (2 * bucket_cnt (table s))) by lia.
    by intros [?|?]. }
  rewrite E in Hl, Hn. eapply wp_mono; [by apply lists_push|]. intros [] h' [Hl' Hk]. split.
  - split; cbn [hp table set_hp set_table elem_cnt bucket_cnt buckets].
    + by rewrite E'.
    + done.
    + by rewrite length_insert.
    + apply placed_update; [done|]. intros x [->|Hx]%elem_of_cons; [done|]. by eapply Hp.
    + by rewrite (concat_put _ _ _ _ Hi), Hes.
    + rewrite Hcnt, u32_id by (unfold is_u32; lia). simpl. lia.
  - intros x (? & ? & ?). split_and!; [done|by apply Hk|done].
Qed.

Lemma remove_elem_ok s bs es e i xs1 xs2 :
  table_at s bs es → bs !! i = Some (xs1 ++ e :: xs2) → Z.of_nat (length es) < 2 ^ 28 →
  wp (remove_elem e) (λ _ s', ∃ es', es ≡ₚ e :: es' ∧
    table_at s' (<[i := xs1 ++ xs2]> bs) es' ∧ table s' = mk_hash (elem_cnt (table s) - 1) (bucket_cnt (table s)) (buckets (table s)) ∧
    ∀ x, outside s x → outside s' x) s.
Proof.
  intros [Hl Hpow Hlen Hp Hes Hcnt] Hi Hsmall. unfold remove_elem, on_heap. wp_go.
  rewrite wp_zoom. cbn [hp set_table].
  destruct (bucket_lists_at (buckets (table s)) bs i _ Hi) as (A & B & E & E').
  rewrite E in Hl. eapply wp_mono; [by apply lists_remove|]. intros r h' (Hl' & Hk & _). wp_go.
  exists (concat (<[i := xs1 ++ xs2]> bs)). pose proof (concat_take _ _ _ _ _ Hi) as Hc.
  assert (length es = S (length (concat (<[i := xs1 ++ xs2]> bs)))) as Hlen'.
  { rewrite Hes, Hc. done. }
  assert (u32 (elem_cnt (table s) - 1) = elem_cnt (table s) - 1) as Eu by (apply u32_id; unfold is_u32; lia).
  split_and!; [by rewrite Hes| |cbn [table set_hp set_table]; by rewrite Eu|].
  - split; cbn [hp table set_hp set_table elem_cnt bucket_cnt buckets].
    + by rewrite E'.
    + done.
    + by rewrite length_insert.
    + apply placed_update; [done|]. intros x Hx. eapply Hp; [done|]. set_solver.
    + done.
    + rewrite Eu. lia.
  - intros x (? & ? & ?). split_and!; [done|by apply Hk|done].
Qed.

(** ** The table as a set *)

(** The table holds the elements [X], no two of them equal. *)
Definition table_set (s : state) (X : gset Z) : Prop :=
  (∃ bs es, table_at s bs es ∧ X = list_to_set es) ∧
  ∀ x y, x ∈ X → y ∈ X → eqv x y = true → x = y.

(** The element of [X] that equals [e]. *)
Definition equal_to (X : gset Z) (e : Z) : option Z :=
  head (elements (filter (λ x, eqv x e = true) X)).

Lemma equal_to_none (X : gset Z) e : (∀ x, x ∈ X → eqv x e = false) → equal_to X e = None.
Proof.
  intros Hno. unfold equal_to. assert (filter (λ x, eqv x e = true) X = ∅) as ->; [|by rewrite elements_empty].
  apply set_eq. intros x. rewrite elem_of_filter. split; [|set_solver]. intros [E Hx]. by rewrite Hno in E.
Qed.

Lemma equal_to_some X e r :
  (∀ x y, x ∈ X → y ∈ X → eqv x y = true → x = y) → r ∈ X → eqv r e = true → equal_to X e = Some r.
Proof.
  intros Hd Hr He. unfold equal_to.
  assert (filter (λ x, eqv x e = true) X = {[r]}) as ->; [|by rewrite elements_singleton].
  apply set_eq. intros x. rewrite elem_of_filter, elem_of_singleton. split; [|by intros ->].
  intros [Hx HX]. apply Hd; [done|done|]. rewrite eqv_sym in He. by eapply eqv_trans.
Qed.

Lemma table_nodup s bs es : table_at s bs es → NoDup es.
Proof.
  intros [[_ Hn] _ _ _ Hes _]. rewrite bucket_nodes in Hn. apply NoDup_app in Hn as (_ & _ & Hn).
  by rewrite Hes.
Qed.

Lemma table_size s bs es : table_at s bs es → size (list_to_set es : gset Z) = length es.
Proof. intros Ht. apply size_list_to_set. by eapply table_nodup. Qed.

(** No element of the table is the null pointer. *)
Lemma table_nonnull s bs es x : table_at s bs es → x ∈ es → x ≠ NULL.
Proof.
  intros [Hl _ _ _ Hes _] Hx. eapply lists_nonnull; [exact Hl|]. rewrite bucket_elem, <-Hes. by right.
Qed.

Lemma distinct_insert (X : gset Z) e :
  (∀ x y, x ∈ X → y ∈ X → eqv x y = true → x = y) → (∀ x, x ∈ X → eqv x e = false) →
  ∀ x y, x ∈ {[e]} ∪ X → y ∈ {[e]} ∪ X → eqv x y = true → x = y.
Proof.
  intros Hd He x y [->%elem_of_singleton|Hx]%elem_of_union [->%elem_of_singleton|Hy]%elem_of_union E;
    [done| | |by apply Hd].
  - rewrite eqv_sym, He in E by done. done.
  - by rewrite He in E.
Qed.

(** [rehash] in the set view. *)
Lemma rehash_set s s0 (X : gset Z) bs es :
  table_at s bs es → X = list_to_set es → (∀ x y, x ∈ X → y ∈ X → eqv x y = true → x = y) →
  Z.of_nat (size X) < 2 ^ 28 → (∀ x, outside s0 x → outside s x) →
  wp (rehash hash_func alloc junk) (λ _ s', table_set s' X ∧ ∀ x, outside s0 x → outside s' x) s.
Proof.
  intros Ht -> Hd Hn Ho. rewrite (table_size _ _ _ Ht) in Hn.
  eapply wp_mono; [by apply (rehash_ok s bs es)|]. intros [] s' [(bs' & Ht') Ho'].
  split; [split; [by exists bs', es|done]|]. auto.
Qed.

Inductive request := Insert (e : Z) | Replace (e : Z) | Find (e : Z) | Delete (e : Z).

Definition serve (r : request) : M state Z :=
  match r with
  | Insert e => hash_insert hash_func less alloc junk e
  | Replace e => hash_replace hash_func less alloc junk e
  | Find e => hash_find hash_func less e
  | Delete e => hash_delete hash_func less alloc junk e
  end.

(** The same on a set. *)
Definition set_step (X : gset Z) (r : request) : Z * gset Z :=
  match r with
  | Insert e => match equal_to X e with Some x => (x, X) | None => (NULL, {[e]} ∪ X) end
  | Replace e => match equal_to X e with
                 | Some x => (x, {[e]} ∪ X ∖ {[x]})
                 | None => (NULL, {[e]} ∪ X)
                 end
  | Find e => (default NULL (equal_to X e), X)
  | Delete e => match equal_to X e with Some x => (x, X ∖ {[x]}) | None => (NULL, X) end
  end.

(** Elements put into the table are cells of their own. *)
Definition valid (s : state) (r : request) : Prop :=
  match r with Insert e | Replace e => outside s e | _ => True end.

Definition step_ok (s : state) (X : gset Z) (r : request) : Prop :=
  wp (serve r) (λ v s', v = (set_step X r).1 ∧ table_set s' (set_step X r).2 ∧
    ∀ x, outside s x → outside s' x) s.

Lemma find_step s X e : table_set s X → step_ok s X (Find e).
Proof.
  intros [(bs & es & Ht & ->) Hd]. unfold step_ok. cbn [serve set_step fst snd]. unfold hash_find. wp_unbind.
  eapply wp_mono; [by apply search_ok|]. intros b s1 (-> & xs & Hi & -> & Hf).
  eapply wp_mono; [exact Hf|]. intros r s2 (-> & Hr). split_and!; [|by split; [exists bs, es|]|done].
  destruct Hr as [[-> Hno]|(xs1 & xs2 & _ & Hr & He)].
  - rewrite equal_to_none; [done|]. intros x Hx%elem_of_list_to_set. auto.
  - by rewrite (equal_to_some _ e r) by (done || by apply elem_of_list_to_set).
Qed.

Lemma insert_step s X e :
  table_set s X → outside s e → Z.of_nat (size X) + 1 < 2 ^ 28 → step_ok s X (Insert e).
Proof.
  intros [(bs & es & Ht & ->) Hd] Ho Hn. unfold step_ok. cbn [serve set_step]. unfold hash_insert. wp_unbind.
  pose proof (table_size _ _ _ Ht) as Hsz. rewrite Hsz in Hn.
  eapply wp_mono; [by apply search_ok|]. intros b s1 (-> & xs & Hi & -> & Hf). wp_unbind.
  eapply wp_mono; [exact Hf|]. intros r s2 (-> & [[-> Hno]|(xs1 & xs2 & _ & Hr & He)]).
  - assert (∀ x, x ∈ (list_to_set es : gset Z) → eqv x e = false) as Hno'
      by (intros x Hx%elem_of_list_to_set; auto).
    rewrite equal_to_none by done. cbn [fst snd]. rewrite Z.eqb_refl. wp_unbind.
    assert (e ∉ es) as Hni by (intros Hin; specialize (Hno e Hin); by rewrite eqv_refl in Hno).
    eapply wp_mono; [by apply (insert_elem_ok s bs es); [| | | |lia]|]. intros [] s3 [Ht3 Ho3]. wp_unbind.
    eapply wp_mono; [eapply (rehash_set s3 s ({[e]} ∪ list_to_set es)); [exact Ht3|done|..|exact Ho3]|].
    + by apply distinct_insert.
    + change ({[e]} ∪ list_to_set es) with (list_to_set (e :: es) : gset Z).
      rewrite (table_size _ _ _ Ht3). simpl. lia.
    + intros [] s4 ?. by wp_go.
  - rewrite (equal_to_some _ e r) by (done || by apply elem_of_list_to_set). cbn [fst snd].
    rewrite (proj2 (Z.eqb_neq r NULL)) by (by eapply table_nonnull). wp_go.
    eapply wp_mono; [eapply (rehash_set s s (list_to_set es)); [exact Ht|done|done|rewrite Hsz; lia|done]|].
    intros [] s4 ?. by wp_go.
Qed.

(** Taking one element out of the set. *)
Lemma list_to_set_take es r es' :
  NoDup es → es ≡ₚ r :: es' → (list_to_set es' : gset Z) = list_to_set es ∖ {[r]} ∧ r ∉ es'.
Proof.
  intros Hn E. rewrite E in Hn. apply NoDup_cons in Hn as [Hr _]. split; [|done].
  assert (∀ x, x ∈ es ↔ x ∈ r :: es') as Hm by (intros x; by rewrite E).
  apply set_eq. intros x. rewrite elem_of_difference, !elem_of_list_to_set, elem_of_singleton, Hm, elem_of_cons.
  split; [|naive_solver]. intros Hx. split; [by right|]. by intros ->.
Qed.

Lemma delete_step s X e :
  table_set s X → Z.of_nat (size X) < 2 ^ 28 → step_ok s X (Delete e).
Proof.
  intros [(bs & es & Ht & ->) Hd] Hn. unfold step_ok. cbn [serve set_step]. unfold hash_delete. wp_unbind.
  pose proof (table_size _ _ _ Ht) as Hsz. rewrite Hsz in Hn.
  eapply wp_mono; [by apply search_ok|]. intros b s1 (-> & xs & Hi & -> & Hf). wp_unbind.
  eapply wp_mono; [exact Hf|]. intros r s2 (-> & [[-> Hno]|(xs1 & xs2 & -> & Hr & He)]).
  - rewrite equal_to_none by (intros x Hx%elem_of_list_to_set; auto). rewrite Z.eqb_refl. simpl. wp_go.
    split_and!; [done|by split; [exists bs, es|]|done].
  - rewrite (equal_to_some _ e r) by (done || by apply elem_of_list_to_set). cbn [fst snd].
    rewrite (proj2 (Z.eqb_neq r NULL)) by (by eapply table_nonnull). cbn [negb]. wp_unbind.
    eapply wp_mono; [by apply (remove_elem_ok s bs es r (place (bucket_cnt (table s)) e) xs1 xs2)|].
    intros [] s3 (es' & Ep & Ht3 & _ & Ho3).
    destruct (list_to_set_take es r es' (table_nodup _ _ _ Ht) Ep) as [Es _].
    eapply wp_mono; [eapply (rehash_set s3 s (list_to_set es ∖ {[r]})); [exact Ht3|by rewrite Es|..|exact Ho3]|].
    + intros x y Hx Hy. apply Hd; set_solver.
    + rewrite <-Es, (table_size _ _ _ Ht3). rewrite Ep in Hn. simpl in Hn. lia.
    + intros [] s4 ?. by wp_go.
Qed.

Lemma replace_step s X e :
  table_set s X → outside s e → Z.of_nat (size X) + 1 < 2 ^ 28 → step_ok s X (Replace e).
Proof.
  intros [(bs & es & Ht & ->) Hd] Ho Hn. unfold step_ok. cbn [serve set_step]. unfold hash_replace. wp_unbind.
  pose proof (table_size _ _ _ Ht) as Hsz. rewrite Hsz in Hn.
  eapply wp_mono; [by apply search_ok|]. intros b s1 (-> & xs & Hi & -> & Hf). wp_unbind.
  eapply wp_mono; [exact Hf|]. intros r s2 (-> & [[-> Hno]|(xs1 & xs2 & -> & Hr & He)]).
  - assert (∀ x, x ∈ (list_to_set es : gset Z) → eqv x e = false) as Hno'
      by (intros x Hx%elem_of_list_to_set; auto).
    rewrite equal_to_none by done. cbn [fst snd]. rewrite Z.eqb_refl. cbn [negb]. wp_go.
    assert (e ∉ es) as Hni by (intros Hin; specialize (Hno e Hin); by rewrite eqv_refl in Hno).
    eapply wp_mono; [by apply (insert_elem_ok s bs es); [| | | |lia]|]. intros [] s3 [Ht3 Ho3]. wp_unbind.
    eapply wp_mono; [eapply (rehash_set s3 s ({[e]} ∪ list_to_set es)); [exact Ht3|done|..|exact Ho3]|].
    + by apply distinct_insert.
    + change ({[e]} ∪ list_to_set es) with (list_to_set (e :: es) : gset Z).
      rewrite (table_size _ _ _ Ht3). simpl. lia.
    + intros [] s4 ?. by wp_go.
  - rewrite (equal_to_some _ e r) by (done || by apply elem_of_list_to_set). cbn [fst snd].
    rewrite (proj2 (Z.eqb_neq r NULL)) by (by eapply table_nonnull). cbn [negb]. wp_unbind.
    eapply wp_mono; [by apply (remove_elem_ok s bs es r (place (bucket_cnt (table s)) e) xs1 xs2); [| |lia]|].
    intros [] s3 (es' & Ep & Ht3 & Et & Ho3).
    destruct (list_to_set_take es r es' (table_nodup _ _ _ Ht) Ep) as [Es Hr'].
    assert (∀ x, x ∈ es' → x ∈ es ∧ x ≠ r) as Hsub.
    { intros x Hx. rewrite Ep. split; [by right|]. by intros ->. }
    assert (e ∉ es') as Hni.
    { intros [Hin Hne]%Hsub. apply Hne. symmetry. apply Hd; [by apply elem_of_list_to_set..|done]. }
    assert (Z.of_nat (length es') + 1 < 2 ^ 28) by (rewrite Ep in Hn; simpl in Hn; lia).
    replace (buckets (table s)) with (buckets (table s3)) by by rewrite Et.
    replace (bucket_cnt (table s)) with (bucket_cnt (table s3)) in * by by rewrite Et. wp_unbind.
    eapply wp_mono; [eapply (insert_elem_ok s3 _ es' e (xs1 ++ xs2)); [exact Ht3| |done|by apply Ho3|lia]|].
    { apply list_lookup_insert_eq. by apply lookup_lt_Some in Hi. }
    intros [] s4 [Ht4 Ho4]. wp_unbind.
    eapply wp_mono; [eapply (rehash_set s4 s ({[e]} ∪ list_to_set es ∖ {[r]})); [exact Ht4|by rewrite <-Es|..]|].
    + apply distinct_insert; [intros x y Hx Hy; apply Hd; set_solver|].
      intros x Hx. destruct (eqv x e) eqn:Ex; [|done]. exfalso.
      apply elem_of_difference in Hx as [Hx Hne]. apply Hne, elem_of_singleton. apply Hd; [done|by apply elem_of_list_to_set|].
      rewrite eqv_sym in He. by eapply eqv_trans.
    + rewrite <-Es. change ({[e]} ∪ list_to_set es') with (list_to_set (e :: es') : gset Z).
      rewrite (table_size _ _ _ Ht4). simpl. lia.
    + auto.
    + intros [] s5 ?. by wp_go.
Qed.

Lemma request_ok s X r :
  table_set s X → valid s r → Z.of_nat (size X) + 1 < 2 ^ 28 → step_ok s X r.
Proof.
  intros Ht Hv Hn. destruct r; [by apply insert_step|by apply replace_step|by apply find_step|].
  apply delete_step; [done|lia].
Qed.

Lemma set_step_size X r : (size (set_step X r).2 ≤ size X + 1)%nat.
Proof.
  assert (∀ (Y : gset Z) e, size ({[e]} ∪ Y) ≤ size Y + 1)%nat as Hu.
  { intros Y e. rewrite size_union_alt, size_singleton.
    assert (size (Y ∖ {[e]}) ≤ size Y)%nat by (apply subseteq_size; set_solver). lia. }
  assert (∀ x, size (X ∖ {[x]}) ≤ size X)%nat as Hd by (intros x; apply subseteq_size; set_solver).
  destruct r as [e|e|e|e]; simpl; [destruct (equal_to X e)..| |destruct (equal_to X e)]; simpl;
    try lia; try apply Hu.
  - etrans; [apply Hu|]. specialize (Hd z). lia.
  - specialize (Hd z). lia.
Qed.

(** A new table is empty, if there is memory for it. *)
Lemma hash_init_ok s :
  wp (hash_init alloc junk) (λ r s', r = true →
    table_set s' ∅ ∧ ∀ x, x ≠ NULL → is_Some (hp s !! x) → outside s' x) s.
Proof.
  unfold hash_init. wp_go. rewrite u32_id by (unfold is_u32; lia).
  eapply wp_mono; [apply malloc_ok|]. intros nb s1 (Et & Hkeep & Hsame & Hnew). wp_go.
  cbn [hp set_table] in Hkeep, Hsame, Hnew.
  destruct (Z.eqb_spec nb NULL) as [->|Hnn]; simpl negb; cbv iota; [by wp_go|].
  destruct (Hnew Hnn) as [Hpos Hcells]. change (Z.to_nat (16 * 4 / 8)) with (2 * 4)%nat in Hcells.
  unfold hash_clear. wp_go. cbn [table set_table bucket_cnt buckets]. change (Z.to_nat 4) with 4%nat.
  eapply wp_mono; [apply (init_buckets_ok (set_table (mk_hash 0 4 nb) s1) [] nb 4)|].
  { split; [constructor|apply NoDup_nil_2]. }
  { done. }
  { intros c Hc. split; [by apply Hcells|]. apply not_elem_of_nil. }
  intros [] s2 (h2 & -> & Hl2 & Hk2). wp_go. cbn [table set_table set_hp bucket_cnt buckets]. intros _. split.
  - split; [|set_solver]. exists (replicate 4 []), []. split; [|done].
    split; cbn [hp table set_table set_hp bucket_cnt buckets elem_cnt]; [exact Hl2|by exists 2|done| |done|done].
    intros i xs x Hi. apply lookup_replicate in Hi as [-> _]. by intros ?%not_elem_of_nil.
  - intros x Hx Hs. split_and!; [done|apply Hk2; by apply Hkeep|]. cbn [table set_table set_hp bucket_cnt buckets].
    intros Hin. destruct (Hcells x Hin) as [Hc0 _]. destruct Hs as [v Hv]. congruence.
Qed.

Fixpoint serve_all (rs : list request) : M state (list Z) :=
  match rs with
  | [] => mret []
  | r :: rs => v ← serve r; vs ← serve_all rs; mret (v :: vs)
  end.
Fixpoint set_run (X : gset Z) (rs : list request) : list Z * gset Z :=
  match rs with
  | [] => ([], X)
  | r :: rs => let '(v, X') := set_step X r in let '(vs, X'') := set_run X' rs in (v :: vs, X'')
  end.

Lemma requests_ok s X rs :
  table_set s X → Forall (valid s) rs → Z.of_nat (size X + length rs) < 2 ^ 28 →
  wp (serve_all rs) (λ vs s', vs = (set_run X rs).1 ∧ table_set s' (set_run X rs).2 ∧
    ∀ x, outside s x → outside s' x) s.
Proof.
  revert s X. induction rs as [|r rs IH]; intros s X Ht Hv Hn; cbn [serve_all set_run]; [by wp_go|].
  apply Forall_cons in Hv as [Hr Hv]. simpl in Hn. wp_unbind.
  pose proof (set_step_size X r) as Hsz.
  eapply wp_mono; [apply (request_ok s X r); [done|done|lia]|]. intros v s1 (-> & Ht1 & Ho1). wp_unbind.
  destruct (set_step X r) as [v X']. cbn [fst snd] in *.
  eapply wp_mono; [apply (IH s1 X' Ht1); [|lia]|].
  { eapply Forall_impl; [exact Hv|]. intros [e|e|e|e]; simpl; auto. }
  intros vs s2 (-> & Ht2 & Ho2). wp_go. destruct (set_run X' rs) as [vs X'']. cbn [fst snd] in *.
  split_and!; [done|done|auto].
Qed.
End correct.
