(* ===== verification/HashTheorems.v ===== *)
(** Hash tables ([lib/kernel/hash.c]) as sets of elements. *)
From Stdlib Require Import ZArith Lia.
From stdpp Require Import base tactics option numbers list gmap.
From S2P Require Import Prelude KList Hash.
Import Hash.Ops.

Open Scope Z_scope.

Module Tables.
(** C11: A hash table refines a set of elements: after [hash_init] succeeds, any
    sequence of [hash_insert], [hash_replace], [hash_find] and [hash_delete]
    returns what the same operations on a set return and leaves the table
    holding that set, however often it is rehashed and whichever of the
    allocations for that fail; no call panics or touches memory it should not. *)
Theorem hash_table_refines hash_func less alloc junk `{!Hashing hash_func less alloc} s rs :
  Forall (λ r, match r with Insert e | Replace e => e ≠ NULL ∧ is_Some (hp s !! e) | _ => True end) rs →
  Z.of_nat (length rs) < 2 ^ 28 →
  wp (ok ← hash_init alloc junk;
      if ok : bool then vs ← serve_all hash_func less alloc junk rs; mret (Some vs) else mret None)
    (λ v s', v = None ∨
       (v = Some (set_run less ∅ rs).1 ∧ table_set hash_func less s' (set_run less ∅ rs).2)) s.
Proof.
  intros Hv Hn. wp_unbind. eapply wp_mono; [apply (hash_init_ok hash_func less alloc junk)|].
  intros [] s1 Hok; [|wp_go; by left]. destruct (Hok eq_refl) as [Ht Ho]. wp_unbind.
  eapply wp_mono; [apply (requests_ok hash_func less alloc junk s1 ∅ rs Ht)|].
  - eapply Forall_impl; [exact Hv|]. intros [e|e|e|e]; simpl; naive_solver.
  - rewrite size_empty. lia.
  - intros vs s2 (-> & Ht2 & _). wp_go. by right.
Qed.

(** Elements with the key [x / 16], and an allocator that puts new blocks above
    everything in use and fails at its third call. *)
Definition key_hash (x : Z) : Z := u32 (x / 16).
Definition key_less (x y : Z) : bool := x / 16 <? y / 16.
Definition top (h : heap) : Z := foldr Z.max 0 (elements (dom h)).
Definition bump (n : nat) (h : heap) (b : Z) : Z := if decide (n = 2%nat) then NULL else top h + 8.

Lemma key_eqv x y : eqv key_less x y = true ↔ x / 16 = y / 16.
Proof. unfold eqv, key_less. destruct (Z.ltb_spec (x / 16) (y / 16)), (Z.ltb_spec (y / 16) (x / 16)); simpl; split; lia || done. Qed.

#[local] Instance key_hashing : Hashing key_hash key_less bump.
Proof.
  split.
  - intros x. apply u32_range.
  - intros x y E%key_eqv. unfold key_hash. by rewrite E.
  - intros x. by apply key_eqv.
  - intros x y z E1%key_eqv E2%key_eqv. apply key_eqv. congruence.
  - intros n h b Hne. assert (0 ≤ top h ∧ ∀ x, x ∈ dom h → x ≤ top h) as [Htop Hmax].
    { unfold top. setoid_rewrite <-elem_of_elements. induction (elements (dom h)) as [|y l [IH0 IH]]; simpl.
      - split; [done|]. by intros x ?%not_elem_of_nil.
      - split; [lia|]. intros x [->|Hx%IH]%elem_of_cons; lia. }
    unfold bump in *. destruct (decide (n = 2%nat)); [done|]. split; [lia|].
    intros c (k & _ & ->)%elem_of_cells. apply not_elem_of_dom. intros Hin%Hmax. lia.
Qed.

Definition free_cells : state :=
  mk_state (list_to_map ((λ x, (x, mk_elem 0 0)) <$> [16; 32; 40; 48])) (mk_hash 0 0 0) 0.

(** Inserting two elements with one key, replacing and deleting. *)
Lemma hash_table_refines_witness :
  wp (ok ← hash_init bump (λ _, mk_elem 0 0);
      if ok : bool then
        vs ← serve_all key_hash key_less bump (λ _, mk_elem 0 0)
               [Insert 16; Insert 32; Insert 40; Replace 40; Find 47; Delete 16; Find 16];
        mret (Some vs)
      else mret None)
    (λ v s', v = None ∨ (v = Some [0; 0; 32; 32; 40; 16; 0] ∧ table_set key_hash key_less s' {[40]}))
    free_cells.
Proof.
  pose proof (hash_table_refines key_hash key_less bump (λ _, mk_elem 0 0) free_cells
    [Insert 16; Insert 32; Insert 40; Replace 40; Find 47; Delete 16; Find 16]) as H.
  eapply wp_mono; [apply H|].
  - repeat (apply Forall_cons; split; [first [exact I|split; [discriminate|eexists; vm_compute; reflexivity]]|]). apply Forall_nil_2.
  - done.
  - intros v s' [->|[-> Ht]]; [by left|right]. split; [by vm_compute|].
    replace ({[40]} : gset Z) with (set_run key_less ∅
      [Insert 16; Insert 32; Insert 40; Replace 40; Find 47; Delete 16; Find 16]).2; [exact Ht|].
    apply (bool_decide_unpack _). vm_compute. exact I.
Defined.
End Tables.
