(* ===== verification/Palloc.v ===== *)
(** The page allocator ([threads/palloc.c]) and the address arithmetic of
    [threads/vaddr.h].  Memory is the flat byte memory of [CString] at kernel
    virtual addresses; the bitmap that [init_pool] places at the start of each
    pool is kept as a [bitmap] of its own.  A pool's lock makes its scan and
    flip one step, so a call is one command here. *)
From Stdlib Require Import ZArith Lia.
From stdpp Require Import base tactics option numbers list gmap.
From S2P Require Import Prelude Bitmap CString.

Open Scope Z_scope.

(** * [threads/vaddr.h] *)
Definition PGBITS : Z := 12.
Definition PGSIZE : Z := Z.shiftl 1 PGBITS.
Definition BITMASK (SHIFT CNT : Z) : Z := Z.shiftl (Z.shiftl 1 CNT - 1) SHIFT.
Definition PGMASK : Z := BITMASK 0 PGBITS.
Definition PHYS_BASE : Z := 0xc0000000.

(** [~x] on 32 bits. *)
Definition lnot32 (x : Z) : Z := Z.lxor (2 ^ 32 - 1) x.

Definition pg_ofs (va : Z) : Z := Z.land va PGMASK.
Definition pg_no (va : Z) : Z := Z.shiftr va PGBITS.
Definition pg_round_up (va : Z) : Z := Z.land (u32 (va + PGSIZE - 1)) (lnot32 PGMASK).
Definition pg_round_down (va : Z) : Z := Z.land va (lnot32 PGMASK).

Definition is_user_vaddr (vaddr : Z) : bool := vaddr <? PHYS_BASE.
Definition is_kernel_vaddr (vaddr : Z) : bool := PHYS_BASE <=? vaddr.

Definition ptov {S} (paddr : Z) : M S Z :=
  ASSERT (paddr <? PHYS_BASE);; mret (u32 (paddr + PHYS_BASE)).
Definition vtop {S} (vaddr : Z) : M S Z :=
  ASSERT (is_kernel_vaddr vaddr);; mret (vaddr - PHYS_BASE).

(** * The allocator's state *)

(** [enum palloc_flags]. *)
Definition PAL_ASSERT : Z := 1.
Definition PAL_ZERO : Z := 2.
Definition PAL_USER : Z := 4.
Definition has_flag (flags f : Z) : bool := negb (Z.land flags f =? 0).

Record pool := mk_pool { used_map : bitmap; base : Z }.

(** The two pools, by their address. *)
Inductive pool_id := KernelPool | UserPool.
#[global] Instance pool_id_eq_dec : EqDecision pool_id.
Proof. solve_decision. Defined.

Record machine := mk_machine { ram : mem; kernel_pool : pool; user_pool : pool }.

Definition pool_of (w : pool_id) (s : machine) : pool :=
  match w with KernelPool => kernel_pool s | UserPool => user_pool s end.
Definition set_map (w : pool_id) (b : bitmap) (s : machine) : machine :=
  match w with
  | KernelPool => mk_machine (ram s) (mk_pool b (base (kernel_pool s))) (user_pool s)
  | UserPool => mk_machine (ram s) (kernel_pool s) (mk_pool b (base (user_pool s)))
  end.
Definition set_ram (m : mem) (s : machine) : machine :=
  mk_machine m (kernel_pool s) (user_pool s).

(** Outcomes in sequence, for the code that runs before there is a state. *)
#[global] Instance outcome_bind : MBind outcome := λ A B k o,
  match o with
  | Ok a => k a
  | Panic => Panic
  | Undef => Undef
  | NoFuel => NoFuel
  end.

Module Ops.
Import Bitmap.Ops.

(** A bitmap operation on a pool's map, and one on memory. *)
Definition on_map {A} (w : pool_id) (m : M bitmap A) : M machine A :=
  zoom (λ s, used_map (pool_of w s)) (set_map w) m.
Definition on_ram {A} (m : M mem A) : M machine A := zoom ram set_ram m.

(** [sizeof (struct bitmap)] is 8. *)
Definition bitmap_buf_size (bit_cnt : Z) : Z := u32 (8 + byte_cnt bit_cnt).

(** [words] is what the array after the structure held. *)
Definition bitmap_create_in_buf (bit_cnt : Z) (words : list Z) (block_size : Z) : outcome bitmap :=
  if bitmap_buf_size bit_cnt <=? block_size then bitmap_create bit_cnt words else Panic.

(** The pool at [start] with [page_cnt] pages; [held] gives what [n] words of
    the map's storage held. *)
Definition init_pool (held : Z → list Z) (start page_cnt : Z) : outcome pool :=
  let bm_pages := DIV_ROUND_UP (bitmap_buf_size page_cnt) PGSIZE in
  if page_cnt <? bm_pages then Panic else
  let page_cnt := page_cnt - bm_pages in
  b ← bitmap_create_in_buf page_cnt (held (elem_cnt page_cnt)) (u32 (bm_pages * PGSIZE));
  Ok (mk_pool b (u32 (start + bm_pages * PGSIZE))).

(** [kend] is the linker's [_end]. *)
Definition palloc_init (held : Z → list Z) (kend ram_pages user_page_limit : Z) (m : mem) :
    outcome machine :=
  let free_start := pg_round_up kend in
  '(free_end, _) ← ptov (u32 (ram_pages * PGSIZE)) tt;
  let free_pages := u32 (free_end - free_start) / PGSIZE in
  let user_pages := free_pages / 2 in
  let user_pages := if user_page_limit <? user_pages then user_page_limit else user_pages in
  let kernel_pages := free_pages - user_pages in
  k ← init_pool held free_start kernel_pages;
  u ← init_pool held (u32 (free_start + kernel_pages * PGSIZE)) user_pages;
  Ok (mk_machine m k u).

Definition palloc_get_multiple (flags page_cnt : Z) : M machine Z :=
  let w := if has_flag flags PAL_USER then UserPool else KernelPool in
  if page_cnt =? 0 then mret NULL else
  page_idx ← on_map w (bitmap_scan_and_flip 0 page_cnt false);
  p ← gets (pool_of w);
  let pages := if negb (page_idx =? BITMAP_ERROR)
               then u32 (base p + PGSIZE * page_idx) else NULL in
  (if negb (pages =? NULL) then
     if has_flag flags PAL_ZERO then
       on_ram (CString.Ops.memset pages 0 (u32 (PGSIZE * page_cnt)));; mret tt
     else mret tt
   else if has_flag flags PAL_ASSERT then panic else mret tt);;
  mret pages.

Definition palloc_get_page (flags : Z) : M machine Z := palloc_get_multiple flags 1.

Definition page_from_pool (w : pool_id) (page : Z) : M machine bool :=
  p ← gets (pool_of w);
  let page_no := pg_no page in
  let start_page := pg_no (base p) in
  n ← on_map w bitmap_size;
  let end_page := start_page + n in
  mret ((start_page <=? page_no) && (page_no <? end_page)).

(** The choice of the pool in [palloc_free_multiple]. *)
Definition pool_holding (pages : Z) : M machine pool_id :=
  in_kernel ← page_from_pool KernelPool pages;
  if in_kernel : bool then mret KernelPool else
  in_user ← page_from_pool UserPool pages;
  if in_user : bool then mret UserPool else panic.

Definition palloc_free_multiple (pages page_cnt : Z) : M machine unit :=
  ASSERT (pg_ofs pages =? 0);;
  if (pages =? NULL) || (page_cnt =? 0) then mret tt else
  w ← pool_holding pages;
  p ← gets (pool_of w);
  let page_idx := u32 (pg_no pages - pg_no (base p)) in
  on_ram (CString.Ops.memset pages 0xcc (u32 (PGSIZE * page_cnt)));;
  all ← on_map w (bitmap_all page_idx page_cnt);
  ASSERT all;;
  on_map w (bitmap_set_multiple page_idx page_cnt false).

Definition palloc_free_page (page : Z) : M machine unit := palloc_free_multiple page 1.
End Ops.

(** * Address arithmetic *)
Lemma PGSIZE_eq : PGSIZE = 4096. Proof. done. Qed.

Lemma pg_ofs_eq va : pg_ofs va = va mod 4096.
Proof. unfold pg_ofs. change PGMASK with (Z.ones 12). by rewrite Z.land_ones by lia. Qed.

Lemma pg_no_eq va : pg_no va = va / 4096.
Proof. unfold pg_no, PGBITS. by rewrite Z.shiftr_div_pow2 by lia. Qed.

Lemma pg_round_down_eq va : is_u32 va → pg_round_down va = 4096 * (va / 4096).
Proof.
  intros Hva. unfold pg_round_down, lnot32. change PGMASK with (Z.ones 12).
  change 4096 with (2 ^ 12). rewrite Z.mul_comm, <-Z.shiftl_mul_pow2, <-Z.shiftr_div_pow2 by lia.
  apply Z.bits_inj'. intros j Hj. change (2 ^ 32 - 1) with (Z.ones 32).
  rewrite Z.land_spec, Z.lxor_spec, !Z.testbit_ones_nonneg by lia.
  destruct (Z.ltb_spec j 12).
  - rewrite Z.shiftl_spec_low by lia. destruct (Z.ltb_spec j 32); [|lia]. apply andb_false_r.
  - rewrite Z.shiftl_spec, Z.shiftr_spec by lia. replace (j - 12 + 12) with j by lia.
    destruct (Z.ltb_spec j 32); simpl; [apply andb_true_r|].
    apply is_u32_bits in Hva as [_ Hva]. by rewrite Hva by lia.
Qed.

Lemma pg_round_up_eq va : 0 ≤ va → va + 4095 < 2 ^ 32 →
  pg_round_up va = 4096 * ((va + 4095) / 4096).
Proof.
  intros. unfold pg_round_up. rewrite PGSIZE_eq, u32_id by (unfold is_u32; lia).
  replace (va + 4096 - 1) with (va + 4095) by lia.
  apply (pg_round_down_eq (va + 4095)). unfold is_u32. lia.
Qed.

Lemma ptov_ok {S} (s : S) pa : 0 ≤ pa < 2 ^ 30 → ptov pa s = Ok (pa + PHYS_BASE, s).
Proof.
  intros Hpa. unfold ptov. rewrite (proj2 (Z.ltb_lt _ _)) by (unfold PHYS_BASE; lia).
  rewrite u32_id by (unfold is_u32, PHYS_BASE; lia). done.
Qed.

Lemma vtop_ok {S} (s : S) va : PHYS_BASE ≤ va → vtop va s = Ok (va - PHYS_BASE, s).
Proof. intros Hva. unfold vtop, is_kernel_vaddr. by rewrite (proj2 (Z.leb_le _ _)) by done. Qed.

Lemma wp_ptov {S} (s : S) pa Q : 0 ≤ pa < 2 ^ 30 → Q (pa + PHYS_BASE) s → wp (ptov pa) Q s.
Proof. intros Hpa HQ. apply wp_ok. exists (pa + PHYS_BASE), s. by rewrite ptov_ok. Qed.
Lemma wp_vtop {S} (s : S) va Q : PHYS_BASE ≤ va → Q (va - PHYS_BASE) s → wp (vtop va) Q s.
Proof. intros Hva HQ. apply wp_ok. exists (va - PHYS_BASE), s. by rewrite vtop_ok. Qed.

(** * The invariant *)

(** A pool's map is well formed and its pages are page-aligned kernel memory
    that is there. *)
Record pool_wf (m : mem) (p : pool) : Prop := {
  pool_map : wf (used_map p);
  pool_align : base p mod 4096 = 0;
  pool_low : PHYS_BASE ≤ base p;
  pool_high : base p + 4096 * bit_cnt (used_map p) ≤ 2 ^ 32;
  pool_mem : ∀ a, base p ≤ a < base p + 4096 * bit_cnt (used_map p) → is_Some (m !! a) }.

Definition pool_end (p : pool) : Z := base p + 4096 * bit_cnt (used_map p).

Record inv (s : machine) : Prop := {
  inv_pools : ∀ w, pool_wf (ram s) (pool_of w s);
  inv_disjoint : pool_end (kernel_pool s) ≤ base (user_pool s) }.

(** The page at address [a] is handed out. *)
Definition in_use (s : machine) (a : Z) : Prop :=
  ∃ w i, 0 ≤ i < bit_cnt (used_map (pool_of w s)) ∧ a = base (pool_of w s) + 4096 * i ∧
         bit (used_map (pool_of w s)) i = true.

(** [n] pages from [a] on, as addresses. *)
Definition page_in (a n x : Z) : Prop := ∃ i, 0 ≤ i < n ∧ x = a + 4096 * i.

(** What a successful request leaves: the pages [i, i + n) of pool [w] were
    free and are handed out, and nothing but their bytes has changed. *)
Definition marked (w : pool_id) (i n : Z) (v : bool) (s s' : machine) : Prop :=
  0 ≤ i ∧ i + n ≤ bit_cnt (used_map (pool_of w s)) ∧
  Correct.all_eq (used_map (pool_of w s)) i n (negb v) ∧
  set_range (used_map (pool_of w s)) (used_map (pool_of w s')) i n v ∧
  (∀ w', base (pool_of w' s') = base (pool_of w' s)) ∧
  (∀ w', w' ≠ w → pool_of w' s' = pool_of w' s) ∧
  changes_at (base (pool_of w s) + 4096 * i) (4096 * n) (ram s) (ram s').

Definition pool_for (flags : Z) : pool_id :=
  if has_flag flags PAL_USER then UserPool else KernelPool.

(** No [n] free pages in a row in pool [w]. *)
Definition exhausted (w : pool_id) (n : Z) (s : machine) : Prop :=
  ∀ i, 0 ≤ i → i + n ≤ bit_cnt (used_map (pool_of w s)) →
       ¬ Correct.all_eq (used_map (pool_of w s)) i n false.

Definition got (flags n : Z) (s : machine) (r : Z) (s' : machine) : Prop :=
  (r = NULL ∧ s' = s ∧ (n = 0 ∨ exhausted (pool_for flags) n s)) ∨
  (0 < n ∧ r ≠ NULL ∧ ∃ i, r = base (pool_of (pool_for flags) s) + 4096 * i ∧
     marked (pool_for flags) i n true s s' ∧
     if has_flag flags PAL_ZERO
     then block (ram s') r (replicate (Z.to_nat (4096 * n)) 0)
     else ram s' = ram s).

Section facts.
Implicit Types (s : machine) (w : pool_id).

Lemma memset_ok m a v n :
  0 < a → 0 ≤ n → (∀ x, a ≤ x < a + n → is_Some (m !! x)) →
  wp (CString.Ops.memset a v n) (λ r m', r = a ∧
    block m' a (replicate (Z.to_nat n) (v mod 256)) ∧ changes_at a n m m') m.
Proof.
  intros Ha Hn Hm. unfold CString.Ops.memset.
  wp_assert (rewrite (proj2 (Z.eqb_neq a NULL)) by (unfold NULL; lia); done).
  eapply wp_mono; [apply (wp_for_upto (λ j m', 0 ≤ j ∧
    block m' a (replicate (Z.to_nat j) (v mod 256)) ∧ changes_at a j m m'))|].
  - intros j m' Hj (? & Hb & Hch). destruct (Hm (a + j)) as [x Hx]; [lia|].
    eapply wp_mstore; [rewrite (proj1 Hch) by lia; exact Hx|]. split_and!; [lia| |].
    + replace (Z.to_nat (j + 1)) with (Z.to_nat j + 1)%nat by lia. rewrite replicate_add.
      apply block_app. rewrite length_replicate, Z2Nat.id by lia. split.
      * intros i y Hi. pose proof (lookup_lt_Some _ _ _ Hi) as Hl. rewrite length_replicate in Hl.
        rewrite lookup_insert_ne by lia. by apply Hb.
      * apply block_cons. split; [apply lookup_insert_eq|]. by intros i y Hi.
    + eapply changes_store; [|lia|rewrite (proj1 Hch) by lia; exact Hx].
      destruct Hch as [H1 H2]. split; [|done]. intros y Hy. apply H1. lia.
  - split_and!; [lia|by intros i y Hi|done].
  - intros [] m' (_ & Hb & Hch). rewrite Z.add_0_l, Z2Nat.id in * by lia. by wp_go.
Qed.

Lemma changes_at_refl a n (m : mem) : changes_at a n m m.
Proof. done. Qed.

Lemma changes_mem a n (m m' : mem) x : changes_at a n m m' → is_Some (m !! x) → is_Some (m' !! x).
Proof. intros [_ Hd] Hx. apply elem_of_dom. rewrite Hd. by apply elem_of_dom. Qed.

(** The bytes of a range of memory. *)
Definition bytes_of (m : mem) (a : Z) (n : nat) : list Z :=
  (λ i, m !!! (a + Z.of_nat i)) <$> seq 0 n.

Lemma block_bytes_of (m : mem) a n : (∀ x, a ≤ x < a + Z.of_nat n → is_Some (m !! x)) → block m a (bytes_of m a n).
Proof.
  intros Hr i b Hi. unfold bytes_of in Hi. rewrite list_lookup_fmap in Hi.
  destruct (seq 0 n !! i) as [k|] eqn:Ek; [|done]. simplify_eq/=.
  apply lookup_seq in Ek as [-> Hlt]. destruct (Hr (a + Z.of_nat (0 + i))) as [x Hx]; [lia|].
  simpl in *. by rewrite lookup_total_alt, Hx.
Qed.

Lemma length_bytes_of m a n : length (bytes_of m a n) = n.
Proof. unfold bytes_of. by rewrite length_fmap, length_seq. Qed.

Lemma pool_of_set_map w w' b s :
  pool_of w' (set_map w b s) =
    if decide (w' = w) then mk_pool b (base (pool_of w s)) else pool_of w' s.
Proof. by destruct w, w'. Qed.

Lemma ram_set_map w b s : ram (set_map w b s) = ram s.
Proof. by destruct w. Qed.

(** Marking a range of pages keeps the invariant. *)
Lemma marked_inv w i n v s s' : inv s → marked w i n v s s' → inv s'.
Proof.
  intros [Hp Hd] (Hi & Hn & _ & (Hw & Hc & _) & Hb & Ho & Hch).
  assert (∀ w', bit_cnt (used_map (pool_of w' s')) = bit_cnt (used_map (pool_of w' s))) as Hcnt.
  { intros w'. destruct (decide (w' = w)) as [->|Hne]; [done|]. by rewrite Ho. }
  split.
  - intros w'. pose proof (Hp w') as [H1 H2 H3 H4 H5].
    split; rewrite ?Hb, ?Hcnt; [|done..|].
    + destruct (decide (w' = w)) as [->|Hne]; [done|]. by rewrite Ho.
    + intros a Ha. eapply changes_mem; [done|]. by apply H5.
  - pose proof (Hb KernelPool) as E1. pose proof (Hb UserPool) as E2.
    pose proof (Hcnt KernelPool) as E3. simpl in *. unfold pool_end in *. by rewrite E1, E2, E3.
Qed.

Lemma bit_cnt_small m p : pool_wf m p → 0 ≤ bit_cnt (used_map p) ≤ 2 ^ 18.
Proof.
  intros [[Hc _ _] _ Hl Hh _]. unfold PHYS_BASE in Hl. lia.
Qed.

(** The state after a bitmap operation and a write to the pages it covers. *)
Lemma marked_intro w i n v b m s :
  0 ≤ i → i + n ≤ bit_cnt (used_map (pool_of w s)) →
  Correct.all_eq (used_map (pool_of w s)) i n (negb v) →
  set_range (used_map (pool_of w s)) b i n v →
  changes_at (base (pool_of w s) + 4096 * i) (4096 * n) (ram s) m →
  marked w i n v s (set_map w b (set_ram m s)).
Proof.
  intros ? ? ? ? ?. split_and!; [done..| | | |].
  - rewrite pool_of_set_map, decide_True by done. done.
  - intros w'. rewrite pool_of_set_map. by case_decide; [subst|]; destruct w, s.
  - intros w' Hne. rewrite pool_of_set_map, decide_False by done. by destruct w', s.
  - by rewrite ram_set_map.
Qed.

Lemma set_ram_same s : set_ram (ram s) s = s.
Proof. by destruct s. Qed.
Lemma set_map_ram w b m s : set_ram m (set_map w b s) = set_map w b (set_ram m s).
Proof. by destruct w. Qed.

Lemma page_addr m p i :
  pool_wf m p → 0 ≤ i < bit_cnt (used_map p) →
  u32 (base p + PGSIZE * i) = base p + 4096 * i ∧ base p + 4096 * i ≠ NULL.
Proof.
  intros [_ _ Hl Hh _] Hi. rewrite PGSIZE_eq. unfold NULL, PHYS_BASE in *.
  rewrite u32_id by (unfold is_u32; lia). lia.
Qed.

Lemma palloc_get_multiple_ok flags n s :
  inv s → is_u32 n →
  has_flag flags PAL_ASSERT = false ∨ 0 < n ∧ ¬ exhausted (pool_for flags) n s →
  wp (Ops.palloc_get_multiple flags n) (λ r s', got flags n s r s') s.
Proof.
  intros Hinv Hn Hok. unfold Ops.palloc_get_multiple. fold (pool_for flags).
  set (w := pool_for flags) in *. pose proof (inv_pools _ Hinv w) as Hp.
  pose proof (bit_cnt_small _ _ Hp) as Hc.
  destruct (Z.eqb_spec n 0) as [->|Hn0].
  { apply wp_ret. left. by split_and!; [..|left]. }
  wp_unbind. unfold Ops.on_map. apply wp_zoom. unfold is_u32 in Hn.
  eapply wp_mono; [apply Correct.bitmap_scan_and_flip_ok; [apply Hp|lia..]|].
  intros r b [Hscan Hb]. wp_go. rewrite pool_of_set_map, decide_True by done. cbn [base].
  destruct (Z.eqb_spec r BITMAP_ERROR) as [->|Hr]; cbn [negb].
  - subst b. destruct Hscan as [(Hb0 & Hb1 & _)|[_ Hno]].
    { unfold BITMAP_ERROR in *. lia. }
    assert (exhausted w n s) as Hex by (intros i ? ?; by apply Hno).
    rewrite Z.eqb_refl. cbn [negb].
    destruct Hok as [->|[_ []]]; [|done]. wp_go. left. split_and!; [done| |by right].
    by destruct w, s as [? [] []].
  - destruct Hscan as [(Hr0 & Hr1 & Hfree & _)|[? _]]; [|done].
    destruct (page_addr _ _ r Hp) as [-> Hnn]; [lia|].
    rewrite (proj2 (Z.eqb_neq _ _) Hnn). cbn [negb].
    destruct (has_flag flags PAL_ZERO) eqn:Ez.
    + wp_unbind. apply wp_zoom. rewrite ram_set_map, PGSIZE_eq, u32_id by (unfold is_u32; lia).
      eapply wp_mono; [apply memset_ok|].
      * pose proof (pool_low _ _ Hp). unfold PHYS_BASE in *. lia.
      * lia.
      * intros x Hx. apply (pool_mem _ _ Hp). lia.
      * intros _ m' (_ & Hz & Hch). wp_go. right. split_and!; [lia|done|].
        exists r. rewrite Ez, set_map_ram, ram_set_map. split_and!; [done| |done].
        by apply marked_intro.
    + wp_go. right. split_and!; [lia|done|]. exists r. rewrite Ez, ram_set_map.
      split_and!; [done| |done]. rewrite <-(set_ram_same s) at 2. by apply marked_intro.
Qed.

Lemma page_from_pool_ok w a s Q :
  inv s → Q (bool_decide (base (pool_of w s) / 4096 ≤ a / 4096 <
                          base (pool_of w s) / 4096 + bit_cnt (used_map (pool_of w s)))) s →
  wp (Ops.page_from_pool w a) Q s.
Proof.
  intros Hinv HQ. unfold Ops.page_from_pool, Ops.on_map, Bitmap.Ops.bitmap_size. wp_go.
  apply wp_zoom. wp_go. rewrite !pg_no_eq.
  replace (set_map w (used_map (pool_of w s)) s) with s by (by destruct w, s as [? [] []]).
  match goal with |- Q ?b s => match type of HQ with Q ?c s => replace b with c; [done|] end end.
  apply eq_bool_prop_intro. rewrite bool_decide_spec.
  destruct (Z.leb_spec (base (pool_of w s) / 4096) (a / 4096)),
    (Z.ltb_spec (a / 4096) (base (pool_of w s) / 4096 + bit_cnt (used_map (pool_of w s)))); simpl;
    split; try done; lia.
Qed.

Lemma pool_page_no w i s :
  inv s → (base (pool_of w s) + 4096 * i) / 4096 = base (pool_of w s) / 4096 + i.
Proof. intros _. rewrite Z.mul_comm, Z.div_add by lia. done. Qed.

Lemma pool_holding_ok w i s :
  inv s → 0 ≤ i < bit_cnt (used_map (pool_of w s)) →
  wp (Ops.pool_holding (base (pool_of w s) + 4096 * i)) (λ w' s', w' = w ∧ s' = s) s.
Proof.
  intros Hinv Hi. unfold Ops.pool_holding. wp_unbind. apply page_from_pool_ok; [done|].
  rewrite (pool_page_no w i s Hinv). destruct w.
  - rewrite bool_decide_true by lia. by apply wp_ret.
  - rewrite bool_decide_false.
    2: { pose proof (inv_disjoint _ Hinv) as Hd. unfold pool_end in Hd. simpl in *.
         pose proof (pool_align _ _ (inv_pools _ Hinv KernelPool)) as Ak.
         pose proof (pool_align _ _ (inv_pools _ Hinv UserPool)) as Au. simpl in *.
         pose proof (Z.div_mod (base (kernel_pool s)) 4096).
         pose proof (Z.div_mod (base (user_pool s)) 4096). lia. }
    wp_unbind. apply page_from_pool_ok; [done|]. rewrite (pool_page_no UserPool i s Hinv).
    rewrite bool_decide_true by lia. by apply wp_ret.
Qed.

(** Freeing the pages [i, i + n) of a pool, all of them handed out. *)
Lemma palloc_free_multiple_ok w i n s :
  inv s → 0 ≤ i → 0 < n → i + n ≤ bit_cnt (used_map (pool_of w s)) →
  Correct.all_eq (used_map (pool_of w s)) i n true →
  wp (Ops.palloc_free_multiple (base (pool_of w s) + 4096 * i) n)
    (λ _ s', marked w i n false s s') s.
Proof.
  intros Hinv Hi Hn Hle Hall. pose proof (inv_pools _ Hinv w) as Hp.
  pose proof (bit_cnt_small _ _ Hp) as Hc. unfold Ops.palloc_free_multiple.
  pose proof (pool_low _ _ Hp) as Hlow. pose proof (pool_high _ _ Hp) as Hhigh.
  unfold PHYS_BASE in Hlow.
  wp_assert (rewrite pg_ofs_eq; apply Z.eqb_eq; rewrite Z.mul_comm, Z_mod_plus_full; apply Hp).
  rewrite (proj2 (Z.eqb_neq (base (pool_of w s) + 4096 * i) NULL)) by (unfold NULL; lia).
  rewrite (proj2 (Z.eqb_neq n 0)) by lia. cbn [orb].
  wp_unbind. eapply wp_mono; [apply (pool_holding_ok w i); [done|lia]|].
  intros w' s' [-> ->]. wp_go. rewrite !pg_no_eq, (pool_page_no w i s Hinv).
  replace (base (pool_of w s) / 4096 + i - base (pool_of w s) / 4096) with i by lia.
  rewrite (u32_id i) by (unfold is_u32; lia).
  rewrite PGSIZE_eq, u32_id by (unfold is_u32; lia).
  unfold Ops.on_ram. apply wp_zoom. eapply wp_mono; [apply memset_ok; [lia|lia|]|].
  { intros x Hx. apply (pool_mem _ _ Hp). lia. }
  intros _ m' (_ & _ & Hch). unfold Ops.on_map. wp_unbind. apply wp_zoom.
  assert (pool_of w (set_ram m' s) = pool_of w s) as E by (by destruct w).
  rewrite E. eapply wp_mono; [apply Correct.bitmap_all_ok; [apply Hp|lia..]|].
  intros r b [-> Hr]. rewrite (proj2 Hr Hall). wp_go. apply wp_zoom.
  rewrite pool_of_set_map, decide_True by done. cbn [used_map].
  eapply wp_mono; [apply Correct.bitmap_set_multiple_ok; [apply Hp|lia..]|].
  intros [] b Hb. replace (set_map w b (set_map w (used_map (pool_of w s)) (set_ram m' s)))
    with (set_map w b (set_ram m' s)) by (by destruct w).
  by apply marked_intro.
Qed.
End facts.

(** * Clients

    [live] lists what has been handed out and not given back: the first page
    of each group and its size. *)
Inductive request := Get (flags page_cnt : Z) | Free (k : nat).

Definition serve (r : request) (live : list (Z * Z)) : M machine (list (Z * Z)) :=
  match r with
  | Get flags page_cnt =>
      p ← Ops.palloc_get_multiple flags page_cnt;
      mret (if p =? NULL then live else (p, page_cnt) :: live)
  | Free k =>
      match live !! k with
      | Some (p, page_cnt) => Ops.palloc_free_multiple p page_cnt;; mret (delete k live)
      | None => mret live
      end
  end.

Fixpoint serve_all (rs : list request) (live : list (Z * Z)) : M machine (list (Z * Z)) :=
  match rs with
  | [] => mret live
  | r :: rs => live ← serve r live; serve_all rs live
  end.

(** A request that cannot stop the machine by itself. *)
Definition polite (r : request) : Prop :=
  match r with Get flags n => has_flag flags PAL_ASSERT = false ∧ is_u32 n | Free _ => True end.

(** The group lies in one pool and all its pages are handed out. *)
Definition placed (s : machine) (x : Z * Z) : Prop :=
  ∃ w i, 0 ≤ i ∧ 0 < x.2 ∧ i + x.2 ≤ bit_cnt (used_map (pool_of w s)) ∧
         x.1 = base (pool_of w s) + 4096 * i ∧
         Correct.all_eq (used_map (pool_of w s)) i x.2 true.

Record tracks (live : list (Z * Z)) (s : machine) : Prop := {
  tr_placed : Forall (placed s) live;
  tr_disjoint : ∀ i j x y a, live !! i = Some x → live !! j = Some y → i ≠ j →
    page_in x.1 x.2 a → page_in y.1 y.2 a → False;
  tr_cover : ∀ a, in_use s a → ∃ x, x ∈ live ∧ page_in x.1 x.2 a }.

Section clients.
Implicit Types (s : machine) (live : list (Z * Z)).

(** An address names one page of one pool. *)
Lemma page_inj s w w' i i' :
  inv s → 0 ≤ i < bit_cnt (used_map (pool_of w s)) →
  0 ≤ i' < bit_cnt (used_map (pool_of w' s)) →
  base (pool_of w s) + 4096 * i = base (pool_of w' s) + 4096 * i' → w = w' ∧ i = i'.
Proof.
  intros Hinv Hi Hi' E. pose proof (inv_disjoint _ Hinv) as Hd. unfold pool_end in Hd.
  destruct w, w'; simpl in *; (split; [try done|]; lia).
Qed.

Lemma marked_cnt w i n v s s' w' :
  marked w i n v s s' → bit_cnt (used_map (pool_of w' s')) = bit_cnt (used_map (pool_of w' s)).
Proof.
  intros (_ & _ & _ & (_ & Hc & _) & _ & Ho & _).
  destruct (decide (w' = w)) as [->|Hne]; [done|]. by rewrite Ho.
Qed.

Lemma marked_bit w i n v s s' w' j :
  marked w i n v s s' → 0 ≤ j →
  bit (used_map (pool_of w' s')) j =
    if decide (w' = w ∧ i ≤ j < i + n) then v else bit (used_map (pool_of w' s)) j.
Proof.
  intros (_ & _ & _ & (_ & _ & Hb) & _ & Ho & _) Hj.
  destruct (decide (w' = w)) as [->|Hne].
  - rewrite Hb by done. destruct (Z.leb_spec i j), (Z.ltb_spec j (i + n)); simpl;
      case_decide as Hd; try done; try lia; destruct Hd; split; done || lia.
  - rewrite Ho by done. rewrite decide_False by (by intros [? _]). done.
Qed.

(** The pages in use after marking a range. *)
Lemma in_use_marked w i n v s s' a :
  inv s → marked w i n v s s' →
  in_use s' a ↔ (page_in (base (pool_of w s) + 4096 * i) n a ∧ v = true) ∨
               (¬ page_in (base (pool_of w s) + 4096 * i) n a ∧ in_use s a).
Proof.
  intros Hinv Hm. pose proof Hm as (Hi & Hn & _ & _ & Hbase & _). split.
  - intros (w' & j & Hj & -> & Hb). rewrite (marked_cnt _ _ _ _ _ _ w' Hm) in Hj.
    rewrite Hbase. rewrite (marked_bit _ _ _ _ _ _ w' j Hm) in Hb by lia.
    case_decide as Hd.
    + left. destruct Hd as [-> Hd]. split; [|done]. exists (j - i). lia.
    + right. split; [|by exists w', j]. intros (k & Hk & E).
      destruct (page_inj s w' w j (i + k) Hinv) as [-> ->]; [lia|lia|lia|]. apply Hd. split; [done|lia].
  - intros [[(k & Hk & ->) ->]|[Hno (w' & j & Hj & -> & Hb)]].
    + exists w, (i + k). rewrite (marked_cnt _ _ _ _ _ _ w Hm), Hbase.
      rewrite (marked_bit _ _ _ _ _ _ w (i + k) Hm) by lia.
      rewrite decide_True by (split; [done|lia]). split_and!; [lia..|lia|done].
    + exists w', j. rewrite (marked_cnt _ _ _ _ _ _ w' Hm), Hbase.
      rewrite (marked_bit _ _ _ _ _ _ w' j Hm) by lia. split_and!; [lia..|done|].
      rewrite decide_False; [done|]. intros [-> Hd]. apply Hno. exists (j - i). lia.
Qed.

(** A group that no page of the marked range belongs to stays placed. *)
Lemma placed_marked w i n v s s' x :
  inv s → marked w i n v s s' → placed s x →
  (∀ a, page_in x.1 x.2 a → ¬ page_in (base (pool_of w s) + 4096 * i) n a) → placed s' x.
Proof.
  intros Hinv Hm (w' & j & Hj & Hx & Hle & E & Hall) Hno.
  pose proof Hm as (Hi & Hn & _ & _ & Hbase & _).
  exists w', j. rewrite (marked_cnt _ _ _ _ _ _ w' Hm), Hbase. split_and!; [done..|].
  intros k Hk. rewrite (marked_bit _ _ _ _ _ _ w' k Hm) by lia.
  rewrite decide_False; [by apply Hall|]. intros [-> Hd].
  apply (Hno (base (pool_of w s) + 4096 * k)).
  - exists (k - j). lia.
  - exists (k - i). lia.
Qed.

(** The pools are where they were. *)
Definition same_pools s s' : Prop :=
  ∀ w, base (pool_of w s') = base (pool_of w s) ∧
       bit_cnt (used_map (pool_of w s')) = bit_cnt (used_map (pool_of w s)).

Lemma marked_pools w i n v s s' : marked w i n v s s' → same_pools s s'.
Proof.
  intros Hm w'. split; [|by eapply marked_cnt]. by destruct Hm as (_ & _ & _ & _ & Hb & _).
Qed.

Lemma palloc_free_page_ok a s :
  inv s → in_use s a →
  wp (Ops.palloc_free_page a) (λ _ s', inv s' ∧ same_pools s s' ∧
    (∀ b, in_use s' b ↔ in_use s b ∧ b ≠ a) ∧ changes_at a 4096 (ram s) (ram s')) s.
Proof.
  intros Hinv (w & i & Hi & -> & Hb). unfold Ops.palloc_free_page.
  eapply wp_mono; [apply palloc_free_multiple_ok; [done|lia..|]|].
  { intros j Hj. by replace j with i by lia. }
  intros [] s' Hm. split; [by eapply marked_inv|]. pose proof Hm as (_ & _ & _ & _ & _ & _ & Hch).
  split; [by eapply marked_pools|]. split; [|done].
  intros b. rewrite (in_use_marked w i 1 false s s' b Hinv Hm).
  assert (page_in (base (pool_of w s) + 4096 * i) 1 b ↔ b = base (pool_of w s) + 4096 * i) as Hp.
  { split; [intros (k & Hk & ->); lia|]. intros ->. exists 0. lia. }
  rewrite Hp. split; [intros [[_ ?]|[? ?]]; done|]. intros [? ?]. by right.
Qed.

Lemma in_use_aligned s a : inv s → in_use s a → a mod 4096 = 0.
Proof.
  intros Hinv (w & i & _ & -> & _). rewrite Z.mul_comm, Z_mod_plus_full.
  apply (pool_align _ _ (inv_pools _ Hinv w)).
Qed.

Lemma placed_in_use s x a : placed s x → page_in x.1 x.2 a → in_use s a.
Proof.
  intros (w & i & Hi & Hn & Hle & E & Hall) (k & Hk & ->). exists w, (i + k).
  split_and!; [lia..|rewrite E; lia|]. apply Hall. lia.
Qed.

Lemma tracks_get w i n s s' live :
  inv s → 0 < n → marked w i n true s s' → tracks live s →
  tracks ((base (pool_of w s) + 4096 * i, n) :: live) s'.
Proof.
  intros Hinv Hn Hm [Hp Hd Hc]. pose proof Hm as (Hi & Hle & Hfree & _ & Hbase & _).
  assert (∀ a, page_in (base (pool_of w s) + 4096 * i) n a → ¬ in_use s a) as Hnew.
  { intros a (k & Hk & ->) (w' & j & Hj & E & Hb).
    destruct (page_inj s w w' (i + k) j Hinv) as [<- <-]; [lia|lia|lia|].
    rewrite (Hfree (i + k)) in Hb by lia. done. }
  split.
  - constructor.
    + exists w, i. simpl. rewrite (marked_cnt _ _ _ _ _ _ w Hm), Hbase. split_and!; [done..|].
      intros j Hj. rewrite (marked_bit _ _ _ _ _ _ w j Hm) by lia. by rewrite decide_True by (split; [done|lia]).
    + eapply Forall_impl; [done|]. intros x Hx. eapply placed_marked; [done..|].
      intros a Ha Hin. apply (Hnew a Hin). by eapply placed_in_use.
  - assert (∀ x a, x ∈ live → page_in x.1 x.2 a →
      ¬ page_in (base (pool_of w s) + 4096 * i) n a) as Hout.
    { intros x a Hx Ha Hin. apply (Hnew a Hin). eapply placed_in_use; [|done].
      rewrite Forall_forall in Hp. by apply Hp. }
    intros [|j] [|k] x y a Hx Hy Hne Ha Ha'; simplify_eq/=.
    + eapply (Hout y); eauto using list_elem_of_lookup_2.
    + eapply (Hout x); eauto using list_elem_of_lookup_2.
    + eapply (Hd j k); [done..|congruence|done|done].
  - intros a Ha. apply (in_use_marked w i n true s s' a Hinv Hm) in Ha as [[Ha _]|[_ Ha]].
    + exists (base (pool_of w s) + 4096 * i, n). split; [left|done].
    + destruct (Hc a Ha) as (x & Hx & Hin). exists x. split; [by right|done].
Qed.

Lemma tracks_free w i n s s' live k :
  inv s → marked w i n false s s' → tracks live s →
  live !! k = Some (base (pool_of w s) + 4096 * i, n) → tracks (delete k live) s'.
Proof.
  intros Hinv Hm [Hp Hd Hc] Hk.
  assert (∀ j, is_Some (delete k live !! j) → ∃ j', j' ≠ k ∧ delete k live !! j = live !! j' ∧
    j = if decide (j' < k)%nat then j' else pred j') as Hdel.
  { intros j _. destruct (decide (j < k)%nat).
    - exists j. rewrite list_lookup_delete_lt, decide_True by lia. split_and!; [lia|done|done].
    - exists (S j). rewrite list_lookup_delete_ge, decide_False by lia. split_and!; [lia|done|done]. }
  split.
  - apply Forall_lookup. intros j x Hx. destruct (Hdel j) as (j' & Hne & E & _); [by exists x|].
    rewrite Hx in E. symmetry in E. eapply placed_marked; [done..| |].
    + rewrite Forall_lookup in Hp. by apply (Hp j').
    + intros a Ha Hin. by eapply (Hd j' k _ _ a E Hk).
  - intros j1 j2 x y a Hx Hy Hne. destruct (Hdel j1) as (k1 & ? & E1 & F1); [by exists x|].
    destruct (Hdel j2) as (k2 & ? & E2 & F2); [by exists y|]. rewrite Hx in E1. rewrite Hy in E2.
    eapply (Hd k1 k2); [done..|]. intros ->. congruence.
  - intros a Ha. apply (in_use_marked w i n false s s' a Hinv Hm) in Ha as [[_ ?]|[Hno Ha]]; [done|].
    destruct (Hc a Ha) as (x & [j Hx]%list_elem_of_lookup & Hin). exists x. split; [|done].
    assert (j ≠ k) by (intros ->; rewrite Hk in Hx; simplify_eq; done).
    by eapply elem_of_delete_2.
Qed.

(** One request keeps the invariant and the account of what is handed out. *)
Lemma client_ok r live s :
  polite r → inv s → tracks live s →
  wp (serve r live) (λ live' s', inv s' ∧ tracks live' s' ∧ same_pools s s') s.
Proof.
  intros Hr Hinv Ht. destruct r as [flags n|k]; simpl.
  - destruct Hr as [Hf Hn]. wp_unbind.
    eapply wp_mono; [apply palloc_get_multiple_ok; [done|done|by left]|].
    intros p s' [(-> & -> & _)|(Hn0 & Hp & i & -> & Hm & _)]; wp_go.
    + by rewrite Z.eqb_refl.
    + rewrite (proj2 (Z.eqb_neq _ _) Hp).
      split_and!; [by eapply marked_inv|by apply tracks_get|by eapply marked_pools].
  - destruct (live !! k) as [[p n]|] eqn:Ek; [|by apply wp_ret].
    pose proof (tr_placed _ _ Ht) as Hp. rewrite Forall_lookup in Hp.
    destruct (Hp _ _ Ek) as (w & i & Hi & Hn & Hle & E & Hall). simpl in *. subst p.
    wp_unbind. eapply wp_mono; [by apply palloc_free_multiple_ok|]. intros [] s' Hm. wp_go.
    split_and!; [by eapply marked_inv|by eapply tracks_free|by eapply marked_pools].
Qed.

Lemma clients_ok rs live s :
  Forall polite rs → inv s → tracks live s →
  wp (serve_all rs live) (λ live' s', inv s' ∧ tracks live' s' ∧ same_pools s s') s.
Proof.
  intros Hrs. revert live s. induction Hrs as [|r rs Hr _ IH]; intros live s Hinv Ht; simpl.
  { by apply wp_ret. }
  wp_unbind. eapply wp_mono; [by apply client_ok|]. intros live' s' (? & ? & Hp).
  eapply wp_mono; [by apply IH|]. intros live2 s2 (? & ? & Hp2). split_and!; [done..|].
  intros w. destruct (Hp2 w) as [-> ->]. apply Hp.
Qed.
End clients.

(** * Initialisation *)
Section init.
(** What the storage of the maps held: words, as many as asked for. *)
Variable held : Z → list Z.
Hypothesis held_words : ∀ n, 0 ≤ n → Z.of_nat (length (held n)) = n ∧ Forall is_u32 (held n).

Lemma map_bytes_eq n : 0 ≤ n ≤ 2 ^ 18 → byte_cnt n = 4 * ((n + 31) / 32).
Proof.
  intros Hn. unfold byte_cnt. rewrite elem_cnt_eq by lia. apply u32_id. unfold is_u32.
  pose proof (Z.div_mod (n + 31) 32). pose proof (Z.mod_pos_bound (n + 31) 32). lia.
Qed.

Lemma byte_cnt_le n : 0 ≤ n ≤ 2 ^ 18 → 0 ≤ byte_cnt n ≤ 4 * n ∧ byte_cnt n ≤ 2 ^ 15.
Proof.
  intros Hn. rewrite map_bytes_eq by done. pose proof (Z.div_mod (n + 31) 32).
  pose proof (Z.mod_pos_bound (n + 31) 32). lia.
Qed.

Lemma byte_cnt_mono n n' : 0 ≤ n' ≤ n → n ≤ 2 ^ 18 → byte_cnt n' ≤ byte_cnt n.
Proof.
  intros ? ?. rewrite !map_bytes_eq by lia.
  assert ((n' + 31) / 32 ≤ (n + 31) / 32) by (apply Z.div_le_mono; lia). lia.
Qed.

Lemma init_pool_ok start n :
  1 ≤ n ≤ 2 ^ 18 → 0 ≤ start → start + 4096 * n < 2 ^ 32 →
  ∃ b k, Ops.init_pool held start n = Ok (mk_pool b (start + 4096 * k)) ∧
         1 ≤ k ≤ n ∧ wf b ∧ bit_cnt b = n - k ∧ Correct.all_eq b 0 (n - k) false.
Proof.
  intros Hn Hs Hse. unfold Ops.init_pool, Ops.bitmap_buf_size.
  pose proof (byte_cnt_le n ltac:(lia)) as Hb. rewrite (u32_id (8 + byte_cnt n)) by (unfold is_u32; lia).
  set (k := DIV_ROUND_UP (8 + byte_cnt n) PGSIZE).
  assert (1 ≤ k ≤ n ∧ 8 + byte_cnt n ≤ 4096 * k) as [Hk Hk2].
  { unfold k, DIV_ROUND_UP. rewrite PGSIZE_eq. pose proof (Z.div_mod (8 + byte_cnt n + 4096 - 1) 4096).
    pose proof (Z.mod_pos_bound (8 + byte_cnt n + 4096 - 1) 4096). lia. }
  destruct (Z.ltb_spec n k); [lia|].
  rewrite PGSIZE_eq, !u32_id by (unfold is_u32; lia).
  unfold Ops.bitmap_create_in_buf, Ops.bitmap_buf_size.
  pose proof (byte_cnt_mono n (n - k) ltac:(lia) ltac:(lia)). pose proof (byte_cnt_le (n - k) ltac:(lia)).
  rewrite (u32_id (8 + byte_cnt (n - k))) by (unfold is_u32; lia).
  rewrite (proj2 (Z.leb_le _ _)) by lia.
  destruct (held_words (elem_cnt (n - k))) as [Hl Hw].
  { rewrite elem_cnt_eq by lia. apply Z.div_pos; lia. }
  destruct (Correct.bitmap_create_ok (n - k) (held (elem_cnt (n - k)))) as (b & E & Hwf & Hcnt & Hall);
    [lia|done..|].
  exists b, k. rewrite E. simpl. rewrite (Z.mul_comm k). done.
Qed.

Lemma palloc_init_ok kend ram_pages limit m :
  PHYS_BASE ≤ kend → 0 ≤ ram_pages < 2 ^ 18 → kend + 4096 * 3 ≤ PHYS_BASE + 4096 * ram_pages →
  1 ≤ limit → (∀ a, kend ≤ a < PHYS_BASE + 4096 * ram_pages → is_Some (m !! a)) →
  ∃ s, Ops.palloc_init held kend ram_pages limit m = Ok s ∧ inv s ∧ tracks [] s ∧ ram s = m ∧
       kend ≤ base (kernel_pool s) ∧ pool_end (user_pool s) ≤ PHYS_BASE + 4096 * ram_pages.
Proof.
  intros Hk Hr Hroom Hlim Hm. unfold PHYS_BASE in *. unfold Ops.palloc_init.
  rewrite PGSIZE_eq, (pg_round_up_eq kend) by lia. set (st := 4096 * ((kend + 4095) / 4096)).
  assert (kend ≤ st < kend + 4096 ∧ st mod 4096 = 0) as [Hst Hal].
  { unfold st. pose proof (Z.div_mod (kend + 4095) 4096). pose proof (Z.mod_pos_bound (kend + 4095) 4096).
    split; [lia|]. rewrite Z.mul_comm. apply Z_mod_mult. }
  rewrite (u32_id (ram_pages * 4096)), ptov_ok by (unfold is_u32; lia).
  cbn [mbind outcome_bind]. unfold PHYS_BASE.
  rewrite (u32_id (_ - st)) by (unfold is_u32; lia).
  set (F := (ram_pages * 4096 + 3221225472 - st) / 4096).
  assert (2 ≤ F ∧ st + 4096 * F ≤ 3221225472 + 4096 * ram_pages) as [HF HFe].
  { unfold F. pose proof (Z.div_mod (ram_pages * 4096 + 3221225472 - st) 4096).
    pose proof (Z.mod_pos_bound (ram_pages * 4096 + 3221225472 - st) 4096). lia. }
  set (U := if limit <? F / 2 then limit else F / 2).
  assert (1 ≤ U ≤ F - 1) as HU.
  { unfold U. pose proof (Z.div_mod F 2). pose proof (Z.mod_pos_bound F 2).
    destruct (Z.ltb_spec limit (F / 2)); lia. }
  clearbody st F U.
  destruct (init_pool_ok st (F - U)) as (bk & kk & -> & Hkk & Hwk & Hck & Hfk); [lia..|].
  cbn [mbind outcome_bind]. rewrite (u32_id (st + _)) by (unfold is_u32; lia).
  destruct (init_pool_ok (st + (F - U) * 4096) U) as (bu & ku & -> & Hku & Hwu & Hcu & Hfu); [lia..|].
  eexists. split; [done|]. unfold pool_end. cbn [ram kernel_pool user_pool base used_map].
  split_and!; [| |done|lia|rewrite Hcu; lia].
  - split; [|unfold pool_end; simpl; lia]. unfold PHYS_BASE.
    intros []; (split; cbn [ram pool_of kernel_pool user_pool base used_map]; unfold PHYS_BASE;
      [done| |lia|rewrite ?Hck, ?Hcu; lia|intros a Ha; apply Hm; lia]).
    + rewrite Z.mul_comm, Z_mod_plus_full. done.
    + by rewrite (Z.mul_comm 4096), !Z_mod_plus_full.
  - split; [constructor|by intros ? ? ? ? ? ?|]. intros a ([] & i & Hi & _ & Hb); simpl in *.
    + by rewrite Hfk in Hb by lia.
    + by rewrite Hfu in Hb by lia.
Qed.
End init.
