(* ===== verification/PageDir.v ===== *)
(** Page tables ([userprog/pagedir.c], [threads/pte.h]): the two-level tables
    of the i386, as words in the memory of the page allocator, the page
    directory base register and the translation lookaside buffer. *)
From Stdlib Require Import ZArith Lia.
From stdpp Require Import base tactics option numbers list gmap.
From S2P Require Import Prelude Bitmap CString Bytes Palloc.

Open Scope Z_scope.

(** * [threads/pte.h] *)
Definition PTSHIFT : Z := PGBITS.
Definition PTBITS : Z := 10.
Definition PTMASK : Z := BITMASK PTSHIFT PTBITS.
Definition PDSHIFT : Z := PTSHIFT + PTBITS.

Definition pt_no (va : Z) : Z := Z.shiftr (Z.land va PTMASK) PTSHIFT.
Definition pd_no (va : Z) : Z := Z.shiftr va PDSHIFT.

Definition PTE_FLAGS : Z := 0x00000fff.
Definition PTE_ADDR : Z := 0xfffff000.
Definition PTE_P : Z := 0x1.
Definition PTE_W : Z := 0x2.
Definition PTE_U : Z := 0x4.
Definition PTE_A : Z := 0x20.
Definition PTE_D : Z := 0x40.

(** [e & FLAG] as a condition. *)
Definition flag (e f : Z) : bool := negb (Z.land e f =? 0).

Section pte.
Context {S : Type}.

Definition pde_create (pt : Z) : M S Z :=
  ASSERT (pg_ofs pt =? 0);;
  p ← vtop pt; mret (Z.lor (Z.lor (Z.lor p PTE_U) PTE_P) PTE_W).

Definition pde_get_pt (pde : Z) : M S Z :=
  ASSERT (flag pde PTE_P);; ptov (Z.land pde PTE_ADDR).

Definition pte_create_kernel (page : Z) (writable : bool) : M S Z :=
  ASSERT (pg_ofs page =? 0);;
  p ← vtop page; mret (Z.lor (Z.lor p PTE_P) (if writable then PTE_W else 0)).

Definition pte_create_user (page : Z) (writable : bool) : M S Z :=
  e ← pte_create_kernel page writable; mret (Z.lor e PTE_U).

Definition pte_get_page (pte : Z) : M S Z := ptov (Z.land pte PTE_ADDR).
End pte.

(** * State *)

(** [cr3] holds a physical address; [tlb] the translations the processor has
    cached, by virtual page number. *)
Record mmu := mk_mmu {
  mach : machine;
  ram_pages : Z;
  base_page_dir : Z;
  cr3 : Z;
  tlb : gmap Z Z }.

Definition set_mach (x : machine) (s : mmu) : mmu :=
  mk_mmu x (ram_pages s) (base_page_dir s) (cr3 s) (tlb s).

Module Ops.
Import Palloc.Ops.

Definition on_mach {A} (m : M machine A) : M mmu A := zoom mach set_mach m.

(** A word of memory. *)
Definition load32 (a : Z) : M mem Z :=
  b0 ← CString.Ops.load a;
  b1 ← CString.Ops.load (a + 1);
  b2 ← CString.Ops.load (a + 2);
  b3 ← CString.Ops.load (a + 3);
  mret (of_le32 [b0; b1; b2; b3]).
Definition store32 (a w : Z) : M mem unit :=
  CString.Ops.store a (w mod 256);;
  CString.Ops.store (a + 1) ((w / 2 ^ 8) mod 256);;
  CString.Ops.store (a + 2) ((w / 2 ^ 16) mod 256);;
  CString.Ops.store (a + 3) ((w / 2 ^ 24) mod 256).

Definition read_word (a : Z) : M mmu Z := on_mach (on_ram (load32 a)).
Definition write_word (a w : Z) : M mmu unit := on_mach (on_ram (store32 a w)).

Definition pagedir_create : M mmu Z :=
  pd ← on_mach (palloc_get_page 0);
  (if negb (pd =? NULL) then
     b ← gets base_page_dir;
     on_mach (on_ram (CString.Ops.memcpy pd b PGSIZE));; mret tt
   else mret tt);;
  mret pd.

Definition pagedir_destroy (pd : Z) : M mmu unit :=
  if pd =? NULL then mret tt else
  b ← gets base_page_dir;
  ASSERT (negb (pd =? b));;
  for_upto (Z.to_nat (pd_no PHYS_BASE)) 0 (λ i,
    pde ← read_word (pd + 4 * i);
    if flag pde PTE_P then
      pt ← pde_get_pt pde;
      for_upto (Z.to_nat (PGSIZE / 4)) 0 (λ j,
        pte ← read_word (pt + 4 * j);
        if flag pte PTE_P then
          page ← pte_get_page pte;
          on_mach (palloc_free_page page)
        else mret tt);;
      on_mach (palloc_free_page pt)
    else mret tt);;
  on_mach (palloc_free_page pd).

Definition lookup_page (pd vaddr : Z) (create : bool) : M mmu Z :=
  ASSERT (negb (pd =? NULL));;
  ASSERT (negb create || is_user_vaddr vaddr);;
  let pde := pd + 4 * pd_no vaddr in
  e ← read_word pde;
  found ← (if e =? 0 then
             if create then
               pt ← on_mach (palloc_get_page PAL_ZERO);
               if pt =? NULL then mret false else
               e ← pde_create pt;
               write_word pde e;; mret true
             else mret false
           else mret true);
  if found : bool then
    e ← read_word pde;
    pt ← pde_get_pt e;
    mret (pt + 4 * pt_no vaddr)
  else mret NULL.

Definition pagedir_set_page (pd upage kpage : Z) (writable : bool) : M mmu bool :=
  ASSERT (pg_ofs upage =? 0);;
  ASSERT (pg_ofs kpage =? 0);;
  ASSERT (is_user_vaddr upage);;
  p ← vtop kpage;
  n ← gets ram_pages;
  ASSERT (Z.shiftr p PTSHIFT <? n);;
  b ← gets base_page_dir;
  ASSERT (negb (pd =? b));;
  pte ← lookup_page pd upage true;
  if negb (pte =? NULL) then
    e ← read_word pte;
    ASSERT (negb (flag e PTE_P));;
    e ← pte_create_user kpage writable;
    write_word pte e;;
    mret true
  else mret false.

Definition pagedir_get_page (pd uaddr : Z) : M mmu Z :=
  ASSERT (is_user_vaddr uaddr);;
  pte ← lookup_page pd uaddr false;
  if negb (pte =? NULL) then
    e ← read_word pte;
    if flag e PTE_P then
      page ← pte_get_page e; mret (page + pg_ofs uaddr)
    else mret NULL
  else mret NULL.

(** A load of [cr3] empties the translation buffer. *)
Definition pagedir_activate (pd : Z) : M mmu unit :=
  b ← gets base_page_dir;
  let pd := if pd =? NULL then b else pd in
  p ← vtop pd;
  modify (λ s, mk_mmu (mach s) (ram_pages s) (base_page_dir s) p ∅).

Definition active_pd : M mmu Z := p ← gets cr3; ptov p.

Definition invalidate_pagedir (pd : Z) : M mmu unit :=
  a ← active_pd; if a =? pd then pagedir_activate pd else mret tt.

Definition pagedir_clear_page (pd upage : Z) : M mmu unit :=
  ASSERT (pg_ofs upage =? 0);;
  ASSERT (is_user_vaddr upage);;
  pte ← lookup_page pd upage false;
  if negb (pte =? NULL) then
    e ← read_word pte;
    if flag e PTE_P then
      write_word pte (Z.land e (lnot32 PTE_P));;
      invalidate_pagedir pd
    else mret tt
  else mret tt.

Definition pagedir_is_dirty (pd vpage : Z) : M mmu bool :=
  pte ← lookup_page pd vpage false;
  if negb (pte =? NULL) then e ← read_word pte; mret (flag e PTE_D) else mret false.

Definition pagedir_set_dirty (pd vpage : Z) (dirty : bool) : M mmu unit :=
  pte ← lookup_page pd vpage false;
  if negb (pte =? NULL) then
    e ← read_word pte;
    if dirty then write_word pte (Z.lor e PTE_D)
    else write_word pte (Z.land e (lnot32 PTE_D));; invalidate_pagedir pd
  else mret tt.

Definition pagedir_is_accessed (pd vpage : Z) : M mmu bool :=
  pte ← lookup_page pd vpage false;
  if negb (pte =? NULL) then e ← read_word pte; mret (flag e PTE_A) else mret false.

Definition pagedir_set_accessed (pd vpage : Z) (accessed : bool) : M mmu unit :=
  pte ← lookup_page pd vpage false;
  if negb (pte =? NULL) then
    e ← read_word pte;
    if accessed then write_word pte (Z.lor e PTE_A)
    else write_word pte (Z.land e (lnot32 PTE_A));; invalidate_pagedir pd
  else mret tt.
End Ops.

(** * Words of memory *)
Definition word (m : mem) (a : Z) : Z :=
  of_le32 [m !!! a; m !!! (a + 1); m !!! (a + 2); m !!! (a + 3)].

Definition has_range (m : mem) (a n : Z) : Prop := ∀ x, a ≤ x < a + n → is_Some (m !! x).

Section words.
Implicit Types (m : mem).

Lemma load_has m a : is_Some (m !! a) → m !! a = Some (m !!! a).
Proof. intros [b E]. by rewrite lookup_total_alt, E. Qed.

Lemma load32_ok m a Q : has_range m a 4 → Q (word m a) m → wp (Ops.load32 a) Q m.
Proof.
  intros Hr HQ. unfold Ops.load32. wp_unbind.
  eapply wp_mload; [apply load_has, Hr; lia|]. wp_unbind.
  eapply wp_mload; [apply load_has, Hr; lia|]. wp_unbind.
  eapply wp_mload; [apply load_has, Hr; lia|]. wp_unbind.
  eapply wp_mload; [apply load_has, Hr; lia|]. by wp_go.
Qed.

Lemma word_changes m m' a n b :
  changes_at a n m m' → b + 4 ≤ a ∨ a + n ≤ b → word m' b = word m b.
Proof. intros [H _] Hd. unfold word. rewrite !lookup_total_alt, !H by lia. done. Qed.

Lemma word_zero m a : block m a (replicate 4 0) → word m a = 0.
Proof.
  intros H. unfold word. rewrite !lookup_total_alt.
  pose proof (H 0%nat 0 eq_refl) as H0. pose proof (H 1%nat 0 eq_refl) as H1.
  pose proof (H 2%nat 0 eq_refl) as H2. pose proof (H 3%nat 0 eq_refl) as H3.
  rewrite Z.add_0_r in H0. change (Z.of_nat 1) with 1 in H1. change (Z.of_nat 2) with 2 in H2.
  change (Z.of_nat 3) with 3 in H3. by rewrite H0, H1, H2, H3.
Qed.

Lemma changes_has m m' a n b k : changes_at a n m m' → has_range m b k → has_range m' b k.
Proof. intros Hc Hr x Hx. eapply changes_mem; [done|]. by apply Hr. Qed.

Lemma store32_ok m a w :
  is_u32 w → has_range m a 4 →
  wp (Ops.store32 a w) (λ _ m', word m' a = w ∧ changes_at a 4 m m') m.
Proof.
  intros Hw Hr. unfold Ops.store32.
  assert (∀ x, a ≤ x < a + 4 → ∃ b, m !! x = Some b) as Hb by (intros x Hx; by apply Hr).
  destruct (Hb a) as [b0 E0]; [lia|]. destruct (Hb (a + 1)) as [b1 E1]; [lia|].
  destruct (Hb (a + 2)) as [b2 E2]; [lia|]. destruct (Hb (a + 3)) as [b3 E3]; [lia|].
  wp_unbind. eapply wp_mstore; [exact E0|]. wp_unbind.
  eapply wp_mstore; [rewrite lookup_insert_ne by lia; exact E1|]. wp_unbind.
  eapply wp_mstore; [rewrite !lookup_insert_ne by lia; exact E2|]. wp_unbind.
  eapply wp_mstore; [rewrite !lookup_insert_ne by lia; exact E3|].
  split.
  - unfold word. rewrite !lookup_total_alt.
    rewrite lookup_insert_ne, lookup_insert_ne, lookup_insert_ne, lookup_insert_eq by lia.
    rewrite lookup_insert_ne, lookup_insert_ne, lookup_insert_eq by lia.
    rewrite lookup_insert_ne, lookup_insert_eq by lia. rewrite lookup_insert_eq. simpl.
    rewrite <-(of_le32_le32 w [] Hw) at 5. done.
  - repeat (eapply changes_store; [|lia|rewrite ?lookup_insert_ne by lia; eassumption]). done.
Qed.
End words.

(** * Entries *)
Section entries.

Lemma flag_bit e k : 0 ≤ k → flag e (2 ^ k) = Z.testbit e k.
Proof.
  intros Hk. unfold flag. destruct (Z.testbit e k) eqn:Et.
  - apply negb_true_iff, Z.eqb_neq. intros E.
    apply (f_equal (λ z, Z.testbit z k)) in E.
    rewrite Z.land_spec, Z.pow2_bits_true, Et, Z.bits_0 in E by lia. done.
  - apply negb_false_iff, Z.eqb_eq. apply Z.bits_inj'. intros j Hj.
    rewrite Z.land_spec, Z.pow2_bits_eqb, Z.bits_0 by lia.
    destruct (Z.eqb_spec k j) as [<-|]; [by rewrite Et|apply andb_false_r].
Qed.

Lemma land_addr e : is_u32 e → Z.land e PTE_ADDR = 4096 * (e / 4096).
Proof. intros He. rewrite <-(pg_round_down_eq e He). done. Qed.

(** An aligned address and the flags below it. *)
Lemma land_aligned a f : a mod 4096 = 0 → 0 ≤ f < 4096 → Z.land a f = 0.
Proof.
  intros Ha Hf. apply Z.bits_inj'. intros j Hj. rewrite Z.land_spec, Z.bits_0.
  destruct (Z.lt_ge_cases j 12).
  - rewrite <-(Z.mod_pow2_bits_low a 12) by lia. change (2 ^ 12) with 4096. by rewrite Ha, Z.bits_0.
  - rewrite <-(Z.mod_small f (2 ^ 12)) by lia. rewrite Z.mod_pow2_bits_high by lia. apply andb_false_r.
Qed.

Lemma lor_low a f : a mod 4096 = 0 → 0 ≤ f < 4096 → Z.lor a f = a + f.
Proof.
  intros Ha Hf. pose proof (land_aligned a f Ha Hf) as H.
  by rewrite (Z.add_nocarry_lxor a f H), (Z.lxor_lor a f H).
Qed.

(** The address and the flags of an entry [a + f]. *)
Lemma entry_addr a f : a mod 4096 = 0 → 0 ≤ f < 4096 → 4096 * ((a + f) / 4096) = a.
Proof.
  intros Ha Hf. pose proof (Z.div_mod a 4096). replace a with (a / 4096 * 4096) at 1 by lia.
  rewrite Z.div_add_l, (Z.div_small f) by lia. lia.
Qed.

Lemma entry_bit a f k : a mod 4096 = 0 → 0 ≤ f < 4096 → 0 ≤ k < 12 →
  Z.testbit (a + f) k = Z.testbit f k.
Proof.
  intros Ha Hf Hk. rewrite <-(Z.mod_pow2_bits_low (a + f) 12) by lia. change (2 ^ 12) with 4096.
  by rewrite Z.add_mod, Ha, Z.add_0_l, Z.mod_mod, Z.mod_small by lia.
Qed.

(** Setting and clearing one flag. *)
Lemma set_flag_bit e k j :
  0 ≤ k → 0 ≤ j → Z.testbit (Z.lor e (2 ^ k)) j = if decide (j = k) then true else Z.testbit e j.
Proof.
  intros. rewrite Z.lor_spec, Z.pow2_bits_eqb by lia.
  case_decide; [subst; by rewrite Z.eqb_refl, orb_true_r|].
  by rewrite (proj2 (Z.eqb_neq _ _)), orb_false_r by lia.
Qed.

Lemma clear_flag_bit e k j :
  is_u32 e → 0 ≤ k < 32 → 0 ≤ j →
  Z.testbit (Z.land e (lnot32 (2 ^ k))) j = if decide (j = k) then false else Z.testbit e j.
Proof.
  intros He ? ?. unfold lnot32. change (2 ^ 32 - 1) with (Z.ones 32).
  rewrite Z.land_spec, Z.lxor_spec, Z.pow2_bits_eqb, Z.testbit_ones_nonneg by lia.
  case_decide.
  - subst. rewrite Z.eqb_refl, (proj2 (Z.ltb_lt _ _)) by lia. apply andb_false_r.
  - rewrite (proj2 (Z.eqb_neq _ _)) by lia. destruct (Z.ltb_spec j 32); simpl; [apply andb_true_r|].
    apply is_u32_bits in He as [_ He]. by rewrite He by lia.
Qed.

(** A change below bit 12 keeps the address. *)
Lemma same_addr e e' :
  0 ≤ e → 0 ≤ e' → (∀ j, 12 ≤ j → Z.testbit e' j = Z.testbit e j) → e' / 4096 = e / 4096.
Proof.
  intros ? ? H. change 4096 with (2 ^ 12). rewrite <-!Z.shiftr_div_pow2 by lia.
  apply Z.bits_inj'. intros j Hj. rewrite !Z.shiftr_spec by lia. apply H. lia.
Qed.
End entries.

(** * Address spaces

    The directory [pd] as a function from user page numbers to entries: 0
    where there is no page table. *)
Definition pde (m : mem) (pd i : Z) : Z := word m (pd + 4 * i).
Definition table (m : mem) (pd i : Z) : option Z :=
  if pde m pd i =? 0 then None else Some (4096 * (pde m pd i / 4096) + PHYS_BASE).
Definition pte (m : mem) (pd n : Z) : Z :=
  match table m pd (n / 1024) with
  | None => 0
  | Some pt => word m (pt + 4 * (n mod 1024))
  end.

(** The directory entries and the pages below [PHYS_BASE]. *)
Definition USER_TABLES : Z := 768.
Definition USER_PAGES : Z := 768 * 1024.

(** A page of the kernel pool that is handed out. *)
Definition kpage (x : machine) (a : Z) : Prop :=
  ∃ i, 0 ≤ i < bit_cnt (used_map (kernel_pool x)) ∧ a = base (kernel_pool x) + 4096 * i ∧
       bit (used_map (kernel_pool x)) i = true.

(** A present entry points into physical memory. *)
Definition is_entry (e : Z) : Prop := is_u32 e ∧ (Z.testbit e 0 = true → e / 4096 < 2 ^ 18).

Record dir_wf (x : machine) (pd : Z) : Prop := {
  dw_page : kpage x pd;
  dw_tables : ∀ i, 0 ≤ i < USER_TABLES → pde (ram x) pd i = 0 ∨
    ∃ pt, pde (ram x) pd i = pt - PHYS_BASE + 7 ∧ kpage x pt;
  dw_entries : ∀ n, 0 ≤ n < USER_PAGES → is_entry (pte (ram x) pd n) }.

(** The directories of all address spaces, none sharing a page table. *)
Record space_inv (dirs : gset Z) (x : machine) : Prop := {
  si_inv : inv x;
  si_dirs : ∀ pd, pd ∈ dirs → dir_wf x pd;
  si_sep : ∀ pd pd' i pt, pd ∈ dirs → pd' ∈ dirs → 0 ≤ i < USER_TABLES →
    table (ram x) pd i = Some pt →
    pt ≠ pd' ∧ ∀ i', 0 ≤ i' < USER_TABLES → table (ram x) pd' i' = Some pt → pd = pd' ∧ i = i' }.

(** The pages that hold the tables. *)
Definition is_table (dirs : gset Z) (x : machine) (a : Z) : Prop :=
  a ∈ dirs ∨ ∃ pd i, pd ∈ dirs ∧ 0 ≤ i < USER_TABLES ∧ table (ram x) pd i = Some a.

(** Page [a] is still handed out and holds the same bytes. *)
Definition kept (x x' : machine) (a : Z) : Prop :=
  kpage x' a ∧ ∀ y, a ≤ y < a + 4096 → ram x' !! y = ram x !! y.

(** The user pool and its pages are as they were. *)
Definition user_kept (x x' : machine) : Prop :=
  user_pool x' = user_pool x ∧
  ∀ a, base (user_pool x) ≤ a < pool_end (user_pool x) → ram x' !! a = ram x !! a.

(** The address spaces are the same. *)
Definition same_spaces (dirs : gset Z) (x x' : machine) : Prop :=
  ∀ pd, pd ∈ dirs →
    (∀ i, 0 ≤ i < 1024 → pde (ram x') pd i = pde (ram x) pd i) ∧
    (∀ n, 0 ≤ n < USER_PAGES → pte (ram x') pd n = pte (ram x) pd n).

Section spaces.
Implicit Types (x : machine) (dirs : gset Z) (m : mem).

Lemma kpage_facts x a : inv x → kpage x a →
  a mod 4096 = 0 ∧ PHYS_BASE ≤ a ∧ a + 4096 ≤ 2 ^ 32 ∧ has_range (ram x) a 4096.
Proof.
  intros Hinv (i & Hi & -> & _). pose proof (inv_pools _ Hinv KernelPool) as Hp. simpl in Hp.
  pose proof (pool_low _ _ Hp). pose proof (pool_high _ _ Hp). split_and!; [|lia..|].
  - rewrite Z.mul_comm, Z_mod_plus_full. apply Hp.
  - intros y Hy. apply (pool_mem _ _ Hp). lia.
Qed.

(** Different pages do not overlap. *)
Lemma pages_apart a b : a mod 4096 = 0 → b mod 4096 = 0 → a ≠ b → a + 4096 ≤ b ∨ b + 4096 ≤ a.
Proof. intros Ha Hb Hne. pose proof (Z.div_mod a 4096). pose proof (Z.div_mod b 4096). lia. Qed.

Lemma user_index n : 0 ≤ n < USER_PAGES →
  0 ≤ n / 1024 < USER_TABLES ∧ 0 ≤ n mod 1024 < 1024 ∧ n = 1024 * (n / 1024) + n mod 1024.
Proof.
  unfold USER_PAGES, USER_TABLES. intros Hn. pose proof (Z.div_mod n 1024).
  pose proof (Z.mod_pos_bound n 1024). lia.
Qed.

Lemma table_some m pd i pt :
  pt mod 4096 = 0 → PHYS_BASE ≤ pt → pde m pd i = pt - PHYS_BASE + 7 → table m pd i = Some pt.
Proof.
  intros Ha Hl E. unfold table. rewrite E.
  destruct (Z.eqb_spec (pt - PHYS_BASE + 7) 0); [lia|].
  rewrite (entry_addr (pt - PHYS_BASE) 7); [|rewrite Zminus_mod, Ha; done|lia]. f_equal. lia.
Qed.

Lemma table_page dirs x pd i pt :
  space_inv dirs x → pd ∈ dirs → 0 ≤ i < USER_TABLES → table (ram x) pd i = Some pt →
  kpage x pt ∧ pde (ram x) pd i = pt - PHYS_BASE + 7.
Proof.
  intros Hs Hpd Hi Ht. destruct (dw_tables _ _ (si_dirs _ _ Hs pd Hpd) i Hi) as [E|(p & E & Hp)].
  - unfold table in Ht. by rewrite E in Ht.
  - destruct (kpage_facts x p (si_inv _ _ Hs) Hp) as (Ha & Hl & _ & _).
    rewrite (table_some _ _ _ p) in Ht by done. by simplify_eq.
Qed.

Lemma is_table_kpage dirs x a : space_inv dirs x → is_table dirs x a → kpage x a.
Proof.
  intros Hs [Ha|(pd & i & Hpd & Hi & Ht)]; [by apply (si_dirs _ _ Hs)|].
  by eapply (table_page dirs x pd i a).
Qed.

Lemma word_kept x x' a j : 0 ≤ j < 1024 → kept x x' a → word (ram x') (a + 4 * j) = word (ram x) (a + 4 * j).
Proof. intros Hj [_ H]. unfold word. rewrite !lookup_total_alt, !H by lia. done. Qed.

Lemma pde_kept dirs x x' pd i :
  (∀ a, is_table dirs x a → kept x x' a) → pd ∈ dirs → 0 ≤ i < 1024 →
  pde (ram x') pd i = pde (ram x) pd i.
Proof. intros H Hpd Hi. apply word_kept; [lia|]. apply H. by left. Qed.

Lemma table_kept dirs x x' pd i :
  (∀ a, is_table dirs x a → kept x x' a) → pd ∈ dirs → 0 ≤ i < USER_TABLES →
  table (ram x') pd i = table (ram x) pd i.
Proof.
  unfold USER_TABLES. intros H Hpd Hi. unfold table. by rewrite (pde_kept dirs x x' pd i) by (done || lia).
Qed.

Lemma pte_kept dirs x x' pd n :
  (∀ a, is_table dirs x a → kept x x' a) → pd ∈ dirs → 0 ≤ n < USER_PAGES →
  pte (ram x') pd n = pte (ram x) pd n.
Proof.
  intros H Hpd Hn. destruct (user_index n Hn) as (Hi & Hj & _). unfold pte.
  rewrite (table_kept dirs x x') by done. destruct (table (ram x) pd (n / 1024)) as [pt|] eqn:Et; [|done].
  apply word_kept; [done|]. apply H. right. by exists pd, (n / 1024).
Qed.

(** What leaves the table pages alone leaves the address spaces alone. *)
Lemma spaces_frame dirs x x' :
  space_inv dirs x → inv x' → (∀ a, is_table dirs x a → kept x x' a) →
  space_inv dirs x' ∧ same_spaces dirs x x'.
Proof.
  intros Hs Hinv Hk. split; [|intros pd Hpd; split; intros; by eauto using pde_kept, pte_kept].
  split; [done| |].
  - intros pd Hpd. destruct (si_dirs _ _ Hs pd Hpd) as [H1 H2 H3]. split.
    + apply Hk. by left.
    + intros i Hi. rewrite (pde_kept dirs x x') by (done || unfold USER_TABLES in Hi; lia).
      destruct (H2 i Hi) as [E|(pt & E & Hp)]; [by left|]. right. exists pt. split; [done|].
      apply Hk. right. exists pd, i. split; [done|]. split; [done|].
      destruct (kpage_facts x pt (si_inv _ _ Hs) Hp) as (Ha & Hl & _). by apply table_some.
    + intros n Hn. rewrite (pte_kept dirs x x') by done. by apply H3.
  - intros pd pd' i pt Hpd Hpd' Hi Ht. rewrite (table_kept dirs x x') in Ht by done.
    destruct (si_sep _ _ Hs pd pd' i pt Hpd Hpd' Hi Ht) as [Hne Hinj]. split; [done|].
    intros i' Hi' Ht'. rewrite (table_kept dirs x x') in Ht' by done. by apply Hinj.
Qed.

Lemma kpage_in_use x a : kpage x a → in_use x a.
Proof. intros (i & ? & ? & ?). by exists KernelPool, i. Qed.

(** A page is kept when other pages are handed out or given back. *)
Lemma marked_kept w i n v x x' a :
  inv x → marked w i n v x x' → kpage x a →
  ¬ page_in (base (pool_of w x) + 4096 * i) n a → kept x x' a.
Proof.
  intros Hinv Hm Hk Hno. destruct (kpage_facts x a Hinv Hk) as (Ha & Hl & Hh & _).
  pose proof Hm as (Hi & Hle & _ & _ & Hb & _ & Hch). split.
  - destruct Hk as (k & Hk & -> & Hbit). exists k.
    pose proof (marked_cnt _ _ _ _ _ _ KernelPool Hm) as Ec. pose proof (Hb KernelPool) as Eb.
    pose proof (marked_bit _ _ _ _ _ _ KernelPool k Hm) as Ek. simpl in *.
    rewrite Ec, Eb, Ek by lia. split_and!; [lia|lia|done|]. rewrite decide_False; [done|].
    intros [<- Hd]. apply Hno. exists (k - i). simpl. lia.
  - intros y Hy. apply Hch. intros Hin. apply Hno.
    pose proof (pool_align _ _ (inv_pools _ Hinv w)) as Hal.
    pose proof (Z.div_mod a 4096). pose proof (Z.div_mod (base (pool_of w x)) 4096).
    exists (a / 4096 - base (pool_of w x) / 4096 - i). lia.
Qed.

(** Handing out pages leaves the address spaces alone. *)
Lemma space_alloc dirs w i n x x' :
  space_inv dirs x → marked w i n true x x' → space_inv dirs x' ∧ same_spaces dirs x x'.
Proof.
  intros Hs Hm. pose proof (si_inv _ _ Hs) as Hinv. apply spaces_frame; [done|by eapply marked_inv|].
  intros a Ha. pose proof (is_table_kpage _ _ _ Hs Ha) as Hk.
  eapply marked_kept; [done..|]. intros (k & Hk' & ->).
  destruct Hm as (Hi & Hle & Hfree & _). apply kpage_in_use in Hk as (w' & j & Hj & E & Hb).
  destruct (page_inj x w w' (i + k) j Hinv) as [<- <-]; [lia..|].
  rewrite (Hfree (i + k)) in Hb by lia. done.
Qed.

#[export] Instance user_kept_preorder : PreOrder user_kept.
Proof.
  split; [done|]. intros x1 x2 x3 [E1 H1] [E2 H2]. split; [congruence|]. intros a Ha.
  rewrite H2 by (by rewrite E1). by apply H1.
Qed.

(** Pages of the kernel pool lie below the user pool. *)
Lemma user_kept_write x a n m' :
  inv x → kpage x a → 0 ≤ n → changes_at (a + n) 4 (ram x) m' → n + 4 ≤ 4096 →
  user_kept x (set_ram m' x).
Proof.
  intros Hinv (i & Hi & -> & _) Hn [Hch _] Hle. split; [done|]. intros y Hy. cbn [ram set_ram].
  apply Hch. pose proof (inv_disjoint _ Hinv) as Hd. unfold pool_end in *. lia.
Qed.

Lemma user_kept_alloc i n x x' : inv x → marked KernelPool i n true x x' → user_kept x x'.
Proof.
  intros Hinv (Hi & Hle & _ & _ & _ & Ho & Hch). split.
  - by apply (Ho UserPool).
  - intros y Hy. apply Hch. simpl in *. pose proof (inv_disjoint _ Hinv) as Hd. unfold pool_end in *. lia.
Qed.

Lemma inv_set_ram x m : inv x → dom m = dom (ram x) → inv (set_ram m x).
Proof.
  intros [Hp Hd] Hdom. split; [|done]. intros w.
  assert (pool_of w (set_ram m x) = pool_of w x) as -> by (by destruct w).
  destruct (Hp w) as [H1 H2 H3 H4 H5]. split; [done..|]. intros a Ha. cbn [ram set_ram].
  apply elem_of_dom. rewrite Hdom. apply elem_of_dom. by apply H5.
Qed.

(** The address spaces with entry [n] of [pd] replaced. *)
Definition wrote dirs x x' pd n e : Prop :=
  ∀ pd', pd' ∈ dirs →
    (∀ i, 0 ≤ i < USER_TABLES → pde (ram x') pd' i = pde (ram x) pd' i) ∧
    (∀ n', 0 ≤ n' < USER_PAGES →
       pte (ram x') pd' n' = if decide (pd' = pd ∧ n' = n) then e else pte (ram x) pd' n').

Lemma space_write dirs x pd n pt e m' :
  space_inv dirs x → pd ∈ dirs → 0 ≤ n < USER_PAGES →
  table (ram x) pd (n / 1024) = Some pt → is_entry e →
  word m' (pt + 4 * (n mod 1024)) = e → changes_at (pt + 4 * (n mod 1024)) 4 (ram x) m' →
  space_inv dirs (set_ram m' x) ∧ wrote dirs x (set_ram m' x) pd n e.
Proof.
  intros Hs Hpd Hn Ht He Hw Hch. destruct (user_index n Hn) as (Hi & Hj & En).
  pose proof (si_inv _ _ Hs) as Hinv. destruct (table_page _ _ _ _ _ Hs Hpd Hi Ht) as [Hk _].
  destruct (kpage_facts x pt Hinv Hk) as (Ha & _).
  assert (∀ a j, is_table dirs x a → a ≠ pt → 0 ≤ j < 1024 →
    word m' (a + 4 * j) = word (ram x) (a + 4 * j)) as Hother.
  { intros a j Hta Hne Hj'. eapply word_changes; [done|].
    destruct (kpage_facts x a Hinv (is_table_kpage _ _ _ Hs Hta)) as (Ha' & _).
    destruct (pages_apart a pt Ha' Ha Hne); lia. }
  assert (∀ pd' i, pd' ∈ dirs → 0 ≤ i < USER_TABLES → pde m' pd' i = pde (ram x) pd' i) as Hpde.
  { unfold USER_TABLES. intros pd' i Hpd' Hi'. apply Hother; [by left| |lia].
    intros ->. by destruct (si_sep _ _ Hs pd pt (n / 1024) pt Hpd Hpd' Hi Ht). }
  assert (∀ pd' i, pd' ∈ dirs → 0 ≤ i < USER_TABLES → table m' pd' i = table (ram x) pd' i) as Htab.
  { intros pd' i Hpd' Hi'. unfold table. by rewrite Hpde. }
  assert (wrote dirs x (set_ram m' x) pd n e) as Hwr.
  { intros pd' Hpd'. split; [by auto|]. intros n' Hn'. cbn [ram set_ram]. unfold pte.
    destruct (user_index n' Hn') as (Hi' & Hj' & En'). rewrite Htab by done.
    case_decide as Hd; [destruct Hd as [-> ->]; by rewrite Ht|].
    destruct (table (ram x) pd' (n' / 1024)) as [pt'|] eqn:Et; [|done].
    destruct (decide (pt' = pt)) as [->|Hne].
    - destruct (si_sep _ _ Hs pd pd' (n / 1024) pt Hpd Hpd' Hi Ht) as [_ H].
      destruct (H _ Hi' Et) as [<- E]. eapply word_changes; [done|].
      assert (n' mod 1024 ≠ n mod 1024) by (intros E'; apply Hd; split; [done|lia]). lia.
    - apply Hother; [|done|done]. right. by exists pd', (n' / 1024). }
  split; [|done]. split; [apply inv_set_ram; [done|apply Hch]| |].
  - intros pd' Hpd'. destruct (si_dirs _ _ Hs pd' Hpd') as [H1 H2 H3]. split; [done| |].
    + intros i Hi'. cbn [ram set_ram]. rewrite Hpde by done. by apply H2.
    + intros n' Hn'. rewrite (proj2 (Hwr pd' Hpd') n' Hn'). case_decide; [done|by apply H3].
  - cbn [ram set_ram]. intros pd1 pd2 i pt' H1 H2 Hi'. rewrite Htab by done. intros Ht'.
    destruct (si_sep _ _ Hs pd1 pd2 i pt' H1 H2 Hi' Ht') as [Hne Hinj]. split; [done|].
    intros i2 Hi2. rewrite Htab by done. by apply Hinj.
Qed.

(** A fresh zeroed page table hung into a directory changes no entry. *)
Lemma space_new_table dirs x pd i pt m' :
  space_inv dirs x → pd ∈ dirs → 0 ≤ i < USER_TABLES → pde (ram x) pd i = 0 →
  kpage x pt → ¬ is_table dirs x pt → (∀ j, 0 ≤ j < 1024 → word (ram x) (pt + 4 * j) = 0) →
  word m' (pd + 4 * i) = pt - PHYS_BASE + 7 → changes_at (pd + 4 * i) 4 (ram x) m' →
  space_inv dirs (set_ram m' x) ∧ table m' pd i = Some pt ∧
  ∀ pd' n, pd' ∈ dirs → 0 ≤ n < USER_PAGES → pte m' pd' n = pte (ram x) pd' n.
Proof.
  intros Hs Hpd Hi E0 Hk Hnt Hz Hw Hch. pose proof (si_inv _ _ Hs) as Hinv.
  destruct (kpage_facts x pt Hinv Hk) as (Ha & Hl & _).
  destruct (kpage_facts x pd Hinv (is_table_kpage _ _ _ Hs (or_introl Hpd))) as (Hda & _).
  assert (∀ a j, kpage x a → a ≠ pd → 0 ≤ j < 1024 →
    word m' (a + 4 * j) = word (ram x) (a + 4 * j)) as Hother.
  { unfold USER_TABLES in Hi. intros a j Hka Hne Hj'. eapply word_changes; [done|].
    destruct (kpage_facts x a Hinv Hka) as (Ha' & _).
    destruct (pages_apart a pd Ha' Hda Hne); lia. }
  assert (∀ pd' i', pd' ∈ dirs → 0 ≤ i' < USER_TABLES →
    pde m' pd' i' = if decide (pd' = pd ∧ i' = i) then pt - PHYS_BASE + 7 else pde (ram x) pd' i') as Hpde.
  { unfold USER_TABLES in *. intros pd' i' Hpd' Hi'. unfold pde.
    case_decide as Hd; [destruct Hd as [-> ->]; done|]. destruct (decide (pd' = pd)) as [->|Hne].
    - eapply word_changes; [done|]. assert (i' ≠ i) by naive_solver. lia.
    - apply Hother; [|done|lia]. by apply (si_dirs _ _ Hs). }
  assert (∀ pd' i', pd' ∈ dirs → 0 ≤ i' < USER_TABLES →
    table m' pd' i' = if decide (pd' = pd ∧ i' = i) then Some pt else table (ram x) pd' i') as Htab.
  { intros pd' i' Hpd' Hi'. case_decide as Hd.
    - apply table_some; [done..|]. rewrite Hpde, decide_True by done. done.
    - unfold table. by rewrite Hpde, decide_False by done. }
  assert (∀ pd' n, pd' ∈ dirs → 0 ≤ n < USER_PAGES → pte m' pd' n = pte (ram x) pd' n) as Hpte.
  { intros pd' n Hpd' Hn. destruct (user_index n Hn) as (Hi' & Hj & _). unfold pte. rewrite Htab by done.
    case_decide as Hd.
    - destruct Hd as [-> ->]. unfold table. rewrite E0. simpl. rewrite Hother; [by apply Hz|done| |done].
      intros ->. apply Hnt. by left.
    - destruct (table (ram x) pd' (n / 1024)) as [pt'|] eqn:Et; [|done].
      destruct (table_page _ _ _ _ _ Hs Hpd' Hi' Et) as [Hk' _]. apply Hother; [done| |done].
      intros ->. by destruct (si_sep _ _ Hs pd' pd _ _ Hpd' Hpd Hi' Et). }
  split; [|split; [rewrite Htab, decide_True by done; done|done]].
  split; [apply inv_set_ram; [done|apply Hch]| |].
  - intros pd' Hpd'. destruct (si_dirs _ _ Hs pd' Hpd') as [H1 H2 H3]. split; [done| |].
    + intros i' Hi'. cbn [ram set_ram]. rewrite Hpde by done. case_decide; [right; by exists pt|by apply H2].
    + intros n Hn. cbn [ram set_ram]. rewrite Hpte by done. by apply H3.
  - cbn [ram set_ram]. intros pd1 pd2 i1 pt1 H1 H2 Hi1. rewrite Htab by done. case_decide as Hd1.
    + destruct Hd1 as [-> ->]. intros [= <-]. split; [intros ->; apply Hnt; by left|].
      intros i2 Hi2. rewrite Htab by done. case_decide as Hd2; [by destruct Hd2 as [-> ->]|].
      intros Ht2. destruct Hnt. right. by exists pd2, i2.
    + intros Ht1. destruct (si_sep _ _ Hs pd1 pd2 i1 pt1 H1 H2 Hi1 Ht1) as [Hne Hinj]. split; [done|].
      intros i2 Hi2. rewrite Htab by done. case_decide as Hd2; [|by apply Hinj].
      intros [= <-]. destruct Hnt. right. by exists pd1, i1.
Qed.
End spaces.

(** * The processor's view

    A cached translation agrees with the entry it was loaded from in address
    and permissions; the processor has set the accessed bit in memory, and the
    dirty bit when the cached copy has it. *)
Definition agrees (e p : Z) : Prop :=
  Z.testbit p 0 = true ∧ e / 4096 = p / 4096 ∧ Z.testbit e 1 = Z.testbit p 1 ∧
  Z.testbit e 2 = Z.testbit p 2 ∧ Z.testbit p 5 = true ∧
  (Z.testbit e 6 = true → Z.testbit p 6 = true).

Definition active (s : mmu) : Z := cr3 s + PHYS_BASE.

Definition coherent (s : mmu) : Prop :=
  ∀ n e, 0 ≤ n < USER_PAGES → tlb s !! n = Some e → agrees e (pte (ram (mach s)) (active s) n).

Record mmu_inv (dirs : gset Z) (s : mmu) : Prop := {
  mi_space : space_inv dirs (mach s);
  mi_base : base_page_dir s ∈ dirs;
  mi_active : active s ∈ dirs;
  mi_tlb : coherent s }.

(** The registers and the translation buffer are the same. *)
Definition same_regs (s s' : mmu) : Prop :=
  ram_pages s' = ram_pages s ∧ base_page_dir s' = base_page_dir s ∧ cr3 s' = cr3 s ∧ tlb s' = tlb s.

Definition same_ptes (dirs : gset Z) (s s' : mmu) : Prop :=
  ∀ pd n, pd ∈ dirs → 0 ≤ n < USER_PAGES → pte (ram (mach s')) pd n = pte (ram (mach s)) pd n.

Section lookup.
Implicit Types (s : mmu) (dirs : gset Z).

Lemma read_word_ok s a Q :
  has_range (ram (mach s)) a 4 → Q (word (ram (mach s)) a) s → wp (Ops.read_word a) Q s.
Proof.
  intros Hr HQ. unfold Ops.read_word, Ops.on_mach, Palloc.Ops.on_ram. apply wp_zoom, wp_zoom.
  apply load32_ok; [done|]. by destruct s as [[]].
Qed.

Lemma write_word_ok s a w :
  is_u32 w → has_range (ram (mach s)) a 4 →
  wp (Ops.write_word a w) (λ _ s', ∃ m', s' = set_mach (set_ram m' (mach s)) s ∧
    word m' a = w ∧ changes_at a 4 (ram (mach s)) m') s.
Proof.
  intros Hw Hr. unfold Ops.write_word, Ops.on_mach, Palloc.Ops.on_ram. apply wp_zoom, wp_zoom.
  eapply wp_mono; [by apply store32_ok|]. intros [] m' H. by exists m'.
Qed.

Lemma pd_no_eq va : pd_no va = va / 4096 / 1024.
Proof.
  unfold pd_no, PDSHIFT, PTSHIFT, PTBITS, PGBITS. rewrite Z.shiftr_div_pow2, Z.div_div by lia. done.
Qed.

Lemma pt_no_eq va : pt_no va = (va / 4096) mod 1024.
Proof.
  unfold pt_no. change PTMASK with (Z.shiftl (Z.ones 10) 12). change PTSHIFT with 12.
  rewrite Z.shiftr_land, Z.shiftr_shiftl_l, Z.sub_diag, Z.shiftl_0_r by lia.
  rewrite Z.shiftr_div_pow2, Z.land_ones by lia. done.
Qed.

Lemma pde_create_ok {S} (s : S) pt :
  pt mod 4096 = 0 → PHYS_BASE ≤ pt → pde_create pt s = Ok (pt - PHYS_BASE + 7, s).
Proof.
  intros Ha Hl. unfold pde_create. rewrite pg_ofs_eq, Ha. simpl.
  rewrite (bind_ok _ _ s tt s) by done. rewrite (bind_ok _ _ s (pt - PHYS_BASE) s) by (by apply vtop_ok).
  unfold mret, M_ret. do 2 f_equal.
  rewrite <-!Z.lor_assoc. change (Z.lor PTE_U (Z.lor PTE_P PTE_W)) with 7.
  apply lor_low; [rewrite Zminus_mod, Ha; done|lia].
Qed.

Lemma pde_get_pt_ok {S} (s : S) pt :
  pt mod 4096 = 0 → PHYS_BASE ≤ pt → pt + 4096 ≤ 2 ^ 32 →
  pde_get_pt (pt - PHYS_BASE + 7) s = Ok (pt, s).
Proof.
  intros Ha Hl Hh. unfold PHYS_BASE in *. assert ((pt - 0xc0000000) mod 4096 = 0) as Ha'.
  { rewrite Zminus_mod, Ha. done. }
  unfold pde_get_pt. change PTE_P with (2 ^ 0).
  rewrite flag_bit, entry_bit by (done || lia). change (Z.testbit 7 0) with true.
  rewrite (bind_ok _ _ s tt s) by done.
  rewrite land_addr, entry_addr, ptov_ok by (done || unfold is_u32; lia).
  unfold PHYS_BASE. do 2 f_equal. lia.
Qed.

(** Reading a directory or table entry of an address space. *)
Lemma dir_range dirs s pd i :
  mmu_inv dirs s → pd ∈ dirs → 0 ≤ i < 1024 → has_range (ram (mach s)) (pd + 4 * i) 4.
Proof.
  intros Hm Hpd Hi. pose proof (mi_space _ _ Hm) as Hs.
  destruct (kpage_facts _ pd (si_inv _ _ Hs)) as (_ & _ & _ & Hr).
  { apply (dw_page _ _ (si_dirs _ _ Hs pd Hpd)). }
  intros y Hy. apply Hr. lia.
Qed.

Lemma table_range dirs s pd i pt j :
  mmu_inv dirs s → pd ∈ dirs → 0 ≤ i < USER_TABLES → table (ram (mach s)) pd i = Some pt →
  0 ≤ j < 1024 → has_range (ram (mach s)) (pt + 4 * j) 4 ∧ pt + 4 * j ≠ NULL.
Proof.
  intros Hm Hpd Hi Ht Hj. pose proof (mi_space _ _ Hm) as Hs.
  destruct (table_page _ _ _ _ _ Hs Hpd Hi Ht) as [Hk _].
  destruct (kpage_facts _ pt (si_inv _ _ Hs) Hk) as (_ & Hl & _ & Hr). unfold PHYS_BASE, NULL in *.
  split; [|lia]. intros y Hy. apply Hr. lia.
Qed.

(** The last step of [lookup_page]: from a directory entry that is there to
    the address of the page table entry. *)
Lemma table_entry_ok dirs s pd i pt j Q :
  mmu_inv dirs s → pd ∈ dirs → 0 ≤ i < USER_TABLES → table (ram (mach s)) pd i = Some pt →
  Q (pt + 4 * j) s →
  wp (Ops.read_word (pd + 4 * i)) (λ e s', wp (pt ← pde_get_pt e; mret (pt + 4 * j)) Q s') s.
Proof.
  intros Hm Hpd Hi Ht HQ. pose proof (mi_space _ _ Hm) as Hs.
  apply read_word_ok; [eapply dir_range; [done..|unfold USER_TABLES in Hi; lia]|].
  destruct (table_page _ _ _ _ _ Hs Hpd Hi Ht) as [Hk E]. unfold pde in E. rewrite E.
  destruct (kpage_facts _ pt (si_inv _ _ Hs) Hk) as (Ha & Hl & Hh & _).
  eapply wp_step; [by apply pde_get_pt_ok|]. by apply wp_ret.
Qed.

Lemma coherent_same dirs s s' :
  active s ∈ dirs → same_regs s s' → same_ptes dirs s s' → coherent s → coherent s'.
Proof.
  intros Ha (_ & _ & Ec & Et) Hp Hc n e Hn He. rewrite Et in He.
  replace (active s') with (active s) by (unfold active; by rewrite Ec).
  rewrite Hp by done. by apply Hc.
Qed.

Lemma mmu_inv_same dirs s s' :
  mmu_inv dirs s → space_inv dirs (mach s') → same_regs s s' → same_ptes dirs s s' → mmu_inv dirs s'.
Proof.
  intros [H1 H2 H3 H4] Hs Hr Hp. pose proof Hr as (_ & Eb & Ec & _).
  split; [done|by rewrite Eb|unfold active; by rewrite Ec|by eapply coherent_same].
Qed.

(** Handing out a kernel page for a table or a directory. *)
Lemma table_alloc_ok dirs s flags :
  pool_for flags = KernelPool → has_flag flags PAL_ASSERT = false → mmu_inv dirs s →
  wp (Ops.on_mach (Palloc.Ops.palloc_get_page flags)) (λ pt s',
    (pt = NULL ∧ s' = s ∧ exhausted KernelPool 1 (mach s)) ∨
    (pt ≠ NULL ∧ mmu_inv dirs s' ∧ same_regs s s' ∧ same_ptes dirs s s' ∧
     (∀ pd i, pd ∈ dirs → 0 ≤ i < 1024 → pde (ram (mach s')) pd i = pde (ram (mach s)) pd i) ∧
     kpage (mach s') pt ∧ ¬ is_table dirs (mach s') pt ∧ user_kept (mach s) (mach s') ∧
     (has_flag flags PAL_ZERO = true → ∀ j, 0 ≤ j < 1024 → word (ram (mach s')) (pt + 4 * j) = 0))) s.
Proof.
  intros Hw Hf Hm. pose proof (mi_space _ _ Hm) as Hs. pose proof (si_inv _ _ Hs) as Hinv.
  unfold Ops.on_mach, Palloc.Ops.palloc_get_page. apply wp_zoom.
  eapply wp_mono; [apply palloc_get_multiple_ok; [done|unfold is_u32; lia|by left]|].
  intros pt x Hgot. unfold got in Hgot. rewrite Hw in Hgot.
  destruct Hgot as [(-> & -> & [?|Hex])|(_ & Hnn & i & Ei & Hmk & Hz)]; [done|left; by destruct s|right].
  destruct (space_alloc dirs KernelPool i 1 _ _ Hs Hmk) as [Hs' Hsame].
  assert (same_regs s (set_mach x s)) as Hregs by done.
  assert (same_ptes dirs s (set_mach x s)) as Hptes by (intros pd n Hpd; by apply (Hsame pd)).
  pose proof Hmk as (Hi & Hle & Hfree & _ & Hb & _).
  split; [done|]. split; [by eapply mmu_inv_same|]. split; [done|]. split; [done|].
  split; [intros pd j Hpd; by apply (Hsame pd)|]. cbn [mach set_mach]. split_and!.
  - exists i. pose proof (marked_cnt _ _ _ _ _ _ KernelPool Hmk) as Ec.
    pose proof (marked_bit _ _ _ _ _ _ KernelPool i Hmk Hi) as Ek.
    pose proof (Hb KernelPool) as Eb. simpl in *. rewrite Ec, Eb, Ek, decide_True by (split; [done|lia]).
    split_and!; [lia..|done|done].
  - intros Ht. assert (is_table dirs (mach s) pt) as Ht'.
    { destruct Ht as [?|(pd & k & Hpd & Hk & E)]; [by left|right]. exists pd, k.
      split; [done|]. split; [done|]. unfold table in *.
      by rewrite (proj1 (Hsame pd Hpd)) in E by (unfold USER_TABLES in Hk; lia). }
    apply (is_table_kpage _ _ _ Hs) in Ht' as (k & Hk & E & Hbit). simpl in Ei.
    assert (k = i) as -> by lia. simpl in Hfree. rewrite (Hfree i) in Hbit by lia. done.
  - by eapply user_kept_alloc.
  - intros E j Hj. rewrite E in Hz. apply word_zero. intros k b Hkb. pose proof (lookup_lt_Some _ _ _ Hkb) as Hlt.
    rewrite length_replicate in Hlt. apply lookup_replicate in Hkb as [-> _].
    replace (pt + 4 * j + Z.of_nat k) with (pt + Z.of_nat (Z.to_nat (4 * j) + k)) by lia.
    apply Hz. apply lookup_replicate. lia.
Qed.

(** Looking up the entry of user page [n]: no entry changes; the address
    returned is that of the entry, or null when there is no table. *)
Definition looked dirs s pd n (create : bool) (r : Z) s' : Prop :=
  mmu_inv dirs s' ∧ same_regs s s' ∧ same_ptes dirs s s' ∧
  ((∃ pt, table (ram (mach s')) pd (n / 1024) = Some pt ∧ r = pt + 4 * (n mod 1024)) ∨
   (r = NULL ∧ s' = s ∧ table (ram (mach s)) pd (n / 1024) = None ∧
    (create = true → exhausted KernelPool 1 (mach s)))) ∧
  (create = false → s' = s) ∧ user_kept (mach s) (mach s').

Lemma user_page va : 0 ≤ va < PHYS_BASE → 0 ≤ va / 4096 < USER_PAGES.
Proof.
  unfold PHYS_BASE, USER_PAGES. intros Hva. pose proof (Z.div_mod va 4096).
  pose proof (Z.mod_pos_bound va 4096). lia.
Qed.

Lemma lookup_page_ok dirs s pd va create :
  mmu_inv dirs s → pd ∈ dirs → 0 ≤ va < PHYS_BASE →
  wp (Ops.lookup_page pd va create) (looked dirs s pd (va / 4096) create) s.
Proof.
  intros Hm Hpd Hva. pose proof (mi_space _ _ Hm) as Hs. pose proof (user_page va Hva) as Hn.
  destruct (user_index _ Hn) as (Hi & Hj & _). set (n := va / 4096) in *.
  assert (0 ≤ n / 1024 < 1024) as Hi' by (unfold USER_TABLES in Hi; lia).
  destruct (kpage_facts _ pd (si_inv _ _ Hs)) as (Hda & Hdl & _).
  { apply (dw_page _ _ (si_dirs _ _ Hs pd Hpd)). }
  unfold Ops.lookup_page. wp_assert (apply negb_true_iff, Z.eqb_neq; unfold PHYS_BASE, NULL in *; lia).
  wp_assert (unfold is_user_vaddr; rewrite (proj2 (Z.ltb_lt _ _)) by lia; apply orb_true_r).
  rewrite pd_no_eq, pt_no_eq. fold n. apply read_word_ok; [by eapply dir_range|]. wp_unbind.
  fold (pde (ram (mach s)) pd (n / 1024)).
  destruct (Z.eqb_spec (pde (ram (mach s)) pd (n / 1024)) 0) as [E0|Hne].
  - assert (table (ram (mach s)) pd (n / 1024) = None) as Et by (unfold table; by rewrite E0).
    destruct create; [|wp_go; split_and!; [done..| |done|done]; right; by split_and!].
    wp_unbind. eapply wp_mono; [by apply (table_alloc_ok dirs s PAL_ZERO)|].
    intros pt s1 [(-> & -> & Hex)|(Hnn & Hm1 & Hr1 & Hp1 & Hd1 & Hk & Hnt & Huk & Hz)].
    { rewrite Z.eqb_refl. wp_go. split_and!; [done..| |done|done]. right. by split_and!. }
    rewrite (proj2 (Z.eqb_neq _ _) Hnn). pose proof (mi_space _ _ Hm1) as Hs1.
    destruct (kpage_facts _ pt (si_inv _ _ Hs1) Hk) as (Ha & Hl & Hh & _).
    eapply wp_step; [by apply pde_create_ok|]. wp_unbind.
    eapply wp_mono; [apply write_word_ok; [unfold is_u32, PHYS_BASE in *; lia|by eapply dir_range]|].
    intros _ s2 (m' & -> & Hw & Hch). wp_go.
    destruct (space_new_table dirs (mach s1) pd (n / 1024) pt m') as (Hs2 & Ht2 & Hp2);
      [done|done|done|by rewrite Hd1|done|done|by apply Hz|done..|].
    assert (mmu_inv dirs (set_mach (set_ram m' (mach s1)) s1)) as Hm2.
    { eapply mmu_inv_same; [exact Hm1|done|done|]. intros pd' n' ? ?. by apply Hp2. }
    eapply table_entry_ok; [done..|]. split_and!; [done|..]; [by destruct Hr1 as (? & ? & ? & ?)..| | |done|].
    + intros pd' n' Hpd' Hn'. cbn [mach set_mach ram set_ram]. rewrite Hp2 by done. by apply Hp1.
    + left. by exists pt.
    + etransitivity; [exact Huk|]. cbn [mach set_mach].
      eapply (user_kept_write (mach s1) pd (4 * (n / 1024))); [apply Hs1| |lia|done|lia].
      apply (dw_page _ _ (si_dirs _ _ Hs1 pd Hpd)).
  - wp_go. destruct (table (ram (mach s)) pd (n / 1024)) as [pt|] eqn:Et.
    2: { unfold table in Et. by rewrite (proj2 (Z.eqb_neq _ _) Hne) in Et. }
    eapply table_entry_ok; [done..|]. split_and!; [done..| |done|done]. left. by exists pt.
Qed.
End lookup.
