(* ===== verification/PageOps.v ===== *)
(** The operations of [userprog/pagedir.c] on address spaces: each is shown to
    change exactly the entry it names, and to keep the translation buffer in
    step with the page tables. *)
From Stdlib Require Import ZArith Lia.
From stdpp Require Import base tactics option numbers list gmap.
From S2P Require Import Prelude Bitmap CString Bytes Palloc PageDir.

Open Scope Z_scope.

(** What an entry says. *)
Record entry := mk_entry {
  present : bool; frame : Z; writable : bool; user : bool; accessed : bool; dirty : bool }.

Definition decode (e : Z) : entry :=
  mk_entry (Z.testbit e 0) (4096 * (e / 4096) + PHYS_BASE) (Z.testbit e 1) (Z.testbit e 2)
    (Z.testbit e 5) (Z.testbit e 6).

(** Page [n] of the address space [pd]. *)
Definition lookup (s : mmu) (pd n : Z) : entry := decode (pte (ram (mach s)) pd n).

Definition set_present (b : bool) (x : entry) : entry :=
  mk_entry b (frame x) (writable x) (user x) (accessed x) (dirty x).
Definition set_accessed (b : bool) (x : entry) : entry :=
  mk_entry (present x) (frame x) (writable x) (user x) b (dirty x).
Definition set_dirty (b : bool) (x : entry) : entry :=
  mk_entry (present x) (frame x) (writable x) (user x) (accessed x) b.

Section decode.

Lemma entry_set e k : is_entry e → 1 ≤ k < 12 →
  is_entry (Z.lor e (2 ^ k)) ∧ Z.lor e (2 ^ k) / 4096 = e / 4096.
Proof.
  intros [He Hp] Hk. assert (is_u32 (Z.lor e (2 ^ k))) as Hu.
  { apply is_u32_lor; [done|]. unfold is_u32. split; [lia|]. apply Z.pow_lt_mono_r; lia. }
  assert (Z.lor e (2 ^ k) / 4096 = e / 4096) as Ha.
  { apply same_addr; [apply He|apply Hu|]. intros j Hj. rewrite set_flag_bit by lia.
    by rewrite decide_False by lia. }
  split; [|done]. split; [done|]. rewrite Ha, set_flag_bit, decide_False by lia. done.
Qed.

Lemma entry_clear e k : is_entry e → 0 ≤ k < 12 →
  is_entry (Z.land e (lnot32 (2 ^ k))) ∧ Z.land e (lnot32 (2 ^ k)) / 4096 = e / 4096.
Proof.
  intros [He Hp] Hk. pose proof (is_u32_land e (lnot32 (2 ^ k)) He) as Hu.
  assert (Z.land e (lnot32 (2 ^ k)) / 4096 = e / 4096) as Ha.
  { apply same_addr; [apply He|apply Hu|]. intros j Hj.
    rewrite clear_flag_bit by (done || lia). by rewrite decide_False by lia. }
  split; [|done]. split; [done|]. rewrite Ha, clear_flag_bit by (done || lia). case_decide; done.
Qed.

(** Decoding after a change of one flag. *)
Ltac decode_tac Ha :=
  unfold decode, set_present, set_accessed, set_dirty;
  cbn [present frame writable user accessed dirty];
  rewrite Ha, ?set_flag_bit, ?clear_flag_bit by (done || lia); done.

Lemma decode_dirty e (b : bool) : is_entry e →
  let e' := if b then Z.lor e PTE_D else Z.land e (lnot32 PTE_D) in
  is_entry e' ∧ decode e' = set_dirty b (decode e).
Proof.
  intros He. pose proof He as [Hu _]. change PTE_D with (2 ^ 6). destruct b; cbn zeta iota.
  - destruct (entry_set e 6 He ltac:(lia)) as [? Ha]. split; [done|]. decode_tac Ha.
  - destruct (entry_clear e 6 He ltac:(lia)) as [? Ha]. split; [done|]. decode_tac Ha.
Qed.

Lemma decode_accessed e (b : bool) : is_entry e →
  let e' := if b then Z.lor e PTE_A else Z.land e (lnot32 PTE_A) in
  is_entry e' ∧ decode e' = set_accessed b (decode e).
Proof.
  intros He. pose proof He as [Hu _]. change PTE_A with (2 ^ 5). destruct b; cbn zeta iota.
  - destruct (entry_set e 5 He ltac:(lia)) as [? Ha]. split; [done|]. decode_tac Ha.
  - destruct (entry_clear e 5 He ltac:(lia)) as [? Ha]. split; [done|]. decode_tac Ha.
Qed.

Lemma decode_absent e : is_entry e →
  is_entry (Z.land e (lnot32 PTE_P)) ∧ decode (Z.land e (lnot32 PTE_P)) = set_present false (decode e).
Proof.
  intros He. pose proof He as [Hu _]. change PTE_P with (2 ^ 0).
  destruct (entry_clear e 0 He ltac:(lia)) as [? Ha]. split; [done|]. decode_tac Ha.
Qed.

Lemma pte_create_user_ok {S} (s : S) k (w : bool) :
  k mod 4096 = 0 → PHYS_BASE ≤ k < 2 ^ 32 →
  ∃ e, pte_create_user k w s = Ok (e, s) ∧ is_entry e ∧ decode e = mk_entry true k w true false false.
Proof.
  intros Ha Hk. assert ((k - PHYS_BASE) mod 4096 = 0) as Ha' by (rewrite Zminus_mod, Ha; done).
  set (f := if w then 7 else 5). assert (0 ≤ f < 4096) as Hf by (subst f; destruct w; lia).
  exists (k - PHYS_BASE + f). split; [|split].
  - unfold pte_create_user, pte_create_kernel. rewrite pg_ofs_eq, Ha. cbn [Z.eqb].
    unfold mbind, M_bind. cbn [ASSERT mret M_ret]. rewrite vtop_ok by lia. unfold mret, M_ret.
    do 2 f_equal. rewrite <-!Z.lor_assoc, <-(lor_low (k - PHYS_BASE) f) by done. by destruct w.
  - unfold PHYS_BASE in *. split; [unfold is_u32; lia|]. intros _.
    pose proof (Z.div_mod k 4096). apply Z.div_lt_upper_bound; lia.
  - unfold decode. rewrite entry_addr, !entry_bit by (done || lia).
    replace (k - PHYS_BASE + PHYS_BASE) with k by lia. by destruct w.
Qed.

Lemma wp_pte_create_user {S} (s : S) k (w : bool) Q :
  k mod 4096 = 0 → PHYS_BASE ≤ k < 2 ^ 32 →
  (∀ e, is_entry e → decode e = mk_entry true k w true false false → Q e s) →
  wp (pte_create_user k w) Q s.
Proof.
  intros Ha Hk HQ. destruct (pte_create_user_ok s k w Ha Hk) as (e & Ee & He & Ed).
  apply wp_ok. exists e, s. auto.
Qed.
End decode.

(** * Changing one entry *)

(** Every address space is as before, except that entry [n] of [pd] is [f] of
    what it was; the frames of the user pool are untouched. *)
Record changed (dirs : gset Z) (s s' : mmu) (pd n : Z) (f : entry → entry) : Prop := {
  ch_lookup : ∀ pd' n', pd' ∈ dirs → 0 ≤ n' < USER_PAGES →
    lookup s' pd' n' = if decide (pd' = pd ∧ n' = n) then f (lookup s pd' n') else lookup s pd' n';
  ch_user : user_kept (mach s) (mach s');
  ch_regs : ram_pages s' = ram_pages s ∧ base_page_dir s' = base_page_dir s ∧ cr3 s' = cr3 s }.

(** The invariant without the translation buffer. *)
Record tables_inv (dirs : gset Z) (s : mmu) : Prop := {
  ti_space : space_inv dirs (mach s);
  ti_base : base_page_dir s ∈ dirs;
  ti_active : active s ∈ dirs }.

(** A cached translation only depends on what the entry says. *)
Definition valid_cache (e : Z) (x : entry) : Prop :=
  present x = true ∧ 4096 * (e / 4096) + PHYS_BASE = frame x ∧ Z.testbit e 1 = writable x ∧
  Z.testbit e 2 = user x ∧ accessed x = true ∧ (Z.testbit e 6 = true → dirty x = true).

Section change.
Implicit Types (s : mmu) (dirs : gset Z).

Lemma agrees_decode e p : agrees e p ↔ valid_cache e (decode p).
Proof.
  unfold agrees, valid_cache, decode. simpl.
  split; intros (? & ? & ? & ? & ? & ?); split_and!; try done; lia.
Qed.

Lemma coherent_lookup s :
  coherent s ↔ ∀ n e, 0 ≤ n < USER_PAGES → tlb s !! n = Some e → valid_cache e (lookup s (active s) n).
Proof.
  unfold coherent. split; intros H n e Hn He; by apply agrees_decode, H.
Qed.

Lemma mmu_tables dirs s : mmu_inv dirs s → tables_inv dirs s.
Proof. by intros [? ? ? ?]. Qed.

Lemma lookup_entry dirs s pd n :
  mmu_inv dirs s → pd ∈ dirs → 0 ≤ n < USER_PAGES → is_entry (pte (ram (mach s)) pd n).
Proof. intros Hm Hpd Hn. by apply (si_dirs _ _ (mi_space _ _ Hm) pd Hpd). Qed.

Lemma put_entry_ok dirs s pd n pt e f :
  mmu_inv dirs s → pd ∈ dirs → 0 ≤ n < USER_PAGES →
  table (ram (mach s)) pd (n / 1024) = Some pt → is_entry e →
  decode e = f (lookup s pd n) →
  wp (Ops.write_word (pt + 4 * (n mod 1024)) e)
    (λ _ s', tables_inv dirs s' ∧ same_regs s s' ∧ changed dirs s s' pd n f) s.
Proof.
  intros Hm Hpd Hn Ht He Ef. destruct (user_index n Hn) as (Hi & Hj & _).
  destruct (table_range dirs s pd _ pt (n mod 1024) Hm Hpd Hi Ht Hj) as [Hr _].
  eapply wp_mono; [apply write_word_ok; [apply He|done]|].
  intros [] s' (m' & -> & Hw & Hch).
  destruct (space_write dirs (mach s) pd n pt e m' (mi_space _ _ Hm) Hpd Hn Ht He Hw Hch) as [Hs Hwr].
  split; [split; [done|apply Hm|apply Hm]|]. split; [done|].
  split; [|eapply (user_kept_write _ pt (4 * (n mod 1024))); [apply (mi_space _ _ Hm)| |lia|done|lia];
    by eapply (table_page dirs _ pd (n / 1024) pt (mi_space _ _ Hm))|done].
  intros pd' n' Hpd' Hn'. unfold lookup. cbn [mach set_mach].
  rewrite (proj2 (Hwr pd' Hpd') n' Hn'). case_decide as Hd; [|done]. by destruct Hd as [-> ->].
Qed.

(** Without a flush: cached copies of the entry stay valid. *)
Lemma unflushed dirs s s' pd n f :
  mmu_inv dirs s → tables_inv dirs s' → same_regs s s' → changed dirs s s' pd n f →
  (∀ e, valid_cache e (lookup s pd n) → valid_cache e (f (lookup s pd n))) → mmu_inv dirs s'.
Proof.
  intros Hm [H1 H2 H3] (_ & _ & Ec & Et) Hch Hf. split; [done..|].
  apply coherent_lookup. intros k e Hk He. rewrite Et in He.
  replace (active s') with (active s) in * by (unfold active; by rewrite Ec).
  rewrite (ch_lookup _ _ _ _ _ _ Hch) by done. pose proof (proj1 (coherent_lookup s) (mi_tlb _ _ Hm) k e Hk He) as Hv.
  case_decide as Hd; [|done]. destruct Hd as [E1 ->]. rewrite E1 in *. by apply Hf.
Qed.

(** The registers after a flush of [pd]. *)
Definition flushed (pd : Z) (s s' : mmu) : Prop :=
  mach s' = mach s ∧ ram_pages s' = ram_pages s ∧ base_page_dir s' = base_page_dir s ∧
  cr3 s' = cr3 s ∧ tlb s' = if decide (active s = pd) then ∅ else tlb s.

Lemma active_range dirs s : tables_inv dirs s → PHYS_BASE ≤ active s ∧ active s + 4096 ≤ 2 ^ 32.
Proof.
  intros [Hs _ Ha]. destruct (kpage_facts _ (active s) (si_inv _ _ Hs)) as (_ & ? & ? & _); [|done].
  apply (dw_page _ _ (si_dirs _ _ Hs _ Ha)).
Qed.

Lemma invalidate_ok dirs s pd :
  tables_inv dirs s → wp (Ops.invalidate_pagedir pd) (λ _ s', flushed pd s s') s.
Proof.
  intros Ht. destruct (active_range dirs s Ht) as [Hl Hh]. unfold active, PHYS_BASE in Hl, Hh.
  unfold Ops.invalidate_pagedir, Ops.active_pd. wp_go.
  apply wp_ptov; [lia|]. fold (active s). destruct (Z.eqb_spec (active s) pd) as [<-|Hne].
  - unfold Ops.pagedir_activate. wp_go.
    rewrite (proj2 (Z.eqb_neq (active s) NULL)) by (unfold active, PHYS_BASE, NULL; lia).
    apply wp_vtop; [unfold active, PHYS_BASE; lia|]. wp_go. unfold flushed. simpl.
    rewrite decide_True by done. unfold active. split_and!; [done..|lia|done].
  - wp_go. unfold flushed. by rewrite decide_False.
Qed.

(** With one: the buffer has no copy of any entry of [pd]. *)
Lemma with_flush dirs s s1 s' pd n f :
  mmu_inv dirs s → tables_inv dirs s1 → same_regs s s1 → changed dirs s s1 pd n f → flushed pd s1 s' →
  mmu_inv dirs s' ∧ changed dirs s s' pd n f.
Proof.
  intros Hm [H1 H2 H3] (Er & Eb1 & Ec & Et) [Hch Hu _] (Em & Er' & Eb & Ec' & Et').
  assert (active s' = active s1) as Ea by (unfold active; by rewrite Ec').
  assert (active s1 = active s) as Ea1 by (unfold active; by rewrite Ec).
  assert (∀ pd' n', lookup s' pd' n' = lookup s1 pd' n') as El by (intros; unfold lookup; by rewrite Em).
  split; [|split; [intros pd' n' Hpd' Hn'; rewrite El; by apply Hch|by rewrite Em|split_and!; congruence]].
  split; [by rewrite Em|by rewrite Eb|by rewrite Ea|].
  apply coherent_lookup. intros k e Hk He. rewrite Et' in He. case_decide as Hd; [done|].
  rewrite El, Ea, Ea1 in *. rewrite Et in He. rewrite Hch by (done || apply Hm).
  rewrite decide_False by (by intros [? _]). by apply (proj1 (coherent_lookup s) (mi_tlb _ _ Hm)).
Qed.
End change.

(** * The operations *)
Section ops.
Context (dirs : gset Z).
Implicit Types (s : mmu).

(** [lookup_page] without creation, then the entry itself. *)
Lemma find_ok s pd va Q :
  mmu_inv dirs s → pd ∈ dirs → 0 ≤ va < PHYS_BASE →
  (∀ pt, table (ram (mach s)) pd (va / 4096 / 1024) = Some pt →
     pt + 4 * ((va / 4096) mod 1024) ≠ NULL → Q (pt + 4 * ((va / 4096) mod 1024)) s) →
  (lookup s pd (va / 4096) = decode 0 → Q NULL s) →
  wp (Ops.lookup_page pd va false) Q s.
Proof.
  intros Hm Hpd Hva HS HN. eapply wp_mono; [by apply lookup_page_ok|].
  intros r s' (_ & _ & _ & Hr & E & _). rewrite E in * by done.
  destruct (user_index _ (user_page _ Hva)) as (Hi & Hj & _).
  destruct Hr as [(pt & Ht & ->)|(-> & _ & Ht & _)].
  - apply HS; [done|]. by eapply table_range.
  - apply HN. unfold lookup, pte. by rewrite Ht.
Qed.

Lemma read_entry_ok s pd n pt Q :
  mmu_inv dirs s → pd ∈ dirs → 0 ≤ n < USER_PAGES → table (ram (mach s)) pd (n / 1024) = Some pt →
  Q (pte (ram (mach s)) pd n) s → wp (Ops.read_word (pt + 4 * (n mod 1024))) Q s.
Proof.
  intros Hm Hpd Hn Ht HQ. destruct (user_index n Hn) as (Hi & Hj & _).
  apply read_word_ok; [by eapply table_range|]. unfold pte in HQ. by rewrite Ht in HQ.
Qed.

Ltac find Hm Hpd Hva :=
  wp_unbind; apply find_ok; [exact Hm|exact Hpd|exact Hva|
    let pt := fresh "pt" in let Ht := fresh "Ht" in let Hnn := fresh "Hnn" in
    intros pt Ht Hnn; rewrite (proj2 (Z.eqb_neq _ _) Hnn); cbn [negb]; wp_unbind;
    apply (read_entry_ok _ _ _ _ _ Hm Hpd (user_page _ Hva) Ht)|
    let E0 := fresh "E0" in intros E0; rewrite Z.eqb_refl; cbn [negb]].

Lemma flag_present e : flag e PTE_P = present (decode e).
Proof. by apply (flag_bit e 0). Qed.
Lemma flag_dirty e : flag e PTE_D = dirty (decode e).
Proof. by apply (flag_bit e 6). Qed.
Lemma flag_accessed e : flag e PTE_A = accessed (decode e).
Proof. by apply (flag_bit e 5). Qed.

Lemma pagedir_get_page_ok s pd ua Q :
  mmu_inv dirs s → pd ∈ dirs → 0 ≤ ua < PHYS_BASE →
  Q (if present (lookup s pd (ua / 4096)) then frame (lookup s pd (ua / 4096)) + ua mod 4096 else NULL) s →
  wp (Ops.pagedir_get_page pd ua) Q s.
Proof.
  intros Hm Hpd Hva HQ. unfold Ops.pagedir_get_page.
  wp_assert (unfold is_user_vaddr; apply Z.ltb_lt; lia). find Hm Hpd Hva.
  - rewrite flag_present. fold (lookup s pd (ua / 4096)).
    destruct (lookup_entry dirs s pd _ Hm Hpd (user_page _ Hva)) as [Hu Hp].
    destruct (present (lookup s pd (ua / 4096))) eqn:Ep; [|by wp_go].
    wp_unbind. unfold pte_get_page. rewrite land_addr by done. apply wp_ptov.
    + specialize (Hp Ep). pose proof (Z.div_pos (pte (ram (mach s)) pd (ua / 4096)) 4096).
      unfold is_u32 in Hu. lia.
    + wp_go. by rewrite pg_ofs_eq.
  - wp_go. by rewrite E0 in HQ.
Qed.

Lemma pagedir_is_dirty_ok s pd va Q :
  mmu_inv dirs s → pd ∈ dirs → 0 ≤ va < PHYS_BASE → Q (dirty (lookup s pd (va / 4096))) s →
  wp (Ops.pagedir_is_dirty pd va) Q s.
Proof.
  intros Hm Hpd Hva HQ. unfold Ops.pagedir_is_dirty. find Hm Hpd Hva; wp_go.
  - by rewrite flag_dirty.
  - by rewrite E0 in HQ.
Qed.

Lemma pagedir_is_accessed_ok s pd va Q :
  mmu_inv dirs s → pd ∈ dirs → 0 ≤ va < PHYS_BASE → Q (accessed (lookup s pd (va / 4096))) s →
  wp (Ops.pagedir_is_accessed pd va) Q s.
Proof.
  intros Hm Hpd Hva HQ. unfold Ops.pagedir_is_accessed. find Hm Hpd Hva; wp_go.
  - by rewrite flag_accessed.
  - by rewrite E0 in HQ.
Qed.

(** The result of an operation that changes entry [n] of [pd]. *)
Definition became s pd n (f : entry → entry) s' : Prop := mmu_inv dirs s' ∧ changed dirs s s' pd n f.

Lemma became_same s pd n f : mmu_inv dirs s → f (lookup s pd n) = lookup s pd n → became s pd n f s.
Proof.
  intros Hm E. split; [done|]. split; [|done|done]. intros pd' n' _ _. case_decide as Hd; [|done]. by destruct Hd as [-> ->].
Qed.

Lemma pagedir_clear_page_ok s pd u :
  mmu_inv dirs s → pd ∈ dirs → 0 ≤ u < PHYS_BASE → u mod 4096 = 0 →
  wp (Ops.pagedir_clear_page pd u) (λ _, became s pd (u / 4096) (set_present false)) s.
Proof.
  intros Hm Hpd Hva Hal. unfold Ops.pagedir_clear_page.
  wp_assert (rewrite pg_ofs_eq; by apply Z.eqb_eq). wp_assert (unfold is_user_vaddr; apply Z.ltb_lt; lia).
  pose proof (lookup_entry dirs s pd _ Hm Hpd (user_page _ Hva)) as He. find Hm Hpd Hva.
  - rewrite flag_present. fold (lookup s pd (u / 4096)).
    destruct (present (lookup s pd (u / 4096))) eqn:Ep.
    + destruct (decode_absent _ He) as [He' Ed]. wp_unbind.
      eapply wp_mono; [by apply (put_entry_ok dirs s pd (u / 4096) pt _ (set_present false) Hm Hpd (user_page _ Hva))|].
      intros [] s1 (Ht1 & Hr1 & Hc1). eapply wp_mono; [by eapply invalidate_ok|].
      intros [] s2 Hf. by eapply with_flush.
    + wp_go. apply became_same; [done|]. unfold set_present. rewrite <-Ep. by destruct (lookup s pd (u / 4096)).
  - wp_go. apply became_same; [done|]. by rewrite E0.
Qed.

(** The bits set and cleared in place; where there is no table there is no
    entry to change. *)
Definition marked_entry s pd n (f : entry → entry) s' : Prop :=
  became s pd n f s' ∨ (lookup s pd n = decode 0 ∧ s' = s).

Lemma pagedir_set_dirty_ok s pd va b :
  mmu_inv dirs s → pd ∈ dirs → 0 ≤ va < PHYS_BASE →
  wp (Ops.pagedir_set_dirty pd va b) (λ _, marked_entry s pd (va / 4096) (set_dirty b)) s.
Proof.
  intros Hm Hpd Hva. unfold Ops.pagedir_set_dirty.
  pose proof (lookup_entry dirs s pd _ Hm Hpd (user_page _ Hva)) as He. find Hm Hpd Hva; [|wp_go; by right].
  destruct (decode_dirty _ b He) as [He' Ed]. destruct b; wp_unbind;
    (eapply wp_mono; [eapply (put_entry_ok dirs s pd (va / 4096) pt _ _ Hm Hpd (user_page _ Hva) Ht He' Ed)|]);
    intros [] s1 (Ht1 & Hr1 & Hc1).
  - left. split; [|done]. eapply unflushed; [done..|]. intros e (? & ? & ? & ? & ? & ?). by split_and!.
  - eapply wp_mono; [by eapply invalidate_ok|]. intros [] s2 Hf. left. by eapply with_flush.
Qed.

Lemma pagedir_set_accessed_ok s pd va b :
  mmu_inv dirs s → pd ∈ dirs → 0 ≤ va < PHYS_BASE →
  wp (Ops.pagedir_set_accessed pd va b) (λ _, marked_entry s pd (va / 4096) (set_accessed b)) s.
Proof.
  intros Hm Hpd Hva. unfold Ops.pagedir_set_accessed.
  pose proof (lookup_entry dirs s pd _ Hm Hpd (user_page _ Hva)) as He. find Hm Hpd Hva; [|wp_go; by right].
  destruct (decode_accessed _ b He) as [He' Ed]. destruct b; wp_unbind;
    (eapply wp_mono; [eapply (put_entry_ok dirs s pd (va / 4096) pt _ _ Hm Hpd (user_page _ Hva) Ht He' Ed)|]);
    intros [] s1 (Ht1 & Hr1 & Hc1).
  - left. split; [|done]. eapply unflushed; [done..|]. intros e (? & ? & ? & ? & ? & ?). by split_and!.
  - eapply wp_mono; [by eapply invalidate_ok|]. intros [] s2 Hf. left. by eapply with_flush.
Qed.

Lemma pagedir_set_page_ok s pd u k w :
  mmu_inv dirs s → pd ∈ dirs → pd ≠ base_page_dir s → 0 ≤ u < PHYS_BASE → u mod 4096 = 0 →
  PHYS_BASE ≤ k < 2 ^ 32 → k mod 4096 = 0 → (k - PHYS_BASE) / 4096 < ram_pages s →
  present (lookup s pd (u / 4096)) = false →
  wp (Ops.pagedir_set_page pd u k w) (λ (r : bool) s',
    if r then became s pd (u / 4096) (λ _, mk_entry true k w true false false) s'
    else s' = s ∧ exhausted KernelPool 1 (mach s)) s.
Proof.
  intros Hm Hpd Hb Hva Hal Hk Hka Hram Hnp. unfold Ops.pagedir_set_page.
  wp_assert (rewrite pg_ofs_eq; by apply Z.eqb_eq). wp_assert (rewrite pg_ofs_eq; by apply Z.eqb_eq).
  wp_assert (unfold is_user_vaddr; apply Z.ltb_lt; lia). apply wp_vtop; [lia|].
  wp_assert (unfold PTSHIFT, PGBITS; rewrite Z.shiftr_div_pow2 by lia; by apply Z.ltb_lt).
  wp_assert (by apply negb_true_iff, Z.eqb_neq).
  eapply wp_mono; [by apply lookup_page_ok|]. intros r s1 (Hm1 & Hr1 & Hp1 & Hr & _ & Huk).
  pose proof (user_page _ Hva) as Hn. destruct (user_index _ Hn) as (Hi & Hj & _).
  assert (∀ pd' n', pd' ∈ dirs → 0 ≤ n' < USER_PAGES → lookup s1 pd' n' = lookup s pd' n') as El.
  { intros pd' n' ? ?. unfold lookup. by rewrite Hp1. }
  destruct Hr as [(pt & Ht & ->)|(-> & -> & _ & Hex)]; [|rewrite Z.eqb_refl; cbn [negb]; wp_go; by auto].
  destruct (table_range dirs s1 pd _ pt _ Hm1 Hpd Hi Ht Hj) as [_ Hnn].
  rewrite (proj2 (Z.eqb_neq _ _) Hnn). cbn [negb]. wp_unbind. eapply read_entry_ok; [done..|].
  wp_assert (rewrite flag_present; fold (lookup s1 pd (u / 4096)); by rewrite El, Hnp).
  apply wp_pte_create_user; [done..|]. intros e He Ed. wp_unbind.
  eapply wp_mono; [by apply (put_entry_ok dirs s1 pd (u / 4096) pt e (λ _, mk_entry true k w true false false))|].
  intros [] s2 (Ht2 & Hr2 & Hc2). wp_go. split.
  - eapply (unflushed dirs s1); [done..|]. intros e' (Hp & _). by rewrite El, Hnp in Hp.
  - destruct Hc2 as [Hc2 Hu2 (? & ? & ?)], Hr1 as (? & ? & ? & _).
    split; [|by etransitivity|split_and!; congruence].
    intros pd' n' Hpd' Hn'. rewrite Hc2, El by done. done.
Qed.

Lemma pagedir_activate_ok s pd :
  mmu_inv dirs s → pd = NULL ∨ pd ∈ dirs →
  wp (Ops.pagedir_activate pd) (λ _ s', mmu_inv dirs s' ∧ mach s' = mach s ∧
    (tlb s' = ∅ ∧ ram_pages s' = ram_pages s ∧ base_page_dir s' = base_page_dir s) ∧
    active s' = if decide (pd = NULL) then base_page_dir s else pd) s.
Proof.
  intros Hm Hpd. unfold Ops.pagedir_activate. wp_go. set (d := if pd =? NULL then base_page_dir s else pd).
  assert (d ∈ dirs ∧ d = if decide (pd = NULL) then base_page_dir s else pd) as [Hd Ed].
  { unfold d. destruct (Z.eqb_spec pd NULL); [rewrite decide_True by done|rewrite decide_False by done];
      (split; [|done]); [apply Hm|naive_solver]. }
  pose proof (mi_space _ _ Hm) as Hs. destruct (kpage_facts _ d (si_inv _ _ Hs)) as (_ & Hl & _).
  { apply (dw_page _ _ (si_dirs _ _ Hs d Hd)). }
  apply wp_vtop; [done|]. wp_go. unfold active. cbn [cr3]. rewrite Z.sub_add.
  split; [|done]. split; [done|apply Hm|unfold active; cbn [cr3]; by rewrite Z.sub_add|]. by intros n e _ He.
Qed.
End ops.
