(* ===== verification/PageLife.v ===== *)
(** The life of an address space: [pagedir_create] and [pagedir_destroy]. *)
From Stdlib Require Import ZArith Lia.
From stdpp Require Import base tactics option numbers list gmap.
From S2P Require Import Prelude Bitmap CString Bytes Palloc PageDir PageOps.

Open Scope Z_scope.

(** The kernel's own directory maps no user page, as [paging_init] leaves it. *)
Definition kernel_only (s : mmu) : Prop :=
  ∀ i, 0 ≤ i < USER_TABLES → pde (ram (mach s)) (base_page_dir s) i = 0.

Section create.
Implicit Types (s : mmu) (dirs : gset Z) (x : machine).

(** Two pages with the same bytes have the same words. *)
Lemma word_copy (m m' : mem) a b j :
  has_range m a 4096 → block m' b (bytes_of m a (Z.to_nat 4096)) → 0 ≤ j < 1024 →
  word m' (b + 4 * j) = word m (a + 4 * j).
Proof.
  intros Hr Hb Hj.
  assert (∀ k, 0 ≤ k < 4096 → m' !!! (b + k) = m !!! (a + k)) as H.
  { intros k Hk. rewrite (lookup_total_alt m'). rewrite <-(Z2Nat.id k) at 1 by lia.
    erewrite Hb; [simpl; reflexivity|]. unfold bytes_of. rewrite list_lookup_fmap, lookup_seq_lt by lia.
    simpl. do 3 f_equal. lia. }
  unfold word. replace (b + 4 * j + 1) with (b + (4 * j + 1)) by lia.
  replace (b + 4 * j + 2) with (b + (4 * j + 2)) by lia.
  replace (b + 4 * j + 3) with (b + (4 * j + 3)) by lia.
  rewrite !H by lia. by rewrite !Z.add_assoc.
Qed.

(** A fresh page that holds an empty directory is a new address space. *)
Lemma space_new_dir dirs x pd :
  space_inv dirs x → kpage x pd → ¬ is_table dirs x pd →
  (∀ i, 0 ≤ i < USER_TABLES → pde (ram x) pd i = 0) → space_inv ({[pd]} ∪ dirs) x.
Proof.
  intros Hs Hk Hnt H0.
  assert (∀ i, 0 ≤ i < USER_TABLES → table (ram x) pd i = None) as Ht.
  { intros i Hi. unfold table. by rewrite H0. }
  split; [apply Hs| |].
  - intros pd' [->%elem_of_singleton|Hpd']%elem_of_union; [|by apply Hs]. split; [done|auto|].
    intros n Hn. unfold pte. destruct (user_index n Hn) as (Hi & _). rewrite Ht by done.
    split; [unfold is_u32; lia|done].
  - intros pd1 pd2 i pt Hpd1 Hpd2 Hi Htab.
    apply elem_of_union in Hpd1 as [->%elem_of_singleton|Hpd1]; [by rewrite Ht in Htab|].
    apply elem_of_union in Hpd2 as [->%elem_of_singleton|Hpd2].
    + split; [|intros i' Hi'; by rewrite Ht]. intros ->. apply Hnt. right. by exists pd1, i.
    + by apply (si_sep _ _ Hs).
Qed.

(** What [pagedir_create] promises: a directory that is not in use, maps no
    user page and shares the kernel's half. *)
Definition created dirs s pd s' : Prop :=
  (pd = NULL ∧ s' = s ∧ exhausted KernelPool 1 (mach s)) ∨
  ((pd ∉ dirs) ∧ mmu_inv ({[pd]} ∪ dirs) s' ∧ same_regs s s' ∧
   (∀ pd' n, pd' ∈ dirs → 0 ≤ n < USER_PAGES → lookup s' pd' n = lookup s pd' n) ∧
   (∀ n, 0 ≤ n < USER_PAGES → lookup s' pd n = decode 0) ∧
   (∀ i, USER_TABLES ≤ i < 1024 →
      pde (ram (mach s')) pd i = pde (ram (mach s)) (base_page_dir s) i)).

(** The copy of the kernel's directory made at [pd]. *)
Lemma create_finish dirs s s1 pd m' :
  kernel_only s → mmu_inv dirs s1 → same_regs s s1 → same_ptes dirs s s1 →
  (∀ pd i, pd ∈ dirs → 0 ≤ i < 1024 → pde (ram (mach s1)) pd i = pde (ram (mach s)) pd i) →
  kpage (mach s1) pd → ¬ is_table dirs (mach s1) pd →
  block m' pd (bytes_of (ram (mach s1)) (base_page_dir s1) (Z.to_nat 4096)) →
  changes_at pd 4096 (ram (mach s1)) m' →
  let s' := set_mach (set_ram m' (mach s1)) s1 in
  (pd ∉ dirs) ∧ mmu_inv ({[pd]} ∪ dirs) s' ∧ same_regs s s' ∧
  (∀ pd' n, pd' ∈ dirs → 0 ≤ n < USER_PAGES → lookup s' pd' n = lookup s pd' n) ∧
  (∀ n, 0 ≤ n < USER_PAGES → lookup s' pd n = decode 0) ∧
  (∀ i, USER_TABLES ≤ i < 1024 → pde (ram (mach s')) pd i = pde (ram (mach s)) (base_page_dir s) i).
Proof.
  intros Hko Hm1 Hr1 Hp1 Hd1 Hk Hnt Hb Hch s'. pose proof (mi_space _ _ Hm1) as Hs1.
  pose proof (si_inv _ _ Hs1) as Hinv1. pose proof Hr1 as (_ & Eb & _ & _).
  destruct (kpage_facts _ pd Hinv1 Hk) as (Ha & _).
  pose proof (mi_base _ _ Hm1) as Hbase. rewrite Eb in *.
  destruct (kpage_facts _ _ Hinv1 (dw_page _ _ (si_dirs _ _ Hs1 _ Hbase))) as (_ & _ & _ & Hrb).
  destruct (spaces_frame dirs (mach s1) (mach s') Hs1) as [Hs2 Hsame].
  { apply inv_set_ram; [done|apply Hch]. }
  { intros a Hta. pose proof (is_table_kpage _ _ _ Hs1 Hta) as Hka. split; [done|]. intros y Hy.
    apply Hch. destruct (kpage_facts _ a Hinv1 Hka) as (Haa & _).
    destruct (pages_apart a pd Haa Ha); [by intros ->|lia..]. }
  assert (∀ i, 0 ≤ i < 1024 → pde m' pd i = pde (ram (mach s1)) (base_page_dir s) i) as Hcopy.
  { intros i Hi. by apply word_copy. }
  assert (∀ i, 0 ≤ i < USER_TABLES → pde (ram (mach s')) pd i = 0) as H0.
  { intros i Hi. cbn [mach set_mach ram set_ram s']. rewrite Hcopy by (unfold USER_TABLES in Hi; lia).
    rewrite Hd1 by (done || unfold USER_TABLES in Hi; lia). by apply Hko. }
  assert (pd ∉ dirs) as Hnd by (intros ?; apply Hnt; by left).
  assert (space_inv ({[pd]} ∪ dirs) (mach s')) as Hs3.
  { apply space_new_dir; [done|done| |done]. intros Ht. apply Hnt.
    destruct Ht as [?|(pd' & i & Hpd' & Hi & E)]; [by left|right]. exists pd', i. split; [done|]. split; [done|].
    unfold table in *. by rewrite (proj1 (Hsame pd' Hpd')) in E by (unfold USER_TABLES in Hi; lia). }
  assert (∀ pd' n, pd' ∈ dirs → 0 ≤ n < USER_PAGES → lookup s' pd' n = lookup s pd' n) as Hl.
  { intros pd' n Hpd' Hn. unfold lookup. rewrite (proj2 (Hsame pd' Hpd') n Hn). by rewrite Hp1. }
  split; [done|]. split; [|split; [done|split; [done|split]]].
  - split; [done|apply elem_of_union; right; cbn [base_page_dir s' set_mach]; by rewrite Eb|
      apply elem_of_union; right; apply Hm1|].
    apply coherent_lookup. intros n e Hn He. cbn [tlb s' set_mach] in He.
    pose proof (proj1 (coherent_lookup s1) (mi_tlb _ _ Hm1) n e Hn He) as Hv.
    change (active s') with (active s1). rewrite Hl by (done || apply Hm1).
    unfold lookup in *. rewrite <-Hp1 by (done || apply Hm1). done.
  - intros n Hn. unfold lookup, pte, table. destruct (user_index n Hn) as (Hi & _). by rewrite H0.
  - intros i Hi. cbn [mach set_mach ram set_ram s']. unfold USER_TABLES in Hi. rewrite Hcopy, Hd1 by (done || lia). done.
Qed.

Lemma pagedir_create_ok dirs s :
  mmu_inv dirs s → kernel_only s → wp Ops.pagedir_create (created dirs s) s.
Proof.
  intros Hm Hko. unfold Ops.pagedir_create. wp_unbind.
  eapply wp_mono; [by apply (table_alloc_ok dirs s 0)|].
  intros pd s1 [(-> & -> & Hex)|(Hnn & Hm1 & Hr1 & Hp1 & Hd1 & Hk & Hnt & _)].
  { rewrite Z.eqb_refl. cbn [negb]. wp_go. by left. }
  rewrite (proj2 (Z.eqb_neq _ _) Hnn). cbn [negb]. wp_go.
  pose proof (mi_space _ _ Hm1) as Hs1. pose proof (si_inv _ _ Hs1) as Hinv1.
  pose proof Hr1 as (_ & Eb & _ & _). pose proof (mi_base _ _ Hm1) as Hb. set (b := base_page_dir s1) in *.
  destruct (kpage_facts _ pd Hinv1 Hk) as (Ha & Hl & _ & Hrp).
  destruct (kpage_facts _ b Hinv1 (dw_page _ _ (si_dirs _ _ Hs1 b Hb))) as (Hba & Hbl & _ & Hrb).
  assert (pd ≠ b) as Hne by (intros ->; apply Hnt; by left).
  unfold Ops.on_mach, Palloc.Ops.on_ram. apply wp_zoom, wp_zoom.
  set (bs := bytes_of (ram (mach s1)) b (Z.to_nat 4096)).
  assert (PGSIZE = Z.of_nat (length bs)) as -> by (unfold bs; by rewrite length_bytes_of, Z2Nat.id by lia).
  eapply wp_mono; [apply memcpy_ok|].
  - done.
  - unfold PHYS_BASE, NULL in *. lia.
  - apply block_bytes_of. by rewrite Z2Nat.id by lia.
  - intros i Hi. unfold bs in Hi. rewrite length_bytes_of in Hi. apply Hrp. lia.
  - unfold bs. rewrite length_bytes_of, Z2Nat.id by lia. destruct (pages_apart pd b Ha Hba Hne); lia.
  - intros _ m' (_ & Hb' & Hch). wp_go. right.
    unfold bs in Hch. rewrite length_bytes_of, Z2Nat.id in Hch by lia.
    by eapply create_finish.
Qed.
End create.

(** * Destruction *)

(** Page [n] of [pd] is mapped to the frame at kernel address [a]. *)
Definition maps (s : mmu) (pd n a : Z) : Prop :=
  0 ≤ n < USER_PAGES ∧ present (lookup s pd n) = true ∧ frame (lookup s pd n) = a.

(** The frames of [pd] were handed out by the allocator, hold no tables, and
    are mapped once. *)
Record owns_frames (dirs : gset Z) (s : mmu) (pd : Z) : Prop := {
  of_used : ∀ n a, maps s pd n a → in_use (mach s) a ∧ ¬ is_table dirs (mach s) a;
  of_once : ∀ n n' a, maps s pd n a → maps s pd n' a → n = n' }.

(** The tables below [it] and the frames of the pages below [nb]. *)
Definition freed (s : mmu) (pd it nb a : Z) : Prop :=
  (∃ i, 0 ≤ i < it ∧ i < USER_TABLES ∧ table (ram (mach s)) pd i = Some a) ∨
  (∃ n, n < nb ∧ maps s pd n a).

(** The pages in [gone] have been given back since [s]; the others hold what
    they held. *)
Record mid (s : mmu) (gone : Z → Prop) (s' : mmu) : Prop := {
  mid_inv : inv (mach s');
  mid_regs : same_regs s s';
  mid_pools : same_pools (mach s) (mach s');
  mid_use : ∀ a, in_use (mach s') a ↔ in_use (mach s) a ∧ ¬ gone a;
  mid_mem : ∀ a y, in_use (mach s) a → ¬ gone a → a ≤ y < a + 4096 →
    ram (mach s') !! y = ram (mach s) !! y }.

Section destroy.
Context (dirs : gset Z) (s : mmu) (pd : Z).
Hypothesis (Hm : mmu_inv dirs s) (Hpd : pd ∈ dirs) (Hown : owns_frames dirs s pd).

Let Hs := mi_space _ _ Hm.
Let Hinv := si_inv _ _ Hs.

Lemma mid_iff (P Q : Z → Prop) s' : (∀ a, P a ↔ Q a) → mid s P s' → mid s Q s'.
Proof.
  intros HPQ [H1 H2 H3 H4 H5]. split; [done..| |].
  - intros a. by rewrite <-HPQ.
  - intros a y Ha Hn. apply H5; [done|]. by rewrite HPQ.
Qed.

(** Giving back one more page. *)
Lemma free_step gone s' a :
  mid s gone s' → in_use (mach s) a → ¬ gone a →
  wp (Ops.on_mach (Palloc.Ops.palloc_free_page a)) (λ _, mid s (λ b, gone b ∨ b = a)) s'.
Proof.
  intros [H1 H2 H3 H4 H5] Ha Hn. unfold Ops.on_mach. apply wp_zoom.
  eapply wp_mono; [apply palloc_free_page_ok; [done|by apply H4]|].
  intros [] x (Hx & Hp & Hu & Hch). split; [done|done| | |].
  - intros w. cbn [mach set_mach]. destruct (Hp w) as [-> ->]. apply H3.
  - intros b. cbn [mach set_mach]. rewrite Hu, H4. naive_solver.
  - intros b y Hb Hnb Hy. cbn [mach set_mach]. rewrite (proj1 Hch); [by apply (H5 b); [|tauto|]|].
    destruct (pages_apart b a); [exact (in_use_aligned _ _ Hinv Hb)|exact (in_use_aligned _ _ Hinv Ha)|tauto|lia|lia].
Qed.

Lemma table_in_use a : is_table dirs (mach s) a → in_use (mach s) a.
Proof. intros Ha. by apply kpage_in_use, (is_table_kpage dirs). Qed.

(** A page of a table that has not been given back reads as before. *)
Lemma read_mid gone s' a j Q :
  mid s gone s' → is_table dirs (mach s) a → ¬ gone a → 0 ≤ j < 1024 →
  Q (word (ram (mach s)) (a + 4 * j)) s' → wp (Ops.read_word (a + 4 * j)) Q s'.
Proof.
  intros Hmid Ha Hn Hj HQ. pose proof (mid_mem _ _ _ Hmid a) as Hmem.
  destruct (kpage_facts _ a Hinv (is_table_kpage _ _ _ Hs Ha)) as (_ & _ & _ & Hr).
  apply read_word_ok.
  - intros y Hy. rewrite Hmem; [apply Hr; lia|by apply table_in_use|done|lia].
  - replace (word (ram (mach s')) (a + 4 * j)) with (word (ram (mach s)) (a + 4 * j)); [done|].
    unfold word. rewrite !lookup_total_alt, !Hmem by (done || lia || by apply table_in_use). done.
Qed.

(** Tables that are still to be visited, and those of other directories, have
    not been given back. *)
Lemma table_not_freed pd' i it nb a :
  pd' ∈ dirs → 0 ≤ i < USER_TABLES → table (ram (mach s)) pd' i = Some a → pd' ≠ pd ∨ it ≤ i →
  ¬ freed s pd it nb a.
Proof.
  intros Hpd' Hi Ht Hne [(i' & Hi' & Hi'' & Ht')|(n & _ & Hn)].
  - destruct (si_sep _ _ Hs pd pd' i' a Hpd Hpd' ltac:(lia) Ht') as [_ H].
    destruct (H i Hi Ht) as [-> ->]. naive_solver lia.
  - destruct (of_used _ _ _ Hown n a Hn) as [_ []]. right. by exists pd', i.
Qed.

Lemma dir_not_freed pd' it nb : pd' ∈ dirs → ¬ freed s pd it nb pd'.
Proof.
  intros Hpd' [(i & Hi & Hi' & Ht)|(n & _ & Hn)].
  - by destruct (si_sep _ _ Hs pd pd' i pd' Hpd Hpd' ltac:(lia) Ht).
  - destruct (of_used _ _ _ Hown n pd' Hn) as [_ []]. by left.
Qed.

Lemma freed_absent it n a :
  present (lookup s pd n) = false → freed s pd it n a ↔ freed s pd it (n + 1) a.
Proof.
  intros Ep. unfold freed. split; (intros [?|(k & Hk & Hk')]; [by left|]).
  - right. exists k. split; [lia|done].
  - right. exists k. split; [|done]. assert (k ≠ n); [|lia]. intros ->.
    destruct Hk' as (_ & E & _). congruence.
Qed.

Lemma freed_present it n a b :
  maps s pd n a → freed s pd it (n + 1) b ↔ freed s pd it n b ∨ b = a.
Proof.
  intros Ha. unfold freed. split.
  - intros [?|(k & Hk & Hk')]; [by left; left|]. destruct (decide (k = n)) as [->|].
    + right. destruct Ha as (_ & _ & <-), Hk' as (_ & _ & <-). done.
    + left. right. exists k. split; [lia|done].
  - intros [[?|(k & Hk & Hk')]| ->]; [by left|right..]; [exists k|exists n]; (split; [lia|done]).
Qed.

(** The inner loop: the frames of one page table. *)
Lemma free_frames_ok i pt s' :
  0 ≤ i < USER_TABLES → table (ram (mach s)) pd i = Some pt → mid s (freed s pd i (1024 * i)) s' →
  wp (for_upto (Z.to_nat (PGSIZE / 4)) 0 (λ j,
        pte ← Ops.read_word (pt + 4 * j);
        if flag pte PTE_P then
          page ← pte_get_page pte;
          Ops.on_mach (Palloc.Ops.palloc_free_page page)
        else mret tt))
    (λ _, mid s (freed s pd i (1024 * (i + 1)))) s'.
Proof.
  intros Hi Ht Hmid. change (Z.to_nat (PGSIZE / 4)) with (Z.to_nat 1024).
  eapply wp_mono; [apply (wp_for_upto (λ j, mid s (freed s pd i (1024 * i + j))))|].
  - intros j s1 Hj Hmid1. rewrite Z2Nat.id in Hj by lia. set (n := 1024 * i + j) in *.
    assert (n / 1024 = i ∧ n mod 1024 = j) as [En Ej].
    { subst n. split; [rewrite Z.mul_comm, Z.div_add_l, Z.div_small by lia; lia|].
      rewrite Z.add_comm, Z.mul_comm, Z_mod_plus_full, Z.mod_small by lia. done. }
    assert (0 ≤ n < USER_PAGES) as Hn by (unfold USER_PAGES, USER_TABLES in *; lia).
    wp_unbind. eapply read_mid; [done|right; by exists pd, i|by eapply table_not_freed; eauto with lia|lia|].
    assert (word (ram (mach s)) (pt + 4 * j) = pte (ram (mach s)) pd n) as ->.
    { unfold pte. by rewrite En, Ht, Ej. }
    rewrite flag_present. fold (lookup s pd n). replace (1024 * i + (j + 1)) with (n + 1) by lia.
    destruct (present (lookup s pd n)) eqn:Ep.
    + destruct (lookup_entry dirs s pd n Hm Hpd Hn) as [Hu Hsm]. specialize (Hsm Ep).
      wp_unbind. unfold pte_get_page. rewrite land_addr by done. apply wp_ptov.
      { pose proof (Z.div_pos (pte (ram (mach s)) pd n) 4096). unfold is_u32 in Hu. lia. }
      assert (maps s pd n (frame (lookup s pd n))) as Hmap by done.
      destruct (of_used _ _ _ Hown _ _ Hmap) as [Hused Hnt].
      eapply wp_mono; [apply (free_step _ _ (frame (lookup s pd n)) Hmid1 Hused)|].
      { intros [(i' & Hi0 & Hi' & Ht')|(n' & Hn' & Hm')].
        - apply Hnt. right. exists pd, i'. split; [done|]. split; [lia|done].
        - pose proof (of_once _ _ _ Hown _ _ _ Hm' Hmap). lia. }
      intros [] s2 Hmid2. eapply mid_iff; [|exact Hmid2]. intros b. cbn beta. by rewrite freed_present.
    + wp_go. eapply mid_iff; [|exact Hmid1]. intros b. by apply freed_absent.
  - by rewrite Z.add_0_r.
  - intros [] s1 H. cbn beta in H. rewrite Z2Nat.id in H by lia.
    by replace (1024 * (i + 1)) with (1024 * i + (0 + 1024)) by lia.
Qed.

Lemma freed_no_table i b :
  0 ≤ i < USER_TABLES → table (ram (mach s)) pd i = None →
  freed s pd i (1024 * i) b ↔ freed s pd (i + 1) (1024 * (i + 1)) b.
Proof.
  intros Hi Ht. unfold freed. split.
  - intros [(k & ? & ? & ?)|(k & ? & ?)]; [left; exists k|right; exists k]; split_and!; done || lia.
  - intros [(k & Hk & Hk' & E)|(k & Hk & Hmap)].
    + left. exists k. assert (k ≠ i) by (intros ->; congruence). split_and!; done || lia.
    + right. exists k. split; [|done]. apply Z.nle_gt. intros Hle. destruct Hmap as (Hn & Ep & _).
      assert (k / 1024 = i) as E by (symmetry; apply (Z.div_unique k 1024 i (k - 1024 * i)); lia).
      unfold lookup, pte in Ep. by rewrite E, Ht in Ep.
Qed.

Lemma freed_table i pt b :
  0 ≤ i < USER_TABLES → table (ram (mach s)) pd i = Some pt →
  freed s pd (i + 1) (1024 * (i + 1)) b ↔ freed s pd i (1024 * (i + 1)) b ∨ b = pt.
Proof.
  intros Hi Ht. unfold freed. split.
  - intros [(k & Hk & Hk' & E)|?]; [|by left; right]. destruct (decide (k = i)) as [->|].
    + right. congruence.
    + left. left. exists k. split_and!; done || lia.
  - intros [[(k & Hk & Hk' & E)|?]| ->]; [left; exists k|by right|left; exists i]; split_and!; done || lia.
Qed.

(** The outer loop and the directory itself. *)
Lemma destroy_loop_ok :
  pd ≠ base_page_dir s →
  wp (Ops.pagedir_destroy pd) (λ _, mid s (λ a, freed s pd USER_TABLES USER_PAGES a ∨ a = pd)) s.
Proof.
  intros Hb. destruct (kpage_facts _ pd Hinv (is_table_kpage _ _ _ Hs (or_introl Hpd))) as (_ & Hl & _).
  unfold Ops.pagedir_destroy.
  rewrite (proj2 (Z.eqb_neq pd NULL)) by (unfold PHYS_BASE, NULL in *; lia).
  wp_assert (by apply negb_true_iff, Z.eqb_neq).
  change (Z.to_nat (pd_no PHYS_BASE)) with (Z.to_nat USER_TABLES).
  eapply wp_mono; [apply (wp_for_upto (λ i, mid s (freed s pd i (1024 * i))))|].
  - intros i s1 Hi Hmid. rewrite Z2Nat.id in Hi by done. wp_unbind.
    eapply read_mid; [done|by left|by apply dir_not_freed|unfold USER_TABLES in Hi; lia|].
    fold (pde (ram (mach s)) pd i). destruct (table (ram (mach s)) pd i) as [pt|] eqn:Et.
    + destruct (table_page _ _ _ _ _ Hs Hpd Hi Et) as [Hk E]. rewrite E.
      destruct (kpage_facts _ pt Hinv Hk) as (Ha & Hpl & Hh & _).
      assert (flag (pt - PHYS_BASE + 7) PTE_P = true) as ->.
      { change PTE_P with (2 ^ 0). rewrite flag_bit, entry_bit by
          (done || lia || (rewrite Zminus_mod, Ha; done)). done. }
      eapply wp_step; [by apply pde_get_pt_ok|]. wp_unbind.
      eapply wp_mono; [by apply free_frames_ok|]. intros [] s2 Hmid2.
      eapply wp_mono; [apply (free_step _ _ pt Hmid2)|].
      * apply table_in_use. right. by exists pd, i.
      * eapply table_not_freed; eauto with lia.
      * intros [] s3 Hmid3. eapply mid_iff; [|exact Hmid3]. intros b. cbn beta. by rewrite (freed_table i pt).
    + assert (pde (ram (mach s)) pd i = 0) as ->.
      { unfold table in Et. by destruct (Z.eqb_spec (pde (ram (mach s)) pd i) 0). }
      change (flag 0 PTE_P) with false. cbn iota. wp_go. eapply mid_iff; [|exact Hmid].
      intros b. by apply freed_no_table.
  - split; [done|done|done| |done]. intros a.
    assert (¬ freed s pd 0 (1024 * 0) a); [|tauto].
    intros [(i & Hi & _)|(n & Hn & Hn' & _)]; lia.
  - intros [] s1 Hmid. cbn beta in Hmid. rewrite Z.add_0_l, Z2Nat.id in Hmid by done.
    change (1024 * USER_TABLES) with USER_PAGES in Hmid.
    apply (free_step _ _ pd Hmid); [apply table_in_use; by left|by apply dir_not_freed].
Qed.

(** After [pagedir_destroy] the pages of the address space, its tables and its
    directory are free again and nothing else has changed. *)
Lemma pagedir_destroy_ok :
  pd ≠ base_page_dir s → pd ≠ active s →
  wp (Ops.pagedir_destroy pd) (λ _ s',
    mmu_inv (dirs ∖ {[pd]}) s' ∧ same_regs s s' ∧
    (∀ pd' n, pd' ∈ dirs → pd' ≠ pd → 0 ≤ n < USER_PAGES → lookup s' pd' n = lookup s pd' n) ∧
    (∀ a, in_use (mach s') a ↔ in_use (mach s) a ∧ a ≠ pd ∧
       (∀ i, 0 ≤ i < USER_TABLES → table (ram (mach s)) pd i ≠ Some a) ∧ (∀ n, ¬ maps s pd n a))) s.
Proof.
  intros Hb Ha. eapply wp_mono; [by apply destroy_loop_ok|]. intros [] s' [H1 H2 H3 H4 H5].
  assert (space_inv (dirs ∖ {[pd]}) (mach s)) as Hsub.
  { split; [done| |].
    - intros pd' Hpd'. apply Hs. set_solver.
    - intros pd1 pd2 i pt Hpd1 Hpd2. apply Hs; set_solver. }
  destruct (spaces_frame (dirs ∖ {[pd]}) (mach s) (mach s') Hsub H1) as [Hs' Hsame].
  { intros a Hta. pose proof (is_table_kpage _ _ _ Hsub Hta) as Hk.
    assert (¬ (freed s pd USER_TABLES USER_PAGES a ∨ a = pd)) as Hng.
    { destruct Hta as [Hd|(pd' & i & Hpd' & Hi & Et)].
      - intros [?| ->]; [|set_solver]. by apply (dir_not_freed a USER_TABLES USER_PAGES); [set_solver|].
      - intros [Hf| ->].
        + eapply (table_not_freed pd' i); [set_solver|done|done|left; set_solver|done].
        + assert (pd' ∈ dirs) by set_solver. by destruct (si_sep _ _ Hs pd' pd i pd). }
    split; [|intros y Hy; by apply (H5 a); [apply kpage_in_use| |]].
    destruct (proj2 (H4 a)) as (w & i & Hi & E & Hbit); [by split; [apply kpage_in_use|]|].
    destruct (H3 w) as [Eb Ec]. rewrite Ec in Hi. rewrite Eb in E.
    destruct Hk as (k & Hk & Ek & _). destruct (page_inj (mach s) KernelPool w k i Hinv Hk Hi) as [<- <-].
    { simpl. by rewrite <-Ek. }
    destruct (H3 KernelPool) as [Eb' Ec']. exists k. simpl in *. rewrite Ec', Eb'. done. }
  assert (∀ pd' n, pd' ∈ dirs → pd' ≠ pd → 0 ≤ n < USER_PAGES → lookup s' pd' n = lookup s pd' n) as Hl.
  { intros pd' n Hpd' Hne Hn. unfold lookup. rewrite (proj2 (Hsame pd' ltac:(set_solver)) n Hn). done. }
  pose proof H2 as (_ & Eb & Ec & Et). assert (active s' = active s) as Eact by (unfold active; by rewrite Ec).
  split; [|split; [done|split; [done|]]].
  - split; [done|rewrite Eb|rewrite Eact|]; [pose proof (mi_base _ _ Hm); set_solver|
      pose proof (mi_active _ _ Hm); set_solver|].
    apply coherent_lookup. intros n e Hn He. rewrite Et in He. rewrite Eact, Hl by (done || apply Hm).
    by apply (proj1 (coherent_lookup s) (mi_tlb _ _ Hm)).
  - intros a. rewrite H4. unfold freed. split.
    + intros [Hu Hng]. split_and!; [done|tauto| |].
      * intros i Hi E. apply Hng. left. left. exists i. split; [done|]. split; [lia|done].
      * intros n Hmap. apply Hng. left. right. exists n. split; [|done]. by destruct Hmap as [[_ ?] _].
    + intros (Hu & Hne & Hnt & Hnm). split; [done|].
      intros [[(i & Hi & Hi' & E)|(n & _ & Hmap)]|?]; [by eapply Hnt|by eapply Hnm|done].
Qed.
End destroy.
