(* ===== verification/MemTheorems.v ===== *)
(** What the memory management promises: the page allocator never hands out a
    page twice, and the page tables are address spaces that the processor's
    translation buffer follows. *)
From Stdlib Require Import ZArith Lia.
From stdpp Require Import base tactics option numbers list gmap relations.
From S2P Require Import Prelude Bitmap CString Bytes Palloc PageDir PageOps PageLife.

Open Scope Z_scope.

(** * Concrete memories *)
Section examples.

(** [n] zero bytes at [a]. *)
Fixpoint zero_range (n : nat) (a : Z) : mem :=
  match n with O => ∅ | S n => <[a := 0]> (zero_range n (a + 1)) end.
Definition zeros (a n : Z) : mem := zero_range (Z.to_nat n) a.

Lemma lookup_zero_range n a x : a ≤ x < a + Z.of_nat n → zero_range n a !! x = Some 0.
Proof.
  revert a. induction n as [|n IH]; intros a Hx; [lia|]. simpl.
  destruct (decide (x = a)) as [->|Hne]; [apply lookup_insert_eq|].
  rewrite lookup_insert_ne by done. apply IH. lia.
Qed.

Lemma lookup_zeros a n x : a ≤ x < a + n → zeros a n !! x = Some 0.
Proof. intros Hx. apply lookup_zero_range. lia. Qed.

Lemma word_zeros a n x : a ≤ x → x + 4 ≤ a + n → word (zeros a n) x = 0.
Proof. intros ? ?. unfold word. rewrite !lookup_total_alt, !lookup_zeros by lia. done. Qed.

Definition zero_words (n : Z) : list Z := replicate (Z.to_nat n) 0.

Lemma zero_words_ok n : 0 ≤ n → Z.of_nat (length (zero_words n)) = n ∧ Forall is_u32 (zero_words n).
Proof.
  intros Hn. unfold zero_words. rewrite length_replicate, Z2Nat.id by done. split; [done|].
  apply Forall_replicate. unfold is_u32. lia.
Qed.
End examples.
#[local] Opaque zeros.

Module PageAllocator.

(** C33: after [palloc_init] the allocator serves any sequence of requests
    without stopping the machine (as long as none of them asks to be stopped),
    and what is handed out at the end is page-aligned, lies between the end of
    the kernel and the end of memory, does not overlap, and is exactly what
    the two bitmaps mark as used. *)
Theorem palloc_never_overlaps held kend ram_pages limit m rs :
  (∀ n, 0 ≤ n → Z.of_nat (length (held n)) = n ∧ Forall is_u32 (held n)) →
  PHYS_BASE ≤ kend → 0 ≤ ram_pages < 2 ^ 18 → kend + 4096 * 3 ≤ PHYS_BASE + 4096 * ram_pages →
  1 ≤ limit → (∀ a, kend ≤ a < PHYS_BASE + 4096 * ram_pages → is_Some (m !! a)) →
  Forall polite rs →
  ∃ s live s',
    Palloc.Ops.palloc_init held kend ram_pages limit m = Ok s ∧
    serve_all rs [] s = Ok (live, s') ∧
    (∀ p n, (p, n) ∈ live →
       p mod 4096 = 0 ∧ kend ≤ p ∧ 0 < n ∧ p + 4096 * n ≤ PHYS_BASE + 4096 * ram_pages) ∧
    (∀ i j p n q k, live !! i = Some (p, n) → live !! j = Some (q, k) → i ≠ j →
       p + 4096 * n ≤ q ∨ q + 4096 * k ≤ p) ∧
    (∀ a, in_use s' a ↔ ∃ p n, (p, n) ∈ live ∧ page_in p n a).
Proof.
  intros Hh Hk Hr Hroom Hl Hm Hrs.
  destruct (palloc_init_ok held Hh kend ram_pages limit m) as (s & Es & Hinv & Ht & _ & Hlo & Hhi); [done..|].
  destruct (proj1 (wp_ok _ _ _) (clients_ok rs [] s Hrs Hinv Ht)) as (live & s' & E & Hinv' & Ht' & Hp).
  exists s, live, s'. split; [done|]. split; [done|].
  assert (∀ p n, (p, n) ∈ live → p mod 4096 = 0 ∧ kend ≤ p ∧ 0 < n ∧
    p + 4096 * n ≤ PHYS_BASE + 4096 * ram_pages) as Hin.
  { intros p n Hpn. pose proof (tr_placed _ _ Ht') as Hpl. rewrite Forall_forall in Hpl.
    destruct (Hpl _ Hpn) as (w & i & Hi & Hn & Hle & E1 & _). simpl in *.
    pose proof (pool_align _ _ (inv_pools _ Hinv' w)) as Ha. destruct (Hp w) as [Eb Ec].
    pose proof (inv_disjoint _ Hinv) as Hd. pose proof (bit_cnt_small _ _ (inv_pools _ Hinv KernelPool)).
    pose proof (bit_cnt_small _ _ (inv_pools _ Hinv UserPool)). unfold pool_end in *. simpl in *.
    split; [rewrite E1, Z.mul_comm, Z_mod_plus_full; done|]. rewrite E1, Eb, Ec in *.
    destruct w; simpl in *; lia. }
  split; [done|]. split.
  - intros i j p n q k Hi Hj Hne.
    destruct (Hin p n) as (Hpa & _ & Hn0 & _); [by eapply list_elem_of_lookup_2|].
    destruct (Hin q k) as (Hqa & _ & Hk0 & _); [by eapply list_elem_of_lookup_2|].
    pose proof (Z.div_mod p 4096). pose proof (Z.div_mod q 4096).
    destruct (decide (p ≤ q)); [left|right]; apply Z.nlt_ge; intros Hlt.
    + eapply (tr_disjoint _ _ Ht' i j _ _ q Hi Hj Hne); [exists ((q - p) / 4096)|exists 0]; simpl; [|lia].
      replace (q - p) with ((q / 4096 - p / 4096) * 4096) by lia. rewrite Z.div_mul by lia. lia.
    + eapply (tr_disjoint _ _ Ht' i j _ _ p Hi Hj Hne); [exists 0|exists ((p - q) / 4096)]; simpl; [lia|].
      replace (p - q) with ((p / 4096 - q / 4096) * 4096) by lia. rewrite Z.div_mul by lia. lia.
  - intros a. split.
    + intros Ha. destruct (tr_cover _ _ Ht' a Ha) as ([p n] & Hx & Hp'). by exists p, n.
    + intros (p & n & Hx & Ha). pose proof (tr_placed _ _ Ht') as Hpl. rewrite Forall_forall in Hpl.
      by apply (placed_in_use s' (p, n) a (Hpl _ Hx)).
Qed.

(** A machine with eight pages of memory above the kernel; two groups are
    asked for, the first is given back, and a page of the user pool is. *)
Lemma palloc_never_overlaps_witness :
  ∃ s live s',
    Palloc.Ops.palloc_init zero_words 0xc0100000 264 100 (zeros 0xc0100000 32768) = Ok s ∧
    serve_all [Get PAL_ZERO 1; Get 0 2; Free 1; Get PAL_USER 1] [] s = Ok (live, s') ∧
    ∀ i j p n q k, live !! i = Some (p, n) → live !! j = Some (q, k) → i ≠ j →
      p + 4096 * n ≤ q ∨ q + 4096 * k ≤ p.
Proof.
  destruct (palloc_never_overlaps zero_words 0xc0100000 264 100 (zeros 0xc0100000 32768)
    [Get PAL_ZERO 1; Get 0 2; Free 1; Get PAL_USER 1]) as (s & live & s' & H1 & H2 & _ & H3 & _).
  - exact zero_words_ok.
  - unfold PHYS_BASE. lia.
  - lia.
  - unfold PHYS_BASE. lia.
  - lia.
  - intros a Ha. exists 0. apply lookup_zeros. unfold PHYS_BASE in Ha. lia.
  - repeat constructor; unfold is_u32; lia.
  - exists s, live, s'. split; [exact H1|]. split; [exact H2|exact H3].
Defined.
End PageAllocator.

Module AddressSpaces.

(** The calls a kernel makes on its address spaces. *)
Inductive call :=
| SetPage (pd upage kpage : Z) (writable : bool)
| GetPage (pd uaddr : Z)
| ClearPage (pd upage : Z)
| IsDirty (pd vpage : Z)
| SetDirty (pd vpage : Z) (dirty : bool)
| IsAccessed (pd vpage : Z)
| SetAccessed (pd vpage : Z) (accessed : bool)
| Activate (pd : Z).

Definition run_call (c : call) : M mmu Z :=
  match c with
  | SetPage pd u k w => r ← Ops.pagedir_set_page pd u k w; mret (Z.b2z r)
  | GetPage pd u => Ops.pagedir_get_page pd u
  | ClearPage pd u => Ops.pagedir_clear_page pd u;; mret 0
  | IsDirty pd v => r ← Ops.pagedir_is_dirty pd v; mret (Z.b2z r)
  | SetDirty pd v b => Ops.pagedir_set_dirty pd v b;; mret 0
  | IsAccessed pd v => r ← Ops.pagedir_is_accessed pd v; mret (Z.b2z r)
  | SetAccessed pd v b => Ops.pagedir_set_accessed pd v b;; mret 0
  | Activate pd => Ops.pagedir_activate pd;; mret 0
  end.

Definition user_addr (va : Z) : Prop := 0 ≤ va < PHYS_BASE.

(** What the comments of [pagedir.c] ask of the caller: an address space that
    exists and user addresses; for [pagedir_set_page] also a frame of memory
    and a page that is not mapped. *)
Definition allowed (dirs : gset Z) (s : mmu) (c : call) : Prop :=
  match c with
  | SetPage pd u k w =>
      pd ∈ dirs ∧ pd ≠ base_page_dir s ∧ user_addr u ∧ u mod 4096 = 0 ∧
      PHYS_BASE ≤ k < 2 ^ 32 ∧ k mod 4096 = 0 ∧ (k - PHYS_BASE) / 4096 < ram_pages s ∧
      present (lookup s pd (u / 4096)) = false
  | ClearPage pd u => pd ∈ dirs ∧ user_addr u ∧ u mod 4096 = 0
  | GetPage pd v | IsDirty pd v | IsAccessed pd v | SetDirty pd v _ | SetAccessed pd v _ =>
      pd ∈ dirs ∧ user_addr v
  | Activate pd => pd = NULL ∨ pd ∈ dirs
  end.

(** The abstract address spaces: for every directory and page what is mapped
    there. *)
Definition spaces := Z → Z → entry.

Definition same (dirs : gset Z) (A A' : spaces) : Prop :=
  ∀ pd n, pd ∈ dirs → 0 ≤ n < USER_PAGES → A' pd n = A pd n.
Definition updates (dirs : gset Z) (pd n : Z) (f : entry → entry) (A A' : spaces) : Prop :=
  ∀ pd' n', pd' ∈ dirs → 0 ≤ n' < USER_PAGES →
    A' pd' n' = if decide (pd' = pd ∧ n' = n) then f (A pd' n') else A pd' n'.

(** The abstract effect of a call and its result.  A bit of a page that was
    never mapped has nowhere to be kept. *)
Definition effect (dirs : gset Z) (c : call) (A : spaces) (r : Z) (A' : spaces) : Prop :=
  match c with
  | SetPage pd u k w =>
      (r = 1 ∧ updates dirs pd (u / 4096) (λ _, mk_entry true k w true false false) A A') ∨
      (r = 0 ∧ same dirs A A')
  | GetPage pd u =>
      same dirs A A' ∧
      r = if present (A pd (u / 4096)) then frame (A pd (u / 4096)) + u mod 4096 else NULL
  | ClearPage pd u => updates dirs pd (u / 4096) (set_present false) A A'
  | IsDirty pd v => same dirs A A' ∧ r = Z.b2z (dirty (A pd (v / 4096)))
  | IsAccessed pd v => same dirs A A' ∧ r = Z.b2z (accessed (A pd (v / 4096)))
  | SetDirty pd v b =>
      updates dirs pd (v / 4096) (set_dirty b) A A' ∨
      (A pd (v / 4096) = decode 0 ∧ same dirs A A')
  | SetAccessed pd v b =>
      updates dirs pd (v / 4096) (set_accessed b) A A' ∨
      (A pd (v / 4096) = decode 0 ∧ same dirs A A')
  | Activate pd => same dirs A A'
  end.

Lemma run_call_ok dirs s c :
  mmu_inv dirs s → allowed dirs s c →
  wp (run_call c) (λ r s', mmu_inv dirs s' ∧ effect dirs c (lookup s) r (lookup s')) s.
Proof.
  intros Hm Hc. destruct c; simpl in Hc |- *; wp_unbind.
  - destruct Hc as (? & ? & ? & ? & ? & ? & ? & ?).
    eapply wp_mono; [by apply pagedir_set_page_ok|]. intros [] s' Hs'; wp_go.
    + destruct Hs' as [? [? _ _]]. split; [done|]. by left.
    + destruct Hs' as [-> _]. split; [done|]. by right.
  - destruct Hc as [? ?]. by apply (pagedir_get_page_ok dirs).
  - destruct Hc as (? & ? & ?). eapply wp_mono; [by apply pagedir_clear_page_ok|].
    intros [] s' [? [? _ _]]. by wp_go.
  - destruct Hc as [? ?]. apply (pagedir_is_dirty_ok dirs); [done..|]. by wp_go.
  - destruct Hc as [? ?]. eapply wp_mono; [by apply pagedir_set_dirty_ok|].
    intros [] s' [[? [? _ _]]|[? ->]]; wp_go; (split; [done|]); [by left|by right].
  - destruct Hc as [? ?]. apply (pagedir_is_accessed_ok dirs); [done..|]. by wp_go.
  - destruct Hc as [? ?]. eapply wp_mono; [by apply pagedir_set_accessed_ok|].
    intros [] s' [[? [? _ _]]|[? ->]]; wp_go; (split; [done|]); [by left|by right].
  - eapply wp_mono; [by apply pagedir_activate_ok|]. intros [] s' (? & E & _). wp_go. split; [done|].
    intros pd' n _ _. unfold lookup. by rewrite E.
Qed.

(** What the processor does on its own.  It looks a page of the active space
    up in the tables and keeps the translation in its buffer, setting the
    accessed bit and, for a write, the dirty bit ([IA32-v3a] 3.7.6); and it
    forgets translations. *)
Definition walk (n : Z) (write : bool) : M mmu unit :=
  s ← get;
  pt ← deref (table (ram (mach s)) (active s) (n / 1024));
  let e := Z.lor (pte (ram (mach s)) (active s) n) PTE_A in
  let e := if write then Z.lor e PTE_D else e in
  Ops.write_word (pt + 4 * (n mod 1024)) e;;
  modify (λ s, mk_mmu (mach s) (ram_pages s) (base_page_dir s) (cr3 s) (<[n := e]> (tlb s))).
Definition forget (n : Z) : M mmu unit :=
  modify (λ s, mk_mmu (mach s) (ram_pages s) (base_page_dir s) (cr3 s) (delete n (tlb s))).

Definition may_walk (n : Z) (write : bool) (s : mmu) : Prop :=
  0 ≤ n < USER_PAGES ∧ present (lookup s (active s) n) = true ∧
  (write = true → writable (lookup s (active s) n) = true).

Definition touch (write : bool) (x : entry) : entry :=
  if write then set_dirty true (set_accessed true x) else set_accessed true x.

Lemma present_table s pd n : present (lookup s pd n) = true → is_Some (table (ram (mach s)) pd (n / 1024)).
Proof.
  unfold lookup, pte. destruct (table (ram (mach s)) pd (n / 1024)) as [pt|]; [done|]. intros [=].
Qed.

Lemma walk_ok dirs n write s :
  mmu_inv dirs s → may_walk n write s →
  wp (walk n write) (λ _ s', mmu_inv dirs s' ∧ changed dirs s s' (active s) n (touch write) ∧
    ∃ e, tlb s' !! n = Some e ∧ decode e = touch write (lookup s (active s) n)) s.
Proof.
  intros Hm (Hn & Hp & _). pose proof (mi_active _ _ Hm) as Ha. unfold walk. wp_go.
  destruct (present_table _ _ _ Hp) as [pt Ht]. rewrite Ht. wp_go.
  pose proof (lookup_entry dirs s _ _ Hm Ha Hn) as He.
  destruct (decode_accessed _ true He) as [He1 Ed1]. cbn beta iota zeta in He1, Ed1.
  set (e := Z.lor (pte (ram (mach s)) (active s) n) PTE_A) in *.
  set (e' := if write then Z.lor e PTE_D else e).
  assert (is_entry e' ∧ decode e' = touch write (lookup s (active s) n)) as [He' Ed'].
  { subst e'. unfold touch. destruct write; cbn beta iota; [|done].
    destruct (decode_dirty _ true He1) as [He2 Ed2]. cbn beta iota zeta in He2, Ed2.
    split; [done|]. by rewrite Ed2, Ed1. }
  eapply wp_mono; [by apply (put_entry_ok dirs s (active s) n pt e' (touch write))|].
  intros [] s1 (Ht1 & Hr1 & Hc1). wp_go.
  assert (mmu_inv dirs s1) as Hm1.
  { eapply (unflushed dirs s); [done..|]. intros x (? & ? & ? & ? & ? & ?). unfold touch. destruct write; by split_and!. }
  pose proof Hr1 as (_ & _ & Ec & _).
  assert (active s1 = active s) as Ea by (unfold active; by rewrite Ec).
  split; [|split; [by split; [exact (ch_lookup _ _ _ _ _ _ Hc1)|apply Hc1|apply Hc1]|]].
  2: { exists e'. split; [apply lookup_insert_eq|done]. }
  split; [apply Hm1|apply Hm1|apply Hm1|]. apply coherent_lookup. intros k x Hk Hx. simpl in Hx.
  change (lookup _ (active _) k) with (lookup s1 (active s1) k).
  apply lookup_insert_Some in Hx as [[<- <-]|[_ Hx]].
  - rewrite Ea, (ch_lookup _ _ _ _ _ _ Hc1), decide_True by done. rewrite <-Ed'. apply agrees_decode.
    assert (present (decode e') = true ∧ accessed (decode e') = true) as [H1 H2].
    { rewrite Ed'. unfold touch. by destruct write. }
    by split_and!.
  - by apply (proj1 (coherent_lookup s1) (mi_tlb _ _ Hm1)).
Qed.

Lemma forget_ok dirs n s :
  mmu_inv dirs s → wp (forget n) (λ _ s', mmu_inv dirs s' ∧ mach s' = mach s ∧
    ram_pages s' = ram_pages s ∧ base_page_dir s' = base_page_dir s ∧ cr3 s' = cr3 s) s.
Proof.
  intros [H1 H2 H3 H4]. unfold forget. wp_go. split; [|done]. split; [done..|]. intros k e Hk He. simpl in He.
  apply lookup_delete_Some in He as [_ He]. by apply (H4 k e).
Qed.

(** A step of the system: a call, or a step of the processor. *)
Inductive sys_step (dirs : gset Z) : mmu → mmu → Prop :=
| step_call c r s s' : allowed dirs s c → run_call c s = Ok (r, s') → sys_step dirs s s'
| step_walk n write s s' : may_walk n write s → walk n write s = Ok (tt, s') → sys_step dirs s s'
| step_forget n s s' : forget n s = Ok (tt, s') → sys_step dirs s s'.

Lemma sys_step_keeps dirs s s' : mmu_inv dirs s → sys_step dirs s s' → mmu_inv dirs s'.
Proof.
  intros Hm Hstep. destruct Hstep as [c r s s' Hc Hr|n write s s' Hw Hr|n s s' Hr].
  - pose proof (run_call_ok dirs s c Hm Hc) as Hok. apply wp_ok in Hok as (r' & s1 & E & H & _).
    rewrite Hr in E. by simplify_eq.
  - pose proof (walk_ok dirs n write s Hm Hw) as Hok. apply wp_ok in Hok as (r' & s1 & E & H & _).
    rewrite Hr in E. by simplify_eq.
  - pose proof (forget_ok dirs n s Hm) as Hok. apply wp_ok in Hok as (r' & s1 & E & H & _).
    rewrite Hr in E. by simplify_eq.
Qed.

Lemma sys_steps_keep dirs s s' : mmu_inv dirs s → rtc (sys_step dirs) s s' → mmu_inv dirs s'.
Proof. intros Hm Hsteps. induction Hsteps; eauto using sys_step_keeps. Qed.

(** C31: in every state that calls and processor accesses can reach, a call
    that keeps to the rules of [pagedir.c] returns, and its result and effect
    are those of the abstract address spaces: [pagedir_set_page] maps one page
    and leaves all others alone (or reports failure and changes nothing),
    [pagedir_get_page] translates, [pagedir_clear_page] unmaps and keeps the
    other bits, and the dirty and accessed bits are those of the page. *)
Theorem pagedir_refines dirs s s' c :
  mmu_inv dirs s → rtc (sys_step dirs) s s' → allowed dirs s' c →
  ∃ r s'', run_call c s' = Ok (r, s'') ∧ mmu_inv dirs s'' ∧
    effect dirs c (lookup s') r (lookup s'').
Proof.
  intros Hm Hsteps Hc. pose proof (sys_steps_keep _ _ _ Hm Hsteps) as Hm'.
  by apply wp_ok, run_call_ok.
Qed.

(** C32: the translation buffer is never stale.  However calls and processor
    accesses are interleaved, a user page that is in the buffer is mapped by
    the active directory, to the same frame and with the same permissions, its
    accessed bit is set, and a cached dirty bit is also set in memory. *)
Theorem tlb_never_stale dirs s s' n e :
  mmu_inv dirs s → rtc (sys_step dirs) s s' → 0 ≤ n < USER_PAGES → tlb s' !! n = Some e →
  valid_cache e (lookup s' (active s') n).
Proof.
  intros Hm Hsteps Hn He. pose proof (sys_steps_keep _ _ _ Hm Hsteps) as Hm'.
  by apply (proj1 (coherent_lookup s') (mi_tlb _ _ Hm')).
Qed.

(** ** A machine with two address spaces *)

(** Three kernel pages, of which the first two are empty directories, and a
    user page that is handed out. *)
Definition base_dir : Z := 0xc0100000.
Definition process_dir : Z := 0xc0101000.
Definition a_frame : Z := 0xc0103000.
(** [used] marks the user page, [pd] is the active directory. *)
Definition small_machine (used pd : Z) : mmu :=
  mk_mmu (mk_machine (zeros 0xc0100000 16384)
            (mk_pool (mk_bitmap 3 [3]) 0xc0100000) (mk_pool (mk_bitmap 1 [used]) 0xc0103000))
    260 base_dir (pd - PHYS_BASE) ∅.
Definition two_spaces : mmu := small_machine 1 base_dir.

Definition both : gset Z := {[base_dir; process_dir]}.

Lemma small_machine_empty used a pd n :
  pd ∈ both → 0 ≤ n < USER_PAGES → lookup (small_machine used a) pd n = decode 0.
Proof.
  intros Hpd Hn. destruct (user_index n Hn) as (Hi & _). unfold USER_TABLES in Hi.
  assert (pde (zeros 0xc0100000 16384) pd (n / 1024) = 0) as E.
  { unfold both in Hpd. unfold pde. apply elem_of_union in Hpd as [->%elem_of_singleton| ->%elem_of_singleton];
      apply word_zeros; unfold base_dir, process_dir; lia. }
  unfold lookup, pte, table. cbn [small_machine mach ram]. by rewrite E.
Qed.

Lemma small_machine_inv used a : is_u32 used → a ∈ both → mmu_inv both (small_machine used a).
Proof.
  intros Hu Ha. set (s := small_machine used a).
  assert (∀ pd i, pd ∈ both → 0 ≤ i < USER_TABLES → pde (ram (mach s)) pd i = 0) as Hp.
  { unfold both, USER_TABLES, pde. intros pd i [->%elem_of_singleton| ->%elem_of_singleton]%elem_of_union Hi;
      apply word_zeros; unfold base_dir, process_dir; lia. }
  assert (∀ pd i, pd ∈ both → 0 ≤ i < USER_TABLES → table (ram (mach s)) pd i = None) as Ht.
  { intros pd i Hpd Hi. unfold table. by rewrite Hp. }
  assert (∀ pd, pd ∈ both → kpage (mach s) pd) as Hk.
  { unfold both. intros pd [->%elem_of_singleton| ->%elem_of_singleton]%elem_of_union;
      [exists 0|exists 1]; (split; [simpl; lia|split; reflexivity]). }
  split; [split| | |].
  - split; [|done]. intros []; (split; [|done|unfold PHYS_BASE; simpl; lia|simpl; lia|]).
    1,3: by split; [simpl; lia|done|repeat constructor; unfold is_u32 in *; lia].
    all: simpl; intros x Hx; exists 0; apply lookup_zeros; lia.
  - intros pd Hpd. split; [by apply Hk| |].
    + intros i Hi. left. by apply Hp.
    + intros n Hn. unfold pte. destruct (user_index n Hn) as (Hi & _). rewrite Ht by done.
      split; [unfold is_u32; lia|done].
  - intros pd pd' i pt Hpd _ Hi E. by rewrite Ht in E.
  - unfold both. set_solver.
  - unfold active. cbn [s small_machine cr3]. by rewrite Z.sub_add.
  - by intros n e Hn He.
Qed.

Lemma two_spaces_inv : mmu_inv both two_spaces.
Proof. apply small_machine_inv; [unfold is_u32; lia|unfold both; set_solver]. Qed.

Definition map_it : call := SetPage process_dir 0x08048000 a_frame true.

Lemma map_it_allowed : allowed both two_spaces map_it.
Proof.
  split; [unfold both; set_solver|]. split; [done|]. unfold user_addr, PHYS_BASE, a_frame.
  split; [lia|]. split; [done|]. split; [lia|]. split; [done|]. split; [done|].
  assert (pde (ram (mach two_spaces)) process_dir 32 = 0) as E.
  { apply word_zeros; unfold process_dir; lia. }
  unfold lookup, pte, table. change (0x08048000 / 4096 / 1024) with 32. by rewrite E.
Qed.

(** Mapping a page, looked up afterwards. *)
Lemma pagedir_refines_witness :
  ∃ r s'', run_call map_it two_spaces = Ok (r, s'') ∧ mmu_inv both s'' ∧
    effect both map_it (lookup two_spaces) r (lookup s'').
Proof.
  apply (pagedir_refines both two_spaces two_spaces map_it).
  - exact two_spaces_inv.
  - apply rtc_refl.
  - exact map_it_allowed.
Defined.

Lemma map_it_succeeds :
  match run_call map_it two_spaces with
  | Ok (r, s) => r = 1 ∧ bit (used_map (user_pool (mach s))) 0 = true ∧
                 bit_cnt (used_map (user_pool (mach s))) = 1 ∧ base (user_pool (mach s)) = a_frame ∧
                 base (kernel_pool (mach s)) = base_dir ∧ bit_cnt (used_map (kernel_pool (mach s))) = 3 ∧
                 base_page_dir s = base_dir ∧ cr3 s = 0x100000
  | _ => False
  end.
Proof. vm_compute. split_and!; reflexivity. Qed.

(** The state after mapping a page. *)
Lemma after_map_it : ∃ s,
  run_call map_it two_spaces = Ok (1, s) ∧ mmu_inv both s ∧ in_use (mach s) a_frame ∧
  ¬ kpage (mach s) a_frame ∧ base_page_dir s = base_dir ∧ active s = base_dir ∧
  (∀ n, 0 ≤ n < USER_PAGES → present (lookup s process_dir n) = bool_decide (n = 0x8048)) ∧
  lookup s process_dir 0x8048 = mk_entry true a_frame true true false false.
Proof.
  destruct pagedir_refines_witness as (r & s & E & Hm & He). pose proof map_it_succeeds as H.
  rewrite E in H. destruct H as (-> & H1 & H2 & H3 & H4 & H5 & H6 & H7). exists s.
  destruct He as [[_ He]|[? _]]; [|done].
  change (0x08048000 / 4096) with 0x8048 in He.
  assert (process_dir ∈ both) as Hpd by (unfold both; set_solver).
  split; [exact E|]. split; [exact Hm|]. split; [|split; [|split; [|split; [|split]]]].
  - exists UserPool, 0. simpl. rewrite H2, H3. split; [lia|]. split; [done|done].
  - intros (i & Hi & Ei & _). rewrite H4, H5 in *. unfold base_dir, a_frame in *. lia.
  - exact H6.
  - unfold active. by rewrite H7.
  - intros n Hn. rewrite (He process_dir n Hpd Hn). case_bool_decide as Hd.
    + rewrite decide_True by (split; [reflexivity|exact Hd]). reflexivity.
    + rewrite decide_False by (intros [_ Hd']; exact (Hd Hd')).
      assert (pde (ram (mach two_spaces)) process_dir (n / 1024) = 0) as E0.
      { destruct (user_index n Hn) as (Hi & _). unfold USER_TABLES in Hi.
        unfold pde. change (ram (mach two_spaces)) with (zeros 0xc0100000 16384).
        apply word_zeros; unfold process_dir; lia. }
      unfold lookup, pte, table. rewrite E0. reflexivity.
  - rewrite (He process_dir 0x8048 Hpd) by (unfold USER_PAGES; lia).
    rewrite decide_True by (split; reflexivity). reflexivity.
Qed.

(** Mapping a page, switching to its directory and writing to it. *)
Lemma loaded_state : ∃ s e, rtc (sys_step both) two_spaces s ∧ tlb s !! 0x8048 = Some e.
Proof.
  destruct after_map_it as (s1 & E1 & Hm1 & _ & _ & _ & _ & _ & El).
  assert (process_dir ∈ both) as Hpd by (unfold both; set_solver).
  pose proof (pagedir_activate_ok both s1 process_dir Hm1 (or_intror Hpd)) as Hact.
  apply wp_ok in Hact as (u & s2 & E2 & Hm2 & Em & _ & Ea).
  rewrite decide_False in Ea by (unfold process_dir, NULL; lia).
  assert (lookup s2 (active s2) 0x8048 = mk_entry true a_frame true true false false) as El2.
  { unfold lookup. rewrite Em, Ea. exact El. }
  assert (may_walk 0x8048 true s2) as Hw.
  { split; [unfold USER_PAGES; lia|]. rewrite El2. split; reflexivity. }
  pose proof (walk_ok both 0x8048 true s2 Hm2 Hw) as Hok.
  apply wp_ok in Hok as ([] & s3 & E3 & _ & _ & e & He & _). exists s3, e. split; [|exact He].
  eapply rtc_l; [eapply (step_call both map_it); [exact map_it_allowed|exact E1]|].
  eapply rtc_l; [eapply (step_call both (Activate process_dir) 0); [right; exact Hpd|]|].
  { unfold run_call. rewrite (bind_ok _ _ s1 u s2 E2). reflexivity. }
  apply rtc_once. exact (step_walk both 0x8048 true s2 s3 Hw E3).
Qed.

Lemma tlb_never_stale_witness :
  ∃ s e, rtc (sys_step both) two_spaces s ∧ tlb s !! 0x8048 = Some e ∧
         valid_cache e (lookup s (active s) 0x8048).
Proof.
  destruct loaded_state as (s & e & Hsteps & He). exists s, e. split; [exact Hsteps|]. split; [exact He|].
  apply (tlb_never_stale both two_spaces s 0x8048 e).
  - exact two_spaces_inv.
  - exact Hsteps.
  - unfold USER_PAGES. lia.
  - exact He.
Defined.

(** [pagedir_create] returns null and changes nothing when the kernel pool
    is exhausted; otherwise a directory that was not in use, that maps no user
    page and whose kernel half is that of the kernel's own directory, and every
    other address space is as before. *)
Theorem pagedir_create_fresh dirs s :
  mmu_inv dirs s → kernel_only s → wp Ops.pagedir_create (created dirs s) s.
Proof. intros Hm Hk. by apply pagedir_create_ok. Qed.

Lemma pagedir_create_fresh_witness : wp Ops.pagedir_create (created both two_spaces) two_spaces.
Proof.
  apply (pagedir_create_fresh both two_spaces).
  - exact two_spaces_inv.
  - intros i Hi. unfold USER_TABLES in Hi. apply word_zeros; cbn [base_page_dir two_spaces small_machine]; unfold base_dir; lia.
Defined.

(** C34: [pagedir_destroy] gives back exactly the frames, the page tables and
    the directory of its address space (none of them twice, none left over)
    and leaves every other address space as it was. *)
Theorem pagedir_destroy_frees_all dirs s pd :
  mmu_inv dirs s → pd ∈ dirs → owns_frames dirs s pd → pd ≠ base_page_dir s → pd ≠ active s →
  wp (Ops.pagedir_destroy pd) (λ _ s',
    mmu_inv (dirs ∖ {[pd]}) s' ∧ same_regs s s' ∧
    (∀ pd' n, pd' ∈ dirs → pd' ≠ pd → 0 ≤ n < USER_PAGES → lookup s' pd' n = lookup s pd' n) ∧
    (∀ a, in_use (mach s') a ↔ in_use (mach s) a ∧ a ≠ pd ∧
       (∀ i, 0 ≤ i < USER_TABLES → table (ram (mach s)) pd i ≠ Some a) ∧ (∀ n, ¬ maps s pd n a))) s.
Proof. intros. by apply pagedir_destroy_ok. Qed.

Lemma pagedir_destroy_frees_all_witness :
  ∃ s, maps s process_dir 0x8048 a_frame ∧ in_use (mach s) a_frame ∧
    wp (Ops.pagedir_destroy process_dir) (λ _ s', ¬ in_use (mach s') a_frame) s.
Proof.
  destruct after_map_it as (s & _ & Hm & Hu & Hk & Eb & Ea & Hp & El).
  assert (maps s process_dir 0x8048 a_frame) as Hmap.
  { split; [unfold USER_PAGES; lia|]. by rewrite El. }
  exists s. split; [exact Hmap|]. split; [exact Hu|].
  eapply wp_mono.
  - apply (pagedir_destroy_frees_all both s process_dir).
    + exact Hm.
    + unfold both. set_solver.
    + split.
      * intros n a (Hn & Hpn & <-). rewrite Hp in Hpn by done. apply bool_decide_eq_true in Hpn as ->.
        rewrite El. split; [exact Hu|]. intros Ht. apply Hk. by apply (is_table_kpage both _ _ (mi_space _ _ Hm)).
      * intros n n' a (Hn & Hpn & _) (Hn' & Hpn' & _). rewrite Hp in Hpn, Hpn' by done.
        apply bool_decide_eq_true in Hpn as ->. by apply bool_decide_eq_true in Hpn' as ->.
    + by rewrite Eb.
    + by rewrite Ea.
  - intros [] s' (_ & _ & _ & Hin) Ha. apply Hin in Ha as (_ & _ & _ & Hno). by apply (Hno 0x8048).
Defined.
End AddressSpaces.
