(* ===== verification/Swap.v ===== *)
(** Swapping pages to disk ([vm/swap.c]): a bitmap of page-sized slots on the
    swap disk.  The swap lock makes each call one step. *)
From Stdlib Require Import ZArith Lia.
From stdpp Require Import base tactics option numbers list gmap.
From S2P Require Import Prelude Bytes Bitmap CString CStdlib Disk Palloc.

Open Scope Z_scope.

Record swap := mk_swap { ram : mem; swap_device : disk; swap_table : bitmap }.

Module Ops.
Import Bitmap.Ops.

Definition on_ram {A} (m : M mem A) : M swap A :=
  zoom ram (λ m st, mk_swap m (swap_device st) (swap_table st)) m.
Definition on_disk {A} (m : M disk A) : M swap A :=
  zoom swap_device (λ d st, mk_swap (ram st) d (swap_table st)) m.
Definition on_table {A} (m : M bitmap A) : M swap A :=
  zoom swap_table (λ b st, mk_swap (ram st) (swap_device st) b) m.

(** A sector stored at an address, byte by byte. *)
Fixpoint store_block (a : Z) (bs : bytes) : M mem unit :=
  match bs with
  | [] => mret tt
  | b :: bs => CString.Ops.store a b;; store_block (a + 1) bs
  end.

(** The swap device is [disk_get (1, 1)]; [held] is what the storage of the
    map held. *)
Definition swap_init (m : mem) (d : disk) (held : Z → list Z) : outcome swap :=
  let bit_cnt := u32 (capacity d * DISK_SECTOR_SIZE) / PGSIZE in
  b ← bitmap_create bit_cnt (held (elem_cnt bit_cnt));
  match bitmap_set_all false b with
  | Ok (_, b) => Ok (mk_swap m d b)
  | Panic => Panic
  | Undef => Undef
  | NoFuel => NoFuel
  end.

Definition read_from_disk (frame_addr sector_num : Z) : M swap unit :=
  for_upto (Z.to_nat (PGSIZE / DISK_SECTOR_SIZE)) 0 (λ i,
    let dst := i * DISK_SECTOR_SIZE + frame_addr in
    b ← on_disk (disk_read (u32 (i + sector_num)));
    on_ram (store_block dst b)).

Definition write_to_disk (frame_addr sector_num : Z) : M swap unit :=
  for_upto (Z.to_nat (PGSIZE / DISK_SECTOR_SIZE)) 0 (λ i,
    let dst := i * DISK_SECTOR_SIZE + frame_addr in
    b ← on_ram (CStdlib.Ops.load_block 512 dst);
    on_disk (disk_write (u32 (i + sector_num)) b)).

Definition get_empty_sector_num : M swap Z :=
  bitmap_idx ← on_table (bitmap_scan_and_flip 0 1 false);
  if negb (bitmap_idx =? BITMAP_ERROR)
  then mret (u32 (bitmap_idx * PGSIZE) / DISK_SECTOR_SIZE)
  else panic.

Definition swap_in (frame_addr sector_num : Z) : M swap bool :=
  let bitmap_idx := u32 (sector_num * DISK_SECTOR_SIZE) / PGSIZE in
  success ← on_table (bitmap_test bitmap_idx);
  if negb success then panic else
  on_table (bitmap_flip bitmap_idx);;
  read_from_disk frame_addr sector_num;;
  mret true.

Definition swap_out (frame_addr : Z) : M swap Z :=
  sector_num ← get_empty_sector_num;
  write_to_disk frame_addr sector_num;;
  mret sector_num.
End Ops.

(** * Slots

    Slot [k] is sectors [8 k] to [8 k + 7]; its contents are their bytes. *)
Definition sectors_from (d : disk) (n : Z) (k : nat) : bytes :=
  mjoin ((λ i, sector_data d (n + Z.of_nat i)) <$> seq 0 k).

Definition slot_bytes (d : disk) (n : Z) : bytes := sectors_from d n 8.

(** The page of memory at [a]. *)
Definition page_of (m : mem) (a : Z) : bytes := bytes_of m a (Z.to_nat 4096).
Definition has_page (m : mem) (a : Z) : Prop := ∀ x, a ≤ x < a + 4096 → is_Some (m !! x).

(** The disk is large enough for the slots of the map. *)
Record swap_wf (st : swap) : Prop := {
  sw_map : wf (swap_table st);
  sw_small : bit_cnt (swap_table st) < 2 ^ 20;
  sw_disk : wf_disk (swap_device st);
  sw_room : 8 * bit_cnt (swap_table st) ≤ capacity (swap_device st) }.

Section slots.
Implicit Types (st : swap) (m : mem) (d : disk).
Import Ops.

Lemma store_block_ok m a bs :
  (∀ x, a ≤ x < a + Z.of_nat (length bs) → is_Some (m !! x)) →
  wp (store_block a bs) (λ _ m', block m' a bs ∧ changes_at a (Z.of_nat (length bs)) m m') m.
Proof.
  revert a m. induction bs as [|b bs IH]; intros a m Hr; cbn [store_block].
  { wp_go. split; [by intros i y Hy|done]. }
  cbn [length] in *. destruct (Hr a) as [v Hv]; [lia|]. wp_unbind. eapply wp_mstore; [done|].
  eapply wp_mono; [apply IH|].
  - intros x Hx. rewrite lookup_insert_ne by lia. apply Hr. lia.
  - intros [] m' [Hb Hch]. split.
    + apply block_cons. split; [|done]. rewrite (proj1 Hch) by lia. apply lookup_insert_eq.
    + split.
      * intros x Hx. rewrite (proj1 Hch) by lia. by rewrite lookup_insert_ne by lia.
      * rewrite (proj2 Hch). apply dom_insert_lookup_L. by exists v.
Qed.

Lemma sectors_S d n k : sectors_from d n (S k) = sectors_from d n k ++ sector_data d (n + Z.of_nat k).
Proof. unfold sectors_from. rewrite seq_S, fmap_app, join_app. simpl. by rewrite app_nil_r. Qed.

Lemma sectors_length d n k : wf_disk d → length (sectors_from d n k) = (512 * k)%nat.
Proof.
  intros Hd. induction k as [|k IH]; [done|]. rewrite sectors_S, length_app, IH, length_sector_data by done. lia.
Qed.

Lemma sectors_ext d d' n k :
  (∀ i, n ≤ i < n + Z.of_nat k → sector_data d' i = sector_data d i) → sectors_from d' n k = sectors_from d n k.
Proof.
  intros H. unfold sectors_from. f_equal. apply list_fmap_ext. intros j x Hj.
  apply lookup_seq in Hj as [-> Hj]. apply H. lia.
Qed.

Lemma bytes_of_app m a n k :
  bytes_of m a (n + k) = bytes_of m a n ++ bytes_of m (a + Z.of_nat n) k.
Proof.
  unfold bytes_of. rewrite seq_app, fmap_app. f_equal. apply list_eq. intros i.
  rewrite !list_lookup_fmap. destruct (decide (i < k)%nat).
  - rewrite !lookup_seq_lt by lia. simpl. do 2 f_equal. lia.
  - rewrite !lookup_seq_ge by lia. done.
Qed.

(** Copying a slot into memory. *)
Lemma read_from_disk_ok st f n :
  wf_disk (swap_device st) → 0 ≤ n → n + 8 ≤ capacity (swap_device st) → n + 8 ≤ 2 ^ 28 →
  has_page (ram st) f →
  wp (read_from_disk f n) (λ _ st',
    swap_device st' = swap_device st ∧ swap_table st' = swap_table st ∧
    block (ram st') f (slot_bytes (swap_device st) n) ∧ changes_at f 4096 (ram st) (ram st')) st.
Proof.
  intros Hd Hn Hc H28 Hp. unfold read_from_disk. change (Z.to_nat (PGSIZE / DISK_SECTOR_SIZE)) with 8%nat.
  eapply wp_mono; [apply (wp_for_upto (λ i st', 0 ≤ i ∧
    swap_device st' = swap_device st ∧ swap_table st' = swap_table st ∧
    block (ram st') f (sectors_from (swap_device st) n (Z.to_nat i)) ∧
    changes_at f (512 * i) (ram st) (ram st')))|].
  - intros i st1 Hi (_ & Ed & Et & Hb & Hch). cbv zeta. wp_unbind. unfold on_disk. apply wp_zoom.
    rewrite u32_id by (unfold is_u32; lia). rewrite Ed.
    apply wp_disk_read; [split; lia|]. unfold on_ram. apply wp_zoom. cbn [ram swap_device swap_table].
    unfold DISK_SECTOR_SIZE. replace (i * 512 + f) with (f + 512 * i) by lia.
    set (b := sector_data (swap_device st) (i + n)).
    assert (length b = 512%nat) as Hl by (by apply length_sector_data).
    eapply wp_mono; [apply store_block_ok|].
    { intros x Hx. eapply changes_mem; [done|]. apply Hp. lia. }
    intros [] m' [Hb' Hch']. cbn [ram swap_device swap_table]. rewrite Hl in Hch'.
    split_and!; [lia|done|done| |].
    + replace (Z.to_nat (i + 1)) with (S (Z.to_nat i)) by lia. rewrite sectors_S. apply block_app. split.
      * eapply block_changes; [done| |done]. rewrite sectors_length by done. lia.
      * rewrite sectors_length, Z2Nat.id by (done || lia).
        replace (f + Z.of_nat (512 * Z.to_nat i)) with (f + 512 * i) by lia.
        replace (n + i) with (i + n) by lia. done.
    + split.
      * intros x Hx. rewrite (proj1 Hch'), (proj1 Hch) by lia. done.
      * by rewrite (proj2 Hch'), (proj2 Hch).
  - split_and!; [lia|done|done|by intros i y Hy|done].
  - intros [] st1 (_ & ? & ? & ? & ?). done.
Qed.

(** Copying a page of memory into a slot. *)
Lemma write_to_disk_ok st f n :
  wf_disk (swap_device st) → 0 ≤ n → n + 8 ≤ capacity (swap_device st) → n + 8 ≤ 2 ^ 28 →
  has_page (ram st) f →
  wp (write_to_disk f n) (λ _ st',
    ram st' = ram st ∧ swap_table st' = swap_table st ∧ wf_disk (swap_device st') ∧
    capacity (swap_device st') = capacity (swap_device st) ∧
    slot_bytes (swap_device st') n = page_of (ram st) f ∧
    ∀ k, ¬ n ≤ k < n + 8 → sector_data (swap_device st') k = sector_data (swap_device st) k) st.
Proof.
  intros Hd Hn Hc H28 Hp. unfold write_to_disk. change (Z.to_nat (PGSIZE / DISK_SECTOR_SIZE)) with 8%nat.
  eapply wp_mono; [apply (wp_for_upto (λ i st', 0 ≤ i ∧
    ram st' = ram st ∧ swap_table st' = swap_table st ∧ wf_disk (swap_device st') ∧
    capacity (swap_device st') = capacity (swap_device st) ∧
    sectors_from (swap_device st') n (Z.to_nat i) = bytes_of (ram st) f (Z.to_nat (512 * i)) ∧
    ∀ k, ¬ n ≤ k < n + i → sector_data (swap_device st') k = sector_data (swap_device st) k))|].
  - intros i st1 Hi (_ & Er & Et & Hw & Ec & Hs & Ho). cbv zeta. wp_unbind. unfold on_ram. apply wp_zoom.
    rewrite Er. unfold DISK_SECTOR_SIZE. replace (i * 512 + f) with (f + 512 * i) by lia.
    set (b := bytes_of (ram st) (f + 512 * i) (Z.to_nat 512)).
    eapply wp_mono; [apply (load_block_ok (ram st) (f + 512 * i) b)|].
    { apply block_bytes_of. intros x Hx. apply Hp. lia. }
    { unfold b. by rewrite length_bytes_of. }
    intros r m' [-> ->]. unfold on_disk. apply wp_zoom. cbn [ram swap_device swap_table].
    rewrite u32_id by (unfold is_u32; lia). assert (length b = 512%nat) as Hl by (unfold b; by rewrite length_bytes_of).
    apply wp_disk_write; [split; rewrite ?Ec; lia|done|]. cbn [ram swap_device swap_table].
    split_and!; [lia|done|done|by apply wf_write_sector|done| |].
    + replace (Z.to_nat (i + 1)) with (S (Z.to_nat i)) by lia. rewrite sectors_S.
      rewrite sector_data_write, decide_True by lia.
      rewrite (sectors_ext (swap_device st1)), Hs.
      * replace (Z.to_nat (512 * (i + 1))) with (Z.to_nat (512 * i) + Z.to_nat 512)%nat by lia.
        rewrite bytes_of_app, Z2Nat.id by lia. done.
      * intros j Hj. rewrite sector_data_write, decide_False by lia. done.
    + intros k Hk. rewrite sector_data_write, decide_False by lia. apply Ho. lia.
  - split_and!; [lia|done|done|done|done|done|done].
  - intros [] st1 (_ & ? & ? & ? & ? & ? & ?). done.
Qed.
End slots.

(** * Pages swapped out

    [live] lists the pages that are on the disk: the sector [swap_out]
    returned and the contents the page had. *)
Record holds (live : list (Z * bytes)) (st : swap) : Prop := {
  h_slot : ∀ n page, (n, page) ∈ live → ∃ k, n = 8 * k ∧ 0 ≤ k < bit_cnt (swap_table st) ∧
    bit (swap_table st) k = true ∧ slot_bytes (swap_device st) n = page;
  h_cover : ∀ k, 0 ≤ k < bit_cnt (swap_table st) → bit (swap_table st) k = true → 8 * k ∈ live.*1;
  h_nodup : NoDup live.*1 }.

Section live.
Implicit Types (st : swap) (live : list (Z * bytes)).
Import Ops.

(** A slot is free. *)
Definition has_slot st : Prop :=
  ∃ k, 0 ≤ k < bit_cnt (swap_table st) ∧ bit (swap_table st) k = false.

Lemma slot_free live st :
  swap_wf st → holds live st → Z.of_nat (length live) < bit_cnt (swap_table st) →
  has_slot st.
Proof.
  intros Hw [_ Hc _] Hl. set (n := bit_cnt (swap_table st)) in *.
  destruct (decide (Forall (λ k, bit (swap_table st) k = true) (seqZ 0 n))) as [Hall|Hno].
  - exfalso. rewrite Forall_forall in Hall.
    assert ((λ k, 8 * k) <$> seqZ 0 n ⊆+ live.*1) as Hsub.
    { assert (Inj (=) (=) (λ k, 8 * k)) by (intros a b Hab; lia).
      apply NoDup_submseteq; [apply NoDup_fmap_2; [done|apply NoDup_seqZ]|].
      - intros x Hx. apply list_elem_of_fmap in Hx as (k & -> & Hk).
        pose proof (Hall k Hk) as Hb. apply elem_of_seqZ in Hk. apply Hc; [lia|done]. }
    apply submseteq_length in Hsub. rewrite !length_fmap, length_seqZ in Hsub.
    pose proof (wf_cnt _ (sw_map _ Hw)). fold n in H. lia.
  - apply not_Forall_Exists in Hno; [|apply _]. apply Exists_exists in Hno as (k & Hk & Hb).
    apply elem_of_seqZ in Hk. exists k. split; [lia|]. by apply not_true_is_false.
Qed.

Lemma swap_out_ok live st f :
  swap_wf st → holds live st → has_slot st → has_page (ram st) f →
  wp (swap_out f) (λ n st', swap_wf st' ∧ holds ((n, page_of (ram st) f) :: live) st' ∧
    ram st' = ram st ∧ bit_cnt (swap_table st') = bit_cnt (swap_table st)) st.
Proof.
  intros Hw Hh (k0 & Hk0 & Hf0) Hp. pose proof Hw as [Hm Hs Hd Hr]. pose proof (wf_cnt _ Hm) as Hcnt.
  unfold swap_out, get_empty_sector_num. wp_unbind. unfold on_table. apply wp_zoom.
  eapply wp_mono; [apply Correct.bitmap_scan_and_flip_ok; [done|lia..]|]. intros k b [Hscan Hb].
  destruct Hscan as [(Hk & Hk1 & Hfree & _)|[_ Hno]].
  2: { destruct (Hno k0); [lia..|]. intros i Hi. by replace i with k0 by lia. }
  assert (k ≠ BITMAP_ERROR) as Hne by (unfold BITMAP_ERROR; lia).
  rewrite (proj2 (Z.eqb_neq _ _) Hne) in *. cbn [negb] in *. wp_go.
  destruct Hb as (Hwb & Hcb & Hbits). specialize (Hfree k ltac:(lia)).
  rewrite PGSIZE_eq, u32_id by (unfold is_u32; lia). unfold DISK_SECTOR_SIZE.
  replace (k * 4096 / 512) with (8 * k) by (replace (k * 4096) with (8 * k * 512) by lia; by rewrite Z.div_mul).
  eapply wp_mono; [apply (write_to_disk_ok (mk_swap (ram st) (swap_device st) b) f (8 * k)); cbn [ram swap_device]; [done|lia..|done]|].
  cbn [ram swap_device swap_table]. intros [] st' (Er & Et & Hwd & Ec & Hslot & Ho). wp_go.
  split; [split; rewrite ?Et, ?Ec; [done|lia|done|lia]|].
  split; [|split; [done|by rewrite Et]].
  assert (8 * k ∉ live.*1) as Hnew.
  { intros ([n page] & En & Hin)%list_elem_of_fmap. simpl in En. subst n.
    destruct (h_slot _ _ Hh _ _ Hin) as (k' & E & _ & Hb' & _). replace k' with k in Hb' by lia. congruence. }
  split.
  - intros n page Hin. apply elem_of_cons in Hin as [[= -> ->]|Hin].
    + exists k. rewrite Et, Hcb, Hbits by lia. split_and!; [done|lia|lia| |done].
      by rewrite (proj2 (Z.leb_le _ _)), (proj2 (Z.ltb_lt _ _)) by lia.
    + destruct (h_slot _ _ Hh _ _ Hin) as (k' & -> & Hk' & Hb' & Hp').
      assert (k' ≠ k) by (intros ->; congruence).
      exists k'. rewrite Et, Hcb, Hbits by lia. split_and!; [done|lia|lia| |].
      * rewrite Hb'. by destruct ((k <=? k') && (k' <? k + 1)).
      * rewrite <-Hp'. apply sectors_ext. intros j Hj. apply Ho. lia.
  - rewrite Et, Hcb. intros k' Hk' Hb'. rewrite Hbits in Hb' by lia. apply elem_of_cons.
    destruct (decide (k' = k)) as [->|]; [by left|right]. apply (h_cover _ _ Hh); [done|].
    destruct (Z.leb_spec k k'), (Z.ltb_spec k' (k + 1)); simpl in Hb'; try done. lia.
  - cbn. apply NoDup_cons. split; [done|apply Hh].
Qed.

Lemma swap_in_ok live st f k n page :
  swap_wf st → holds live st → live !! k = Some (n, page) → has_page (ram st) f →
  wp (swap_in f n) (λ r st', r = true ∧ swap_wf st' ∧ holds (delete k live) st' ∧
    block (ram st') f page ∧ changes_at f 4096 (ram st) (ram st') ∧
    bit_cnt (swap_table st') = bit_cnt (swap_table st)) st.
Proof.
  intros Hw Hh Hk Hp. pose proof Hw as [Hm Hs Hd Hr]. pose proof (wf_cnt _ Hm) as Hcnt.
  destruct (h_slot _ _ Hh n page) as (i & -> & Hi & Hb & Hpage); [by eapply list_elem_of_lookup_2|].
  unfold swap_in. rewrite PGSIZE_eq. unfold DISK_SECTOR_SIZE. rewrite u32_id by (unfold is_u32; lia).
  replace (8 * i * 512 / 4096) with i by (replace (8 * i * 512) with (i * 4096) by lia; by rewrite Z.div_mul).
  wp_unbind. unfold on_table. apply wp_zoom. apply Correct.bitmap_test_ok; [done..|]. rewrite Hb. cbn [negb].
  wp_unbind. apply wp_zoom. cbn [swap_table ram swap_device].
  eapply wp_mono; [by apply Correct.bitmap_flip_ok|]. rewrite Hb. cbn [negb]. intros [] b (Hwb & Hcb & Hbits). wp_unbind.
  eapply wp_mono; [apply (read_from_disk_ok (mk_swap (ram st) (swap_device st) b) f (8 * i)); cbn [ram swap_device]; [done|lia..|done]|].
  cbn [ram swap_device swap_table]. intros [] st' (Ed & Et & Hblk & Hch). wp_go.
  split; [done|]. split; [split; rewrite ?Ed, ?Et; [done|lia|done|lia]|].
  split; [|split; [by rewrite <-Hpage|split; [done|by rewrite Et]]].
  assert (∀ n' p', (n', p') ∈ delete k live → (n', p') ∈ live ∧ n' ≠ 8 * i) as Hdel.
  { intros n' p' (j' & Hj' & E')%elem_of_delete_1. split; [by eapply list_elem_of_lookup_2|]. intros ->. apply Hj'.
    eapply (NoDup_lookup live.*1); [apply Hh| |]; rewrite list_lookup_fmap; [by rewrite E'|by rewrite Hk]. }
  split.
  - intros n' p' [Hin Hne]%Hdel. destruct (h_slot _ _ Hh _ _ Hin) as (k' & -> & Hk' & Hb' & Hp').
    exists k'. rewrite Et, Ed, Hcb, Hbits by lia. split_and!; [done|lia|lia| |done].
    destruct (Z.leb_spec i k'), (Z.ltb_spec k' (i + 1)); simpl; try done. lia.
  - rewrite Et, Hcb. intros k' Hk' Hb'. rewrite Hbits in Hb' by lia.
    destruct (Z.leb_spec i k'), (Z.ltb_spec k' (i + 1)); simpl in Hb'; try done.
    all: pose proof (h_cover _ _ Hh k' Hk' Hb') as Hin; apply list_elem_of_fmap in Hin as ([n' p'] & E & Hin);
      simpl in E; subst n'; apply list_elem_of_fmap; exists (8 * k', p'); (split; [done|]);
      apply list_elem_of_lookup in Hin as [j Hj]; eapply elem_of_delete_2; [done|];
      intros ->; rewrite Hk in Hj; simplify_eq; lia.
  - rewrite list_fmap_delete. eapply sublist_NoDup; [apply Hh|apply sublist_delete].
Qed.
End live.

(** * Initialisation *)
Lemma swap_init_ok m d held :
  (∀ n, 0 ≤ n → Z.of_nat (length (held n)) = n ∧ Forall is_u32 (held n)) →
  0 ≤ capacity d → wf_disk d →
  ∃ st, Ops.swap_init m d held = Ok st ∧ swap_wf st ∧ holds [] st ∧ ram st = m ∧
        bit_cnt (swap_table st) = u32 (capacity d * 512) / 4096.
Proof.
  intros Hh Hc Hd. unfold Ops.swap_init. rewrite PGSIZE_eq. unfold DISK_SECTOR_SIZE.
  set (n := u32 (capacity d * 512) / 4096).
  assert (0 ≤ n < 2 ^ 20 ∧ 8 * n ≤ capacity d) as [Hn Hroom].
  { unfold n, u32. pose proof (Z.mod_pos_bound (capacity d * 512) (2 ^ 32)).
    pose proof (Z.mod_le (capacity d * 512) (2 ^ 32)).
    set (x := (capacity d * 512) mod 2 ^ 32) in *. pose proof (Z.div_mod x 4096).
    pose proof (Z.mod_pos_bound x 4096). lia. }
  destruct (Hh (elem_cnt n)) as [Hl Hw].
  { rewrite elem_cnt_eq by lia. apply Z.div_pos; lia. }
  destruct (Correct.bitmap_create_ok n (held (elem_cnt n))) as (b & E & Hwf & Hcnt & Hall); [lia|done..|].
  rewrite E. cbn [mbind outcome_bind].
  assert (wp (Bitmap.Ops.bitmap_set_all false) (λ _ b', set_range b b' 0 n false) b) as Hset.
  { unfold Bitmap.Ops.bitmap_set_all, Bitmap.Ops.bitmap_size. wp_go. rewrite Hcnt.
    apply Correct.bitmap_set_multiple_ok; [done|lia..]. }
  apply wp_ok in Hset as ([] & b' & E' & Hwf' & Hcnt' & Hbits). rewrite E'.
  eexists. split; [done|]. split_and!; [split| |done|]; cbn [ram swap_device swap_table]; [done|lia|done|lia| |congruence].
  split; cbn [swap_device swap_table]; [by intros ? ? ?%elem_of_nil| |constructor].
  intros k Hk Hb. rewrite Hbits in Hb by lia.
  by rewrite (proj2 (Z.leb_le _ _)), (proj2 (Z.ltb_lt _ _)) in Hb by lia.
Qed.

Module Swapping.
Import Ops.

(** Requests of the frame allocator: swap a frame out, or the [k]-th page that
    is out back in. *)
Inductive request := Out (frame : Z) | In (k : nat) (frame : Z).

(** A client that asks for no more pages than there are slots, and that
    compares each page it gets back with the page it gave away. *)
Definition serve (r : request) (live : list (Z * bytes)) (seen : list (bytes * bytes)) :
    M swap (list (Z * bytes) * list (bytes * bytes)) :=
  match r with
  | Out f =>
      n ← gets (λ st, bit_cnt (swap_table st));
      if Z.of_nat (length live) <? n then
        m ← gets ram;
        sector ← swap_out f;
        mret ((sector, page_of m f) :: live, seen)
      else mret (live, seen)
  | In k f =>
      match live !! k with
      | Some (sector, page) =>
          swap_in f sector;;
          m ← gets ram;
          mret (delete k live, (page, page_of m f) :: seen)
      | None => mret (live, seen)
      end
  end.

Fixpoint serve_all (rs : list request) live seen : M swap (list (Z * bytes) * list (bytes * bytes)) :=
  match rs with
  | [] => mret (live, seen)
  | r :: rs => '(live, seen) ← serve r live seen; serve_all rs live seen
  end.

Definition frame_of (r : request) : Z := match r with Out f | In _ f => f end.

Lemma page_of_block m f page :
  block m f page → length page = Z.to_nat 4096 → page_of m f = page.
Proof.
  intros Hb Hl. unfold page_of, bytes_of. apply list_eq. intros i.
  rewrite list_lookup_fmap. destruct (page !! i) as [b|] eqn:E.
  - pose proof (lookup_lt_Some _ _ _ E). rewrite lookup_seq_lt by lia. simpl.
    by rewrite lookup_total_alt, (Hb _ _ E).
  - apply lookup_ge_None in E. by rewrite lookup_seq_ge by lia.
Qed.

Lemma serves rs live seen st :
  swap_wf st → holds live st → Forall (λ r, has_page (ram st) (frame_of r)) rs →
  Forall (λ p, p.1 = p.2) seen →
  wp (serve_all rs live seen) (λ r st', swap_wf st' ∧ holds r.1 st' ∧ Forall (λ p, p.1 = p.2) r.2) st.
Proof.
  revert live seen st. induction rs as [|r rs IH]; intros live seen st Hw Hh Hrs Hseen; cbn [serve_all].
  { by apply wp_ret. }
  apply Forall_cons in Hrs as [Hr Hrs]. destruct r as [f|k f]; cbn [serve frame_of] in *; wp_go.
  - destruct (Z.ltb_spec (Z.of_nat (length live)) (bit_cnt (swap_table st))); wp_go; [|by apply IH].
    eapply wp_mono; [apply swap_out_ok; [done..|by eapply slot_free|done]|]. intros n st' (Hw' & Hh' & Er & _). wp_go.
    apply IH; [done|done| |done]. by rewrite Er.
  - destruct (live !! k) as [[n page]|] eqn:Ek; wp_go; [|by apply IH].
    eapply wp_mono; [by apply swap_in_ok|]. intros [] st' (_ & Hw' & Hh' & Hb & Hch & _); wp_go.
    all: apply IH; [done|done| |constructor; [|done]].
    1,3: eapply Forall_impl; [done|]; intros r Hp x Hx; eapply changes_mem; [done|]; by apply Hp.
    all: simpl; symmetry; apply page_of_block; [done|];
      destruct (h_slot _ _ Hh n page) as (i & _ & _ & _ & <-); [by eapply list_elem_of_lookup_2|];
      unfold slot_bytes; rewrite sectors_length by apply Hw; lia.
Qed.

(** C21: swapping preserves pages.  From [swap_init] on, any sequence of
    [swap_out] and [swap_in] (with no more pages out than the device has
    slots) is served, and every page comes back with the contents it had when
    it went out, whatever was swapped in between. *)
Theorem swap_round_trip m d held rs :
  (∀ n, 0 ≤ n → Z.of_nat (length (held n)) = n ∧ Forall is_u32 (held n)) →
  0 ≤ capacity d → wf_disk d → Forall (λ r, has_page m (frame_of r)) rs →
  ∃ st live seen st', swap_init m d held = Ok st ∧ serve_all rs [] [] st = Ok (live, seen, st') ∧
    Forall (λ p, p.1 = p.2) seen.
Proof.
  intros Hh Hc Hd Hrs. destruct (swap_init_ok m d held Hh Hc Hd) as (st & E & Hw & Ho & Er & _).
  assert (wp (serve_all rs [] []) (λ r st', swap_wf st' ∧ holds r.1 st' ∧ Forall (λ p, p.1 = p.2) r.2) st) as H.
  { apply serves; [done|done|by rewrite Er|constructor]. }
  apply wp_ok in H as ([live seen] & st' & E' & _ & _ & Hseen). by exists st, live, seen, st'.
Qed.

(** Two pages are swapped out and back in in the other order. *)
Definition two_pages : mem := list_to_map ((λ x, (x, x mod 256)) <$> seqZ 4096 8192).
Lemma two_pages_has x : 4096 ≤ x < 12288 → is_Some (two_pages !! x).
Proof.
  intros Hx. exists (x mod 256). unfold two_pages. apply elem_of_list_to_map_1.
  - rewrite <-list_fmap_compose. change (fst ∘ (λ x : Z, (x, x mod 256))) with (λ x : Z, x).
    rewrite list_fmap_id. apply NoDup_seqZ.
  - apply list_elem_of_fmap. exists x. split; [done|]. apply elem_of_seqZ. lia.
Qed.

Lemma swap_round_trip_witness :
  ∃ st live seen st',
    swap_init two_pages (mk_disk 64 ∅) (λ n, replicate (Z.to_nat n) 5) = Ok st ∧
    serve_all [Out 4096; Out 8192; In 1 8192; In 0 4096] [] [] st = Ok (live, seen, st') ∧
    Forall (λ p, p.1 = p.2) seen.
Proof.
  apply (swap_round_trip two_pages (mk_disk 64 ∅) (λ n, replicate (Z.to_nat n) 5)
    [Out 4096; Out 8192; In 1 8192; In 0 4096]).
  - intros n Hn. rewrite length_replicate, Z2Nat.id by done. split; [done|].
    apply Forall_replicate. unfold is_u32. lia.
  - simpl. lia.
  - intros k b Hk. discriminate Hk.
  - repeat constructor; intros x Hx; apply two_pages_has; simpl in Hx; lia.
Defined.
End Swapping.
