(* ===== verification/Random.v ===== *)
(** The random number generator ([lib/random.c]) and the cipher of the test
    programs ([tests/arc4.c]): two implementations of RC4. *)
From Stdlib Require Import ZArith Lia.
From stdpp Require Import base tactics option numbers list gmap.
From S2P Require Import Prelude CString Bytes CStdlib Palloc.

Open Scope Z_scope.

(** [uint8_t] arithmetic. *)
Definition u8 (z : Z) : Z := z mod 256.

(** The permutation and the two indices, as [random.c] keeps them in static
    variables and [struct arc4] in its fields. *)
Record rc4 := mk_rc4 { s : list Z; s_i : Z; s_j : Z }.

Record prng := mk_prng { ram : mem; gen : rc4; inited : bool }.

Module Ops.

Definition on_ram {A} (m : M mem A) : M prng A :=
  zoom ram (λ m st, mk_prng m (gen st) (inited st)) m.
Definition on_gen {A} (m : M rc4 A) : M prng A :=
  zoom gen (λ g st, mk_prng (ram st) g (inited st)) m.

(** [s[i]] read and written. *)
Definition get_s (i : Z) : M rc4 Z := g ← get; deref (s g !! Z.to_nat i).
Definition put_s (i v : Z) : M rc4 unit :=
  g ← get; deref (s g !! Z.to_nat i);;
  put (mk_rc4 (<[Z.to_nat i := v]> (s g)) (s_i g) (s_j g)).
Definition set_ij (i j : Z) : M rc4 unit := modify (λ g, mk_rc4 (s g) i j).

(** On two elements of the array. *)
Definition swap_byte (a b : Z) : M rc4 unit :=
  t ← get_s a;
  x ← get_s b;
  put_s a x;;
  put_s b t.

(** The second loop of [random_init]; [seedp] are the bytes of the seed. *)
Fixpoint seed_loop (seedp : list Z) (n : nat) (i j : Z) : M rc4 unit :=
  match n with
  | O => mret tt
  | S n' =>
      x ← get_s i;
      k ← deref (seedp !! Z.to_nat (i mod 4));
      let j := u8 (j + x + k) in
      swap_byte i j;;
      seed_loop seedp n' (i + 1) j
  end.

Definition random_init (seed : Z) : M prng unit :=
  let seedp := le32 seed in
  on_gen (
    for_upto 256 0 (λ i, put_s i (u8 i));;
    seed_loop seedp 256 0 0;;
    set_ij 0 0);;
  modify (λ st, mk_prng (ram st) (gen st) true).

Definition random_bytes (buf size : Z) : M prng unit :=
  b ← gets inited;
  (if b : bool then mret tt else random_init 0);;
  for_upto (Z.to_nat size) 0 (λ k,
    byte ← on_gen (
      g ← get;
      let i := u8 (s_i g + 1) in
      x ← get_s i;
      let j := u8 (s_j g + x) in
      set_ij i j;;
      swap_byte i j;;
      x ← get_s i;
      y ← get_s j;
      get_s (u8 (x + y)));
    on_ram (CString.Ops.store (buf + k) byte)).

(** [ul] is the address of the local variable. *)
Definition random_ulong (ul : Z) : M prng Z :=
  random_bytes ul 4;;
  b0 ← on_ram (CString.Ops.load ul);
  b1 ← on_ram (CString.Ops.load (ul + 1));
  b2 ← on_ram (CString.Ops.load (ul + 2));
  b3 ← on_ram (CString.Ops.load (ul + 3));
  mret (of_le32 [b0; b1; b2; b3]).

(** The loop of [arc4_init], with [key_idx]. *)
Fixpoint key_loop (key size : Z) (n : nat) (key_idx i j : Z) : M prng unit :=
  match n with
  | O => mret tt
  | S n' =>
      x ← on_gen (get_s i);
      k ← on_ram (CString.Ops.load (key + key_idx));
      let j := Z.land (j + x + k) 255 in
      on_gen (swap_byte i j);;
      let key_idx := key_idx + 1 in
      key_loop key size n' (if size <=? key_idx then 0 else key_idx) (i + 1) j
  end.

Definition arc4_init (key size : Z) : M prng unit :=
  on_gen (set_ij 0 0);;
  on_gen (for_upto 256 0 (λ i, put_s i (u8 i)));;
  key_loop key size 256 0 0 0.

(** The loop keeps [i] and [j] in local variables. *)
Fixpoint crypt_loop (n : nat) (buf i j : Z) : M prng (Z * Z) :=
  match n with
  | O => mret (i, j)
  | S n' =>
      let i := u8 (i + 1) in
      x ← on_gen (get_s i);
      let j := u8 (j + x) in
      on_gen (swap_byte i j);;
      x ← on_gen (get_s i);
      y ← on_gen (get_s j);
      k ← on_gen (get_s (Z.land (x + y) 255));
      b ← on_ram (CString.Ops.load buf);
      on_ram (CString.Ops.store buf (Z.lxor b k));;
      crypt_loop n' (buf + 1) i j
  end.

Definition arc4_crypt (buf size : Z) : M prng unit :=
  g ← gets gen;
  '(i, j) ← crypt_loop (Z.to_nat size) buf (s_i g) (s_j g);
  on_gen (set_ij i j).
End Ops.

(** * RC4 *)
Definition at_ (l : list Z) (i : Z) : Z := l !!! Z.to_nat i.
Definition swap_at (l : list Z) (a b : Z) : list Z := swap_elements (Z.to_nat a) (Z.to_nat b) l.

(** The key schedule: [n] steps from step [i] on. *)
Fixpoint schedule (key : list Z) (n : nat) (i j : Z) (l : list Z) : list Z :=
  match n with
  | O => l
  | S n' =>
      let j := u8 (j + at_ l i + at_ key (i mod Z.of_nat (length key))) in
      schedule key n' (i + 1) j (swap_at l i j)
  end.

Definition keyed (key : list Z) : rc4 := mk_rc4 (schedule key 256 0 0 (seqZ 0 256)) 0 0.

(** The next byte of the key stream. *)
Definition next (g : rc4) : Z * rc4 :=
  let i := u8 (s_i g + 1) in
  let j := u8 (s_j g + at_ (s g) i) in
  let l := swap_at (s g) i j in
  (at_ l (u8 (at_ l i + at_ l j)), mk_rc4 l i j).

Arguments next : simpl never.

Fixpoint stream (n : nat) (g : rc4) : list Z * rc4 :=
  match n with
  | O => ([], g)
  | S n' => let '(b, g1) := next g in let '(bs, g2) := stream n' g1 in (b :: bs, g2)
  end.

(** The array is a permutation of the 256 bytes. *)
Record valid (g : rc4) : Prop := {
  v_perm : s g ≡ₚ seqZ 0 256;
  v_i : 0 ≤ s_i g < 256;
  v_j : 0 ≤ s_j g < 256 }.

Section rc4.
Implicit Types (g : rc4) (l : list Z).
Import Ops.

Lemma u8_range z : 0 ≤ u8 z < 256.
Proof. unfold u8. apply Z.mod_pos_bound. lia. Qed.

Lemma perm_length l : l ≡ₚ seqZ 0 256 → length l = Z.to_nat 256.
Proof. intros H. apply Permutation_length in H. by rewrite H, length_seqZ. Qed.

Lemma perm_byte l i : l ≡ₚ seqZ 0 256 → 0 ≤ i < 256 → 0 ≤ at_ l i < 256.
Proof.
  intros H Hi. unfold at_. pose proof (perm_length l H).
  destruct (lookup_lt_is_Some_2 l (Z.to_nat i)) as [x Hx]; [lia|].
  rewrite (list_lookup_total_correct _ _ _ Hx). apply list_elem_of_lookup_2 in Hx.
  rewrite H in Hx. apply elem_of_seqZ in Hx. lia.
Qed.

Lemma swap_at_perm l a b :
  l ≡ₚ seqZ 0 256 → 0 ≤ a < 256 → 0 ≤ b < 256 → swap_at l a b ≡ₚ seqZ 0 256.
Proof.
  intros H ? ?. pose proof (perm_length l H). rewrite <-H. apply swap_permutation; lia.
Qed.

Lemma wp_get_s g i Q :
  s g ≡ₚ seqZ 0 256 → 0 ≤ i < 256 → Q (at_ (s g) i) g → wp (get_s i) Q g.
Proof.
  intros H Hi HQ. unfold get_s. wp_go. pose proof (perm_length _ H).
  destruct (lookup_lt_is_Some_2 (s g) (Z.to_nat i)) as [x Hx]; [lia|]. rewrite Hx. wp_go.
  unfold at_ in HQ. by rewrite (list_lookup_total_correct _ _ _ Hx) in HQ.
Qed.

Lemma wp_swap_byte g a b Q :
  s g ≡ₚ seqZ 0 256 → 0 ≤ a < 256 → 0 ≤ b < 256 →
  Q tt (mk_rc4 (swap_at (s g) a b) (s_i g) (s_j g)) → wp (swap_byte a b) Q g.
Proof.
  intros H Ha Hb HQ. pose proof (perm_length _ H). unfold swap_byte. wp_unbind.
  apply wp_get_s; [done..|]. wp_unbind. apply wp_get_s; [done..|].
  destruct (lookup_lt_is_Some_2 (s g) (Z.to_nat a)) as [x Hx]; [lia|].
  destruct (lookup_lt_is_Some_2 (s g) (Z.to_nat b)) as [y Hy]; [lia|].
  unfold at_. rewrite (list_lookup_total_correct _ _ _ Hx), (list_lookup_total_correct _ _ _ Hy).
  unfold put_s. wp_go. rewrite Hx. wp_go. cbn [s].
  destruct (lookup_lt_is_Some_2 (<[Z.to_nat a := y]> (s g)) (Z.to_nat b)) as [z Hz].
  { rewrite length_insert. lia. }
  rewrite Hz. wp_go. cbn [s s_i s_j]. unfold swap_at, swap_elements in HQ. rewrite Hx, Hy in HQ.
  destruct (decide (a = b)) as [->|Hne].
  - rewrite Hx in Hy. simplify_eq. done.
  - by rewrite list_insert_insert_ne by lia.
Qed.

Lemma next_valid g : valid g → valid (next g).2 ∧ 0 ≤ (next g).1 < 256.
Proof.
  intros [H Hi Hj]. unfold next. cbn [fst snd]. pose proof (u8_range (s_i g + 1)).
  pose proof (u8_range (s_j g + at_ (s g) (u8 (s_i g + 1)))).
  pose proof (swap_at_perm _ _ _ H (u8_range (s_i g + 1)) (u8_range (s_j g + at_ (s g) (u8 (s_i g + 1))))).
  split; [done|]. apply perm_byte; [done|apply u8_range].
Qed.

Lemma stream_S n g :
  stream (S n) g = ((next g).1 :: (stream n (next g).2).1, (stream n (next g).2).2).
Proof.
  change (stream (S n) g) with (let '(b, g1) := next g in let '(bs, g2) := stream n g1 in (b :: bs, g2)).
  destruct (next g) as [b g1]. cbn [fst snd]. by destruct (stream n g1).
Qed.

Lemma stream_valid n g : valid g → valid (stream n g).2 ∧ Forall is_byte (stream n g).1.
Proof.
  revert g. induction n as [|n IH]; intros g Hg; [done|]. rewrite stream_S. cbn [fst snd].
  destruct (next_valid g Hg) as [Hg1 Hb]. destruct (IH _ Hg1) as [H1 H2]. by split; [|constructor].
Qed.

Lemma stream_length n g : length (stream n g).1 = n.
Proof.
  revert g. induction n as [|n IH]; intros g; [done|]. rewrite stream_S. cbn [fst length]. by rewrite IH.
Qed.

(** The stream goes on where it stopped. *)
Lemma stream_app n k g :
  stream (n + k) g = ((stream n g).1 ++ (stream k (stream n g).2).1, (stream k (stream n g).2).2).
Proof.
  revert g. induction n as [|n IH]; intros g.
  { cbn [Nat.add stream fst snd app]. by destruct (stream k g). }
  cbn [Nat.add]. rewrite !stream_S. cbn [fst snd app]. by rewrite IH.
Qed.

Lemma stream_snoc n g :
  stream (S n) g = ((stream n g).1 ++ [(next (stream n g).2).1], (next (stream n g).2).2).
Proof.
  replace (S n) with (n + 1)%nat by lia. rewrite stream_app, stream_S. done.
Qed.

(** ** The key schedule *)
Lemma schedule_perm key n i j l :
  l ≡ₚ seqZ 0 256 → 0 ≤ i → i + Z.of_nat n ≤ 256 → schedule key n i j l ≡ₚ seqZ 0 256.
Proof.
  revert i j l. induction n as [|n IH]; intros i j l Hl Hi Hn; simpl; [done|].
  apply IH; [|lia..]. apply swap_at_perm; [done|lia|apply u8_range].
Qed.

Lemma keyed_valid key : valid (keyed key).
Proof.
  split; unfold keyed; cbn [s s_i s_j]; [|lia..]. apply schedule_perm; [reflexivity|lia|lia].
Qed.
End rc4.

(** * The implementations follow it *)
Section runs.
Implicit Types (g : rc4) (l : list Z) (st : prng).
Import Ops.

Lemma fill_ok g :
  length (s g) = Z.to_nat 256 →
  wp (for_upto 256 0 (λ i, put_s i (u8 i)))
    (λ _ g', g' = mk_rc4 (seqZ 0 256) (s_i g) (s_j g)) g.
Proof.
  intros Hl. eapply wp_mono; [apply (wp_for_upto (λ i g', 0 ≤ i ∧
    g' = mk_rc4 (seqZ 0 i ++ drop (Z.to_nat i) (s g)) (s_i g) (s_j g)))|].
  - intros i g' Hi [_ ->]. unfold put_s. wp_go. cbn [s s_i s_j].
    destruct (lookup_lt_is_Some_2 (s g) (Z.to_nat i)) as [x Hx]; [lia|].
    rewrite lookup_app_r, length_seqZ by (rewrite length_seqZ; lia). rewrite Nat.sub_diag, lookup_drop.
    rewrite Nat.add_0_r, Hx. wp_go. split; [lia|]. f_equal.
    rewrite insert_app_r_alt, length_seqZ, Nat.sub_diag by (rewrite length_seqZ; lia).
    rewrite (drop_S _ x) by done. simpl. unfold u8. rewrite Z.mod_small by lia.
    rewrite (seqZ_app 0 i 1) by lia. rewrite <-app_assoc. replace (Z.to_nat (i + 1)) with (S (Z.to_nat i)) by lia.
    done.
  - split; [lia|]. simpl. by destruct g.
  - intros _ g' [_ ->]. change (0 + Z.of_nat 256) with 256. rewrite drop_ge by lia. by rewrite app_nil_r.
Qed.

Lemma seed_loop_ok key n i j g :
  length key = 4%nat → s g ≡ₚ seqZ 0 256 → 0 ≤ i → i + Z.of_nat n ≤ 256 →
  wp (seed_loop key n i j)
    (λ _ g', g' = mk_rc4 (schedule key n i j (s g)) (s_i g) (s_j g)) g.
Proof.
  intros Hlen. revert i j g. induction n as [|n IH]; intros i j g Hg Hi Hn; simpl.
  { wp_go. by destruct g. }
  wp_unbind. apply wp_get_s; [done|lia|]. wp_unbind. pose proof (Z.mod_pos_bound i 4).
  destruct (lookup_lt_is_Some_2 key (Z.to_nat (i mod 4))) as [k Hk]; [lia|].
  rewrite Hk. wp_go. rewrite Hlen. change (Z.of_nat 4) with 4.
  replace (at_ key (i mod 4)) with k by (unfold at_; by rewrite (list_lookup_total_correct _ _ _ Hk)).
  pose proof (u8_range (j + at_ (s g) i + k)).
  apply wp_swap_byte; [done|lia|done|].
  eapply wp_mono; [apply IH; cbn [s]; [apply swap_at_perm; [done|lia|done]|lia..]|]. intros ? g' ->. done.
Qed.

(** One step of the output loop. *)
Lemma next_ok g Q :
  valid g → Q (next g).1 (next g).2 →
  wp (g ← get;
      let i := u8 (s_i g + 1) in
      x ← get_s i;
      let j := u8 (s_j g + x) in
      set_ij i j;;
      swap_byte i j;;
      x ← get_s i;
      y ← get_s j;
      get_s (u8 (x + y))) Q g.
Proof.
  intros [Hp Hi Hj] HQ. cbv zeta. wp_go. set (i := u8 (s_i g + 1)). pose proof (u8_range (s_i g + 1)).
  apply wp_get_s; [done..|]. set (j := u8 (s_j g + at_ (s g) i)).
  pose proof (u8_range (s_j g + at_ (s g) i)). unfold set_ij. wp_go.
  apply wp_swap_byte; [done..|]. cbn [s s_i s_j]. wp_unbind.
  pose proof (swap_at_perm (s g) i j Hp ltac:(done) ltac:(done)).
  apply wp_get_s; [done..|]. wp_unbind. apply wp_get_s; [done..|]. cbn [s].
  apply wp_get_s; [done|apply u8_range|]. exact HQ.
Qed.

Definition ready st : Prop := inited st = true ∧ valid (gen st).

Lemma random_init_ok st seed :
  length (s (gen st)) = Z.to_nat 256 →
  wp (random_init seed) (λ _ st', st' = mk_prng (ram st) (keyed (le32 seed)) true) st.
Proof.
  intros Hl. unfold random_init. wp_unbind. unfold on_gen. apply wp_zoom. wp_unbind.
  eapply wp_mono; [by apply fill_ok|]. intros [] g ->. wp_unbind.
  eapply wp_mono; [apply seed_loop_ok; [done|reflexivity|lia|lia]|]. intros [] g ->.
  unfold set_ij. wp_go. done.
Qed.

(** [random_bytes] writes the next bytes of the stream. *)
Lemma random_bytes_ok st buf n :
  ready st → 0 ≤ n → (∀ x, buf ≤ x < buf + n → is_Some (ram st !! x)) →
  wp (random_bytes buf n) (λ _ st',
    block (ram st') buf (stream (Z.to_nat n) (gen st)).1 ∧ changes_at buf n (ram st) (ram st') ∧
    gen st' = (stream (Z.to_nat n) (gen st)).2 ∧ inited st' = true) st.
Proof.
  intros [Hin Hv] Hn Hr. unfold random_bytes. wp_go. rewrite Hin. wp_go.
  eapply wp_mono; [apply (wp_for_upto (λ k st', 0 ≤ k ∧
    block (ram st') buf (stream (Z.to_nat k) (gen st)).1 ∧ changes_at buf k (ram st) (ram st') ∧
    gen st' = (stream (Z.to_nat k) (gen st)).2 ∧ inited st' = true))|].
  - intros k st1 Hk (_ & Hb & Hch & Hg & Hi). rewrite Z2Nat.id in Hk by lia.
    destruct (stream_valid (Z.to_nat k) (gen st) Hv) as [Hv1 _]. rewrite <-Hg in Hv1.
    wp_unbind. unfold on_gen. apply wp_zoom. apply next_ok; [done|]. unfold on_ram. apply wp_zoom. cbn [ram gen].
    destruct (Hr (buf + k)) as [x Hx]; [lia|].
    eapply wp_mstore; [rewrite (proj1 Hch) by lia; exact Hx|]. cbn [ram gen inited].
    replace (Z.to_nat (k + 1)) with (S (Z.to_nat k)) by lia. rewrite stream_snoc. cbn [fst snd].
    rewrite <-Hg. split_and!; [lia| | |done|done].
    + apply block_app. rewrite stream_length, Z2Nat.id by lia. split.
      * intros i y Hy. pose proof (lookup_lt_Some _ _ _ Hy) as Hl. rewrite stream_length in Hl.
        rewrite lookup_insert_ne by lia. by apply Hb.
      * apply block_cons. split; [apply lookup_insert_eq|]. by intros i y Hy.
    + eapply changes_store; [|lia|rewrite (proj1 Hch) by lia; exact Hx].
      destruct Hch as [H1 H2]. split; [|done]. intros y Hy. apply H1. lia.
  - split_and!; [lia|by intros i y Hy|done|done|done].
  - intros [] st1 (_ & ?). rewrite Z.add_0_l, Z2Nat.id in * by lia. done.
Qed.

Lemma land_255 z : Z.land z 255 = u8 z.
Proof. unfold u8. change 255 with (Z.ones 8). by rewrite Z.land_ones by lia. Qed.

Lemma key_idx_next n i : 0 ≤ i → 0 < n →
  (if n <=? i mod n + 1 then 0 else i mod n + 1) = (i + 1) mod n.
Proof.
  intros Hi Hn. pose proof (Z.mod_pos_bound i n Hn). pose proof (Z.div_mod i n).
  destruct (Z.leb_spec n (i mod n + 1)).
  - apply (Z.mod_unique (i + 1) n (i / n + 1)); lia.
  - apply (Z.mod_unique (i + 1) n (i / n)); lia.
Qed.

Lemma key_loop_ok key ks n i j st :
  0 < Z.of_nat (length ks) → block (ram st) key ks → s (gen st) ≡ₚ seqZ 0 256 →
  0 ≤ i → i + Z.of_nat n ≤ 256 →
  wp (key_loop key (Z.of_nat (length ks)) n (i mod Z.of_nat (length ks)) i j)
    (λ _ st', st' = mk_prng (ram st)
       (mk_rc4 (schedule ks n i j (s (gen st))) (s_i (gen st)) (s_j (gen st))) (inited st)) st.
Proof.
  intros Hlen Hk. revert i j st Hk. induction n as [|n IH]; intros i j st Hk Hg Hi Hn; simpl.
  { wp_go. by destruct st as [? []]. }
  wp_unbind. unfold on_gen. apply wp_zoom. apply wp_get_s; [done|lia|].
  unfold on_ram. wp_unbind. apply wp_zoom. cbn [ram gen inited].
  pose proof (Z.mod_pos_bound i (Z.of_nat (length ks)) Hlen) as Hm.
  destruct (lookup_lt_is_Some_2 ks (Z.to_nat (i mod Z.of_nat (length ks)))) as [k Ek]; [lia|].
  eapply wp_mload; [pose proof (Hk _ _ Ek) as H; rewrite Z2Nat.id in H by lia; exact H|].
  wp_unbind. apply wp_zoom. cbn [ram gen inited]. rewrite land_255.
  pose proof (u8_range (j + at_ (s (gen st)) i + k)). apply wp_swap_byte; [done|lia|done|].
  rewrite key_idx_next by lia. cbn [ram gen inited].
  replace (at_ ks (i mod Z.of_nat (length ks))) with k
    by (unfold at_; by rewrite (list_lookup_total_correct _ _ _ Ek)).
  eapply wp_mono; [apply IH; cbn [ram gen s]; [done|apply swap_at_perm; [done|lia|done]|lia..]|].
  intros ? st' ->. done.
Qed.

Lemma arc4_init_ok key ks st :
  0 < Z.of_nat (length ks) → block (ram st) key ks → length (s (gen st)) = Z.to_nat 256 →
  wp (arc4_init key (Z.of_nat (length ks))) (λ _ st', st' = mk_prng (ram st) (keyed ks) (inited st)) st.
Proof.
  intros Hlen Hk Hl. unfold arc4_init, on_gen, set_ij. wp_unbind. apply wp_zoom. wp_go.
  apply wp_zoom. eapply wp_mono; [by apply fill_ok|]. intros [] g ->. cbn [ram gen inited s s_i s_j].
  replace 0 with (0 mod Z.of_nat (length ks)) at 1 by (apply Z.mod_0_l; lia).
  eapply wp_mono; [apply key_loop_ok; cbn [ram gen s]; [done|done|reflexivity|lia|lia]|].
  intros [] st' ->. done.
Qed.

Lemma zip_lxor_length (bs ks : list Z) :
  length bs = length ks → length (zip_with Z.lxor bs ks) = length bs.
Proof. intros E. rewrite length_zip_with. lia. Qed.

Lemma crypt_loop_ok bs buf l i j st :
  valid (mk_rc4 l i j) → s (gen st) = l → block (ram st) buf bs →
  let ks := stream (length bs) (mk_rc4 l i j) in
  wp (crypt_loop (length bs) buf i j)
    (λ r st', r = (s_i ks.2, s_j ks.2) ∧
       gen st' = mk_rc4 (s ks.2) (s_i (gen st)) (s_j (gen st)) ∧ inited st' = inited st ∧
       block (ram st') buf (zip_with Z.lxor bs ks.1) ∧
       changes_at buf (Z.of_nat (length bs)) (ram st) (ram st')) st.
Proof.
  revert buf l i j st. induction bs as [|b bs IH]; intros buf l i j st Hv El Hb ks.
  { cbn [length crypt_loop]. wp_go. subst ks l. cbn [stream fst snd s s_i s_j].
    destruct st as [? []]. simpl. split_and!; [done|done|done|by intros ? ?|done]. }
  apply block_cons in Hb as [Hb0 Hb]. pose proof Hv as [Hp _ _]. cbn [s] in Hp.
  unfold ks. cbn [length crypt_loop]. rewrite stream_S. cbn [fst snd].
  pose proof (next_valid _ Hv) as [Hv1 _]. unfold next in *. cbn [s s_i s_j fst snd] in *.
  set (i1 := u8 (i + 1)) in *. set (j1 := u8 (j + at_ l i1)) in *.
  pose proof (v_i _ Hv1) as Hi1. pose proof (v_j _ Hv1) as Hj1. cbn [s_i s_j] in Hi1, Hj1.
  pose proof (v_perm _ Hv1) as Hp1. cbn [s] in Hp1.
  wp_unbind. unfold on_gen. apply wp_zoom. rewrite <-El in Hp. apply wp_get_s; [done..|].
  rewrite El. fold j1. wp_unbind. apply wp_zoom. apply wp_swap_byte; [done..|].
  cbn [ram gen inited]. rewrite El. wp_unbind. apply wp_zoom. apply wp_get_s; [done..|]. cbn [gen s ram inited].
  wp_unbind. apply wp_zoom. apply wp_get_s; [done..|]. cbn [gen s ram inited].
  wp_unbind. apply wp_zoom. rewrite land_255. apply wp_get_s; [done|apply u8_range|]. cbn [gen s ram inited].
  set (k := at_ _ (u8 _)). unfold on_ram. wp_unbind. apply wp_zoom. eapply wp_mload; [exact Hb0|].
  wp_unbind. apply wp_zoom. eapply wp_mstore; [exact Hb0|]. cbn [gen s ram inited s_i s_j].
  eapply wp_mono; [apply (IH (buf + 1) (swap_at l i1 j1) i1 j1); [done|done|]|].
  { intros x y Hx. cbn [ram]. rewrite lookup_insert_ne by lia. by apply Hb. }
  cbn beta zeta. intros r st' (-> & Eg & Ei & Hblk & Hch). cbn [gen ram inited s_i s_j] in *.
  split_and!; [done|done|done| |].
  - cbn [zip_with]. apply block_cons. split; [|done].
    rewrite (proj1 Hch) by lia. apply lookup_insert_eq.
  - split.
    + intros x Hx. rewrite (proj1 Hch) by lia. by rewrite lookup_insert_ne by lia.
    + rewrite (proj2 Hch). apply dom_insert_lookup_L. by exists b.
Qed.

Lemma arc4_crypt_ok bs buf st :
  valid (gen st) → block (ram st) buf bs →
  let ks := stream (length bs) (gen st) in
  wp (arc4_crypt buf (Z.of_nat (length bs)))
    (λ _ st', gen st' = ks.2 ∧ block (ram st') buf (zip_with Z.lxor bs ks.1) ∧
       changes_at buf (Z.of_nat (length bs)) (ram st) (ram st')) st.
Proof.
  intros Hv Hb ks. unfold arc4_crypt. wp_go. rewrite Nat2Z.id.
  eapply wp_mono; [apply (crypt_loop_ok bs buf (s (gen st))); [by destruct (gen st)|done|done]|].
  cbn beta zeta. replace (mk_rc4 (s (gen st)) (s_i (gen st)) (s_j (gen st))) with (gen st) by (by destruct (gen st)).
  intros r st' (-> & Eg & _ & Hblk & Hch). unfold on_gen, set_ij. apply wp_zoom. wp_go.
  cbn [gen ram]. rewrite Eg. cbn [s]. subst ks. split; [by destruct (stream (length bs) (gen st)).2|done].
Qed.
End runs.

Module Generator.
Import Ops.

(** Requests for random bytes, one after the other. *)
Fixpoint fill_all (reqs : list (Z * Z)) : M prng unit :=
  match reqs with
  | [] => mret tt
  | (buf, n) :: reqs => random_bytes buf n;; fill_all reqs
  end.

(** The whole buffer is in memory. *)
Definition in_memory (m : mem) (r : Z * Z) : Prop :=
  0 ≤ r.2 ∧ ∀ x, r.1 ≤ x < r.1 + r.2 → x ∈ dom m.

Lemma bytes_stored (m m' : mem) a bs n :
  map_Forall (λ _, is_byte) m → block m' a bs → Forall is_byte bs → Z.of_nat (length bs) = n →
  changes_at a n m m' → map_Forall (λ _, is_byte) m'.
Proof.
  intros Hm Hb Hbs Hl [Hch _] x v Hv. destruct (decide (a ≤ x < a + n)).
  - destruct (lookup_lt_is_Some_2 bs (Z.to_nat (x - a))) as [b Eb]; [lia|].
    pose proof (Hb _ _ Eb) as E. replace (a + Z.of_nat (Z.to_nat (x - a))) with x in E by lia.
    rewrite E in Hv. simplify_eq. rewrite Forall_lookup in Hbs. by eapply Hbs.
  - rewrite Hch in Hv by done. by eapply Hm.
Qed.

Lemma fill_all_ok reqs st :
  ready st → map_Forall (λ _, is_byte) (ram st) → Forall (in_memory (ram st)) reqs →
  wp (fill_all reqs) (λ _ st', ready st' ∧ map_Forall (λ _, is_byte) (ram st') ∧
    dom (ram st') = dom (ram st) ∧
    ∀ x, (∀ r, r ∈ reqs → ¬ r.1 ≤ x < r.1 + r.2) → ram st' !! x = ram st !! x) st.
Proof.
  revert st. induction reqs as [|[buf n] reqs IH]; intros st Hr Hm Hreqs; simpl; [by apply wp_ret|].
  apply Forall_cons in Hreqs as [[Hn Hin] Hreqs]. simpl in Hn, Hin. wp_unbind.
  eapply wp_mono; [apply random_bytes_ok; [done|done|]|].
  { intros x Hx. by apply elem_of_dom, Hin. }
  intros [] st1 (Hb & Hch & Hg & Hi). destruct (stream_valid (Z.to_nat n) (gen st)) as [Hv Hbs]; [apply Hr|].
  pose proof Hch as [Hout Hdom]. eapply wp_mono; [apply IH|].
  - split; [done|]. by rewrite Hg.
  - eapply bytes_stored; [done..| |done]. rewrite stream_length. lia.
  - eapply Forall_impl; [done|]. intros r [? ?]. split; [done|]. by rewrite Hdom.
  - intros [] st2 (Hr2 & Hm2 & Hd2 & Ho2). split_and!; [done|done|by rewrite Hd2|].
    intros x Hx. rewrite Ho2, Hout; [done| |].
    + apply (Hx (buf, n)). left.
    + intros r Hr'. apply Hx. by right.
Qed.

(** C38: whatever the seed and the requests, the generator's state keeps its
    type: the array is a permutation of the 256 bytes and the indices are
    bytes, no access is outside the array or the buffers, memory holds bytes
    after the calls if it did before, and nothing outside the buffers changes. *)
Theorem random_keeps_type st seed reqs :
  length (s (gen st)) = Z.to_nat 256 → map_Forall (λ _, is_byte) (ram st) →
  Forall (in_memory (ram st)) reqs →
  wp (random_init seed;; fill_all reqs) (λ _ st',
    s (gen st') ≡ₚ seqZ 0 256 ∧ 0 ≤ s_i (gen st') < 256 ∧ 0 ≤ s_j (gen st') < 256 ∧
    map_Forall (λ _, is_byte) (ram st') ∧
    ∀ x, (∀ r, r ∈ reqs → ¬ r.1 ≤ x < r.1 + r.2) → ram st' !! x = ram st !! x) st.
Proof.
  intros Hl Hm Hreqs. wp_unbind. eapply wp_mono; [by apply random_init_ok|]. intros [] st1 ->.
  eapply wp_mono; [apply fill_all_ok; [split; [done|apply keyed_valid]|done..]|].
  intros [] st2 ([_ [? ? ?]] & ? & _ & ?). done.
Qed.

(** A generator that was never used, with some memory. *)
Definition fresh (m : mem) : prng := mk_prng m (mk_rc4 (replicate (Z.to_nat 256) 0) 0 0) false.
Definition some_memory : mem := list_to_map ((λ x, (x, 0)) <$> seqZ 100 16).

Lemma some_memory_in a n : 100 ≤ a → 0 ≤ n → a + n ≤ 116 → in_memory some_memory (a, n).
Proof.
  intros Ha Hn Hle. split; [done|]. intros x Hx. simpl in Hx.
  assert (x ∈ seqZ 100 16) as Hin by (apply elem_of_seqZ; lia).
  clear Ha Hn Hle Hx. unfold seqZ in Hin. simpl in Hin. apply elem_of_dom.
  repeat (apply elem_of_cons in Hin as [->|Hin]; [by eexists|]). by apply elem_of_nil in Hin.
Qed.

Lemma random_keeps_type_witness :
  wp (random_init 7;; fill_all [(100, 8); (104, 10)]) (λ _ st', s (gen st') ≡ₚ seqZ 0 256)
    (fresh some_memory).
Proof.
  eapply wp_mono.
  - apply (random_keeps_type (fresh some_memory) 7 [(100, 8); (104, 10)]).
    + vm_compute. reflexivity.
    + intros x v Hv. apply elem_of_list_to_map_2, list_elem_of_fmap in Hv as (y & E & _). by simplify_eq.
    + repeat constructor; apply some_memory_in; lia.
  - intros [] st' (H & _). exact H.
Defined.

(** C37: the kernel's generator is the cipher of the test programs: seeded with
    [seed], [random_bytes] writes what [arc4_crypt], keyed with the four bytes
    of the seed, makes of a buffer of zeros, and both end in the same state. *)
Theorem random_is_arc4 st st' seed key buf n :
  length (s (gen st)) = Z.to_nat 256 → length (s (gen st')) = Z.to_nat 256 →
  in_memory (ram st) (buf, Z.of_nat n) → block (ram st') key (le32 seed) →
  block (ram st') buf (replicate n 0) →
  ∃ r a, (random_init seed;; random_bytes buf (Z.of_nat n)) st = Ok (tt, r) ∧
         (arc4_init key 4;; arc4_crypt buf (Z.of_nat n)) st' = Ok (tt, a) ∧ gen r = gen a ∧
         ∀ x, buf ≤ x < buf + Z.of_nat n → ram r !! x = ram a !! x.
Proof.
  intros Hl Hl' [_ Hin] Hk Hb. set (bs := (stream n (keyed (le32 seed))).1).
  assert (wp (random_init seed;; random_bytes buf (Z.of_nat n)) (λ _ r,
    gen r = (stream n (keyed (le32 seed))).2 ∧ block (ram r) buf bs) st) as H1.
  { wp_unbind. eapply wp_mono; [by apply random_init_ok|]. intros [] st1 ->.
    eapply wp_mono; [apply random_bytes_ok; [split; [done|apply keyed_valid]|lia|]|].
    { intros x Hx. by apply elem_of_dom, Hin. }
    intros [] r (? & _ & ? & _). by rewrite Nat2Z.id in *. }
  assert (wp (arc4_init key 4;; arc4_crypt buf (Z.of_nat n)) (λ _ r,
    gen r = (stream n (keyed (le32 seed))).2 ∧ block (ram r) buf bs) st') as H2.
  { wp_unbind. eapply wp_mono; [apply (arc4_init_ok key (le32 seed)); [done..]|]. intros [] st1 ->.
    rewrite <-(length_replicate n 0) at 1.
    eapply wp_mono; [apply (arc4_crypt_ok (replicate n 0)); [apply keyed_valid|done]|].
    cbn zeta. rewrite length_replicate. cbn [gen]. fold bs. intros [] r (? & Hblk & _). split; [done|].
    rewrite zip_with_replicate_l in Hblk by (unfold bs; by rewrite stream_length).
    by rewrite list_fmap_id in Hblk. }
  apply wp_ok in H1 as ([] & r & E1 & Hg1 & Hb1). apply wp_ok in H2 as ([] & a & E2 & Hg2 & Hb2).
  exists r, a. split_and!; [done|done|congruence|]. intros x Hx.
  destruct (lookup_lt_is_Some_2 bs (Z.to_nat (x - buf))) as [b Eb]; [unfold bs; rewrite stream_length; lia|].
  replace x with (buf + Z.of_nat (Z.to_nat (x - buf))) by lia. by rewrite (Hb1 _ _ Eb), (Hb2 _ _ Eb).
Qed.

Lemma random_is_arc4_witness :
  ∃ r a, (random_init 42;; random_bytes 104 6) (fresh some_memory) = Ok (tt, r) ∧
         (arc4_init 100 4;; arc4_crypt 104 6) (fresh (<[100 := 42]> some_memory)) = Ok (tt, a) ∧
         gen r = gen a ∧ ∀ x, 104 ≤ x < 104 + 6 → ram r !! x = ram a !! x.
Proof.
  apply (random_is_arc4 (fresh some_memory) (fresh (<[100 := 42]> some_memory)) 42 100 104 6).
  - vm_compute. reflexivity.
  - vm_compute. reflexivity.
  - apply some_memory_in; lia.
  - intros [|[|[|[|i]]]] b E; vm_compute in E; simplify_eq; reflexivity.
  - intros i b Hi. apply lookup_replicate in Hi as [-> Hi].
    do 6 (destruct i as [|i]; [vm_compute; reflexivity|]). lia.
Defined.

(** Decryption undoes encryption: a second pass with the same key over the
    same buffer leaves memory exactly as it was. *)
Theorem arc4_round_trip st key ks buf bs :
  length (s (gen st)) = Z.to_nat 256 → 0 < Z.of_nat (length ks) → block (ram st) key ks →
  block (ram st) buf bs →
  key + Z.of_nat (length ks) ≤ buf ∨ buf + Z.of_nat (length bs) ≤ key →
  let crypt := (arc4_init key (Z.of_nat (length ks));; arc4_crypt buf (Z.of_nat (length bs))) in
  wp (crypt;; crypt) (λ _ st', ram st' = ram st) st.
Proof.
  intros Hl Hlen Hk Hb Hd crypt. set (str := (stream (length bs) (keyed ks)).1).
  assert (length str = length bs) as Hstr by apply stream_length.
  assert (∀ st cs, length (s (gen st)) = Z.to_nat 256 → block (ram st) key ks → block (ram st) buf cs →
    length cs = length bs →
    wp crypt (λ _ st', length (s (gen st')) = Z.to_nat 256 ∧ block (ram st') key ks ∧
      block (ram st') buf (zip_with Z.lxor cs str) ∧
      changes_at buf (Z.of_nat (length bs)) (ram st) (ram st')) st) as Hpass.
  { intros st0 cs Hl0 Hk0 Hc Hlc. unfold crypt. wp_unbind.
    eapply wp_mono; [by apply arc4_init_ok|]. intros [] st1 ->. rewrite <-Hlc.
    eapply wp_mono; [apply (arc4_crypt_ok cs); [apply keyed_valid|done]|].
    cbn zeta. cbn [gen ram]. rewrite Hlc. fold str. intros [] st2 (Eg & Hblk & Hch).
    split_and!; [|by eapply block_changes|done|done].
    rewrite Eg. apply perm_length. apply (stream_valid (length bs) (keyed ks)), keyed_valid. }
  wp_unbind. eapply wp_mono; [by apply (Hpass st bs)|]. intros [] st1 (Hl1 & Hk1 & Hb1 & Hch1).
  eapply wp_mono; [apply (Hpass st1 (zip_with Z.lxor bs str)); [done..|by apply zip_lxor_length]|].
  intros [] st2 (_ & _ & Hb2 & Hch2). apply map_eq. intros x.
  destruct (decide (buf ≤ x < buf + Z.of_nat (length bs))) as [Hx|Hx].
  - destruct (lookup_lt_is_Some_2 bs (Z.to_nat (x - buf))) as [b Eb]; [lia|].
    destruct (lookup_lt_is_Some_2 str (Z.to_nat (x - buf))) as [k Ek]; [lia|].
    replace x with (buf + Z.of_nat (Z.to_nat (x - buf))) by lia.
    rewrite (Hb _ _ Eb), (Hb2 (Z.to_nat (x - buf)) (Z.lxor (Z.lxor b k) k)).
    + by rewrite Z.lxor_assoc, Z.lxor_nilpotent, Z.lxor_0_r.
    + rewrite !lookup_zip_with, Eb, Ek. done.
  - by rewrite (proj1 Hch2), (proj1 Hch1) by done.
Qed.

Lemma arc4_round_trip_witness :
  wp ((arc4_init 100 4;; arc4_crypt 104 8);; (arc4_init 100 4;; arc4_crypt 104 8))
    (λ _ st', ram st' = ram (fresh (<[100 := 42]> some_memory))) (fresh (<[100 := 42]> some_memory)).
Proof.
  pose proof (arc4_round_trip (fresh (<[100 := 42]> some_memory)) 100 [42; 0; 0; 0] 104 (replicate 8 0)) as H.
  cbv zeta in H. change (Z.of_nat (length [42; 0; 0; 0])) with 4 in H.
  change (Z.of_nat (length (replicate 8 0))) with 8 in H. apply H; clear H.
  - vm_compute. reflexivity.
  - lia.
  - intros [|[|[|[|i]]]] b E; vm_compute in E; simplify_eq; reflexivity.
  - intros i b Hi. apply lookup_replicate in Hi as [-> Hi].
    do 8 (destruct i as [|i]; [vm_compute; reflexivity|]). lia.
  - left. lia.
Defined.
End Generator.
