(* ===== verification/Vm.v ===== *)
(** Virtual memory ([vm/frame.c], [vm/page.c], with [install_page],
    [load_segment] and [process_activate] of [userprog/process.c], the page
    fault handler of [userprog/exception.c] and [mmap] and [munmap] of
    [userprog/syscall.c]): the frame table, the supplemental page tables and
    what a page fault does, above the page tables, the page allocator, the
    swap slots and the file system.

    The frame table, the supplemental page tables and the lists of mappings
    are [struct list]s, kept as the sequences of their elements, which is what
    [KList] proves the list operations implement.  Pages are shared between
    these lists and live in a heap; frame table entries, mappings and file
    entries belong to one list and are kept there. *)
From Stdlib Require Import ZArith Lia.
From stdpp Require Import base tactics option numbers list gmap.
From S2P Require Import Prelude CString Bytes Disk Palloc PageDir.
From S2P Require CStdlib Bitmap Swap.

Open Scope Z_scope.

(** * Data *)
Definition LIMIT : Z := Z.shiftl 1 23.
Definition TYPE_SWAP : Z := 0.
Definition TYPE_MMAP : Z := 1.
Definition TYPE_FILE : Z := 2.

Inductive palloc_type := GROW_STACK | PAGE_FAULT | LOAD_SEGMENT | CREATE_MMAP.

(** [struct sup_page_table_entry], without its list element. *)
Record sup_page_table_entry := mk_spte {
  p_user_vaddr : Z;
  p_access_time : Z;
  p_read_bytes : Z;
  p_zero_bytes : Z;
  p_accessed : bool;
  p_is_swapped : bool;
  p_file : Z;
  p_offset : Z;
  p_writable : bool;
  p_loaded : bool;
  p_fd_num : Z;
  p_file_type : Z;
  p_map_id : Z;
  p_swap_num : Z }.

(** Assignments to the members. *)
Definition upd_loaded v e := mk_spte (p_user_vaddr e) (p_access_time e) (p_read_bytes e)
  (p_zero_bytes e) (p_accessed e) (p_is_swapped e) (p_file e) (p_offset e) (p_writable e)
  v (p_fd_num e) (p_file_type e) (p_map_id e) (p_swap_num e).
Definition upd_is_swapped v e := mk_spte (p_user_vaddr e) (p_access_time e) (p_read_bytes e)
  (p_zero_bytes e) (p_accessed e) v (p_file e) (p_offset e) (p_writable e)
  (p_loaded e) (p_fd_num e) (p_file_type e) (p_map_id e) (p_swap_num e).
Definition upd_file_type v e := mk_spte (p_user_vaddr e) (p_access_time e) (p_read_bytes e)
  (p_zero_bytes e) (p_accessed e) (p_is_swapped e) (p_file e) (p_offset e) (p_writable e)
  (p_loaded e) (p_fd_num e) v (p_map_id e) (p_swap_num e).
Definition upd_map_id v e := mk_spte (p_user_vaddr e) (p_access_time e) (p_read_bytes e)
  (p_zero_bytes e) (p_accessed e) (p_is_swapped e) (p_file e) (p_offset e) (p_writable e)
  (p_loaded e) (p_fd_num e) (p_file_type e) v (p_swap_num e).
Definition upd_swap_num v e := mk_spte (p_user_vaddr e) (p_access_time e) (p_read_bytes e)
  (p_zero_bytes e) (p_accessed e) (p_is_swapped e) (p_file e) (p_offset e) (p_writable e)
  (p_loaded e) (p_fd_num e) (p_file_type e) (p_map_id e) v.
(** The first four of a page without a file, and the eight of one with. *)
Definition upd_anonymous va loaded writable e := mk_spte va (p_access_time e) (p_read_bytes e)
  (p_zero_bytes e) (p_accessed e) (p_is_swapped e) (p_file e) (p_offset e) writable
  loaded (p_fd_num e) TYPE_SWAP (p_map_id e) (p_swap_num e).
Definition upd_from_file va loaded rb zb ofs fp writable e := mk_spte va (p_access_time e) rb
  zb (p_accessed e) (p_is_swapped e) fp ofs writable
  loaded (p_fd_num e) TYPE_FILE (p_map_id e) (p_swap_num e).

Record frame_table_entry := mk_fte { fte_frame : Z; fte_owner : Z; fte_spte : Z }.

(** What a thread keeps for its process: [list_mmap] holds the [spt_e] of its
    elements, [list_file] the [fd] and [file] of its own. *)
Record process := mk_process {
  pagedir : Z;
  sup_page_table : list Z;
  list_mmap : list Z;
  map_id : Z;
  list_file : list (Z * Z) }.

Definition set_pagedir v p := mk_process v (sup_page_table p) (list_mmap p) (map_id p) (list_file p).
Definition set_sup_page_table v p := mk_process (pagedir p) v (list_mmap p) (map_id p) (list_file p).
Definition set_list_mmap v p := mk_process (pagedir p) (sup_page_table p) v (map_id p) (list_file p).
Definition set_map_id v p := mk_process (pagedir p) (sup_page_table p) (list_mmap p) v (list_file p).

(** The calls of the file system that paging makes. *)
Class FileOps (F : Type) := {
  file_read_at : Z → bytes → Z → Z → M F (Z * bytes);
  file_write_at : Z → bytes → Z → Z → M F Z;
  file_reopen : Z → M F Z;
  file_length : Z → M F Z;
  file_seek : Z → Z → M F unit }.

(** [malloc_outcomes] is as in the file system: the outcome of each call of
    [malloc] to come, calls beyond its end succeeding.  [lock_frame] is held
    or not. *)
Record vm (F : Type) := mk_vm {
  mm : mmu;
  swap_device : disk;
  swap_table : Bitmap.bitmap;
  frame_table : list frame_table_entry;
  pages : gmap Z sup_page_table_entry;
  processes : gmap Z process;
  current : Z;
  lock_frame : bool;
  page_fault_cnt : Z;
  next_address : Z;
  malloc_outcomes : list bool;
  filesys : F }.
Arguments mk_vm {F}.
Arguments mm {F}.
Arguments swap_device {F}.
Arguments swap_table {F}.
Arguments frame_table {F}.
Arguments pages {F}.
Arguments processes {F}.
Arguments current {F}.
Arguments lock_frame {F}.
Arguments page_fault_cnt {F}.
Arguments next_address {F}.
Arguments malloc_outcomes {F}.
Arguments filesys {F}.

Section setters.
Context {F : Type}.
Implicit Types st : vm F.
Definition set_mm v st := mk_vm v (swap_device st) (swap_table st) (frame_table st) (pages st)
  (processes st) (current st) (lock_frame st) (page_fault_cnt st) (next_address st) (malloc_outcomes st) (filesys st).
Definition set_swap m d b st := mk_vm (set_mach (set_ram m (mach (mm st))) (mm st)) d b (frame_table st) (pages st)
  (processes st) (current st) (lock_frame st) (page_fault_cnt st) (next_address st) (malloc_outcomes st) (filesys st).
Definition set_frame_table v st := mk_vm (mm st) (swap_device st) (swap_table st) v (pages st)
  (processes st) (current st) (lock_frame st) (page_fault_cnt st) (next_address st) (malloc_outcomes st) (filesys st).
Definition set_pages v st := mk_vm (mm st) (swap_device st) (swap_table st) (frame_table st) v
  (processes st) (current st) (lock_frame st) (page_fault_cnt st) (next_address st) (malloc_outcomes st) (filesys st).
Definition set_processes v st := mk_vm (mm st) (swap_device st) (swap_table st) (frame_table st) (pages st)
  v (current st) (lock_frame st) (page_fault_cnt st) (next_address st) (malloc_outcomes st) (filesys st).
Definition set_lock v st := mk_vm (mm st) (swap_device st) (swap_table st) (frame_table st) (pages st)
  (processes st) (current st) v (page_fault_cnt st) (next_address st) (malloc_outcomes st) (filesys st).
Definition set_fault_cnt v st := mk_vm (mm st) (swap_device st) (swap_table st) (frame_table st) (pages st)
  (processes st) (current st) (lock_frame st) v (next_address st) (malloc_outcomes st) (filesys st).
Definition set_memory a o st := mk_vm (mm st) (swap_device st) (swap_table st) (frame_table st) (pages st)
  (processes st) (current st) (lock_frame st) (page_fault_cnt st) a o (filesys st).
Definition set_current v st := mk_vm (mm st) (swap_device st) (swap_table st) (frame_table st) (pages st)
  (processes st) v (lock_frame st) (page_fault_cnt st) (next_address st) (malloc_outcomes st) (filesys st).
Definition set_filesys (v : F) st := mk_vm (mm st) (swap_device st) (swap_table st) (frame_table st) (pages st)
  (processes st) (current st) (lock_frame st) (page_fault_cnt st) (next_address st) (malloc_outcomes st) v.
End setters.

Module Ops.
Section vm.
Context {F : Type} `{FileOps F}.
(** What a fresh [struct sup_page_table_entry] holds. *)
Context (uninit : Z → sup_page_table_entry).
Abbreviation vm := (vm F).

(** * Parts of the state *)
Definition on_mmu {A} (m : M mmu A) : M vm A := zoom mm set_mm m.
Definition on_mach {A} (m : M machine A) : M vm A := on_mmu (PageDir.Ops.on_mach m).
Definition on_ram {A} (m : M CString.mem A) : M vm A := on_mach (Palloc.Ops.on_ram m).
Definition on_swap {A} (m : M Swap.swap A) : M vm A :=
  zoom (λ st, Swap.mk_swap (ram (mach (mm st))) (swap_device st) (swap_table st))
       (λ w, set_swap (Swap.ram w) (Swap.swap_device w) (Swap.swap_table w)) m.
Definition on_files {A} (m : M F A) : M vm A := zoom filesys set_filesys m.

Definition page_at (p : Z) : M vm sup_page_table_entry := st ← get; deref (pages st !! p).
Definition page_set (p : Z) (f : sup_page_table_entry → sup_page_table_entry) : M vm unit :=
  e ← page_at p; modify (λ st, set_pages (<[p := f e]> (pages st)) st).

Definition thread_at (t : Z) : M vm process := st ← get; deref (processes st !! t).
Definition thread_current : M vm process := t ← gets current; thread_at t.
Definition thread_set (f : process → process) : M vm unit :=
  t ← gets current; p ← thread_at t; modify (λ st, set_processes (<[t := f p]> (processes st)) st).

(** [true] when [malloc] succeeds. *)
Definition malloc : M vm bool :=
  st ← get;
  match malloc_outcomes st with
  | [] => mret true
  | b :: o => put (set_memory (next_address st) o st);; mret b
  end.
Definition malloc_page : M vm Z :=
  ok ← malloc;
  if ok : bool then
    st ← get;
    let p := next_address st in
    put (set_pages (<[p := uninit p]> (pages st)) (set_memory (p + 1) (malloc_outcomes st) st));;
    mret p
  else mret NULL.
Definition free_spte (p : Z) : M vm unit := modify (λ st, set_pages (delete p (pages st)) st).

(** The lock is held by the running thread or by nobody. *)
Definition lock_acquire : M vm unit :=
  b ← gets lock_frame; ASSERT (negb b);; modify (set_lock true).
Definition lock_release : M vm unit :=
  b ← gets lock_frame; ASSERT b;; modify (set_lock false).

(** * [vm/frame.c] *)
Definition frame_init : M vm unit := modify (λ st, set_lock false (set_frame_table [] st)).

Definition insert_frame_table (fte : frame_table_entry) : M vm unit :=
  modify (λ st, set_frame_table (frame_table st ++ [fte]) st).

Definition create_frame_table_entry (frame spt_e : Z) : M vm (option frame_table_entry) :=
  ok ← malloc;
  if ok : bool then t ← gets current; mret (Some (mk_fte frame t spt_e)) else mret None.

Definition search_frame_table_entry (frame : Z) : M vm (option frame_table_entry) :=
  gets (λ st, snd <$> list_find (λ fte, fte_frame fte = frame) (frame_table st)).

(** The body of both loops of [evict_frame], for a page that was not accessed;
    [before] and [after] are the rest of the table. *)
Definition evict_entry (fte : frame_table_entry) (before after : list frame_table_entry) : M vm unit :=
  owner ← thread_at (fte_owner fte);
  spte ← page_at (fte_spte fte);
  is_dirty ← on_mmu (PageDir.Ops.pagedir_is_dirty (pagedir owner) (p_user_vaddr spte));
  (if is_dirty || (p_file_type spte =? TYPE_SWAP) then
     page_set (fte_spte fte) (upd_file_type TYPE_SWAP);;
     n ← on_swap (Swap.Ops.swap_out (fte_frame fte));
     page_set (fte_spte fte) (upd_swap_num (s32 n));;
     page_set (fte_spte fte) (upd_is_swapped true)
   else mret tt);;
  modify (set_frame_table (before ++ after));;
  on_mmu (PageDir.Ops.pagedir_clear_page (pagedir owner) (p_user_vaddr spte));;
  on_mach (Palloc.Ops.palloc_free_page (fte_frame fte));;
  page_set (fte_spte fte) (upd_loaded false).

(** The first loop also stops the machine at a mapped page. *)
Fixpoint evict_loop (first : bool) (before after : list frame_table_entry) : M vm bool :=
  match after with
  | [] => mret false
  | fte :: rest =>
      owner ← thread_at (fte_owner fte);
      spte ← page_at (fte_spte fte);
      is_accessed ← on_mmu (PageDir.Ops.pagedir_is_accessed (pagedir owner) (p_user_vaddr spte));
      if negb is_accessed then
        ASSERT (negb (first && (p_file_type spte =? TYPE_MMAP)));;
        evict_entry fte before rest;;
        mret true
      else
        on_mmu (PageDir.Ops.pagedir_set_accessed (pagedir owner) (p_user_vaddr spte) false);;
        evict_loop first (before ++ [fte]) rest
  end.

Definition evict_frame : M vm bool :=
  ft ← gets frame_table;
  if bool_decide (ft = []) then mret false else
  done ← evict_loop true [] ft;
  if done : bool then mret true else
  ft ← gets frame_table;
  evict_loop false [] ft.

Definition allocate_frame (spt_e flag : Z) : M vm Z :=
  ASSERT (has_flag flag PAL_USER);;
  frame ← on_mach (Palloc.Ops.palloc_get_page flag);
  frame ← (if frame =? NULL then
             eviction_success ← evict_frame;
             if eviction_success : bool then on_mach (Palloc.Ops.palloc_get_page flag) else mret frame
           else mret frame);
  fte ← create_frame_table_entry frame spt_e;
  match fte with
  | None => mret NULL
  | Some fte => insert_frame_table fte;; mret frame
  end.

Fixpoint free_frame_loop (frame : Z) (before after : list frame_table_entry) : M vm unit :=
  match after with
  | [] => mret tt
  | fte :: rest =>
      if fte_frame fte =? frame then
        modify (set_frame_table (before ++ rest));;
        on_mach (Palloc.Ops.palloc_free_page frame)
      else free_frame_loop frame (before ++ [fte]) rest
  end.
Definition free_frame (frame : Z) : M vm unit :=
  ft ← gets frame_table; free_frame_loop frame [] ft.

(** * [vm/page.c] *)

(** The first page of the list with the property [P], or the null pointer. *)
Fixpoint search_pages (P : sup_page_table_entry → M vm bool) (l : list Z) : M vm Z :=
  match l with
  | [] => mret NULL
  | p :: l =>
      e ← page_at p;
      b ← P e;
      if b : bool then mret p else search_pages P l
  end.

Definition page_insert (spt_e : Z) : M vm bool :=
  curr ← thread_current;
  temp ← search_pages (λ temp, e ← page_at spt_e; mret (p_user_vaddr temp =? p_user_vaddr e))
           (sup_page_table curr);
  if negb (temp =? NULL) then mret false else
  e ← page_at spt_e;
  thread_set (λ p, set_sup_page_table (sup_page_table p ++ [spt_e]) p);;
  mret true.

Definition allocate_page (addr : Z) (loaded : bool) (p_type : palloc_type)
    (read_bytes zero_bytes file offset : Z) (writable : bool) : M vm Z :=
  ASSERT (negb (is_kernel_vaddr addr));;
  spt_e ← malloc_page;
  if spt_e =? NULL then mret NULL else
  (match p_type with
   | GROW_STACK | PAGE_FAULT => page_set spt_e (upd_anonymous addr loaded writable)
   | LOAD_SEGMENT => page_set spt_e (upd_from_file addr loaded read_bytes zero_bytes offset file writable)
   | CREATE_MMAP =>
       page_set spt_e (upd_file_type TYPE_MMAP);;
       curr ← thread_current;
       page_set spt_e (upd_map_id (map_id curr));;
       page_set spt_e (upd_from_file addr loaded read_bytes zero_bytes offset file writable)
   end);;
  page_set spt_e (upd_is_swapped false);;
  mret spt_e.

Definition find_page (addr : Z) : M vm Z :=
  let aligned_addr := pg_round_down addr in
  curr ← thread_current;
  search_pages (λ spt_e, mret (p_user_vaddr spt_e =? aligned_addr)) (sup_page_table curr).

Definition free_page (spt_e : Z) : M vm unit :=
  e ← page_at spt_e;
  (if p_loaded e then
     curr ← thread_current;
     frame ← on_mmu (PageDir.Ops.pagedir_get_page (pagedir curr) (p_user_vaddr e));
     free_frame frame;;
     on_mmu (PageDir.Ops.pagedir_clear_page (pagedir curr) (p_user_vaddr e))
   else mret tt);;
  free_spte spt_e.

(** [install_page] of [userprog/process.c]. *)
Definition install_page (upage kpage : Z) (writable : bool) : M vm bool :=
  t ← thread_current;
  old ← on_mmu (PageDir.Ops.pagedir_get_page (pagedir t) upage);
  if old =? NULL then on_mmu (PageDir.Ops.pagedir_set_page (pagedir t) upage kpage writable)
  else mret false.

(** [file_read_at] into the memory at [frame]. *)
Definition read_into (file frame size offset : Z) : M vm Z :=
  b ← on_ram (CStdlib.Ops.load_block (Z.to_nat size) frame);
  '(n, b) ← on_files (file_read_at file b size offset);
  on_ram (Swap.Ops.store_block frame b);;
  mret n.

Definition file_handling (spt_e : Z) : M vm bool :=
  e ← page_at spt_e;
  frame ← allocate_frame spt_e (if p_read_bytes e =? 0 then Z.lor PAL_USER PAL_ZERO else PAL_USER);
  if frame =? NULL then mret false else
  e ← page_at spt_e;
  (if 0 <? p_read_bytes e then
     temp ← read_into (p_file e) frame (s32 (p_read_bytes e)) (p_offset e);
     if negb (temp =? s32 (p_read_bytes e)) then free_frame frame;; panic else
     on_ram (CString.Ops.memset (frame + p_read_bytes e) 0 (p_zero_bytes e));;
     mret tt
   else mret tt);;
  success ← install_page (p_user_vaddr e) frame (p_writable e);
  if negb success then free_frame frame;; mret false else
  page_set spt_e (upd_loaded true);;
  mret true.

Definition swap_handling (spt_e : Z) : M vm bool :=
  frame ← allocate_frame spt_e PAL_USER;
  if frame =? NULL then mret false else
  e ← page_at spt_e;
  success ← install_page (p_user_vaddr e) frame (p_writable e);
  if negb success then free_frame frame;; mret false else
  (if p_is_swapped e then on_swap (Swap.Ops.swap_in frame (u32 (p_swap_num e)));; mret tt else mret tt);;
  page_set spt_e (upd_is_swapped false);;
  page_set spt_e (upd_loaded true);;
  mret true.

Definition page_handling (spt_e : Z) : M vm bool :=
  lock_acquire;;
  e ← page_at spt_e;
  success ← (if p_file_type e =? TYPE_FILE then
               if p_loaded e then swap_handling spt_e else file_handling spt_e
             else if p_file_type e =? TYPE_MMAP then file_handling spt_e
             else if p_file_type e =? TYPE_SWAP then swap_handling spt_e
             else undef);
  lock_release;;
  mret success.

Definition grow_stack (addr : Z) (on_fault : bool) : M vm bool :=
  let page_addr := pg_round_down addr in
  '(spt_e, frame_addr) ←
    (if on_fault then
       spt_e ← allocate_page page_addr true PAGE_FAULT 0 0 NULL 0 true;
       frame_addr ← allocate_frame spt_e PAL_USER;
       mret (spt_e, frame_addr)
     else
       spt_e ← allocate_page page_addr true GROW_STACK 0 0 NULL 0 true;
       frame_addr ← allocate_frame spt_e (Z.lor PAL_USER PAL_ZERO);
       mret (spt_e, frame_addr));
  if frame_addr =? NULL then free_spte spt_e;; mret false else
  success ← install_page page_addr frame_addr true;
  if negb success then free_frame frame_addr;; free_spte spt_e;; mret false else
  page_insert spt_e.

(** * [userprog/exception.c] *)
Definition PF_P : Z := 1.
Definition SIZE : Z := 32.
Definition SEL_UCSEG : Z := 0x1b.
Definition SEL_KCSEG : Z := 0x08.

(** How a handler ends: it returns to the interrupted code, or it calls
    [exit] or [thread_exit]. *)
Inductive ending := Returns | Exits (status : Z) | Dies.

Definition kill (cs : Z) : M vm ending :=
  if cs =? SEL_UCSEG then mret Dies
  else if cs =? SEL_KCSEG then panic
  else mret Dies.

(** [fault_addr] is in [cr2]; [error_code], [esp] and [cs] are members of the
    interrupt frame. *)
Definition page_fault (fault_addr error_code esp cs : Z) : M vm ending :=
  modify (λ st, set_fault_cnt (page_fault_cnt st + 1) st);;
  let not_present := Z.land error_code PF_P =? 0 in
  if is_user_vaddr fault_addr && not_present then
    spt_e ← find_page fault_addr;
    if negb (spt_e =? NULL) then
      success ← page_handling spt_e;
      if success : bool then mret Returns else kill cs
    else
    if LIMIT <? u32 (PHYS_BASE - pg_round_down fault_addr) then mret (Exits (-1))
    else if u32 (esp - SIZE) <=? fault_addr then
      lock_acquire;;
      success ← grow_stack fault_addr true;
      lock_release;;
      if success : bool then mret Returns else kill cs
    else mret (Exits (-1))
  else mret (Exits (-1)).

(** * [userprog/process.c] *)
Definition process_activate : M vm unit :=
  t ← thread_current; on_mmu (PageDir.Ops.pagedir_activate (pagedir t)).

Definition load_segment (file ofs upage read_bytes zero_bytes : Z) (writable : bool) : M vm bool :=
  ASSERT (u32 (read_bytes + zero_bytes) mod PGSIZE =? 0);;
  ASSERT (pg_ofs upage =? 0);;
  ASSERT (Z.rem ofs PGSIZE =? 0);;
  on_files (file_seek file ofs);;
  loop (Z.to_nat ((read_bytes + zero_bytes) / PGSIZE) + 1) (λ '(ofs, upage, read_bytes, zero_bytes),
    if (0 <? read_bytes) || (0 <? zero_bytes) then
      let page_read_bytes := if read_bytes <? PGSIZE then read_bytes else PGSIZE in
      let page_zero_bytes := PGSIZE - page_read_bytes in
      lock_acquire;;
      spt_e ← allocate_page upage false LOAD_SEGMENT page_read_bytes page_zero_bytes file ofs writable;
      ASSERT (negb (spt_e =? NULL));;
      success ← page_insert spt_e;
      lock_release;;
      if negb success then mret (inr false) else
      mret (inl (s32 (ofs + page_read_bytes), u32 (upage + PGSIZE),
                 u32 (read_bytes - page_read_bytes), u32 (zero_bytes - page_zero_bytes)))
    else mret (inr true)) (ofs, upage, read_bytes, zero_bytes).

(** * [mmap] and [munmap] of [userprog/syscall.c] *)
Definition file_find_by_fd (fd : Z) : M vm Z :=
  curr ← thread_current;
  mret (match list_find (λ fe, fe.1 = fd) (list_file curr) with Some (_, fe) => fe.2 | None => NULL end).

(** A new element of [list_mmap], and the insertion of the page: the part the
    two branches of the loop share after the page is there.  [false] is the
    failure that returns [-1]. *)
Definition mmap_page (spt_e : Z) : M vm bool :=
  ok ← malloc;
  if negb ok then free_spte spt_e;; lock_release;; mret false else
  curr ← thread_current;
  page_set spt_e (upd_map_id (map_id curr));;
  thread_set (λ p, set_list_mmap (list_mmap p ++ [spt_e]) p);;
  success ← page_insert spt_e;
  if negb success then
    thread_set (λ p, set_list_mmap (take (length (list_mmap p) - 1) (list_mmap p)) p);;
    lock_release;;
    mret false
  else mret true.

Definition mmap (fd addr : Z) : M vm Z :=
  f ← file_find_by_fd fd;
  if f =? NULL then mret (-1) else
  if negb (pg_ofs addr =? 0) || (addr =? 0) then mret (-1) else
  f_reopen ← on_files (file_reopen f);
  if f_reopen =? NULL then mret (-1) else
  read_bytes ← on_files (file_length f_reopen);
  let read_bytes := u32 read_bytes in
  if read_bytes =? 0 then mret (-1) else
  ok ← loop (Z.to_nat (read_bytes / PGSIZE) + 2) (λ '(addr, offset, read_bytes),
    if 0 <? read_bytes then
      let page_read_bytes := if read_bytes <? PGSIZE then read_bytes else PGSIZE in
      let page_zero_bytes := PGSIZE - page_read_bytes in
      spt_e ← find_page addr;
      lock_acquire;;
      ok ← (if spt_e =? NULL then
              spt_e ← allocate_page addr false CREATE_MMAP page_read_bytes page_zero_bytes f_reopen offset true;
              if spt_e =? NULL then lock_release;; mret false else mmap_page spt_e
            else mmap_page spt_e);
      if negb ok then mret (inr false) else
      lock_release;;
      mret (inl (u32 (addr + PGSIZE), s32 (offset + page_read_bytes), u32 (read_bytes - page_read_bytes)))
    else mret (inr true)) (addr, 0, read_bytes);
  if negb ok then mret (-1) else
  curr ← thread_current;
  thread_set (λ p, set_map_id (s32 (map_id p + 1)) p);;
  mret (map_id curr).

(** A byte of user memory read by the kernel through the page table.  An
    access to a page that is not there faults; the handler of the kernel's own
    fault is not run here. *)
Definition user_load (va : Z) : M vm Z :=
  t ← thread_current;
  a ← on_mmu (PageDir.Ops.pagedir_get_page (pagedir t) va);
  if a =? NULL then undef else on_ram (CString.Ops.load a).
Fixpoint user_block (n : nat) (va : Z) : M vm bytes :=
  match n with
  | O => mret []
  | S n => b ← user_load va; bs ← user_block n (va + 1); mret (b :: bs)
  end.

Fixpoint munmap_loop (mapid : Z) (before after : list Z) : M vm unit :=
  match after with
  | [] => mret tt
  | spt_e :: rest =>
      e ← page_at spt_e;
      if p_map_id e =? mapid then
        curr ← thread_current;
        is_dirty ← on_mmu (PageDir.Ops.pagedir_is_dirty (pagedir curr) (p_user_vaddr e));
        (if is_dirty : bool then
           b ← user_block (Z.to_nat (p_read_bytes e)) (p_user_vaddr e);
           on_files (file_write_at (p_file e) b (s32 (p_read_bytes e)) (p_offset e));;
           mret tt
         else mret tt);;
        frame ← on_mmu (PageDir.Ops.pagedir_get_page (pagedir curr) (p_user_vaddr e));
        free_frame frame;;
        free_page spt_e;;
        thread_set (set_list_mmap (before ++ rest));;
        munmap_loop mapid before rest
      else munmap_loop mapid (before ++ [spt_e]) rest
  end.
Definition munmap (mapid : Z) : M vm unit :=
  lock_acquire;;
  curr ← thread_current;
  munmap_loop mapid [] (list_mmap curr);;
  lock_release.
End vm.
End Ops.
