(* ===== verification/VmInv.v ===== *)
(** What virtual memory represents: for every process a map from page numbers
    to the bytes of the page.  A page is in a frame, in a swap slot or still in
    its file; the invariant says which, and that the frame table, the page
    tables and the supplemental page tables agree about it. *)
From Stdlib Require Import ZArith Lia.
From stdpp Require Import base tactics option numbers list gmap.
From S2P Require Import Prelude CString Bytes Disk Palloc PageDir PageOps Vm.
From S2P Require Bitmap Swap.

Open Scope Z_scope.

(** What paging relies on in the file system: [shows s files] says that the
    open files of [s] have the contents [files]; reading returns them,
    and neither reading nor seeking changes any. *)
Class FileLaws (F : Type) `{FileOps F} := {
  shows : F → gmap Z bytes → Prop;
  file_read_at_shows : ∀ s files fp c buffer size ofs,
    shows s files → files !! fp = Some c → 0 ≤ ofs → 0 ≤ size ≤ Z.of_nat (length buffer) →
    wp (file_read_at fp buffer size ofs) (λ r s',
      r.1 = Z.max 0 (Z.min size (Z.of_nat (length c) - ofs)) ∧
      r.2 = splice buffer 0 (slice c ofs r.1) ∧ shows s' files) s;
  file_seek_shows : ∀ s files fp pos,
    shows s files → is_Some (files !! fp) → 0 ≤ pos → wp (file_seek fp pos) (λ _ s', shows s' files) s }.

(** A page of the user pool that is handed out. *)
Definition upage (x : machine) (a : Z) : Prop :=
  ∃ i, 0 ≤ i < Bitmap.bit_cnt (used_map (user_pool x)) ∧ a = base (user_pool x) + 4096 * i ∧
       Bitmap.bit (used_map (user_pool x)) i = true.

(** The bytes a page has before it is first changed. *)
Definition file_page (files : gmap Z bytes) (e : sup_page_table_entry) : bytes :=
  slice (default [] (files !! p_file e)) (p_offset e) (p_read_bytes e) ++
  replicate (Z.to_nat (p_zero_bytes e)) 0.

(** Its file has the bytes it asks for, and they fill the page. *)
Definition has_file (files : gmap Z bytes) (e : sup_page_table_entry) : Prop :=
  ∃ c, files !! p_file e = Some c ∧ 0 ≤ p_offset e ∧ 0 ≤ p_read_bytes e ∧ 0 ≤ p_zero_bytes e ∧
       p_read_bytes e + p_zero_bytes e = 4096 ∧ p_offset e + p_read_bytes e ≤ Z.of_nat (length c).

Definition page_no (e : sup_page_table_entry) : Z := p_user_vaddr e / 4096.

Record entry_ok (files : gmap Z bytes) (e : sup_page_table_entry) : Prop := {
  eo_addr : 0 ≤ p_user_vaddr e < PHYS_BASE;
  eo_align : p_user_vaddr e mod 4096 = 0;
  eo_type : (p_file_type e = TYPE_FILE ∧ has_file files e ∧ p_is_swapped e = false) ∨
            p_file_type e = TYPE_SWAP }.

(** Pages and their contents, by the thread and the page number. *)
Abbreviation contents := (gmap (Z * Z) bytes).

(** Between two descriptions of a mapping nothing but the accessed bit has
    changed, and the dirty bit has not been lost. *)
Definition keeps_entry (x x' : entry) : Prop :=
  present x' = present x ∧ frame x' = frame x ∧ writable x' = writable x ∧ user x' = user x ∧
  (dirty x' = false → dirty x = false).

#[export] Instance keeps_entry_preorder : PreOrder keeps_entry.
Proof.
  split; [done|]. intros x y z (? & ? & ? & ? & ?) (? & ? & ? & ? & ?).
  split_and!; [congruence..|auto].
Qed.

Section inv.
Context {F : Type} `{FileLaws F}.
Implicit Types st : vm F.

Definition swap_part st : Swap.swap :=
  Swap.mk_swap (ram (mach (mm st))) (swap_device st) (swap_table st).
Definition memory st : mem := ram (mach (mm st)).

(** Page [p] of thread [t], described by [e], holds [c]. *)
Definition page_holds st (files : gmap Z bytes) (live : list (Z * bytes))
    (p t : Z) (pr : process) (e : sup_page_table_entry) (c : bytes) : Prop :=
  let x := lookup (mm st) (pagedir pr) (page_no e) in
  if p_loaded e then
    present x = true ∧ mk_fte (frame x) t p ∈ frame_table st ∧
    Swap.page_of (memory st) (frame x) = c ∧ writable x = p_writable e ∧ user x = true ∧
    (p_file_type e = TYPE_FILE → dirty x = false → c = file_page files e)
  else
    present x = false ∧
    if decide (p_file_type e = TYPE_FILE) then c = file_page files e
    else p_is_swapped e = true ∧ (u32 (p_swap_num e), c) ∈ live.

(** [ds] are the page directories, [own] gives the thread a page belongs to,
    [files] the contents of the open files and [live] what is on the swap
    disk. *)
Record vm_inv (ds : gset Z) (own : gmap Z Z) (files : gmap Z bytes) (live : list (Z * bytes))
    (A : contents) st : Prop := {
  vi_mmu : mmu_inv ds (mm st);
  vi_room : pool_end (user_pool (mach (mm st))) ≤ PHYS_BASE + 4096 * ram_pages (mm st);
  vi_swap : Swap.swap_wf (swap_part st) ∧ Swap.holds live (swap_part st);
  vi_files : shows (filesys st) files;
  vi_next : 0 < next_address st;
  vi_procs : ∀ t pr, processes st !! t = Some pr →
    pagedir pr ∈ ds ∧ pagedir pr ≠ base_page_dir (mm st) ∧
    (∀ t' pr', processes st !! t' = Some pr' → pagedir pr' = pagedir pr → t' = t) ∧
    ∀ p, p ∈ sup_page_table pr ↔ own !! p = Some t;
  vi_frames : NoDup (fte_frame <$> frame_table st);
  vi_table : ∀ x, x ∈ frame_table st → upage (mach (mm st)) (fte_frame x) ∧
    ∃ e pr, own !! fte_spte x = Some (fte_owner x) ∧ pages st !! fte_spte x = Some e ∧
      p_loaded e = true ∧ processes st !! fte_owner x = Some pr ∧
      frame (lookup (mm st) (pagedir pr) (page_no e)) = fte_frame x;
  vi_pages : ∀ p t, own !! p = Some t → 0 < p < next_address st ∧
    ∃ e pr c, pages st !! p = Some e ∧ processes st !! t = Some pr ∧
      A !! (t, page_no e) = Some c ∧ entry_ok files e ∧ page_holds st files live p t pr e c;
  vi_keys : ∀ p p' t e e', own !! p = Some t → own !! p' = Some t →
    pages st !! p = Some e → pages st !! p' = Some e' → page_no e = page_no e' → p = p';
  vi_cover : ∀ t n c, A !! (t, n) = Some c →
    ∃ p e, own !! p = Some t ∧ pages st !! p = Some e ∧ page_no e = n;
  vi_mapped : ∀ t pr n, processes st !! t = Some pr → 0 ≤ n < USER_PAGES →
    present (lookup (mm st) (pagedir pr) n) = true →
    ∃ p e, own !! p = Some t ∧ pages st !! p = Some e ∧ page_no e = n ∧ p_loaded e = true;
  vi_slots : ∀ p p' e e', is_Some (own !! p) → is_Some (own !! p') →
    pages st !! p = Some e → pages st !! p' = Some e' →
    p_loaded e = false → p_loaded e' = false → p_file_type e ≠ TYPE_FILE → p_file_type e' ≠ TYPE_FILE →
    u32 (p_swap_num e) = u32 (p_swap_num e') → p = p' }.

(** ** Changing one page

    [st'] differs from [st] in page [p] of thread [t], which is new or had the
    same address before; the other pages are as they were. *)
Record page_update (ds : gset Z) (own : gmap Z Z) (files : gmap Z bytes) (live live' : list (Z * bytes))
    st st' (p t : Z) (pr : process) (e' : sup_page_table_entry) (c' : bytes) : Prop := {
  pu_mmu : mmu_inv ds (mm st');
  pu_room : pool_end (user_pool (mach (mm st'))) ≤ PHYS_BASE + 4096 * ram_pages (mm st');
  pu_base : base_page_dir (mm st') = base_page_dir (mm st);
  pu_swap : Swap.swap_wf (swap_part st') ∧ Swap.holds live' (swap_part st');
  pu_files : shows (filesys st') files;
  pu_procs : ∀ t', match processes st !! t', processes st' !! t' with
    | Some pr, Some pr' => pagedir pr' = pagedir pr ∧
        ∀ q, q ∈ sup_page_table pr' ↔ (q ∈ sup_page_table pr ∨ q = p ∧ t' = t)
    | None, None => True
    | _, _ => False
    end;
  pu_thread : processes st !! t = Some pr;
  pu_owner : own !! p = None ∨ own !! p = Some t;
  pu_next : next_address st ≤ next_address st' ∧ 0 < p < next_address st';
  pu_page : pages st' !! p = Some e';
  pu_others : ∀ q, q ≠ p → is_Some (own !! q) → pages st' !! q = pages st !! q;
  pu_fresh : ∀ q e, q ≠ p → own !! q = Some t → pages st !! q = Some e → page_no e ≠ page_no e';
  pu_same : ∀ e, own !! p = Some t → pages st !! p = Some e → page_no e = page_no e';
  pu_entry : entry_ok files e';
  pu_holds : page_holds st' files live' p t pr e' c';
  pu_lookup : ∀ pd n, pd ∈ ds → 0 ≤ n < USER_PAGES → ¬ (pd = pagedir pr ∧ n = page_no e') →
    keeps_entry (lookup (mm st) pd n) (lookup (mm st') pd n);
  pu_frames : NoDup (fte_frame <$> frame_table st');
  pu_table : ∀ x, x ∈ frame_table st' → upage (mach (mm st')) (fte_frame x) ∧
    (fte_spte x = p → p_loaded e' = true ∧
       x = mk_fte (frame (lookup (mm st') (pagedir pr) (page_no e'))) t p);
  pu_tables : ∀ x, fte_spte x ≠ p → x ∈ frame_table st' ↔ x ∈ frame_table st;
  pu_memory : ∀ x, x ∈ frame_table st → fte_spte x ≠ p →
    Swap.page_of (memory st') (fte_frame x) = Swap.page_of (memory st) (fte_frame x);
  pu_live : ∀ q e c, q ≠ p → is_Some (own !! q) → pages st !! q = Some e → p_loaded e = false →
    p_file_type e ≠ TYPE_FILE → (u32 (p_swap_num e), c) ∈ live → (u32 (p_swap_num e), c) ∈ live';
  pu_slots : ∀ q e, q ≠ p → is_Some (own !! q) → pages st !! q = Some e → p_loaded e = false →
    p_file_type e ≠ TYPE_FILE → p_loaded e' = false → p_file_type e' ≠ TYPE_FILE →
    u32 (p_swap_num e) ≠ u32 (p_swap_num e') }.

Section update.
Context (ds : gset Z) (own : gmap Z Z) (files : gmap Z bytes) (live live' : list (Z * bytes)) (A : contents).
Context (st st' : vm F) (p t : Z) (pr : process) (e' : sup_page_table_entry) (c' : bytes).
Context (Hinv : vm_inv ds own files live A st).
Context (Hup : page_update ds own files live live' st st' p t pr e' c').

Lemma entry_page e : entry_ok files e → 0 ≤ page_no e < USER_PAGES ∧ p_user_vaddr e = 4096 * page_no e.
Proof.
  intros [Ha Hal _]. split; [by apply user_page|]. unfold page_no. pose proof (Z.div_mod (p_user_vaddr e) 4096). lia.
Qed.

Lemma own_update q t' : q ≠ p → <[p := t]> own !! q = Some t' ↔ own !! q = Some t'.
Proof. intros Hne. by rewrite lookup_insert_ne by done. Qed.

Lemma own_before t' : own !! p = Some t' → t' = t.
Proof. intros Ho. destruct (pu_owner _ _ _ _ _ _ _ _ _ _ _ _ Hup) as [E|E]; rewrite E in Ho; congruence. Qed.

(** The processes before and after. *)
Lemma process_before t' pr' : processes st' !! t' = Some pr' →
  ∃ pr0, processes st !! t' = Some pr0 ∧ pagedir pr' = pagedir pr0 ∧
    ∀ q, q ∈ sup_page_table pr' ↔ (q ∈ sup_page_table pr0 ∨ q = p ∧ t' = t).
Proof.
  intros E. pose proof (pu_procs _ _ _ _ _ _ _ _ _ _ _ _ Hup t') as Hp. rewrite E in Hp.
  destruct (processes st !! t') as [pr0|]; [|done]. by exists pr0.
Qed.

Lemma process_after t' pr0 : processes st !! t' = Some pr0 →
  ∃ pr', processes st' !! t' = Some pr' ∧ pagedir pr' = pagedir pr0.
Proof.
  intros E. pose proof (pu_procs _ _ _ _ _ _ _ _ _ _ _ _ Hup t') as Hp. rewrite E in Hp.
  destruct (processes st' !! t') as [pr'|]; [|done]. exists pr'. naive_solver.
Qed.

(** Another page is mapped as before. *)
Lemma other_lookup q t' e pr0 :
  q ≠ p → own !! q = Some t' → pages st !! q = Some e → processes st !! t' = Some pr0 → entry_ok files e →
  keeps_entry (lookup (mm st) (pagedir pr0) (page_no e)) (lookup (mm st') (pagedir pr0) (page_no e)).
Proof.
  intros Hne Ho Hq Hpr He. destruct (vi_procs _ _ _ _ _ _ Hinv _ _ Hpr) as (Hd & _ & _).
  apply (pu_lookup _ _ _ _ _ _ _ _ _ _ _ _ Hup); [done|by apply entry_page|]. intros [Epd En].
  destruct (vi_procs _ _ _ _ _ _ Hinv _ _ (pu_thread _ _ _ _ _ _ _ _ _ _ _ _ Hup)) as (_ & _ & Hinj & _).
  pose proof (Hinj _ _ Hpr Epd) as ->. by apply (pu_fresh _ _ _ _ _ _ _ _ _ _ _ _ Hup q e).
Qed.

Lemma other_holds q t' e pr0 pr' c :
  q ≠ p → own !! q = Some t' → pages st !! q = Some e → processes st !! t' = Some pr0 → entry_ok files e →
  pagedir pr' = pagedir pr0 →
  page_holds st files live q t' pr0 e c → page_holds st' files live' q t' pr' e c.
Proof.
  intros Hne Ho Hq Hpr He Epd Hh. pose proof (other_lookup q t' e pr0 Hne Ho Hq Hpr He) as (E1 & E2 & E3 & E4 & E5).
  unfold page_holds in *. rewrite Epd. destruct (p_loaded e) eqn:El.
  - destruct Hh as (? & Hin & Hc & ? & ? & Hcl). rewrite E1, E2, E3, E4. split_and!; [done| |idtac|done|done|by auto].
    + by apply (pu_tables _ _ _ _ _ _ _ _ _ _ _ _ Hup).
    + rewrite <-Hc. by apply (pu_memory _ _ _ _ _ _ _ _ _ _ _ _ Hup (mk_fte _ t' q)).
  - destruct Hh as [? Hh]. rewrite E1. split; [done|]. case_decide; [done|]. destruct Hh as [? Hl].
    split; [done|]. eapply (pu_live _ _ _ _ _ _ _ _ _ _ _ _ Hup); eauto.
Qed.

Lemma inv_update : vm_inv ds (<[p := t]> own) files live' (<[(t, page_no e') := c']> A) st'.
Proof.
  assert (∀ q t', <[p := t]> own !! q = Some t' → q ≠ p → own !! q = Some t') as Hown.
  { intros q t' Ho Hne. by apply own_update. }
  assert (∀ q t' e, q ≠ p → own !! q = Some t' → pages st' !! q = Some e → pages st !! q = Some e) as Hpages.
  { intros q t' e Hne Ho Hq. rewrite <-(pu_others _ _ _ _ _ _ _ _ _ _ _ _ Hup q); eauto. }
  assert (processes st !! t = Some pr) as Hpr by apply Hup.
  split; try by apply Hup.
  - pose proof (pu_next _ _ _ _ _ _ _ _ _ _ _ _ Hup). lia.
  - intros t' pr' Hpr'. destruct (process_before _ _ Hpr') as (pr0 & Hpr0 & Epd & Hsup).
    destruct (vi_procs _ _ _ _ _ _ Hinv _ _ Hpr0) as (Hd & Hb & Hinj & Hs).
    rewrite Epd, (pu_base _ _ _ _ _ _ _ _ _ _ _ _ Hup). split_and!; [done|done| |].
    + intros t2 pr2 Hpr2 E2. destruct (process_before _ _ Hpr2) as (pr20 & Hpr20 & Epd2 & _).
      apply (Hinj _ _ Hpr20). congruence.
    + intros q. rewrite Hsup, Hs. destruct (decide (q = p)) as [->|Hne].
      * rewrite lookup_insert_eq. pose proof (pu_owner _ _ _ _ _ _ _ _ _ _ _ _ Hup). naive_solver.
      * rewrite own_update by done. naive_solver.
  - intros x Hx. destruct (pu_table _ _ _ _ _ _ _ _ _ _ _ _ Hup x Hx) as [Hu Hp]. split; [done|].
    destruct (decide (fte_spte x = p)) as [Ep|Hne].
    + destruct (Hp Ep) as [Hl ->]. simpl. destruct (process_after _ _ Hpr) as (pr' & Hpr' & Epd).
      exists e', pr'. rewrite lookup_insert_eq, Epd. split_and!; try done. apply Hup.
    + apply (pu_tables _ _ _ _ _ _ _ _ _ _ _ _ Hup) in Hx; [|done].
      destruct (vi_table _ _ _ _ _ _ Hinv x Hx) as (_ & e & pr0 & Ho & He & Hl & Hpr0 & Ef).
      destruct (process_after _ _ Hpr0) as (pr' & Hpr' & Epd). exists e, pr'.
      destruct (vi_pages _ _ _ _ _ _ Hinv _ _ Ho) as (_ & e2 & _ & _ & He2 & _ & _ & Hok & _). simplify_eq.
      destruct (other_lookup _ _ e pr0 Hne Ho He Hpr0 Hok) as (_ & E2 & _).
      rewrite own_update, Epd, E2 by done. split_and!; try done.
      rewrite (pu_others _ _ _ _ _ _ _ _ _ _ _ _ Hup); eauto.
  - intros q t' Ho. destruct (decide (q = p)) as [->|Hne].
    + rewrite lookup_insert_eq in Ho. apply (inj Some) in Ho as <-. destruct (process_after _ _ Hpr) as (pr' & Hpr' & Epd).
      split; [by destruct (pu_next _ _ _ _ _ _ _ _ _ _ _ _ Hup)|]. exists e', pr', c'.
      rewrite lookup_insert_eq. pose proof (pu_holds _ _ _ _ _ _ _ _ _ _ _ _ Hup) as Hh.
      unfold page_holds in *. rewrite Epd. split_and!; [apply Hup|done|done|apply Hup|done].
    + apply Hown in Ho; [|done]. destruct (vi_pages _ _ _ _ _ _ Hinv _ _ Ho) as (Hn & e & pr0 & c & He & Hpr0 & HA & Hok & Hh).
      destruct (process_after _ _ Hpr0) as (pr' & Hpr' & Epd).
      split; [destruct (pu_next _ _ _ _ _ _ _ _ _ _ _ _ Hup); lia|]. exists e, pr', c.
      split; [rewrite (pu_others _ _ _ _ _ _ _ _ _ _ _ _ Hup); eauto|]. split; [done|]. split; [|split; [done|]].
      * rewrite lookup_insert_ne; [done|]. intros [= <- En].
        by apply (pu_fresh _ _ _ _ _ _ _ _ _ _ _ _ Hup q e).
      * by eapply other_holds.
  - intros q1 q2 t' e1 e2 Ho1 Ho2 He1 He2 En.
    assert (∀ q e, q ≠ p → <[p := t]> own !! q = Some t' → <[p := t]> own !! p = Some t' →
      pages st' !! q = Some e → page_no e = page_no e' → False) as Hclash.
    { intros q e Hne Ho Hop He E. rewrite lookup_insert_eq in Hop. apply (inj Some) in Hop as <-. apply Hown in Ho; [|done].
      eapply (pu_fresh _ _ _ _ _ _ _ _ _ _ _ _ Hup); eauto. }
    pose proof (pu_page _ _ _ _ _ _ _ _ _ _ _ _ Hup) as Hpe.
    destruct (decide (q1 = p)) as [->|N1], (decide (q2 = p)) as [->|N2]; [done| | |].
    + rewrite Hpe in He1. apply (inj Some) in He1 as <-. exfalso. eapply (Hclash q2 e2); eauto.
    + rewrite Hpe in He2. apply (inj Some) in He2 as <-. exfalso. eapply (Hclash q1 e1); eauto.
    + eapply (vi_keys _ _ _ _ _ _ Hinv); eauto.
  - intros t' n c HA. apply lookup_insert_Some in HA as [[[= <- <-] <-]|[Hne HA]].
    { exists p, e'. rewrite lookup_insert_eq. split_and!; [done|apply Hup|done]. }
    destruct (vi_cover _ _ _ _ _ _ Hinv _ _ _ HA) as (q & e & Ho & He & En).
    destruct (decide (q = p)) as [->|Hq].
    + pose proof (own_before _ Ho) as ->. destruct Hne. by rewrite <-En, (pu_same _ _ _ _ _ _ _ _ _ _ _ _ Hup e).
    + exists q, e. rewrite own_update by done. split_and!; try done.
      rewrite (pu_others _ _ _ _ _ _ _ _ _ _ _ _ Hup); eauto.
  - intros t' pr' n Hpr' Hn Hpres. destruct (process_before _ _ Hpr') as (pr0 & Hpr0 & Epd & _). rewrite Epd in Hpres.
    destruct (decide (pagedir pr0 = pagedir pr ∧ n = page_no e')) as [[Ed ->]|Hno].
    + destruct (vi_procs _ _ _ _ _ _ Hinv _ _ Hpr) as (_ & _ & Hinj & _). pose proof (Hinj _ _ Hpr0 Ed) as ->.
      exists p, e'. rewrite lookup_insert_eq. split_and!; [done|apply Hup|done|].
      pose proof (pu_holds _ _ _ _ _ _ _ _ _ _ _ _ Hup) as Hh. unfold page_holds in Hh.
      destruct (p_loaded e'); [done|]. rewrite Ed in Hpres. destruct Hh as [Hh _]. congruence.
    + destruct (vi_procs _ _ _ _ _ _ Hinv _ _ Hpr0) as (Hd & _).
      destruct (pu_lookup _ _ _ _ _ _ _ _ _ _ _ _ Hup _ n Hd Hn Hno) as (E1 & _). rewrite E1 in Hpres.
      destruct (vi_mapped _ _ _ _ _ _ Hinv _ _ _ Hpr0 Hn Hpres) as (q & e & Ho & He & En & Hl).
      assert (q ≠ p) as Hq.
      { intros ->. apply Hno. pose proof (own_before _ Ho) as ->.
        rewrite Hpr in Hpr0. apply (inj Some) in Hpr0 as <-. split; [done|]. by rewrite <-En, (pu_same _ _ _ _ _ _ _ _ _ _ _ _ Hup e). }
      exists q, e. rewrite own_update by done. split_and!; try done.
      rewrite (pu_others _ _ _ _ _ _ _ _ _ _ _ _ Hup); eauto.
  - intros q1 q2 e1 e2 [t1 Ho1] [t2 Ho2] He1 He2 L1 L2 T1 T2 En.
    pose proof (pu_page _ _ _ _ _ _ _ _ _ _ _ _ Hup) as Hpe.
    assert (∀ q e t', q ≠ p → <[p := t]> own !! q = Some t' → pages st' !! q = Some e → p_loaded e = false →
      p_file_type e ≠ TYPE_FILE → p_loaded e' = false → p_file_type e' ≠ TYPE_FILE →
      u32 (p_swap_num e) = u32 (p_swap_num e') → False) as Hclash.
    { intros q e t' Hne Ho He ? ? ? ? E. apply Hown in Ho; [|done].
      eapply (pu_slots _ _ _ _ _ _ _ _ _ _ _ _ Hup); eauto. }
    destruct (decide (q1 = p)) as [->|N1], (decide (q2 = p)) as [->|N2]; [done| | |].
    + rewrite Hpe in He1. apply (inj Some) in He1 as <-. exfalso. eapply (Hclash q2 e2); eauto.
    + rewrite Hpe in He2. apply (inj Some) in He2 as <-. exfalso. eapply (Hclash q1 e1); eauto.
    + apply Hown in Ho1, Ho2; [|done..]. eapply (vi_slots _ _ _ _ _ _ Hinv); eauto.
Qed.
End update.

(** ** Changing no page *)

(** The mappings and the frames in the table [ft] are as they were. *)
Record mm_keeps (ds : gset Z) (ft : list frame_table_entry) (s s' : mmu) : Prop := {
  mk_inv : mmu_inv ds s';
  mk_regs : ram_pages s' = ram_pages s ∧ base_page_dir s' = base_page_dir s;
  mk_pool : pool_end (user_pool (mach s')) = pool_end (user_pool (mach s));
  mk_frames : ∀ x, x ∈ ft → upage (mach s) (fte_frame x) →
    upage (mach s') (fte_frame x) ∧
    Swap.page_of (ram (mach s')) (fte_frame x) = Swap.page_of (ram (mach s)) (fte_frame x);
  mk_lookup : ∀ pd n, pd ∈ ds → 0 ≤ n < USER_PAGES → keeps_entry (lookup s pd n) (lookup s' pd n) }.

Lemma mm_keeps_trans ds ft s1 s2 s3 : mm_keeps ds ft s1 s2 → mm_keeps ds ft s2 s3 → mm_keeps ds ft s1 s3.
Proof.
  intros [I1 [R1 B1] P1 F1 L1] [I2 [R2 B2] P2 F2 L2]. split; [done|split; congruence|congruence| |].
  - intros x Hx Hu. destruct (F1 x Hx Hu) as [Hu2 E2]. destruct (F2 x Hx Hu2) as [Hu3 E3]. split; congruence.
  - intros pd n Hpd Hn. etransitivity; [by apply L1|by apply L2].
Qed.

(** The rest of the state, as far as the invariant looks at it. *)
Record rest_same (own : gmap Z Z) st st' : Prop := {
  rs_device : swap_device st' = swap_device st;
  rs_table : swap_table st' = swap_table st;
  rs_frames : frame_table st' = frame_table st;
  rs_procs : processes st' = processes st;
  rs_pages : ∀ p, is_Some (own !! p) → pages st' !! p = pages st !! p;
  rs_next : next_address st ≤ next_address st' }.

Lemma inv_same ds own files live A st st' :
  vm_inv ds own files live A st → mm_keeps ds (frame_table st) (mm st) (mm st') → rest_same own st st' →
  shows (filesys st') files → vm_inv ds own files live A st'.
Proof.
  intros Hinv [Hm [Er Eb] Ep Hf Hl] [Ed Et Eft Epr Epg Hn] Hs.
  assert (∀ p t e, own !! p = Some t → pages st' !! p = Some e → pages st !! p = Some e) as Hpages.
  { intros p t e Ho <-. symmetry. eauto. }
  assert (∀ p t e pr, own !! p = Some t → pages st !! p = Some e → processes st !! t = Some pr →
    keeps_entry (lookup (mm st) (pagedir pr) (page_no e)) (lookup (mm st') (pagedir pr) (page_no e))) as Hke.
  { intros p t e pr Ho He Hpr. apply Hl; [by apply (vi_procs _ _ _ _ _ _ Hinv _ _ Hpr)|].
    destruct (vi_pages _ _ _ _ _ _ Hinv _ _ Ho) as (_ & e2 & _ & _ & He2 & _ & _ & Hok & _).
    simplify_eq. by apply (entry_page files). }
  split.
  - done.
  - rewrite Ep, Er. apply Hinv.
  - destruct (vi_swap _ _ _ _ _ _ Hinv) as [[] []]. unfold swap_part. rewrite Ed, Et. by split; split.
  - done.
  - pose proof (vi_next _ _ _ _ _ _ Hinv). lia.
  - intros t pr. rewrite Epr, Eb. apply Hinv.
  - rewrite Eft. apply Hinv.
  - intros x. rewrite Eft, Epr. intros Hx.
    destruct (vi_table _ _ _ _ _ _ Hinv x Hx) as (Hu & e & pr & Ho & He & Hlo & Hpr & Efr).
    split; [by apply Hf|]. exists e, pr. rewrite Epg by eauto. split_and!; try done.
    destruct (Hke _ _ e pr Ho He Hpr) as (_ & -> & _). done.
  - intros p t Ho. rewrite Epr, Epg by eauto.
    destruct (vi_pages _ _ _ _ _ _ Hinv _ _ Ho) as (Hnx & e & pr & c & He & Hpr & HA & Hok & Hh).
    split; [lia|]. exists e, pr, c. split_and!; try done.
    destruct (Hke _ _ e pr Ho He Hpr) as (E1 & E2 & E3 & E4 & E5). unfold page_holds, memory in *.
    rewrite E1, E2, E3, E4, Eft. destruct (p_loaded e); [|done].
    destruct Hh as (? & Hin & Hc & ? & ? & Hcl). split_and!; try done; [|by auto].
    rewrite <-Hc. eapply (Hf (mk_fte _ t p)); [done|]. by apply (vi_table _ _ _ _ _ _ Hinv) in Hin as [? _].
  - intros p p' t e e' Ho Ho' He He'. eapply (vi_keys _ _ _ _ _ _ Hinv); eauto.
  - intros t n c HA. destruct (vi_cover _ _ _ _ _ _ Hinv _ _ _ HA) as (p & e & Ho & He & En).
    exists p, e. rewrite Epg by eauto. done.
  - intros t pr n. rewrite Epr. intros Hpr Hn' Hp.
    destruct (Hl (pagedir pr) n) as (E1 & _); [by apply (vi_procs _ _ _ _ _ _ Hinv _ _ Hpr)|done|].
    rewrite E1 in Hp. destruct (vi_mapped _ _ _ _ _ _ Hinv _ _ _ Hpr Hn' Hp) as (p & e & Ho & He & En).
    exists p, e. rewrite Epg by eauto. done.
  - intros p p' e e' [t Ho] [t' Ho'] He He'. eapply (vi_slots _ _ _ _ _ _ Hinv); eauto.
Qed.

(** ** Frames *)
Lemma upage_facts x f : inv x → upage x f →
  f mod 4096 = 0 ∧ PHYS_BASE ≤ f ∧ f + 4096 ≤ pool_end (user_pool x) ∧ base (user_pool x) ≤ f ∧
  pool_end (user_pool x) ≤ 2 ^ 32 ∧ Swap.has_page (ram x) f ∧ f ≠ NULL.
Proof.
  intros Hinv (i & Hi & -> & _). pose proof (inv_pools _ Hinv UserPool) as Hp. simpl in Hp.
  pose proof (pool_low _ _ Hp). pose proof (pool_high _ _ Hp). unfold pool_end. split_and!; [|lia..| |unfold PHYS_BASE, NULL in *; lia].
  - rewrite Z.mul_comm, Z_mod_plus_full. apply Hp.
  - intros y Hy. apply (pool_mem _ _ Hp). lia.
Qed.

Lemma page_of_same (m m' : mem) f :
  (∀ a, f ≤ a < f + 4096 → m' !! a = m !! a) → Swap.page_of m' f = Swap.page_of m f.
Proof.
  intros Hm. unfold Swap.page_of, bytes_of. apply list_fmap_ext. intros i k Hk.
  apply lookup_seq in Hk as [-> Hk]. rewrite !lookup_total_alt, Hm by lia. done.
Qed.

Lemma user_kept_page x x' f : inv x → user_kept x x' → upage x f →
  upage x' f ∧ Swap.page_of (ram x') f = Swap.page_of (ram x) f.
Proof.
  intros Hinv [Ep Hm] Hu. split; [unfold upage; by rewrite Ep|].
  destruct (upage_facts x f Hinv Hu) as (_ & _ & ? & ? & _). apply page_of_same. intros a Ha. apply Hm. lia.
Qed.

(** Changing the flags of an entry keeps the pages. *)
Lemma changed_keeps ds ft s s' pd n f :
  inv (mach s) → mmu_inv ds s' → changed ds s s' pd n f → (∀ x, keeps_entry x (f x)) → mm_keeps ds ft s s'.
Proof.
  intros Hx Hm [Hl Hu (Er & Eb & _)] Hf. split; [done|done| | |].
  - by rewrite (proj1 Hu).
  - intros x _. by apply user_kept_page.
  - intros pd' n' Hpd Hn. rewrite Hl by done. case_decide; [apply Hf|done].
Qed.
End inv.
