(* ===== verification/VmOps.v ===== *)
(** Frames and their eviction ([vm/frame.c]): finding a frame keeps every page
    of every process. *)
From Stdlib Require Import ZArith Lia.
From stdpp Require Import base tactics option numbers list gmap.
From S2P Require Import Prelude CString Bytes Disk Palloc PageDir PageOps Vm VmInv.
From S2P Require Bitmap Swap.

Open Scope Z_scope.

(** A page of zeros, not to be computed. *)
Definition zero_page : bytes := replicate (Z.to_nat 4096) 0.
Lemma zero_page_length : length zero_page = Z.to_nat 4096.
Proof. apply length_replicate. Qed.
#[global] Opaque zero_page.

(** A frame that was asked for with [PAL_ZERO] holds zeros. *)
Record zeroed (flags : Z) (m : mem) (f : Z) : Prop := {
  zeroed_page : has_flag flags PAL_ZERO = true → Swap.page_of m f = zero_page }.

(** * The user pool below the page tables *)
Section pool.
Implicit Types (s : mmu) (x : machine).

(** What happens above the kernel pool does not touch the page tables. *)
Lemma user_step ds s x' :
  mmu_inv ds s → inv x' → kernel_pool x' = kernel_pool (mach s) →
  (∀ a, a < base (user_pool (mach s)) → ram x' !! a = ram (mach s) !! a) →
  mmu_inv ds (set_mach x' s) ∧
  ∀ pd n, pd ∈ ds → 0 ≤ n < USER_PAGES → lookup (set_mach x' s) pd n = lookup s pd n.
Proof.
  intros Hm Hi' Ek Hlow. pose proof (mi_space _ _ Hm) as Hs. pose proof (si_inv _ _ Hs) as Hi.
  destruct (spaces_frame ds (mach s) x' Hs Hi') as [Hs' Hsame].
  { intros a Ha. apply (is_table_kpage _ _ _ Hs) in Ha. split; [unfold kpage; by rewrite Ek|].
    intros y Hy. apply Hlow. destruct Ha as (i & Hb & -> & _).
    pose proof (inv_disjoint _ Hi) as Hd. unfold pool_end in Hd. lia. }
  assert (same_ptes ds s (set_mach x' s)) as Hp by (intros pd n Hpd; by apply (Hsame pd)).
  split; [by eapply mmu_inv_same|]. intros pd n Hpd Hn. unfold lookup. by rewrite Hp.
Qed.

Lemma upage_marked i v x x' f :
  inv x → marked UserPool i 1 v x x' →
  upage x' f ↔ if decide (f = base (user_pool x) + 4096 * i) then v = true else upage x f.
Proof.
  intros Hi Hmk. pose proof Hmk as (Hi0 & Hle & Hfree & _ & Hb & _).
  pose proof (marked_cnt _ _ _ _ _ _ UserPool Hmk) as Ec. pose proof (Hb UserPool) as Eb. simpl in *.
  assert (∀ j, 0 ≤ j → Bitmap.bit (used_map (user_pool x')) j =
    if decide (i ≤ j < i + 1) then v else Bitmap.bit (used_map (user_pool x)) j) as Hbit.
  { intros j Hj. pose proof (marked_bit _ _ _ _ _ _ UserPool j Hmk Hj) as E. simpl in E. rewrite E.
    destruct (decide (i ≤ j < i + 1)); [by rewrite decide_True|by rewrite decide_False by naive_solver]. }
  unfold upage. rewrite Ec, Eb. case_decide as Hd.
  - subst f. split.
    + intros (j & Hj & E & Ht). rewrite Hbit, decide_True in Ht by lia. done.
    + intros ->. exists i. rewrite Hbit, decide_True by lia. split_and!; [lia..|done|done].
  - split; intros (j & Hj & -> & Ht); exists j; (split_and!; [lia..|done|]).
    + rewrite Hbit, decide_False in Ht by lia. done.
    + rewrite Hbit, decide_False by lia. done.
Qed.

(** A frame handed out: nothing else has changed. *)
Record new_frame ds s f s' : Prop := {
  nf_inv : mmu_inv ds s';
  nf_regs : same_regs s s';
  nf_pool : pool_end (user_pool (mach s')) = pool_end (user_pool (mach s));
  nf_lookup : ∀ pd n, pd ∈ ds → 0 ≤ n < USER_PAGES → lookup s' pd n = lookup s pd n;
  nf_new : upage (mach s') f ∧ ¬ upage (mach s) f;
  nf_old : ∀ f', upage (mach s) f' → upage (mach s') f' ∧
    Swap.page_of (ram (mach s')) f' = Swap.page_of (ram (mach s)) f' }.

Lemma pages_disjoint f f' : f mod 4096 = 0 → f' mod 4096 = 0 → f ≠ f' → f + 4096 ≤ f' ∨ f' + 4096 ≤ f.
Proof. intros. by apply pages_apart. Qed.

Lemma page_of_changes (m m' : mem) f f' n :
  f mod 4096 = 0 → f' mod 4096 = 0 → f ≠ f' → 0 ≤ n ≤ 4096 → changes_at f n m m' →
  Swap.page_of m' f' = Swap.page_of m f'.
Proof.
  intros Hf Hf' Hne Hn [Hch _]. apply page_of_same. intros a Ha. apply Hch.
  destruct (pages_disjoint f f' Hf Hf' Hne); lia.
Qed.

Lemma marked_pool_end i v x x' : marked UserPool i 1 v x x' → pool_end (user_pool x') = pool_end (user_pool x).
Proof.
  intros Hmk. destruct (marked_pools _ _ _ _ _ _ Hmk UserPool) as [Eb Ec]. simpl in *. unfold pool_end. by rewrite Eb, Ec.
Qed.

Lemma marked_user_step ds s x' i v :
  mmu_inv ds s → marked UserPool i 1 v (mach s) x' →
  mmu_inv ds (set_mach x' s) ∧
  ∀ pd n, pd ∈ ds → 0 ≤ n < USER_PAGES → lookup (set_mach x' s) pd n = lookup s pd n.
Proof.
  intros Hm Hmk. pose proof (si_inv _ _ (mi_space _ _ Hm)) as Hi.
  pose proof Hmk as (Hi0 & _ & _ & _ & _ & Ho & Hch). apply user_step; [done|by eapply marked_inv| |].
  - by apply (Ho KernelPool).
  - intros a Ha. apply Hch. simpl. lia.
Qed.

Lemma get_user_frame ds s flags :
  has_flag flags PAL_USER = true → has_flag flags PAL_ASSERT = false → mmu_inv ds s →
  wp (PageDir.Ops.on_mach (Palloc.Ops.palloc_get_page flags)) (λ f s',
    (f = NULL ∧ s' = s ∧ exhausted UserPool 1 (mach s)) ∨
    (f ≠ NULL ∧ new_frame ds s f s' ∧
     zeroed flags (ram (mach s')) f)) s.
Proof.
  intros Hu Ha Hm. pose proof (si_inv _ _ (mi_space _ _ Hm)) as Hi.
  unfold PageDir.Ops.on_mach, Palloc.Ops.palloc_get_page. apply wp_zoom.
  eapply wp_mono; [apply palloc_get_multiple_ok; [done|unfold is_u32; lia|by left]|].
  intros f x Hgot. unfold got in Hgot. unfold pool_for in Hgot. rewrite Hu in Hgot.
  destruct Hgot as [(-> & -> & [?|Hex])|(_ & Hnn & i & Ei & Hmk & Hz)]; [done|left; by destruct s|right].
  simpl in Ei. destruct (marked_user_step ds s x i true Hm Hmk) as [Hm' Hl].
  assert (upage x f) as Hf by (rewrite (upage_marked i true (mach s) x f Hi Hmk), decide_True; done).
  assert (¬ upage (mach s) f) as Hnf.
  { intros (j & Hj & E & Ht). destruct Hmk as (_ & _ & Hfree & _). simpl in Hfree.
    assert (j = i) as -> by lia. rewrite (Hfree i) in Ht by lia. done. }
  pose proof Hmk as (_ & _ & _ & _ & _ & _ & Hch). simpl in Hch. rewrite <-Ei in Hch.
  split; [done|]. split; [split|].
  - done.
  - done.
  - by eapply marked_pool_end.
  - done.
  - done.
  - intros f' Hf'. cbn [mach set_mach]. split.
    + rewrite (upage_marked i true (mach s) x f' Hi Hmk), decide_False; [done|]. rewrite <-Ei. by intros ->.
    + eapply (page_of_changes _ _ f _ (4096 * 1)); [| | |lia|done].
      * by apply (upage_facts x f (marked_inv _ _ _ _ _ _ Hi Hmk)).
      * by apply (upage_facts (mach s) f').
      * by intros ->.
  - split. intros E. rewrite E in Hz. cbn [mach set_mach]. apply Swap.Swapping.page_of_block; [exact Hz|].
    apply zero_page_length.
Qed.

(** A frame given back. *)
Record freed_frame ds s f s' : Prop := {
  ff_inv : mmu_inv ds s';
  ff_regs : same_regs s s';
  ff_pool : pool_end (user_pool (mach s')) = pool_end (user_pool (mach s));
  ff_lookup : ∀ pd n, pd ∈ ds → 0 ≤ n < USER_PAGES → lookup s' pd n = lookup s pd n;
  ff_room : ¬ exhausted UserPool 1 (mach s');
  ff_kernel : kernel_pool (mach s') = kernel_pool (mach s);
  ff_old : ∀ f', upage (mach s) f' → f' ≠ f → upage (mach s') f' ∧
    Swap.page_of (ram (mach s')) f' = Swap.page_of (ram (mach s)) f' }.

Lemma free_user_frame ds s f :
  mmu_inv ds s → upage (mach s) f →
  wp (PageDir.Ops.on_mach (Palloc.Ops.palloc_free_page f)) (λ _ s', freed_frame ds s f s') s.
Proof.
  intros Hm Hf. pose proof (si_inv _ _ (mi_space _ _ Hm)) as Hi. pose proof Hf as (i & Hb & Ef & Ht).
  unfold PageDir.Ops.on_mach, Palloc.Ops.palloc_free_page. apply wp_zoom. rewrite Ef.
  eapply wp_mono; [apply (palloc_free_multiple_ok UserPool i 1); [done|simpl; lia..|]|].
  { intros j Hj. by replace j with i by lia. }
  intros [] x Hmk. destruct (marked_user_step ds s x i false Hm Hmk) as [Hm' Hl].
  pose proof Hmk as (_ & _ & _ & _ & _ & _ & Hch). simpl in Hch. rewrite <-Ef in *.
  split.
  - done.
  - done.
  - by eapply marked_pool_end.
  - done.
  - intros Hex. apply (Hex i); cbn [mach set_mach].
    + lia.
    + rewrite (marked_cnt _ _ _ _ _ _ UserPool Hmk). simpl. lia.
    + intros j Hj. rewrite (marked_bit _ _ _ _ _ _ UserPool j Hmk) by lia. rewrite decide_True; [done|]. split; [done|lia].
  - destruct Hmk as (_ & _ & _ & _ & _ & Hk & _). by apply (Hk KernelPool).
  - intros f' Hf' Hne. cbn [mach set_mach]. split.
    + rewrite (upage_marked i false (mach s) x f' Hi Hmk), decide_False; [done|]. by rewrite <-Ef.
    + eapply (page_of_changes _ _ f _ (4096 * 1)); [| |done|lia|done]; by eapply upage_facts.
Qed.

(** Bytes written to a frame. *)
Lemma write_user_frame ds s f m' :
  mmu_inv ds s → upage (mach s) f → changes_at f 4096 (ram (mach s)) m' →
  let s' := set_mach (set_ram m' (mach s)) s in
  mmu_inv ds s' ∧
  (∀ pd n, pd ∈ ds → 0 ≤ n < USER_PAGES → lookup s' pd n = lookup s pd n) ∧
  (∀ f', upage (mach s) f' → f' ≠ f →
    Swap.page_of m' f' = Swap.page_of (ram (mach s)) f').
Proof.
  intros Hm Hf Hch s'. pose proof (si_inv _ _ (mi_space _ _ Hm)) as Hi.
  destruct (upage_facts _ _ Hi Hf) as (Hal & _ & _ & Hlo & _).
  destruct (user_step ds s (set_ram m' (mach s)) Hm) as [Hm' Hl].
  - apply inv_set_ram; [done|apply Hch].
  - done.
  - intros a Ha. apply Hch. lia.
  - split; [done|]. split; [done|]. intros f' Hf' Hne.
    eapply (page_of_changes _ _ f _ 4096); [done|by eapply upage_facts|done|lia|done].
Qed.
End pool.

(** Computes the parts of a state that has been assigned to. *)
Ltac vm_cbn := cbn [mm swap_device swap_table frame_table pages processes current lock_frame
  page_fault_cnt next_address malloc_outcomes filesys set_mm set_swap set_frame_table set_pages
  set_processes set_lock set_fault_cnt set_memory set_current set_filesys].

(** * Eviction *)
Section evict.
Context {F : Type} `{FileLaws F}.
Context (ds : gset Z) (own : gmap Z Z) (files : gmap Z bytes).
Implicit Types (st : vm F) (live : list (Z * bytes)) (A : contents).
Import Vm.Ops.

Lemma wp_page_at st p e Q : pages st !! p = Some e → Q e st → wp (page_at p) Q st.
Proof. intros E HQ. unfold page_at. wp_go. rewrite E. by wp_go. Qed.
Lemma wp_page_set st p e f Q :
  pages st !! p = Some e → Q tt (set_pages (<[p := f e]> (pages st)) st) → wp (page_set p f) Q st.
Proof. intros E HQ. unfold page_set. wp_unbind. eapply wp_page_at; [done|]. by wp_go. Qed.
Lemma wp_thread_at st t pr Q : processes st !! t = Some pr → Q pr st → wp (thread_at t) Q st.
Proof. intros E HQ. unfold thread_at. wp_go. rewrite E. by wp_go. Qed.
Lemma wp_running st pr Q :
  processes st !! current st = Some pr → Q pr st → wp thread_current Q st.
Proof. intros E HQ. unfold thread_current. wp_go. by eapply wp_thread_at. Qed.
Lemma wp_on_mmu {B : Type} (m : M mmu B) st Q :
  wp m (λ a s, Q a (set_mm s st)) (mm st) → wp (on_mmu m) Q st.
Proof. intros Hm. unfold on_mmu. by apply wp_zoom. Qed.

Lemma set_mm_same st : set_mm (mm st) st = st.
Proof. by destruct st. Qed.

(** The parts that paging leaves alone. *)
Record aside st st' : Prop := {
  as_procs : processes st' = processes st;
  as_current : current st' = current st;
  as_lock : lock_frame st' = lock_frame st;
  as_next : next_address st' = next_address st;
  as_cr3 : cr3 (mm st') = cr3 (mm st);
  as_files : filesys st' = filesys st }.

#[export] Instance aside_preorder : PreOrder aside.
Proof.
  split; [by split|]. intros st1 st2 st3 [] []. split; congruence.
Qed.

(** A frame table entry and its page. *)
Lemma table_page_holds live A st x :
  vm_inv ds own files live A st → x ∈ frame_table st →
  ∃ e pr c, own !! fte_spte x = Some (fte_owner x) ∧ pages st !! fte_spte x = Some e ∧
    processes st !! fte_owner x = Some pr ∧ pagedir pr ∈ ds ∧ A !! (fte_owner x, page_no e) = Some c ∧
    entry_ok files e ∧ p_loaded e = true ∧ page_holds st files live (fte_spte x) (fte_owner x) pr e c ∧
    upage (mach (mm st)) (fte_frame x) ∧
    frame (lookup (mm st) (pagedir pr) (page_no e)) = fte_frame x.
Proof.
  intros Hinv Hx. destruct (vi_table _ _ _ _ _ _ Hinv x Hx) as (Hu & e & pr & Ho & He & Hl & Hpr & Ef).
  destruct (vi_pages _ _ _ _ _ _ Hinv _ _ Ho) as (_ & e2 & pr2 & c & He2 & Hpr2 & HA & Hok & Hh). simplify_eq.
  exists e, pr, c. split_and!; try done. by apply (vi_procs _ _ _ _ _ _ Hinv _ _ Hpr).
Qed.

(** The page is saved where the invariant will look for it: in its file, where
    it still is, or in a new slot. *)
Record saved st live p e c st1 live1 e1 : Prop := {
  sv_mm : mm st1 = mm st;
  sv_aside : aside st st1;
  sv_mallocs : malloc_outcomes st1 = malloc_outcomes st;
  sv_page : pages st1 !! p = Some e1;
  sv_others : ∀ q, q ≠ p → pages st1 !! q = pages st !! q;
  sv_swap : Swap.swap_wf (swap_part st1) ∧ Swap.holds live1 (swap_part st1);
  sv_addr : p_user_vaddr e1 = p_user_vaddr e;
  sv_entry : entry_ok files e1;
  sv_where : if decide (p_file_type e1 = TYPE_FILE) then c = file_page files e1
             else p_is_swapped e1 = true ∧ (u32 (p_swap_num e1), c) ∈ live1 ∧ u32 (p_swap_num e1) ∉ live.*1;
  sv_live : ∀ y, y ∈ live → y ∈ live1 }.

(** The sector numbers of slots fit an [int]. *)
Lemma slot_number live (w : Swap.swap) n c :
  Swap.swap_wf w → Swap.holds ((n, c) :: live) w → u32 (s32 n) = n.
Proof.
  intros Hw Hh. destruct (Swap.h_slot _ _ Hh n c) as (k & -> & Hk & _); [by left|].
  pose proof (Swap.sw_small _ Hw). rewrite s32_id, u32_id; unfold is_u32, is_s32; lia.
Qed.

Lemma save_ok live A st x e c :
  vm_inv ds own files live A st → Swap.has_slot (swap_part st) →
  pages st !! fte_spte x = Some e → entry_ok files e → upage (mach (mm st)) (fte_frame x) →
  Swap.page_of (memory st) (fte_frame x) = c →
  ∀ is_dirty : bool, (p_file_type e = TYPE_FILE → is_dirty = false → c = file_page files e) →
  wp (if is_dirty || (p_file_type e =? TYPE_SWAP) then
        page_set (fte_spte x) (upd_file_type TYPE_SWAP);;
        n ← on_swap (Swap.Ops.swap_out (fte_frame x));
        page_set (fte_spte x) (upd_swap_num (s32 n));;
        page_set (fte_spte x) (upd_is_swapped true)
      else mret tt)
    (λ _ st1, ∃ live1 e1, saved st live (fte_spte x) e c st1 live1 e1 ∧ frame_table st1 = frame_table st) st.
Proof.
  intros Hinv Hsl He Hok Hu Hc d Hcl. destruct (vi_swap _ _ _ _ _ _ Hinv) as [Hw Hh].
  pose proof (eo_type _ _ Hok) as Hty. destruct (d || (p_file_type e =? TYPE_SWAP)) eqn:Eb.
  - set (p := fte_spte x) in *. wp_unbind. eapply wp_page_set; [done|]. wp_unbind. unfold on_swap. apply wp_zoom.
    destruct (upage_facts _ _ (si_inv _ _ (mi_space _ _ (vi_mmu _ _ _ _ _ _ Hinv))) Hu) as (_ & _ & _ & _ & _ & Hp & _).
    eapply wp_mono; [by apply (Swap.swap_out_ok live (swap_part st))|].
    intros n w (Hw' & Hh' & Er & Ec). cbn [Swap.ram swap_part] in Er, Hh'.
    wp_unbind. eapply wp_page_set; [cbn [pages set_swap set_pages]; apply lookup_insert_eq|].
    eapply wp_page_set; [cbn [pages set_swap set_pages]; apply lookup_insert_eq|].
    cbn [pages set_swap set_pages]. rewrite !insert_insert_eq.
    assert (u32 (s32 n) = n) as En by (by eapply slot_number).
    assert (swap_part (set_pages (<[p := upd_is_swapped true (upd_swap_num (s32 n) (upd_file_type TYPE_SWAP e))]> (pages st))
      (set_swap (Swap.ram w) (Swap.swap_device w) (Swap.swap_table w) st)) = w) as Ew.
    { unfold swap_part. cbn. rewrite Er. destruct w. simpl in *. by subst. }
    eexists ((n, Swap.page_of (memory st) (fte_frame x)) :: live), _. split; [|done]. split.
    + cbn. rewrite Er. by destruct (mm st) as [[]].
    + by split.
    + done.
    + cbn. apply lookup_insert_eq.
    + intros q Hq. cbn. by apply lookup_insert_ne.
    + cbn in Ew. unfold swap_part in *. cbn in *. rewrite Ew. done.
    + done.
    + split; [apply Hok|apply Hok|by right].
    + simpl. rewrite En. split_and!; [done|rewrite <-Hc; by left|].
      pose proof (Swap.h_nodup _ _ Hh') as Hnd. cbn in Hnd. by apply NoDup_cons in Hnd as [? _].
    + intros y Hy. by right.
  - apply orb_false_iff in Eb as [-> Et]. apply Z.eqb_neq in Et. destruct Hty as [(Ef & _ & _)|?]; [|done].
    wp_go. exists live, e. split; [|done]. split; [done|by split|done|done|done|by split|done|done| |done].
    rewrite decide_True by done. auto.
Qed.

(** Facts that every change of one page needs. *)
Lemma swap_same live (w w' : Swap.swap) :
  Swap.swap_device w' = Swap.swap_device w → Swap.swap_table w' = Swap.swap_table w →
  Swap.swap_wf w ∧ Swap.holds live w → Swap.swap_wf w' ∧ Swap.holds live w'.
Proof. intros E1 E2 [[] []]. by split; split; rewrite ?E1, ?E2. Qed.

Lemma procs_same live A st st' p t :
  vm_inv ds own files live A st → own !! p = Some t → processes st' = processes st →
  ∀ t', match processes st !! t', processes st' !! t' with
    | Some pr, Some pr' => pagedir pr' = pagedir pr ∧
        ∀ q, q ∈ sup_page_table pr' ↔ (q ∈ sup_page_table pr ∨ q = p ∧ t' = t)
    | None, None => True
    | _, _ => False
    end.
Proof.
  intros Hinv Ho -> t'. destruct (processes st !! t') as [pr|] eqn:E; [|done]. split; [done|].
  intros q. split; [by left|]. intros [?|[-> ->]]; [done|]. by apply (vi_procs _ _ _ _ _ _ Hinv _ _ E).
Qed.

Lemma table_inj live A st x y :
  vm_inv ds own files live A st → x ∈ frame_table st → y ∈ frame_table st → fte_spte x = fte_spte y → x = y.
Proof.
  intros Hinv Hx Hy E. destruct (vi_table _ _ _ _ _ _ Hinv x Hx) as (_ & e & pr & Ho & He & _ & Hpr & Ef).
  destruct (vi_table _ _ _ _ _ _ Hinv y Hy) as (_ & e2 & pr2 & Ho2 & He2 & _ & Hpr2 & Ef2).
  rewrite E in Ho, He. destruct x, y. simpl in *. by simplify_eq.
Qed.

Lemma table_split live A st before x after :
  vm_inv ds own files live A st → frame_table st = before ++ x :: after →
  NoDup (fte_frame <$> before ++ after) ∧
  (∀ y, y ∈ before ++ after → y ∈ frame_table st ∧ fte_frame y ≠ fte_frame x ∧ fte_spte y ≠ fte_spte x) ∧
  (∀ y, fte_spte y ≠ fte_spte x → y ∈ before ++ after ↔ y ∈ frame_table st).
Proof.
  intros Hinv E. pose proof (vi_frames _ _ _ _ _ _ Hinv) as Hnd. rewrite E, fmap_app, fmap_cons in Hnd.
  apply NoDup_app in Hnd as (Hb & Hd & [Hna Ha]%NoDup_cons).
  assert (∀ y, y ∈ before ++ after → y ∈ frame_table st ∧ fte_frame y ≠ fte_frame x) as Hin.
  { rewrite E. intros y [Hy|Hy]%elem_of_app; (split; [set_solver|]).
    - intros Ef. apply (Hd (fte_frame y)); [by apply list_elem_of_fmap_2|]. rewrite Ef. by left.
    - intros Ef. apply Hna. rewrite <-Ef. by apply list_elem_of_fmap_2. }
  split_and!.
  - rewrite fmap_app. apply NoDup_app. split_and!; [done| |done]. intros f Hf Hf'. apply (Hd f Hf). by right.
  - intros y Hy. destruct (Hin y Hy) as [Hy' Hne]. split_and!; [done..|]. intros Es. apply Hne. f_equal.
    eapply table_inj; [done..| |done]. rewrite E. set_solver.
  - intros y Hy. rewrite E. split; [set_solver|]. intros [?|[->|?]%elem_of_cons]%elem_of_app; set_solver.
Qed.

Lemma page_no_addr e e' : p_user_vaddr e' = p_user_vaddr e → page_no e' = page_no e.
Proof. unfold page_no. by intros ->. Qed.

Lemma evict_entry_ok live A st x before after :
  vm_inv ds own files live A st → frame_table st = before ++ x :: after → Swap.has_slot (swap_part st) →
  wp (evict_entry x before after) (λ _ st', ∃ live', vm_inv ds own files live' A st' ∧
    frame_table st' = before ++ after ∧ ¬ exhausted UserPool 1 (mach (mm st')) ∧ aside st st' ∧
    malloc_outcomes st' = malloc_outcomes st ∧ ∀ q, q ≠ fte_spte x → pages st' !! q = pages st !! q) st.
Proof.
  intros Hinv Eft Hsl. assert (x ∈ frame_table st) as Hx by (rewrite Eft; set_solver).
  destruct (table_page_holds live A st x Hinv Hx) as (e & pr & c & Ho & He & Hpr & Hpd & HA & Hok & Hl & Hh & Hu & Ef).
  destruct (table_split live A st before x after Hinv Eft) as (Hnd & Hin & Hiff).
  unfold page_holds in Hh. rewrite Hl in Hh. destruct Hh as (Hp & _ & Hc & _ & _ & Hcl). rewrite Ef in Hc.
  unfold evict_entry. wp_unbind. eapply wp_thread_at; [done|]. wp_unbind. eapply wp_page_at; [done|]. wp_unbind.
  pose proof (vi_mmu _ _ _ _ _ _ Hinv) as Hm. apply wp_on_mmu.
  eapply (pagedir_is_dirty_ok ds); [done|done|apply Hok|]. rewrite set_mm_same. wp_unbind.
  fold (page_no e). eapply wp_mono; [by eapply (save_ok live A st x e c)|].
  intros _ st1 (live1 & e1 & [Em Has Hma Hpg Hpo Hsw Ead Hok1 Hwh Hlv] & Eft1). wp_go. apply wp_on_mmu.
  cbn [mm set_frame_table]. rewrite Em.
  eapply wp_mono; [apply (pagedir_clear_page_ok ds); [done|done|apply Hok|apply Hok]|].
  intros [] s2 [Hm2 [Hl2 Hu2 (Er2 & Eb2 & Ec2)]]. fold (page_no e) in *. unfold on_mach. wp_unbind. apply wp_on_mmu. cbn [mm set_mm].
  pose proof (si_inv _ _ (mi_space _ _ Hm)) as Hi.
  eapply wp_mono; [apply (free_user_frame ds); [done|by eapply user_kept_page]|].
  intros [] s3 [Hm3 (Er3 & Eb3 & Ec3 & _) Ep3 Hl3 Hroom _ Hold]. eapply wp_page_set; [done|]. cbn [pages set_mm set_frame_table].
  exists live1. split; [|split_and!; [done|done| |done|]].
  2: { destruct Has. split; vm_cbn; try done. congruence. }
  2: { intros q Hq. cbn [pages set_pages]. rewrite lookup_insert_ne by done. by apply Hpo. }
  rewrite <-(insert_id own (fte_spte x) (fte_owner x)), <-(insert_id A (fte_owner x, page_no e) c) by done.
  set (e2 := upd_loaded false e1). assert (page_no e2 = page_no e) as En by (by apply page_no_addr).
  rewrite <-En. destruct (entry_page files e Hok) as [Hn _]. rewrite <-En in Hn.
  assert (∀ y, y ∈ before ++ after → upage (mach s3) (fte_frame y) ∧
    Swap.page_of (ram (mach s3)) (fte_frame y) = Swap.page_of (memory st) (fte_frame y)) as Hkeep.
  { intros y Hy. destruct (Hin y Hy) as (Hy' & Hne & _). destruct (vi_table _ _ _ _ _ _ Hinv y Hy') as [Huy _].
    destruct (user_kept_page _ _ _ Hi Hu2 Huy) as [Hu2' E2]. destruct (Hold _ Hu2' Hne) as [Hu3 E3].
    split; [done|]. unfold memory. congruence. }
  eapply (inv_update ds own files live live1 A st _ _ _ pr e2 c Hinv). split; vm_cbn.
  - done.
  - rewrite Ep3, (proj1 Hu2), Er3, Er2. apply Hinv.
  - congruence.
  - eapply (swap_same live1 (swap_part st1)); [done|done|]. by destruct Hsw.
  - rewrite (as_files _ _ Has). apply Hinv.
  - eapply procs_same; [done..|]. vm_cbn. apply Has.
  - done.
  - by right.
  - rewrite (as_next _ _ Has). destruct (vi_pages _ _ _ _ _ _ Hinv _ _ Ho) as [? _]. lia.
  - apply lookup_insert_eq.
  - intros q Hq _. rewrite lookup_insert_ne by done. by apply Hpo.
  - intros q e0 Hq Ho0 He0 E0. apply Hq. eapply (vi_keys _ _ _ _ _ _ Hinv); [done..|]. by rewrite E0.
  - intros e0 _ He0. simplify_eq. done.
  - split; apply Hok1.
  - unfold page_holds, e2. cbn [p_loaded upd_loaded]. fold e2. vm_cbn. rewrite Hl3, Hl2, decide_True by done.
    split; [done|]. cbn. case_decide; [done|]. by destruct Hwh as (? & ? & _).
  - intros pd n Hpd' Hn' Hno. rewrite Hl3, Hl2, decide_False by (try done; by rewrite <-En). done.
  - done.
  - intros y Hy. split; [by apply Hkeep|]. intros Es. by destruct (Hin y Hy) as (_ & _ & ?).
  - done.
  - intros y Hy Hne. unfold memory. cbn. apply Hkeep. by apply Hiff.
  - intros q e0 c0 _ _ _ _ _ Hy. by apply Hlv.
  - intros q e0 Hq [t0 Ho0] He0 Hl0 Ht0 _ Ht2 Eq. unfold e2 in Ht2, Eq. cbn in Ht2, Eq.
    rewrite decide_False in Hwh by done. destruct Hwh as (_ & _ & Hnew). apply Hnew. rewrite <-Eq.
    destruct (vi_pages _ _ _ _ _ _ Hinv _ _ Ho0) as (_ & e0' & pr0 & c0 & He0' & _ & _ & _ & Hh0). simplify_eq.
    unfold page_holds in Hh0. rewrite Hl0, decide_False in Hh0 by done. destruct Hh0 as (_ & _ & Hlv0).
    by apply (list_elem_of_fmap_2' fst _ _ _ Hlv0).
Qed.

(** ** The clock *)

(** The page of [x] has not been used since the clock last passed. *)
Definition idle st x : Prop :=
  ∀ e pr, pages st !! fte_spte x = Some e → processes st !! fte_owner x = Some pr →
    accessed (lookup (mm st) (pagedir pr) (page_no e)) = false.

(** One frame has been given back, its page saved. *)
Definition evicted A st st' : Prop :=
  ∃ live', vm_inv ds own files live' A st' ∧ ¬ exhausted UserPool 1 (mach (mm st')) ∧ aside st st' ∧
    malloc_outcomes st' = malloc_outcomes st ∧ (∀ x, x ∈ frame_table st' → x ∈ frame_table st) ∧
    ∀ q, (∀ x, x ∈ frame_table st → fte_spte x ≠ q) → pages st' !! q = pages st !! q.

(** Only accessed bits have been cleared. *)
Record swept live A st st' : Prop := {
  sw_inv : vm_inv ds own files live A st';
  sw_eq : st' = set_mm (mm st') st;
  sw_cr3 : cr3 (mm st') = cr3 (mm st);
  sw_idle : ∀ x, x ∈ frame_table st → idle st x → idle st' x }.

Lemma swept_trans live A st1 st2 st3 : swept live A st1 st2 → swept live A st2 st3 → swept live A st1 st3.
Proof.
  intros [_ E1 C1 I1] [H3 E2 C2 I2]. split; [done| |congruence|].
  - rewrite E2 at 1. rewrite E1 at 1. done.
  - intros x Hx Hi. apply I2; [by rewrite E1|]. by apply I1.
Qed.

Lemma evicted_swept live A st st1 st' : swept live A st st1 → evicted A st1 st' → evicted A st st'.
Proof. intros [_ E C _] Hev. rewrite E in Hev. destruct Hev as (live' & ? & ? & [? ? ? ? Ec ?] & ? & ? & ?).
  cbn [mm set_mm] in Ec. exists live'. split_and!; try done. split; try done. congruence.
Qed.

(** Clearing the accessed bit of one page. *)
Lemma sweep_ok live A st x e pr :
  vm_inv ds own files live A st → x ∈ frame_table st →
  pages st !! fte_spte x = Some e → processes st !! fte_owner x = Some pr →
  wp (on_mmu (PageDir.Ops.pagedir_set_accessed (pagedir pr) (p_user_vaddr e) false))
    (λ _ st', swept live A st st' ∧ idle st' x) st.
Proof.
  intros Hinv Hx He Hpr. destruct (table_page_holds live A st x Hinv Hx)
    as (e' & pr' & c & Ho & He' & Hpr' & Hpd & HA & Hok & Hl & Hh & _). simplify_eq.
  destruct (entry_page files e Hok) as [Hn _]. pose proof (vi_mmu _ _ _ _ _ _ Hinv) as Hm.
  apply wp_on_mmu. eapply wp_mono; [apply (pagedir_set_accessed_ok ds); [done|done|apply Hok]|].
  fold (page_no e). intros [] s [[Hm' Hch]|[E0 _]].
  2: { unfold page_holds in Hh. rewrite Hl, E0 in Hh. by destruct Hh as [Hh _]. }
  assert (∀ y, y ∈ frame_table st → idle st y ∨ y = x → idle (set_mm s st) y) as Hidle.
  { intros y Hy Hi e' pr' He1 Hpr1. cbn [pages processes set_mm] in He1, Hpr1. vm_cbn. destruct (table_page_holds live A st y Hinv Hy)
      as (e2 & pr2 & c2 & Ho2 & He2 & Hpr2 & Hpd2 & _ & Hok2 & _). simplify_eq.
    rewrite (ch_lookup _ _ _ _ _ _ Hch); [|done|by eapply entry_page]. case_decide; [done|].
    destruct Hi as [Hi| ->]; [by apply Hi|]. simplify_eq. naive_solver. }
  split; [split|by apply Hidle; auto].
  - eapply inv_same; [done| |by split|apply Hinv]. vm_cbn.
    eapply changed_keeps; [apply (mi_space _ _ Hm)|done..|]. intros en. by split_and!.
  - done.
  - apply Hch.
  - auto.
Qed.

Lemma evict_loop_ok live A first before after st :
  vm_inv ds own files live A st → frame_table st = before ++ after → Swap.has_slot (swap_part st) →
  wp (evict_loop first before after) (λ (r : bool) st',
    if r then evicted A st st'
    else swept live A st st' ∧ (∀ x, x ∈ after → idle st' x ∧ ¬ idle st x)) st.
Proof.
  revert before st. induction after as [|x after IH]; intros before st Hinv Eft Hsl; cbn [evict_loop].
  { wp_go. split; [|intros x Hx; by apply elem_of_nil in Hx]. split; [done|by rewrite set_mm_same|done|done]. }
  assert (x ∈ frame_table st) as Hx by (rewrite Eft; set_solver).
  destruct (table_page_holds live A st x Hinv Hx) as (e & pr & c & Ho & He & Hpr & Hpd & HA & Hok & Hl & Hh & _).
  wp_unbind. eapply wp_thread_at; [done|]. wp_unbind. eapply wp_page_at; [done|]. wp_unbind.
  apply wp_on_mmu. eapply (pagedir_is_accessed_ok ds); [apply Hinv|done|apply Hok|]. rewrite set_mm_same.
  fold (page_no e). destruct (accessed (lookup (mm st) (pagedir pr) (page_no e))) eqn:Eacc; cbn [negb].
  - wp_unbind. eapply wp_mono; [by eapply (sweep_ok live A st x)|]. intros [] st1 [Hsw Hid].
    pose proof (sw_eq _ _ _ _ Hsw) as E1.
    eapply wp_mono; [apply (IH (before ++ [x]) st1); [apply Hsw| |]|].
    + by rewrite E1, <-app_assoc.
    + rewrite E1. done.
    + intros [] st2 Hr; [by eapply evicted_swept|]. destruct Hr as [Hsw2 Hall].
      assert (∀ y, y ∈ after → ¬ idle st y) as Hbusy.
      { intros y Hy Hi. destruct (Hall y Hy) as [_ Hn]. apply Hn, (sw_idle _ _ _ _ Hsw); [|done].
        rewrite Eft. set_solver. }
      split; [by eapply swept_trans|]. intros y [->|Hy]%elem_of_cons; [|split; [by apply Hall|by apply Hbusy]].
      split; [apply (sw_idle _ _ _ _ Hsw2); [by rewrite E1|done]|].
      intros Hi. specialize (Hi e pr He Hpr). congruence.
  - wp_assert (destruct (eo_type _ _ Hok) as [(E & _)|E]; rewrite E; by destruct first).
    eapply wp_mono; [by eapply evict_entry_ok|]. intros _ st' (live' & Hinv' & Eft' & Hroom & Has & Hma & Hpg).
    wp_go. exists live'. split_and!; try done.
    + rewrite Eft', Eft. set_solver.
    + intros q Hq. apply Hpg. intros ->. by apply (Hq x).
Qed.

Lemma evict_frame_ok live A st :
  vm_inv ds own files live A st → frame_table st ≠ [] → Swap.has_slot (swap_part st) →
  wp evict_frame (λ r st', r = true ∧ evicted A st st') st.
Proof.
  intros Hinv Hne Hsl. unfold evict_frame. wp_go. rewrite bool_decide_false by done. wp_unbind.
  eapply wp_mono; [by apply (evict_loop_ok live A true [] (frame_table st))|].
  intros [] st1 Hr; [by wp_go|]. destruct Hr as [Hsw Hall]. wp_go. pose proof (sw_eq _ _ _ _ Hsw) as E1.
  eapply wp_mono; [apply (evict_loop_ok live A false [] (frame_table st1)); [apply Hsw|done|by rewrite E1]|].
  intros [] st2 Hr; [split; [done|by eapply evicted_swept]|]. destruct Hr as [_ Hall2].
  destruct (frame_table st) as [|x ft] eqn:Eft; [done|].
  destruct (Hall2 x) as [_ Hno]; [rewrite E1; vm_cbn; rewrite Eft; by left|].
  destruct Hno. apply Hall. by left.
Qed.
End evict.
