(* ===== verification/VmPages.v ===== *)
(** Bringing pages in ([vm/page.c]): a page that is not in memory comes back
    with its contents, and no other page changes. *)
From Stdlib Require Import ZArith Lia.
From stdpp Require Import base tactics option numbers list gmap.
From S2P Require Import Prelude CString Bytes Disk Palloc PageDir PageOps Vm VmInv VmOps.
From S2P Require Bitmap Swap CStdlib.

Open Scope Z_scope.

Section frames.
Context {F : Type} `{FileLaws F}.
Context (ds : gset Z) (own : gmap Z Z) (files : gmap Z bytes).
Implicit Types (st : vm F) (live : list (Z * bytes)) (A : contents).
Import Vm.Ops.

(** There is a frame to be had: a free one, or one to evict. *)
Definition frame_available st : Prop :=
  ¬ exhausted UserPool 1 (mach (mm st)) ∨ (frame_table st ≠ [] ∧ Swap.has_slot (swap_part st)).

(** Pages without a frame are as they were. *)
Definition absent_kept st st' : Prop :=
  ∀ q, (∀ x, x ∈ frame_table st → fte_spte x ≠ q) → pages st' !! q = pages st !! q.

(** [allocate_frame] has found the frame [f] for page [p]: [st1] is the state
    without the new entry of the frame table. *)
Record has_frame live A st flag p f st1 st' : Prop := {
  hf_inv : vm_inv ds own files live A st1;
  hf_eq : st' = set_frame_table (frame_table st1 ++ [mk_fte f (current st) p]) st1;
  hf_frame : upage (mach (mm st1)) f;
  hf_new : ∀ x, x ∈ frame_table st1 → fte_frame x ≠ f;
  hf_sub : ∀ x, x ∈ frame_table st1 → x ∈ frame_table st;
  hf_aside : aside st st1;
  hf_pages : absent_kept st st1;
  hf_zero : zeroed flag (memory st1) f }.

Lemma mm_keeps_refl ft s : mmu_inv ds s → mm_keeps ds ft s s.
Proof. intros Hm. by split. Qed.

Lemma new_frame_keeps ft s f s' : new_frame ds s f s' → mm_keeps ds ft s s'.
Proof.
  intros [Hm (? & ? & _) Hp Hl _ Ho]. split; [done|done|done| |].
  - intros x _. apply Ho.
  - intros pd n Hpd Hn. by rewrite Hl.
Qed.

Lemma freed_frame_keeps ft s f s' : (∀ x, x ∈ ft → fte_frame x ≠ f) → freed_frame ds s f s' → mm_keeps ds ft s s'.
Proof.
  intros Hf [Hm (? & ? & _) Hp Hl _ _ Ho]. split; [done|done|done| |].
  - intros x Hx Hu. apply Ho; auto.
  - intros pd n Hpd Hn. by rewrite Hl.
Qed.

(** A new frame, before it is entered in the table. *)
Definition got_frame live A st flag f st' : Prop :=
  vm_inv ds own files live A st' ∧ upage (mach (mm st')) f ∧ f ≠ NULL ∧
  (∀ x, x ∈ frame_table st' → fte_frame x ≠ f) ∧ (∀ x, x ∈ frame_table st' → x ∈ frame_table st) ∧
  aside st st' ∧ malloc_outcomes st' = malloc_outcomes st ∧ absent_kept st st' ∧
  zeroed flag (memory st') f.

Lemma get_frame_ok live A st flag :
  has_flag flag PAL_USER = true → has_flag flag PAL_ASSERT = false → vm_inv ds own files live A st →
  wp (on_mach (Palloc.Ops.palloc_get_page flag)) (λ f st',
    (f = NULL ∧ st' = st ∧ exhausted UserPool 1 (mach (mm st))) ∨
    got_frame live A st flag f st') st.
Proof.
  intros Hu Ha Hinv. unfold on_mach. apply wp_on_mmu.
  eapply wp_mono; [apply (get_user_frame ds); [done|done|apply Hinv]|].
  intros f s [(-> & -> & Hex)|(Hnn & Hnf & Hz)]; [left; by rewrite set_mm_same|right].
  split; [|split; [apply Hnf|split; [exact Hnn|split; [|split; [auto|split; [split; try done; apply Hnf|split; [done|split; [by intros q|exact Hz]]]]]]]].
  - eapply inv_same; [done|by eapply new_frame_keeps|by split|apply Hinv].
  - intros x Hx E. destruct (vi_table _ _ _ _ _ _ Hinv x Hx) as [Hux _]. rewrite E in Hux.
    destruct (nf_new _ _ _ _ Hnf) as [_ Hno]. exact (Hno Hux).
Qed.

Lemma got_frame_evicted live A st st1 flag f st' :
  evicted ds own files A st st1 → got_frame live A st1 flag f st' → got_frame live A st flag f st'.
Proof.
  intros (live1 & _ & _ & Has & Hma & Hsub & Hpg) (H1 & H2 & H3 & H4 & Hs & Ha & Hm & Hp & Hz).
  split; [exact H1|split; [exact H2|split; [exact H3|split; [exact H4|split; [auto|split; [by etransitivity|]]]]]].
  split; [congruence|]. split; [|exact Hz]. intros q Hq. rewrite Hp; [by apply Hpg|]. auto.
Qed.

Lemma find_frame_ok live A st flag :
  has_flag flag PAL_USER = true → has_flag flag PAL_ASSERT = false → vm_inv ds own files live A st →
  frame_available st →
  wp (frame ← on_mach (Palloc.Ops.palloc_get_page flag);
      if frame =? NULL then
        eviction_success ← evict_frame;
        if eviction_success : bool then on_mach (Palloc.Ops.palloc_get_page flag) else mret frame
      else mret frame)
    (λ f st', ∃ live', got_frame live' A st flag f st') st.
Proof.
  intros Hu Ha Hinv Hav. wp_unbind. eapply wp_mono; [by apply (get_frame_ok live A)|].
  intros f st1 [(-> & -> & Hex)|Hgot].
  - rewrite Z.eqb_refl. destruct Hav as [?|[Hne Hsl]]; [done|]. wp_unbind.
    eapply wp_mono; [by apply (evict_frame_ok ds own files live A)|]. intros r st2 [-> Hev].
    pose proof Hev as (live2 & Hinv2 & Hnex & _). eapply wp_mono; [by apply (get_frame_ok live2 A)|].
    intros f st3 [(_ & _ & ?)|Hgot]; [done|]. exists live2. by eapply got_frame_evicted.
  - pose proof Hgot as (_ & _ & Hnn & _). rewrite (proj2 (Z.eqb_neq _ _) Hnn). wp_go. eauto.
Qed.

Lemma allocate_frame_ok live A st p flag :
  has_flag flag PAL_USER = true → has_flag flag PAL_ASSERT = false → vm_inv ds own files live A st →
  frame_available st →
  wp (allocate_frame p flag) (λ f st', ∃ live',
    (f = NULL ∧ vm_inv ds own files live' A st' ∧ aside st st' ∧ absent_kept st st' ∧
       head (malloc_outcomes st) = Some false) ∨
    (f ≠ NULL ∧ ∃ st1, has_frame live' A st flag p f st1 st')) st.
Proof.
  intros Hu Ha Hinv Hav. unfold allocate_frame. wp_assert (done).
  pose proof (find_frame_ok live A st flag Hu Ha Hinv Hav) as Hff.
  apply (proj1 (wp_bind _ _ _ _)) in Hff. eapply wp_mono; [exact Hff|]. clear Hff.
  intros fr st0 Hff. wp_unbind. eapply wp_mono; [exact Hff|]. clear Hff.
  intros f st1 (live' & Hinv' & Hup & Hnn & Hnew & Hsub & Has & Hma & Hpg & Hz).
  unfold create_frame_table_entry, malloc. wp_go. rewrite Hma.
  destruct (malloc_outcomes st) as [|[] o].
  - wp_go. unfold insert_frame_table. wp_go. exists live'. right. split; [done|]. exists st1.
    split; [done| |done|done|done|done|done|exact Hz]. by rewrite (as_current _ _ Has).
  - wp_go. unfold insert_frame_table. wp_go. exists live'. right. split; [done|].
    exists (set_memory (next_address st1) o st1). split; [| |done|done|done| |done|exact Hz].
    + eapply inv_same; [done|apply mm_keeps_refl, Hinv'|by split|apply Hinv'].
    + vm_cbn. by rewrite (as_current _ _ Has).
    + destruct Has as [? ? ? ? ? ?]. split; assumption.
  - wp_go. exists live'. left. split; [reflexivity|]. split; [|split; [|split; [exact Hpg|reflexivity]]].
    + eapply inv_same; [done|apply mm_keeps_refl, Hinv'|by split|apply Hinv'].
    + destruct Has as [? ? ? ? ? ?]. split; assumption.
Qed.

(** ** Mapping a frame *)

(** Page [n] of [pd] is mapped to [f], whose bytes may have changed; the other
    frames have not. *)
Record maps_frame (s s' : mmu) (pd n f : Z) (w : bool) : Prop := {
  mf_inv : mmu_inv ds s';
  mf_regs : ram_pages s' = ram_pages s ∧ base_page_dir s' = base_page_dir s;
  mf_cr3 : cr3 s' = cr3 s;
  mf_pool : user_pool (mach s') = user_pool (mach s);
  mf_lookup : ∀ pd' n', pd' ∈ ds → 0 ≤ n' < USER_PAGES →
    lookup s' pd' n' = if decide (pd' = pd ∧ n' = n) then mk_entry true f w true false false else lookup s pd' n';
  mf_old : ∀ f', upage (mach s) f' → f' ≠ f →
    Swap.page_of (ram (mach s')) f' = Swap.page_of (ram (mach s)) f' }.

Lemma became_maps s s' pd n f w :
  inv (mach s) → became ds s pd n (λ _, mk_entry true f w true false false) s' → maps_frame s s' pd n f w.
Proof.
  intros Hi [Hm [Hl Hu (? & ? & ?)]]. split; [done|done|done|apply Hu|done|].
  intros f' Hf' _. by apply user_kept_page.
Qed.

(** Filling the frame before it is mapped, and after. *)
Lemma maps_filled_before s m' s' pd n f w :
  mmu_inv ds s → upage (mach s) f → changes_at f 4096 (ram (mach s)) m' →
  maps_frame (set_mach (set_ram m' (mach s)) s) s' pd n f w → maps_frame s s' pd n f w.
Proof.
  intros Hm Hf Hch [Hm' Hr Hc Hp Hl Ho]. destruct (write_user_frame ds s f m' Hm Hf Hch) as (_ & Hl1 & Ho1).
  split; [done|done|done|done| |].
  - intros pd' n' Hpd Hn. rewrite Hl by done. case_decide; [done|]. by apply Hl1.
  - intros f' Hf' Hne. rewrite Ho by done. by apply Ho1.
Qed.

Lemma maps_filled_after s s' m' pd n f w :
  upage (mach s) f → maps_frame s s' pd n f w → changes_at f 4096 (ram (mach s')) m' →
  maps_frame s (set_mach (set_ram m' (mach s')) s') pd n f w.
Proof.
  intros Hf [Hm' Hr Hc Hp Hl Ho] Hch.
  assert (∀ f', upage (mach s) f' ↔ upage (mach s') f') as Hup by (intros f'; unfold upage; by rewrite Hp).
  destruct (write_user_frame ds s' f m' Hm' (proj1 (Hup f) Hf) Hch) as (Hm1 & Hl1 & Ho1).
  split; [done|done|done|done| |].
  - intros pd' n' Hpd Hn. rewrite Hl1 by done. by apply Hl.
  - intros f' Hf' Hne. cbn [mach set_mach ram set_ram]. rewrite Ho1; [by apply Ho|by apply Hup|done].
Qed.

Lemma install_page_ok live A st pr va f w :
  vm_inv ds own files live A st → processes st !! current st = Some pr → 0 ≤ va < PHYS_BASE → va mod 4096 = 0 →
  upage (mach (mm st)) f → present (lookup (mm st) (pagedir pr) (va / 4096)) = false →
  ∀ ft, wp (install_page va f w) (λ (r : bool) st',
    if r then ∃ s', st' = set_mm s' (set_frame_table ft st) ∧ maps_frame (mm st) s' (pagedir pr) (va / 4096) f w ∧
      user_kept (mach (mm st)) (mach s')
    else st' = set_frame_table ft st ∧ exhausted KernelPool 1 (mach (mm st))) (set_frame_table ft st).
Proof.
  intros Hinv Hpr Hva Hal Hf Hnp ft. unfold install_page. wp_unbind. eapply wp_running; [done|].
  destruct (vi_procs _ _ _ _ _ _ Hinv _ _ Hpr) as (Hpd & Hnb & _). pose proof (vi_mmu _ _ _ _ _ _ Hinv) as Hm.
  pose proof (si_inv _ _ (mi_space _ _ Hm)) as Hi.
  destruct (upage_facts _ _ Hi Hf) as (Hfa & Hfl & Hfe & _ & H32 & _).
  wp_unbind. apply wp_on_mmu. vm_cbn. eapply (pagedir_get_page_ok ds); [done..|]. rewrite Hnp, Z.eqb_refl.
  apply wp_on_mmu. vm_cbn. eapply wp_mono; [apply (pagedir_set_page_ok ds); try done|].
  - lia.
  - pose proof (vi_room _ _ _ _ _ _ Hinv). unfold PHYS_BASE in *.
    apply Z.div_lt_upper_bound; lia.
  - intros [] s' Hs'.
    + exists s'. split; [done|]. split; [by apply became_maps|apply Hs'].
    + by destruct Hs' as [-> ?].
Qed.

(** The page is in memory: the invariant with the new entry of the frame table. *)
Lemma page_loaded live live' A st st' p t pr e e' f c :
  vm_inv ds own files live A st → own !! p = Some t → pages st !! p = Some e → p_loaded e = false →
  processes st !! t = Some pr → A !! (t, page_no e) = Some c →
  upage (mach (mm st)) f → (∀ x, x ∈ frame_table st → fte_frame x ≠ f) →
  maps_frame (mm st) (mm st') (pagedir pr) (page_no e) f (p_writable e') →
  Swap.page_of (memory st') f = c →
  frame_table st' = frame_table st ++ [mk_fte f t p] → processes st' = processes st →
  next_address st' = next_address st → pages st' = <[p := e']> (pages st) → shows (filesys st') files →
  Swap.swap_wf (swap_part st') ∧ Swap.holds live' (swap_part st') →
  (∀ q e0 c0, q ≠ p → is_Some (own !! q) → pages st !! q = Some e0 → p_loaded e0 = false →
    p_file_type e0 ≠ TYPE_FILE → (u32 (p_swap_num e0), c0) ∈ live → (u32 (p_swap_num e0), c0) ∈ live') →
  p_user_vaddr e' = p_user_vaddr e → entry_ok files e' → p_loaded e' = true →
  (p_file_type e' = TYPE_FILE → c = file_page files e') →
  vm_inv ds own files live' A st'.
Proof.
  intros Hinv Ho He Hl Hpr HA Hf Hnew [Hm' [Er Eb] _ Ep Hlk Hold] Hc Eft Epr En Epg Hsh Hsw Hlive Ead Hok' Hl' Hcl.
  assert (page_no e' = page_no e) as Eno by (by apply page_no_addr).
  rewrite <-(insert_id own p t), <-(insert_id A (t, page_no e) c), <-Eno by done.
  destruct (entry_page files e' Hok') as [Hn _]. destruct (vi_procs _ _ _ _ _ _ Hinv _ _ Hpr) as (Hpd & _).
  assert (∀ x, x ∈ frame_table st → fte_spte x ≠ p) as Hnp.
  { intros x Hx <-. destruct (vi_table _ _ _ _ _ _ Hinv x Hx) as (_ & e0 & _ & _ & He0 & Hl0 & _). congruence. }
  assert (∀ f', upage (mach (mm st)) f' → upage (mach (mm st')) f') as Hup by (intros f'; unfold upage; by rewrite Ep).
  eapply (inv_update ds own files live live' A st st' p t pr e' c Hinv). rewrite <-Eno in Hlk. split.
  - done.
  - rewrite Ep, Er. apply Hinv.
  - done.
  - done.
  - done.
  - by eapply procs_same.
  - done.
  - by right.
  - rewrite En. destruct (vi_pages _ _ _ _ _ _ Hinv _ _ Ho) as [? _]. lia.
  - rewrite Epg. apply lookup_insert_eq.
  - intros q Hq _. rewrite Epg. by apply lookup_insert_ne.
  - intros q e0 Hq Ho0 He0 E0. apply Hq. eapply (vi_keys _ _ _ _ _ _ Hinv); [done..|]. by rewrite E0.
  - intros e0 _ He0. by simplify_eq.
  - done.
  - unfold page_holds. rewrite Hl', Hlk, decide_True by done. cbn [present frame writable user dirty].
    split; [done|]. split; [rewrite Eft; set_solver|]. split; [done|]. auto.
  - intros pd n Hpd' Hn' Hno. by rewrite Hlk, decide_False by done.
  - rewrite Eft, fmap_app. apply NoDup_app. split; [apply Hinv|]. split; [|apply NoDup_singleton].
    intros f' (x & -> & Hx)%list_elem_of_fmap Hf'%list_elem_of_singleton. by apply (Hnew x).
  - rewrite Eft. intros x [Hx|Hx]%elem_of_app.
    + split; [by apply Hup, (vi_table _ _ _ _ _ _ Hinv x Hx)|]. intros E. by destruct (Hnp x).
    + apply list_elem_of_singleton in Hx as ->. split; [by apply Hup|]. intros _. by rewrite Hlk, decide_True.
  - intros x Hx. rewrite Eft. split; [|set_solver]. intros [?|E%list_elem_of_singleton]%elem_of_app; [done|by subst x].
  - intros x Hx _. apply Hold; [by apply (vi_table _ _ _ _ _ _ Hinv)|by apply Hnew].
  - done.
  - intros q e0 _ _ _ _ _ Hl0. congruence.
Qed.

(** The frame given back when the page cannot be mapped. *)
Lemma drop_frame_ok live A st p t f :
  vm_inv ds own files live A st → upage (mach (mm st)) f → (∀ x, x ∈ frame_table st → fte_frame x ≠ f) →
  wp (free_frame f) (λ _ st', vm_inv ds own files live A st' ∧
      ∃ s', st' = set_mm s' st ∧ kernel_pool (mach s') = kernel_pool (mach (mm st)) ∧ cr3 s' = cr3 (mm st))
    (set_frame_table (frame_table st ++ [mk_fte f t p]) st).
Proof.
  intros Hinv Hf Hnew. unfold free_frame. wp_go. vm_cbn.
  enough (∀ l b, (∀ x, x ∈ l → fte_frame x ≠ f) → b ++ l = frame_table st →
    wp (free_frame_loop f b (l ++ [mk_fte f t p])) (λ _ st', vm_inv ds own files live A st' ∧
      ∃ s', st' = set_mm s' st ∧ kernel_pool (mach s') = kernel_pool (mach (mm st)) ∧ cr3 s' = cr3 (mm st))
      (set_frame_table (frame_table st ++ [mk_fte f t p]) st)) as Hloop by (by apply (Hloop (frame_table st) [])).
  induction l as [|x l IH]; intros b Hl Eb; cbn [app free_frame_loop].
  - cbn [fte_frame]. rewrite Z.eqb_refl. wp_go. unfold on_mach. apply wp_on_mmu. vm_cbn.
    eapply wp_mono; [apply (free_user_frame ds); [apply Hinv|done]|]. intros [] s Hs.
    rewrite app_nil_r in *. subst b. assert (∀ s, set_mm s (set_frame_table (frame_table st) (set_frame_table
      (frame_table st ++ [mk_fte f t p]) st)) = set_mm s st) as E by (intros; by destruct st).
    rewrite E. split; [|exists s; split; [done|split; apply Hs]].
    eapply inv_same; [done|by eapply freed_frame_keeps|by split|apply Hinv].
  - rewrite (proj2 (Z.eqb_neq _ _)) by (apply Hl; by left).
    apply IH; [intros y Hy; apply Hl; by right|]. by rewrite <-app_assoc.
Qed.

(** ** Filling a frame *)
Definition with_memory (m : mem) st : vm F := set_mm (set_mach (set_ram m (mach (mm st))) (mm st)) st.

Lemma wp_on_ram {B : Type} (m : M mem B) st Q :
  wp m (λ a m', Q a (with_memory m' st)) (memory st) → wp (on_ram m) Q st.
Proof.
  intros Hm. unfold on_ram, on_mach. apply wp_on_mmu. unfold PageDir.Ops.on_mach, Palloc.Ops.on_ram.
  by apply wp_zoom, wp_zoom.
Qed.

Lemma splice_whole (b d : bytes) : length d = length b → splice b 0 d = d.
Proof. intros E. unfold splice. simpl. rewrite drop_ge by lia. apply app_nil_r. Qed.

(** The read fills the first [size] bytes of the frame. *)
Lemma read_into_ok st fp f size ofs c :
  shows (filesys st) files → files !! fp = Some c → 0 ≤ size ≤ 4096 → 0 ≤ ofs →
  ofs + size ≤ Z.of_nat (length c) → Swap.has_page (memory st) f →
  wp (read_into fp f size ofs) (λ n st', n = size ∧ ∃ m' fs', shows fs' files ∧
    st' = set_filesys fs' (with_memory m' st) ∧
    block m' f (slice c ofs size) ∧ changes_at f size (memory st) m') st.
Proof.
  intros Hsh Hfp Hsz Hofs Hle Hp. unfold read_into. wp_unbind. apply wp_on_ram.
  set (b := bytes_of (memory st) f (Z.to_nat size)).
  assert (length b = Z.to_nat size) as Hlb by apply length_bytes_of.
  eapply wp_mono; [apply (CStdlib.load_block_ok (memory st) f b)|].
  { apply block_bytes_of. intros y Hy. apply Hp. lia. }
  { done. }
  intros r m [-> ->]. unfold on_files. wp_unbind. apply wp_zoom.
  eapply wp_mono; [apply (file_read_at_shows _ files fp c b size ofs); [done..|lia]|].
  intros [n b'] fs' (En & Eb & Hsh'). simpl in En, Eb. assert (n = size) as -> by lia.
  assert (length (slice c ofs size) = Z.to_nat size) as Hls by (rewrite length_slice; lia).
  rewrite splice_whole in Eb by lia. subst b'. wp_unbind. apply wp_on_ram.
  eapply wp_mono; [apply Swap.store_block_ok|].
  { rewrite Hls, Z2Nat.id by lia. intros y Hy. unfold memory. cbn. apply Hp. lia. }
  rewrite Hls, Z2Nat.id by lia. intros [] m' [Hblk Hch]. wp_go. split; [done|].
  exists m', fs'. split_and!; [done| |done|done]. unfold with_memory. cbn. by destruct (mm st) as [[]].
Qed.

Lemma has_file_length e : has_file files e → length (file_page files e) = Z.to_nat 4096.
Proof.
  intros (c & Ec & ? & ? & ? & ? & ?). unfold file_page. rewrite Ec. cbn [default from_option id].
  rewrite length_app, length_replicate, length_slice by lia. lia.
Qed.

(** A page of its file: the bytes read and zeros after them. *)
Lemma fill_frame_ok st f e :
  has_file files e → 0 < p_read_bytes e → shows (filesys st) files → upage (mach (mm st)) f → inv (mach (mm st)) →
  wp (temp ← read_into (p_file e) f (s32 (p_read_bytes e)) (p_offset e);
      if negb (temp =? s32 (p_read_bytes e)) then free_frame f;; panic else
      on_ram (CString.Ops.memset (f + p_read_bytes e) 0 (p_zero_bytes e));;
      mret tt)
    (λ _ st', ∃ m' fs', shows fs' files ∧ st' = set_filesys fs' (with_memory m' st) ∧
      Swap.page_of m' f = file_page files e ∧ changes_at f 4096 (memory st) m') st.
Proof.
  intros Hf Hrb Hsh Hu Hi. pose proof (has_file_length e Hf) as Hlen.
  destruct Hf as (c & Ec & Ho & _ & Hz & Hsum & Hle).
  destruct (upage_facts _ _ Hi Hu) as (_ & Hlo & _ & _ & _ & Hp & _).
  rewrite s32_id by (unfold is_s32; lia). wp_unbind.
  eapply wp_mono; [by apply (read_into_ok st _ f _ _ c); [..|lia|lia|lia|]|].
  intros n st1 (-> & m1 & fs' & Hsh' & -> & Hb1 & Hch1). rewrite Z.eqb_refl. cbn [negb]. wp_unbind. apply wp_on_ram.
  assert (Swap.has_page m1 f) as Hp1 by (intros y Hy; eapply changes_mem; [done|by apply Hp]).
  eapply wp_mono; [apply memset_ok|].
  { unfold PHYS_BASE in Hlo. lia. }
  { done. }
  { intros y Hy. apply Hp1. lia. }
  intros r m' (_ & Hb2 & Hch2). wp_go. exists m', fs'. split; [done|].
  split; [unfold with_memory; cbn; by destruct (mm st) as [[]]|].
  change (memory (set_filesys fs' (with_memory m1 st))) with m1 in Hch2. split.
  - apply Swap.Swapping.page_of_block; [|done]. unfold file_page. rewrite Ec. cbn [default from_option id].
    assert (length (slice c (p_offset e) (p_read_bytes e)) = Z.to_nat (p_read_bytes e)) as Hls
      by (rewrite length_slice; lia).
    apply block_app. split; [|by rewrite Hls, Z2Nat.id by lia].
    eapply block_changes; [done| |done]. rewrite Hls. lia.
  - split.
    + intros y Hy. rewrite (proj1 Hch2), (proj1 Hch1) by lia. done.
    + by rewrite (proj2 Hch2), (proj2 Hch1).
Qed.

Lemma filled_inv live A st f m' fs' :
  vm_inv ds own files live A st → upage (mach (mm st)) f → (∀ x, x ∈ frame_table st → fte_frame x ≠ f) →
  changes_at f 4096 (memory st) m' → shows fs' files →
  vm_inv ds own files live A (set_filesys fs' (with_memory m' st)).
Proof.
  intros Hinv Hu Hnew Hch Hsh. eapply inv_same; [done| |by split|done].
  destruct (write_user_frame ds (mm st) f m' (vi_mmu _ _ _ _ _ _ Hinv) Hu Hch) as (Hm & Hl & Ho).
  split; [done|done|done| |].
  - intros x Hx Hux. split; [done|]. apply Ho; auto.
  - intros pd n Hpd Hn. unfold with_memory. vm_cbn. by rewrite Hl.
Qed.

(** ** Handling a fault on a page *)

(** The page is there now; or, when it is not, [why], or there was no page for
    a page table.  All pages hold what they held. *)
Definition handled (why : Prop) A st pr e (r : bool) st' : Prop :=
  ∃ live', vm_inv ds own files live' A st' ∧ processes st' = processes st ∧ current st' = current st ∧
    lock_frame st' = lock_frame st ∧ cr3 (mm st') = cr3 (mm st) ∧
    if r then present (lookup (mm st') (pagedir pr) (page_no e)) = true
    else why ∨ exhausted KernelPool 1 (mach (mm st')).

(** The entry of the frame table cannot be allocated. *)
Definition no_malloc st : Prop := head (malloc_outcomes st) = Some false.

(** The page of the faulting process that has to be brought in. *)
Record faulting live A st p pr e c : Prop := {
  fa_inv : vm_inv ds own files live A st;
  fa_thread : processes st !! current st = Some pr;
  fa_own : own !! p = Some (current st);
  fa_page : pages st !! p = Some e;
  fa_absent : p_loaded e = false;
  fa_entry : entry_ok files e;
  fa_contents : A !! (current st, page_no e) = Some c;
  fa_holds : page_holds st files live p (current st) pr e c }.

(** It has no frame. *)
Lemma faulting_absent live A st p pr e c : faulting live A st p pr e c → ∀ x, x ∈ frame_table st → fte_spte x ≠ p.
Proof.
  intros Hfa x Hx <-. destruct (vi_table _ _ _ _ _ _ (fa_inv _ _ _ _ _ _ _ Hfa) x Hx) as (_ & e0 & _ & _ & He0 & Hl0 & _).
  rewrite (fa_page _ _ _ _ _ _ _ Hfa) in He0. simplify_eq. pose proof (fa_absent _ _ _ _ _ _ _ Hfa). congruence.
Qed.

(** It is still the faulting page after a frame has been found for it. *)
Lemma faulting_aside live live1 A st st1 p pr e c :
  faulting live A st p pr e c → vm_inv ds own files live1 A st1 → aside st st1 → absent_kept st st1 →
  faulting live1 A st1 p pr e c.
Proof.
  intros Hfa Hinv1 Has Hpg. pose proof (faulting_absent _ _ _ _ _ _ _ Hfa) as Hab.
  destruct Hfa as [Hinv Hpr Ho He Hl Hok HA Hh]. destruct Has as [Ep Ec _ _ _ _].
  assert (pages st1 !! p = Some e) as He1 by (by rewrite Hpg).
  split; rewrite ?Ep, ?Ec; try done.
  destruct (vi_pages _ _ _ _ _ _ Hinv1 _ _ Ho) as (_ & e1 & pr1 & c1 & He1' & Hpr1 & HA1 & _ & Hh1).
  rewrite Ep in Hpr1. by simplify_eq.
Qed.

Lemma faulting_unmapped live A st p pr e c :
  faulting live A st p pr e c → present (lookup (mm st) (pagedir pr) (page_no e)) = false.
Proof.
  intros [_ _ _ _ Hl _ _ Hh]. unfold page_holds in Hh. rewrite Hl in Hh. by destruct Hh.
Qed.

(** The frame cannot be mapped, and is given back. *)
Lemma unmapped_ok live A st p f :
  vm_inv ds own files live A st → upage (mach (mm st)) f → (∀ x, x ∈ frame_table st → fte_frame x ≠ f) →
  exhausted KernelPool 1 (mach (mm st)) →
  ∀ (Q : bool → vm F → Prop), (∀ st', vm_inv ds own files live A st' → (∃ s', st' = set_mm s' st ∧ cr3 s' = cr3 (mm st)) →
    exhausted KernelPool 1 (mach (mm st')) → Q false st') →
  wp (free_frame f;; mret false) Q (set_frame_table (frame_table st ++ [mk_fte f (current st) p]) st).
Proof.
  intros Hinv Hu Hnew Hex Q HQ. wp_unbind. eapply wp_mono; [by apply (drop_frame_ok live A)|].
  intros [] st' (Hinv' & s' & -> & Ek & E3). wp_go. apply HQ; [done|by eexists|]. vm_cbn.
  unfold exhausted in *. simpl in *. by rewrite Ek.
Qed.

Lemma map_file_page live A st p pr e c f :
  faulting live A st p pr e c → p_file_type e = TYPE_FILE → upage (mach (mm st)) f →
  (∀ x, x ∈ frame_table st → fte_frame x ≠ f) → Swap.page_of (memory st) f = c →
  wp (success ← install_page (p_user_vaddr e) f (p_writable e);
      if negb success then free_frame f;; mret false else
      page_set p (upd_loaded true);;
      mret true)
    (handled False A st pr e) (set_frame_table (frame_table st ++ [mk_fte f (current st) p]) st).
Proof.
  intros Hfa Hty Hu Hnew Hc. pose proof (faulting_unmapped _ _ _ _ _ _ _ Hfa) as Hnp.
  destruct Hfa as [Hinv Hpr Ho He Hl Hok HA Hh]. wp_unbind.
  eapply wp_mono; [eapply (install_page_ok live A); [done|done|apply Hok|apply Hok|done|done]|].
  intros [] st' Hr; cbn [negb].
  - destruct Hr as (s' & -> & Hmf & Huk). wp_unbind. eapply wp_page_set; [exact He|]. wp_go. vm_cbn.
    unfold page_holds in Hh. rewrite Hl, decide_True in Hh by done. destruct Hh as [_ Hfp].
    exists live. split; [|split; [done|split; [done|split; [done|split; [apply Hmf|]]]]].
    + eapply (page_loaded live live A st _ p (current st) pr e (upd_loaded true e) f c Hinv Ho He Hl Hpr HA Hu Hnew);
        [exact Hmf| |done|done|done|done|apply Hinv| |done|done| |done|done].
      * rewrite <-Hc. unfold memory. vm_cbn. eapply user_kept_page; [|done|done].
        apply (mi_space _ _ (vi_mmu _ _ _ _ _ _ Hinv)).
      * eapply (swap_same live (swap_part st)); [done|done|apply Hinv].
      * split; apply Hok.
    + vm_cbn. rewrite (mf_lookup _ _ _ _ _ _ Hmf), decide_True; [done|done| |].
      * by apply (vi_procs _ _ _ _ _ _ Hinv _ _ Hpr).
      * by apply (entry_page files).
  - destruct Hr as [-> Hex]. eapply (unmapped_ok live A); [done..|]. intros st' Hinv' (s' & -> & Es) Hex'.
    exists live. split; [done|]. split; [done|]. split; [done|]. split; [done|]. split; [done|]. by right.
Qed.

Lemma handled_aside (why : Prop) A st st1 pr e r st' :
  processes st1 = processes st → current st1 = current st → lock_frame st1 = lock_frame st → cr3 (mm st1) = cr3 (mm st) →
  handled False A st1 pr e r st' → handled why A st pr e r st'.
Proof.
  intros Ep Ec El E0 (live' & Hinv & E1 & E2 & E3 & E4 & Hr). exists live'.
  split; [done|]. split; [congruence|]. split; [congruence|]. split; [congruence|]. split; [congruence|].
  destruct r; [done|]. destruct Hr as [[]|?]. by right.
Qed.

(** No memory for the entry of the frame table. *)
Lemma handled_no_malloc live A st pr e st' :
  vm_inv ds own files live A st' → aside st st' → no_malloc st → handled (no_malloc st) A st pr e false st'.
Proof.
  intros Hinv [Ep Ec El _ E3 _] Hma. exists live. split; [exact Hinv|]. split; [exact Ep|]. split; [exact Ec|].
  split; [exact El|]. split; [exact E3|]. by left.
Qed.

(** The frame holds the page; it is mapped. *)
Lemma map_filled live A st st1 p pr e c f m' fs' :
  faulting live A st1 p pr e c → p_file_type e = TYPE_FILE → upage (mach (mm st1)) f →
  (∀ x, x ∈ frame_table st1 → fte_frame x ≠ f) → aside st st1 →
  shows fs' files → changes_at f 4096 (memory st1) m' → Swap.page_of m' f = c →
  wp (success ← install_page (p_user_vaddr e) f (p_writable e);
      if negb success then free_frame f;; mret false else page_set p (upd_loaded true);; mret true)
    (handled (no_malloc st) A st pr e)
    (set_filesys fs' (with_memory m' (set_frame_table (frame_table st1 ++ [mk_fte f (current st) p]) st1))).
Proof.
  intros Hfa1 Hty Hu Hnew Has Hsh Hch Hpc. set (st2 := set_filesys fs' (with_memory m' st1)).
  pose proof (fa_inv _ _ _ _ _ _ _ Hfa1) as Hinv1.
  assert (faulting live A st2 p pr e c) as Hfa2.
  { destruct Hfa1 as [? Hpr Ho He Hl ? HA Hh]. split; try done.
    - by eapply filled_inv.
    - unfold page_holds in *. rewrite Hl in *. destruct Hh as [Hnp Hh]. split; [|done].
      destruct (write_user_frame ds (mm st1) f m' (vi_mmu _ _ _ _ _ _ Hinv1) Hu Hch) as (_ & Hl2 & _).
      unfold st2, with_memory. vm_cbn. rewrite Hl2; [done| |by eapply entry_page].
      by apply (vi_procs _ _ _ _ _ _ Hinv1 _ _ Hpr). }
  destruct Has as [Ep Ec El _ E3 _]. rewrite <-Ec.
  eapply wp_mono; [exact (map_file_page live A st2 p pr e c f Hfa2 Hty Hu Hnew Hpc)|].
  intros r st'. by apply handled_aside.
Qed.

Lemma file_handling_ok live A st p pr e c :
  faulting live A st p pr e c → p_file_type e = TYPE_FILE → frame_available st →
  wp (file_handling p) (handled (no_malloc st) A st pr e) st.
Proof.
  intros Hfa Hty Hav. pose proof (fa_entry _ _ _ _ _ _ _ Hfa) as Hok.
  destruct (eo_type _ _ Hok) as [(_ & Hf & _)|Hsw]; [|rewrite Hty in Hsw; discriminate Hsw].
  pose proof Hf as (cf & Ecf & _ & Hrb & Hzb & Hsum & _).
  assert (file_page files e = c) as Hc.
  { pose proof (fa_holds _ _ _ _ _ _ _ Hfa) as Hh. unfold page_holds in Hh.
    rewrite (fa_absent _ _ _ _ _ _ _ Hfa), decide_True in Hh by done. by destruct Hh. }
  unfold file_handling. wp_unbind. eapply wp_page_at; [apply Hfa|]. wp_unbind.
  eapply wp_mono; [apply (allocate_frame_ok live A); [by destruct (p_read_bytes e =? 0)..|apply Hfa|done]|].
  intros f st0 (live1 & [(-> & Hinv1 & Has & Hpg & Hma)|(Hnn & st1 & [Hinv1 -> Hu Hnew Hsub Has Hpg Hz])]).
  { rewrite Z.eqb_refl. wp_go. by eapply handled_no_malloc. }
  rewrite (proj2 (Z.eqb_neq _ _) Hnn). pose proof (faulting_aside _ _ _ _ _ _ _ _ _ Hfa Hinv1 Has Hpg) as Hfa1.
  wp_unbind. eapply wp_page_at; [apply Hfa1|]. wp_unbind. pose proof (vi_mmu _ _ _ _ _ _ Hinv1) as Hm1.
  destruct (Z.ltb_spec 0 (p_read_bytes e)).
  - eapply wp_mono; [apply (fill_frame_ok _ f e); [done|done|apply Hinv1|done|apply (mi_space _ _ Hm1)]|].
    intros [] st2 (m' & fs' & Hsh & -> & Hpc & Hch). eapply (map_filled live1 A st); try done. congruence.
  - apply (proj2 (wp_ret _ _ _)). cbn beta. assert (p_read_bytes e = 0) as E0 by lia. rewrite E0 in Hz.
    assert (set_filesys (filesys st1) (with_memory (memory st1)
      (set_frame_table (frame_table st1 ++ [mk_fte f (current st) p]) st1)) =
      set_frame_table (frame_table st1 ++ [mk_fte f (current st) p]) st1) as <-.
    { by destruct st1 as [[[]]]. }
    eapply (map_filled live1 A st); try done; [apply Hinv1|]. rewrite <-Hc, (zeroed_page _ _ _ Hz) by done. symmetry.
    unfold file_page. rewrite E0. assert (p_zero_bytes e = 4096) as -> by lia.
    unfold slice. rewrite take_0. done.
Qed.

(** A page that is out on the swap disk comes back into the frame [f]. *)
Lemma swap_back_ok live A st p pr e c s' f n :
  faulting live A st p pr e c → p_file_type e ≠ TYPE_FILE → n = u32 (p_swap_num e) →
  upage (mach (mm st)) f → (∀ x, x ∈ frame_table st → fte_frame x ≠ f) →
  maps_frame (mm st) s' (pagedir pr) (page_no e) f (p_writable e) →
  wp (on_swap (Swap.Ops.swap_in f n);;
      page_set p (upd_is_swapped false);;
      page_set p (upd_loaded true);;
      mret true)
    (handled False A st pr e)
    (set_mm s' (set_frame_table (frame_table st ++ [mk_fte f (current st) p]) st)).
Proof.
  intros Hfa Hty -> Hu Hnew Hmf. pose proof Hfa as [Hinv Hpr Ho He Hl Hok HA Hh].
  unfold page_holds in Hh. rewrite Hl, decide_False in Hh by done. destruct Hh as (_ & _ & Hin).
  apply list_elem_of_lookup in Hin as [k Hk]. destruct (vi_swap _ _ _ _ _ _ Hinv) as [Hw Hho].
  assert (upage (mach s') f) as Hu' by (unfold upage; by rewrite (mf_pool _ _ _ _ _ _ Hmf)).
  destruct (upage_facts (mach s') f) as (_ & _ & _ & _ & _ & Hp & _);
    [apply (mi_space _ _ (mf_inv _ _ _ _ _ _ Hmf))|done|].
  wp_unbind. unfold on_swap. apply wp_zoom. vm_cbn.
  destruct (swap_same live (swap_part st) (Swap.mk_swap (ram (mach s')) (swap_device st) (swap_table st)))
    as [Hw' Hho']; [done|done|done|].
  eapply wp_mono; [by apply (Swap.swap_in_ok live _ f k _ c)|]. cbn [Swap.ram].
  intros _ w (_ & Hw2 & Hh2 & Hblk & Hch & _). wp_unbind. eapply wp_page_set; [exact He|]. vm_cbn.
  wp_unbind. eapply wp_page_set; [vm_cbn; apply lookup_insert_eq|]. wp_go. vm_cbn. rewrite insert_insert_eq.
  set (e' := upd_loaded true (upd_is_swapped false e)).
  assert (length c = Z.to_nat 4096) as Hlc.
  { destruct (Swap.h_slot _ _ Hho (u32 (p_swap_num e)) c) as (i & _ & _ & _ & <-); [by eapply list_elem_of_lookup_2|].
    unfold Swap.slot_bytes. rewrite Swap.sectors_length by apply Hw. lia. }
  pose proof (maps_filled_after _ _ (Swap.ram w) _ _ _ _ Hu Hmf Hch) as Hmf'.
  exists (delete k live). split; [|split; [done|split; [done|split; [done|split; [apply Hmf|]]]]].
  - eapply (page_loaded live (delete k live) A st _ p (current st) pr e e' f c Hinv Ho He Hl Hpr HA Hu Hnew);
      [exact Hmf'| |done|done|done|done|apply Hinv| | |done| |done|done].
    + unfold memory. vm_cbn. by apply Swap.Swapping.page_of_block.
    + eapply (swap_same (delete k live) w); [done|done|done].
    + intros q e0 c0 Hq [t0 Ho0] He0 Hl0 Ht0 Hin0. apply list_elem_of_lookup in Hin0 as [j Hj].
      eapply elem_of_delete_2; [exact Hj|]. intros ->. rewrite Hk in Hj. simplify_eq. apply Hq.
      eapply (vi_slots _ _ _ _ _ _ Hinv); eauto.
    + split; [apply Hok|apply Hok|]. right. destruct (eo_type _ _ Hok) as [(? & _)|?]; done.
  - vm_cbn. rewrite (mf_lookup _ _ _ _ _ _ Hmf'), decide_True; [done|done| |by eapply entry_page].
    by apply (vi_procs _ _ _ _ _ _ Hinv _ _ Hpr).
Qed.

Lemma swap_handling_ok live A st p pr e c :
  faulting live A st p pr e c → p_file_type e ≠ TYPE_FILE → frame_available st →
  wp (swap_handling p) (handled (no_malloc st) A st pr e) st.
Proof.
  intros Hfa Hty Hav. pose proof (fa_entry _ _ _ _ _ _ _ Hfa) as Hok.
  unfold swap_handling. wp_unbind.
  eapply wp_mono; [apply (allocate_frame_ok live A); [done|done|apply Hfa|done]|].
  intros f st0 (live1 & [(-> & Hinv1 & Has & Hpg & Hma)|(Hnn & st1 & [Hinv1 -> Hu Hnew Hsub Has Hpg Hz])]).
  { rewrite Z.eqb_refl. wp_go. by eapply handled_no_malloc. }
  rewrite (proj2 (Z.eqb_neq _ _) Hnn). pose proof (faulting_aside _ _ _ _ _ _ _ _ _ Hfa Hinv1 Has Hpg) as Hfa1.
  wp_unbind. eapply wp_page_at; [apply Hfa1|]. wp_unbind. pose proof Has as [Ep Ec El _ E3 _]. rewrite <-Ec.
  eapply wp_mono; [eapply (install_page_ok live1 A); [done|apply Hfa1|apply Hok|apply Hok|done|]|].
  { by eapply faulting_unmapped. }
  intros [] st' Hr; cbn [negb].
  - destruct Hr as (s' & -> & Hmf & _). pose proof (fa_holds _ _ _ _ _ _ _ Hfa1) as Hh.
    unfold page_holds in Hh. rewrite (fa_absent _ _ _ _ _ _ _ Hfa1), decide_False in Hh by done.
    destruct Hh as (_ & -> & _).
    pose proof (swap_back_ok live1 A st1 p pr e c s' f _ Hfa1 Hty eq_refl Hu Hnew Hmf) as Hb.
    apply (proj1 (wp_bind _ _ _ _)) in Hb. wp_unbind. eapply wp_mono; [exact Hb|]. intros r0 st2 Hb2. apply (proj2 (wp_ret _ _ _)). cbn beta.
    eapply wp_mono; [exact Hb2|]. intros r st3. by apply handled_aside.
  - destruct Hr as [-> Hex]. eapply (unmapped_ok live1 A); [done..|]. intros st' Hinv' (s' & -> & Es) Hex'.
    exists live1. split; [done|]. split; [done|]. split; [done|]. split; [done|]. split; [vm_cbn; congruence|]. by right.
Qed.

Lemma page_handling_ok live A st p pr e c :
  faulting live A st p pr e c → frame_available st → lock_frame st = false →
  wp (page_handling p) (λ r st', handled (no_malloc st) A st pr e r st' ∧ lock_frame st' = false) st.
Proof.
  intros Hfa Hav Hlk. unfold page_handling, lock_acquire, lock_release. wp_assert (by rewrite Hlk).
  set (st1 := set_lock true st).
  assert (faulting live A st1 p pr e c) as Hfa1.
  { destruct Hfa as [Hinv ? ? ? ? ? ? ?]. split; try done.
    eapply inv_same; [done|apply mm_keeps_refl, Hinv|by split|apply Hinv]. }
  eapply wp_page_at; [apply Hfa1|]. wp_unbind. rewrite (fa_absent _ _ _ _ _ _ _ Hfa1).
  assert (wp (if p_file_type e =? TYPE_FILE then file_handling p
              else if p_file_type e =? TYPE_MMAP then file_handling p
              else if p_file_type e =? TYPE_SWAP then swap_handling p
              else undef) (handled (no_malloc st1) A st1 pr e) st1) as Hwp.
  { destruct (eo_type _ _ (fa_entry _ _ _ _ _ _ _ Hfa)) as [(E & _)|E]; rewrite E; cbn.
    - by eapply file_handling_ok.
    - eapply swap_handling_ok; [done|by rewrite E|done]. }
  eapply wp_mono; [exact Hwp|]. intros r st2 (live' & Hinv' & Ep & Ec & El & E3 & Hr). wp_assert (done).
  split; [|done]. exists live'. split; [|split; [done|split; [done|split; [done|split; [done|done]]]]].
  eapply inv_same; [done|apply mm_keeps_refl, Hinv'|by split|apply Hinv'].
Qed.
End frames.
