(* ===== verification/VmStore.v ===== *)
(** Writing to a page that is in memory. *)
From Stdlib Require Import ZArith Lia.
From stdpp Require Import base tactics option numbers list gmap.
From S2P Require Import Prelude CString Bytes Disk Palloc PageDir PageOps Vm VmInv VmOps VmPages.
From S2P Require Bitmap Swap.

Open Scope Z_scope.

(** * A byte of a page *)
Lemma page_of_lookup (m : mem) f k : Swap.has_page m f → 0 ≤ k < 4096 →
  m !! (f + k) = Some (byte_at (Swap.page_of m f) k).
Proof.
  intros Hp Hk. unfold Swap.page_of, bytes_of, byte_at. destruct (Hp (f + k)) as [b Hb]; [lia|].
  rewrite list_lookup_total_alt, list_lookup_fmap, lookup_seq_lt by lia. cbn [fmap option_fmap option_map].
  rewrite Nat.add_0_l, Z2Nat.id, lookup_total_alt, Hb by lia. done.
Qed.

Lemma page_of_length (m : mem) f : length (Swap.page_of m f) = Z.to_nat 4096.
Proof. unfold Swap.page_of, bytes_of. by rewrite length_fmap, length_seq. Qed.

Lemma page_of_store (m : mem) f k b : Swap.has_page m f → 0 ≤ k < 4096 →
  Swap.page_of (<[f + k := b]> m) f = splice (Swap.page_of m f) k [b].
Proof.
  intros Hp Hk. pose proof (page_of_length m f) as Hl. apply byte_ext.
  { rewrite length_splice, !page_of_length; [done|lia|]. rewrite Hl. cbn [length]. lia. }
  intros i Hi. rewrite page_of_length in Hi.
  assert (Swap.has_page (<[f + k := b]> m) f) as Hp' by (intros x Hx; apply lookup_insert_is_Some'; auto).
  apply (inj Some). rewrite <-page_of_lookup by (done || lia).
  destruct (decide (i = k)) as [->|Hne].
  - rewrite lookup_insert_eq, lookup_splice_in; [by rewrite Z.sub_diag|lia|rewrite Hl|]; cbn [length]; lia.
  - rewrite lookup_insert_ne by lia. rewrite lookup_splice_out, <-page_of_lookup;
      [done|done|lia|lia|rewrite Hl|lia|]; cbn [length]; lia.
Qed.

Lemma frame_inj l x y : NoDup (fte_frame <$> l) → x ∈ l → y ∈ l → fte_frame x = fte_frame y → x = y.
Proof.
  intros Hnd [i Hi]%list_elem_of_lookup [j Hj]%list_elem_of_lookup E.
  assert (i = j) as -> by (apply (NoDup_lookup _ i j (fte_frame x) Hnd); rewrite list_lookup_fmap, ?Hi, ?Hj; simpl; congruence).
  congruence.
Qed.

Section store.
Context {F : Type} `{FileLaws F}.
Context (ds : gset Z) (files : gmap Z bytes).
Implicit Types (st : vm F) (A : contents) (live : list (Z * bytes)) (own : gmap Z Z).
Import Vm.Ops.

(** A byte stored in a frame changes one page.  A page of a file has to be
    marked dirty. *)
Lemma page_stored own live A st t pr p e c f k b :
  vm_inv ds own files live A st → processes st !! t = Some pr → own !! p = Some t → pages st !! p = Some e →
  p_loaded e = true → entry_ok files e → A !! (t, page_no e) = Some c →
  mk_fte f t p ∈ frame_table st → frame (lookup (mm st) (pagedir pr) (page_no e)) = f →
  (p_file_type e = TYPE_FILE → dirty (lookup (mm st) (pagedir pr) (page_no e)) = true) → 0 ≤ k < 4096 →
  vm_inv ds own files live (<[(t, page_no e) := splice c k [b]]> A)
    (with_memory (<[f + k := b]> (memory st)) st).
Proof.
  intros Hinv Hpr Ho He Hl Hok HA Hin Hf Hd Hk.
  pose proof (proj1 (vi_table _ _ _ _ _ _ Hinv _ Hin)) as Hu. cbn [fte_frame] in Hu.
  set (m' := <[f + k := b]> (memory st)).
  destruct (upage_facts _ _ (si_inv _ _ (mi_space _ _ (vi_mmu _ _ _ _ _ _ Hinv))) Hu) as (_ & _ & _ & _ & _ & Hp & _).
  assert (changes_at f 4096 (memory st) m') as Hch.
  { split; [intros x Hx; apply lookup_insert_ne; lia|]. unfold m'. rewrite dom_insert_lookup_L; [done|]. apply Hp. lia. }
  destruct (write_user_frame ds (mm st) f m' (vi_mmu _ _ _ _ _ _ Hinv) Hu Hch) as (Hm' & Hlk' & Hold).
  destruct (entry_page files e Hok) as [Hn _].
  destruct (vi_procs _ _ _ _ _ _ Hinv _ _ Hpr) as (Hpd & _).
  rewrite <-(insert_id own p t) by done.
  eapply (inv_update ds own files live live A st _ p t pr e _ Hinv). unfold with_memory. split; vm_cbn.
  - done.
  - apply Hinv.
  - done.
  - eapply (swap_same live (swap_part st)); [done|done|]. apply Hinv.
  - apply Hinv.
  - by eapply procs_same.
  - done.
  - by right.
  - destruct (vi_pages _ _ _ _ _ _ Hinv _ _ Ho) as [? _]. lia.
  - done.
  - done.
  - intros q e0 Hq Ho0 He0 E0. apply Hq. by eapply (vi_keys _ _ _ _ _ _ Hinv).
  - intros e0 _ He0. rewrite He in He0. by apply (inj Some) in He0 as ->.
  - done.
  - destruct (vi_pages _ _ _ _ _ _ Hinv _ _ Ho) as (_ & e0 & pr0 & c0 & He0 & Hpr0 & HA0 & _ & Hh).
    simplify_eq. unfold page_holds in *. rewrite Hl in *. vm_cbn. rewrite Hlk' by done.
    destruct Hh as (Hpres & _ & Hc & Hw & Hus & _). split; [done|]. split; [done|].
    split; [|split; [done|split; [done|]]].
    + rewrite <-Hc. by apply page_of_store.
    + intros Hty Hnd. rewrite (Hd Hty) in Hnd. discriminate Hnd.
  - intros pd n Hpd' Hn' _. by rewrite Hlk'.
  - apply Hinv.
  - intros x Hx. destruct (vi_table _ _ _ _ _ _ Hinv x Hx) as (Hux & e0 & pr0 & Ho0 & He0 & _ & Hpr0 & Ef).
    split; [done|]. intros E. split; [done|]. destruct x as [xf xt xp]. cbn [fte_spte fte_owner fte_frame] in *. subst xp.
    simplify_eq. by rewrite Hlk'.
  - done.
  - intros x Hx Hne. apply Hold; [by apply (vi_table _ _ _ _ _ _ Hinv)|]. intros E.
    apply Hne. by rewrite (frame_inj _ x _ (vi_frames _ _ _ _ _ _ Hinv) Hx Hin).
  - done.
  - intros q e0 _ _ _ _ _ Hl0. congruence.
Qed.
End store.
