(* ===== verification/VmFault.v ===== *)
(** Page faults ([page_fault] of [userprog/exception.c], [grow_stack] of
    [vm/page.c]): a fault brings the page in, or adds a page to the stack, and
    changes no other page. *)
From Stdlib Require Import ZArith Lia.
From stdpp Require Import base tactics option numbers list gmap.
From S2P Require Import Prelude CString Bytes Disk Palloc PageDir PageOps Vm VmInv VmOps VmPages.
From S2P Require Bitmap Swap.

Open Scope Z_scope.

Section fault.
Context {F : Type} `{FileLaws F} (uninit : Z → sup_page_table_entry).
Context (ds : gset Z) (files : gmap Z bytes).
Implicit Types (st : vm F) (live : list (Z * bytes)) (A : contents) (own : gmap Z Z).
Import Vm.Ops.

(** The loop over a supplemental page table, for a test that changes nothing. *)
Lemma search_pages_ok st P (f : sup_page_table_entry → bool) l :
  (∀ e Q, Q (f e) st → wp (P e) Q st) → (∀ p, p ∈ l → is_Some (pages st !! p)) →
  wp (search_pages P l) (λ r st', st' = st ∧
    ((r = NULL ∧ ∀ p e, p ∈ l → pages st !! p = Some e → f e = false) ∨
     (r ∈ l ∧ ∃ e, pages st !! r = Some e ∧ f e = true))) st.
Proof.
  intros HP. induction l as [|p l IH]; intros Hl; cbn [search_pages].
  { wp_go. split; [done|]. left. split; [done|]. intros p e Hp. by apply elem_of_nil in Hp. }
  destruct (Hl p) as [e He]; [by left|]. wp_unbind. eapply wp_page_at; [done|]. wp_unbind. apply HP.
  destruct (f e) eqn:Ef.
  - wp_go. split; [done|]. right. split; [by left|]. by exists e.
  - eapply wp_mono; [apply IH; intros q Hq; apply Hl; by right|]. intros r st' [-> Hr]. split; [done|].
    destruct Hr as [[-> Hr]|[Hr He']]; [left|right].
    + split; [done|]. intros q eq [->|Hq]%elem_of_cons Heq; [by simplify_eq|by eapply Hr].
    + split; [by right|done].
Qed.

(** The pages of the running process. *)
Lemma own_pages own live A st pr p :
  vm_inv ds own files live A st → processes st !! current st = Some pr → p ∈ sup_page_table pr →
  own !! p = Some (current st) ∧ ∃ e c, pages st !! p = Some e ∧ entry_ok files e ∧
    A !! (current st, page_no e) = Some c ∧ page_holds st files live p (current st) pr e c ∧ p ≠ NULL.
Proof.
  intros Hinv Hpr Hp. apply (vi_procs _ _ _ _ _ _ Hinv _ _ Hpr) in Hp. split; [done|].
  destruct (vi_pages _ _ _ _ _ _ Hinv _ _ Hp) as (Hn & e & pr' & c & He & Hpr' & HA & Hok & Hh). simplify_eq.
  exists e, c. split_and!; try done. unfold NULL. lia.
Qed.

Lemma page_round a : 0 ≤ a < PHYS_BASE →
  pg_round_down a = 4096 * (a / 4096) ∧ 0 ≤ pg_round_down a < PHYS_BASE ∧ pg_round_down a mod 4096 = 0 ∧
  pg_round_down a / 4096 = a / 4096.
Proof.
  unfold PHYS_BASE. intros Ha. pose proof (Z.div_mod a 4096). pose proof (Z.mod_pos_bound a 4096).
  rewrite pg_round_down_eq by (unfold is_u32; lia). split_and!; [done|lia|lia| |].
  - by rewrite Z.mul_comm, Z_mod_mult.
  - by rewrite Z.mul_comm, Z.div_mul.
Qed.

Lemma find_page_ok own live A st pr a :
  vm_inv ds own files live A st → processes st !! current st = Some pr → 0 ≤ a < PHYS_BASE →
  wp (find_page a) (λ r st', st' = st ∧
    ((r = NULL ∧ A !! (current st, a / 4096) = None) ∨
     (r ≠ NULL ∧ r ∈ sup_page_table pr ∧ ∃ e, pages st !! r = Some e ∧ page_no e = a / 4096))) st.
Proof.
  intros Hinv Hpr Ha. destruct (page_round a Ha) as (Er & Hr & _ & En). unfold find_page. wp_unbind.
  eapply wp_running; [done|].
  eapply wp_mono; [apply (search_pages_ok st _ (λ e, p_user_vaddr e =? pg_round_down a))|].
  - intros e Q HQ. by wp_go.
  - intros p Hp. destruct (own_pages _ _ _ _ _ _ Hinv Hpr Hp) as (_ & e & _ & He & _). eauto.
  - intros r st' [-> Hcase]. split; [done|]. destruct Hcase as [[-> Hno]|(Hin & e & He & E)].
    + left. split; [done|]. destruct (A !! (current st, a / 4096)) as [c|] eqn:EA; [|done].
      destruct (vi_cover _ _ _ _ _ _ Hinv _ _ _ EA) as (p & e & Ho & He & Ep).
      assert (p ∈ sup_page_table pr) as Hp by (by apply (vi_procs _ _ _ _ _ _ Hinv _ _ Hpr)).
      destruct (own_pages _ _ _ _ _ _ Hinv Hpr Hp) as (_ & e' & c' & He' & Hok & _). simplify_eq.
      pose proof (Hno p e Hp He) as Hf. apply Z.eqb_neq in Hf.
      destruct (entry_page files e Hok) as [_ Ev]. lia.
    + right. destruct (own_pages _ _ _ _ _ _ Hinv Hpr Hin) as (_ & e' & c' & _ & _ & _ & _ & Hnn).
      split; [done|]. split; [done|]. exists e. split; [done|]. apply Z.eqb_eq in E. unfold page_no. by rewrite E.
Qed.

(** The description that [allocate_page] makes of a page, from what the memory
    for it held. *)
Definition description (p_type : palloc_type) (a : Z) (loaded : bool) (rb zb fp ofs : Z) (w : bool) (m : Z)
    (u : sup_page_table_entry) : sup_page_table_entry :=
  upd_is_swapped false match p_type with
  | GROW_STACK | PAGE_FAULT => upd_anonymous a loaded w u
  | LOAD_SEGMENT => upd_from_file a loaded rb zb ofs fp w u
  | CREATE_MMAP => upd_from_file a loaded rb zb ofs fp w (upd_map_id m (upd_file_type TYPE_MMAP u))
  end.

(** The new page [p], described by [e], is in no table yet. *)
Record allocated own live A st p e st' : Prop := {
  al_new : p = next_address st ∧ own !! p = None ∧ p ≠ NULL;
  al_inv : vm_inv ds own files live A st';
  al_mm : mm st' = mm st;
  al_frames : frame_table st' = frame_table st;
  al_procs : processes st' = processes st;
  al_current : current st' = current st;
  al_lock : lock_frame st' = lock_frame st;
  al_swap : swap_part st' = swap_part st;
  al_files : filesys st' = filesys st;
  al_next : next_address st' = p + 1;
  al_malloc : malloc_outcomes st' = tail (malloc_outcomes st);
  al_page : pages st' !! p = Some e }.

Lemma malloc_page_ok own live A st :
  vm_inv ds own files live A st → head (malloc_outcomes st) ≠ Some false →
  wp (malloc_page uninit) (λ p st', allocated own live A st p (uninit p) st') st.
Proof.
  intros Hinv Hma. pose proof (vi_next _ _ _ _ _ _ Hinv) as Hn. set (p := next_address st).
  assert (own !! p = None) as Hp.
  { destruct (own !! p) as [t|] eqn:E; [|done]. destruct (vi_pages _ _ _ _ _ _ Hinv _ _ E) as [? _]. subst p. lia. }
  assert (p ≠ NULL) as Hnn by (subst p; unfold NULL; lia).
  assert (∀ o, vm_inv ds own files live A (set_pages (<[p := uninit p]> (pages st)) (set_memory (p + 1) o st))) as Hsame.
  { intros o. eapply inv_same; [done|apply mm_keeps_refl, Hinv| |apply Hinv].
    split; try done; vm_cbn; [|subst p; lia]. intros q [t Hq]. apply lookup_insert_ne. congruence. }
  unfold malloc_page, malloc. destruct (malloc_outcomes st) as [|[] o] eqn:Eo; [| |done].
  all: wp_go; rewrite Eo; wp_go; vm_cbn; fold p; rewrite ?Eo.
  all: split; [done|apply Hsame|done..|by rewrite Eo|apply lookup_insert_eq].
Qed.

Lemma allocated_set own live A st p e st' (f : sup_page_table_entry → sup_page_table_entry) :
  allocated own live A st p e st' →
  allocated own live A st p (f e) (set_pages (<[p := f e]> (pages st')) st').
Proof.
  intros [Hnew Hinv ? ? ? ? ? ? ? ? ? ?]. split; try done; [|apply lookup_insert_eq].
  eapply inv_same; [done|apply mm_keeps_refl, Hinv| |apply Hinv]. split; try done.
  intros q [t Hq]. vm_cbn. apply lookup_insert_ne. destruct Hnew as (_ & Hp & _). congruence.
Qed.

Lemma wp_allocated_set own live A st p e st' f (Q : unit → vm F → Prop) :
  allocated own live A st p e st' →
  (∀ st'', allocated own live A st p (f e) st'' → Q tt st'') → wp (page_set p f) Q st'.
Proof.
  intros Hal HQ. eapply wp_page_set; [apply Hal|]. apply HQ. by apply allocated_set.
Qed.

Lemma allocate_page_ok own live A st pr a loaded p_type rb zb fp ofs w :
  vm_inv ds own files live A st → processes st !! current st = Some pr →
  0 ≤ a < PHYS_BASE → head (malloc_outcomes st) ≠ Some false →
  wp (allocate_page uninit a loaded p_type rb zb fp ofs w)
    (λ p st', allocated own live A st p (description p_type a loaded rb zb fp ofs w (map_id pr) (uninit p)) st') st.
Proof.
  intros Hinv Hpr Ha Hma. unfold allocate_page.
  wp_assert (unfold is_kernel_vaddr; apply negb_true_iff, Z.leb_gt; lia).
  eapply wp_mono; [by apply malloc_page_ok|]. intros p st1 Hal.
  destruct (al_new _ _ _ _ _ _ _ Hal) as (_ & _ & Hnn). rewrite (proj2 (Z.eqb_neq _ _) Hnn). wp_unbind.
  destruct p_type.
  1,2,3: eapply wp_allocated_set; [exact Hal|]; clear Hal; intros st2 Hal.
  1,2,3: wp_unbind; eapply wp_allocated_set; [exact Hal|]; clear Hal; intros st3 Hal; by wp_go.
  wp_unbind. eapply wp_allocated_set; [exact Hal|]. clear Hal. intros st2 Hal. wp_unbind.
  eapply wp_running; [by rewrite (al_procs _ _ _ _ _ _ _ Hal), (al_current _ _ _ _ _ _ _ Hal)|]. wp_unbind.
  eapply wp_allocated_set; [exact Hal|]. clear Hal. intros st3 Hal.
  eapply wp_allocated_set; [exact Hal|]. clear Hal. intros st4 Hal. wp_unbind.
  eapply wp_allocated_set; [exact Hal|]. clear Hal. intros st5 Hal. by wp_go.
Qed.

(** The invariant with the new page. *)
Lemma page_added own live A st st' p t pr e f c :
  vm_inv ds own files live A st → own !! p = None → processes st !! t = Some pr → A !! (t, page_no e) = None →
  upage (mach (mm st)) f → (∀ x, x ∈ frame_table st → fte_frame x ≠ f) →
  maps_frame ds (mm st) (mm st') (pagedir pr) (page_no e) f true →
  Swap.page_of (memory st') f = c → frame_table st' = frame_table st ++ [mk_fte f t p] →
  processes st' = <[t := set_sup_page_table (sup_page_table pr ++ [p]) pr]> (processes st) →
  next_address st' = next_address st → 0 < p < next_address st → pages st' = pages st → pages st !! p = Some e →
  filesys st' = filesys st → swap_device st' = swap_device st → swap_table st' = swap_table st →
  0 ≤ p_user_vaddr e < PHYS_BASE → p_user_vaddr e mod 4096 = 0 → p_loaded e = true → p_writable e = true →
  p_file_type e = TYPE_SWAP →
  vm_inv ds (<[p := t]> own) files live (<[(t, page_no e) := c]> A) st'.
Proof.
  intros Hinv Ho Hpr HA Hf Hnew [Hm' [Er Eb] _ Ep Hlk Hold] Hc Eft Epr En Hp Epg He Efs Edv Etb Hva Hal Hl Hw Hty.
  assert (entry_ok files e) as Hok by (split; auto).
  destruct (entry_page files e Hok) as [Hn _]. destruct (vi_procs _ _ _ _ _ _ Hinv _ _ Hpr) as (Hpd & _).
  assert (∀ x, x ∈ frame_table st → fte_spte x ≠ p) as Hnp.
  { intros x Hx <-. destruct (vi_table _ _ _ _ _ _ Hinv x Hx) as (_ & e0 & _ & Ho0 & _). congruence. }
  assert (∀ f', upage (mach (mm st)) f' → upage (mach (mm st')) f') as Hup by (intros f'; unfold upage; by rewrite Ep).
  eapply (inv_update ds own files live live A st st' p t pr e c Hinv). split.
  - done.
  - rewrite Ep, Er. apply Hinv.
  - done.
  - eapply (swap_same live (swap_part st)); [exact Edv|exact Etb|]. apply Hinv.
  - rewrite Efs. apply Hinv.
  - intros t'. rewrite Epr. destruct (decide (t' = t)) as [->|Hne].
    + rewrite lookup_insert_eq, Hpr. split; [done|]. intros q. cbn. rewrite elem_of_app, list_elem_of_singleton. naive_solver.
    + rewrite lookup_insert_ne by done. destruct (processes st !! t') as [pr'|]; [|done]. split; [done|].
      intros q. naive_solver.
  - done.
  - by left.
  - rewrite En. lia.
  - by rewrite Epg.
  - intros q _ _. by rewrite Epg.
  - intros q e0 _ Ho0 He0 E0. destruct (vi_pages _ _ _ _ _ _ Hinv _ _ Ho0) as (_ & e1 & _ & c1 & He1 & _ & HA1 & _).
    simplify_eq. rewrite E0 in HA1. congruence.
  - intros e0 Ho0. congruence.
  - done.
  - unfold page_holds. rewrite Hl, Hlk, decide_True by done. cbn [present frame writable user dirty].
    split; [done|]. split; [rewrite Eft; set_solver|]. split; [done|]. split; [done|]. split; [done|].
    intros E. rewrite Hty in E. discriminate E.
  - intros pd n Hpd' Hn' Hno. by rewrite Hlk, decide_False by done.
  - rewrite Eft, fmap_app. apply NoDup_app. split; [apply Hinv|]. split; [|apply NoDup_singleton].
    intros f' (x & -> & Hx)%list_elem_of_fmap Hf'%list_elem_of_singleton. by apply (Hnew x).
  - rewrite Eft. intros x [Hx|Hx]%elem_of_app.
    + split; [by apply Hup, (vi_table _ _ _ _ _ _ Hinv x Hx)|]. intros E. by destruct (Hnp x).
    + apply list_elem_of_singleton in Hx as ->. split; [by apply Hup|]. intros _. by rewrite Hlk, decide_True.
  - intros x Hx. rewrite Eft. split; [|set_solver]. intros [?|E%list_elem_of_singleton]%elem_of_app; [done|by subst x].
  - intros x Hx _. apply Hold; [by apply (vi_table _ _ _ _ _ _ Hinv)|by apply Hnew].
  - done.
  - intros q e0 _ _ _ _ _ Hl0. congruence.
Qed.

(** ** Growing the stack *)

(** What a fault leaves as it was. *)
Record resumes st st' : Prop := {
  re_current : current st' = current st;
  re_lock : lock_frame st' = lock_frame st;
  re_cr3 : cr3 (mm st') = cr3 (mm st);
  re_procs : ∀ t pr, processes st !! t = Some pr → ∃ pr', processes st' !! t = Some pr' ∧ pagedir pr' = pagedir pr }.

Lemma resumes_same st st' :
  processes st' = processes st → current st' = current st → lock_frame st' = lock_frame st →
  cr3 (mm st') = cr3 (mm st) → resumes st st'.
Proof. intros Ep Ec El E3. split; [done..|]. rewrite Ep. eauto. Qed.

(** A new page [n] of thread [t] with the bytes [c]; no other page changes. *)
Definition grown own A st n c st' : Prop :=
  (∃ p live e, vm_inv ds (<[p := current st]> own) files live (<[(current st, n) := c]> A) st' ∧
     pages st' !! p = Some e ∧ page_no e = n ∧ p_loaded e = true ∧ p_file_type e = TYPE_SWAP) ∧
  ∀ pr, processes st !! current st = Some pr → present (lookup (mm st') (pagedir pr) n) = true.

(** The page that has no frame yet is not in the frame table. *)
Lemma unregistered own live A st p x :
  vm_inv ds own files live A st → own !! p = None → x ∈ frame_table st → fte_spte x ≠ p.
Proof. intros Hinv Ho Hx <-. destruct (vi_table _ _ _ _ _ _ Hinv x Hx) as (_ & e0 & _ & Ho0 & _). congruence. Qed.

Lemma free_spte_inv own live A st p :
  vm_inv ds own files live A st → own !! p = None → vm_inv ds own files live A (set_pages (delete p (pages st)) st).
Proof.
  intros Hinv Ho. eapply inv_same; [done|apply mm_keeps_refl, Hinv| |apply Hinv]. split; try done.
  intros q [t Hq]. vm_cbn. apply lookup_delete_ne. congruence.
Qed.

(** The new page is entered in the supplemental page table. *)
Lemma page_insert_ok own live A st st1 pr p e :
  vm_inv ds own files live A st → processes st1 = processes st → pages st1 = pages st → current st1 = current st →
  processes st !! current st = Some pr → pages st !! p = Some e → 0 ≤ p_user_vaddr e < PHYS_BASE →
  p_user_vaddr e mod 4096 = 0 → A !! (current st, page_no e) = None →
  wp (page_insert p) (λ r st', r = true ∧ st' = set_processes
    (<[current st := set_sup_page_table (sup_page_table pr ++ [p]) pr]> (processes st1)) st1) st1.
Proof.
  intros Hinv Epr Epg Ec Hpr He Hva Hal HA. unfold page_insert. wp_unbind.
  eapply wp_running; [by rewrite Epr, Ec|]. wp_unbind.
  eapply wp_mono; [apply (search_pages_ok st1 _ (λ temp, p_user_vaddr temp =? p_user_vaddr e))|].
  - intros temp Q HQ. wp_unbind. eapply wp_page_at; [by rewrite Epg|]. by wp_go.
  - intros q Hq. rewrite Epg. destruct (own_pages _ _ _ _ _ _ Hinv Hpr Hq) as (_ & eq & _ & Heq & _). eauto.
  - intros r st' [-> Hr]. destruct Hr as [[-> _]|(Hin & e0 & He0 & E)].
    2: { exfalso. rewrite Epg in He0. destruct (own_pages _ _ _ _ _ _ Hinv Hpr Hin) as (_ & e1 & c1 & He1 & _ & HA1 & _).
         simplify_eq. apply Z.eqb_eq in E. unfold page_no in *. rewrite E in HA1. congruence. }
    rewrite Z.eqb_refl. cbn [negb]. wp_unbind. eapply wp_page_at; [by rewrite Epg|]. unfold thread_set. wp_go.
    eapply wp_thread_at; [by rewrite Epr, Ec|]. wp_go. by rewrite Ec.
Qed.

Lemma grow_stack_ok own live A st pr a (on_fault : bool) :
  vm_inv ds own files live A st → processes st !! current st = Some pr → 0 ≤ a < PHYS_BASE →
  A !! (current st, a / 4096) = None → head (malloc_outcomes st) ≠ Some false → frame_available st →
  wp (grow_stack uninit a on_fault) (λ (r : bool) st', resumes st st' ∧
    if r then ∃ c, grown own A st (a / 4096) c st' ∧ (on_fault = false → c = zero_page)
    else ∃ live', vm_inv ds own files live' A st') st.
Proof.
  intros Hinv Hpr Ha HA Hma Hav. destruct (page_round a Ha) as (_ & Hr & Hal & En).
  set (va := pg_round_down a) in *. unfold grow_stack. fold va.
  set (flag := if on_fault then PAL_USER else Z.lor PAL_USER PAL_ZERO).
  assert (wp (spt_e ← allocate_page uninit va true (if on_fault then PAGE_FAULT else GROW_STACK) 0 0 NULL 0 true;
              frame_addr ← allocate_frame spt_e flag; mret (spt_e, frame_addr))
    (λ r st', wp (let '(spt_e, frame_addr) := r in
        if frame_addr =? NULL then free_spte spt_e;; mret false else
        success ← install_page va frame_addr true;
        if negb success then free_frame frame_addr;; free_spte spt_e;; mret false else page_insert spt_e)
      (λ (r : bool) st', resumes st st' ∧
        if r then ∃ c, grown own A st (a / 4096) c st' ∧ (on_fault = false → c = zero_page)
        else ∃ live', vm_inv ds own files live' A st') st') st) as Hwp.
  2: { wp_unbind. destruct on_fault; exact Hwp. }
  wp_unbind. eapply wp_mono; [by apply (allocate_page_ok own live A st pr)|].
  intros p st1 [(-> & Ho & _) Hinv1 Em Eft Epr Ec El Esw Efs Enx _ He].
  set (p := next_address st) in *. wp_unbind.
  set (e := description _ va _ _ _ _ _ _ _ _) in *.
  assert (p_user_vaddr e = va ∧ p_loaded e = true ∧ p_writable e = true ∧ p_file_type e = TYPE_SWAP) as (Ev & Hl & Hw & Hty)
    by (subst e; by destruct on_fault).
  assert (page_no e = a / 4096) as Eno by (unfold page_no; by rewrite Ev).
  eapply wp_mono; [apply (allocate_frame_ok ds own files live A); [by destruct on_fault..|done|]|].
  { unfold frame_available in *. by rewrite Em, Eft, Esw. }
  intros f st2 (live2 & [(-> & Hinv2 & Has & _)|(Hnn & st3 & [Hinv3 -> Hu Hnew _ Has Hpg Hz])]); wp_go.
  { rewrite Z.eqb_refl. unfold free_spte. wp_go. destruct Has as [? ? ? ? ? ?]. split.
    - apply resumes_same; vm_cbn; congruence.
    - exists live2. by apply free_spte_inv. }
  rewrite (proj2 (Z.eqb_neq _ _) Hnn). wp_unbind. pose proof Has as [Ep3 Ec3 El3 En3 E33 Ef3].
  assert (processes st3 !! current st3 = Some pr) as Hpr3 by (by rewrite Ep3, Ec3, Epr, Ec).
  assert (pages st3 !! p = Some e) as He3.
  { rewrite Hpg; [done|]. intros x Hx. by eapply (unregistered own live A st1). }
  rewrite <-Ec3. eapply wp_mono; [apply (install_page_ok ds own files live2 A st3 pr va f true); try done|].
  { rewrite En. destruct (present (lookup (mm st3) (pagedir pr) (a / 4096))) eqn:Epres; [|done].
    destruct (vi_mapped _ _ _ _ _ _ Hinv3 _ _ _ Hpr3 (user_page _ Ha) Epres) as (q & eq & Hoq & Heq & Enq & _).
    destruct (vi_pages _ _ _ _ _ _ Hinv3 _ _ Hoq) as (_ & eq' & _ & c & Heq' & _ & HAq & _). simplify_eq.
    rewrite Enq, Ec3, Ec in HAq. congruence. }
  intros [] st' Hres; cbn [negb].
  - destruct Hres as (s' & -> & Hmf & Huk). rewrite En in Hmf.
    eapply wp_mono; [apply (page_insert_ok own live2 A st3 _ pr p e); try done|].
    { by rewrite Ev. }
    { by rewrite Ev. }
    { by rewrite Eno, Ec3, Ec. }
    intros r st4 [-> ->]. set (c := Swap.page_of (memory st3) f).
    assert (current st3 = current st) as E3 by congruence. split; [split; vm_cbn|].
    + done.
    + congruence.
    + rewrite (mf_cr3 _ _ _ _ _ _ _ Hmf). congruence.
    + intros t' pr' Hpr'. rewrite Ep3, Epr. destruct (decide (t' = current st3)) as [->|Hne].
      * rewrite lookup_insert_eq. eexists. split; [done|]. rewrite Ep3, Epr in Hpr3. by simplify_eq.
      * rewrite lookup_insert_ne by done. eauto.
    + exists c. split; [|intros ->; by apply (zeroed_page _ _ _ Hz)]. split.
      * exists p, live2, e. rewrite <-E3, <-Eno. split; [|done].
        eapply (page_added own live2 A st3 _ p (current st3) pr e f c); vm_cbn;
          [exact Hinv3|exact Ho|exact Hpr3| |exact Hu|exact Hnew| | |reflexivity|reflexivity|reflexivity
          | |reflexivity|exact He3|reflexivity|reflexivity|reflexivity| | |exact Hl|exact Hw|exact Hty].
        -- by rewrite Eno, Ec3, Ec.
        -- by rewrite Eno.
        -- eapply user_kept_page; [|done|done]. apply (mi_space _ _ (vi_mmu _ _ _ _ _ _ Hinv3)).
        -- pose proof (vi_next _ _ _ _ _ _ Hinv). unfold p. lia.
        -- by rewrite Ev.
        -- by rewrite Ev.
      * vm_cbn. intros pr' Hpr'. rewrite <-E3 in Hpr'. rewrite <-Epr, <-Ep3 in Hpr'. simplify_eq.
        rewrite (mf_lookup _ _ _ _ _ _ _ Hmf), decide_True; [done|done| |by apply user_page].
        by apply (vi_procs _ _ _ _ _ _ Hinv3 _ _ Hpr3).
  - destruct Hres as [-> Hex]. wp_unbind. eapply wp_mono; [by apply (drop_frame_ok ds own files live2 A)|].
    intros [] st4 (Hinv4 & s4 & -> & _ & E4). unfold free_spte. wp_go. split.
    + apply resumes_same; vm_cbn; congruence.
    + exists live2. by apply free_spte_inv.
Qed.

(** ** The handler *)

(** The pages as they were, or with one page more for the running thread. *)
Definition extends st (n : Z) A A' : Prop :=
  A' = A ∨ ∃ c, A !! (current st, n) = None ∧ A' = <[(current st, n) := c]> A.

(** A fault that the processor raises: the page is not mapped when the error
    code says so. *)
Definition raised st pr (a err : Z) : Prop :=
  is_u32 a ∧ (0 ≤ a < PHYS_BASE → Z.land err PF_P = 0 →
    present (lookup (mm st) (pagedir pr) (a / 4096)) = false).

Definition faulted own A st pr a (r : ending) st' : Prop :=
  resumes st st' ∧
  (∃ own' live' A', vm_inv ds own' files live' A' st' ∧ extends st (a / 4096) A A') ∧
  (r = Returns → 0 ≤ a < PHYS_BASE ∧ present (lookup (mm st') (pagedir pr) (a / 4096)) = true).

Lemma inv_lock own live A st b : vm_inv ds own files live A st → vm_inv ds own files live A (set_lock b st).
Proof. intros Hinv. eapply inv_same; [done|apply mm_keeps_refl, Hinv|by split|apply Hinv]. Qed.

(** The page is there and all pages hold what they held; or there was no
    memory for the kernel's own records. *)
Definition resolved own A st pr a (r : ending) st' : Prop :=
  resumes st st' ∧ (∃ live', vm_inv ds own files live' A st') ∧
  match r with
  | Returns => present (lookup (mm st') (pagedir pr) (a / 4096)) = true
  | Dies => no_malloc st ∨ exhausted KernelPool 1 (mach (mm st'))
  | Exits _ => False
  end.

(** A page of the process that is not in memory. *)
Lemma known_page own live A st pr a p e :
  vm_inv ds own files live A st → processes st !! current st = Some pr →
  p ∈ sup_page_table pr → pages st !! p = Some e → page_no e = a / 4096 →
  present (lookup (mm st) (pagedir pr) (a / 4096)) = false → lock_frame st = false → frame_available st →
  wp (success ← page_handling p; if success : bool then mret Returns else kill SEL_UCSEG) (resolved own A st pr a) st.
Proof.
  intros Hinv Hpr Hp He En Hnp Hlk Hav. wp_unbind.
  destruct (own_pages _ _ _ _ _ _ Hinv Hpr Hp) as (Ho & e' & c & He' & Hok & HA & Hh & _). simplify_eq.
  assert (p_loaded e = false) as Hl.
  { destruct (p_loaded e) eqn:El; [|done]. unfold page_holds in Hh. rewrite El in Hh. destruct Hh as [Hpres _].
    rewrite En in Hpres. congruence. }
  eapply wp_mono; [apply (page_handling_ok ds own files live A st p pr e c); [by split|done|done]|].
  intros r st2 [(live' & Hinv' & Ep & Ec & El & E3 & Hr) _].
  assert (resumes st st2) as Hres by (by apply resumes_same).
  destruct r; [|unfold kill]; wp_go; (split; [done|]); (split; [by exists live'|]).
  - by rewrite <-En.
  - done.
Qed.

Lemma page_fault_ok own live A st pr a err esp :
  vm_inv ds own files live A st → processes st !! current st = Some pr → lock_frame st = false →
  frame_available st → head (malloc_outcomes st) ≠ Some false → raised st pr a err →
  wp (page_fault uninit a err esp SEL_UCSEG) (faulted own A st pr a) st.
Proof.
  intros Hinv Hpr Hlk Hav Hma [Ha Hnp]. unfold page_fault. wp_go.
  set (st1 := set_fault_cnt (page_fault_cnt st + 1) st).
  assert (vm_inv ds own files live A st1) as Hinv1.
  { eapply inv_same; [done|apply mm_keeps_refl, Hinv|by split|apply Hinv]. }
  assert (∀ r, r ≠ Returns → faulted own A st pr a r st1) as Hstay.
  { intros r Hr. split; [by apply resumes_same|]. split; [|done]. exists own, live, A. split; [done|by left]. }
  destruct (is_user_vaddr a) eqn:Eu; [|cbn [andb]; wp_go; by apply Hstay]. apply Z.ltb_lt in Eu. unfold is_u32 in Ha.
  destruct (Z.eqb_spec (Z.land err PF_P) 0) as [E0|]; [|cbn [andb]; wp_go; by apply Hstay]. cbn [andb]. wp_unbind.
  eapply wp_mono; [apply (find_page_ok own live A st1 pr); [done|done|lia]|].
  intros p st' [-> [[-> HA]|(Hnn & Hp & e & He & En)]].
  - rewrite Z.eqb_refl. cbn [negb]. destruct (LIMIT <? _); [wp_go; by apply Hstay|].
    destruct (_ <=? a); [|wp_go; by apply Hstay]. unfold lock_acquire, lock_release. wp_assert (cbn; by rewrite Hlk).
    set (st2 := set_lock true st1).
    eapply wp_mono; [apply (grow_stack_ok own live A st2 pr); [by apply inv_lock|done|lia|done|done|done]|].
    intros r st3 [[Ec El E3 Hps] Hr]. wp_assert (by rewrite El).
    assert (resumes st (set_lock false st3)) as Hres by (split; [exact Ec|done|exact E3|exact Hps]).
    destruct r.
    + destruct Hr as (c & [(q & live' & e & Hinv' & _) Hpres] & _). wp_go. split; [done|]. split.
      * eexists _, live', _. split; [apply inv_lock, Hinv'|]. right. by exists c.
      * intros _. split; [lia|]. by apply Hpres.
    + destruct Hr as (live' & Hinv'). unfold kill. wp_go. split; [done|]. split; [|done].
      exists own, live', A. split; [by apply inv_lock|by left].
  - rewrite (proj2 (Z.eqb_neq _ _) Hnn). cbn [negb].
    eapply wp_mono; [apply (known_page own live A st1 pr a p e); try done|].
    { apply Hnp; [lia|done]. }
    intros r st2 (Hres & (live' & Hinv') & Hr). split; [by destruct Hres|]. split; [exists own, live', A; split; [done|by left]|].
    intros ->. split; [lia|done].
Qed.

(** A fault on a page that the process has. *)
Lemma page_fault_known own live A st pr a err esp :
  vm_inv ds own files live A st → processes st !! current st = Some pr → lock_frame st = false →
  frame_available st → 0 ≤ a < PHYS_BASE → Z.land err PF_P = 0 →
  present (lookup (mm st) (pagedir pr) (a / 4096)) = false → is_Some (A !! (current st, a / 4096)) →
  wp (page_fault uninit a err esp SEL_UCSEG) (resolved own A st pr a) st.
Proof.
  intros Hinv Hpr Hlk Hav Ha E0 Hnp [c Hc]. unfold page_fault. wp_go.
  set (st1 := set_fault_cnt (page_fault_cnt st + 1) st).
  assert (vm_inv ds own files live A st1) as Hinv1.
  { eapply inv_same; [done|apply mm_keeps_refl, Hinv|by split|apply Hinv]. }
  unfold is_user_vaddr. rewrite (proj2 (Z.ltb_lt _ _)), (proj2 (Z.eqb_eq _ _) E0) by lia. cbn [andb]. wp_unbind.
  eapply wp_mono; [by apply (find_page_ok own live A st1 pr)|].
  intros p st' [-> [[-> HA]|(Hnn & Hp & e & He & En)]].
  - change (current st1) with (current st) in HA. congruence.
  - rewrite (proj2 (Z.eqb_neq _ _) Hnn). cbn [negb].
    eapply wp_mono; [by apply (known_page own live A st1 pr a p e)|]. intros r st2 (Hres & Hex & Hr). by split; [destruct Hres|].
Qed.

(** The accesses that end the process: outside the user's memory or forbidden,
    or to no page, and not to the stack. *)
Definition illegal A st (a err esp : Z) : Prop :=
  PHYS_BASE ≤ a ∨ Z.land err PF_P ≠ 0 ∨
  (A !! (current st, a / 4096) = None ∧ (LIMIT < u32 (PHYS_BASE - pg_round_down a) ∨ a < u32 (esp - SIZE))).

Lemma page_fault_illegal own live A st pr a err esp cs :
  vm_inv ds own files live A st → processes st !! current st = Some pr → is_u32 a → illegal A st a err esp →
  wp (page_fault uninit a err esp cs) (λ r st', r = Exits (-1) ∧ st' = set_fault_cnt (page_fault_cnt st + 1) st) st.
Proof.
  intros Hinv Hpr Ha Hil. unfold page_fault. wp_go. set (st1 := set_fault_cnt (page_fault_cnt st + 1) st).
  destruct (is_user_vaddr a) eqn:Eu; [|cbn [andb]; by wp_go]. apply Z.ltb_lt in Eu. unfold is_u32 in Ha.
  destruct (Z.eqb_spec (Z.land err PF_P) 0) as [E0|]; [|cbn [andb]; by wp_go]. cbn [andb]. wp_unbind.
  assert (vm_inv ds own files live A st1) as Hinv1.
  { eapply inv_same; [done|apply mm_keeps_refl, Hinv|by split|apply Hinv]. }
  destruct Hil as [?|[?|[HA Hil]]]; [lia|done|].
  eapply wp_mono; [apply (find_page_ok own live A st1 pr); [done|done|lia]|].
  intros p st' [-> [[-> _]|(Hnn & Hp & e & He & En)]].
  - rewrite Z.eqb_refl. cbn [negb]. destruct (Z.ltb_spec LIMIT (u32 (PHYS_BASE - pg_round_down a))); [by wp_go|].
    destruct (Z.leb_spec (u32 (esp - SIZE)) a); [lia|by wp_go].
  - destruct (own_pages _ _ _ _ _ _ Hinv1 Hpr Hp) as (_ & e' & c & He' & _ & HA' & _). simplify_eq.
    rewrite En in HA'. change (current st1) with (current st) in HA'. congruence.
Qed.
End fault.
