(* ===== verification/VmLoad.v ===== *)
(** Loading a segment ([load_segment] of [userprog/process.c]): the pages of an
    executable, read when they are first touched. *)
From Stdlib Require Import ZArith Lia.
From stdpp Require Import base tactics option numbers list gmap.
From S2P Require Import Prelude CString Bytes Disk Palloc PageDir PageOps Vm VmInv VmOps VmPages VmFault.
From S2P Require Bitmap Swap.

Open Scope Z_scope.

Lemma byte_at_app_l (a b : bytes) i : 0 ≤ i < Z.of_nat (length a) → byte_at (a ++ b) i = byte_at a i.
Proof. intros Hi. unfold byte_at. apply lookup_total_app_l. lia. Qed.
Lemma byte_at_app_r (a b : bytes) i :
  Z.of_nat (length a) ≤ i → byte_at (a ++ b) i = byte_at b (i - Z.of_nat (length a)).
Proof. intros Hi. unfold byte_at. rewrite lookup_total_app_r by lia. f_equal. lia. Qed.

Section load.
Context {F : Type} `{FileLaws F} (uninit : Z → sup_page_table_entry).
Context (ds : gset Z) (files : gmap Z bytes).
Implicit Types (st : vm F) (live : list (Z * bytes)) (A : contents) (own : gmap Z Z).
Import Vm.Ops.

(** The invariant with a new page that is still in its file. *)
Lemma page_reserved own live A st p t pr e :
  vm_inv ds own files live A st → own !! p = None → processes st !! t = Some pr → A !! (t, page_no e) = None →
  0 < p < next_address st → pages st !! p = Some e → entry_ok files e → p_file_type e = TYPE_FILE → p_loaded e = false →
  vm_inv ds (<[p := t]> own) files live (<[(t, page_no e) := file_page files e]> A)
    (set_processes (<[t := set_sup_page_table (sup_page_table pr ++ [p]) pr]> (processes st)) st).
Proof.
  intros Hinv Ho Hpr HA Hp He Hok Hty Hl.
  destruct (entry_page files e Hok) as [Hn _].
  assert (present (lookup (mm st) (pagedir pr) (page_no e)) = false) as Hnp.
  { destruct (present _) eqn:Ep; [|done].
    destruct (vi_mapped _ _ _ _ _ _ Hinv _ _ _ Hpr Hn Ep) as (q & eq & Hoq & Heq & Enq & _).
    destruct (vi_pages _ _ _ _ _ _ Hinv _ _ Hoq) as (_ & eq' & _ & c & Heq' & _ & HAq & _). simplify_eq. congruence. }
  eapply (inv_update ds own files live live A st _ p t pr e _ Hinv). split; vm_cbn; try done; try by apply Hinv.
  - intros t'. destruct (decide (t' = t)) as [->|Hne].
    + rewrite lookup_insert_eq, Hpr. split; [done|]. intros q. cbn. rewrite elem_of_app, list_elem_of_singleton. naive_solver.
    + rewrite lookup_insert_ne by done. destruct (processes st !! t') as [pr'|]; [|done]. split; [done|].
      intros q. naive_solver.
  - by left.
  - intros q e0 _ Ho0 He0 E0. destruct (vi_pages _ _ _ _ _ _ Hinv _ _ Ho0) as (_ & e1 & _ & c1 & He1 & _ & HA1 & _).
    simplify_eq. rewrite E0 in HA1. congruence.
  - intros e0 Ho0. congruence.
  - unfold page_holds. rewrite Hl, decide_True by done. done.
  - intros x Hx. split; [by apply (vi_table _ _ _ _ _ _ Hinv)|]. intros E.
    by destruct (unregistered ds files own live A st p x Hinv Ho Hx).
Qed.

(** The bytes of a segment: [rb] bytes of the file from [ofs] on, and zeros. *)
Definition segment (c : bytes) (ofs rb zb : Z) : bytes := slice c ofs rb ++ replicate (Z.to_nat zb) 0.

(** Its page [k] as the loop of [load_segment] finds it. *)
Lemma segment_page c ofs rb zb k :
  0 ≤ ofs → 0 ≤ rb → 0 ≤ zb → ofs + rb ≤ Z.of_nat (length c) → 0 ≤ k → 4096 * (k + 1) ≤ rb + zb →
  let r := Z.max 0 (Z.min 4096 (rb - 4096 * k)) in
  slice c (ofs + Z.min rb (4096 * k)) r ++ replicate (Z.to_nat (4096 - r)) 0 =
  slice (segment c ofs rb zb) (4096 * k) 4096.
Proof.
  intros Ho Hr Hz Hc Hk Hle r. assert (length (slice c ofs rb) = Z.to_nat rb) as Hl by (apply length_slice; lia).
  assert (length (slice c (ofs + Z.min rb (4096 * k)) r) = Z.to_nat r) as Hl1 by (apply length_slice; lia).
  assert (length (segment c ofs rb zb) = Z.to_nat (rb + zb)) as Hl2.
  { unfold segment. rewrite length_app, length_replicate, Hl. lia. }
  apply byte_ext.
  { rewrite length_app, length_replicate, Hl1, length_slice, ?Hl2; lia. }
  intros i Hi. rewrite length_app, length_replicate, Hl1 in Hi. rewrite byte_at_slice by lia. unfold segment.
  destruct (decide (i < r)) as [Hlt|Hge].
  - rewrite !byte_at_app_l, !byte_at_slice by lia. f_equal. lia.
  - rewrite !byte_at_app_r by lia. unfold byte_at. rewrite !lookup_total_replicate_2; [done|lia|lia].
Qed.

(** The pages that the loop has entered. *)
Definition entered A t n0 k (seg : bytes) A' : Prop :=
  ∀ t' n, A' !! (t', n) = if decide (t' = t ∧ n0 ≤ n < n0 + k) then Some (slice seg (4096 * (n - n0)) 4096) else A !! (t', n).

(** The state after [k] pages. *)
Record loading A st n0 seg k st' : Prop := {
  lo_inv : ∃ own live A', vm_inv ds own files live A' st' ∧ entered A (current st) n0 k seg A';
  lo_current : current st' = current st;
  lo_lock : lock_frame st' = false;
  lo_cr3 : cr3 (mm st') = cr3 (mm st);
  lo_proc : ∃ pr pr', processes st !! current st = Some pr ∧ processes st' !! current st = Some pr' ∧ pagedir pr' = pagedir pr;
  lo_malloc : Forall (eq true) (malloc_outcomes st') }.

Lemma malloc_ready (o : list bool) : Forall (eq true) o → head o ≠ Some false ∧ Forall (eq true) (tail o).
Proof. intros [|b o' <- Ho']; [by split; [|constructor]|done]. Qed.

(** One page of the segment. *)
Lemma reserve_ok own live A st pr fp c a rb zb ofs w :
  vm_inv ds own files live A st → processes st !! current st = Some pr → head (malloc_outcomes st) ≠ Some false →
  files !! fp = Some c → 0 ≤ a < PHYS_BASE → a mod 4096 = 0 → 0 ≤ ofs → 0 ≤ rb → 0 ≤ zb → rb + zb = 4096 →
  ofs + rb ≤ Z.of_nat (length c) → A !! (current st, a / 4096) = None →
  wp (allocate_page uninit a false LOAD_SEGMENT rb zb fp ofs w) (λ p st', p ≠ NULL ∧
    wp (page_insert p) (λ r st'', r = true ∧
      (∃ own', vm_inv ds own' files live
        (<[(current st, a / 4096) := slice c ofs rb ++ replicate (Z.to_nat zb) 0]> A) st'') ∧
      current st'' = current st ∧ lock_frame st'' = lock_frame st ∧ mm st'' = mm st ∧
      malloc_outcomes st'' = tail (malloc_outcomes st) ∧
      ∃ pr', processes st'' !! current st = Some pr' ∧ pagedir pr' = pagedir pr) st') st.
Proof.
  intros Hinv Hpr Hma Hc Ha Hal Ho Hr Hz Hrz Hlen HA.
  eapply wp_mono; [by apply (allocate_page_ok uninit ds files own live A st pr)|].
  intros p st1 [(-> & Hp & Hnn) Hinv1 Em Eft Epr Ec El Esw Efs Enx Emo He]. split; [done|].
  set (p := next_address st) in *. set (e := description _ _ _ _ _ _ _ _ _ _) in *.
  assert (page_no e = a / 4096) as En by done.
  assert (entry_ok files e) as Hok.
  { split; [done|done|]. left. split; [done|]. split; [|done]. exists c. by split_and!. }
  rewrite <-Epr, <-Ec in Hpr.
  eapply wp_mono; [apply (page_insert_ok ds files own live A st1 st1 pr p e); try done; by rewrite En, Ec|].
  intros r st2 [-> ->]. split; [done|]. split; [|vm_cbn; rewrite Ec, lookup_insert_eq; split_and!; try done; by eexists].
  exists (<[p := current st1]> own). rewrite <-Ec, <-En.
  assert (file_page files e = slice c ofs rb ++ replicate (Z.to_nat zb) 0) as <-.
  { unfold file_page. change (p_file e) with fp. rewrite Hc. done. }
  apply page_reserved; try done; [by rewrite En, Ec|].
  pose proof (vi_next _ _ _ _ _ _ Hinv). rewrite Enx. subst p. lia.
Qed.

Lemma entered_next A t n0 k seg A' n b :
  0 ≤ k → entered A t n0 k seg A' → n = n0 + k → b = slice seg (4096 * k) 4096 →
  entered A t n0 (k + 1) seg (<[(t, n) := b]> A').
Proof.
  intros Hk HA En -> t' n'. subst n. rename n' into n. destruct (decide ((t', n) = (t, n0 + k))) as [[= -> ->]|Hne].
  - rewrite lookup_insert_eq, decide_True by (split; [done|lia]). do 2 f_equal. lia.
  - rewrite lookup_insert_ne, HA by congruence.
    assert (t' = t ∧ n0 ≤ n < n0 + k ↔ t' = t ∧ n0 ≤ n < n0 + (k + 1)) as Hiff.
    { split; intros [-> Hn]; (split; [done|]); [lia|]. destruct (decide (n = n0 + k)) as [->|]; [done|lia]. }
    by rewrite (decide_ext _ _ _ _ Hiff).
Qed.

(** Where the loop is after [k] pages. *)
Definition segment_at (ofs a rb zb k : Z) : Z * Z * Z * Z :=
  (ofs + Z.min rb (4096 * k), a + 4096 * k, Z.max 0 (rb - 4096 * k), rb + zb - 4096 * k - Z.max 0 (rb - 4096 * k)).

Record segment_fits (c : bytes) (ofs a rb zb : Z) : Prop := {
  sf_ofs : 0 ≤ ofs ∧ ofs mod 4096 = 0;
  sf_addr : 0 ≤ a ∧ a mod 4096 = 0;
  sf_sizes : 0 ≤ rb ∧ 0 ≤ zb ∧ (rb + zb) mod 4096 = 0;
  sf_file : ofs + rb ≤ Z.of_nat (length c) ∧ ofs + rb < 2 ^ 31;
  sf_user : a + rb + zb ≤ PHYS_BASE }.

Lemma seek_ok own live A st fp pos :
  vm_inv ds own files live A st → is_Some (files !! fp) → 0 ≤ pos →
  wp (on_files (file_seek fp pos)) (λ _ st', vm_inv ds own files live A st' ∧ processes st' = processes st ∧
    current st' = current st ∧ lock_frame st' = lock_frame st ∧ mm st' = mm st ∧ malloc_outcomes st' = malloc_outcomes st) st.
Proof.
  intros Hinv Hfp Hpos. unfold on_files. apply wp_zoom.
  eapply wp_mono; [by apply (file_seek_shows _ files); [apply Hinv| |]|]. intros [] s' Hs. split; [|done].
  eapply inv_same; [done|apply mm_keeps_refl, Hinv|by split|done].
Qed.

Lemma load_segment_ok own live A st pr fp c ofs a rb zb w :
  vm_inv ds own files live A st → processes st !! current st = Some pr → lock_frame st = false →
  Forall (eq true) (malloc_outcomes st) → files !! fp = Some c → segment_fits c ofs a rb zb →
  (∀ n, a / 4096 ≤ n < a / 4096 + (rb + zb) / 4096 → A !! (current st, n) = None) →
  wp (load_segment uninit fp ofs a rb zb w) (λ r st', r = true ∧
    loading A st (a / 4096) (segment c ofs rb zb) ((rb + zb) / 4096) st') st.
Proof.
  intros Hinv Hpr Hlk Hma Hc [[Ho Hoa] [Ha Haa] (Hr & Hz & Hrz) [Hlen Hsmall] Huser] Hfree.
  unfold load_segment. pose proof (Z.div_mod (rb + zb) 4096 ltac:(lia)). pose proof (Z.div_mod a 4096 ltac:(lia)).
  set (N := (rb + zb) / 4096) in *. assert (0 ≤ N) by (apply Z.div_pos; lia). unfold PHYS_BASE in Huser.
  rewrite PGSIZE_eq. wp_assert (rewrite u32_id by (unfold is_u32; lia); by rewrite Hrz).
  wp_assert (by rewrite pg_ofs_eq, Haa). wp_assert (by rewrite Z.rem_mod_nonneg, Hoa by lia).
  eapply wp_mono; [by apply (seek_ok own live A)|]. intros [] st1 (Hinv1 & Epr & Ec & El & Em & Emo).
  set (seg := segment c ofs rb zb).
  assert (loading A st (a / 4096) seg 0 st1) as Hload.
  { split; [|done|congruence|by rewrite Em|rewrite Epr; by exists pr, pr|by rewrite Emo].
    exists own, live, A. split; [done|]. intros t n. rewrite decide_False by lia. done. }
  eapply (wp_loop (λ m x s', ∃ k, 0 ≤ k ≤ N ∧ m = Z.to_nat (N - k) ∧ x = segment_at ofs a rb zb k ∧
    loading A st (a / 4096) seg k s')) with (k := Z.to_nat N).
  2: { exists 0. split; [lia|]. split; [by rewrite Z.sub_0_r|]. split; [|done]. unfold segment_at. do 3 f_equal; lia. }
  2: { lia. }
  intros m x s (k & Hk & -> & -> & Hst). unfold segment_at.
  destruct (decide (k = N)) as [->|Hne].
  { rewrite (proj2 (Z.ltb_ge _ _)), (proj2 (Z.ltb_ge _ _)) by lia. cbn [orb]. by wp_go. }
  replace (_ || _) with true by (destruct (Z.ltb_spec 0 (Z.max 0 (rb - 4096 * k))), (Z.ltb_spec 0 (rb + zb - 4096 * k - Z.max 0 (rb - 4096 * k))); lia || done).
  replace (if Z.max 0 (rb - 4096 * k) <? 4096 then Z.max 0 (rb - 4096 * k) else 4096)
    with (Z.max 0 (Z.min 4096 (rb - 4096 * k))) by (destruct (Z.ltb_spec (Z.max 0 (rb - 4096 * k)) 4096); lia).
  set (r := Z.max 0 (Z.min 4096 (rb - 4096 * k))).
  destruct Hst as [(own' & live' & A' & Hinv' & Hent) Ec' El' E3 (pr0 & pr' & Hpr0 & Hpr' & Epd) Hma'].
  rewrite <-Ec' in Hpr'. unfold lock_acquire, lock_release. wp_assert (by rewrite El').
  assert ((a + 4096 * k) / 4096 = a / 4096 + k) as En by (rewrite Z.mul_comm, Z.div_add by lia; done).
  destruct (malloc_ready _ Hma') as [Hm1 Hm2].
  eapply wp_mono; [eapply (reserve_ok own' live' A' (set_lock true s) pr' fp c (a + 4096 * k) r (4096 - r) (ofs + Z.min rb (4096 * k)) w)|].
  all: try done; try lia.
  { by apply inv_lock. }
  { unfold PHYS_BASE. lia. }
  { rewrite Z.mul_comm, Z_mod_plus_full. done. }
  { vm_cbn. rewrite Ec', Hent, En, decide_False by lia. apply Hfree. lia. }
  intros p st2 [Hnn Hins]. wp_assert (by rewrite (proj2 (Z.eqb_neq _ _) Hnn)).
  eapply wp_mono; [exact Hins|]. vm_cbn. intros b st3 (-> & (own3 & Hinv3) & Ec3 & El3 & Em3 & Emo3 & pr3 & Hpr3 & Epd3).
  wp_assert (by rewrite El3). cbn [negb]. wp_go. exists (Z.to_nat (N - (k + 1))). split; [lia|]. exists (k + 1).
  split; [lia|]. split; [done|]. split.
  - unfold segment_at. rewrite s32_id by (unfold is_s32; lia). rewrite !u32_id by (unfold is_u32; lia). repeat match goal with |- (_, _) = (_, _) => apply f_equal2 end; lia.
  - split; vm_cbn; [|congruence|done|congruence| |by rewrite Emo3].
    + exists own3, live'. eexists. split; [by apply inv_lock|]. rewrite <-Ec' in Hent |- *. apply entered_next; [lia|done|lia|].
      by apply segment_page; lia.
    + exists pr0, pr3. split; [done|]. rewrite <-Ec'. split; [done|congruence].
Qed.
End load.
