(* ===== verification/Loader.v ===== *)
(** Starting a process ([load], [validate_segment] and [setup_stack] of
    [userprog/process.c]): the executable's headers, its segments and the
    stack with the arguments. *)
From Stdlib Require Import ZArith Lia.
From stdpp Require Import base tactics option numbers list gmap.
From S2P Require Import Prelude CString Bytes Palloc PageDir Vm.
From S2P Require CStdlib Directory.

Open Scope Z_scope.

Definition ARGV_MAX_SIZE : Z := 128.

(** * The headers, out of the bytes of the file *)
Definition half_at (b : bytes) (i : Z) : Z := byte_at b i + 256 * byte_at b (i + 1).
Definition word_at (b : bytes) (i : Z) : Z := of_le32 (drop (Z.to_nat i) b).

Record Elf32_Ehdr := mk_ehdr {
  e_ident : bytes;
  e_type : Z;
  e_machine : Z;
  e_version : Z;
  e_entry : Z;
  e_phoff : Z;
  e_phentsize : Z;
  e_phnum : Z }.
Definition sizeof_ehdr : Z := 52.
Definition ehdr_of (b : bytes) : Elf32_Ehdr :=
  mk_ehdr (take 16 b) (half_at b 16) (half_at b 18) (word_at b 20) (word_at b 24) (word_at b 28)
    (half_at b 42) (half_at b 44).

Record Elf32_Phdr := mk_phdr {
  p_type : Z;
  p_offset : Z;
  p_vaddr : Z;
  p_paddr : Z;
  p_filesz : Z;
  p_memsz : Z;
  p_flags : Z;
  p_align : Z }.
Definition sizeof_phdr : Z := 32.
Definition phdr_of (b : bytes) : Elf32_Phdr :=
  mk_phdr (word_at b 0) (word_at b 4) (word_at b 8) (word_at b 12) (word_at b 16) (word_at b 20)
    (word_at b 24) (word_at b 28).

Definition PT_LOAD : Z := 1.
Definition PT_DYNAMIC : Z := 2.
Definition PT_INTERP : Z := 3.
Definition PT_SHLIB : Z := 5.
Definition PF_W : Z := 2.

(** "\177ELF\1\1\1". *)
Definition ELF_MAGIC : bytes := [127; 69; 76; 70; 1; 1; 1].

Definition bad_ehdr (n : Z) (h : Elf32_Ehdr) : bool :=
  negb (n =? sizeof_ehdr) || negb (bool_decide (take 7 (e_ident h) = ELF_MAGIC)) ||
  negb (e_type h =? 2) || negb (e_machine h =? 3) || negb (e_version h =? 1) ||
  negb (e_phentsize h =? sizeof_phdr) || (1024 <? e_phnum h).

Definition ROUND_UP (x step : Z) : Z := u32 (u32 (u32 (x + step) - 1) / step * step).

(** What [load] asks of the file system besides paging. *)
Class ExecOps (F : Type) := {
  filesys_open : bytes → M F Z;
  file_read : Z → bytes → Z → M F (Z * bytes);
  file_close : Z → M F unit;
  file_deny_write : Z → M F unit }.

Module Ops.
Section loader.
Context {F : Type} `{FileOps F, ExecOps F} (uninit : Z → sup_page_table_entry).
Import Vm.Ops.
Abbreviation vm := (vm F).

(** * [validate_segment] *)
Definition validate_segment (phdr : Elf32_Phdr) (file : Z) : M vm bool :=
  if negb (Z.land (p_offset phdr) PGMASK =? Z.land (p_vaddr phdr) PGMASK) then mret false else
  len ← on_files (file_length file);
  if u32 len <? p_offset phdr then mret false else
  if p_memsz phdr <? p_filesz phdr then mret false else
  if p_memsz phdr =? 0 then mret false else
  if negb (is_user_vaddr (p_vaddr phdr)) then mret false else
  if negb (is_user_vaddr (u32 (p_vaddr phdr + p_memsz phdr))) then mret false else
  if u32 (p_vaddr phdr + p_memsz phdr) <? p_vaddr phdr then mret false else
  mret (negb (p_vaddr phdr <? PGSIZE)).

(** The arguments of [load_segment] for a program header: the offset of the
    page in the file, its address, and the bytes to read and to clear. *)
Definition segment_args (phdr : Elf32_Phdr) : Z * Z * Z * Z :=
  let file_page := Z.land (p_offset phdr) (lnot32 PGMASK) in
  let mem_page := Z.land (p_vaddr phdr) (lnot32 PGMASK) in
  let page_offset := Z.land (p_vaddr phdr) PGMASK in
  if 0 <? p_filesz phdr then
    let read_bytes := u32 (page_offset + p_filesz phdr) in
    (file_page, mem_page, read_bytes, u32 (ROUND_UP (u32 (page_offset + p_memsz phdr)) PGSIZE - read_bytes))
  else (file_page, mem_page, 0, ROUND_UP (u32 (page_offset + p_memsz phdr)) PGSIZE).

(** * [setup_stack] *)

(** Bytes written by the kernel to the memory of the running process, through
    its page table. *)
Fixpoint user_store (va : Z) (bs : bytes) : M vm unit :=
  match bs with
  | [] => mret tt
  | b :: bs =>
      t ← thread_current;
      a ← on_mmu (PageDir.Ops.pagedir_get_page (pagedir t) va);
      (if a =? NULL then undef else on_ram (CString.Ops.store a b));;
      user_store (va + 1) bs
  end.

(** The stack pointer moves down by the size of the bytes, which are copied to
    where it then points. *)
Definition push (esp : Z) (bs : bytes) : M vm Z :=
  let esp := u32 (esp - Z.of_nat (length bs)) in
  ASSERT (negb (esp =? NULL));;
  user_store esp bs;;
  mret esp.

(** A call of a string function on the copy [m] of the command line. *)
Definition on_line {A} (m : mem) (op : M mem A) : M vm (A * mem) := λ st,
  match op m with
  | Ok r => Ok (r, st)
  | Panic => Panic
  | Undef => Undef
  | NoFuel => NoFuel
  end.

(** The strings from the last to the first; their addresses in order. *)
Fixpoint push_strings (m : mem) (argv : list Z) (esp : Z) (pargv : list Z) : M vm (Z * list Z) :=
  match argv with
  | [] => mret (esp, pargv)
  | a :: argv =>
      '(argv_len, _) ← on_line m (CString.Ops.strlen a);
      '(bs, _) ← on_line m (CStdlib.Ops.load_block (Z.to_nat (argv_len + 1)) a);
      esp ← push esp bs;
      push_strings m argv esp (esp :: pargv)
  end.

Definition align_stack (esp : Z) : M vm Z :=
  loop 4 (λ esp,
    if negb (Z.rem (s32 esp) 4 =? 0) then esp ← push esp [0]; mret (inl esp) else mret (inr esp)) esp.

Fixpoint push_words (ws : list Z) (esp : Z) : M vm Z :=
  match ws with
  | [] => mret esp
  | w :: ws => esp ← push esp (le32 w); push_words ws esp
  end.

(** [esp0] is what the stack pointer holds when there is no stack. *)
Definition setup_stack (esp0 : Z) (m : mem) (argv : list Z) : M vm (bool * Z) :=
  lock_acquire;;
  success ← grow_stack uninit (PHYS_BASE - PGSIZE) false;
  lock_release;;
  if negb success then mret (false, esp0) else
  '(esp, pargv) ← push_strings m (rev argv) PHYS_BASE [];
  esp ← align_stack esp;
  esp ← push esp (le32 0);
  p_argv ← push_words (rev pargv) esp;
  esp ← push p_argv (le32 p_argv);
  esp ← push esp (le32 (Z.of_nat (length argv)));
  esp ← push esp (le32 0);
  mret (true, esp).

(** * [load] *)

(** The copy of [name] at [p], and the literal " " behind it. *)
Definition SPACE : Z := 32.
Definition line_copy (p : Z) (name : bytes) : mem := Directory.bytes_at p (name ++ [0; SPACE; 0]).

(** The loop that splits the command line. *)
Definition split_line (m : mem) (p : Z) (name : bytes) : M vm (list Z * mem) :=
  let d := p + Z.of_nat (length name) + 1 in
  '(arg, saveptr, m) ← on_line m (CString.Ops.strtok_r p d NULL);
  loop (S (S (length name))) (λ '(m, arg, saveptr, argv),
    if negb (arg =? NULL) then
      if ARGV_MAX_SIZE <=? Z.of_nat (length argv) then undef else
      '(arg', saveptr, m) ← on_line m (CString.Ops.strtok_r NULL d saveptr);
      mret (inl (m, arg', saveptr, argv ++ [arg]))
    else mret (inr (argv, m))) (m, arg, saveptr, []).

(** The string at an address of the copy. *)
Definition string_at (m : mem) (a : Z) : M vm bytes :=
  '(n, _) ← on_line m (CString.Ops.strlen a);
  '(bs, _) ← on_line m (CStdlib.Ops.load_block (Z.to_nat n) a);
  mret bs.

(** The program headers; [held] is what the buffer for one holds at first. *)
Definition load_headers (file : Z) (ehdr : Elf32_Ehdr) (held : bytes) : M vm bool :=
  loop (S (Z.to_nat (e_phnum ehdr))) (λ '(i, file_ofs),
    if i <? e_phnum ehdr then
      if file_ofs <? 0 then mret (inr false) else
      len ← on_files (file_length file);
      if len <? file_ofs then mret (inr false) else
      on_files (file_seek file file_ofs);;
      '(n, b) ← on_files (file_read file held sizeof_phdr);
      if negb (n =? sizeof_phdr) then mret (inr false) else
      let phdr := phdr_of b in
      let next := (i + 1, s32 (file_ofs + sizeof_phdr)) in
      if (p_type phdr =? PT_DYNAMIC) || (p_type phdr =? PT_INTERP) || (p_type phdr =? PT_SHLIB)
      then mret (inr false)
      else if p_type phdr =? PT_LOAD then
        ok ← validate_segment phdr file;
        if negb ok then mret (inr false) else
        let '(file_page, mem_page, read_bytes, zero_bytes) := segment_args phdr in
        ok ← load_segment uninit file (s32 file_page) mem_page read_bytes zero_bytes
               (negb (Z.land (p_flags phdr) PF_W =? 0));
        mret (if ok : bool then inl next else inr false)
      else mret (inl next)
    else mret (inr true)) (0, s32 (e_phoff ehdr)).

(** From the open file on: the entry point and the stack pointer. *)
Definition load_file (file : Z) (m : mem) (argv : list Z) (held_e held_p : bytes) (esp0 : Z)
    : M vm (option (Z * Z)) :=
  '(n, b) ← on_files (file_read file held_e sizeof_ehdr);
  let ehdr := ehdr_of b in
  if bad_ehdr n ehdr then
    '(n, b) ← on_files (file_read file b sizeof_ehdr);
    ASSERT (n =? sizeof_ehdr);;
    ASSERT (bool_decide (take 7 b = ELF_MAGIC));;
    mret None
  else
  ok ← load_headers file ehdr held_p;
  if negb ok then mret None else
  '(ok, esp) ← setup_stack esp0 m argv;
  mret (if ok : bool then Some (e_entry ehdr, esp) else None).

(** [line] is where the copy of the command line is allocated; [esp0] is the
    stack pointer of the cleared interrupt frame.  When there is no page
    directory the code frees the copy before it exists.  The executable is
    also stored in [main_file], which nothing here reads. *)
Definition load (file_name : bytes) (line : Z) (held_e held_p : bytes) (esp0 : Z) : M vm (option (Z * Z)) :=
  pd ← on_mmu PageDir.Ops.pagedir_create;
  thread_set (set_pagedir pd);;
  if pd =? NULL then undef else
  process_activate;;
  ok ← malloc;
  ASSERT ok;;
  '(argv, m) ← split_line (line_copy line file_name) line file_name;
  name ← (match argv with a :: _ => string_at m a | [] => panic end);
  file ← on_files (filesys_open name);
  r ← (if file =? NULL then mret None else load_file file m argv held_e held_p esp0);
  match r with
  | Some r => on_files (file_deny_write file);; mret (Some r)
  | None => on_files (file_close file);; mret None
  end.
End loader.
End Ops.
