(* ===== verification/VmFiles.v ===== *)
(** The file system below paging: the open files of [filesys/file.c] keep the
    promises that paging relies on. *)
From Stdlib Require Import ZArith Lia.
From stdpp Require Import base tactics option numbers list gmap.
From S2P Require Import Prelude Bytes Disk FsState Inode Cache InodeIO InodeWrite.
From S2P Require Vm VmInv Directory Loader.
Import Cache.Correct.

Open Scope Z_scope.

Section files.
Context (uninit : fs → nat → list Z).

#[export] Instance fs_file_ops : Vm.FileOps fs := {
  Vm.file_read_at := Inode.file_read_at;
  Vm.file_write_at := Inode.file_write_at uninit (Inode.allocator uninit);
  Vm.file_reopen := Inode.file_reopen uninit;
  Vm.file_length := Inode.file_length;
  Vm.file_seek := Inode.file_seek }.

#[export] Instance fs_exec_ops : Loader.ExecOps fs := {
  Loader.filesys_open := Directory.filesys_open uninit;
  Loader.file_read := Inode.file_read;
  Loader.file_close := Inode.file_close uninit;
  Loader.file_deny_write := Inode.file_deny_write }.

(** An open file, its inode and its blocks. *)
Record open_file (s : fs) (fp ip : Z) (i : inode) (bs : list Z) : Prop := {
  of_file : fp ≠ NULL ∧ ∃ f, files s !! fp = Some f ∧ f_inode f = ip;
  of_inode : ip ≠ NULL ∧ inodes s !! ip = Some i;
  of_mapped : mapped (fs_cache s) (i_ptrs i) bs;
  of_length : 0 ≤ i_length_shown i ≤ i_length i ∧ i_length i ≤ 512 * Z.of_nat (length bs) }.

(** The open files have the contents [m]; [layout] gives the inode and the
    blocks of each inode, and no sector belongs to two of them. *)
Definition fs_shows (s : fs) (m : gmap Z bytes) : Prop :=
  inv (fs_cache s) ∧ ∃ layout : gmap Z (inode * list Z),
    (∀ fp c, m !! fp = Some c → ∃ ip i bs, layout !! ip = Some (i, bs) ∧ open_file s fp ip i bs ∧
       c = contents (fs_cache s) bs (i_length_shown i)) ∧
    (∀ ip ip' i i' bs bs' x, layout !! ip = Some (i, bs) → layout !! ip' = Some (i', bs') → ip ≠ ip' →
       occupies (fs_cache s) (i_ptrs i) bs x → x ∉ bs') ∧
    (∀ ip i bs, layout !! ip = Some (i, bs) → mapped (fs_cache s) (i_ptrs i) bs).

(** Reading one file does not change another. *)
Lemma shows_cached s (m : gmap Z bytes) c' (layout : gmap Z (inode * list Z)) ip i (bs : list Z) :
  inv c' → same_view (fs_cache s) c' → frame (.∈ bs) (fs_cache s) c' → layout !! ip = Some (i, bs) →
  (∀ fp c, m !! fp = Some c → ∃ ip i bs, layout !! ip = Some (i, bs) ∧ open_file s fp ip i bs ∧
     c = contents (fs_cache s) bs (i_length_shown i)) →
  (∀ ip ip' i i' bs bs' x, layout !! ip = Some (i, bs) → layout !! ip' = Some (i', bs') → ip ≠ ip' →
     occupies (fs_cache s) (i_ptrs i) bs x → x ∉ bs') →
  (∀ ip i bs, layout !! ip = Some (i, bs) → mapped (fs_cache s) (i_ptrs i) bs) →
  fs_shows (set_cache c' s) m.
Proof.
  intros Hc' Hv Hfr Hlay Hm Hsep Hmap.
  assert (∀ ip' i' bs', layout !! ip' = Some (i', bs') →
    mapped c' (i_ptrs i') bs' ∧ ∀ x, occupies c' (i_ptrs i') bs' x ↔ occupies (fs_cache s) (i_ptrs i') bs' x) as Hmap'.
  { intros ip' i' bs' Hl'. apply (mapped_frame (.∈ bs) (fs_cache s)); [by eapply Hmap|done|].
    intros x Hx Hin. destruct (decide (ip' = ip)) as [->|Hne]; [by simplify_eq|].
    by destruct (Hsep ip' ip i' i bs' bs x). }
  split; [done|]. exists layout. split; [|split].
  - intros fp c Hfp. destruct (Hm fp c Hfp) as (ip' & i' & bs' & Hl' & [Hf Hi Hmp Hlen] & ->).
    exists ip', i', bs'. split; [done|]. split; [split; [done|done|by eapply Hmap'|done]|].
    apply contents_ext. intros p Hp. unfold file_byte. simpl. by rewrite (proj1 Hv).
  - intros ip1 ip2 i1 i2 bs1 bs2 x Hl1 Hl2 Hne Hx. eapply Hsep; [exact Hl1|exact Hl2|done|].
    by apply (proj2 (Hmap' _ _ _ Hl1)).
  - intros ip' i' bs' Hl'. by eapply Hmap'.
Qed.

(** The bytes read. *)
Lemma bytes_read_contents s i bs buffer offset n buf :
  bytes_read_ok s bs buffer offset n buf → 0 ≤ offset → 0 ≤ n ≤ Z.of_nat (length buffer) →
  (0 < n → offset + n ≤ i_length_shown i) →
  buf = splice buffer 0 (slice (contents (fs_cache s) bs (i_length_shown i)) offset n).
Proof.
  intros (Hl & Hin & Hout) Ho Hn Hle. set (c := contents _ _ _).
  destruct (decide (n = 0)) as [->|Hn0].
  { assert (slice c offset 0 = []) as -> by apply take_0. apply byte_ext; [by rewrite length_splice by (simpl; lia)|].
    intros p Hp. rewrite lookup_splice_out by (simpl; lia). apply Hout; lia. }
  assert (length (slice c offset n) = Z.to_nat n) as Hs.
  { apply length_slice; [lia..|]. unfold c. rewrite length_contents. lia. }
  apply byte_ext; [rewrite length_splice by lia; done|]. intros p Hp. destruct (decide (p < n)).
  - rewrite lookup_splice_in, byte_at_slice by lia. unfold c. rewrite byte_at_contents, Hin by lia. f_equal. lia.
  - rewrite lookup_splice_out by lia. apply Hout; lia.
Qed.

Lemma fs_read_at s m fp c buffer size ofs :
  fs_shows s m → m !! fp = Some c → 0 ≤ ofs → 0 ≤ size ≤ Z.of_nat (length buffer) →
  wp (Vm.file_read_at fp buffer size ofs) (λ r s',
    r.1 = Z.max 0 (Z.min size (Z.of_nat (length c) - ofs)) ∧
    r.2 = splice buffer 0 (slice c ofs r.1) ∧ fs_shows s' m) s.
Proof.
  intros (Hinv & layout & Hm & Hsep & Hmap) Hfp Ho Hsz.
  destruct (Hm fp c Hfp) as (ip & i & bs & Hl & [(_ & f & Hf & Ei) [Hnn Hi] Hmp [Hsh Hlen]] & ->).
  unfold Vm.file_read_at. cbn [fs_file_ops]. unfold Inode.file_read_at, file_at. wp_go. rewrite Hf. wp_go. rewrite Ei.
  eapply wp_mono; [apply (inode_read_at_ok s ip i bs Hnn Hi Hinv Hmp); lia|].
  intros [n buf] s' (En & Hb & c' & -> & Hc' & Hv & Hfr). simpl in *. rewrite length_contents.
  split; [rewrite En; lia|]. split.
  - eapply bytes_read_contents; [done|lia..].
  - by eapply shows_cached.
Qed.

Lemma fs_seek s m fp pos :
  fs_shows s m → is_Some (m !! fp) → 0 ≤ pos → wp (Vm.file_seek fp pos) (λ _ s', fs_shows s' m) s.
Proof.
  intros (Hinv & layout & Hm & Hsep & Hmap) [c Hc] Hpos.
  destruct (Hm fp c Hc) as (ip & i & bs & Hl & [(Hnn & f & Hf & Ei) _ _ _] & _).
  unfold Vm.file_seek. cbn [fs_file_ops]. unfold Inode.file_seek.
  wp_assert (by rewrite (proj2 (Z.eqb_neq _ _) Hnn)). wp_assert (by apply Z.leb_le).
  unfold file_set, file_at. wp_go. rewrite Hf. wp_go. split; [done|]. exists layout. split; [|split; [exact Hsep|exact Hmap]].
  intros fp' c' Hc'. destruct (Hm fp' c' Hc') as (ip' & i' & bs' & Hl' & [(Hnn' & f' & Hf' & Ei') ? ? ?] & ->).
  exists ip', i', bs'. split; [done|]. split; [|done]. split; [|done|done|done]. split; [done|]. simpl.
  destruct (decide (fp' = fp)) as [->|Hne].
  - rewrite lookup_insert_eq. eexists. split; [done|]. simpl. congruence.
  - rewrite lookup_insert_ne by done. by exists f'.
Qed.

#[export] Instance fs_file_laws : VmInv.FileLaws fs :=
  { VmInv.shows := fs_shows; VmInv.file_read_at_shows := fs_read_at;
    VmInv.file_seek_shows := fs_seek }.
End files.
