(* ===== verification/VmTheorems.v ===== *)
(** What virtual memory promises to a process: a private memory that holds what
    was last written to it, whatever the kernel evicts, swaps and brings back
    behind it. *)
From Stdlib Require Import ZArith Lia.
From stdpp Require Import base tactics option numbers list gmap relations.
From S2P Require Import Prelude CString Bytes Disk Palloc PageDir PageOps Vm VmInv VmOps VmPages VmStore VmFault VmLoad.
From S2P Require Bitmap Swap Cache FsState InodeIO InodeWrite FsTheorems MemTheorems VmFiles.
Import MemTheorems.AddressSpaces.

Open Scope Z_scope.

(** * Accesses of the processor *)
Section access.
Context {F : Type} `{FileLaws F}.
Implicit Types st : vm F.
Import Vm.Ops.

(** The translation of a user address in the buffer. *)
Definition translate (va : Z) : M (vm F) Z :=
  st ← get;
  e ← deref (tlb (mm st) !! (va / 4096));
  mret (4096 * (e / 4096) + PHYS_BASE + va mod 4096).

Definition cpu_read (va : Z) : M (vm F) Z := a ← translate va; on_ram (CString.Ops.load a).
Definition cpu_write (va b : Z) : M (vm F) unit := a ← translate va; on_ram (CString.Ops.store a b).

(** The buffer allows the access: a translation for user mode and, for a
    write, one that is writable and marked dirty. *)
Definition may_access (st : vm F) (va : Z) (write : bool) : Prop :=
  0 ≤ va < PHYS_BASE ∧ ∃ e, tlb (mm st) !! (va / 4096) = Some e ∧ Z.testbit e 2 = true ∧
    (write = true → Z.testbit e 1 = true ∧ Z.testbit e 6 = true).
End access.

Section system.
Context {F : Type} `{FileLaws F} (uninit : Z → sup_page_table_entry).
Context (ds : gset Z) (files : gmap Z bytes).
Implicit Types (st : vm F) (A : contents) (live : list (Z * bytes)).
Import Vm.Ops.

(** The page behind a translation, and where it is. *)
Record cached (own : gmap Z Z) A st (pr : process) va (w : bool) p e c f : Prop := {
  ca_own : own !! p = Some (current st);
  ca_page : pages st !! p = Some e;
  ca_no : page_no e = va / 4096;
  ca_loaded : p_loaded e = true;
  ca_entry : entry_ok files e;
  ca_contents : A !! (current st, va / 4096) = Some c;
  ca_frame : upage (mach (mm st)) f ∧ mk_fte f (current st) p ∈ frame_table st;
  ca_holds : Swap.page_of (memory st) f = c;
  ca_lookup : lookup (mm st) (pagedir pr) (va / 4096) =
    mk_entry true f (p_writable e) true true (dirty (lookup (mm st) (pagedir pr) (va / 4096)));
  ca_dirty : w = true → dirty (lookup (mm st) (pagedir pr) (va / 4096)) = true;
  ca_translate : ∀ Q : Z → vm F → Prop, Q (f + va mod 4096) st → wp (translate va) Q st }.

Lemma access_cached own live A st pr va w :
  vm_inv ds own files live A st → processes st !! current st = Some pr → active (mm st) = pagedir pr →
  may_access st va w → ∃ p e c f, cached own A st pr va w p e c f.
Proof.
  intros Hinv Hpr Ea (Hva & x & Hx & Hx2 & Hw). pose proof (user_page va Hva) as Hn.
  pose proof (proj1 (coherent_lookup (mm st)) (mi_tlb _ _ (vi_mmu _ _ _ _ _ _ Hinv)) _ _ Hn Hx)
    as (Hp & Hf & H1 & H2 & Hac & Hd).
  rewrite Ea in *. destruct (vi_mapped _ _ _ _ _ _ Hinv _ _ _ Hpr Hn Hp) as (p & e & Ho & He & En & Hl).
  destruct (vi_pages _ _ _ _ _ _ Hinv _ _ Ho) as (_ & e' & pr' & c & He' & Hpr' & HA & Hok & Hh).
  rewrite He in He'. apply (inj Some) in He' as <-. rewrite Hpr in Hpr'. apply (inj Some) in Hpr' as <-.
  unfold page_holds in Hh. rewrite Hl, En in Hh. destruct Hh as (_ & Hin & Hc & Hwr & Hus & _). rewrite En in HA.
  set (f := frame (lookup (mm st) (pagedir pr) (va / 4096))) in *. exists p, e, c, f. split; try done.
  - split; [|done]. exact (proj1 (vi_table _ _ _ _ _ _ Hinv _ Hin)).
  - revert Hp Hwr Hus Hac. subst f. generalize (lookup (mm st) (pagedir pr) (va / 4096)). intros []. cbn. congruence.
  - intros E. apply Hd, (Hw E).
  - intros Q HQ. unfold translate. wp_go. rewrite Hx. wp_go. by rewrite Hf.
Qed.

Lemma cpu_read_ok own live A st pr va :
  vm_inv ds own files live A st → processes st !! current st = Some pr → active (mm st) = pagedir pr →
  may_access st va false →
  wp (cpu_read va) (λ b st', st' = st ∧ ∃ c, A !! (current st, va / 4096) = Some c ∧ b = byte_at c (va mod 4096)) st.
Proof.
  intros Hinv Hpr Ea Hma. destruct (access_cached _ _ _ _ _ _ _ Hinv Hpr Ea Hma) as (p & e & c & f & Hca).
  unfold cpu_read. wp_unbind. apply (ca_translate _ _ _ _ _ _ _ _ _ _ Hca). apply wp_on_ram.
  destruct (upage_facts _ _ (si_inv _ _ (mi_space _ _ (vi_mmu _ _ _ _ _ _ Hinv))) (proj1 (ca_frame _ _ _ _ _ _ _ _ _ _ Hca)))
    as (_ & _ & _ & _ & _ & Hp & _).
  pose proof (Z.mod_pos_bound va 4096 ltac:(lia)) as Hk.
  unfold CString.Ops.load. wp_go. unfold memory. rewrite (page_of_lookup _ f _ Hp Hk). wp_go. split.
  - unfold with_memory. by destruct st as [[[]] ].
  - exists c. split; [apply Hca|]. by rewrite <-(ca_holds _ _ _ _ _ _ _ _ _ _ Hca).
Qed.

(** A byte stored through the buffer changes one page. *)
Lemma page_written own live A st pr va p e c f b :
  vm_inv ds own files live A st → processes st !! current st = Some pr → cached own A st pr va true p e c f →
  vm_inv ds own files live (<[(current st, va / 4096) := splice c (va mod 4096) [b]]> A)
    (with_memory (<[f + va mod 4096 := b]> (memory st)) st).
Proof.
  intros Hinv Hpr [Ho He En Hl Hok HA [Hu Hin] Hc Hlk Hd _]. rewrite <-En in *.
  apply (page_stored ds files own live A st (current st) pr p e c f); try done.
  - by rewrite Hlk.
  - auto.
  - apply Z.mod_pos_bound. lia.
Qed.

Lemma cpu_write_ok own live A st pr va b :
  vm_inv ds own files live A st → processes st !! current st = Some pr → active (mm st) = pagedir pr →
  may_access st va true →
  wp (cpu_write va b) (λ _ st', ∃ c m', st' = with_memory m' st ∧ A !! (current st, va / 4096) = Some c ∧
    vm_inv ds own files live (<[(current st, va / 4096) := splice c (va mod 4096) [b]]> A) st') st.
Proof.
  intros Hinv Hpr Ea Hma. destruct (access_cached _ _ _ _ _ _ _ Hinv Hpr Ea Hma) as (p & e & c & f & Hca).
  unfold cpu_write. wp_unbind. apply (ca_translate _ _ _ _ _ _ _ _ _ _ Hca). apply wp_on_ram.
  destruct (upage_facts _ _ (si_inv _ _ (mi_space _ _ (vi_mmu _ _ _ _ _ _ Hinv))) (proj1 (ca_frame _ _ _ _ _ _ _ _ _ _ Hca)))
    as (_ & _ & _ & _ & _ & Hp & _).
  pose proof (Z.mod_pos_bound va 4096 ltac:(lia)) as Hk.
  unfold CString.Ops.store. wp_go. unfold memory. rewrite (page_of_lookup _ f _ Hp Hk). wp_go.
  exists c, (<[f + va mod 4096 := b]> (memory st)). split; [done|]. split; [apply Hca|]. by apply page_written with (pr := pr) (p := p) (e := e).
Qed.

(** * The system *)

(** What happens to the memory of the processes: the running process faults,
    the processor fills and empties its buffer, reads and writes through it,
    and another process is switched to. *)
Inductive event :=
| Fault (fault_addr error_code esp : Z)
| Walk (n : Z) (write : bool)
| Forget (n : Z)
| Read (va : Z)
| Write (va b : Z)
| Switch (t : Z).

Inductive outcome := Ended (r : ending) | Value (b : Z) | Done.

Definition run (ev : event) : M (vm F) outcome :=
  match ev with
  | Fault a err esp => r ← page_fault uninit a err esp SEL_UCSEG; mret (Ended r)
  | Walk n write => on_mmu (walk n write);; mret Done
  | Forget n => on_mmu (forget n);; mret Done
  | Read va => b ← cpu_read va; mret (Value b)
  | Write va b => cpu_write va b;; mret Done
  | Switch t => modify (set_current t);; process_activate;; mret Done
  end.

(** When it can happen.  A fault is one the processor raises; there is memory
    for the kernel's own bookkeeping, and a frame that is free or can be
    evicted to a free slot. *)
Definition may_run st (ev : event) : Prop :=
  match ev with
  | Fault a err _ =>
      frame_available st ∧ head (malloc_outcomes st) ≠ Some false ∧
      ∃ pr, processes st !! current st = Some pr ∧ raised st pr a err
  | Walk n write => may_walk n write (mm st)
  | Forget _ => True
  | Read va => may_access st va false
  | Write va _ => may_access st va true
  | Switch t => is_Some (processes st !! t)
  end.

(** The abstract system: the running process [x.1], and for every process and
    page number the bytes of the page, in [x.2]. *)
Definition effect (ev : event) (x : Z * contents) (out : outcome) (x' : Z * contents) : Prop :=
  match ev with
  | Fault a _ _ =>
      x'.1 = x.1 ∧
      (x'.2 = x.2 ∨ ∃ c, x.2 !! (x.1, a / 4096) = None ∧ x'.2 = <[(x.1, a / 4096) := c]> x.2) ∧
      ∃ r, out = Ended r ∧ (r = Returns → is_Some (x'.2 !! (x.1, a / 4096)))
  | Walk _ _ | Forget _ => out = Done ∧ x' = x
  | Read va => x' = x ∧ ∃ c, x.2 !! (x.1, va / 4096) = Some c ∧ out = Value (byte_at c (va mod 4096))
  | Write va b => out = Done ∧ ∃ c, x.2 !! (x.1, va / 4096) = Some c ∧
      x' = (x.1, <[(x.1, va / 4096) := splice c (va mod 4096) [b]]> x.2)
  | Switch t => out = Done ∧ x' = (t, x.2)
  end.

(** The state represents an abstract one: the invariant holds, the lock is free
    and the processor is in the address space of the running process. *)
Definition represents st (x : Z * contents) : Prop :=
  (∃ own live, vm_inv ds own files live x.2 st) ∧ lock_frame st = false ∧ current st = x.1 ∧
  ∃ pr, processes st !! x.1 = Some pr ∧ active (mm st) = pagedir pr.

Lemma set_mm_inv own live A st s' :
  vm_inv ds own files live A st → mm_keeps ds (frame_table st) (mm st) s' → vm_inv ds own files live A (set_mm s' st).
Proof. intros Hinv Hk. eapply inv_same; [done|done|by split|apply Hinv]. Qed.

Lemma same_mach_keeps ft (s s' : mmu) :
  mmu_inv ds s' → mach s' = mach s → ram_pages s' = ram_pages s → base_page_dir s' = base_page_dir s → mm_keeps ds ft s s'.
Proof.
  intros Hm Ex Er Eb. split; [done|done|by rewrite Ex|by rewrite Ex|]. intros pd n _ _. unfold lookup. by rewrite Ex.
Qed.

Lemma touch_keeps write x : keeps_entry x (touch write x).
Proof. unfold touch. destruct write; by split_and!. Qed.

(** A page that is mapped is a page of the process. *)
Lemma mapped_contents own live A st t pr n :
  vm_inv ds own files live A st → processes st !! t = Some pr → 0 ≤ n < USER_PAGES →
  present (lookup (mm st) (pagedir pr) n) = true → is_Some (A !! (t, n)).
Proof.
  intros Hinv Hpr Hn Hp. destruct (vi_mapped _ _ _ _ _ _ Hinv _ _ _ Hpr Hn Hp) as (p & e & Ho & He & <- & _).
  destruct (vi_pages _ _ _ _ _ _ Hinv _ _ Ho) as (_ & e' & _ & c & He' & _ & HA & _).
  rewrite He in He'. apply (inj Some) in He' as <-. by exists c.
Qed.

Lemma switch_ok own live A st t :
  vm_inv ds own files live A st → lock_frame st = false → is_Some (processes st !! t) →
  wp (run (Switch t)) (λ out st', out = Done ∧ represents st' (t, A)) st.
Proof.
  intros Hinv Hlk [pr Hpr]. unfold run. wp_go. unfold process_activate. wp_unbind. eapply wp_running; [exact Hpr|].
  destruct (vi_procs _ _ _ _ _ _ Hinv _ _ Hpr) as (Hd & _). pose proof (vi_mmu _ _ _ _ _ _ Hinv) as Hm.
  destruct (kpage_facts _ (pagedir pr) (si_inv _ _ (mi_space _ _ Hm))) as (_ & Hl & _).
  { apply (dw_page _ _ (si_dirs _ _ (mi_space _ _ Hm) _ Hd)). }
  apply wp_on_mmu. eapply wp_mono; [apply (pagedir_activate_ok ds); [exact Hm|by right]|].
  intros [] s' (Hm' & Ex & (_ & Er & Eb) & Ea). rewrite decide_False in Ea by (unfold PHYS_BASE, NULL in *; lia).
  wp_go. split; [done|]. split; [exists own, live|split; [done|split; [done|by exists pr]]].
  eapply (inv_same ds own files live A st); [done|by apply same_mach_keeps|by split|apply Hinv].
Qed.

(** The memory management unit moves on, and all pages hold what they held. *)
Lemma represents_mm own live A st pr s' :
  vm_inv ds own files live A st → lock_frame st = false → processes st !! current st = Some pr →
  active (mm st) = pagedir pr → mm_keeps ds (frame_table st) (mm st) s' → cr3 s' = cr3 (mm st) →
  represents (set_mm s' st) (current st, A).
Proof.
  intros Hinv Hlk Hpr Ea Hk E3. split; [exists own, live; by apply set_mm_inv|].
  split; [done|]. split; [done|]. exists pr. split; [done|]. rewrite <-Ea. unfold active. vm_cbn. by rewrite E3.
Qed.

Lemma run_ok st x ev :
  represents st x → may_run st ev → wp (run ev) (λ out st', ∃ x', effect ev x out x' ∧ represents st' x') st.
Proof.
  destruct x as [t A]. intros ((own & live & Hinv) & Hlk & Ec & pr & Hpr & Ea) Hmay. cbn [fst snd] in *.
  subst t. assert (mmu_inv ds (mm st)) as Hm by apply Hinv. destruct ev; cbn [may_run effect] in *; [unfold run; wp_unbind..|].
  - destruct Hmay as (Hav & Hma & pr' & Hpr' & Hr). rewrite Hpr in Hpr'. apply (inj Some) in Hpr' as <-.
    eapply wp_mono; [by eapply page_fault_ok|]. intros r st' ([E1 E2 E3 E4] & (own' & live' & A' & Hinv' & Hex) & Hret).
    wp_go. destruct (E4 _ _ Hpr) as (pr' & Hpr' & Epd). exists (current st, A'). cbn [fst snd]. split.
    + split; [done|]. split; [exact Hex|]. exists r. split; [done|]. intros Er. destruct (Hret Er) as [Hu Hpres].
      rewrite <-Epd in Hpres. eapply mapped_contents; [exact Hinv'|exact Hpr'|by apply user_page|exact Hpres].
    + split; [by exists own', live'|]. split; [congruence|]. split; [done|]. exists pr'. split; [done|].
      rewrite Epd, <-Ea. unfold active. by rewrite E3.
  - apply wp_on_mmu. eapply wp_mono; [by apply (walk_ok ds)|]. intros [] s' (Hm' & Hch & _). wp_go.
    exists (current st, A). split; [done|]. eapply represents_mm; [done..| |by destruct (ch_regs _ _ _ _ _ _ Hch) as (_ & _ & ->)].
    eapply changed_keeps; [apply Hm|done|done|apply touch_keeps].
  - apply wp_on_mmu. eapply wp_mono; [by apply (forget_ok ds)|]. intros [] s' (Hm' & Ex & Er & Eb & E3). wp_go.
    exists (current st, A). split; [done|]. eapply represents_mm; [done..| |done]. by apply same_mach_keeps.
  - eapply wp_mono; [by apply (cpu_read_ok own live A st pr)|]. intros b st' (-> & c & HA & ->). wp_go.
    exists (current st, A). split; [split; [done|by exists c]|]. split; [by exists own, live|]. by split_and!; [..|exists pr].
  - eapply wp_mono; [by apply (cpu_write_ok own live A st pr)|]. intros [] st' (c & m' & -> & HA & Hinv'). wp_go.
    eexists. split; [split; [done|by exists c]|]. split; [by exists own, live|]. by split_and!; [..|exists pr].
  - eapply wp_mono; [by eapply switch_ok|]. intros out st' [-> Hst']. by exists (t, A).
Qed.

(** ** Sequences of events *)
Inductive runs : vm F → list (event * outcome) → vm F → Prop :=
| runs_nil st : runs st [] st
| runs_cons st ev out st1 tr st' :
    may_run st ev → run ev st = Ok (out, st1) → runs st1 tr st' → runs st ((ev, out) :: tr) st'.

Inductive behaves : Z * contents → list (event * outcome) → Z * contents → Prop :=
| behaves_nil x : behaves x [] x
| behaves_cons x ev out x1 tr x' : effect ev x out x1 → behaves x1 tr x' → behaves x ((ev, out) :: tr) x'.

Lemma runs_simulated st x tr st' :
  represents st x → runs st tr st' → ∃ x', behaves x tr x' ∧ represents st' x'.
Proof.
  intros Hrep Hruns. revert x Hrep. induction Hruns as [st|st ev out st1 tr st' Hmay Hrun _ IH]; intros x Hrep.
  { exists x. by split; [constructor|]. }
  destruct (proj1 (wp_ok _ _ _) (run_ok st x ev Hrep Hmay)) as (out' & st1' & E & x1 & Heff & Hrep1).
  rewrite Hrun in E. injection E as <- <-. destruct (IH x1 Hrep1) as (x' & Hb & Hrep').
  exists x'. split; [by econstructor|done].
Qed.


(** The byte at [va] of process [t1] after some events, when [t] runs at first
    and the byte was [b]. *)
Fixpoint last_write (t1 va t : Z) (tr : list (event * outcome)) (b : Z) : Z :=
  match tr with
  | [] => b
  | (Write va' b', _) :: tr => last_write t1 va t tr (if decide (t = t1 ∧ va' = va) then b' else b)
  | (Switch t', _) :: tr => last_write t1 va t' tr b
  | _ :: tr => last_write t1 va t tr b
  end.

Lemma splice_byte (c : bytes) k k' b : length c = Z.to_nat 4096 → 0 ≤ k < 4096 → 0 ≤ k' < 4096 →
  byte_at (splice c k [b]) k' = if decide (k = k') then b else byte_at c k'.
Proof.
  intros Hl Hk Hk'. case_decide as Hd.
  - subst k'. rewrite lookup_splice_in; [by rewrite Z.sub_diag|lia|rewrite Hl|]; cbn [length]; lia.
  - rewrite lookup_splice_out; [done|lia|rewrite Hl|lia|]; cbn [length]; lia.
Qed.

(** All pages have 4096 bytes. *)
Definition full (x : Z * contents) : Prop := ∀ k c, x.2 !! k = Some c → length c = Z.to_nat 4096.

Lemma represents_full st x : represents st x → full x.
Proof.
  intros [(own & live & Hinv) _] [t n] c Hc. destruct (vi_cover _ _ _ _ _ _ Hinv _ _ _ Hc) as (p & e & Ho & He & <-).
  destruct (vi_pages _ _ _ _ _ _ Hinv _ _ Ho) as (_ & e' & pr & c' & He' & _ & HA & Hok & Hh).
  rewrite He in He'. apply (inj Some) in He' as <-. rewrite Hc in HA. apply (inj Some) in HA as <-.
  unfold page_holds in Hh. destruct (p_loaded e).
  - destruct Hh as (_ & _ & <- & _). apply page_of_length.
  - destruct Hh as [_ Hh]. case_decide as Hty.
    + subst c. apply has_file_length. destruct (eo_type _ _ Hok) as [(_ & Hf & _)|E]; [done|]. rewrite E in Hty. discriminate Hty.
    + destruct Hh as [_ Hl]. destruct (vi_swap _ _ _ _ _ _ Hinv) as [Hw Hs].
      destruct (Swap.h_slot _ _ Hs _ _ Hl) as (k & _ & _ & _ & <-).
      unfold Swap.slot_bytes. rewrite Swap.sectors_length by apply Hw. lia.
Qed.

(** One event. *)
Lemma effect_last_write t1 va x ev out x1 tr c :
  effect ev x out x1 → full x → x.2 !! (t1, va / 4096) = Some c →
  ∃ c1, x1.2 !! (t1, va / 4096) = Some c1 ∧
    last_write t1 va x.1 ((ev, out) :: tr) (byte_at c (va mod 4096)) =
    last_write t1 va x1.1 tr (byte_at c1 (va mod 4096)).
Proof.
  intros Heff Hf Hc. destruct ev; cbn [effect last_write] in *.
  - destruct Heff as (E1 & E2 & _). rewrite E1. exists c. split; [|done].
    destruct E2 as [->|(c0 & Hnone & ->)]; [done|]. rewrite lookup_insert_ne; [done|]. intros [= E E']. rewrite E, E' in Hnone. congruence.
  - destruct Heff as [_ ->]. by exists c.
  - destruct Heff as [_ ->]. by exists c.
  - destruct Heff as [-> _]. by exists c.
  - destruct Heff as (_ & c0 & Hc0 & ->). cbn [fst snd] in *.
    pose proof (Z.mod_pos_bound va 4096 ltac:(lia)). pose proof (Z.mod_pos_bound va0 4096 ltac:(lia)).
    pose proof (Z.div_mod va 4096 ltac:(lia)). pose proof (Z.div_mod va0 4096 ltac:(lia)).
    destruct (decide (x.1 = t1 ∧ va0 / 4096 = va / 4096)) as [[E En]|Hne].
    + rewrite E, En in *. rewrite Hc in Hc0. apply (inj Some) in Hc0 as <-.
      eexists. split; [apply lookup_insert_eq|]. rewrite splice_byte by (by eapply Hf || lia). f_equal.
      destruct (decide (va0 mod 4096 = va mod 4096)); [rewrite decide_True by (split; [done|lia])|rewrite decide_False by (intros [_ ?]; congruence)]; done.
    + rewrite decide_False by (intros [? ->]; by apply Hne). exists c. split; [|done].
      rewrite lookup_insert_ne; [done|]. intros [= ? ?]. by apply Hne.
  - destruct Heff as [_ ->]. by exists c.
Qed.

Lemma runs_last_write t1 va st x tr st' c :
  represents st x → runs st tr st' → x.2 !! (t1, va / 4096) = Some c →
  ∃ x' c', represents st' x' ∧ x'.2 !! (t1, va / 4096) = Some c' ∧
    byte_at c' (va mod 4096) = last_write t1 va x.1 tr (byte_at c (va mod 4096)).
Proof.
  intros Hrep Hruns. revert x c Hrep. induction Hruns as [st|st ev out st1 tr st' Hmay Hrun _ IH]; intros x c Hrep Hc.
  { by exists x, c. }
  destruct (proj1 (wp_ok _ _ _) (run_ok st x ev Hrep Hmay)) as (out' & st1' & E & x1 & Heff & Hrep1).
  rewrite Hrun in E. injection E as <- <-.
  destruct (effect_last_write t1 va x ev out x1 tr c Heff (represents_full _ _ Hrep) Hc) as (c1 & Hc1 & ->). by apply IH.
Qed.


(** ** Executable guards *)
Definition frame_availableb st : bool :=
  existsb (λ i, negb (Bitmap.bit (used_map (user_pool (mach (mm st)))) i))
    (seqZ 0 (Bitmap.bit_cnt (used_map (user_pool (mach (mm st)))))) ||
  match frame_table st with
  | [] => false
  | _ => existsb (λ k, negb (Bitmap.bit (swap_table st) k)) (seqZ 0 (Bitmap.bit_cnt (swap_table st)))
  end.

Definition may_accessb st (va : Z) (write : bool) : bool :=
  (0 <=? va) && (va <? PHYS_BASE) &&
  match tlb (mm st) !! (va / 4096) with
  | Some e => Z.testbit e 2 && implb write (Z.testbit e 1 && Z.testbit e 6)
  | None => false
  end.

Definition may_runb st (ev : event) : bool :=
  match ev with
  | Fault a err _ =>
      frame_availableb st &&
      match malloc_outcomes st with false :: _ => false | _ => true end &&
      match processes st !! current st with
      | Some pr => (0 <=? a) && (a <? 2 ^ 32) && negb (present (lookup (mm st) (pagedir pr) (a / 4096)))
      | None => false
      end
  | Walk n write =>
      let e := lookup (mm st) (active (mm st)) n in
      (0 <=? n) && (n <? USER_PAGES) && present e && implb write (writable e)
  | Forget _ => true
  | Read va => may_accessb st va false
  | Write va _ => may_accessb st va true
  | Switch t => match processes st !! t with Some _ => true | None => false end
  end.

Lemma frame_availableb_ok st : frame_availableb st = true → frame_available st.
Proof.
  unfold frame_availableb. intros [Hx|Hx]%orb_true_iff; [left|right].
  - apply existsb_exists in Hx as (i & Hi & Hb). apply list_elem_of_In, elem_of_seqZ in Hi. intros Hex.
    apply (Hex i); [lia|cbn; lia|]. intros j Hj. replace j with i by lia. by apply negb_true_iff.
  - destruct (frame_table st) as [|x ft] eqn:E; [done|]. split; [done|].
    apply existsb_exists in Hx as (k & Hk & Hb). apply list_elem_of_In, elem_of_seqZ in Hk.
    exists k. split; [cbn; lia|]. by apply negb_true_iff.
Qed.

Lemma may_accessb_ok st va write : may_accessb st va write = true → may_access st va write.
Proof.
  unfold may_accessb. rewrite !andb_true_iff, Z.leb_le, Z.ltb_lt. intros [Hva He]. split; [done|].
  destruct (tlb (mm st) !! (va / 4096)) as [e|]; [|done]. exists e. split; [done|].
  apply andb_true_iff in He as [H2 Hw]. split; [done|]. intros ->. by apply andb_true_iff.
Qed.

Lemma may_runb_ok st ev : may_runb st ev = true → may_run st ev.
Proof.
  destruct ev; cbn [may_runb may_run]; [| |done|apply may_accessb_ok|apply may_accessb_ok|].
  - rewrite !andb_true_iff. intros [[Hav Hma] Hpr]. split; [by apply frame_availableb_ok|].
    split; [by destruct (malloc_outcomes st) as [|[] ?]|]. destruct (processes st !! current st) as [pr|]; [|done].
    rewrite !andb_true_iff, Z.leb_le, Z.ltb_lt, negb_true_iff in Hpr. destruct Hpr as [Ha Hnp].
    exists pr. split; [done|]. by split.
  - rewrite !andb_true_iff, Z.leb_le, Z.ltb_lt. intros [[Hn Hp] Hw]. split; [done|]. split; [done|].
    intros ->. exact Hw.
  - destruct (processes st !! t); [done|]. intros [=].
Qed.

(** The events of a list, one after the other. *)
Fixpoint execute (evs : list event) st : option (list (event * outcome) * vm F) :=
  match evs with
  | [] => Some ([], st)
  | ev :: evs =>
      if may_runb st ev then
        match run ev st with
        | Ok (out, st1) =>
            match execute evs st1 with Some (tr, st') => Some ((ev, out) :: tr, st') | None => None end
        | _ => None
        end
      else None
  end.

Lemma execute_runs evs st tr st' : execute evs st = Some (tr, st') → runs st tr st'.
Proof.
  revert st tr. induction evs as [|ev evs IH]; intros st tr; cbn [execute].
  { intros [= <- <-]. constructor. }
  destruct (may_runb st ev) eqn:Em; [|intros [=]]. destruct (run ev st) as [[out st1]| | |] eqn:Er; [|intros [=]..].
  destruct (execute evs st1) as [[tr1 st1']|] eqn:Ee; [|intros [=]]. intros [= <- <-].
  econstructor; [by apply may_runb_ok|done|by apply IH].
Qed.


(** C6: an access that is not the process's to make ends it with status -1: an
    address of the kernel, a forbidden access to a page that is there, or an
    address in no page of the process that is further than [LIMIT] below the
    top of user memory or more than 32 bytes below the stack pointer.  Nothing
    but the fault counter changes. *)
Theorem page_fault_rejects st x a err esp cs :
  represents st x → is_u32 a →
  PHYS_BASE ≤ a ∨ Z.land err PF_P ≠ 0 ∨
  (x.2 !! (x.1, a / 4096) = None ∧ (LIMIT < u32 (PHYS_BASE - pg_round_down a) ∨ a < u32 (esp - 32))) →
  page_fault uninit a err esp cs st = Ok (Exits (-1), set_fault_cnt (page_fault_cnt st + 1) st).
Proof.
  intros ((own & live & Hinv) & _ & Ec & pr & Hpr & _) Ha Hil. rewrite <-Ec in *.
  pose proof (page_fault_illegal uninit ds files own live x.2 st pr a err esp cs Hinv Hpr Ha Hil) as Hwp.
  by apply wp_ok in Hwp as (r & st' & E & -> & ->).
Qed.

(** C9: loading a segment of an executable gives the process the pages of the
    segment and leaves all others alone: page [k] holds bytes [4096 k] to
    [4096 k + 4095] of the file's part followed by zeros, though nothing has
    been read yet. *)
Theorem load_segment_maps st x fp c ofs a rb zb w :
  represents st x → Forall (eq true) (malloc_outcomes st) → files !! fp = Some c → segment_fits c ofs a rb zb →
  (∀ n, a / 4096 ≤ n < a / 4096 + (rb + zb) / 4096 → x.2 !! (x.1, n) = None) →
  ∃ st' A', load_segment uninit fp ofs a rb zb w st = Ok (true, st') ∧ represents st' (x.1, A') ∧
    ∀ t n, A' !! (t, n) = if decide (t = x.1 ∧ a / 4096 ≤ n < a / 4096 + (rb + zb) / 4096)
      then Some (slice (slice c ofs rb ++ replicate (Z.to_nat zb) 0) (4096 * (n - a / 4096)) 4096)
      else x.2 !! (t, n).
Proof.
  intros ((own & live & Hinv) & Hlk & Ec & pr & Hpr & Ea) Hma Hc Hfit Hfree. rewrite <-Ec in *.
  pose proof (load_segment_ok uninit ds files own live x.2 st pr fp c ofs a rb zb w Hinv Hpr Hlk Hma Hc Hfit Hfree) as Hwp.
  apply wp_ok in Hwp as (r & st' & E & -> & [(own' & live' & A' & Hinv' & Hent) Ec' El' E3 (pr0 & pr' & Hpr0 & Hpr' & Epd) _]).
  exists st', A'. split; [done|]. split; [|exact Hent]. split; [by exists own', live'|]. split; [done|]. split; [done|].
  exists pr'. split; [done|]. rewrite Hpr in Hpr0. apply (inj Some) in Hpr0 as <-.
  rewrite Epd, <-Ea. unfold active. by rewrite E3.
Qed.
End system.

(** * One frame for two pages

    Process 7 has two pages, both on the swap disk, and there is one frame. *)
Module Small.
Import Vm.Ops.
#[local] Instance file_ops : FileOps FsState.fs := VmFiles.fs_file_ops FsTheorems.zeros.
#[local] Instance file_laws : FileLaws FsState.fs := VmFiles.fs_file_laws FsTheorems.zeros.

Definition swapped_page (va n : Z) : sup_page_table_entry :=
  mk_spte va 0 0 0 false true NULL 0 true false 0 TYPE_SWAP 0 n.
Definition fresh (p : Z) : sup_page_table_entry := swapped_page 0 0.
Definition swap_disk : disk := mk_disk 64 ∅.

Definition the_process : process := mk_process process_dir [1; 2] [] 0 [].
Definition s0 : vm FsState.fs :=
  mk_vm (small_machine 0 process_dir) swap_disk (Bitmap.mk_bitmap 8 [3]) []
    {[1 := swapped_page 0x08048000 0; 2 := swapped_page 0x08049000 8]}
    {[7 := the_process]} 7 false 0 3 [] FsTheorems.Sample.s0.

Definition contents0 : contents :=
  {[(7, 0x8048) := Swap.slot_bytes swap_disk 0; (7, 0x8049) := Swap.slot_bytes swap_disk 8]}.
Definition own0 : gmap Z Z := {[1 := 7; 2 := 7]}.
Definition live0 : list (Z * bytes) := [(0, Swap.slot_bytes swap_disk 0); (8, Swap.slot_bytes swap_disk 8)].

Lemma own_cases p t : own0 !! p = Some t ↔ (p = 1 ∨ p = 2) ∧ t = 7.
Proof.
  unfold own0. split; [|by intros [[-> | ->] ->]].
  intros [[<- <-]|[_ [<- <-]%lookup_singleton_Some]]%lookup_insert_Some; auto.
Qed.

Lemma pages_at p : p = 1 ∨ p = 2 → pages s0 !! p = Some (swapped_page (0x08047000 + 4096 * p) (8 * (p - 1))).
Proof. by intros [-> | ->]. Qed.

Lemma process_at t pr : processes s0 !! t = Some pr → t = 7 ∧ pr = the_process.
Proof. unfold s0. vm_cbn. by intros [<- <-]%lookup_singleton_Some. Qed.

Lemma process_dir_in : process_dir ∈ both.
Proof. unfold both. set_solver. Qed.

Lemma swap_ok : Swap.swap_wf (swap_part s0) ∧ Swap.holds live0 (swap_part s0).
Proof.
  split; split; try done.
  - split; [cbn; lia|done|repeat constructor; unfold is_u32; lia].
  - intros n page Hin. unfold live0 in Hin.
    apply elem_of_cons in Hin as [[= -> ->]|[= -> ->]%list_elem_of_singleton]; [exists 0|exists 1]; split_and!; cbn; (reflexivity || lia).
  - intros k Hk Hb. assert (k = 0 ∨ k = 1) as [-> | ->]; [|cbn; set_solver..].
    unfold Bitmap.bit in Hb. cbn in Hk, Hb. destruct (decide (k < 2)); [lia|]. exfalso.
    assert (k = 2 ∨ k = 3 ∨ k = 4 ∨ k = 5 ∨ k = 6 ∨ k = 7) as Hcase by lia. 
    repeat (destruct Hcase as [-> | Hcase]; [discriminate Hb|]). subst k. discriminate Hb.
  - cbn. repeat constructor; set_solver.
Qed.

(** The file of the free map is open. *)
Definition files0 : gmap Z bytes :=
  {[50 := InodeWrite.contents (FsState.fs_cache FsTheorems.Sample.s0) [2] 8]}.

Lemma files_ok : shows (filesys s0) files0.
Proof.
  assert (Cache.inv (FsState.fs_cache FsTheorems.Sample.s0)) as Hinv by (apply FsTheorems.Sample.cache_inv; by left).
  assert (InodeIO.mapped (FsState.fs_cache FsTheorems.Sample.s0) (FsState.i_ptrs FsTheorems.Sample.fmap_inode) [2]) as Hmap
    by (apply FsTheorems.Sample.fmap_mapped; by left).
  split; [exact Hinv|]. exists {[40 := (FsTheorems.Sample.fmap_inode, [2])]}. split; [|split].
  - unfold files0. intros fp c [<- <-]%lookup_singleton_Some. exists 40, FsTheorems.Sample.fmap_inode, [2]. split; [apply lookup_singleton_eq|].
    split; [|reflexivity]. split; [split; [done|by eexists]|done|exact Hmap|cbn; lia].
  - intros ip ip' i i' bs bs' x [<- _]%lookup_singleton_Some [<- _]%lookup_singleton_Some Hne. done.
  - intros ip i bs [<- [= <- <-]]%lookup_singleton_Some. exact Hmap.
Qed.

Lemma s0_inv : vm_inv both own0 files0 live0 contents0 s0.
Proof.
  pose proof process_dir_in as Hpd. split.
  - apply small_machine_inv; [unfold is_u32; lia|done].
  - cbn. unfold pool_end, PHYS_BASE. cbn. lia.
  - exact swap_ok.
  - exact files_ok.
  - cbn. lia.
  - intros t pr [-> ->]%process_at. split; [done|]. split; [done|]. split.
    + by intros t' pr' [-> _]%process_at.
    + intros p. rewrite own_cases. cbn [the_process sup_page_table]. rewrite elem_of_cons, list_elem_of_singleton. naive_solver.
  - apply NoDup_nil_2.
  - intros x Hx. by apply elem_of_nil in Hx.
  - intros p t [Hp ->]%own_cases. split; [cbn; lia|]. rewrite pages_at by done.
    eexists _, the_process, (Swap.slot_bytes swap_disk (8 * (p - 1))). split; [done|]. split; [done|]. split.
    { destruct Hp as [-> | ->]; reflexivity. }
    split; [split; [cbn; unfold PHYS_BASE; lia|destruct Hp as [-> | ->]; reflexivity|by right]|].
    unfold page_holds. cbn [p_loaded swapped_page mm s0 the_process pagedir]. rewrite small_machine_empty; [|done|].
    + split; [done|]. rewrite decide_False by done. split; [done|]. destruct Hp as [-> | ->]; cbn; set_solver.
    + destruct Hp as [-> | ->]; vm_compute; (split; [discriminate|reflexivity]).
  - intros p p' t e e' [Hp ->]%own_cases [Hp' _]%own_cases. rewrite !pages_at by done. intros [= <-] [= <-].
    destruct Hp as [-> | ->], Hp' as [-> | ->]; done.
  - intros t n c Hc. unfold contents0 in Hc.
    apply lookup_insert_Some in Hc as [[[= <- <-] <-]|[_ [[= <- <-] <-]%lookup_singleton_Some]]; [exists 1|exists 2]; by eexists.
  - intros t pr n [-> ->]%process_at Hn. cbn [mm s0 the_process pagedir]. by rewrite small_machine_empty.
  - intros p p' e e' [t Ho] [t' Ho']. apply own_cases in Ho as [Hp _], Ho' as [Hp' _].
    rewrite !pages_at by done. intros [= <-] [= <-] _ _ _ _. destruct Hp as [-> | ->], Hp' as [-> | ->]; done.
Qed.

Lemma s0_represents : represents both files0 s0 (7, contents0).
Proof. split; [exists own0, live0; exact s0_inv|]. split; [done|]. split; [done|]. by exists the_process. Qed.

(** The first page is brought in and written, thrown out by the second, and
    brought in again. *)
Definition events : list event :=
  [Fault 0x08048010 6 0xbffffff0; Walk 0x8048 true; Write 0x08048010 42; Fault 0x08049000 4 0xbffffff0;
   Walk 0x8049 false; Read 0x08049000; Fault 0x08048010 4 0xbffffff0; Walk 0x8048 false].

Lemma events_run : match execute fresh events s0 with
  | Some (tr, st) =>
      (tr.*2 = [Ended Returns; Done; Done; Ended Returns; Done; Value 0; Ended Returns; Done]) ∧
      current st = 7 ∧ may_accessb st 0x08048010 false = true ∧
      last_write 7 0x08048010 7 tr 0 = 42
  | None => False
  end.
Proof. vm_compute. split_and!; reflexivity. Qed.

Lemma events_reach : ∃ tr st, runs fresh s0 tr st ∧ current st = 7 ∧ may_access st 0x08048010 false ∧
  last_write 7 0x08048010 7 tr 0 = 42.
Proof.
  pose proof events_run as Hrun. destruct (execute fresh events s0) as [[tr st]|] eqn:E; [|destruct Hrun].
  destruct Hrun as (_ & Hc & Hm & Hl). exists tr, st. split; [exact (execute_runs fresh events s0 tr st E)|].
  split; [exact Hc|]. split; [exact (may_accessb_ok st _ _ Hm)|exact Hl].
Qed.



Lemma frame_free : frame_available s0.
Proof. apply frame_availableb_ok. reflexivity. Qed.


(** A write far below the stack pointer. *)
Lemma page_fault_rejects_witness :
  page_fault fresh 0x0a000000 6 0xbffffff0 SEL_UCSEG s0 = Ok (Exits (-1), set_fault_cnt 1 s0).
Proof.
  apply (page_fault_rejects fresh both files0 s0 (7, contents0) 0x0a000000 6 0xbffffff0 SEL_UCSEG).
  - exact s0_represents.
  - unfold is_u32. lia.
  - right. right. split; [reflexivity|]. left. vm_compute. reflexivity.
Defined.

(** A segment of one page that starts with the file of the free map. *)
Lemma load_segment_maps_witness :
  ∃ st A', load_segment fresh 50 0 0x0804a000 8 4088 true s0 = Ok (true, st) ∧ represents both files0 st (7, A') ∧
    ∃ c, A' !! (7, 0x804a) = Some c ∧ byte_at c 0 = 15.
Proof.
  assert (segment_fits (InodeWrite.contents (FsState.fs_cache FsTheorems.Sample.s0) [2] 8) 0 0x0804a000 8 4088) as Hfit.
  { split; [split; [lia|reflexivity]|split; [lia|reflexivity]|split; [lia|split; [lia|reflexivity]]| |unfold PHYS_BASE; lia].
    rewrite InodeWrite.length_contents. split; lia. }
  destruct (load_segment_maps fresh both files0 s0 (7, contents0) 50 (InodeWrite.contents (FsState.fs_cache FsTheorems.Sample.s0) [2] 8)
    0 0x0804a000 8 4088 true) as (st & A' & E & Hrep & HA).
  - exact s0_represents.
  - constructor.
  - reflexivity.
  - exact Hfit.
  - intros n Hn. change (0x0804a000 / 4096) with 0x804a in Hn. change ((8 + 4088) / 4096) with 1 in Hn.
    assert (n = 0x804a) as -> by lia. reflexivity.
  - exists st, A'. split; [exact E|]. split; [exact Hrep|]. eexists. split; [rewrite HA; reflexivity|]. vm_compute. reflexivity.
Defined.
End Small.
