(* ===== verification/LoaderSpec.v ===== *)
(** The stack of a new process: what [setup_stack] writes. *)
From Stdlib Require Import ZArith Lia.
From stdpp Require Import base tactics option numbers list gmap.
From S2P Require Import Prelude CString Bytes Disk Palloc PageDir PageOps Vm VmInv VmOps VmPages VmStore VmFault Loader.
From S2P Require Bitmap Swap CStdlib PathSpec.

Open Scope Z_scope.

Lemma splice_nil (c : bytes) k : 0 ≤ k → splice c k [] = c.
Proof. intros Hk. unfold splice. cbn [length app]. rewrite Nat.add_0_r. apply take_drop. Qed.

Lemma splice_cons (c : bytes) k b bs : 0 ≤ k → k + 1 + Z.of_nat (length bs) ≤ Z.of_nat (length c) →
  splice (splice c k [b]) (k + 1) bs = splice c k (b :: bs).
Proof.
  intros Hk Hl. assert (length (splice c k [b]) = length c) as E1 by (rewrite length_splice; cbn [length]; lia).
  apply byte_ext.
  { rewrite !length_splice; rewrite ?E1; cbn [length]; lia. }
  intros i Hi. rewrite length_splice in Hi by (rewrite ?E1; lia). rewrite E1 in Hi.
  destruct (decide (k ≤ i < k + Z.of_nat (length (b :: bs)))) as [Hin|Hout]; cbn [length] in *.
  - rewrite (lookup_splice_in c k (b :: bs)) by (cbn [length]; lia). destruct (decide (i = k)) as [->|Hne].
    + rewrite lookup_splice_out, lookup_splice_in by (rewrite ?E1; cbn [length]; lia). by rewrite Z.sub_diag.
    + rewrite lookup_splice_in by (rewrite ?E1; lia). unfold byte_at.
      replace (Z.to_nat (i - k)) with (S (Z.to_nat (i - (k + 1)))) by lia. done.
  - rewrite !lookup_splice_out by (rewrite ?E1; cbn [length]; lia). done.
Qed.

Lemma drop_splice (c : bytes) k bs : 0 ≤ k → k + Z.of_nat (length bs) ≤ Z.of_nat (length c) →
  drop (Z.to_nat k) (splice c k bs) = bs ++ drop (Z.to_nat k + length bs) c.
Proof.
  intros Hk Hl. unfold splice. rewrite drop_app_ge by (rewrite length_take; lia).
  rewrite length_take. replace (Z.to_nat k - _)%nat with 0%nat by lia. by rewrite drop_0.
Qed.

Section stack.
Context {F : Type} `{FileLaws F, !ExecOps F} (uninit : Z → sup_page_table_entry).
Context (ds : gset Z) (files : gmap Z bytes).
Implicit Types (st : vm F) (A : contents) (live : list (Z * bytes)) (own : gmap Z Z).
Import Vm.Ops Loader.Ops.

(** Page [n] of the running process is in memory, and has no file. *)
Record own_page own live A st pr p e : Prop := {
  op_inv : vm_inv ds own files live A st;
  op_thread : processes st !! current st = Some pr;
  op_own : own !! p = Some (current st);
  op_page : pages st !! p = Some e;
  op_loaded : p_loaded e = true;
  op_anonymous : p_file_type e = TYPE_SWAP }.

Lemma user_store_ok own live A st pr p e c va bs :
  own_page own live A st pr p e → A !! (current st, page_no e) = Some c → length c = Z.to_nat 4096 →
  4096 * page_no e ≤ va → va + Z.of_nat (length bs) ≤ 4096 * page_no e + 4096 →
  wp (user_store va bs) (λ _ st', ∃ m', st' = with_memory m' st ∧
    vm_inv ds own files live (<[(current st, page_no e) := splice c (va - 4096 * page_no e) bs]> A) st') st.
Proof.
  revert A st c va. induction bs as [|b bs IH]; intros A st c va [Hinv Hpr Ho He Hl Hty] Hc Hlen Hlo Hhi; cbn [user_store length] in *.
  { wp_go. exists (memory st). split; [unfold with_memory; by destruct st as [[[]] ]|].
    rewrite splice_nil by lia. by rewrite insert_id. }
  destruct (vi_pages _ _ _ _ _ _ Hinv _ _ Ho) as (_ & e0 & pr0 & c0 & He0 & Hpr0 & HA0 & Hok & Hh).
  rewrite He in He0. apply (inj Some) in He0 as <-. rewrite Hpr in Hpr0. apply (inj Some) in Hpr0 as <-.
  rewrite Hc in HA0. apply (inj Some) in HA0 as <-. unfold page_holds in Hh. rewrite Hl in Hh.
  destruct Hh as (Hpres & Hin & Hpg & Hw & _ & _). destruct (entry_page files e Hok) as [Hn Hv].
  pose proof (eo_addr _ _ Hok) as Hb. pose proof (eo_align _ _ Hok).
  set (n := page_no e) in *. set (k := va - 4096 * n).
  assert (va / 4096 = n ∧ va mod 4096 = k) as [Ed Em].
  { subst k. split; [symmetry; apply Z.div_unique with (va - 4096 * n); lia|]. symmetry. apply Z.mod_unique with n; lia. }
  destruct (vi_procs _ _ _ _ _ _ Hinv _ _ Hpr) as (Hd & _).
  wp_unbind. eapply wp_running; [done|]. wp_unbind. apply wp_on_mmu.
  apply (pagedir_get_page_ok ds); [apply Hinv|done|unfold USER_PAGES, PHYS_BASE in *; lia|].
  rewrite Ed, Em, Hpres, set_mm_same. set (f := frame (lookup (mm st) (pagedir pr) n)) in *.
  pose proof (proj1 (vi_table _ _ _ _ _ _ Hinv _ Hin)) as Hu. cbn [fte_frame] in Hu.
  destruct (upage_facts _ _ (si_inv _ _ (mi_space _ _ (vi_mmu _ _ _ _ _ _ Hinv))) Hu) as (_ & Hf & _ & _ & _ & Hp & _).
  rewrite (proj2 (Z.eqb_neq _ _)) by (unfold PHYS_BASE, NULL in *; lia). wp_unbind. apply wp_on_ram.
  unfold CString.Ops.store. wp_go. unfold memory. rewrite (page_of_lookup _ f k Hp) by lia. wp_go.
  fold (memory st). set (st1 := with_memory (<[f + k := b]> (memory st)) st).
  set (c1 := splice c k [b]).
  assert (length c1 = Z.to_nat 4096) as Hl1 by (unfold c1; rewrite length_splice; cbn [length]; lia).
  assert (vm_inv ds own files live (<[(current st, n) := c1]> A) st1) as Hinv1.
  { apply (page_stored ds files own live A st (current st) pr p e c f k b); try done; [|lia].
    intros E. rewrite Hty in E. discriminate E. }
  eapply wp_mono; [apply (IH (<[(current st, n) := c1]> A) st1 c1 (va + 1)); [by split| |done|lia|lia]|].
  { apply lookup_insert_eq. }
  intros [] st' (m' & -> & Hinv'). exists m'. split; [done|]. change (current st1) with (current st) in Hinv'.
  rewrite insert_insert_eq in Hinv'. fold n in Hinv' |- *.
  replace (va + 1 - 4096 * n) with (k + 1) in Hinv' by lia.
  unfold c1 in Hinv'. rewrite splice_cons in Hinv' by lia. exact Hinv'.
Qed.

(** ** Pushing

    The stack holds [pushed] from [esp] to its top; nothing else than the page
    has changed since [st0]. *)
Section push.
Context (own : gmap Z Z) (live : list (Z * bytes)) (A : contents) (st0 : vm F) (pr : process) (p : Z) (e : sup_page_table_entry).
Context (Hpage : 0 < page_no e).

Record stack_at (esp : Z) (pushed : bytes) st : Prop := {
  sa_state : ∃ m', st = with_memory m' st0;
  sa_esp : 4096 * page_no e ≤ esp ∧ esp + Z.of_nat (length pushed) = 4096 * page_no e + 4096 ∧ esp < 2 ^ 32;
  sa_page : ∃ c, own_page own live (<[(current st0, page_no e) := c]> A) st pr p e ∧ length c = Z.to_nat 4096 ∧
    drop (Z.to_nat (esp - 4096 * page_no e)) c = pushed }.

Lemma push_ok esp pushed bs st :
  stack_at esp pushed st → Z.of_nat (length bs) + Z.of_nat (length pushed) ≤ 4096 →
  wp (push esp bs) (λ esp' st', esp' = esp - Z.of_nat (length bs) ∧ stack_at esp' (bs ++ pushed) st') st.
Proof.
  intros [(m0 & ->) (Hlo & Htop & Hsm) (c & Hop & Hl & Hdr)] Hroom. unfold push. rewrite u32_id by (unfold is_u32; lia).
  wp_assert (apply negb_true_iff, Z.eqb_neq; unfold NULL; lia).
  eapply wp_mono; [eapply user_store_ok; [exact Hop|apply lookup_insert_eq|done|lia|lia]|].
  intros [] st' (m' & -> & Hinv'). wp_go. split; [done|]. split; [by exists m'|rewrite length_app; lia|].
  change (current (with_memory m0 st0)) with (current st0) in Hinv'. rewrite insert_insert_eq in Hinv'.
  eexists. split; [destruct Hop as [? ? ? ? ? ?]; split; [exact Hinv'|done..]|].
  rewrite length_splice by lia. split; [done|]. rewrite drop_splice by lia. f_equal. rewrite <-Hdr. f_equal. lia.
Qed.

(** The strings of the arguments, one after the other, and their addresses. *)
Definition strings (args : list bytes) : bytes := args ≫= (λ s, s ++ [0]).
Fixpoint addresses (a : Z) (args : list bytes) : list Z :=
  match args with
  | [] => []
  | s :: args => a :: addresses (a + Z.of_nat (length s) + 1) args
  end.

Lemma strings_snoc args s : strings (args ++ [s]) = strings args ++ s ++ [0].
Proof. unfold strings. rewrite bind_app. cbn. by rewrite app_nil_r. Qed.

Lemma addresses_snoc a args s :
  addresses a (args ++ [s]) = addresses a args ++ [a + Z.of_nat (length (strings args))].
Proof.
  revert a. induction args as [|s0 args IH]; intros a; cbn.
  - by rewrite Z.add_0_r.
  - rewrite IH. change (strings (s0 :: args)) with ((s0 ++ [0]) ++ strings args).
    rewrite !length_app. cbn [length].
    replace (a + Z.of_nat (length s0) + 1 + Z.of_nat (length (strings args)))
      with (a + Z.of_nat (length s0 + 1 + length (strings args))) by lia. done.
Qed.

Lemma wp_on_line {B} m (op : M mem B) (Q : B * mem → vm F → Prop) st :
  wp op (λ a m', Q (a, m') st) m → wp (on_line m op) Q st.
Proof. rewrite !wp_ok. intros (a & m' & E & HQ). exists (a, m'), st. unfold on_line. by rewrite E. Qed.

Lemma push_strings_ok m argv args esp pargv pushed st :
  Forall2 (cstr m) argv args → stack_at esp pushed st →
  Z.of_nat (length (strings args)) + Z.of_nat (length pushed) ≤ 4096 →
  wp (push_strings m (rev argv) esp pargv) (λ r st',
    r.1 = esp - Z.of_nat (length (strings args)) ∧ r.2 = addresses r.1 args ++ pargv ∧
    stack_at r.1 (strings args ++ pushed) st') st.
Proof.
  revert argv esp pargv pushed st. induction args as [|s args IH] using rev_ind; intros argv esp pargv pushed st Hargs Hst Hroom.
  { apply Forall2_nil_inv_r in Hargs as ->. cbn. wp_go. cbn. by rewrite Z.sub_0_r. }
  apply Forall2_app_inv_r in Hargs as (argv1 & argv2 & H1 & H2 & ->).
  apply Forall2_cons_inv_r in H2 as (a & argv3 & Ha & H3 & ->). apply Forall2_nil_inv_r in H3 as ->.
  rewrite rev_app_distr. cbn [rev app push_strings]. rewrite strings_snoc in *.
  rewrite !length_app in Hroom. cbn [length] in Hroom.
  wp_unbind. apply wp_on_line. eapply wp_mono; [by apply (CString.strlen_ok m a s)|]. intros n m' [-> ->].
  wp_unbind. apply wp_on_line. pose proof Ha as (_ & Hb & _).
  eapply wp_mono; [apply (CStdlib.load_block_ok m a (s ++ [0])); [done|]|].
  { rewrite length_app. cbn [length]. lia. }
  intros bs m' [-> ->]. wp_unbind. eapply wp_mono; [apply (push_ok esp pushed); [done|]|].
  { rewrite length_app. cbn [length]. lia. }
  intros esp' st1 [-> Hst1]. rewrite length_app in *. cbn [length] in *.
  eapply wp_mono; [eapply (IH argv1); [done|exact Hst1|]|].
  { rewrite !length_app. cbn [length]. lia. }
  intros [esp2 pa] st2 (E1 & E2 & Hst2). cbn [fst snd] in *. split; [rewrite !length_app; cbn [length]; lia|].
  split; [|by rewrite <-app_assoc].
  rewrite addresses_snoc, E2, <-app_assoc. cbn [app]. by replace (esp - Z.of_nat (length s + 1)) with (esp2 + Z.of_nat (length (strings args))) by lia.
Qed.

Lemma aligned_rem z : (Z.rem (s32 z) 4 =? 0) = (z mod 4 =? 0).
Proof.
  apply eq_true_iff_eq. rewrite !Z.eqb_eq. rewrite Z.rem_divide, <-Z.mod_divide by lia. unfold s32.
  pose proof (Z.div_mod z 4). pose proof (Z.div_mod (z + 2 ^ 31) (2 ^ 32)). 
  replace ((z + 2 ^ 31) mod 2 ^ 32 - 2 ^ 31) with (z + 4 * (- (2 ^ 30) * ((z + 2 ^ 31) / 2 ^ 32))) by lia.
  by rewrite Z.mul_comm, Z_mod_plus_full.
Qed.

Lemma align_stack_ok esp pushed st :
  stack_at esp pushed st →
  wp (align_stack esp) (λ esp' st', ∃ pad : nat, (pad < 4)%nat ∧ esp' = esp - Z.of_nat pad ∧ esp' mod 4 = 0 ∧
    stack_at esp' (replicate pad 0 ++ pushed) st') st.
Proof.
  intros Hst. unfold align_stack.
  eapply (wp_loop (λ k x s', ∃ pad : nat, (pad + k < 4)%nat ∧ x = esp - Z.of_nat pad ∧ k = Z.to_nat (x mod 4) ∧
    stack_at x (replicate pad 0 ++ pushed) s')) with (k := Z.to_nat (esp mod 4)).
  2: { exists 0%nat. rewrite Z.sub_0_r. pose proof (Z.mod_pos_bound esp 4). split; [lia|]. done. }
  2: { pose proof (Z.mod_pos_bound esp 4). lia. }
  intros k x s (pad & Hpad & Ex & -> & Hs). rewrite aligned_rem.
  destruct (Z.eqb_spec (x mod 4) 0) as [E|E]; cbn [negb].
  - wp_go. exists pad. split_and!; [lia|done|done|done].
  - pose proof (Z.mod_pos_bound x 4 ltac:(lia)). pose proof (Z.div_mod x 4 ltac:(lia)). wp_unbind.
    pose proof (sa_esp _ _ _ Hs) as (Hlo & Htop & _).
    eapply wp_mono; [apply (push_ok x _ [0] s Hs)|].
    { cbn [length]. assert (4096 * page_no e = 4 * (1024 * page_no e)) by lia. lia. }
    intros x' s' [-> Hs']. cbn [length] in *. wp_go. exists (Z.to_nat ((x - 1) mod 4)).
    assert ((x - 1) mod 4 = x mod 4 - 1) as E1 by (symmetry; apply Z.mod_unique with (x / 4); lia).
    split; [lia|]. exists (S pad). split; [lia|]. split; [lia|]. split; [done|]. exact Hs'.
Qed.

Lemma push_words_ok ws esp pushed st :
  stack_at esp pushed st → 4 * Z.of_nat (length ws) + Z.of_nat (length pushed) ≤ 4096 →
  wp (push_words (rev ws) esp) (λ esp' st', esp' = esp - 4 * Z.of_nat (length ws) ∧
    stack_at esp' (words_to_bytes ws ++ pushed) st') st.
Proof.
  revert esp pushed st. induction ws as [|w ws IH] using rev_ind; intros esp pushed st Hst Hroom.
  { cbn. wp_go. by rewrite Z.sub_0_r. }
  rewrite length_app in Hroom. cbn [length] in Hroom.
  rewrite rev_app_distr. cbn [rev app push_words]. wp_unbind.
  eapply wp_mono; [apply (push_ok esp pushed); [done|rewrite length_le32; lia]|]. intros esp' st1 [-> Hst1].
  rewrite length_le32 in *. eapply wp_mono; [apply (IH _ _ _ Hst1)|].
  { rewrite length_app, length_le32. lia. }
  intros esp2 st2 [-> Hst2]. rewrite length_app. cbn [length]. split; [lia|].
  unfold words_to_bytes. rewrite bind_app, <-app_assoc. change ([w] ≫= le32) with (le32 w ++ []). by rewrite app_nil_r.
Qed.
End push.

(** ** The whole stack *)
Definition STACK_PAGE : Z := 0xbffff.

(** From the stack pointer up: the return address, the number of arguments,
    the address of the array, the array with its null pointer, and, after the
    padding, the strings. *)
Definition image (args : list bytes) (p_argv : Z) (pad : nat) : bytes :=
  le32 0 ++ le32 (Z.of_nat (length args)) ++ le32 p_argv ++
  words_to_bytes (addresses (PHYS_BASE - Z.of_nat (length (strings args))) args) ++ le32 0 ++
  replicate pad 0 ++ strings args.

Definition args_fit (args : list bytes) : Prop :=
  Z.of_nat (length (strings args)) + 4 * Z.of_nat (length args) + 19 ≤ 4096.

Lemma addresses_length a args : length (addresses a args) = length args.
Proof. revert a. induction args as [|s args IH]; intros a; cbn; [done|]. by rewrite IH. Qed.

Lemma words_to_bytes_length ws : Z.of_nat (length (words_to_bytes ws)) = 4 * Z.of_nat (length ws).
Proof.
  unfold words_to_bytes. induction ws as [|w ws IH]; [done|]. rewrite bind_cons, length_app, length_le32. cbn [length]. lia.
Qed.

(** The lengths of what has been pushed. *)
Ltac room := rewrite ?addresses_length, ?length_app, ?length_le32, ?length_replicate; lia.

(** What is pushed after the page has been mapped. *)
Lemma push_all_ok own live A st0 pr p e m argv args st :
  page_no e = STACK_PAGE → Forall2 (cstr m) argv args → args_fit args →
  stack_at own live A st0 pr p e PHYS_BASE [] st →
  wp ('(esp, pargv) ← push_strings m (rev argv) PHYS_BASE [];
      esp ← align_stack esp;
      esp ← push esp (le32 0);
      p_argv ← push_words (rev pargv) esp;
      esp ← push p_argv (le32 p_argv);
      esp ← push esp (le32 (Z.of_nat (length argv)));
      esp ← push esp (le32 0);
      mret (true, esp)) (λ r st', r.1 = true ∧ ∃ pad : nat, (pad < 4)%nat ∧ r.2 mod 4 = 0 ∧
    stack_at own live A st0 pr p e r.2 (image args (r.2 + 12) pad) st') st.
Proof.
  intros Epage Hargs Hfit Hst. unfold args_fit in Hfit. assert (0 < page_no e) as Hpos by (rewrite Epage; unfold STACK_PAGE; lia).
  wp_unbind. eapply wp_mono; [apply (push_strings_ok own live A st0 pr p e Hpos m argv args); [done|done|cbn [length]; lia]|].
  intros [esp1 pargv] st1 (E1 & E2 & Hst1). cbn [fst snd] in *. rewrite app_nil_r in *. subst pargv. wp_unbind.
  eapply wp_mono; [by apply (align_stack_ok own live A st0 pr p e Hpos)|]. intros esp2 st2 (pad & Hpad & Eesp2 & Hal & Hst2).
  pose proof (words_to_bytes_length (addresses esp1 args)) as Hw. rewrite addresses_length in Hw.
  assert (length argv = length args) as Elen by (by eapply Forall2_length).
  wp_unbind. eapply wp_mono; [by apply (push_ok own live A st0 pr p e Hpos _ _ _ _ Hst2); room|].
  intros esp3 st3 [-> Hst3]. wp_unbind. eapply wp_mono; [apply (push_words_ok own live A st0 pr p e Hpos _ _ _ _ Hst3); room|].
  intros esp4 st4 [-> Hst4]. wp_unbind. eapply wp_mono; [apply (push_ok own live A st0 pr p e Hpos _ _ _ _ Hst4); room|].
  intros esp5 st5 [-> Hst5]. wp_unbind. eapply wp_mono; [apply (push_ok own live A st0 pr p e Hpos _ _ _ _ Hst5); room|].
  intros esp6 st6 [-> Hst6]. wp_unbind. eapply wp_mono; [apply (push_ok own live A st0 pr p e Hpos _ _ _ _ Hst6); room|].
  intros esp7 st7 [-> Hst7]. wp_go. cbn [fst snd]. split; [done|]. exists pad. split; [done|].
  rewrite !length_le32, addresses_length in *. subst esp1.
  set (n := Z.of_nat (length args)) in *. change (Z.of_nat 4) with 4 in *. split.
  - replace (esp2 - 4 - 4 * n - 4 - 4 - 4) with (esp2 + (- (n + 4)) * 4) by lia. by rewrite Z_mod_plus_full.
  - unfold image. rewrite Elen in Hst7.
    replace (esp2 - 4 - 4 * n - 4 - 4 - 4 + 12) with (esp2 - 4 - 4 * n) by lia. exact Hst7.
Qed.

Lemma setup_stack_ok own live A st pr esp0 m argv args :
  vm_inv ds own files live A st → processes st !! current st = Some pr → lock_frame st = false →
  A !! (current st, STACK_PAGE) = None → head (malloc_outcomes st) ≠ Some false → frame_available st →
  Forall2 (cstr m) argv args → args_fit args →
  wp (setup_stack uninit esp0 m argv) (λ r st', resumes st st' ∧
    if r.1 then ∃ own' live' c pad, vm_inv ds own' files live' (<[(current st, STACK_PAGE) := c]> A) st' ∧
      length c = Z.to_nat 4096 ∧ r.2 mod 4 = 0 ∧ (pad < 4)%nat ∧ 4096 * STACK_PAGE ≤ r.2 ∧
      drop (Z.to_nat (r.2 - 4096 * STACK_PAGE)) c = image args (r.2 + 12) pad
    else ∃ live', vm_inv ds own files live' A st') st.
Proof.
  intros Hinv Hpr Hlk HA Hma Hav Hargs Hfit. unfold setup_stack, lock_acquire, lock_release. wp_assert (by rewrite Hlk).
  assert ((PHYS_BASE - PGSIZE) / 4096 = STACK_PAGE) as En by reflexivity.
  eapply wp_mono; [apply (grow_stack_ok uninit ds files own live A (set_lock true st) pr _ false);
    [by apply inv_lock|done|rewrite PGSIZE_eq; unfold PHYS_BASE; lia|by rewrite En|done|done]|].
  intros r st1 [[Ec El E3 Hps] Hr]. wp_assert (by rewrite El). vm_cbn.
  change (current (set_lock true st)) with (current st) in *. change (mm (set_lock true st)) with (mm st) in E3.
  assert (∀ s', current s' = current st1 → lock_frame s' = false → cr3 (mm s') = cr3 (mm st1) →
    processes s' = processes st1 → resumes st s') as Hres.
  { intros s' E1 E2 E4 E5. split; [congruence|congruence|congruence|]. rewrite E5. exact Hps. }
  destruct r; cbn [negb].
  2: { wp_go. split; [by apply Hres|]. destruct Hr as (live' & Hinv'). exists live'. by apply inv_lock. }
  destruct Hr as (c & [(p & live1 & e & Hinv1 & He & Ene & Hl & Hty) _] & Hz). specialize (Hz eq_refl). subst c.
  rewrite En in *. vm_cbn.
  destruct (Hps _ _ Hpr) as (pr1 & Hpr1 & _). rewrite <-Ec in Hpr1. set (st2 := set_lock false st1).
  eapply wp_mono; [apply (push_all_ok (<[p := current st]> own) live1 A st2 pr1 p e m argv args); try done|].
  { split; [exists (memory st2); unfold with_memory; by destruct st2 as [[[]] ]|rewrite Ene; unfold STACK_PAGE, PHYS_BASE; cbn; lia|].
    exists zero_page. rewrite zero_page_length, Ene. change (current st2) with (current st1). rewrite Ec. split; [|split; [done|]].
    - split; try done; [by apply inv_lock|]. change (current st2) with (current st1). rewrite Ec. apply lookup_insert_eq.
    - apply drop_ge. rewrite zero_page_length. unfold STACK_PAGE, PHYS_BASE. lia. }
  intros [b esp] st3 (-> & pad & Hpad & Hal & [(m' & ->) Hesp (c & Hop & Hlc & Hdr)]). cbn [fst snd] in *.
  split; [by apply Hres|]. rewrite Ene in *. change (current st2) with (current st1) in Hop. rewrite Ec in Hop.
  eexists _, live1, c, pad. split; [exact (op_inv _ _ _ _ _ _ _ Hop)|]. split_and!; try done; lia.
Qed.
End stack.

(** ** The command line *)
Section line.
Context {F : Type} `{FileOps F, !ExecOps F}.
Implicit Types (st : vm F).
Import Loader.Ops.

(** The arguments found so far are strings below [save], unless nothing is
    left to split. *)
Definition found (m : mem) (save : Z) (rest : bytes) (argv : list Z) (args : list bytes) : Prop :=
  Forall2 (λ a s, cstr m a s ∧ (a + Z.of_nat (length s) < save ∨ rest = [])) argv args.

(** The position in the line: the tokens [args] are in [argv], the next one is
    at [arg], [k] bounds the number of turns left. *)
Definition splitting (d : Z) (name : bytes) (m : mem) (arg save : Z) (argv : list Z) (k : nat) : Prop :=
  (arg = NULL ∧ Forall2 (cstr m) argv (tokens [SPACE] name) ∧ k = 0%nat) ∨
  (∃ args t rest, tokens [SPACE] name = args ++ t :: tokens [SPACE] rest ∧ arg ≠ NULL ∧
     found m save rest (argv ++ [arg]) (args ++ [t]) ∧ cstr m save rest ∧ cstr m d [SPACE] ∧
     save + Z.of_nat (length rest) < d ∧ k = S (length rest)).

Lemma found_cstr m save rest argv args : found m save rest argv args → Forall2 (cstr m) argv args.
Proof. intros Hf. eapply Forall2_impl; [exact Hf|]. by intros a s [? _]. Qed.

(** One call of [strtok_r]. *)
Lemma split_step d name m s0 save0 p xs argv args st :
  cstr m p xs → cstr m d [SPACE] → p + Z.of_nat (length xs) < d → p = (if s0 =? NULL then save0 else s0) →
  tokens [SPACE] name = args ++ tokens [SPACE] xs → found m p xs argv args →
  wp (on_line m (CString.Ops.strtok_r s0 d save0)) (λ r st', st' = st ∧ ∃ k, (k ≤ length xs)%nat ∧
    splitting d name r.2 r.1.1 r.1.2 argv k) st.
Proof.
  intros Hs Hd Hlt Ep Et Hf. apply wp_on_line.
  eapply wp_mono; [apply (CString.strtok_r_ok m d [SPACE] p xs); [done|done|lia|done]|].
  intros [arg save] m' Hr. cbn [fst snd] in *. split; [done|]. rewrite (CString.tokens_eq [SPACE] xs) in Et.
  pose proof (CString.skip_length [SPACE] xs) as Hsk.
  destruct (CString.skip [SPACE] xs) as [|x rest] eqn:E.
  { destruct Hr as [-> ->]. exists 0%nat. split; [lia|]. left. rewrite Et, app_nil_r. split; [done|]. split; [by eapply found_cstr|done]. }
  destruct Hr as (Hle & Ht & Ha & H1 & H2 & Hch). pose proof Hs as (Hp & _).
  set (t := token [SPACE] (x :: rest)) in *. set (rest' := after [SPACE] (x :: rest)) in *.
  assert (length rest' < length xs)%nat as Hl'.
  { unfold rest'. simpl. rewrite decide_False by (by eapply CString.skip_head). pose proof (CString.after_length [SPACE] rest).
    cbn [length] in Hsk. lia. }
  exists (S (length rest')). split; [lia|]. right. exists args, t, rest'. split; [done|]. split; [unfold NULL; lia|].
  split; [|split; [done|split; [|split; [lia|done]]]].
  - unfold found. apply Forall2_app.
    + eapply Forall2_impl; [exact Hf|]. intros a s [Hc [Hb|Hb]]; [|destruct xs; [simpl in Hl'; lia|done]].
      split; [eapply CString.cstr_changes; [exact Hch|lia|done]|]. left. lia.
    + constructor; [|constructor]. split; [done|]. destruct rest' as [|y r]; [by right|left].
      destruct (decide (arg + Z.of_nat (length t) = save)) as [Es|]; [|lia].
      pose proof (CString.cstr_end _ _ _ Ht) as H0. rewrite Es in H0.
      destruct (CString.cstr_byte _ _ _ 0 y Ha eq_refl) as [Hy Hb]. rewrite Z.add_0_r in Hy. rewrite Hy in H0. injection H0. lia.
  - eapply CString.cstr_changes; [exact Hch|lia|done].
Qed.

Lemma split_line_ok p name st :
  0 < p → Forall (λ b, 0 < b < 256) name → Z.of_nat (length (tokens [SPACE] name)) ≤ ARGV_MAX_SIZE →
  wp (split_line (line_copy p name) p name) (λ r st', st' = st ∧ Forall2 (cstr r.2) r.1 (tokens [SPACE] name)) st.
Proof.
  intros Hp Hname Hcnt. unfold split_line. set (m := line_copy p name). set (d := p + Z.of_nat (length name) + 1).
  assert (block m p ((name ++ [0]) ++ [SPACE; 0])) as Hb.
  { rewrite <-app_assoc. apply PathSpec.bytes_at_block. }
  apply CString.block_app in Hb as [H1 H2]. rewrite length_app in H2. cbn [length] in H2.
  assert (cstr m p name) as Hs by (by split_and!).
  assert (cstr m d [SPACE]) as Hd.
  { split_and!; [lia| |repeat constructor; unfold SPACE; lia]. unfold d.
    by replace (p + Z.of_nat (length name) + 1) with (p + Z.of_nat (length name + 1)) by lia. }
  wp_unbind. eapply wp_mono; [apply (split_step d name m p NULL p name [] []); try done|].
  { unfold d. lia. }
  { by rewrite (proj2 (Z.eqb_neq _ _)) by (unfold NULL; lia). }
  { constructor. }
  intros [[arg save] m1] st1 (-> & k & Hk & Hat). cbn [fst snd] in Hat.
  eapply (wp_loop (λ k '(m, arg, save, argv) s', s' = st ∧ splitting d name m arg save argv k)); [|by split|lia].
  clear m1 arg save k Hk Hat. intros k [[[m1 arg] save] argv] s' [-> Hat].
  destruct Hat as [(-> & Hall & ->)|(args & t & rest & E & Hnn & Hf & Hr & Hd1 & Hlt & ->)].
  - rewrite Z.eqb_refl. cbn [negb]. by wp_go.
  - rewrite (proj2 (Z.eqb_neq _ _) Hnn). cbn [negb].
    pose proof (Forall2_length _ _ _ Hf) as El. rewrite !length_app in El. cbn [length] in El.
    rewrite E, length_app in Hcnt. cbn [length] in Hcnt. rewrite (proj2 (Z.leb_gt _ _)) by lia. wp_unbind.
    eapply wp_mono; [apply (split_step d name m1 NULL save save rest (argv ++ [arg]) (args ++ [t])); try done|].
    { by rewrite <-app_assoc. }
    intros [[arg2 save2] m2] s2 (-> & k & Hk & Hat). cbn [fst snd] in Hat. wp_go. exists k. split; [lia|]. by split.
Qed.
End line.

(** ** Reading the stack back *)
Lemma drop_strings args a0 i s a : args !! i = Some s → addresses a0 args !! i = Some a →
  a0 ≤ a ∧ ∃ rest, drop (Z.to_nat (a - a0)) (strings args) = (s ++ [0]) ++ rest.
Proof.
  revert a0 i. induction args as [|s0 args IH]; intros a0 [|i] Hs Ha; try done; cbn in Ha.
  - injection Hs as <-. injection Ha as <-. split; [lia|]. exists (strings args). rewrite Z.sub_diag. done.
  - destruct (IH _ _ Hs Ha) as (Hle & rest & E). split; [lia|]. exists rest. rewrite <-E.
    change (strings (s0 :: args)) with ((s0 ++ [0]) ++ strings args).
    rewrite drop_app_ge by (rewrite length_app; cbn [length]; lia). f_equal. rewrite length_app. cbn [length]. lia.
Qed.

Lemma addresses_range args a0 i a : addresses a0 args !! i = Some a →
  a0 ≤ a < a0 + Z.of_nat (length (strings args)).
Proof.
  revert a0 i. induction args as [|s0 args IH]; intros a0 [|i] Ha; try done; cbn in Ha;
    change (strings (s0 :: args)) with ((s0 ++ [0]) ++ strings args); rewrite !length_app; cbn [length].
  - injection Ha as <-. lia.
  - apply IH in Ha. lia.
Qed.

Lemma of_le32_words ws i w r : ws !! i = Some w → is_u32 w →
  of_le32 (drop (4 * i) (words_to_bytes ws ++ r)) = w.
Proof.
  revert i. induction ws as [|w0 ws IH]; intros [|i] Hi Hw; try done; unfold words_to_bytes; rewrite bind_cons, <-app_assoc.
  - injection Hi as ->. by apply of_le32_le32.
  - replace (4 * S i)%nat with (4 + 4 * i)%nat by lia. rewrite <-drop_drop.
    rewrite drop_app_ge, length_le32, Nat.sub_diag, drop_0 by (by rewrite length_le32). by apply IH.
Qed.
