(* ===== verification/LoaderTheorems.v ===== *)
(** What starting a process promises: its arguments on the stack, and segments
    that stay in user memory. *)
From Stdlib Require Import ZArith Lia.
From stdpp Require Import base tactics option numbers list gmap.
From S2P Require Import Prelude CString Bytes Disk Palloc PageDir PageOps Vm VmInv VmOps VmPages VmFault VmLoad.
From S2P Require Import Loader LoaderSpec VmTheorems.
From S2P Require Bitmap Swap FsState FsTheorems MemTheorems VmFiles.

Open Scope Z_scope.

(** The word and the bytes at an address of the stack page [c]. *)
Definition stack_word (c : bytes) (va : Z) : Z := word_at c (va - 4096 * STACK_PAGE).
Definition stack_bytes (c : bytes) (va n : Z) : bytes := slice c (va - 4096 * STACK_PAGE) n.

(** The stack that [main (argc, argv)] expects at its first instruction: a
    return address, [argc], [argv], and an array of pointers to the arguments
    that ends with a null pointer. *)
Record stack_layout (args : list bytes) (esp : Z) (c : bytes) : Prop := {
  sl_aligned : esp mod 4 = 0;
  sl_return : stack_word c esp = 0;
  sl_argc : stack_word c (esp + 4) = Z.of_nat (length args);
  sl_argv : stack_word c (esp + 8) = esp + 12;
  sl_null : stack_word c (esp + 12 + 4 * Z.of_nat (length args)) = 0;
  sl_args : ∀ i s, args !! i = Some s →
    stack_bytes c (stack_word c (esp + 12 + 4 * Z.of_nat i)) (Z.of_nat (length s) + 1) = s ++ [0] }.

(** Words further up. *)
Lemma stack_word_drop c esp rest k :
  4096 * STACK_PAGE ≤ esp → drop (Z.to_nat (esp - 4096 * STACK_PAGE)) c = rest → 0 ≤ k →
  stack_word c (esp + k) = of_le32 (drop (Z.to_nat k) rest).
Proof.
  intros Hesp <- Hk. unfold stack_word, word_at. rewrite drop_drop. f_equal. f_equal. lia.
Qed.

Lemma drop_le32 n w (r : bytes) : drop (4 + n) (le32 w ++ r) = drop n r.
Proof. reflexivity. Qed.

Lemma image_layout args esp pad c :
  args_fit args → length c = Z.to_nat 4096 → esp mod 4 = 0 → (pad < 4)%nat → 4096 * STACK_PAGE ≤ esp →
  drop (Z.to_nat (esp - 4096 * STACK_PAGE)) c = image args (esp + 12) pad → stack_layout args esp c.
Proof.
  intros Hfit Hl Hal Hpad Hlo Hdr. unfold args_fit in Hfit.
  assert (esp + Z.of_nat (length (image args (esp + 12) pad)) = PHYS_BASE) as Htop.
  { pose proof (f_equal length Hdr) as E. rewrite length_drop, Hl in E.
    assert (0 < length (image args (esp + 12) pad))%nat by (unfold image; rewrite length_app, length_le32; lia).
    unfold PHYS_BASE, STACK_PAGE in *. lia. }
  set (a0 := PHYS_BASE - Z.of_nat (length (strings args))).
  assert (∀ k, 0 ≤ k → stack_word c (esp + k) = of_le32 (drop (Z.to_nat k) (image args (esp + 12) pad))) as Hw.
  { intros k Hk. by apply stack_word_drop. }
  pose proof (words_to_bytes_length (addresses a0 args)) as Hwl. rewrite addresses_length in Hwl.
  split; [done|..].
  - replace (stack_word c esp) with (stack_word c (esp + 0)) by (by rewrite Z.add_0_r). rewrite Hw by lia.
    exact (of_le32_le32 0 _ ltac:(unfold is_u32; lia)).
  - rewrite Hw by lia. unfold image. change (Z.to_nat 4) with (4 + 0)%nat. rewrite drop_le32. cbn [drop].
    apply of_le32_le32. unfold is_u32. lia.
  - rewrite Hw by lia. unfold image. change (Z.to_nat 8) with (4 + (4 + 0))%nat. rewrite !drop_le32. cbn [drop].
    apply of_le32_le32. unfold is_u32, PHYS_BASE, STACK_PAGE in *. lia.
  - rewrite <-Z.add_assoc, Hw by lia. unfold image. fold a0.
    replace (Z.to_nat (12 + 4 * Z.of_nat (length args))) with (4 + (4 + (4 + length (words_to_bytes (addresses a0 args)))))%nat by lia.
    rewrite !drop_le32, drop_app_length. apply of_le32_le32. unfold is_u32. lia.
  - intros i s Hs. destruct (addresses a0 args !! i) as [a|] eqn:Ea.
    2: { apply lookup_ge_None in Ea. rewrite addresses_length in Ea. apply lookup_lt_Some in Hs. lia. }
    pose proof (addresses_range _ _ _ _ Ea) as Hra. destruct (drop_strings _ _ _ _ _ Hs Ea) as (Hle & rest & Hrest).
    assert (stack_word c (esp + 12 + 4 * Z.of_nat i) = a) as ->.
    { rewrite <-Z.add_assoc, Hw by lia. unfold image. fold a0.
      replace (Z.to_nat (12 + 4 * Z.of_nat i)) with (4 + (4 + (4 + 4 * i)))%nat by lia. rewrite !drop_le32.
      apply of_le32_words; [done|]. unfold is_u32, PHYS_BASE in *. lia. }
    set (pre := le32 0 ++ le32 (Z.of_nat (length args)) ++ le32 (esp + 12) ++ words_to_bytes (addresses a0 args) ++ le32 0 ++ replicate pad 0).
    assert (image args (esp + 12) pad = pre ++ strings args) as Ei by (unfold image, pre; fold a0; by rewrite <-!app_assoc).
    rewrite Ei, length_app in Htop.
    unfold stack_bytes, slice. replace (Z.to_nat (a - 4096 * STACK_PAGE))
      with (Z.to_nat (esp - 4096 * STACK_PAGE) + (length pre + Z.to_nat (a - a0)))%nat by lia.
    rewrite <-!drop_drop, Hdr, Ei, drop_app_length, Hrest.
    replace (Z.to_nat (Z.of_nat (length s) + 1)) with (length (s ++ [0])) by (rewrite length_app; cbn [length]; lia).
    apply take_app_length.
Qed.

(** * Segments *)

(** The members of a program header are 32-bit words. *)
Definition phdr_words (h : Elf32_Phdr) : Prop :=
  Forall is_u32 [p_type h; p_offset h; p_vaddr h; p_paddr h; p_filesz h; p_memsz h; p_flags h; p_align h].

Lemma round_up_page x : 0 ≤ x < 2 ^ 32 - 4096 →
  ROUND_UP x PGSIZE = 4096 * ((x + 4095) / 4096) ∧ x ≤ ROUND_UP x PGSIZE < x + 4096.
Proof.
  intros Hx. unfold ROUND_UP. rewrite PGSIZE_eq. pose proof (Z.div_mod (x + 4095) 4096 ltac:(lia)).
  pose proof (Z.mod_pos_bound (x + 4095) 4096 ltac:(lia)).
  rewrite (u32_id (x + 4096)) by (unfold is_u32; lia). rewrite (u32_id (x + 4096 - 1)) by (unfold is_u32; lia).
  replace (x + 4096 - 1) with (x + 4095) by lia. rewrite u32_id by (unfold is_u32; lia). lia.
Qed.

Section loading.
Context {F : Type} `{FileLaws F, !ExecOps F} (uninit : Z → sup_page_table_entry).
Context (ds : gset Z) (files : gmap Z bytes).
Implicit Types (st : vm F).
Import Vm.Ops Loader.Ops.

(** What the checks of [validate_segment] establish. *)
Record checked (h : Elf32_Phdr) : Prop := {
  ck_offset : Z.land (p_offset h) PGMASK = Z.land (p_vaddr h) PGMASK;
  ck_sizes : p_filesz h ≤ p_memsz h ∧ p_memsz h ≠ 0;
  ck_user : PGSIZE ≤ p_vaddr h ∧ p_vaddr h + p_memsz h < PHYS_BASE }.

Lemma validate_checked h fp st st' :
  phdr_words h → validate_segment h fp st = Ok (true, st') → checked h.
Proof.
  intros Hh Hv. unfold phdr_words in Hh. rewrite !Forall_cons in Hh. unfold is_u32 in Hh. revert Hv. unfold validate_segment.
  destruct (Z.eqb_spec (Z.land (p_offset h) PGMASK) (Z.land (p_vaddr h) PGMASK)) as [E1|]; cbn [negb]; [|intros [=]].
  unfold mbind, M_bind at 1. destruct (on_files (file_length fp) st) as [[len st1]| | |]; [|intros [=]..].
  destruct (u32 len <? p_offset h); [intros [=]|]. destruct (Z.ltb_spec (p_memsz h) (p_filesz h)); [intros [=]|].
  destruct (Z.eqb_spec (p_memsz h) 0); [intros [=]|]. unfold is_user_vaddr.
  destruct (Z.ltb_spec (p_vaddr h) PHYS_BASE); cbn [negb]; [|intros [=]].
  destruct (Z.ltb_spec (u32 (p_vaddr h + p_memsz h)) PHYS_BASE); cbn [negb]; [|intros [=]].
  destruct (Z.ltb_spec (u32 (p_vaddr h + p_memsz h)) (p_vaddr h)) as [|Hwrap]; [intros [=]|].
  destruct (Z.ltb_spec (p_vaddr h) PGSIZE); [intros [=]|]. intros _. split; [done|done|]. split; [done|].
  destruct (decide (p_vaddr h + p_memsz h < 2 ^ 32)) as [Hlt|Hge].
  - rewrite u32_id in * by (unfold is_u32; lia). done.
  - exfalso. unfold u32 in Hwrap. rewrite <-(Z.mod_unique (p_vaddr h + p_memsz h) (2 ^ 32) 1 (p_vaddr h + p_memsz h - 2 ^ 32)) in Hwrap;
      unfold PHYS_BASE in *; lia.
Qed.

Lemma page_mask x : is_u32 x → Z.land x (lnot32 PGMASK) = 4096 * (x / 4096) ∧ Z.land x PGMASK = x mod 4096.
Proof. intros Hx. split; [by apply (pg_round_down_eq x)|apply (pg_ofs_eq x)]. Qed.

Lemma segment_args_layout h : phdr_words h → checked h →
  let '(f, a, r, z) := segment_args h in
  (0 ≤ f ≤ p_offset h ∧ f mod 4096 = 0) ∧ (4096 ≤ a ∧ a mod 4096 = 0) ∧
  (0 ≤ r ∧ 0 ≤ z ∧ 0 < r + z ∧ (r + z) mod 4096 = 0) ∧ a + r + z ≤ PHYS_BASE ∧
  p_vaddr h + p_memsz h ≤ a + r + z ∧ a ≤ p_vaddr h ∧
  (0 < p_filesz h → f + r = p_offset h + p_filesz h ∧ p_vaddr h - a = p_offset h - f) ∧
  (p_filesz h = 0 → r = 0).
Proof.
  intros Hh [E1 [Hsz Hnz] [Hlo Hhi]]. unfold phdr_words in Hh. rewrite !Forall_cons in Hh.
  destruct Hh as (_ & Hof & Hva & _ & Hfi & Hme & _). rewrite PGSIZE_eq in Hlo.
  destruct (page_mask _ Hof) as [Ef Eo]. destruct (page_mask _ Hva) as [Em Ep]. rewrite Eo, Ep in E1.
  unfold segment_args. rewrite Ef, Em, Ep.
  pose proof (Z.div_mod (p_vaddr h) 4096 ltac:(lia)). pose proof (Z.mod_pos_bound (p_vaddr h) 4096 ltac:(lia)).
  pose proof (Z.div_mod (p_offset h) 4096 ltac:(lia)).
  set (po := p_vaddr h mod 4096) in *. set (va := p_vaddr h / 4096) in *. set (fo := p_offset h / 4096) in *.
  unfold is_u32, PHYS_BASE in *. rewrite (u32_id (po + p_memsz h)) by (unfold is_u32; lia).
  destruct (round_up_page (po + p_memsz h)) as [Er Hr]; [lia|].
  set (R := ROUND_UP (po + p_memsz h) PGSIZE) in *. set (q := (po + p_memsz h + 4095) / 4096) in *.
  assert (∀ k, 4096 * k mod 4096 = 0) as Hm by (intros k; rewrite Z.mul_comm; apply Z_mod_mult).
  destruct (Z.ltb_spec 0 (p_filesz h)).
  - rewrite (u32_id (po + p_filesz h)), (u32_id (R - (po + p_filesz h))) by (unfold is_u32; lia).
    replace (po + p_filesz h + (R - (po + p_filesz h))) with (4096 * q) by lia. rewrite !Hm. split_and!; try done; lia.
  - rewrite Z.add_0_l, Er, !Hm. split_and!; try done; lia.
Qed.

(** Zeros after the part from the file. *)
Lemma segment_byte c ofs rb zb i : 0 ≤ ofs → 0 ≤ rb → ofs + rb ≤ Z.of_nat (length c) → 0 ≤ i < rb + zb →
  byte_at (segment c ofs rb zb) i = if decide (i < rb) then byte_at c (ofs + i) else 0.
Proof.
  intros Ho Hr Hl Hi. unfold segment. assert (length (slice c ofs rb) = Z.to_nat rb) as El by (apply length_slice; lia).
  case_decide.
  - rewrite byte_at_app_l, byte_at_slice by lia. done.
  - rewrite byte_at_app_r by lia. unfold byte_at. rewrite lookup_total_replicate_2; [done|lia].
Qed.

(** C10: a program header that [validate_segment] accepts gives [load_segment]
    whole pages of user memory, above page 0 and without wrapping around,
    whose bytes are those that the ELF format prescribes: the file's bytes
    from [p_offset] on at [p_vaddr], and zeros up to [p_memsz].  This is for a
    segment that lies within its file, which is not checked. *)
Theorem validated_segment_fits h fp st st' c :
  phdr_words h → validate_segment h fp st = Ok (true, st') →
  p_offset h + p_filesz h ≤ Z.of_nat (length c) → p_offset h + p_filesz h < 2 ^ 31 →
  let '(f, a, r, z) := segment_args h in
  segment_fits c f a r z ∧ 4096 ≤ a ≤ p_vaddr h ∧ p_vaddr h + p_memsz h ≤ a + r + z ∧
  ∀ i, 0 ≤ i < p_memsz h → byte_at (segment c f r z) (p_vaddr h - a + i) =
    if decide (i < p_filesz h) then byte_at c (p_offset h + i) else 0.
Proof.
  intros Hh Hv Hlen Hsmall. pose proof (segment_args_layout h Hh (validate_checked h fp st st' Hh Hv)) as Hla.
  pose proof Hh as Hw. unfold phdr_words in Hw. rewrite !Forall_cons in Hw. destruct Hw as (_ & Hof & _ & _ & Hfi & _).
  destruct (segment_args h) as [[[f a] r] z]. unfold is_u32 in *.
  destruct Hla as ((Hf & Hfa) & (Ha & Haa) & (Hr & Hz & Hrz & Hm) & Hu & Hme & Hav & Hpos & Hzero).
  assert (f + r ≤ Z.of_nat (length c) ∧ f + r < 2 ^ 31) as [Hl1 Hl2].
  { destruct (decide (p_filesz h = 0)) as [E|E]; [specialize (Hzero E)|destruct Hpos]; lia. }
  split; [split; split_and?; try done; lia|]. split; [done|]. split; [done|]. intros i Hi.
  rewrite segment_byte by lia. destruct (decide (p_filesz h = 0)) as [E|E].
  - specialize (Hzero E). rewrite !decide_False by lia. done.
  - destruct Hpos as [E1 E2]; [lia|]. destruct (decide (i < p_filesz h)).
    + rewrite decide_True by lia. f_equal. lia.
    + by rewrite decide_False by lia.
Qed.

(** C8: a new process finds its arguments.  The command line is split at
    spaces, [setup_stack] maps the top page of user memory (evicting a page if
    it has to) and leaves there what [main] expects: an aligned stack pointer
    at a return address, [argc], [argv], and an array of pointers that ends with
    a null pointer, each pointing to one word of the command line as a string.
    All other pages are as before.  When there is no memory it fails and
    changes no page. *)
Theorem arguments_passed st x esp0 p name :
  represents ds files st x → x.2 !! (x.1, STACK_PAGE) = None → head (malloc_outcomes st) ≠ Some false →
  frame_available st → 0 < p → Forall (λ b, 0 < b < 256) name →
  args_fit (tokens [SPACE] name) → Z.of_nat (length (tokens [SPACE] name)) ≤ ARGV_MAX_SIZE →
  ∃ r st', ('(argv, m) ← split_line (line_copy p name) p name; setup_stack uninit esp0 m argv) st = Ok (r, st') ∧
    match r with
    | (true, esp) => ∃ c, represents ds files st' (x.1, <[(x.1, STACK_PAGE) := c]> x.2) ∧
        stack_layout (tokens [SPACE] name) esp c
    | (false, _) => represents ds files st' x
    end.
Proof.
  intros ((own & live & Hinv) & Hlk & Ec & pr & Hpr & Ea) HA Hma Hav Hp Hname Hfit Hcnt. rewrite <-Ec in *.
  apply wp_ok. wp_unbind. eapply wp_mono; [by apply split_line_ok|]. intros [argv m] st1 [-> Hargs]. cbn [fst snd] in Hargs.
  eapply wp_mono; [by eapply (setup_stack_ok uninit ds files own live x.2 st pr esp0 m argv)|].
  intros [b esp] st' [[E1 E2 E3 E4] Hr]. cbn [fst snd] in Hr. destruct (E4 _ _ Hpr) as (pr' & Hpr' & Epd).
  assert (∀ A', (∃ own live, vm_inv ds own files live A' st') → represents ds files st' (current st, A')) as Hrep.
  { intros A' Hex. split; [done|]. split; [congruence|]. split; [done|]. exists pr'. split; [done|].
    rewrite Epd, <-Ea. unfold active. by rewrite E3. }
  destruct b.
  - destruct Hr as (own' & live' & c & pad & Hinv' & Hl & Hal & Hpad & Hlo & Hdr). exists c.
    split; [apply Hrep; by exists own', live'|]. by eapply image_layout.
  - destruct Hr as (live' & Hinv'). destruct x as [t A]. cbn [fst snd] in *. rewrite <-Ec. apply Hrep. by exists own, live'.
Qed.
End loading.

(** ** The theorems at work

    The process of [VmTheorems.Small] is given the command line "ls -l". *)
Module Start.
Import Vm.Ops Loader.Ops VmTheorems.Small.
#[local] Instance file_ops : FileOps FsState.fs := VmFiles.fs_file_ops FsTheorems.zeros.
#[local] Instance file_laws : FileLaws FsState.fs := VmFiles.fs_file_laws FsTheorems.zeros.
#[local] Instance exec_ops : ExecOps FsState.fs := VmFiles.fs_exec_ops FsTheorems.zeros.

Definition command : bytes := [108; 115; 32; 45; 108].

Lemma arguments_passed_witness :
  ∃ r st, ('(argv, m) ← split_line (line_copy 1000 command) 1000 command; setup_stack fresh 0 m argv) s0 = Ok (r, st) ∧
    match r with
    | (true, esp) => ∃ c, represents MemTheorems.AddressSpaces.both files0 st (7, <[(7, STACK_PAGE) := c]> contents0) ∧
        stack_layout [[108; 115]; [45; 108]] esp c
    | (false, _) => represents MemTheorems.AddressSpaces.both files0 st (7, contents0)
    end.
Proof.
  apply (arguments_passed fresh MemTheorems.AddressSpaces.both files0 s0 (7, contents0) 0 1000 command).
  - exact s0_represents.
  - reflexivity.
  - discriminate.
  - exact frame_free.
  - lia.
  - repeat constructor; lia.
  - vm_compute. discriminate.
  - vm_compute. discriminate.
Defined.

(** It does succeed there. *)
Lemma arguments_run : match ('(argv, m) ← split_line (line_copy 1000 command) 1000 command; setup_stack fresh 0 m argv) s0 with
  | Ok ((ok, esp), _) => ok = true ∧ esp = 0xc0000000 - 32
  | _ => False
  end.
Proof. vm_compute. split; reflexivity. Qed.

(** One page with the eight bytes of the file. *)
Definition header : Elf32_Phdr := mk_phdr PT_LOAD 0 0x0804a000 0 8 4000 6 4096.

Lemma header_valid : validate_segment header 50 s0 = Ok (true, s0).
Proof. reflexivity. Qed.

Lemma validated_segment_fits_witness :
  segment_args header = (0, 0x0804a000, 8, 4088) ∧
  segment_fits (InodeWrite.contents (FsState.fs_cache FsTheorems.Sample.s0) [2] 8) 0 0x0804a000 8 4088.
Proof.
  split; [reflexivity|].
  destruct (validated_segment_fits header 50 s0 s0 (InodeWrite.contents (FsState.fs_cache FsTheorems.Sample.s0) [2] 8)) as [Hfit _].
  - unfold phdr_words. repeat (apply Forall_cons; split; [vm_compute; split; [discriminate|reflexivity]|]). apply Forall_nil. exact I.
  - exact header_valid.
  - rewrite InodeWrite.length_contents. vm_compute. discriminate.
  - vm_compute. reflexivity.
  - exact Hfit.
Defined.
End Start.
