(* ===== verification/Malloc.v ===== *)
(** The block allocator ([threads/malloc.c]).  Arena headers are words of the
    machine's memory; the descriptors are the initialised part of [descs].  A
    free block's [struct block] is kept in the link store of [KList] while the
    block is on a free list, and in the block's own first eight bytes
    otherwise: [as_elem] and [as_bytes] move it.  A descriptor's lock makes
    its critical section one step, so a call is one command here. *)
From Stdlib Require Import ZArith Lia.
From stdpp Require Import base tactics option numbers list gmap.
From S2P Require Import Prelude KList Bitmap CString Palloc PageDir.

Open Scope Z_scope.

Definition ARENA_MAGIC : Z := 0x9a548eed.

(** [sizeof (struct arena)], and that of [struct desc] with its list and lock. *)
Definition sizeof_arena : Z := 12.
Definition sizeof_desc : Z := 48.

(** [sizeof descs / sizeof *descs]. *)
Definition DESC_MAX : Z := 10.

(** The members of [struct desc] that [malloc_init] sets once; its list is in
    the link store. *)
Record desc := mk_desc { block_size_of : Z; blocks_per_arena : Z }.

(** [desc_cnt] is the length of [descs]. *)
Record mstate := mk_mstate { pages : machine; links : KList.heap; descs : list desc }.

Definition set_pages (x : machine) (s : mstate) : mstate := mk_mstate x (links s) (descs s).
Definition set_links (h : KList.heap) (s : mstate) : mstate := mk_mstate (pages s) h (descs s).
Definition add_desc (d : desc) (s : mstate) : mstate :=
  mk_mstate (pages s) (links s) (descs s ++ [d]).

Definition on_pages {A} (m : M machine A) : M mstate A := zoom pages set_pages m.
Definition on_links {A} (m : M KList.heap A) : M mstate A := zoom links set_links m.
Definition on_bytes {A} (m : M mem A) : M mstate A := on_pages (Palloc.Ops.on_ram m).

Module Ops.
Section allocator.
(** The address of the array [descs]. *)
Context (descs_at : Z).

Definition desc_addr (k : Z) : Z := descs_at + sizeof_desc * k.

(** [&d->free_list]. *)
Definition free_list (d : Z) : Z := d + 8.

Definition read32 (a : Z) : M mstate Z := on_bytes (PageDir.Ops.load32 a).
Definition write32 (a w : Z) : M mstate unit := on_bytes (PageDir.Ops.store32 a w).

(** [a->magic], [a->desc], [a->free_cnt]. *)
Definition magic_at (a : Z) : Z := a.
Definition desc_at (a : Z) : Z := a + 4.
Definition free_cnt_at (a : Z) : Z := a + 8.

(** The descriptor a pointer designates. *)
Definition deref_desc (d : Z) : M mstate desc :=
  ds ← gets descs;
  if (descs_at <=? d) && ((d - descs_at) mod sizeof_desc =? 0)
  then deref (ds !! Z.to_nat ((d - descs_at) / sizeof_desc)) else undef.

(** The block's first bytes as a list element, and back. *)
Definition as_elem (b : Z) : M mstate unit :=
  p ← read32 b; n ← read32 (b + 4);
  on_links (modify (λ h : KList.heap, <[b := mk_elem p n]> h)).
Definition as_bytes (b : Z) : M mstate unit :=
  h ← gets links; e ← deref (h !! b);
  write32 b (prev e);; write32 (b + 4) (next e);;
  on_links (modify (λ h : KList.heap, delete b h)).

Definition malloc_init : M mstate unit :=
  loop 9 (λ block_size : Z,
    if block_size <? PGSIZE / 2 then
      k ← gets (λ s, Z.of_nat (length (descs s)));
      ASSERT (k + 1 <=? DESC_MAX);;
      modify (add_desc (mk_desc block_size ((PGSIZE - sizeof_arena) / block_size)));;
      on_links (KList.Ops.list_init (free_list (desc_addr k)));;
      mret (inl (u32 (block_size * 2)))
    else mret (inr tt)) 16.

Definition block_to_arena (b : Z) : M mstate Z :=
  let a := pg_round_down b in
  ASSERT (negb (a =? NULL));;
  m ← read32 (magic_at a);
  ASSERT (m =? ARENA_MAGIC);;
  d ← read32 (desc_at a);
  aligned ← (if d =? NULL then mret true else
             dd ← deref_desc d;
             mret (u32 (pg_ofs b - sizeof_arena) mod block_size_of dd =? 0));
  ASSERT aligned;;
  ASSERT (negb (d =? NULL) || (pg_ofs b =? sizeof_arena));;
  mret a.

Definition arena_to_block (a idx : Z) : M mstate Z :=
  ASSERT (negb (a =? NULL));;
  m ← read32 (magic_at a);
  ASSERT (m =? ARENA_MAGIC);;
  d ← read32 (desc_at a);
  dd ← deref_desc d;
  ASSERT (idx <? blocks_per_arena dd);;
  mret (u32 (a + sizeof_arena + idx * block_size_of dd)).

(** The blocks of a new arena, onto the free list. *)
Definition push_blocks (d a cnt : Z) : M mstate unit :=
  for_upto (Z.to_nat cnt) 0 (λ i,
    b ← arena_to_block a i;
    as_elem b;;
    on_links (KList.Ops.list_push_back (free_list d) b)).

(** The blocks of an unused arena, off the free list. *)
Definition remove_blocks (a cnt : Z) : M mstate unit :=
  for_upto (Z.to_nat cnt) 0 (λ i,
    b ← arena_to_block a i;
    on_links (KList.Ops.list_remove b);;
    as_bytes b).

(** The header of a new arena. *)
Definition init_arena (a d cnt : Z) : M mstate unit :=
  write32 (magic_at a) ARENA_MAGIC;;
  write32 (desc_at a) d;;
  write32 (free_cnt_at a) cnt.

(** The request that no descriptor serves; the sum wraps around as [size_t]. *)
Definition malloc_big (size : Z) : M mstate Z :=
  let page_cnt := u32 (size + sizeof_arena + PGSIZE - 1) / PGSIZE in
  a ← on_pages (Palloc.Ops.palloc_get_multiple 0 page_cnt);
  if a =? NULL then mret NULL else
  init_arena a NULL page_cnt;;
  mret (a + sizeof_arena).

(** A new arena for descriptor [dd] at [d]; [false] when there is no page. *)
Definition new_arena (d : Z) (dd : desc) : M mstate bool :=
  a ← on_pages (Palloc.Ops.palloc_get_page 0);
  if a =? NULL then mret false else
  init_arena a d (blocks_per_arena dd);;
  push_blocks d a (blocks_per_arena dd);;
  mret true.

(** The first block of the free list, which is not empty. *)
Definition take_block (d : Z) : M mstate Z :=
  b ← on_links (KList.Ops.list_pop_front (free_list d));
  as_bytes b;;
  a ← block_to_arena b;
  c ← read32 (free_cnt_at a);
  write32 (free_cnt_at a) (u32 (c - 1));;
  mret b.

Definition malloc (size : Z) : M mstate Z :=
  if size =? 0 then mret NULL else
  ds ← gets descs;
  match list_find (λ d, size ≤ block_size_of d) ds with
  | None => malloc_big size
  | Some (k, dd) =>
      let d := desc_addr (Z.of_nat k) in
      e ← on_links (KList.Ops.list_empty (free_list d));
      ok ← (if e : bool then new_arena d dd else mret true);
      if ok : bool then take_block d else mret NULL
  end.

Definition calloc (a b : Z) : M mstate Z :=
  let size := u32 (a * b) in
  if (size <? a) || (size <? b) then mret NULL else
  p ← malloc size;
  (if negb (p =? NULL) then on_bytes (CString.Ops.memset p 0 size);; mret tt else mret tt);;
  mret p.

Definition block_size (block : Z) : M mstate Z :=
  a ← block_to_arena block;
  d ← read32 (desc_at a);
  if negb (d =? NULL) then dd ← deref_desc d; mret (block_size_of dd)
  else c ← read32 (free_cnt_at a); mret (u32 (PGSIZE * c - pg_ofs block)).

(** The block back onto its free list, and the arena back to the page
    allocator when that was its last block in use. *)
Definition give_block (b a d : Z) : M mstate unit :=
  dd ← deref_desc d;
  on_bytes (CString.Ops.memset b 0xcc (block_size_of dd));;
  as_elem b;;
  on_links (KList.Ops.list_push_front (free_list d) b);;
  c ← read32 (free_cnt_at a);
  let c := u32 (c + 1) in
  write32 (free_cnt_at a) c;;
  if blocks_per_arena dd <=? c then
    ASSERT (c =? blocks_per_arena dd);;
    remove_blocks a (blocks_per_arena dd);;
    on_pages (Palloc.Ops.palloc_free_page a)
  else mret tt.

Definition free (p : Z) : M mstate unit :=
  if negb (p =? NULL) then
    a ← block_to_arena p;
    d ← read32 (desc_at a);
    if negb (d =? NULL) then give_block p a d
    else c ← read32 (free_cnt_at a); on_pages (Palloc.Ops.palloc_free_multiple a c)
  else mret tt.

Definition realloc (old_block new_size : Z) : M mstate Z :=
  if new_size =? 0 then free old_block;; mret NULL else
  new_block ← malloc new_size;
  (if negb (old_block =? NULL) && negb (new_block =? NULL) then
     old_size ← block_size old_block;
     let min_size := if new_size <? old_size then new_size else old_size in
     on_bytes (CString.Ops.memcpy new_block old_block min_size);;
     free old_block
   else mret tt);;
  mret new_block.
End allocator.
End Ops.
