(* ===== verification/MallocInv.v ===== *)
(** The invariant of the block allocator: which arenas exist, which blocks of
    them are free, and what the allocator leaves alone. *)
From Stdlib Require Import ZArith Lia.
From stdpp Require Import base tactics option numbers list gmap functions.
From S2P Require Import Prelude KList Bitmap CString Palloc PageDir Malloc.

Open Scope Z_scope.

(** What [malloc_init] leaves in [descs]. *)
Definition std_descs : list desc :=
  [mk_desc 16 255; mk_desc 32 127; mk_desc 64 63; mk_desc 128 31; mk_desc 256 15;
   mk_desc 512 7; mk_desc 1024 3].

(** An arena of a descriptor's blocks, or one block of [n] pages. *)
Inductive arena_kind := Small (k : nat) | Big (n : Z).

Definition arena_pages (kd : arena_kind) : Z := match kd with Small _ => 1 | Big n => n end.
Definition covers (a : Z) (kd : arena_kind) (x : Z) : Prop := a ≤ x < a + 4096 * arena_pages kd.

(** Block [i] of the arena at [a]. *)
Definition blk (a : Z) (d : desc) (i : Z) : Z := a + sizeof_arena + i * block_size_of d.
Definition blks (a : Z) (d : desc) : list Z := blk a d <$> seqZ 0 (blocks_per_arena d).

(** The free blocks of [xs] in the arena at [a]. *)
Definition in_arena (a x : Z) : Prop := a ≤ x < a + 4096.
#[global] Instance in_arena_dec a x : Decision (in_arena a x).
Proof. unfold in_arena. apply _. Defined.
Definition free_in (a : Z) (xs : list Z) : Z := Z.of_nat (length (filter (in_arena a) xs)).

Section invariant.
Context (descs_at : Z) (m0 : machine).

Abbreviation kbase := (base (kernel_pool m0)).
Abbreviation kcnt := (bit_cnt (used_map (kernel_pool m0))).
Abbreviation kbit := (bit (used_map (kernel_pool m0))).
Abbreviation flist k := (Ops.free_list (Ops.desc_addr descs_at (Z.of_nat k))).

(** An address in a page that was free before any block was handed out. *)
Definition spare (x : Z) : Prop :=
  ∃ i, 0 ≤ i < kcnt ∧ kbit i = false ∧ kbase + 4096 * i ≤ x < kbase + 4096 * i + 4096.

Definition header (m : mem) (a : Z) (kd : arena_kind) (fl : nat → list Z) : Prop :=
  word m (Ops.magic_at a) = ARENA_MAGIC ∧
  match kd with
  | Small k => word m (Ops.desc_at a) = Ops.desc_addr descs_at (Z.of_nat k) ∧
               word m (Ops.free_cnt_at a) = free_in a (fl k) ∧ (k < length std_descs)%nat
  | Big n => word m (Ops.desc_at a) = NULL ∧ word m (Ops.free_cnt_at a) = n
  end.

Definition arena_at (a : Z) (kd : arena_kind) : Prop :=
  ∃ i, 0 ≤ i ∧ i + arena_pages kd ≤ kcnt ∧ a = kbase + 4096 * i ∧ 0 < arena_pages kd ∧
       Correct.all_eq (used_map (kernel_pool m0)) i (arena_pages kd) false.

(** The kernel pool now: what was in use before, and the arenas. *)
Record pool_is (ar : gmap Z arena_kind) (x : machine) : Prop := {
  pi_inv : inv x;
  pi_user : user_pool x = user_pool m0;
  pi_base : base (kernel_pool x) = kbase;
  pi_cnt : bit_cnt (used_map (kernel_pool x)) = kcnt;
  pi_used : ∀ i, 0 ≤ i < kcnt →
    bit (used_map (kernel_pool x)) i = true ↔
    kbit i = true ∨ ∃ a kd, ar !! a = Some kd ∧ covers a kd (kbase + 4096 * i);
  pi_other : ∀ y, ¬ spare y → ram x !! y = ram m0 !! y }.

Record minv (s : mstate) (ar : gmap Z arena_kind) (fl : nat → list Z) : Prop := {
  mi_pool : pool_is ar (pages s);
  mi_descs : descs s = std_descs;
  mi_arena : ∀ a kd, ar !! a = Some kd → arena_at a kd ∧ header (ram (pages s)) a kd fl;
  mi_apart : ∀ a kd a' kd' x, ar !! a = Some kd → ar !! a' = Some kd' →
    covers a kd x → covers a' kd' x → a = a';
  mi_lists : ∀ k d, std_descs !! k = Some d → is_list (links s) (flist k) (fl k);
  mi_free : ∀ k d x, std_descs !! k = Some d → x ∈ fl k →
    ∃ a i, ar !! a = Some (Small k) ∧ 0 ≤ i < blocks_per_arena d ∧ x = blk a d i }.

(** Every arena has a block in use. *)
Definition busy (ar : gmap Z arena_kind) (fl : nat → list Z) : Prop :=
  ∀ a k d, ar !! a = Some (Small k) → std_descs !! k = Some d →
    free_in a (fl k) < blocks_per_arena d.

(** The block at [p], of [n] bytes, is in use. *)
Definition live (ar : gmap Z arena_kind) (fl : nat → list Z) (p n : Z) : Prop :=
  (∃ a k d i, ar !! a = Some (Small k) ∧ std_descs !! k = Some d ∧
     0 ≤ i < blocks_per_arena d ∧ p = blk a d i ∧ n = block_size_of d ∧ p ∉ fl k) ∨
  (∃ a c, ar !! a = Some (Big c) ∧ p = a + sizeof_arena ∧ n = 4096 * c - sizeof_arena).

(** The static data lies between [PHYS_BASE] and the pools. *)
Class kernel_data : Prop := {
  kd_inv : inv m0;
  kd_descs : PHYS_BASE ≤ descs_at ∧ descs_at + sizeof_desc * DESC_MAX ≤ kbase }.
End invariant.

Arguments kd_inv {_ _ _}.
Arguments kd_descs {_ _ _}.
Arguments mi_pool {_ _ _ _ _} _.
Arguments mi_descs {_ _ _ _ _} _.
Arguments mi_arena {_ _ _ _ _} _.
Arguments mi_apart {_ _ _ _ _} _.
Arguments mi_lists {_ _ _ _ _} _.
Arguments mi_free {_ _ _ _ _} _.
Arguments pi_inv {_ _ _} _.
Arguments pi_user {_ _ _} _.
Arguments pi_base {_ _ _} _.
Arguments pi_cnt {_ _ _} _.
Arguments pi_used {_ _ _} _.
Arguments pi_other {_ _ _} _.

Section facts.
Context {descs_at : Z} {m0 : machine} {Hkd : kernel_data descs_at m0}.

Abbreviation kbase := (base (kernel_pool m0)).
Abbreviation kcnt := (bit_cnt (used_map (kernel_pool m0))).
Abbreviation kbit := (bit (used_map (kernel_pool m0))).
Abbreviation flist k := (Ops.free_list (Ops.desc_addr descs_at (Z.of_nat k))).
Abbreviation minv := (minv descs_at m0).
Abbreviation pool_is := (pool_is m0).
Abbreviation spare := (spare m0).
Abbreviation header := (header descs_at).

Lemma std_desc_ok k d :
  std_descs !! k = Some d →
  (k < 7)%nat ∧ 16 ≤ block_size_of d ∧ 3 ≤ blocks_per_arena d ≤ 255 ∧
  sizeof_arena + blocks_per_arena d * block_size_of d ≤ 4096 ∧ block_size_of d ≤ 1024.
Proof.
  intros Hk. pose proof (lookup_lt_Some _ _ _ Hk) as Hl. change (length std_descs) with 7%nat in Hl.
  do 7 (destruct k as [|k]; [simplify_eq/=; unfold sizeof_arena; lia|]). lia.
Qed.

Lemma kpool_facts : kbase mod 4096 = 0 ∧ PHYS_BASE ≤ kbase ∧ kbase + 4096 * kcnt ≤ 2 ^ 32 ∧ 0 ≤ kcnt.
Proof.
  pose proof (inv_pools _ kd_inv KernelPool) as Hp. simpl in Hp.
  pose proof (bit_cnt_small _ _ Hp). split_and!; [apply Hp..|lia].
Qed.

(** A block lies in its arena, behind the header. *)
Lemma blk_in k d a i :
  std_descs !! k = Some d → 0 ≤ i < blocks_per_arena d →
  a + 12 ≤ blk a d i ∧ blk a d i + block_size_of d ≤ a + 4096.
Proof.
  intros (_ & ? & ? & ? & _)%std_desc_ok Hi. unfold blk, sizeof_arena in *. nia.
Qed.

Lemma blk_apart k d a i j :
  std_descs !! k = Some d → i ≠ j →
  blk a d i + block_size_of d ≤ blk a d j ∨ blk a d j + block_size_of d ≤ blk a d i.
Proof.
  intros (_ & ? & ? & ? & _)%std_desc_ok Hi. unfold blk, sizeof_arena in *.
  destruct (Z.lt_total i j) as [|[|]]; [left|done|right]; nia.
Qed.

Section arenas.
Context {s : mstate} {ar : gmap Z arena_kind} {fl : nat → list Z} (Hi : minv s ar fl).

Lemma arena_facts a kd :
  ar !! a = Some kd →
  a mod 4096 = 0 ∧ kbase ≤ a ∧ a + 4096 * arena_pages kd ≤ kbase + 4096 * kcnt ∧
  0 < arena_pages kd ∧ has_range (ram (pages s)) a (4096 * arena_pages kd) ∧
  (∀ x, covers a kd x → spare x).
Proof.
  intros Ha. destruct (mi_arena Hi a kd Ha) as [(i & ? & Hle & -> & Hp & Hall) _].
  destruct kpool_facts as (Hal & _). pose proof (mi_pool Hi) as Hpi.
  split_and!; [|lia..| |].
  - rewrite Z.mul_comm, Z_mod_plus_full. done.
  - intros x Hx. apply (pool_mem _ _ (inv_pools _ (pi_inv Hpi) KernelPool)). simpl.
    rewrite (pi_base Hpi), (pi_cnt Hpi). lia.
  - intros x Hx. unfold covers in Hx. exists ((x - kbase) / 4096).
    pose proof (Z.div_mod (x - kbase) 4096). pose proof (Z.mod_pos_bound (x - kbase) 4096).
    split_and!; [lia..| |lia|lia]. apply Hall. lia.
Qed.
End arenas.

(** * Reading an arena *)

(** What the reads of an arena's header rely on. *)
Definition readable (a : Z) (kd : arena_kind) (s : mstate) : Prop :=
  descs s = std_descs ∧ a mod 4096 = 0 ∧ PHYS_BASE ≤ a ∧ a + 4096 ≤ 2 ^ 32 ∧
  has_range (ram (pages s)) a 4096 ∧ word (ram (pages s)) (Ops.magic_at a) = ARENA_MAGIC ∧
  word (ram (pages s)) (Ops.desc_at a) =
    match kd with Small k => Ops.desc_addr descs_at (Z.of_nat k) | Big _ => NULL end.

(** The block [p] is the one of a big arena, or one of a small one's. *)
Definition block_of (a : Z) (kd : arena_kind) (p : Z) : Prop :=
  match kd with
  | Small k => ∃ d i, std_descs !! k = Some d ∧ 0 ≤ i < blocks_per_arena d ∧ p = blk a d i
  | Big _ => p = a + sizeof_arena
  end.

Lemma minv_readable s ar fl a kd : minv s ar fl → ar !! a = Some kd → readable a kd s.
Proof.
  intros Hi Ha. destruct (arena_facts Hi a kd Ha) as (? & ? & ? & ? & Hr & _).
  destruct (mi_arena Hi a kd Ha) as [_ [Hw Hk]]. destruct kpool_facts as (_ & ? & ? & _).
  split_and!; [apply Hi|done|lia|lia| |done|by destruct kd; destruct Hk].
  intros x Hx. apply Hr. lia.
Qed.

Lemma readable_changes a kd s s' b n :
  readable a kd s → descs s' = descs s → changes_at b n (ram (pages s)) (ram (pages s')) →
  a + 8 ≤ b ∨ b + n ≤ a → readable a kd s'.
Proof.
  intros (? & ? & ? & ? & ? & Hm & Hd) E Hch Hb. unfold readable, Ops.magic_at, Ops.desc_at in *.
  rewrite E, !(word_changes _ _ _ _ _ Hch) by lia. split_and!; try done. by eapply changes_has.
Qed.

Lemma read32_ok s a Q :
  has_range (ram (pages s)) a 4 → Q (word (ram (pages s)) a) s → wp (Ops.read32 a) Q s.
Proof.
  intros Hr HQ. unfold Ops.read32, on_bytes, on_pages, Palloc.Ops.on_ram.
  apply wp_zoom, wp_zoom, load32_ok; [done|]. by destruct s as [[] ? ?].
Qed.

(** The state with other memory. *)
Definition with_ram (m : mem) (s : mstate) : mstate := set_pages (set_ram m (pages s)) s.

Lemma on_bytes_ok {A} (c : M mem A) Q s :
  wp c (λ r m, Q r (with_ram m s)) (ram (pages s)) → wp (on_bytes c) Q s.
Proof. intros H. unfold on_bytes, on_pages, Palloc.Ops.on_ram. by apply wp_zoom, wp_zoom. Qed.

Lemma write32_ok s a w (Q : unit → mstate → Prop) :
  is_u32 w → has_range (ram (pages s)) a 4 →
  (∀ m', word m' a = w → changes_at a 4 (ram (pages s)) m' → Q tt (with_ram m' s)) →
  wp (Ops.write32 a w) Q s.
Proof.
  intros Hw Hr HQ. apply on_bytes_ok. eapply wp_mono; [by apply store32_ok|].
  intros [] m' [? ?]. by apply HQ.
Qed.

Lemma deref_desc_ok s k d Q :
  descs s = std_descs → std_descs !! k = Some d → Q d s →
  wp (Ops.deref_desc descs_at (Ops.desc_addr descs_at (Z.of_nat k))) Q s.
Proof.
  intros E Hk HQ. unfold Ops.deref_desc, Ops.desc_addr. wp_go.
  replace (descs_at + sizeof_desc * Z.of_nat k - descs_at) with (Z.of_nat k * sizeof_desc) by lia.
  rewrite Z.mod_mul, Z.div_mul, Nat2Z.id, E, Hk by done.
  rewrite (proj2 (Z.leb_le _ _)) by (unfold sizeof_desc; lia). by wp_go.
Qed.

Lemma desc_addr_nonnull k : Ops.desc_addr descs_at (Z.of_nat k) ≠ NULL.
Proof. destruct kd_descs. unfold Ops.desc_addr, sizeof_desc, NULL, PHYS_BASE in *. lia. Qed.

Lemma block_of_in a kd p :
  block_of a kd p → a + 12 ≤ p < a + 4096.
Proof.
  destruct kd as [k|n]; simpl.
  - intros (d & i & Hk & Hi & ->). pose proof (blk_in k d a i Hk Hi).
    apply std_desc_ok in Hk. lia.
  - intros ->. unfold sizeof_arena. lia.
Qed.

Lemma round_down_in a p : a mod 4096 = 0 → 0 ≤ a → a + 4096 ≤ 2 ^ 32 → a ≤ p < a + 4096 →
  pg_round_down p = a ∧ pg_ofs p = p - a.
Proof.
  intros Ha ? ? Hp. rewrite pg_round_down_eq, pg_ofs_eq by (unfold is_u32; lia).
  pose proof (Z.div_mod a 4096). pose proof (Z.div_mod p 4096). pose proof (Z.mod_pos_bound p 4096). lia.
Qed.

Lemma block_to_arena_ok a kd p s Q :
  readable a kd s → block_of a kd p → Q a s → wp (Ops.block_to_arena descs_at p) Q s.
Proof.
  intros (E & Ha & Hl & Hh & Hr & Hm & Hd) Hb HQ. pose proof (block_of_in a kd p Hb) as Hp.
  unfold PHYS_BASE in Hl. destruct (round_down_in a p) as [Hrd Ho]; [done|lia..|].
  unfold Ops.block_to_arena. rewrite Hrd, Ho.
  wp_assert (apply negb_true_iff, Z.eqb_neq; unfold NULL; lia).
  apply read32_ok; [intros y Hy; apply Hr; unfold Ops.magic_at in *; lia|].
  wp_assert (by rewrite Hm).
  apply read32_ok; [intros y Hy; apply Hr; unfold Ops.desc_at in *; lia|]. rewrite Hd.
  destruct kd as [k|n]; simpl in Hb.
  - destruct Hb as (d & i & Hk & Hi & ->). rewrite (proj2 (Z.eqb_neq _ _) (desc_addr_nonnull k)).
    wp_unbind. eapply deref_desc_ok; [done..|]. cbn [negb orb]. wp_go.
    destruct (std_desc_ok _ _ Hk) as (_ & ? & _).
    wp_assert (unfold blk; replace (a + sizeof_arena + i * block_size_of d - a - sizeof_arena)
      with (i * block_size_of d) by lia; unfold blk, sizeof_arena in Hp; rewrite u32_id by (unfold is_u32; lia);
      rewrite Z.mod_mul by lia; done). done.
  - rewrite Z.eqb_refl. cbn [negb orb]. subst p. wp_go. wp_assert (apply Z.eqb_eq; lia). done.
Qed.

Lemma arena_to_block_ok a k d i s Q :
  readable a (Small k) s → std_descs !! k = Some d → 0 ≤ i < blocks_per_arena d →
  Q (blk a d i) s → wp (Ops.arena_to_block descs_at a i) Q s.
Proof.
  intros (E & Ha & Hl & Hh & Hr & Hm & Hd) Hk Hi HQ. unfold PHYS_BASE in Hl.
  unfold Ops.arena_to_block. wp_assert (apply negb_true_iff, Z.eqb_neq; unfold NULL; lia).
  apply read32_ok; [intros y Hy; apply Hr; unfold Ops.magic_at in *; lia|].
  wp_assert (by rewrite Hm).
  apply read32_ok; [intros y Hy; apply Hr; unfold Ops.desc_at in *; lia|]. rewrite Hd.
  wp_unbind. eapply deref_desc_ok; [done..|]. wp_assert (apply Z.ltb_lt; lia).
  pose proof (blk_in k d a i Hk Hi). pose proof (std_desc_ok _ _ Hk).
  fold (blk a d i). rewrite u32_id by (unfold is_u32; lia). done.
Qed.

(** * Changes of the memory *)
Lemma word_same m m' a : (∀ y, a ≤ y < a + 4 → m' !! y = m !! y) → word m' a = word m a.
Proof. intros H. unfold word. rewrite !lookup_total_alt, !H by lia. done. Qed.

(** The memory differs at addresses in [P] only. *)
Definition only_at (P : Z → Prop) (m m' : mem) : Prop :=
  (∀ y, ¬ P y → m' !! y = m !! y) ∧ dom m' = dom m.

Lemma only_at_mono (P Q : Z → Prop) m m' : only_at P m m' → (∀ y, P y → Q y) → only_at Q m m'.
Proof. intros [H ?] HPQ. split; [|done]. intros y Hy. apply H. auto. Qed.

Lemma only_at_trans P m1 m2 m3 : only_at P m1 m2 → only_at P m2 m3 → only_at P m1 m3.
Proof. intros [H1 D1] [H2 D2]. split; [|congruence]. intros y Hy. by rewrite H2, H1. Qed.

Lemma only_at_changes (P : Z → Prop) a n m m' :
  changes_at a n m m' → (∀ y, a ≤ y < a + n → P y) → only_at P m m'.
Proof. intros [H ?] HP. split; [|done]. intros y Hy. apply H. intros ?. by apply Hy, HP. Qed.

Lemma only_at_has P m m' a n : only_at P m m' → has_range m a n → has_range m' a n.
Proof. intros [_ Hd] Hr y Hy. apply elem_of_dom. rewrite Hd. apply elem_of_dom. by apply Hr. Qed.

Lemma pool_is_ram ar x P m' :
  pool_is ar x → only_at P (ram x) m' → (∀ y, P y → spare y) → pool_is ar (set_ram m' x).
Proof.
  intros [[Hp Hd] ? ? ? ? Ho] [Hch Hdom] Hs. split; [|done..|].
  - split; [|done]. intros w. destruct (Hp w) as [? ? ? ? Hmem].
    split; destruct w; try done; intros a Ha;
      apply elem_of_dom; cbn [ram set_ram]; rewrite Hdom; apply elem_of_dom; by apply Hmem.
  - intros y Hy. cbn [ram set_ram]. rewrite Hch; [by apply Ho|]. intros ?. by apply Hy, Hs.
Qed.

(** The headers, with free list [k] and the count of one arena changed. *)
Lemma headers_update s ar fl a k xs m' :
  minv s ar fl → ar !! a = Some (Small k) → word m' (Ops.free_cnt_at a) = free_in a xs →
  (∀ a' kd y, ar !! a' = Some kd → a' ≤ y < a' + 12 → ¬ (a + 8 ≤ y < a + 12) →
     m' !! y = ram (pages s) !! y) →
  (∀ a' kd, ar !! a' = Some kd → a' ≠ a → free_in a' xs = free_in a' (fl k)) →
  ∀ a' kd, ar !! a' = Some kd → header m' a' kd (<[k := xs]> fl).
Proof.
  intros Hi Ha Hw Hm Hf a' kd Ha'. destruct (mi_arena Hi a' kd Ha') as [_ [H1 H2]].
  destruct (arena_facts Hi a _ Ha) as (Al & _ & _ & _).
  destruct (arena_facts Hi a' _ Ha') as (Al' & _ & _ & _).
  unfold header, Ops.magic_at, Ops.desc_at, Ops.free_cnt_at in *.
  assert (∀ z, a' ≤ z → z + 4 ≤ a' + 12 → a' ≠ a ∨ z + 4 ≤ a + 8 →
            word m' z = word (ram (pages s)) z) as Hz.
  { intros z ? ? Hne. apply word_same. intros y Hy. apply (Hm a' kd); [done|lia|].
    destruct Hne as [Hne|]; [|lia]. pose proof (pages_apart a a' Al Al'). lia. }
  destruct (decide (a' = a)) as [->|Hne].
  - rewrite !(Hz _) by lia. simplify_eq. rewrite fn_lookup_insert. destruct H2 as (? & _ & ?).
    by split_and!.
  - rewrite !(Hz _) by (try lia; by left). split; [done|]. destruct kd as [j|n]; [|done].
    destruct H2 as (? & E & ?). split_and!; [done| |done]. rewrite E.
    destruct (decide (j = k)) as [->|]; [|by rewrite fn_lookup_insert_ne].
    rewrite fn_lookup_insert. symmetry. by eapply Hf.
Qed.

(** * The free lists *)
Section lists.
Context {s : mstate} {ar : gmap Z arena_kind} {fl : nat → list Z} (Hi : minv s ar fl).

Lemma free_block k d x : std_descs !! k = Some d → x ∈ fl k →
  ∃ a, ar !! a = Some (Small k) ∧ block_of a (Small k) x ∧ x + block_size_of d ≤ a + 4096.
Proof.
  intros Hk Hx. destruct (mi_free Hi k d x Hk Hx) as (a & i & Ha & ? & ->).
  exists a. split_and!; [done| |by eapply blk_in]. by exists d, i.
Qed.

(** The arena a block is in. *)
Lemma arena_unique a a' kd kd' p :
  ar !! a = Some kd → ar !! a' = Some kd' → block_of a kd p → block_of a' kd' p → a = a' ∧ kd = kd'.
Proof.
  intros Ha Ha' Hb%block_of_in Hb'%block_of_in.
  destruct (arena_facts Hi a _ Ha) as (_ & _ & _ & ? & _).
  destruct (arena_facts Hi a' _ Ha') as (_ & _ & _ & ? & _).
  assert (a = a') as -> by (eapply (mi_apart Hi _ _ _ _ p Ha Ha'); unfold covers; lia).
  by simplify_eq.
Qed.

Lemma static_node k d x : std_descs !! k = Some d → x = head_of (flist k) ∨ x = tail_of (flist k) →
  descs_at + 48 * Z.of_nat k + 8 ≤ x ≤ descs_at + 48 * Z.of_nat k + 16 ∧ x < kbase.
Proof.
  intros (Hk & _)%std_desc_ok. destruct kd_descs as [_ Hd].
  unfold Ops.free_list, Ops.desc_addr, head_of, tail_of, sizeof_desc, DESC_MAX in *. lia.
Qed.

Lemma node_cases k x : x ∈ nodes (flist k) (fl k) ↔
  (x = head_of (flist k) ∨ x = tail_of (flist k)) ∨ x ∈ fl k.
Proof. unfold nodes. rewrite elem_of_cons, elem_of_app, list_elem_of_singleton. tauto. Qed.

Lemma free_high k d x : std_descs !! k = Some d → x ∈ fl k → kbase ≤ x < kbase + 4096 * kcnt.
Proof.
  intros Hk Hx. destruct (free_block k d x Hk Hx) as (a & Ha & Hb%block_of_in & _).
  destruct (arena_facts Hi a _ Ha) as (_ & ? & ? & _). simpl in *. lia.
Qed.

Lemma node_u32 k d x : std_descs !! k = Some d → x ∈ nodes (flist k) (fl k) → is_u32 x.
Proof.
  intros Hk [Hx|Hx]%node_cases; unfold is_u32; destruct kpool_facts as (_ & ? & ? & ?);
    unfold PHYS_BASE in *; destruct kd_descs as [? _]; unfold PHYS_BASE in *.
  - pose proof (static_node k d x Hk Hx). lia.
  - pose proof (free_high k d x Hk Hx). lia.
Qed.

Lemma nodes_apart j k d d' x : std_descs !! j = Some d → std_descs !! k = Some d' → j ≠ k →
  x ∈ nodes (flist j) (fl j) → x ∉ nodes (flist k) (fl k).
Proof.
  intros Hj Hk Hne [Hx|Hx]%node_cases [Hy|Hy]%node_cases.
  - pose proof (static_node j d x Hj Hx). pose proof (static_node k d' x Hk Hy). lia.
  - pose proof (static_node j d x Hj Hx). pose proof (free_high k d' x Hk Hy). lia.
  - pose proof (static_node k d' x Hk Hy). pose proof (free_high j d x Hj Hx). lia.
  - destruct (free_block j d x Hj Hx) as (a & Ha & Hb & _).
    destruct (free_block k d' x Hk Hy) as (a' & Ha' & Hb' & _).
    destruct (arena_unique a a' _ _ x Ha Ha' Hb Hb') as [_ ?]. by simplify_eq.
Qed.

(** List [k] replaced, with changes at its nodes and at [e] only. *)
Lemma lists_update k d e xs h' :
  std_descs !! k = Some d → same_outside (e :: nodes (flist k) (fl k)) (links s) h' →
  is_list h' (flist k) xs →
  (∀ j d, std_descs !! j = Some d → j ≠ k → e ∉ nodes (flist j) (fl j)) →
  ∀ j d, std_descs !! j = Some d → is_list h' (flist j) ((<[k := xs]> fl) j).
Proof.
  intros Hk Hs Hl He j d' Hj. destruct (decide (j = k)) as [->|Hne]; [by rewrite fn_lookup_insert|].
  rewrite fn_lookup_insert_ne by done.
  eapply is_list_frame; [done| |by eapply (mi_lists Hi)]. intros x Hx.
  apply not_elem_of_cons. split; [intros ->; by eapply He|]. by eapply (nodes_apart j k).
Qed.
End lists.
End facts.
