(* ===== verification/MallocOps.v ===== *)
(** The steps of the block allocator on its invariant: a block taken from a
    free list and given back, an arena made and returned. *)
From Stdlib Require Import ZArith Lia.
From stdpp Require Import base tactics option numbers list gmap functions.
From S2P Require Import Prelude KList Bitmap CString Palloc PageDir Malloc MallocInv.

Open Scope Z_scope.

(** A byte of an arena's header. *)
Definition header_byte (ar : gmap Z arena_kind) (y : Z) : Prop :=
  ∃ a kd, ar !! a = Some kd ∧ a ≤ y < a + 12.

Section steps.
Context {descs_at : Z} {m0 : machine} {Hkd : kernel_data descs_at m0}.

Abbreviation flist k := (Ops.free_list (Ops.desc_addr descs_at (Z.of_nat k))).
Abbreviation minv := (minv descs_at m0).
Abbreviation desc_addr := (Ops.desc_addr descs_at).

Lemma as_elem_ok s b (Q : unit → mstate → Prop) :
  has_range (ram (pages s)) b 8 → (∀ e, Q tt (set_links (<[b := e]> (links s)) s)) →
  wp (Ops.as_elem b) Q s.
Proof.
  intros Hr HQ. unfold Ops.as_elem. wp_unbind. apply read32_ok; [intros y Hy; apply Hr; lia|].
  wp_unbind. apply read32_ok; [intros y Hy; apply Hr; lia|]. apply wp_zoom. wp_go. apply HQ.
Qed.

Lemma as_bytes_ok s b e (Q : unit → mstate → Prop) :
  links s !! b = Some e → is_u32 (prev e) → is_u32 (next e) → has_range (ram (pages s)) b 8 →
  (∀ m', changes_at b 8 (ram (pages s)) m' →
     Q tt (set_links (delete b (links s)) (with_ram m' s))) →
  wp (Ops.as_bytes b) Q s.
Proof.
  intros He Hp Hn Hr HQ. unfold Ops.as_bytes. wp_go. rewrite He. wp_go.
  apply write32_ok; [done|intros y Hy; apply Hr; lia|]. intros m1 _ Hc1. wp_unbind.
  apply write32_ok; [done| |].
  { cbn [ram pages with_ram set_pages set_ram]. eapply changes_has; [done|].
    intros y Hy. apply Hr. lia. }
  intros m2 _ Hc2. apply wp_zoom. wp_go. cbn [ram pages links with_ram set_pages set_ram] in *.
  apply (HQ m2). eapply only_at_trans; (eapply only_at_changes; [done|cbn beta; lia]).
Qed.

Lemma free_in_cons a x xs : free_in a (x :: xs) = (if decide (in_arena a x) then 1 else 0) + free_in a xs.
Proof. unfold free_in. rewrite filter_cons. case_decide; simpl; lia. Qed.

Lemma free_in_range a xs : 0 ≤ free_in a xs. Proof. unfold free_in. lia. Qed.

(** A block in no other arena than its own counts for no other. *)
Lemma other_arena s ar fl a kd a' kd' p :
  minv s ar fl → ar !! a = Some kd → ar !! a' = Some kd' → a' ≠ a → block_of a kd p →
  ¬ in_arena a' p.
Proof.
  intros Hi Ha Ha' Hne Hb%block_of_in Hin. destruct (arena_facts Hi a _ Ha) as (? & _).
  destruct (arena_facts Hi a' _ Ha') as (? & _). unfold in_arena in Hin.
  pose proof (pages_apart a a'). lia.
Qed.

Lemma header_byte_spare s ar fl y : minv s ar fl → header_byte ar y → spare m0 y.
Proof.
  intros Hi (a & kd & Ha & Hy). destruct (arena_facts Hi a kd Ha) as (_ & _ & _ & ? & _ & Hs).
  apply Hs. unfold covers. lia.
Qed.

Lemma covered_spare s ar fl a kd y : minv s ar fl → ar !! a = Some kd → covers a kd y → spare m0 y.
Proof. intros Hi Ha. by apply (arena_facts Hi a kd Ha). Qed.

Lemma first_not_rest h l x xs : is_list h l (x :: xs) → x ∉ nodes l xs.
Proof.
  intros (_ & [Hh Hnd]%list.NoDup_cons & _). simpl in Hnd. apply list.NoDup_cons in Hnd as [Hx _].
  unfold nodes. set_solver.
Qed.

(** A block's bytes are in no header. *)
Lemma block_no_header s ar fl a kd y :
  minv s ar fl → ar !! a = Some kd → a + 12 ≤ y → covers a kd y → ¬ header_byte ar y.
Proof.
  intros Hi Ha Hy Hc (a' & kd' & Ha' & Hy').
  destruct (arena_facts Hi a' _ Ha') as (_ & _ & _ & ? & _).
  assert (a = a') as <- by (eapply (mi_apart Hi _ _ _ _ y Ha Ha'); [done|unfold covers; lia]). lia.
Qed.

(** The free blocks of an arena are among its blocks, once each. *)
Lemma elem_of_blks a d x : x ∈ blks a d ↔ ∃ i, 0 ≤ i < blocks_per_arena d ∧ x = blk a d i.
Proof.
  unfold blks. rewrite list_elem_of_fmap. split.
  - intros (i & -> & Hi%elem_of_seqZ). exists i. split; [lia|done].
  - intros (i & Hi & ->). exists i. split; [done|]. apply elem_of_seqZ. lia.
Qed.

Lemma length_blks k a d : std_descs !! k = Some d → Z.of_nat (length (blks a d)) = blocks_per_arena d.
Proof.
  intros (_ & _ & ? & _)%std_desc_ok. unfold blks. rewrite length_fmap, length_seqZ. lia.
Qed.

Lemma free_NoDup s ar fl k d : minv s ar fl → std_descs !! k = Some d → NoDup (fl k).
Proof.
  intros Hi Hk. destruct (mi_lists Hi k d Hk) as (_ & [_ Hnd]%list.NoDup_cons & _).
  by apply list.NoDup_app in Hnd as (? & _).
Qed.

Lemma free_in_blks s ar fl a k d :
  minv s ar fl → ar !! a = Some (Small k) → std_descs !! k = Some d →
  filter (in_arena a) (fl k) ⊆+ blks a d.
Proof.
  intros Hi Ha Hk. apply NoDup_submseteq.
  - by eapply list.NoDup_filter, free_NoDup.
  - intros x (Hin & Hx)%list_elem_of_filter.
    destruct (mi_free Hi k d x Hk Hx) as (a' & i & Ha' & Hi' & ->).
    apply elem_of_blks. exists i. split; [done|]. destruct (decide (a' = a)) as [->|Hne]; [done|].
    destruct (other_arena _ _ _ _ _ _ _ (blk a' d i) Hi Ha' Ha); [done| |done]. by exists d, i.
Qed.

Lemma free_in_le s ar fl a k d :
  minv s ar fl → ar !! a = Some (Small k) → std_descs !! k = Some d →
  free_in a (fl k) ≤ blocks_per_arena d.
Proof.
  intros Hi Ha Hk. rewrite <-(length_blks k a d Hk). unfold free_in.
  pose proof (submseteq_length _ _ (free_in_blks _ _ _ _ _ _ Hi Ha Hk)). lia.
Qed.

(** The state after free list [k] and the count of one of its arenas changed. *)
Lemma minv_update s ar fl a k d e xs h m P :
  minv s ar fl → ar !! a = Some (Small k) → std_descs !! k = Some d →
  same_outside (e :: nodes (flist k) (fl k)) (links s) h → is_list h (flist k) xs →
  block_of a (Small k) e → (∀ x, x ∈ xs → x = e ∨ x ∈ fl k) →
  (∀ a', a' ≠ a → is_Some (ar !! a') → free_in a' xs = free_in a' (fl k)) →
  only_at P (ram (pages s)) m → (∀ y, P y → spare m0 y ∧ (header_byte ar y → a + 8 ≤ y < a + 12)) →
  word m (Ops.free_cnt_at a) = free_in a xs →
  minv (mk_mstate (set_ram m (pages s)) h (descs s)) ar (<[k := xs]> fl).
Proof.
  intros Hi Ha Hk Hs Hl He Hxs Hf Hm HP Hw. split; cbn [pages links descs].
  - eapply pool_is_ram; [apply Hi|done|]. intros y Hy. by apply HP.
  - apply Hi.
  - intros a' kd Ha'. split; [by apply (mi_arena Hi)|]. cbn [ram set_ram].
    eapply headers_update; [exact Hi|exact Ha|done| |by eauto|done].
    intros a2 kd2 y Ha2 Hy Hny. apply (proj1 Hm). intros HPy. apply Hny, (HP y HPy). by exists a2, kd2.
  - apply (mi_apart Hi).
  - eapply (lists_update Hi k d e); [done..|]. intros j d' Hj Hne Hin.
    apply node_cases in Hin as [Hin|Hin].
    + pose proof (static_node j d' e Hj Hin). apply block_of_in in He.
      destruct (arena_facts Hi a _ Ha) as (_ & ? & _). lia.
    + destruct (free_block Hi j d' e Hj Hin) as (a2 & Ha2 & He2 & _).
      destruct (arena_unique Hi a a2 _ _ e Ha Ha2 He He2) as [_ ?]. by simplify_eq.
  - intros j d' x Hj. destruct (decide (j = k)) as [->|Hne].
    + rewrite fn_lookup_insert. intros [->|Hx]%Hxs; [|by apply (mi_free Hi)].
      destruct He as (d2 & i & Hk2 & Hi2 & ->). simplify_eq. by exists a, i.
    + rewrite fn_lookup_insert_ne by done. by apply (mi_free Hi).
Qed.

(** The first block of a free list is taken. *)
Lemma take_block_ok s ar fl k d x xs :
  minv s ar fl → std_descs !! k = Some d → fl k = x :: xs →
  wp (Ops.take_block descs_at (desc_addr (Z.of_nat k))) (λ r s', r = x ∧
    minv s' ar (<[k := xs]> fl) ∧
    only_at (λ y, x ≤ y < x + 8 ∨ header_byte ar y) (ram (pages s)) (ram (pages s'))) s.
Proof.
  intros Hi Hk Ex. pose proof (mi_lists Hi k d Hk) as Hl. rewrite Ex in Hl.
  destruct (free_block Hi k d x Hk) as (a & Ha & Hb & Hend); [rewrite Ex; by left|].
  pose proof (block_of_in _ _ _ Hb) as Hx. destruct (std_desc_ok k d Hk) as (_ & Hbs & _).
  destruct (arena_facts Hi a _ Ha) as (Al & _ & _ & _ & Hr & _). cbn [arena_pages] in Hr.
  pose proof (minv_readable _ _ _ _ _ Hi Ha) as Hrd.
  destruct (mi_arena Hi a _ Ha) as [_ (_ & _ & Hcnt & _)].
  unfold Ops.take_block. wp_unbind. apply wp_zoom.
  eapply wp_mono; [by apply KList.Correct.list_pop_front_ok|]. intros r h1 (-> & Hl1 & Hs1 & Hx1).
  wp_unbind. destruct (KList.Correct.is_list_elem (links s) (flist k) [] x xs Hl) as (He & _).
  assert (∀ y, y ∈ nodes (flist k) (x :: xs) → is_u32 y) as Hu.
  { intros y Hy. eapply (node_u32 Hi k d); [done|]. by rewrite Ex. }
  eapply as_bytes_ok; [cbn [links set_links]; by rewrite Hx1| | | |].
  { apply Hu. by left. }
  { apply Hu. right. right. destruct xs; simpl; by left. }
  { cbn [pages set_links]. intros y Hy. apply Hr. lia. }
  intros m1 Hc1. cbn [pages set_links] in Hc1. wp_unbind.
  eapply (block_to_arena_ok a (Small k)); [|done|].
  { eapply readable_changes; [exact Hrd|done|exact Hc1|lia]. }
  wp_unbind. apply read32_ok.
  { eapply changes_has; [exact Hc1|]. intros y Hy. apply Hr. unfold Ops.free_cnt_at in Hy. lia. }
  cbn [ram pages links with_ram set_pages set_ram set_links] in *.
  rewrite (word_changes _ _ _ _ _ Hc1), Hcnt, Ex, free_in_cons by (unfold Ops.free_cnt_at; lia).
  rewrite decide_True by (unfold in_arena; lia). pose proof (free_in_range a xs).
  pose proof (free_in_le _ _ _ _ _ _ Hi Ha Hk) as Hsmall. rewrite Ex in Hsmall.
  pose proof (proj1 (proj2 (proj2 (std_desc_ok k d Hk)))).
  rewrite free_in_cons, decide_True in Hsmall by (unfold in_arena; lia).
  replace (1 + free_in a xs - 1) with (free_in a xs) by lia. rewrite u32_id by (unfold is_u32; lia).
  wp_unbind. apply write32_ok; [unfold is_u32; lia| |].
  { eapply changes_has; [exact Hc1|]. intros y Hy. apply Hr. unfold Ops.free_cnt_at in Hy. lia. }
  intros m2 Hw2 Hc2. cbn [ram pages links with_ram set_pages set_ram set_links] in *. wp_go.
  assert (only_at (λ y, x ≤ y < x + 8 ∨ a + 8 ≤ y < a + 12) (ram (pages s)) m2) as Hch.
  { eapply only_at_trans; eapply only_at_changes; [exact Hc1|by left|exact Hc2|].
    intros y Hy. right. unfold Ops.free_cnt_at in Hy. lia. }
  assert (∀ y, x ≤ y < x + 8 → ¬ header_byte ar y) as Hnh.
  { intros y Hy. apply (block_no_header s ar fl a (Small k) y); [done..|lia|unfold covers; simpl; lia]. }
  split_and!; [done| |].
  - eapply (minv_update s ar fl a k d x xs (delete x h1)); [exact Hi|done..| | |done| | |exact Hch| |done].
    + intros y Hy. rewrite lookup_delete_ne by (intros ->; apply Hy; by left).
      apply Hs1. intros Hin. apply Hy. right. rewrite Ex. set_solver.
    + eapply (is_list_frame [x]); [| |exact Hl1].
      * intros y Hy. apply lookup_delete_ne. set_solver.
      * intros y Hy ->%list_elem_of_singleton. by eapply first_not_rest.
    + intros y Hy. right. rewrite Ex. by right.
    + intros a' Hne [kd Ha']. rewrite Ex, free_in_cons, decide_False; [lia|].
      by eapply (other_arena _ _ _ a (Small k)).
    + intros y [Hy|Hy].
      * split; [|intros ?; by destruct (Hnh y)]. eapply (covered_spare _ _ _ a); [done..|].
        unfold covers. simpl. lia.
      * split; [|done]. eapply (covered_spare _ _ _ a); [done..|]. unfold covers. simpl. lia.
  - eapply only_at_mono; [exact Hch|]. intros y [Hy|Hy]; [by left|right].
    exists a, (Small k). split; [done|lia].
Qed.

(** Only what the free lists are matters. *)
Lemma minv_ext s ar fl fl' : minv s ar fl → (∀ k, fl' k = fl k) → minv s ar fl'.
Proof.
  intros [? ? H1 ? H2 H3] E. split; [done|done| |done| |].
  - intros a kd Ha. destruct (H1 a kd Ha) as [? [? Hk]]. split; [done|]. split; [done|].
    destruct kd; [by rewrite E|done].
  - intros k d Hk. rewrite E. by eapply H2.
  - intros k d x Hk. rewrite E. by apply H3.
Qed.

(** * Arenas made and returned *)
Abbreviation kbase := (base (kernel_pool m0)).
Abbreviation kcnt := (bit_cnt (used_map (kernel_pool m0))).
Abbreviation kbit := (bit (used_map (kernel_pool m0))).

(** Writes to the pages before or after they change hands. *)
Lemma marked_before i n v m x x' :
  marked KernelPool i n v (set_ram m x) x' →
  changes_at (base (kernel_pool x) + 4096 * i) (4096 * n) (ram x) m → marked KernelPool i n v x x'.
Proof.
  intros (? & ? & ? & ? & Hb & Ho & Hch) Hm. split_and!; [done..| | |].
  - intros w. rewrite (Hb w). by destruct w.
  - intros w Hw. rewrite (Ho w Hw). by destruct w.
  - eapply only_at_trans; [exact Hm|exact Hch].
Qed.

Lemma marked_after i n v m x x' :
  marked KernelPool i n v x x' →
  changes_at (base (kernel_pool x) + 4096 * i) (4096 * n) (ram x') m →
  marked KernelPool i n v x (set_ram m x').
Proof.
  intros (? & ? & ? & ? & Hb & Ho & Hch) Hm. split_and!; [done..| | |].
  - intros w. rewrite <-(Hb w). by destruct w.
  - intros w Hw. rewrite <-(Ho w Hw). by destruct w.
  - eapply only_at_trans; [exact Hch|exact Hm].
Qed.

(** The pages of an arena, by their number in the pool. *)
Lemma covers_page i kd j : 0 < arena_pages kd →
  covers (kbase + 4096 * i) kd (kbase + 4096 * j) ↔ i ≤ j < i + arena_pages kd.
Proof. intros ?. unfold covers. lia. Qed.

Lemma pool_is_kept ar x i n v x' :
  pool_is m0 ar x → marked KernelPool i n v x x' → Correct.all_eq (used_map (kernel_pool m0)) i n false →
  inv x' ∧ user_pool x' = user_pool m0 ∧ base (kernel_pool x') = kbase ∧
  bit_cnt (used_map (kernel_pool x')) = kcnt ∧ (∀ y, ¬ spare m0 y → ram x' !! y = ram m0 !! y) ∧
  ∀ j, 0 ≤ j → bit (used_map (kernel_pool x')) j =
    if decide (i ≤ j < i + n) then v else bit (used_map (kernel_pool x)) j.
Proof.
  intros [Hinv Hu Hb Hc _ Ho] Hm Hall. pose proof Hm as (Hi & Hn & _ & _ & Hb' & Ho' & Hch).
  simpl in Hn. split_and!.
  - by eapply marked_inv.
  - rewrite <-Hu. apply (Ho' UserPool). done.
  - rewrite <-Hb. apply (Hb' KernelPool).
  - rewrite <-Hc. apply (marked_cnt _ _ _ _ _ _ KernelPool Hm).
  - intros y Hy. rewrite (proj1 Hch); [by apply Ho|]. simpl. rewrite Hb. intros Hin. apply Hy.
    exists ((y - kbase) / 4096).
    pose proof (Z.div_mod (y - kbase) 4096). pose proof (Z.mod_pos_bound (y - kbase) 4096).
    split_and!; [lia..| |lia|lia]. apply Hall. lia.
  - intros j Hj. pose proof (marked_bit _ _ _ _ _ _ KernelPool j Hm Hj) as E. simpl in E. rewrite E.
    repeat case_decide; naive_solver.
Qed.

Lemma pool_is_insert ar x i kd x' :
  pool_is m0 ar x → 0 < arena_pages kd → ar !! (kbase + 4096 * i) = None →
  marked KernelPool i (arena_pages kd) true x x' →
  Correct.all_eq (used_map (kernel_pool m0)) i (arena_pages kd) false →
  pool_is m0 (<[kbase + 4096 * i := kd]> ar) x'.
Proof.
  intros Hp Hn Hnew Hm Hall. pose proof Hm as (Hi & Hle & _). simpl in Hle.
  destruct (pool_is_kept _ _ _ _ _ _ Hp Hm Hall) as (? & ? & ? & ? & ? & Hbit). split; [done..| |done].
  intros j Hj. rewrite Hbit by lia. pose proof (pi_used Hp j Hj) as Hu. case_decide as Hd.
  - split; [|done]. intros _. right. exists (kbase + 4096 * i), kd.
    rewrite lookup_insert_eq. split; [done|]. by apply covers_page.
  - rewrite Hu. split; intros [?|(a & kd' & Ha & Hc)]; [by left| |by left|]; right.
    + exists a, kd'. rewrite lookup_insert_ne; [done|]. intros <-. by rewrite Hnew in Ha.
    + exists a, kd'. destruct (decide (a = kbase + 4096 * i)) as [->|Hne].
      * rewrite lookup_insert_eq in Ha. simplify_eq. by apply covers_page in Hc.
      * by rewrite lookup_insert_ne in Ha by done.
Qed.

Lemma pool_is_delete ar x i kd x' :
  pool_is m0 ar x → 0 < arena_pages kd → ar !! (kbase + 4096 * i) = Some kd →
  (∀ a kd' y, ar !! a = Some kd' → covers (kbase + 4096 * i) kd y → covers a kd' y →
     a = kbase + 4096 * i) →
  marked KernelPool i (arena_pages kd) false x x' →
  Correct.all_eq (used_map (kernel_pool m0)) i (arena_pages kd) false →
  pool_is m0 (delete (kbase + 4096 * i) ar) x'.
Proof.
  intros Hp Hn Hold Hap Hm Hall. pose proof Hm as (Hi & Hle & _). simpl in Hle.
  destruct (pool_is_kept _ _ _ _ _ _ Hp Hm Hall) as (? & ? & ? & ? & ? & Hbit). split; [done..| |done].
  intros j Hj. rewrite Hbit by lia. pose proof (pi_used Hp j Hj) as Hu. case_decide as Hd.
  - split; [done|]. intros [Hb|(a & kd' & [Hne Ha]%lookup_delete_Some & Hc)].
    + rewrite Hall in Hb by done. done.
    + destruct Hne. symmetry. eapply Hap; [done| |done]. by apply covers_page.
  - rewrite Hu. split; intros [?|(a & kd' & Ha & Hc)]; [by left| |by left|]; right; exists a, kd'.
    + rewrite lookup_delete_ne; [done|]. intros <-. simplify_eq. by apply covers_page in Hc.
    + by apply lookup_delete_Some in Ha as [_ ?].
Qed.

(** The pages a successful request marks belonged to nobody. *)
Lemma fresh_pages s ar fl i n x' :
  minv s ar fl → marked KernelPool i n true (pages s) x' →
  Correct.all_eq (used_map (kernel_pool m0)) i n false ∧
  (∀ a kd y, ar !! a = Some kd → covers a kd y → ¬ (kbase + 4096 * i ≤ y < kbase + 4096 * i + 4096 * n)).
Proof.
  intros Hi (H0 & Hle & Hall & _). simpl in Hle, Hall. pose proof (mi_pool Hi) as Hp.
  rewrite (pi_cnt Hp) in Hle. split.
  - intros j Hj. apply not_true_is_false. intros Hb. specialize (Hall j Hj). simpl in Hall.
    destruct (pi_used Hp j) as [_ Hu]; [lia|]. rewrite Hu in Hall by (by left). done.
  - intros a kd y Ha Hc Hy. set (j := (y - kbase) / 4096).
    pose proof (Z.div_mod (y - kbase) 4096). pose proof (Z.mod_pos_bound (y - kbase) 4096).
    assert (i ≤ j < i + n) as Hj by (unfold j; lia). specialize (Hall j Hj). simpl in Hall.
    destruct (pi_used Hp j) as [_ Hu]; [lia|]. rewrite Hu in Hall; [done|]. right.
    exists a, kd. split; [done|]. destruct (mi_arena Hi a kd Ha) as [(i' & _ & _ & -> & _) _].
    unfold covers in *. fold j in H. lia.
Qed.

Lemma header_page m m' a b n kd fl fl' :
  header descs_at m a kd fl → changes_at b n m m' → a + 12 ≤ b ∨ b + n ≤ a →
  (∀ j, kd = Small j → free_in a (fl' j) = free_in a (fl j)) → header descs_at m' a kd fl'.
Proof.
  unfold header, Ops.magic_at, Ops.desc_at, Ops.free_cnt_at. intros [H1 H2] Hch Hd Hf.
  rewrite !(word_changes _ _ _ _ _ Hch) by lia. split; [done|]. destruct kd as [j|c]; [|done].
  by rewrite (Hf j eq_refl).
Qed.

Lemma minv_insert s ar fl i kd x' h fl' :
  let a := kbase + 4096 * i in
  minv s ar fl → 0 < arena_pages kd → marked KernelPool i (arena_pages kd) true (pages s) x' →
  header descs_at (ram x') a kd fl' →
  (∀ a' j, ar !! a' = Some (Small j) → free_in a' (fl' j) = free_in a' (fl j)) →
  (∀ k d, std_descs !! k = Some d → is_list h (flist k) (fl' k)) →
  (∀ k d p, std_descs !! k = Some d → p ∈ fl' k →
     p ∈ fl k ∨ kd = Small k ∧ ∃ i, 0 ≤ i < blocks_per_arena d ∧ p = blk a d i) →
  minv (mk_mstate x' h (descs s)) (<[a := kd]> ar) fl' ∧ ar !! a = None.
Proof.
  intros a Hi Hn Hm Hh Hf Hl Hx. destruct (fresh_pages _ _ _ _ _ _ Hi Hm) as [Hall Hfresh].
  pose proof Hm as (H0 & Hle & _ & _ & Hb & _ & Hch). simpl in Hle, Hch.
  rewrite (pi_base (mi_pool Hi)) in Hch. rewrite (pi_cnt (mi_pool Hi)) in Hle. fold a in Hch.
  assert (ar !! a = None) as Hnew.
  { destruct (ar !! a) as [kd'|] eqn:Ea; [|done]. destruct (arena_facts Hi a kd' Ea) as (_ & _ & _ & ? & _).
    destruct (Hfresh a kd' a Ea); [unfold covers; lia|]. fold a. lia. }
  assert (∀ b kd' y, ar !! b = Some kd' → covers b kd' y → covers a kd y → False) as Hno.
  { intros b kd' y Hb' Hc Hc'. by apply (Hfresh b kd' y Hb' Hc). }
  split; [|done]. split; cbn [pages links descs].
  - by eapply pool_is_insert; [apply Hi|..].
  - apply Hi.
  - intros b kd' [[<- <-]|[Hne Hb']]%lookup_insert_Some; [split; [|done]|].
    { exists i. split_and!; try done. }
    destruct (mi_arena Hi b kd' Hb') as [? Hhb]. split; [done|].
    destruct (arena_facts Hi b _ Hb') as (_ & _ & _ & ? & _).
    eapply header_page; [done|exact Hch| |intros j ->; by apply Hf].
    destruct (Z.le_gt_cases (b + 12) a), (Z.le_gt_cases (a + 4096 * arena_pages kd) b); try lia.
    destruct (Hno b kd' (Z.max a b) Hb'); unfold covers; lia.
  - intros b kd' b' kd2 y [[<- <-]|[Hne Hb']]%lookup_insert_Some
      [[<- <-]|[Hne' Hb2]]%lookup_insert_Some Hc Hc'; [done| | |by eapply (mi_apart Hi)].
    + by destruct (Hno b' kd2 y).
    + by destruct (Hno b kd' y).
  - done.
  - intros k d p Hk Hp. destruct (Hx k d p Hk Hp) as [Hin|(-> & j & Hj & ->)].
    + destruct (mi_free Hi k d p Hk Hin) as (b & j & Hb' & ? & ->). exists b, j.
      rewrite lookup_insert_ne; [done|]. intros ->. by rewrite Hnew in Hb'.
    + exists a, j. by rewrite lookup_insert_eq.
Qed.

Lemma minv_delete s ar fl i kd x' h fl' :
  let a := kbase + 4096 * i in
  minv s ar fl → ar !! a = Some kd → marked KernelPool i (arena_pages kd) false (pages s) x' →
  (∀ a' j, a' ≠ a → ar !! a' = Some (Small j) → free_in a' (fl' j) = free_in a' (fl j)) →
  (∀ k d, std_descs !! k = Some d → is_list h (flist k) (fl' k)) →
  (∀ k d p, std_descs !! k = Some d → p ∈ fl' k → p ∈ fl k ∧ ¬ in_arena a p) →
  minv (mk_mstate x' h (descs s)) (delete a ar) fl'.
Proof.
  intros a Hi Ha Hm Hf Hl Hx. destruct (mi_arena Hi a kd Ha) as [(i' & _ & _ & Ei & Hn & Hall) _].
  assert (i' = i) as -> by (unfold a in Ei; lia).
  pose proof Hm as (_ & _ & _ & _ & _ & _ & Hch). simpl in Hch.
  rewrite (pi_base (mi_pool Hi)) in Hch. fold a in Hch. split; cbn [pages links descs].
  - eapply pool_is_delete; [apply Hi|done..| |done|done]. intros b kd' y Hb Hc Hc'. by eapply (mi_apart Hi).
  - apply Hi.
  - intros b kd' [Hne Hb]%lookup_delete_Some.
    destruct (mi_arena Hi b kd' Hb) as [? Hhb]. split; [done|].
    destruct (arena_facts Hi b _ Hb) as (_ & _ & _ & ? & _).
    eapply header_page; [done|exact Hch| |intros j ->; by apply Hf].
    destruct (Z.le_gt_cases (b + 12) a), (Z.le_gt_cases (a + 4096 * arena_pages kd) b); try lia.
    destruct Hne. apply (mi_apart Hi a kd b kd' (Z.max a b) Ha Hb); unfold covers; lia.
  - intros b kd' b' kd2 y [_ ?]%lookup_delete_Some [_ ?]%lookup_delete_Some. by apply (mi_apart Hi).
  - done.
  - intros k d p Hk Hp. destruct (Hx k d p Hk Hp) as [Hin Hna].
    destruct (mi_free Hi k d p Hk Hin) as (b & j & Hb & ? & ->). exists b, j.
    rewrite lookup_delete_ne; [done|]. intros <-. apply Hna.
    pose proof (blk_in k d a j Hk). apply std_desc_ok in Hk. unfold in_arena. lia.
Qed.
End steps.
