(* ===== verification/MallocLive.v ===== *)
(** The blocks in use: they do not overlap, and what each step of the block
    allocator does to them. *)
From Stdlib Require Import ZArith Lia.
From stdpp Require Import base tactics option numbers list gmap functions.
From S2P Require Import Prelude KList Bitmap CString Palloc PageDir Malloc MallocInv MallocOps.

Open Scope Z_scope.

Section blocks.
Context {descs_at : Z} {m0 : machine} {Hkd : kernel_data descs_at m0}.

Abbreviation minv := (minv descs_at m0).
Abbreviation desc_addr := (Ops.desc_addr descs_at).

Section live.
Context {s : mstate} {ar : gmap Z arena_kind} {fl : nat → list Z} (Hi : minv s ar fl).

(** A block in use lies in its arena, behind the header. *)
Lemma live_in p n : live ar fl p n →
  ∃ a kd, ar !! a = Some kd ∧ block_of a kd p ∧ a + 12 ≤ p ∧ 0 < n ∧
          p + n ≤ a + 4096 * arena_pages kd.
Proof.
  intros [(a & k & d & i & Ha & Hk & Hi' & -> & -> & _)|(a & c & Ha & -> & ->)].
  - exists a, (Small k). pose proof (blk_in k d a i Hk Hi'). pose proof (std_desc_ok k d Hk).
    split_and!; [done|by exists d, i|lia|lia|simpl; lia].
  - exists a, (Big c). destruct (arena_facts Hi a _ Ha) as (_ & _ & _ & Hc & _). simpl in Hc.
    unfold sizeof_arena. split_and!; [done|done|lia|lia|simpl; lia].
Qed.

Lemma live_covers p n : live ar fl p n → ∃ a kd, ar !! a = Some kd ∧
  ∀ y, p ≤ y < p + n → covers a kd y ∧ a + 12 ≤ y.
Proof.
  intros (a & kd & Ha & _ & ? & ? & ?)%live_in. exists a, kd. split; [done|].
  intros y Hy. unfold covers. lia.
Qed.

Lemma live_size p n n' : live ar fl p n → live ar fl p n' → n = n'.
Proof.
  intros [(a & k & d & i & Ha & Hk & Hi' & Ep & -> & _)|(a & c & Ha & Ep & ->)]
    [(a' & k' & d' & i' & Ha' & Hk' & Hi2 & Ep' & -> & _)|(a' & c' & Ha' & Ep' & ->)];
    destruct (arena_unique Hi a a' _ _ p Ha Ha') as [<- E]; simpl; try done; eauto; by simplify_eq.
Qed.

(** Two blocks in use do not overlap. *)
Lemma live_apart p n q n' : live ar fl p n → live ar fl q n' → p ≠ q → p + n ≤ q ∨ q + n' ≤ p.
Proof.
  intros Hp Hq Hne. destruct (live_in p n Hp) as (a & kd & Ha & Hb & ? & ? & ?).
  destruct (live_in q n' Hq) as (a' & kd' & Ha' & Hb' & ? & ? & ?).
  destruct (decide (a' = a)) as [->|Hna].
  - destruct Hp as [(b & k & d & i & Eb & Hk & Hi1 & -> & -> & _)|(b & c & Eb & -> & ->)],
      Hq as [(b' & k' & d' & i' & Eb' & Hk' & Hi2 & -> & -> & _)|(b' & c' & Eb' & -> & ->)];
      destruct (arena_unique Hi a b _ _ _ Ha Eb Hb) as [-> ?]; simpl; eauto;
      destruct (arena_unique Hi b b' _ _ _ Ha' Eb' Hb') as [-> ?]; simpl; eauto; simplify_eq; try done.
    eapply (blk_apart k); [done|]. by intros ->.
  - destruct (Z.le_gt_cases (p + n) q), (Z.le_gt_cases (q + n') p); try lia.
    destruct Hna. eapply (mi_apart Hi a' kd' a kd (Z.max p q)); [done..| |]; unfold covers; lia.
Qed.

(** Changes to headers, to other blocks and to pages of nobody leave the
    bytes of a block alone. *)
Lemma live_bytes p n (P : Z → Prop) m y : live ar fl p n → only_at P (ram (pages s)) m →
  (∀ y, P y → header_byte ar y ∨ (∃ q n', live ar fl q n' ∧ q ≠ p ∧ q ≤ y < q + n') ∨
              (∀ q n', live ar fl q n' → ¬ q ≤ y < q + n')) →
  p ≤ y < p + n → m !! y = ram (pages s) !! y.
Proof.
  intros Hl [Hm _] HP Hy. apply Hm. intros [Hh|[(q & n' & Hq & Hne & Hyq)|Hno]]%HP.
  - destruct (live_covers p n Hl) as (a & kd & Ha & Hc). destruct (Hc y Hy) as [? ?].
    by apply (block_no_header s ar fl a kd y).
  - pose proof (live_apart p n q n' Hl Hq ltac:(done)). lia.
  - by apply (Hno p n).
Qed.
End live.

(** * The blocks in use after each step *)
Lemma live_take s ar fl k d x xs :
  minv s ar fl → std_descs !! k = Some d → fl k = x :: xs →
  live ar (<[k := xs]> fl) x (block_size_of d) ∧ (∀ n, ¬ live ar fl x n) ∧
  ∀ q n, q ≠ x → live ar (<[k := xs]> fl) q n ↔ live ar fl q n.
Proof.
  intros Hi Hk Ex. pose proof (free_NoDup _ _ _ _ _ Hi Hk) as Hnd. rewrite Ex in Hnd.
  apply list.NoDup_cons in Hnd as [Hx _].
  destruct (mi_free Hi k d x Hk) as (a & i & Ha & Hi' & Eb); [rewrite Ex; by left|]. split_and!.
  - left. exists a, k, d, i. rewrite fn_lookup_insert. split_and!; done || lia.
  - assert (block_of a (Small k) x) as Hb by by exists d, i.
    intros n [(a' & k' & d' & i' & Ha' & Hk' & Hi2 & E & _ & Hn)|(a' & c & Ha' & E & _)];
      destruct (arena_unique Hi a a' _ _ x Ha Ha' Hb) as [<- E']; simpl; eauto; simplify_eq.
    apply Hn. rewrite Ex. by left.
  - intros q n Hq. unfold live. apply or_iff_compat_r.
    split; intros (a' & k' & d' & i' & ? & ? & ? & ? & ? & Hn); exists a', k', d', i'; split_and!; try (done || lia);
      (destruct (decide (k' = k)) as [->|]; [rewrite fn_lookup_insert in *|by rewrite fn_lookup_insert_ne in *]);
      rewrite Ex in *; set_solver.
Qed.

Lemma live_new_small s ar fl a k d s' :
  minv s ar fl → std_descs !! k = Some d → fl k = [] → ar !! a = None →
  minv s' (<[a := Small k]> ar) (<[k := blks a d]> fl) →
  ∀ q n, live (<[a := Small k]> ar) (<[k := blks a d]> fl) q n ↔ live ar fl q n.
Proof.
  intros Hi Hk Ek Hnew Hi' q n. unfold live. split.
  - intros [(a' & k' & d' & i' & Ha' & ? & ? & ? & ? & Hn)|(a' & c & Ha' & ?)].
    + left. exists a', k', d', i'. apply lookup_insert_Some in Ha' as [[<- [= <-]]|[Hne Ha']].
      * simplify_eq. destruct Hn. rewrite fn_lookup_insert. apply elem_of_blks. eauto.
      * split_and!; try (done || lia). destruct (decide (k' = k)) as [->|];
          [rewrite Ek; apply not_elem_of_nil|by rewrite fn_lookup_insert_ne in Hn].
    + right. exists a', c. apply lookup_insert_Some in Ha' as [[? ?]|[Hne Ha']]; done.
  - intros [(a' & k' & d' & i' & Ha' & ? & ? & ? & ? & Hn)|(a' & c & Ha' & ?)].
    + left. assert (a ≠ a') as Hne by (intros ->; by rewrite Hnew in Ha').
      exists a', k', d', i'. rewrite lookup_insert_ne by done. split_and!; try (done || lia).
      destruct (decide (k' = k)) as [->|]; [|by rewrite fn_lookup_insert_ne]. rewrite fn_lookup_insert.
      intros (j & ? & ?)%elem_of_blks. destruct Hne.
      eapply (arena_unique Hi' a a' (Small k) (Small k) q);
        [apply lookup_insert_eq|by rewrite lookup_insert_ne by (intros ->; by rewrite Hnew in Ha')|..];
        simpl; eauto.
    + right. exists a', c. rewrite lookup_insert_ne; [done|]. intros ->. by rewrite Hnew in Ha'.
Qed.

Lemma live_new_big ar fl a c :
  ar !! a = None →
  ∀ q n, live (<[a := Big c]> ar) fl q n ↔
    live ar fl q n ∨ q = a + sizeof_arena ∧ n = 4096 * c - sizeof_arena.
Proof.
  intros Hnew q n. unfold live. split.
  - intros [(a' & k' & d' & i' & Ha' & ?)|(a' & c' & Ha' & ?)];
      apply lookup_insert_Some in Ha' as [[<- [= <-]]|[Hne Ha']]; [|by right|].
    + left. left. by exists a', k', d', i'.
    + left. right. by exists a', c'.
  - intros [[(a' & k' & d' & i' & Ha' & ?)|(a' & c' & Ha' & ?)]|[-> ->]].
    + left. exists a', k', d', i'. rewrite lookup_insert_ne; [done|]. intros ->. by rewrite Hnew in Ha'.
    + right. exists a', c'. rewrite lookup_insert_ne; [done|]. intros ->. by rewrite Hnew in Ha'.
    + right. exists a, c. by rewrite lookup_insert_eq.
Qed.

Lemma live_put s ar fl a k d p :
  minv s ar fl → ar !! a = Some (Small k) → std_descs !! k = Some d → block_of a (Small k) p →
  ∀ q n, live ar (<[k := p :: fl k]> fl) q n ↔ q ≠ p ∧ live ar fl q n.
Proof.
  intros Hi Ha Hk Hb q n. unfold live. split.
  - intros [(a' & k' & d' & i' & Ha' & Hk' & Hi' & E & ? & Hn)|(a' & c & Ha' & E & ?)].
    + split; [|left; exists a', k', d', i'; split_and!; try (done || lia)].
      * intros ->. destruct (arena_unique Hi a a' _ _ p Ha Ha' Hb) as [<- E']; [by exists d', i'|].
        simplify_eq. apply Hn. rewrite fn_lookup_insert. by left.
      * destruct (decide (k' = k)) as [->|]; [rewrite fn_lookup_insert in Hn; set_solver|].
        by rewrite fn_lookup_insert_ne in Hn.
    + split; [|right; by exists a', c]. intros ->.
      by destruct (arena_unique Hi a a' _ (Big c) p Ha Ha' Hb) as [_ ?].
  - intros [Hq [(a' & k' & d' & i' & ? & ? & ? & ? & ? & Hn)|?]]; [left|by right].
    exists a', k', d', i'. split_and!; try (done || lia). destruct (decide (k' = k)) as [->|].
    + rewrite fn_lookup_insert. set_solver.
    + by rewrite fn_lookup_insert_ne.
Qed.
(** A list without some of its elements. *)
Definition without (out xs : list Z) : list Z := filter (λ x, x ∉ out) xs.

(** All the blocks of an arena are on the free list. *)
Lemma all_free s ar fl a k d :
  minv s ar fl → ar !! a = Some (Small k) → std_descs !! k = Some d →
  free_in a (fl k) = blocks_per_arena d → ∀ x, x ∈ blks a d → x ∈ fl k.
Proof.
  intros Hi Ha Hk Hf x Hx. pose proof (free_in_blks _ _ _ _ _ _ Hi Ha Hk) as Hsub.
  apply submseteq_length_Permutation in Hsub.
  - rewrite <-Hsub in Hx. by apply list_elem_of_filter in Hx as [_ ?].
  - pose proof (length_blks k a d Hk). unfold free_in in Hf. lia.
Qed.

(** The blocks in use do not lie in an arena whose blocks are all free. *)
Lemma live_return s ar fl a k d :
  minv s ar fl → ar !! a = Some (Small k) → std_descs !! k = Some d → ∀ q n,
  free_in a (fl k) = blocks_per_arena d →
  live (delete a ar) (<[k := without (blks a d) (fl k)]> fl) q n ↔ live ar fl q n.
Proof.
  intros Hi Ha Hk q n Hf. unfold live. split.
  - intros [(a' & k' & d' & i' & Ha' & ? & ? & E & ? & Hn)|(a' & c & Ha' & ?)];
      apply lookup_delete_Some in Ha' as [Hne Ha'].
    + left. exists a', k', d', i'. split_and!; try (done || lia).
      destruct (decide (k' = k)) as [->|]; [|by rewrite fn_lookup_insert_ne in Hn].
      rewrite fn_lookup_insert in Hn. intros Hq. apply Hn, list_elem_of_filter. split; [|done].
      simplify_eq. intros (j & ? & ?)%elem_of_blks. destruct Hne.
      eapply (arena_unique Hi a a' (Small k) (Small k) (blk a' d i')); simpl; eauto.
    + right. by exists a', c.
  - intros [(a' & k' & d' & i' & Ha' & ? & ? & E & ? & Hn)|(a' & c & Ha' & ?)].
    + left. exists a', k', d', i'. split_and!; try (done || lia).
      * apply lookup_delete_Some. split; [|done]. intros <-. simplify_eq. apply Hn.
        eapply all_free; [exact Hi|exact Ha|exact Hk|exact Hf|]. apply elem_of_blks. eauto.
      * destruct (decide (k' = k)) as [->|]; [|by rewrite fn_lookup_insert_ne].
        rewrite fn_lookup_insert. by intros [_ ?]%list_elem_of_filter.
    + right. exists a', c. split; [|done]. apply lookup_delete_Some. split; [|done]. by intros <-; simplify_eq.
Qed.

Lemma live_ext ar fl fl' q n : (∀ k, fl' k = fl k) → live ar fl' q n ↔ live ar fl q n.
Proof.
  intros E. unfold live. apply or_iff_compat_r.
  split; intros (a & k & d & i & ?); exists a, k, d, i; [by rewrite E in *|by rewrite E].
Qed.

Lemma live_drop_big s ar fl a c :
  minv s ar fl → ar !! a = Some (Big c) → ∀ q n,
  live (delete a ar) fl q n ↔ q ≠ a + sizeof_arena ∧ live ar fl q n.
Proof.
  intros Hi Ha q n. unfold live. split.
  - intros [(a' & k' & d' & i' & Ha' & ? & ? & E & ?)|(a' & c' & Ha' & E & ?)];
      apply lookup_delete_Some in Ha' as [Hne Ha']; (split; [intros ->; destruct Hne|]).
    + eapply (arena_unique Hi a a' (Big c) (Small k') (a + sizeof_arena)); simpl; eauto.
    + left. by exists a', k', d', i'.
    + unfold sizeof_arena in E. lia.
    + right. by exists a', c'.
  - intros [Hq [(a' & k' & d' & i' & Ha' & ?)|(a' & c' & Ha' & ->& ?)]].
    + left. exists a', k', d', i'. split; [|done]. apply lookup_delete_Some. split; [|done].
      intros <-. by simplify_eq.
    + right. exists a', c'. split; [|done]. apply lookup_delete_Some. split; [|done]. by intros <-.
Qed.
End blocks.
