(* ===== verification/MallocCalls.v ===== *)
(** The calls of the block allocator on its invariant. *)
From Stdlib Require Import ZArith Lia.
From stdpp Require Import base tactics option numbers list gmap functions.
From S2P Require Import Prelude KList Bitmap CString Palloc PageDir Malloc MallocInv MallocOps.
From S2P Require Import MallocLive.

Open Scope Z_scope.

Section calls.
Context {descs_at : Z} {m0 : machine} {Hkd : kernel_data descs_at m0}.

Abbreviation flist k := (Ops.free_list (Ops.desc_addr descs_at (Z.of_nat k))).
Abbreviation minv := (minv descs_at m0).
Abbreviation desc_addr := (Ops.desc_addr descs_at).
Abbreviation kbase := (base (kernel_pool m0)).

(** * A new arena *)
Lemma lookup_blks k a d j : std_descs !! k = Some d → 0 ≤ j < blocks_per_arena d →
  blks a d !! Z.to_nat j = Some (blk a d j).
Proof.
  intros Hk Hj. unfold blks. rewrite list_lookup_fmap, lookup_seqZ_lt by lia. simpl. do 2 f_equal. lia.
Qed.

Lemma blks_NoDup k a d : std_descs !! k = Some d → NoDup (blks a d).
Proof.
  intros (_ & ? & _)%std_desc_ok. unfold blks. apply NoDup_fmap_2; [|apply NoDup_seqZ].
  intros i j. unfold blk. nia.
Qed.

Lemma blk_not_taken k a d j : std_descs !! k = Some d → 0 ≤ j < blocks_per_arena d →
  blk a d j ∉ take (Z.to_nat j) (blks a d).
Proof.
  intros Hk Hj (n & Hn)%list_elem_of_lookup. apply lookup_take_Some in Hn as [Hn Hlt].
  pose proof (NoDup_lookup _ _ _ _ (blks_NoDup k a d Hk) Hn (lookup_blks k a d j Hk Hj)). lia.
Qed.

Lemma blk_not_static k d a j k' d' : std_descs !! k = Some d → 0 ≤ j < blocks_per_arena d →
  kbase ≤ a → std_descs !! k' = Some d' →
  blk a d j ≠ head_of (flist k') ∧ blk a d j ≠ tail_of (flist k') ∧ blk a d j ≠ KList.NULL.
Proof.
  intros Hk Hj Ha Hk'. pose proof (blk_in k d a j Hk Hj). destruct kpool_facts as (_ & ? & _).
  unfold PHYS_BASE, KList.NULL in *.
  split_and!; try lia; intros E; pose proof (static_node k' d' (blk a d j) Hk'); naive_solver lia.
Qed.

Lemma push_blocks_ok s a k d :
  readable (descs_at := descs_at) a (Small k) s → std_descs !! k = Some d → kbase ≤ a →
  is_list (links s) (flist k) [] →
  wp (Ops.push_blocks descs_at (desc_addr (Z.of_nat k)) a (blocks_per_arena d)) (λ _ s', ∃ h,
    s' = set_links h s ∧ is_list h (flist k) (blks a d) ∧
    same_outside (blks a d ++ nodes (flist k) []) (links s) h) s.
Proof.
  intros Hr Hk Ha Hl. destruct (std_desc_ok k d Hk) as (_ & Hbs & Hn & _).
  eapply wp_mono; [apply (wp_for_upto (λ j s', 0 ≤ j ∧ ∃ h,
    s' = set_links h s ∧ is_list h (flist k) (take (Z.to_nat j) (blks a d)) ∧
    same_outside (blks a d ++ nodes (flist k) []) (links s) h))|].
  - intros j ? Hj (_ & h & -> & Hlj & Hs). wp_unbind.
    eapply (arena_to_block_ok a k d); [exact Hr|done|lia|]. set (b := blk a d j).
    pose proof (blk_in k d a j Hk ltac:(lia)) as Hb. fold b in Hb.
    wp_unbind. apply as_elem_ok.
    { cbn [pages set_links]. destruct Hr as (_ & _ & _ & _ & Hr & _). intros y Hy. apply Hr. lia. }
    intros e. apply wp_zoom. cbn [links set_links].
    destruct (blk_not_static k d a j k d) as (H1 & H2 & H3); [done|lia|done..|]. fold b in H1, H2, H3.
    pose proof (blk_not_taken k a d j Hk ltac:(lia)) as Hnt. fold b in Hnt.
    assert (b ∈ blks a d) as Hin by (apply elem_of_blks; exists j; split; [lia|done]).
    assert (b ∉ nodes (flist k) (take (Z.to_nat j) (blks a d))) as Hnn by (unfold nodes; set_solver).
    eapply wp_mono; [apply KList.Correct.list_push_back_ok|].
    + eapply (is_list_frame [b]); [by apply same_outside_insert, list_elem_of_singleton| |exact Hlj].
      intros y Hy ->%list_elem_of_singleton. done.
    + done.
    + done.
    + rewrite lookup_insert_eq. by eexists.
    + intros [] h2 [Hl2 Hs2]. split; [lia|]. exists h2. split_and!; [done| |].
      * replace (Z.to_nat (j + 1)) with (S (Z.to_nat j)) by lia.
        by rewrite (take_S_r _ _ b) by (apply (lookup_blks k); [done|lia]).
      * eapply same_outside_trans; [exact Hs|]. intros y Hy. rewrite Hs2.
        { apply lookup_insert_ne. intros ->. apply Hy, elem_of_app. by left. }
        intros Hin2. apply Hy. unfold nodes in *. pose proof (subseteq_take (Z.to_nat j) (blks a d) y).
        set_solver.
  - split; [lia|]. exists (links s). split_and!; [by destruct s|done|done].
  - intros [] s' (_ & h & -> & Hlh & Hs). exists h. split_and!; [done| |done].
    rewrite take_ge in Hlh; [done|]. pose proof (length_blks k a d Hk). lia.
Qed.

(** The three words of a new arena's header. *)
Lemma init_arena_ok s a w c (Q : unit → mstate → Prop) :
  is_u32 w → is_u32 c → has_range (ram (pages s)) a 12 →
  (∀ m, word m (Ops.magic_at a) = ARENA_MAGIC → word m (Ops.desc_at a) = w →
        word m (Ops.free_cnt_at a) = c → changes_at a 12 (ram (pages s)) m →
        Q tt (with_ram m s)) →
  wp (Ops.init_arena a w c) Q s.
Proof.
  unfold Ops.init_arena, Ops.magic_at, Ops.desc_at, Ops.free_cnt_at. intros Hw Hc Hr HQ. wp_unbind.
  apply write32_ok; [done|intros y Hy; apply Hr; lia|]. intros m1 E1 C1.
  assert (has_range m1 a 12) as Hr1 by by eapply changes_has.
  wp_unbind. apply write32_ok; [done|intros y Hy; apply Hr1; lia|].
  cbn [ram pages with_ram set_pages set_ram]. intros m2 E2 C2.
  assert (has_range m2 a 12) as Hr2 by by eapply changes_has.
  apply write32_ok; [done|intros y Hy; apply Hr2; lia|].
  cbn [ram pages with_ram set_pages set_ram]. intros m3 E3 C3. apply (HQ m3).
  - rewrite (word_changes _ _ _ _ _ C3), (word_changes _ _ _ _ _ C2) by lia. done.
  - rewrite (word_changes _ _ _ _ _ C3) by lia. done.
  - done.
  - eapply only_at_trans; [eapply only_at_trans|]; eapply only_at_changes;
      [exact C1|cbn beta; lia|exact C2|cbn beta; lia|exact C3|cbn beta; lia].
Qed.

(** A fresh run of pages, as the page allocator's answer gives it. *)
Lemma get_pages_ok s ar fl n :
  minv s ar fl → is_u32 n →
  wp (on_pages (Palloc.Ops.palloc_get_multiple 0 n)) (λ r s',
    (r = NULL ∧ s' = s ∧ (n = 0 ∨ exhausted KernelPool n (pages s))) ∨
    (0 < n ∧ ∃ i x, r = kbase + 4096 * i ∧ r ≠ NULL ∧ s' = set_pages x s ∧
       marked KernelPool i n true (pages s) x ∧ ram x = ram (pages s) ∧
       kbase ≤ r ∧ r mod 4096 = 0 ∧ r + 4096 * n ≤ 2 ^ 32 ∧ has_range (ram x) r (4096 * n))) s.
Proof.
  intros Hi Hn. pose proof (mi_pool Hi) as Hp. apply wp_zoom.
  eapply wp_mono; [apply palloc_get_multiple_ok; [apply Hp|done|by left]|].
  intros r x [(-> & -> & He)|(Hpos & Hnn & i & Hr & Hm & Hram)].
  - left. by destruct s.
  - right. split; [done|]. change (pool_for 0) with KernelPool in *. simpl in Hr.
    rewrite (pi_base Hp) in Hr. change (has_flag 0 PAL_ZERO) with false in Hram.
    pose proof Hm as (? & Hle & _). simpl in Hle. rewrite (pi_cnt Hp) in Hle.
    destruct kpool_facts as (Hal & ? & ? & ?).
    exists i, x. split_and!; [done..|lia| |lia|].
    + rewrite Hr, Z.mul_comm, Z_mod_plus_full. done.
    + rewrite Hram. intros y Hy. apply (pool_mem _ _ (inv_pools _ (pi_inv Hp) KernelPool)). simpl.
      rewrite (pi_base Hp), (pi_cnt Hp). lia.
Qed.

Lemma new_arena_ok s ar fl k d :
  minv s ar fl → std_descs !! k = Some d → fl k = [] →
  wp (Ops.new_arena descs_at (desc_addr (Z.of_nat k)) d) (λ r s',
    if r : bool then ∃ a, ar !! a = None ∧ minv s' (<[a := Small k]> ar) (<[k := blks a d]> fl) ∧
      only_at (covers a (Small k)) (ram (pages s)) (ram (pages s'))
    else s' = s ∧ exhausted KernelPool 1 (pages s)) s.
Proof.
  intros Hi Hk Ek. pose proof (std_desc_ok k d Hk) as (Hk7 & Hbs & Hn & _).
  unfold Ops.new_arena, Palloc.Ops.palloc_get_page. wp_unbind.
  eapply wp_mono; [apply (get_pages_ok s ar fl 1 Hi); done|].
  intros r s1 [(-> & -> & He)|(_ & i & x & Er & Hnn & -> & Hm & Hram & Hlo & Hal & Hhi & Hr)].
  { rewrite Z.eqb_refl. wp_go. split; [done|]. by destruct He. }
  rewrite (proj2 (Z.eqb_neq r NULL) Hnn). destruct kd_descs as [Hd1 Hd2].
  destruct kpool_facts as (_ & Hkb & Hke & ?). unfold PHYS_BASE in *.
  unfold DESC_MAX, sizeof_desc in Hd2.
  wp_unbind. apply init_arena_ok;
    [unfold is_u32, Ops.desc_addr, sizeof_desc; lia|unfold is_u32; lia|intros y Hy; apply Hr; lia|].
  cbn [pages set_pages]. intros m Wm Wd Wc Hch. wp_unbind.
  pose proof (mi_lists Hi k d Hk) as Hl. rewrite Ek in Hl.
  eapply wp_mono; [apply (push_blocks_ok _ r k d); [|done|lia|exact Hl]|].
  { unfold readable, PHYS_BASE. split_and!; [apply Hi|done|lia|lia| |done|done]. by eapply changes_has. }
  intros [] s' (h & -> & Hlh & Hs). wp_go. exists r.
  assert (∀ y a' kd', y ∈ blks r d → ar !! a' = Some kd' → ¬ covers a' kd' y) as Hfr.
  { intros y a' kd' (j & Hj & ->)%elem_of_blks Ha' Hc. pose proof (blk_in k d r j Hk Hj).
    apply (proj2 (fresh_pages _ _ _ _ _ _ Hi Hm) a' kd' _ Ha' Hc). lia. }
  destruct (minv_insert s ar fl i (Small k) (set_ram m x) h (<[k := blks r d]> fl)) as [Hi' Hnew];
    rewrite <-?Er.
  - done.
  - simpl. lia.
  - apply marked_after; [done|]. rewrite (pi_base (mi_pool Hi)), <-Er.
    eapply only_at_changes; [exact Hch|simpl; lia].
  - split; [done|]. rewrite fn_lookup_insert. split_and!; [done| |done]. cbn [ram set_ram].
    rewrite Wc, <-(length_blks k r d Hk). unfold free_in. rewrite filter_all; [done|].
    apply list.Forall_forall. intros y (j & Hj & ->)%elem_of_blks. pose proof (blk_in k d r j Hk Hj).
    unfold in_arena. lia.
  - intros a' j Ha'. destruct (decide (j = k)) as [->|]; [|by rewrite fn_lookup_insert_ne].
    rewrite fn_lookup_insert, Ek. unfold free_in. rewrite filter_none; [done|].
    apply list.Forall_forall. intros y Hy Hin. by apply (Hfr y a' (Small k)).
  - intros j d' Hj. destruct (decide (j = k)) as [->|Hne]; [by rewrite fn_lookup_insert|].
    rewrite fn_lookup_insert_ne by done. eapply is_list_frame; [exact Hs| |by eapply (mi_lists Hi)].
    intros y Hy [Hin|Hin]%elem_of_app; [|apply (nodes_apart Hi j k d' d y); [done..|by rewrite Ek]].
    apply node_cases in Hy as [Hy|Hy].
    + apply elem_of_blks in Hin as (i' & Hi' & ->).
      destruct (blk_not_static k d r i' j d') as (? & ? & _); [done..|]. by destruct Hy.
    + destruct (free_block Hi j d' y Hj Hy) as (a' & Ha' & Hb%block_of_in & _).
      apply (Hfr y a' (Small j) Hin Ha'). unfold covers. simpl. lia.
  - intros j d' p Hj. destruct (decide (j = k)) as [->|].
    + rewrite fn_lookup_insert. intros (i' & Hi' & ->)%elem_of_blks. simplify_eq. right. eauto.
    + rewrite fn_lookup_insert_ne by done. by left.
  - rewrite <-Er in Hi', Hnew. split_and!; [done..|exact Hi'|]. cbn [ram pages set_links with_ram set_pages set_ram]. rewrite <-Hram.
    eapply only_at_changes; [exact Hch|unfold covers; simpl; lia].
Qed.

(** A request for whole pages; the page count is the wrapped-around one. *)
Lemma malloc_big_ok s ar fl size :
  let n := u32 (size + sizeof_arena + PGSIZE - 1) / PGSIZE in
  minv s ar fl →
  wp (Ops.malloc_big size) (λ r s',
    (r = NULL ∧ s' = s ∧ (n = 0 ∨ exhausted KernelPool n (pages s))) ∨
    (0 < n ∧ ∃ a, r = a + sizeof_arena ∧ ar !! a = None ∧ minv s' (<[a := Big n]> ar) fl ∧
       only_at (covers a (Big n)) (ram (pages s)) (ram (pages s')))) s.
Proof.
  intros n Hi. assert (0 ≤ n < 2 ^ 20) as Hn.
  { unfold n. rewrite PGSIZE_eq. pose proof (u32_range (size + sizeof_arena + 4096 - 1)) as [? ?].
    pose proof (Z.div_mod (u32 (size + sizeof_arena + 4096 - 1)) 4096).
    pose proof (Z.mod_pos_bound (u32 (size + sizeof_arena + 4096 - 1)) 4096). lia. }
  unfold Ops.malloc_big. fold n. wp_unbind.
  eapply wp_mono; [apply (get_pages_ok s ar fl n Hi); unfold is_u32; lia|].
  intros r s1 [(-> & -> & He)|(Hpos & i & x & Er & Hnn & -> & Hm & Hram & Hlo & Hal & Hhi & Hr)].
  { rewrite Z.eqb_refl. wp_go. by left. }
  rewrite (proj2 (Z.eqb_neq r NULL) Hnn). wp_unbind.
  apply init_arena_ok; [done|unfold is_u32; lia|intros y Hy; apply Hr; lia|].
  cbn [pages set_pages]. intros m Wm Wd Wc Hch. wp_go. right. split; [done|]. exists r.
  destruct (minv_insert s ar fl i (Big n) (set_ram m x) (links s) fl) as [Hi' Hnew];
    rewrite <-?Er; [done|done| |done|done|apply Hi|intros; by left|].
  - apply marked_after; [done|]. rewrite (pi_base (mi_pool Hi)), <-Er.
    eapply only_at_changes; [exact Hch|simpl; lia].
  - rewrite <-Er in Hi', Hnew. split_and!; [done..|exact Hi'|]. cbn [ram pages set_links with_ram set_pages set_ram]. rewrite <-Hram.
    eapply only_at_changes; [exact Hch|unfold covers; simpl; lia].
Qed.

(** * An arena returned *)

Lemma filter_remove (P Q : Z → Prop) `{∀ x, Decision (P x), ∀ x, Decision (Q x)} (l pre post : list Z) b :
  filter P l = pre ++ b :: post → NoDup (pre ++ b :: post) → (∀ x, Q x ↔ P x ∧ x ≠ b) →
  filter Q l = pre ++ post.
Proof.
  intros E Hnd HQ. transitivity (filter (λ x, x ≠ b) (filter P l)).
  { rewrite list_filter_filter. apply list_filter_iff. naive_solver. }
  apply list.NoDup_app in Hnd as (_ & Hd & [Hb _]%list.NoDup_cons).
  rewrite E, list.filter_app, filter_cons_False by naive_solver. f_equal; apply filter_all, list.Forall_forall.
  - intros x Hx ->. apply (Hd b Hx). by left.
  - intros x Hx ->. done.
Qed.

Lemma lastd_in x c : lastd x c ∈ x :: c.
Proof. revert x. induction c as [|y c IH]; intros x; simpl; [by left|]. right. apply IH. Qed.
Lemma firstd_in x c : firstd x c ∈ c ++ [x].
Proof. destruct c; simpl; by left. Qed.

Lemma removed_not_node h l pre b post : is_list h l (pre ++ b :: post) → b ∉ nodes l (pre ++ post).
Proof.
  intros (_ & Hnd & _). unfold nodes in *.
  assert (head_of l :: (pre ++ b :: post) ++ [tail_of l] ≡ₚ b :: head_of l :: (pre ++ post) ++ [tail_of l])
    as Hp by solve_Permutation.
  rewrite Hp in Hnd. by apply list.NoDup_cons in Hnd as [? _].
Qed.

Lemma remove_blocks_ok s ar fl a k d :
  minv s ar fl → ar !! a = Some (Small k) → std_descs !! k = Some d →
  free_in a (fl k) = blocks_per_arena d →
  wp (Ops.remove_blocks descs_at a (blocks_per_arena d)) (λ _ s', ∃ h m,
    s' = set_links h (with_ram m s) ∧ is_list h (flist k) (without (blks a d) (fl k)) ∧
    same_outside (nodes (flist k) (fl k)) (links s) h ∧
    changes_at (a + 12) 4084 (ram (pages s)) m) s.
Proof.
  intros Hi Ha Hk Hfree. destruct (std_desc_ok k d Hk) as (_ & Hbs & Hn & _).
  pose proof (all_free _ _ _ _ _ _ Hi Ha Hk Hfree) as Hall.
  pose proof (minv_readable _ _ _ _ _ Hi Ha) as Hrd.
  assert (has_range (ram (pages s)) a 4096) as Hrg by apply Hrd.
  eapply wp_mono; [apply (wp_for_upto (λ j s', 0 ≤ j ∧ ∃ h m,
    s' = set_links h (with_ram m s) ∧
    is_list h (flist k) (without (take (Z.to_nat j) (blks a d)) (fl k)) ∧
    same_outside (nodes (flist k) (fl k)) (links s) h ∧
    changes_at (a + 12) 4084 (ram (pages s)) m))|].
  - intros j ? Hj (_ & h & m & -> & Hlj & Hs & Hch).
    wp_unbind. eapply (arena_to_block_ok a k d); [|done|lia|].
    { eapply readable_changes; [exact Hrd|done|exact Hch|lia]. }
    set (b := blk a d j). pose proof (blk_in k d a j Hk ltac:(lia)) as Hb. fold b in Hb.
    pose proof (blk_not_taken k a d j Hk ltac:(lia)) as Hnt. fold b in Hnt.
    assert (b ∈ blks a d) as Hin by (apply elem_of_blks; exists j; split; [lia|done]).
    assert (b ∈ without (take (Z.to_nat j) (blks a d)) (fl k)) as Hbin
      by (apply list_elem_of_filter; auto).
    apply list_elem_of_split in Hbin as (pre & post & E). rewrite E in Hlj.
    assert (∀ y, y ∈ nodes (flist k) (pre ++ b :: post) → y ∈ nodes (flist k) (fl k)) as Hsub.
    { intros y. rewrite <-E. unfold nodes, without. rewrite !elem_of_cons, !elem_of_app, list_elem_of_filter. tauto. }
    assert (∀ y, y ∈ nodes (flist k) (fl k) → is_u32 y) as Hu by (intros y; by apply (node_u32 Hi k d)).
    wp_unbind. apply wp_zoom. cbn [links set_links].
    eapply wp_mono; [by apply KList.Correct.list_remove_ok|]. intros r h1 (_ & Hl1 & Hs1 & Hb1).
    destruct (KList.Correct.is_list_elem h (flist k) pre b post Hlj) as (He & _).
    eapply as_bytes_ok; [cbn [links set_links]; by rewrite Hb1| | | |].
    { apply Hu, Hsub. cbn [prev]. unfold nodes. pose proof (lastd_in (head_of (flist k)) pre). set_solver. }
    { apply Hu, Hsub. cbn [next]. unfold nodes. pose proof (firstd_in (tail_of (flist k)) post). set_solver. }
    { cbn [ram pages set_links with_ram set_pages set_ram]. eapply changes_has; [exact Hch|].
      intros y Hy. apply Hrg. lia. }
    intros m' Hc'. cbn [ram pages links set_links with_ram set_pages set_ram] in *.
    split; [lia|]. exists (delete b h1), m'. split_and!; [done| | |].
    + replace (without (take (Z.to_nat (j + 1)) (blks a d)) (fl k)) with (pre ++ post).
      * eapply (is_list_frame [b]); [| |exact Hl1].
        -- intros y Hy. apply lookup_delete_ne. set_solver.
        -- intros y Hy ->%list_elem_of_singleton. by eapply (removed_not_node h (flist k) pre b post).
      * symmetry. eapply filter_remove; [exact E| |].
        -- rewrite <-E. by eapply list.NoDup_filter, free_NoDup.
        -- intros y. replace (Z.to_nat (j + 1)) with (S (Z.to_nat j)) by lia.
           rewrite (take_S_r _ _ b) by (apply (lookup_blks k); [done|lia]). set_solver.
    + eapply same_outside_trans; [exact Hs|]. intros y Hy. rewrite lookup_delete_ne.
      * apply Hs1. intros Hy1. apply Hy, Hsub. unfold nodes in *. set_solver.
      * intros <-. apply Hy, Hsub. unfold nodes. set_solver.
    + eapply only_at_trans; [exact Hch|]. eapply only_at_changes; [exact Hc'|cbn beta; lia].
  - split; [lia|]. exists (links s), (ram (pages s)). split_and!; [by destruct s as [[] ? ?]| |done|done].
    unfold without. rewrite filter_all; [by eapply (mi_lists Hi)|]. apply list.Forall_forall.
    intros x _. simpl. apply not_elem_of_nil.
  - intros [] s' (_ & h & m & -> & Hlh & Hs & Hch). exists h, m. split_and!; [done| |done|done].
    rewrite take_ge in Hlh; [done|]. pose proof (length_blks k a d Hk). lia.
Qed.

(** The page of an arena goes back to the page allocator. *)
Lemma free_pages_ok s ar fl a kd m h :
  minv s ar fl → ar !! a = Some kd → changes_at a (4096 * arena_pages kd) (ram (pages s)) m →
  wp (on_pages (Palloc.Ops.palloc_free_multiple a (arena_pages kd))) (λ _ s', ∃ i x,
    a = kbase + 4096 * i ∧ s' = mk_mstate x h (descs s) ∧
    marked KernelPool i (arena_pages kd) false (pages s) x)
    (mk_mstate (set_ram m (pages s)) h (descs s)).
Proof.
  intros Hi Ha Hm. destruct (mi_arena Hi a kd Ha) as [(i & H0 & Hle & -> & Hn & Hall) _].
  pose proof (mi_pool Hi) as Hp. apply wp_zoom. cbn [pages].
  assert (pool_is m0 ar (set_ram m (pages s))) as Hp'.
  { eapply pool_is_ram; [exact Hp|exact Hm|]. intros y Hy. by eapply (covered_spare _ _ _ _ kd). }
  rewrite <-(pi_base Hp').
  eapply wp_mono; [apply (palloc_free_multiple_ok KernelPool);
    [apply Hp'|done|done|simpl; rewrite (pi_cnt Hp); done|]|].
  - intros j Hj. simpl. apply (pi_used Hp); [lia|]. right. exists (kbase + 4096 * i), kd.
    split; [done|]. by apply covers_page.
  - intros [] x Hx. exists i, x. split_and!; [by rewrite (pi_base Hp')|done|].
    eapply marked_before; [exact Hx|]. by rewrite (pi_base Hp).
Qed.

Lemma return_arena_ok s ar fl a k d :
  minv s ar fl → ar !! a = Some (Small k) → std_descs !! k = Some d →
  free_in a (fl k) = blocks_per_arena d →
  wp (Ops.remove_blocks descs_at a (blocks_per_arena d);; on_pages (Palloc.Ops.palloc_free_page a))
    (λ _ s', minv s' (delete a ar) (<[k := without (blks a d) (fl k)]> fl) ∧
             only_at (covers a (Small k)) (ram (pages s)) (ram (pages s'))) s.
Proof.
  intros Hi Ha Hk Hf. wp_unbind. eapply wp_mono; [by eapply remove_blocks_ok|].
  intros [] s1 (h & m & -> & Hl & Hs & Hch).
  eapply wp_mono; [eapply (free_pages_ok s ar fl a (Small k) m h); [done..|]|].
  { eapply only_at_changes; [exact Hch|simpl; lia]. }
  intros [] s' (i & x & Ea & -> & Hm).
  assert (∀ y, y ∈ blks a d → in_arena a y) as Hin.
  { intros y (j & Hj & ->)%elem_of_blks. pose proof (blk_in k d a j Hk Hj).
    apply std_desc_ok in Hk. unfold in_arena. lia. }
  split.
  - subst a. eapply minv_delete; [exact Hi|exact Ha|exact Hm|..].
    + intros a' j Hne Ha'. destruct (decide (j = k)) as [->|]; [|by rewrite fn_lookup_insert_ne].
      rewrite fn_lookup_insert. unfold free_in, without. rewrite list_filter_filter. do 2 f_equal.
      apply list_filter_iff. intros y. split; [by intros [? _]|]. intros Hy. split; [done|].
      intros Hb. pose proof (Hin y Hb). destruct (arena_facts Hi _ _ Ha) as (A1 & _).
      destruct (arena_facts Hi _ _ Ha') as (A2 & _). unfold in_arena in *.
      pose proof (pages_apart _ _ A1 A2). lia.
    + intros j d' Hj. destruct (decide (j = k)) as [->|]; [by rewrite fn_lookup_insert|].
      rewrite fn_lookup_insert_ne by done. eapply is_list_frame; [exact Hs| |by eapply (mi_lists Hi)].
      intros y Hy. by eapply (nodes_apart Hi j k).
    + intros j d' p Hj. destruct (decide (j = k)) as [->|Hne].
      * rewrite fn_lookup_insert. intros [Hnb Hp]%list_elem_of_filter. split; [done|]. simplify_eq.
        intros Hia. apply Hnb. eapply (elem_of_submseteq (filter (in_arena _) (fl k)));
          [by apply list_elem_of_filter|by eapply free_in_blks].
      * rewrite fn_lookup_insert_ne by done. intros Hp. split; [done|].
        destruct (free_block Hi j d' p Hj Hp) as (a' & Ha' & Hb & _).
        eapply (other_arena _ _ _ a' (Small j) _ (Small k)); [done..| |done]. intros <-. by simplify_eq.
  - destruct Hm as (_ & _ & _ & _ & _ & _ & Hc). simpl in Hc. rewrite (pi_base (mi_pool Hi)), <-Ea in Hc.
    exact Hc.
Qed.

(** * A block given back *)
Lemma free_in_without a out xs : free_in a (without out xs) ≤ free_in a xs.
Proof.
  unfold free_in, without. rewrite list_filter_filter.
  rewrite (list_filter_iff _ (λ x, (x ∉ out) ∧ in_arena a x)) by tauto.
  rewrite <-list_filter_filter. pose proof (length_filter (λ x, x ∉ out) (filter (in_arena a) xs)). lia.
Qed.

Lemma live_block_node s ar fl a k d p :
  minv s ar fl → ar !! a = Some (Small k) → std_descs !! k = Some d → block_of a (Small k) p →
  p ∉ fl k → (p ∉ nodes (flist k) (fl k)) ∧ p ≠ KList.NULL.
Proof.
  intros Hi Ha Hk (d' & i & Hk' & Hi' & ->) Hp. simplify_eq.
  destruct (arena_facts Hi a _ Ha) as (_ & Hlo & _).
  destruct (blk_not_static k d a i k d Hk Hi' Hlo Hk) as (H1 & H2 & H3). split; [|done].
  intros [[?|?]|?]%node_cases; done.
Qed.

(** The block on its free list, and its arena's count. *)
Lemma put_block_ok s ar fl a k d p :
  minv s ar fl → ar !! a = Some (Small k) → std_descs !! k = Some d →
  block_of a (Small k) p → p ∉ fl k → ∀ h m1 m2,
  is_list h (flist k) (p :: fl k) → same_outside (p :: nodes (flist k) (fl k)) (links s) h →
  changes_at p (block_size_of d) (ram (pages s)) m1 → changes_at (Ops.free_cnt_at a) 4 m1 m2 →
  word m2 (Ops.free_cnt_at a) = free_in a (p :: fl k) →
  minv (mk_mstate (set_ram m2 (pages s)) h (descs s)) ar (<[k := p :: fl k]> fl) ∧
  only_at (λ y, p ≤ y < p + block_size_of d ∨ header_byte ar y) (ram (pages s)) m2.
Proof.
  intros Hi Ha Hk Hb Hp h m1 m2 Hl Hs C1 C2 W.
  assert (a + 12 ≤ p ∧ p + block_size_of d ≤ a + 4096) as Hpin.
  { destruct Hb as (d' & i & Hk' & Hi' & ->). simplify_eq. by eapply blk_in. }
  assert (only_at (λ y, p ≤ y < p + block_size_of d ∨ a + 8 ≤ y < a + 12) (ram (pages s)) m2) as Hch.
  { eapply only_at_trans; eapply only_at_changes; [exact C1|by left|exact C2|].
    intros y Hy. right. unfold Ops.free_cnt_at in Hy. lia. }
  split.
  - eapply (minv_update s ar fl a k d p); [exact Hi|exact Ha|exact Hk|exact Hs|exact Hl|exact Hb| | |exact Hch| |exact W].
    + intros y [->|?]%elem_of_cons; [by left|by right].
    + intros a' Hne [kd Ha']. rewrite free_in_cons, decide_False; [lia|].
      by eapply (other_arena _ _ _ a (Small k)).
    + intros y Hy. cbn beta in Hy. split.
      * eapply (covered_spare _ _ _ a); [done..|]. unfold covers. simpl. lia.
      * intros Hh. destruct Hy as [Hy|Hy]; [|done].
        destruct (block_no_header s ar fl a (Small k) y Hi Ha ltac:(lia)); [|done]. unfold covers. simpl. lia.
  - eapply only_at_mono; [exact Hch|]. intros y [Hy|Hy]; [by left|right].
    exists a, (Small k). split; [done|lia].
Qed.

Lemma give_block_ok s ar fl a k d p :
  minv s ar fl → busy ar fl → ar !! a = Some (Small k) → std_descs !! k = Some d →
  block_of a (Small k) p → p ∉ fl k →
  wp (Ops.give_block descs_at p a (desc_addr (Z.of_nat k))) (λ _ s', ∃ ar' fl',
    minv s' ar' fl' ∧ busy ar' fl' ∧
    only_at (λ y, p ≤ y < p + block_size_of d ∨ header_byte ar y ∨
                  ar' !! a = None ∧ covers a (Small k) y) (ram (pages s)) (ram (pages s')) ∧
    ar' ⊆ ar ∧ (∀ q n, live ar' fl' q n ↔ q ≠ p ∧ live ar fl q n)) s.
Proof.
  intros Hi Hbusy Ha Hk Hb Hp. destruct (std_desc_ok k d Hk) as (_ & Hbs & Hn & _).
  assert (a + 12 ≤ p ∧ p + block_size_of d ≤ a + 4096) as Hpin.
  { destruct Hb as (d' & i & Hk' & Hi' & ->). simplify_eq. by eapply blk_in. }
  destruct (minv_readable _ _ _ _ _ Hi Ha) as (Ed & Al & Alo & _ & Hr & _).
  unfold PHYS_BASE in Alo. destruct (live_block_node _ _ _ _ _ _ _ Hi Ha Hk Hb Hp) as [Hpn Hp0].
  destruct (mi_arena Hi a _ Ha) as [_ (_ & _ & Hcnt & _)].
  pose proof (free_in_le _ _ _ _ _ _ Hi Ha Hk) as Hle. pose proof (free_in_range a (fl k)).
  pose proof (Hbusy a k d Ha Hk) as Hlt.
  assert (free_in a (p :: fl k) = free_in a (fl k) + 1) as Hc.
  { rewrite free_in_cons, decide_True by (unfold in_arena; lia). lia. }
  assert (∀ a' kd, a' ≠ a → ar !! a' = Some kd → free_in a' (p :: fl k) = free_in a' (fl k)) as Hother.
  { intros a' kd Hne Ha'. rewrite free_in_cons, decide_False; [lia|].
    by eapply (other_arena s ar fl a (Small k)). }
  unfold Ops.give_block. wp_unbind. eapply deref_desc_ok; [apply Hi|exact Hk|]. wp_unbind.
  apply on_bytes_ok. eapply wp_mono; [apply memset_ok; [lia|lia|intros y Hy; apply Hr; lia]|].
  intros _ m1 (_ & _ & C1). wp_unbind. apply as_elem_ok.
  { cbn [ram pages with_ram set_pages set_ram]. eapply changes_has; [exact C1|]. intros y Hy. apply Hr. lia. }
  intros e. wp_unbind. apply wp_zoom. cbn [links set_links with_ram set_pages].
  eapply wp_mono; [apply KList.Correct.list_push_front_ok|].
  { eapply (is_list_frame [p]); [by apply same_outside_insert, list_elem_of_singleton| |
      by eapply (mi_lists Hi)]. intros y Hy ->%list_elem_of_singleton. done. }
  { done. }
  { done. }
  { rewrite lookup_insert_eq. by eexists. }
  intros [] h [Hl Hs]. wp_unbind.
  assert (has_range m1 (Ops.free_cnt_at a) 4) as Hr1.
  { eapply changes_has; [exact C1|]. intros y Hy. apply Hr. unfold Ops.free_cnt_at in Hy. lia. }
  apply read32_ok; [exact Hr1|]. cbn [ram pages set_links with_ram set_pages set_ram].
  rewrite (word_changes _ _ _ _ _ C1), Hcnt by (unfold Ops.free_cnt_at; lia).
  rewrite <-Hc, u32_id by (unfold is_u32; lia). wp_unbind.
  apply write32_ok; [unfold is_u32; lia|exact Hr1|].
  cbn [ram pages set_links with_ram set_pages set_ram]. intros m2 W C2.
  destruct (put_block_ok s ar fl a k d p Hi Ha Hk Hb Hp h m1 m2) as [Hi2 Hch]; [done| |done..|].
  { intros y Hy. rewrite Hs by done. apply lookup_insert_ne. intros ->. apply Hy. by left. }
  destruct (Z.leb_spec (blocks_per_arena d) (free_in a (p :: fl k))) as [Hfull|Hpart].
  - assert (free_in a (p :: fl k) = blocks_per_arena d) as Efull by lia.
    wp_assert (by apply Z.eqb_eq).
    pose proof (return_arena_ok _ ar _ a k d Hi2 Ha Hk) as Hret. rewrite fn_lookup_insert in Hret.
    specialize (Hret Efull). rewrite wp_bind in Hret.
    eapply wp_mono; [exact Hret|]. intros [] s1 H1. eapply wp_mono; [exact H1|].
    intros [] s2 [Hi3 Hch2]. cbn [ram pages set_ram] in Hch2.
    exists (delete a ar), (<[k := without (blks a d) (p :: fl k)]> fl). split_and!.
    + eapply minv_ext; [exact Hi3|]. intros j. destruct (decide (j = k)) as [->|];
        [by rewrite !fn_lookup_insert|by rewrite !fn_lookup_insert_ne].
    + intros a' j d' [Hne Ha']%lookup_delete_Some Hj. destruct (decide (j = k)) as [->|].
      * rewrite fn_lookup_insert. pose proof (free_in_without a' (blks a d) (p :: fl k)).
        rewrite (Hother a' (Small k)) in H0 by done.
        pose proof (Hbusy a' k d' Ha' Hj). lia.
      * rewrite fn_lookup_insert_ne by done. by apply Hbusy.
    + eapply only_at_trans; (eapply only_at_mono; [eassumption|]); cbn beta.
      * tauto.
      * rewrite lookup_delete_eq. tauto.
    + apply delete_subseteq.
    + intros q n. rewrite <-(live_put _ _ _ _ _ _ _ Hi Ha Hk Hb q n).
      rewrite <-(live_return _ ar (<[k := p :: fl k]> fl) a k d Hi2 Ha Hk q n)
        by by rewrite fn_lookup_insert.
      apply live_ext. intros j. destruct (decide (j = k)) as [->|];
        [by rewrite !fn_lookup_insert|by rewrite !fn_lookup_insert_ne].
  - wp_go. exists ar, (<[k := p :: fl k]> fl). split_and!; [exact Hi2| | |done|by eapply live_put].
    + intros a' j d' Ha' Hj. destruct (decide (j = k)) as [->|]; [|rewrite fn_lookup_insert_ne by done; by apply Hbusy].
      rewrite fn_lookup_insert. simplify_eq. destruct (decide (a' = a)) as [->|Hne]; [done|].
      rewrite (Hother a' (Small k)) by done. by apply Hbusy.
    + eapply only_at_mono; [exact Hch|]. cbn beta. tauto.
Qed.
End calls.
