(* ===== verification/MallocSpec.v ===== *)
(** The calls of the block allocator against the blocks its clients hold. *)
From Stdlib Require Import ZArith Lia.
From stdpp Require Import base tactics option numbers list gmap functions.
From S2P Require Import Prelude KList Bitmap CString Palloc PageDir Malloc MallocInv MallocOps.
From S2P Require Import MallocLive MallocCalls.

Open Scope Z_scope.

(** The pages a request needs when no free block serves it, as [size_t]. *)
Definition pages_needed (size : Z) : Z :=
  if size <=? 1024 then 1 else u32 (size + sizeof_arena + PGSIZE - 1) / PGSIZE.

(** The bytes that the block for such a request has at least. *)
Definition room_for (size n : Z) : Prop := size + 4107 < 2 ^ 32 → size ≤ n.

Section spec.
Context {descs_at : Z} {m0 : machine} {Hkd : kernel_data descs_at m0}.

Abbreviation minv := (minv descs_at m0).
Abbreviation desc_addr := (Ops.desc_addr descs_at).

(** What a request that finds room leaves. *)
Definition allocated (size : Z) (s : mstate) ar fl (r : Z) (s' : mstate) : Prop :=
  ∃ ar' fl' n, minv s' ar' fl' ∧ busy ar' fl' ∧ room_for size n ∧
    (∀ n', ¬ live ar fl r n') ∧
    (∀ q n', live ar' fl' q n' ↔ live ar fl q n' ∨ q = r ∧ n' = n) ∧
    (∀ q n' y, live ar fl q n' → q ≤ y < q + n' → ram (pages s') !! y = ram (pages s) !! y).

Lemma live_nonnull s ar fl p n : minv s ar fl → live ar fl p n → PHYS_BASE < p ∧ p + n ≤ 2 ^ 32.
Proof.
  intros Hi (a & kd & Ha & _ & ? & ? & ?)%(live_in Hi).
  destruct (arena_facts Hi a kd Ha) as (_ & ? & ? & _). destruct kpool_facts as (_ & ? & ? & _). lia.
Qed.

Lemma allocated_nonnull size s ar fl r s' : allocated size s ar fl r s' → r ≠ NULL.
Proof.
  intros (ar' & fl' & n & Hi' & _ & _ & _ & Hl & _). pose proof (proj2 (Hl r n)) as Hr.
  destruct (live_nonnull _ _ _ r n Hi') as [? _]; [by apply Hr; right|]. unfold NULL, PHYS_BASE in *. lia.
Qed.

(** A new arena touches nobody's block. *)
Lemma fresh_apart s ar fl a kd s' fl' q n y :
  minv s ar fl → ar !! a = None → minv s' (<[a := kd]> ar) fl' → live ar fl q n → q ≤ y < q + n →
  ¬ covers a kd y.
Proof.
  intros Hi Hnew Hi' Hl Hy Hc.
  destruct (live_covers Hi q n Hl) as (b & kd' & Hb & Hcb). destruct (Hcb y Hy) as [Hc' _].
  assert (a ≠ b) as Hne by (intros ->; by rewrite Hnew in Hb). apply Hne.
  eapply (mi_apart Hi' a kd b kd' y); [apply lookup_insert_eq|by rewrite lookup_insert_ne|done..].
Qed.

Lemma fresh_arena_bytes s ar fl a kd s' fl' q n y :
  minv s ar fl → ar !! a = None → minv s' (<[a := kd]> ar) fl' →
  only_at (covers a kd) (ram (pages s)) (ram (pages s')) → live ar fl q n → q ≤ y < q + n →
  ram (pages s') !! y = ram (pages s) !! y.
Proof. intros ? ? ? [Hm _] ? ?. apply Hm. by apply (fresh_apart s ar fl a kd s' fl' q n). Qed.

(** Taking the first block of a list, seen by the clients. *)
Lemma take_live s ar fl k d size :
  minv s ar fl → std_descs !! k = Some d → fl k ≠ [] → size ≤ block_size_of d →
  (∀ a j d', ar !! a = Some (Small j) → std_descs !! j = Some d' →
     free_in a (fl j) < blocks_per_arena d' ∨ j = k ∧ fl k = blks a d') →
  wp (Ops.take_block descs_at (desc_addr (Z.of_nat k))) (λ r s', allocated size s ar fl r s') s.
Proof.
  intros Hi Hk Hne Hsz Hb. destruct (fl k) as [|x xs] eqn:Ex; [done|].
  eapply wp_mono; [by eapply take_block_ok|]. intros r s' (-> & Hi' & Hch).
  destruct (live_take _ _ _ _ _ _ _ Hi Hk Ex) as (Hlx & Hnl & Hoth).
  destruct (std_desc_ok k d Hk) as (_ & Hbs & _).
  exists ar, (<[k := xs]> fl), (block_size_of d). split_and!; [done| |by intros ?|done| |].
  - intros a j d' Ha Hj. destruct (decide (j = k)) as [->|Hjk].
    + rewrite fn_lookup_insert. simplify_eq. destruct (Hb a k d Ha Hk) as [Hlt|[_ Ebl]].
      * rewrite Ex, free_in_cons in Hlt. case_decide; lia.
      * pose proof (free_in_le _ _ _ _ _ _ Hi Ha Hk) as Hle. rewrite Ex, free_in_cons in Hle.
        rewrite decide_True in Hle; [lia|].
        assert (x ∈ blks a d) as (i & Hi2 & ->)%elem_of_blks by (rewrite <-Ebl; by left).
        pose proof (blk_in k d a i Hk Hi2). unfold in_arena. lia.
    + rewrite fn_lookup_insert_ne by done. destruct (Hb a j d' Ha Hj) as [|[? _]]; done.
  - intros q n'. destruct (decide (q = x)) as [->|Hq]; [|rewrite Hoth by done; naive_solver].
    split; [intros Hl; right; split; [done|by eapply (live_size Hi')]|].
    intros [?%Hnl|[_ ->]]; done.
  - intros q n' y Hl Hy. eapply (live_bytes Hi q n'); [done|exact Hch| |done]. cbn beta.
    intros z [Hz|?]; [|by left]. right. right. intros q' n2 Hq' Hzq.
    assert (q' ≠ x) as Hqx by (intros ->; by eapply Hnl).
    apply (Hoth q' n2 Hqx) in Hq'. pose proof (live_apart Hi' _ _ _ _ Hq' Hlx Hqx). lia.
Qed.

(** A step before the request that no client sees. *)
Lemma allocated_after s s1 ar ar1 fl fl1 size r s' :
  (∀ q n, live ar1 fl1 q n ↔ live ar fl q n) →
  (∀ q n y, live ar fl q n → q ≤ y < q + n → ram (pages s1) !! y = ram (pages s) !! y) →
  allocated size s1 ar1 fl1 r s' → allocated size s ar fl r s'.
Proof.
  intros Hl Hb (ar' & fl' & n & ? & ? & ? & Hn & Hl' & Hb'). exists ar', fl', n. split_and!; [done..| | |].
  - intros n'. rewrite <-Hl. apply Hn.
  - intros q n'. rewrite <-Hl. apply Hl'.
  - intros q n' y Hq Hy. rewrite <-(Hb q n' y Hq Hy). eapply Hb'; [by apply Hl|done].
Qed.

Lemma find_desc size : ∀ k d,
  list_find (λ d, size ≤ block_size_of d) std_descs = Some (k, d) →
  std_descs !! k = Some d ∧ size ≤ block_size_of d ∧ size ≤ 1024.
Proof.
  intros k d (Hk & Hs & _)%list_find_Some. pose proof (std_desc_ok k d Hk). split_and!; [done..|lia].
Qed.

Lemma find_no_desc size :
  list_find (λ d, size ≤ block_size_of d) std_descs = None → 1024 < size.
Proof.
  intros Hf%list_find_None. rewrite list.Forall_forall in Hf.
  specialize (Hf (mk_desc 1024 3)). simpl in Hf. apply Z.nle_gt, Hf. unfold std_descs. set_solver.
Qed.

Lemma malloc_live s ar fl size :
  minv s ar fl → busy ar fl → is_u32 size →
  wp (Ops.malloc descs_at size) (λ r s',
    (r = NULL ∧ s' = s ∧ (size = 0 ∨ pages_needed size = 0 ∨ exhausted KernelPool (pages_needed size) (pages s))) ∨
    (0 < size ∧ r ≠ NULL ∧ allocated size s ar fl r s')) s.
Proof.
  intros Hi Hbusy Hsz. unfold Ops.malloc. destruct (Z.eqb_spec size 0) as [->|H0].
  { wp_go. left. by split_and!; [..|left]. }
  unfold is_u32 in Hsz. wp_go. rewrite (mi_descs Hi).
  destruct (list_find (λ d, size ≤ block_size_of d) std_descs) as [[k d]|] eqn:Ef.
  - destruct (find_desc size k d Ef) as (Hk & Hfit & Hsmall). unfold pages_needed.
    rewrite (proj2 (Z.leb_le size 1024)) by lia. wp_unbind. apply wp_zoom.
    eapply KList.Correct.wp_list_empty; [by eapply (mi_lists Hi)|].
    replace (set_links (links s) s) with s by by destruct s. wp_unbind.
    destruct (fl k) as [|x xs] eqn:Ek.
    + eapply wp_mono; [by eapply new_arena_ok|]. intros [] s1 H1.
      * destruct H1 as (a & Hnew & Hi1 & Hch). eapply wp_mono.
        { eapply (take_live s1 _ (<[k := blks a d]> fl) k d size); [exact Hi1|done| |done|].
          - rewrite fn_lookup_insert. pose proof (length_blks k a d Hk).
            pose proof (std_desc_ok k d Hk). destruct (blks a d); [simpl in *; lia|done].
          - intros b j d' Hb Hj. apply lookup_insert_Some in Hb as [[<- [= <-]]|[Hne Hb]].
            + right. rewrite fn_lookup_insert. by simplify_eq.
            + left. destruct (decide (j = k)) as [->|]; [|rewrite fn_lookup_insert_ne by done; by apply Hbusy].
              rewrite fn_lookup_insert. unfold free_in. rewrite filter_none.
              * pose proof (std_desc_ok k d' Hj). simpl. lia.
              * apply list.Forall_forall. intros y (i & Hi2 & ->)%elem_of_blks.
                eapply (other_arena _ _ _ a (Small k) b (Small k));
                  [exact Hi1|apply lookup_insert_eq|by rewrite lookup_insert_ne|done|by exists d, i]. }
        intros r s' Hal. right. split_and!; [lia|by eapply allocated_nonnull|].
        eapply (allocated_after s s1 ar (<[a := Small k]> ar) fl (<[k := blks a d]> fl));
          [by eapply live_new_small|intros q n y; by eapply fresh_arena_bytes|done].
      * destruct H1 as [-> Hex]. wp_go. left. by split_and!; [..|right; right].
    + wp_go. eapply wp_mono; [eapply (take_live s ar fl k d size); [done..|by rewrite Ek|done|]|].
      { intros a j d' Ha Hj. left. by apply Hbusy. }
      intros r s' Hal. right. split_and!; [lia|by eapply allocated_nonnull|done].
  - apply find_no_desc in Ef. unfold pages_needed. rewrite (proj2 (Z.leb_gt size 1024)) by lia.
    eapply wp_mono; [by eapply malloc_big_ok|]. intros r s' [(-> & -> & Hw)|(Hpos & a & -> & Hnew & Hi' & Hch)].
    + left. split_and!; [done..|by right].
    + assert (allocated size s ar fl (a + sizeof_arena) s') as Hal.
      { eexists _, fl, _. split_and!; [exact Hi'| | | |by apply live_new_big|].
        - intros b j d Hb. apply lookup_insert_Some in Hb as [[? ?]|[_ ?]]; [done|by apply Hbusy].
        - intros Hroom. rewrite PGSIZE_eq. unfold sizeof_arena. rewrite u32_id by (unfold is_u32; lia).
          pose proof (Z.div_mod (size + 12 + 4096 - 1) 4096).
          pose proof (Z.mod_pos_bound (size + 12 + 4096 - 1) 4096). lia.
        - intros n' Hl. destruct (live_in Hi _ _ Hl) as (_ & _ & _ & _ & _ & ? & _).
          eapply (fresh_apart s ar fl a _ s' fl _ n' (a + sizeof_arena)); [exact Hi|exact Hnew|exact Hi'|exact Hl|lia|].
          unfold covers, sizeof_arena in *. cbn [arena_pages]. lia.
        - intros q n' y. by eapply fresh_arena_bytes. }
      right. split_and!; [lia|by eapply allocated_nonnull|done].
Qed.

(** * A block freed *)
Definition freed (s : mstate) ar fl (p : Z) (s' : mstate) : Prop :=
  ∃ ar' fl', minv s' ar' fl' ∧ busy ar' fl' ∧
    (∀ q n, live ar' fl' q n ↔ q ≠ p ∧ live ar fl q n) ∧
    (∀ q n y, q ≠ p → live ar fl q n → q ≤ y < q + n → ram (pages s') !! y = ram (pages s) !! y).

(** An arena that is gone held no block still in use. *)
Lemma gone_apart s ar fl s' ar' fl' a kd q n y :
  minv s ar fl → minv s' ar' fl' → ar' ⊆ ar → ar !! a = Some kd → ar' !! a = None →
  live ar' fl' q n → q ≤ y < q + n → ¬ covers a kd y.
Proof.
  intros Hi Hi' Hsub Ha Ha' Hl Hy Hc. destruct (live_covers Hi' q n Hl) as (b & kd' & Hb & Hcb).
  destruct (Hcb y Hy) as [Hc' _]. assert (a = b) as ->; [|by rewrite Ha' in Hb].
  eapply (mi_apart Hi a kd b kd' y); [done|by eapply lookup_weaken|done..].
Qed.

Lemma free_small_ok s ar fl a k d i :
  minv s ar fl → busy ar fl → ar !! a = Some (Small k) → std_descs !! k = Some d →
  0 ≤ i < blocks_per_arena d → blk a d i ∉ fl k →
  wp (Ops.give_block descs_at (blk a d i) a (desc_addr (Z.of_nat k)))
    (λ _ s', freed s ar fl (blk a d i) s') s.
Proof.
  intros Hi Hbusy Ha Hk Hi2 Hn. set (p := blk a d i) in *.
  assert (block_of a (Small k) p) as Hb by by exists d, i.
  assert (live ar fl p (block_size_of d)) as Hl by (left; exists a, k, d, i; split_and!; done || lia).
  eapply wp_mono; [by eapply give_block_ok|]. intros [] s' (ar' & fl' & Hi' & Hb' & Hch & Hsub & Hlive).
  exists ar', fl'. split_and!; [done..|]. intros q n y Hq Hlq Hy.
  eapply (live_bytes Hi q n); [done|exact Hch| |done]. cbn beta. intros z [Hz|[Hz|[Hgone Hz]]].
  - right. left. by exists p, (block_size_of d).
  - by left.
  - destruct (decide (p ≤ z < p + block_size_of d)) as [Hp|Hp].
    { right. left. by exists p, (block_size_of d). }
    right. right. intros q' n' Hq' Hzq. destruct (decide (q' = p)) as [->|Hne].
    + by rewrite (live_size Hi p _ _ Hq' Hl) in Hzq.
    + by eapply (gone_apart s ar fl s' ar' fl' a (Small k) q' n' z); [..|apply Hlive|done|done].
Qed.

Lemma free_big_ok s ar fl a c :
  minv s ar fl → busy ar fl → ar !! a = Some (Big c) →
  wp (on_pages (Palloc.Ops.palloc_free_multiple a c)) (λ _ s', freed s ar fl (a + sizeof_arena) s') s.
Proof.
  intros Hi Hbusy Ha.
  pose proof (free_pages_ok s ar fl a (Big c) (ram (pages s)) (links s) Hi Ha) as Hf.
  replace (mk_mstate (set_ram (ram (pages s)) (pages s)) (links s) (descs s)) with s in Hf
    by by destruct s as [[] ? ?].
  eapply wp_mono; [by apply Hf|]. intros [] s' (i & x & Ea & -> & Hm).
  assert (minv (mk_mstate x (links s) (descs s)) (delete a ar) fl) as Hi'.
  { subst a. eapply minv_delete; [exact Hi|exact Ha|exact Hm|done|apply Hi|].
    intros k d p Hk Hp. split; [done|]. destruct (free_block Hi k d p Hk Hp) as (b & Hb & Hbo & _).
    eapply (other_arena _ _ _ b (Small k) _ (Big c)); [done..| |done]. intros <-. by simplify_eq. }
  exists (delete a ar), fl. split_and!; [done| |by eapply live_drop_big|].
  - intros b k d [_ ?]%lookup_delete_Some. by apply Hbusy.
  - intros q n y Hq Hl Hy. destruct Hm as (_ & _ & _ & _ & _ & _ & Hch). simpl in Hch.
    rewrite (pi_base (mi_pool Hi)), <-Ea in Hch. apply (proj1 Hch). intros Hc.
    eapply (gone_apart s ar fl _ _ fl a (Big c) q n y Hi Hi'); [apply delete_subseteq|done| |..|done|exact Hc].
    + apply lookup_delete_eq.
    + by eapply live_drop_big.
Qed.

Lemma free_ok s ar fl p n :
  minv s ar fl → busy ar fl → live ar fl p n →
  wp (Ops.free descs_at p) (λ _ s', freed s ar fl p s') s.
Proof.
  intros Hi Hbusy Hl. destruct (live_nonnull _ _ _ _ _ Hi Hl) as [Hp _].
  destruct (live_in Hi p n Hl) as (a & kd & Ha & Hb & _ & _ & _). unfold Ops.free.
  rewrite (proj2 (Z.eqb_neq p NULL)) by (unfold NULL, PHYS_BASE in *; lia). cbn [negb].
  pose proof (minv_readable _ _ _ _ _ Hi Ha) as Hrd. wp_unbind.
  eapply (block_to_arena_ok a kd); [exact Hrd|exact Hb|].
  destruct Hrd as (_ & _ & _ & _ & Hr & _ & Hd).
  wp_unbind. apply read32_ok; [intros y Hy; apply Hr; unfold Ops.desc_at in Hy; lia|]. rewrite Hd.
  destruct kd as [k|c].
  - rewrite (proj2 (Z.eqb_neq _ _) (desc_addr_nonnull (m0 := m0) k)). cbn [negb].
    destruct Hl as [(a' & k' & d & i & Ha' & Hk & Hi2 & -> & _ & Hn)|(a' & c & Ha' & -> & _)];
      destruct (arena_unique Hi a a' _ _ _ Ha Ha' Hb) as [-> E]; simpl; eauto; simplify_eq.
    by apply free_small_ok.
  - rewrite Z.eqb_refl. cbn [negb]. simpl in Hb. subst p. wp_unbind.
    apply read32_ok; [intros y Hy; apply Hr; unfold Ops.free_cnt_at in Hy; lia|].
    destruct (mi_arena Hi a _ Ha) as [_ (_ & _ & ->)]. by apply free_big_ok.
Qed.

(** [block_size] of a block in use. *)
Lemma block_size_ok s ar fl p n Q :
  minv s ar fl → live ar fl p n → Q n s → wp (Ops.block_size descs_at p) Q s.
Proof.
  intros Hi Hl HQ. destruct (live_in Hi p n Hl) as (a & kd & Ha & Hb & _ & _ & _).
  destruct (live_nonnull _ _ _ _ _ Hi Hl) as [_ Hend].
  unfold Ops.block_size. pose proof (minv_readable _ _ _ _ _ Hi Ha) as Hrd. wp_unbind.
  eapply (block_to_arena_ok a kd); [exact Hrd|exact Hb|].
  pose proof Hrd as (_ & Al & Alo & _ & Hr & _ & Hd).
  wp_unbind. apply read32_ok; [intros y Hy; apply Hr; unfold Ops.desc_at in Hy; lia|]. rewrite Hd.
  destruct kd as [k|c].
  - rewrite (proj2 (Z.eqb_neq _ _) (desc_addr_nonnull (m0 := m0) k)). cbn [negb].
    destruct Hl as [(a' & k' & d & i & Ha' & Hk & Hi2 & -> & -> & Hn)|(a' & c & Ha' & -> & _)];
      destruct (arena_unique Hi a a' _ _ _ Ha Ha' Hb) as [-> E]; simpl; eauto; simplify_eq.
    wp_unbind. eapply deref_desc_ok; [apply Hi|exact Hk|]. by wp_go.
  - rewrite Z.eqb_refl. cbn [negb]. simpl in Hb. subst p. wp_unbind.
    apply read32_ok; [intros y Hy; apply Hr; unfold Ops.free_cnt_at in Hy; lia|].
    destruct (mi_arena Hi a _ Ha) as [_ (_ & _ & ->)]. wp_go.
    destruct (arena_facts Hi a _ Ha) as (_ & _ & ? & Hc & _). cbn [arena_pages] in *.
    assert (n = 4096 * c - 12) as ->.
    { eapply (live_size Hi); [exact Hl|]. right. by exists a, c. }
    destruct (round_down_in a (a + sizeof_arena)) as [_ ->]; [done|..];
      unfold sizeof_arena, PHYS_BASE in *; [lia..|].
    replace (PGSIZE * c - (a + 12 - a)) with (4096 * c - 12) by (rewrite PGSIZE_eq; lia).
    by rewrite u32_id by (unfold is_u32; lia).
Qed.
End spec.
