(* ===== verification/MallocTheorems.v ===== *)
(** What the block allocator promises its clients. *)
From Stdlib Require Import ZArith Lia.
From stdpp Require Import base tactics option numbers list gmap functions.
From S2P Require Import Prelude KList Bitmap CString Palloc PageDir Malloc MallocInv MallocOps.
From S2P Require Import MallocLive MallocCalls MallocSpec MemTheorems.

Open Scope Z_scope.

(** The blocks the clients hold, with their bytes. *)
Abbreviation blocks := (gmap Z (list Z)).

(** * The clients *)
Inductive request :=
| RMalloc (size : Z) | RCalloc (a b : Z) | RRealloc (p size : Z) | RFree (p : Z)
| RRead (p : Z) (i : nat) | RWrite (p : Z) (i : nat) (v : Z).

Definition serve (descs_at : Z) (r : request) : M mstate Z :=
  match r with
  | RMalloc size => Ops.malloc descs_at size
  | RCalloc a b => Ops.calloc descs_at a b
  | RRealloc p size => Ops.realloc descs_at p size
  | RFree p => Ops.free descs_at p;; mret NULL
  | RRead p i => on_bytes (CString.Ops.load (p + Z.of_nat i))
  | RWrite p i v => on_bytes (CString.Ops.store (p + Z.of_nat i) v);; mret NULL
  end.

(** A request a client may make: of a block it holds, and not for more than
    the sum [size + sizeof (struct arena)] can count. *)
Definition counts (size : Z) : Prop := 0 ≤ size ∧ size + 4107 < 2 ^ 32.
Definition allowed (B : blocks) (r : request) : Prop :=
  match r with
  | RMalloc size => counts size
  | RCalloc a b => is_u32 a ∧ is_u32 b ∧ counts (a * b)
  | RRealloc p size => (p = NULL ∨ is_Some (B !! p)) ∧ counts size
  | RFree p => p = NULL ∨ is_Some (B !! p)
  | RRead p i | RWrite p i _ => ∃ bs, B !! p = Some bs ∧ (i < length bs)%nat
  end.

(** * What the clients see *)

(** A block of [size] bytes or more that overlaps no other. *)
Definition gets_block (B : blocks) (size r : Z) (bs : list Z) : Prop :=
  r ≠ NULL ∧ B !! r = None ∧ size ≤ Z.of_nat (length bs) ∧
  ∀ q bs', B !! q = Some bs' →
    r + Z.of_nat (length bs) ≤ q ∨ q + Z.of_nat (length bs') ≤ r.

(** Request [r] may be answered with [v], and then the clients hold [B']. *)
Definition answer (r : request) (B : blocks) (v : Z) (B' : blocks) : Prop :=
  match r with
  | RMalloc size =>
      v = NULL ∧ B' = B ∨ 0 < size ∧ ∃ bs, gets_block B size v bs ∧ B' = <[v := bs]> B
  | RCalloc a b =>
      v = NULL ∧ B' = B ∨ 0 < a * b ∧ ∃ bs, gets_block B (a * b) v bs ∧
        take (Z.to_nat (a * b)) bs = replicate (Z.to_nat (a * b)) 0 ∧ B' = <[v := bs]> B
  | RRealloc p size =>
      if size =? 0 then v = NULL ∧ B' = delete p B else
      v = NULL ∧ B' = B ∨
      ∃ bs, gets_block B size v bs ∧ B' = <[v := bs]> (delete p B) ∧
        ∀ old, B !! p = Some old →
          take (Nat.min (Z.to_nat size) (length old)) bs = take (Nat.min (Z.to_nat size) (length old)) old
  | RFree p => B' = delete p B
  | RRead p i => B' = B ∧ (B !! p ≫= λ bs, bs !! i) = Some v
  | RWrite p i x => B' = alter <[i := x]> p B
  end.

(** A client chooses its next request from the requests and answers so far,
    the newest first. *)
Definition history := list (request * Z).

(** The histories a client can see, with the blocks it then holds. *)
Inductive seen (client : history → request) : history → blocks → Prop :=
| seen_nil : seen client [] ∅
| seen_cons h v B B' :
    seen client h B → answer (client h) B v B' → seen client ((client h, v) :: h) B'.

Definition polite (client : history → request) : Prop :=
  ∀ h B, seen client h B → allowed B (client h).

Fixpoint play (descs_at : Z) (client : history → request) (n : nat) (h : history) : M mstate history :=
  match n with
  | O => mret h
  | S n => v ← serve descs_at (client h); play descs_at client n ((client h, v) :: h)
  end.

(** * The state behind what they see *)
Section holds.
Context {descs_at : Z} {m0 : machine} {Hkd : kernel_data descs_at m0}.

Abbreviation minv := (minv descs_at m0).

Record held (s : mstate) (B : blocks) ar fl : Prop := {
  he_inv : minv s ar fl;
  he_busy : busy ar fl;
  he_live : ∀ p n, live ar fl p n ↔ ∃ bs, B !! p = Some bs ∧ n = Z.of_nat (length bs);
  he_bytes : ∀ p bs, B !! p = Some bs → block (ram (pages s)) p bs }.
Definition holds (s : mstate) (B : blocks) : Prop := ∃ ar fl, held s B ar fl.

Lemma held_live s B ar fl p bs :
  held s B ar fl → B !! p = Some bs → live ar fl p (Z.of_nat (length bs)).
Proof. intros Hh Hp. apply Hh. eauto. Qed.

Lemma held_null s B ar fl : held s B ar fl → B !! NULL = None.
Proof.
  intros Hh. destruct (B !! NULL) as [bs|] eqn:E; [|done]. pose proof (held_live _ _ _ _ _ _ Hh E) as Hl.
  destruct (live_nonnull _ _ _ _ _ (he_inv _ _ _ _ Hh) Hl) as [H _]. by unfold NULL, PHYS_BASE in H.
Qed.

Lemma held_apart s B ar fl p bs q bs' :
  held s B ar fl → B !! p = Some bs → B !! q = Some bs' → p ≠ q →
  p + Z.of_nat (length bs) ≤ q ∨ q + Z.of_nat (length bs') ≤ p.
Proof.
  intros Hh Hp Hq. eapply (live_apart (he_inv _ _ _ _ Hh)); by eapply held_live.
Qed.

Lemma held_range s B ar fl p bs : held s B ar fl → B !! p = Some bs →
  has_range (ram (pages s)) p (Z.of_nat (length bs)).
Proof.
  intros Hh Hp y Hy. destruct (lookup_lt_is_Some_2 bs (Z.to_nat (y - p))) as [b Hb]; [lia|].
  pose proof (he_bytes _ _ _ _ Hh p bs Hp _ _ Hb) as E. replace (p + Z.of_nat (Z.to_nat (y - p))) with y in E by lia.
  eauto.
Qed.

Lemma block_same m m' p bs : block m p bs →
  (∀ y, p ≤ y < p + Z.of_nat (length bs) → m' !! y = m !! y) → block m' p bs.
Proof.
  intros Hb Hm i b Hi. pose proof (lookup_lt_Some _ _ _ Hi). rewrite Hm by lia. by apply Hb.
Qed.

(** A block gained. *)
Lemma held_alloc s B ar fl size r s' :
  held s B ar fl → counts size → allocated (descs_at := descs_at) (m0 := m0) size s ar fl r s' →
  ∃ bs, gets_block B size r bs ∧ holds s' (<[r := bs]> B).
Proof.
  intros Hh Hc Hal. pose proof (allocated_nonnull _ _ _ _ _ _ Hal) as Hnn.
  destruct Hal as (ar' & fl' & n & Hi' & Hb' & Hroom & Hnew & Hl & Hbytes).
  assert (live ar' fl' r n) as Hlr by (apply Hl; by right).
  destruct (live_in Hi' r n Hlr) as (a & kd & Ha & _ & ? & Hn & ?).
  destruct (arena_facts Hi' a kd Ha) as (_ & _ & _ & _ & Hr & _).
  set (bs := bytes_of (ram (pages s')) r (Z.to_nat n)).
  assert (Z.of_nat (length bs) = n) as Hlen by (unfold bs; rewrite length_bytes_of; lia).
  assert (B !! r = None) as HBr.
  { destruct (B !! r) as [b|] eqn:E; [|done]. by destruct (Hnew (Z.of_nat (length b))); eapply held_live. }
  assert (∀ q b, B !! q = Some b → live ar fl q (Z.of_nat (length b)) ∧ q ≠ r) as HB.
  { intros q b Hq. split; [by eapply held_live|]. intros ->. by rewrite HBr in Hq. }
  exists bs. split; [split_and!; [done|done|rewrite Hlen; apply Hroom, Hc|]|].
  - intros q b Hq. destruct (HB q b Hq) as [Hlq Hne]. rewrite Hlen.
    apply (live_apart Hi' r n q); [done| |done]. apply Hl. by left.
  - exists ar', fl'. split; [done|done| |].
    + intros q n'. rewrite Hl, (he_live _ _ _ _ Hh). split.
      * intros [(b & Hq & ->)|[-> ->]]; [|exists bs; by rewrite lookup_insert_eq].
        exists b. rewrite lookup_insert_ne; [done|]. intros ->. by rewrite HBr in Hq.
      * intros (b & [[<- <-]|[Hne Hq]]%lookup_insert_Some & ->); [by right|left; eauto].
    + intros q b [[<- <-]|[Hne Hq]]%lookup_insert_Some.
      * apply block_bytes_of. intros y Hy. apply Hr. lia.
      * eapply block_same; [by apply (he_bytes _ _ _ _ Hh)|]. intros y Hy.
        destruct (HB q b Hq) as [Hlq _]. by eapply Hbytes.
Qed.

(** A block given up. *)
Lemma held_free s B ar fl p s' :
  held s B ar fl → freed (descs_at := descs_at) (m0 := m0) s ar fl p s' → holds s' (delete p B).
Proof.
  intros Hh (ar' & fl' & Hi' & Hb' & Hl & Hbytes). exists ar', fl'. split; [done|done| |].
  - intros q n. rewrite Hl, (he_live _ _ _ _ Hh). split.
    + intros [Hq (b & Hb & ->)]. exists b. by rewrite lookup_delete_ne.
    + intros (b & [Hne Hb]%lookup_delete_Some & ->). eauto.
  - intros q b [Hne Hb]%lookup_delete_Some. eapply block_same; [by apply (he_bytes _ _ _ _ Hh)|].
    intros y Hy. eapply Hbytes; [done|by eapply held_live|done].
Qed.

(** A block written to. *)
Lemma minv_write s ar fl P m :
  minv s ar fl → only_at P (ram (pages s)) m →
  (∀ y, P y → ∃ a kd, ar !! a = Some kd ∧ covers a kd y ∧ a + 12 ≤ y) → minv (with_ram m s) ar fl.
Proof.
  intros Hi Hm HP. split; cbn [pages links descs with_ram set_pages].
  - eapply pool_is_ram; [apply Hi|exact Hm|]. intros y (a & kd & Ha & Hc & _)%HP. by eapply covered_spare.
  - apply Hi.
  - intros a kd Ha. destruct (mi_arena Hi a kd Ha) as [? [Hw Hk]]. split; [done|].
    assert (∀ z, a ≤ z → z + 4 ≤ a + 12 → word m z = word (ram (pages s)) z) as Hz.
    { intros z ? ?. apply word_same. intros y Hy. apply (proj1 Hm).
      intros (b & kd' & Hb & Hc & Hlo)%HP. apply (block_no_header s ar fl b kd' y Hi Hb Hlo Hc).
      exists a, kd. split; [done|lia]. }
    unfold header, Ops.magic_at, Ops.desc_at, Ops.free_cnt_at in *. cbn [ram set_ram].
    by rewrite !Hz by lia.
  - apply Hi.
  - apply Hi.
  - apply Hi.
Qed.

Lemma held_write s B p bs bs' m :
  holds s B → B !! p = Some bs → changes_at p (Z.of_nat (length bs)) (ram (pages s)) m →
  block m p bs' → length bs' = length bs → holds (with_ram m s) (<[p := bs']> B).
Proof.
  intros (ar & fl & Hh) Hp Hch Hb Hlen. exists ar, fl. pose proof (he_inv _ _ _ _ Hh) as Hi.
  pose proof (held_live _ _ _ _ _ _ Hh Hp) as Hl.
  destruct (live_covers Hi p _ Hl) as (a & kd & Ha & Hc). split.
  - eapply minv_write; [exact Hi|exact Hch|]. intros y Hy. exists a, kd. by destruct (Hc y Hy).
  - apply Hh.
  - intros q n. rewrite (he_live _ _ _ _ Hh). destruct (decide (q = p)) as [->|Hne].
    + rewrite lookup_insert_eq, Hp. split; intros (b & [= <-] & ->); eauto.
    + by rewrite lookup_insert_ne.
  - intros q b [[<- <-]|[Hne Hq]]%lookup_insert_Some; [done|].
    eapply block_same; [by apply (he_bytes _ _ _ _ Hh)|]. intros y Hy. apply (proj1 Hch).
    pose proof (held_apart _ _ _ _ _ _ _ _ Hh Hp Hq Hne). lia.
Qed.

(** * The calls *)
Lemma malloc_holds s B size :
  holds s B → counts size →
  wp (Ops.malloc descs_at size) (λ v s', (v = NULL ∧ s' = s) ∨
    0 < size ∧ ∃ bs, gets_block B size v bs ∧ holds s' (<[v := bs]> B)) s.
Proof.
  intros (ar & fl & Hh) Hc. eapply wp_mono; [eapply (malloc_live s ar fl size);
    [apply Hh|apply Hh|destruct Hc; unfold is_u32; lia]|].
  intros v s' [(-> & -> & _)|(Hpos & _ & Hal)]; [by left|right]. split; [done|]. by eapply held_alloc.
Qed.

Lemma free_holds s B p :
  holds s B → p = NULL ∨ is_Some (B !! p) →
  wp (Ops.free descs_at p) (λ _ s', holds s' (delete p B)) s.
Proof.
  intros (ar & fl & Hh) Hp. destruct (decide (p = NULL)) as [->|Hne].
  - unfold Ops.free. cbn. wp_go. rewrite delete_id by by eapply held_null. by exists ar, fl.
  - destruct Hp as [?|[bs Hbs]]; [done|].
    eapply wp_mono; [eapply (free_ok s ar fl p); [apply Hh|apply Hh|by eapply held_live]|].
    intros [] s' Hf. by eapply held_free.
Qed.

Lemma block_take m p bs n : block m p bs → block m p (take n bs).
Proof. intros Hb i x Hi. apply lookup_take_Some in Hi as [Hi _]. by apply Hb. Qed.
Lemma block_drop m p bs n : block m p bs → block m (p + Z.of_nat n) (drop n bs).
Proof.
  intros Hb i x Hi. rewrite lookup_drop in Hi. apply Hb in Hi. by rewrite Nat2Z.inj_add, Z.add_assoc in Hi.
Qed.

(** The first bytes of a held block replaced. *)
Lemma held_overwrite s B p bs xs m :
  holds s B → B !! p = Some bs → (length xs ≤ length bs)%nat →
  changes_at p (Z.of_nat (length xs)) (ram (pages s)) m → block m p xs →
  holds (with_ram m s) (<[p := xs ++ drop (length xs) bs]> B).
Proof.
  intros HB Hp Hlen Hch Hx. destruct HB as (ar & fl & Hh).
  pose proof (he_bytes _ _ _ _ Hh p bs Hp) as Hb.
  eapply held_write; [by exists ar, fl|done| | |rewrite length_app, length_drop; lia].
  - eapply only_at_changes; [exact Hch|lia].
  - apply block_app. split; [done|]. eapply block_same; [by apply block_drop|].
    rewrite length_drop. intros y Hy. apply (proj1 Hch). lia.
Qed.

Lemma calloc_holds s B a b :
  holds s B → is_u32 a → is_u32 b → counts (a * b) →
  wp (Ops.calloc descs_at a b) (λ v s', (v = NULL ∧ s' = s) ∨
    0 < a * b ∧ ∃ bs, gets_block B (a * b) v bs ∧
      take (Z.to_nat (a * b)) bs = replicate (Z.to_nat (a * b)) 0 ∧ holds s' (<[v := bs]> B)) s.
Proof.
  intros HB Ha Hb Hc. unfold Ops.calloc. rewrite u32_id by (destruct Hc; unfold is_u32; lia).
  destruct (_ || _); [wp_go; by left|]. wp_unbind. eapply wp_mono; [by apply malloc_holds|].
  intros v s' [(-> & ->)|(Hpos & bs & Hg & Hh)]; [wp_go; by left|].
  pose proof Hg as (Hnn & Hnew & Hlen & Hap). rewrite (proj2 (Z.eqb_neq v NULL) Hnn). cbn [negb].
  wp_unbind. apply on_bytes_ok. pose proof Hh as (ar & fl & Hhe).
  assert (<[v := bs]> B !! v = Some bs) as Hv by apply lookup_insert_eq.
  eapply wp_mono; [apply memset_ok|].
  { pose proof (held_live _ _ _ _ _ _ Hhe Hv) as Hl.
    destruct (live_nonnull _ _ _ _ _ (he_inv _ _ _ _ Hhe) Hl). unfold PHYS_BASE in *. lia. }
  { lia. }
  { intros y Hy. apply (held_range _ _ _ _ _ _ Hhe Hv). lia. }
  intros _ m (_ & Hz & Hch). wp_go. right. split; [done|]. change (0 mod 256) with 0 in Hz.
  exists (replicate (Z.to_nat (a * b)) 0 ++ drop (length (replicate (Z.to_nat (a * b)) 0)) bs).
  split_and!.
  - split_and!; [done..| |]; rewrite length_app, length_drop, length_replicate; [lia|].
    intros q b' Hq. destruct (Hap q b' Hq); lia.
  - rewrite take_app_le, take_ge; rewrite ?length_replicate; done.
  - rewrite <-(insert_insert_eq B v _ bs). eapply held_overwrite; [done..| | |done];
      rewrite length_replicate; [lia|]. by rewrite Z2Nat.id by lia.
Qed.

(** The old block's bytes in the new block. *)
Lemma copy_holds s B p old v bs k :
  holds s B → B !! p = Some old → B !! v = Some bs → p ≠ v →
  (k ≤ length old)%nat → (k ≤ length bs)%nat →
  wp (on_bytes (CString.Ops.memcpy v p (Z.of_nat k)))
    (λ _ s', holds s' (<[v := take k old ++ drop k bs]> B)) s.
Proof.
  intros HB Hp Hv Hne Ho Hb. pose proof HB as (ar & fl & Hh). pose proof (he_inv _ _ _ _ Hh) as Hi.
  assert (length (take k old) = k) as Hk by (rewrite length_take; lia).
  assert (∀ q b, B !! q = Some b → q ≠ NULL) as Hnn.
  { intros q b Hq ->. by rewrite (held_null _ _ _ _ Hh) in Hq. }
  apply on_bytes_ok. replace (Z.of_nat k) with (Z.of_nat (length (take k old))) by lia.
  eapply wp_mono; [apply memcpy_ok|].
  - by eapply Hnn.
  - by eapply Hnn.
  - by apply block_take, (he_bytes _ _ _ _ Hh).
  - intros i Hlt. apply (held_range _ _ _ _ _ _ Hh Hv). lia.
  - destruct (held_apart _ _ _ _ _ _ _ _ Hh Hp Hv Hne); lia.
  - intros _ m (_ & Hx & Hch). pose proof (held_overwrite s B v bs (take k old) m HB Hv) as Hw.
    rewrite Hk in Hw. apply Hw; [done| |done]. by rewrite Hk in Hch.
Qed.

Lemma realloc_holds s B p size :
  holds s B → p = NULL ∨ is_Some (B !! p) → counts size →
  wp (Ops.realloc descs_at p size) (λ v s', ∃ B', answer (RRealloc p size) B v B' ∧ holds s' B') s.
Proof.
  intros HB Hp Hc. unfold Ops.realloc, answer. destruct (Z.eqb_spec size 0) as [->|H0].
  { wp_unbind. eapply wp_mono; [by apply free_holds|]. intros [] s' Hs'. wp_go. eauto. }
  wp_unbind. eapply wp_mono; [by apply malloc_holds|].
  intros v s1 [(-> & ->)|(Hpos & bs & Hg & Hh)].
  { rewrite andb_false_r. wp_go. exists B. split; [by left|done]. }
  pose proof Hg as (Hnn & Hnew & Hlen & Hap). rewrite (proj2 (Z.eqb_neq v NULL) Hnn), andb_true_r.
  pose proof Hh as (ar & fl & Hhe). destruct (Z.eqb_spec p NULL) as [->|Hpn]; cbn [negb].
  { wp_go. exists (<[v := bs]> B). split; [|done]. right. exists bs.
    pose proof (held_null _ _ _ _ Hhe) as HN. apply lookup_insert_None in HN as [HN _].
    rewrite delete_id by done. split_and!; [done..|]. intros old. by rewrite HN. }
  destruct Hp as [?|[old Hold]]; [done|].
  assert (p ≠ v) as Hpv by (intros ->; by rewrite Hnew in Hold).
  assert (<[v := bs]> B !! p = Some old) as Hp1 by by rewrite lookup_insert_ne.
  wp_unbind. eapply block_size_ok; [apply Hhe|by eapply held_live|].
  set (k := Nat.min (Z.to_nat size) (length old)).
  replace (if size <? Z.of_nat (length old) then size else Z.of_nat (length old)) with (Z.of_nat k)
    by (unfold k; destruct (Z.ltb_spec size (Z.of_nat (length old))); lia).
  wp_unbind. eapply wp_mono; [eapply (copy_holds s1 _ p old v bs k);
    [done|done|apply lookup_insert_eq|done|unfold k; lia|unfold k; lia]|].
  intros ? s2 H2. cbn beta in H2. rewrite insert_insert_eq in H2.
  eapply wp_mono; [apply (free_holds _ _ p H2); right; rewrite lookup_insert_ne by done; eauto|].
  intros [] s3 H3. wp_go. rewrite delete_insert_ne in H3 by done.
  exists (<[v := take k old ++ drop k bs]> (delete p B)). split; [|done]. right.
  assert (length (take k old ++ drop k bs) = length bs) as Hl.
  { rewrite length_app, length_take, length_drop. unfold k. lia. }
  exists (take k old ++ drop k bs). split; [unfold gets_block; by rewrite Hl|split; [done|]].
  intros old' [= <-]%(fun E => eq_trans (eq_sym Hold) E). fold k.
  rewrite take_app_le by (rewrite length_take; unfold k; lia). by rewrite take_take, Nat.min_id.
Qed.

Lemma serve_holds s B r :
  holds s B → allowed B r →
  wp (serve descs_at r) (λ v s', ∃ B', answer r B v B' ∧ holds s' B') s.
Proof.
  intros HB Hr. destruct r as [size|a b|p size|p|p i|p i x]; simpl in Hr; cbn [serve answer].
  - eapply wp_mono; [by apply malloc_holds|]. intros v s' [(-> & ->)|(? & bs & ? & ?)]; [by eauto|].
    exists (<[v := bs]> B). split; [right; eauto|done].
  - destruct Hr as (? & ? & ?). eapply wp_mono; [by apply calloc_holds|].
    intros v s' [(-> & ->)|(? & bs & ? & ? & ?)]; [by eauto|].
    exists (<[v := bs]> B). split; [right; split; [done|]; by exists bs|done].
  - destruct Hr. by apply realloc_holds.
  - wp_unbind. eapply wp_mono; [by apply free_holds|]. intros [] s' ?. wp_go. eauto.
  - destruct Hr as (bs & Hbs & Hi). destruct (lookup_lt_is_Some_2 _ _ Hi) as [v Hv].
    pose proof HB as (ar & fl & Hh). apply on_bytes_ok.
    eapply wp_mload; [by apply (he_bytes _ _ _ _ Hh p bs)|]. exists B. rewrite Hbs.
    split; [done|]. by destruct s as [[] ? ?].
  - destruct Hr as (bs & Hbs & Hi). destruct (lookup_lt_is_Some_2 _ _ Hi) as [v Hv].
    pose proof HB as (ar & fl & Hh). pose proof (he_bytes _ _ _ _ Hh p bs Hbs) as Hb.
    wp_unbind. apply on_bytes_ok. eapply wp_mstore; [by apply Hb|]. wp_go.
    exists (alter <[i := x]> p B). split; [done|].
    replace (alter <[i := x]> p B) with (<[p := <[i := x]> bs]> B).
    + eapply held_write; [done..| | |apply length_insert].
      * eapply changes_store; [apply changes_at_refl|lia|by apply Hb].
      * intros j y Hj. destruct (decide (j = i)) as [->|Hne].
        -- rewrite list_lookup_insert_eq in Hj by done. simplify_eq. apply lookup_insert_eq.
        -- rewrite list_lookup_insert_ne in Hj by done. rewrite lookup_insert_ne by lia. by apply Hb.
    + apply map_eq. intros q. destruct (decide (q = p)) as [->|Hne].
      * by rewrite lookup_insert_eq, lookup_alter_eq, Hbs.
      * by rewrite lookup_insert_ne, lookup_alter_ne.
Qed.

Lemma play_ok client n h s B :
  polite client → holds s B → seen client h B →
  wp (play descs_at client n h) (λ h' s', length h' = (n + length h)%nat ∧
    ∃ B', seen client h' B' ∧ holds s' B') s.
Proof.
  intros Hc. revert h s B. induction n as [|n IH]; intros h s B HB Hs; simpl.
  { wp_go. eauto. }
  wp_unbind. eapply wp_mono; [by eapply serve_holds, Hc|]. intros v s' (B' & Ha & HB').
  eapply wp_mono; [by eapply IH; [|by econstructor]|]. intros h' s2 [Hl ?]. simpl in Hl.
  split; [lia|done].
Qed.

(** * The start *)

(** The list headers of the zero-filled array [descs]. *)
Definition has_headers (h : KList.heap) : Prop :=
  ∀ k, 0 ≤ k < DESC_MAX →
    is_Some (h !! head_of (Ops.free_list (Ops.desc_addr descs_at k))) ∧
    is_Some (h !! tail_of (Ops.free_list (Ops.desc_addr descs_at k))).

Abbreviation flist k := (Ops.free_list (Ops.desc_addr descs_at (Z.of_nat k))).

Lemma pool_is_start : pool_is m0 ∅ m0.
Proof. split; [apply kd_inv|done..| |done]. intros i Hi. split; [by left|]. intros [?|(? & ? & ? & _)]; done. Qed.

Lemma minv_start h :
  (∀ k d, std_descs !! k = Some d → is_list h (flist k) []) →
  minv (mk_mstate m0 h std_descs) ∅ (λ _, []).
Proof.
  intros Hl. split; cbn [pages links descs]; [apply pool_is_start|done|done|done|done|].
  intros k d x _ Hx. by apply not_elem_of_nil in Hx.
Qed.

Lemma chain_or_same c h h' x :
  same_outside c h h' → chain h' KList.NULL c KList.NULL → is_Some (h !! x) → is_Some (h' !! x).
Proof.
  intros Hs Hc Hx. destruct (decide (x ∈ c)) as [Hin|Hn]; [by eapply chain_elem_of|]. by rewrite Hs.
Qed.

Lemma malloc_init_ok h0 :
  has_headers h0 →
  wp (Ops.malloc_init descs_at) (λ _ s', holds s' ∅ ∧ pages s' = m0) (mk_mstate m0 h0 []).
Proof.
  intros Hh0. unfold Ops.malloc_init. destruct (kd_descs (m0 := m0)) as [Hd1 _].
  eapply (wp_loop (λ n block_size s, ∃ k h, (n + k = 7)%nat ∧ block_size = 2 ^ (4 + Z.of_nat k) ∧
    s = mk_mstate m0 h (take k std_descs) ∧ has_headers h ∧
    ∀ j, (j < k)%nat → is_list h (flist j) [])) with (k := 7%nat); [| |lia].
  2: { exists 0%nat, h0. split_and!; [done..|lia]. }
  intros n bs s (k & h & Hn & -> & -> & Hh & Hl).
  destruct (decide (k = 7%nat)) as [->|Hk7].
  - change (2 ^ (4 + Z.of_nat 7) <? PGSIZE / 2) with false. wp_go. split; [|done].
    exists ∅, (λ _, []). split; [|done| |done].
    + apply minv_start. intros j d (Hj & _)%std_desc_ok. by apply Hl.
    + intros p m. split; [|intros (? & ? & _); done].
      intros [(? & ? & ? & ? & ? & _)|(? & ? & ? & _)]; done.
  - assert (k < 7)%nat as Hk by lia.
    assert ((2 ^ (4 + Z.of_nat k) <? PGSIZE / 2) = true) as ->.
    { do 7 (destruct k as [|k]; [done|]). lia. }
    wp_go. cbn [length descs]. rewrite length_take. change (length std_descs) with 7%nat.
    replace (k `min` 7)%nat with k by lia.
    wp_assert (apply Z.leb_le; unfold DESC_MAX; lia). apply wp_zoom. cbn [links add_desc].
    destruct (Hh (Z.of_nat k)) as [? ?]; [unfold DESC_MAX; lia|].
    eapply wp_mono; [apply KList.Correct.list_init_ok; try done|].
    1,2: unfold Ops.free_list, Ops.desc_addr, sizeof_desc, tail_of, KList.NULL, PHYS_BASE in *; lia.
    intros [] h' [Hl' Hs]. wp_go. exists (n - 1)%nat. split; [lia|]. exists (S k), h'. split_and!.
    + lia.
    + do 7 (destruct k as [|k]; [done|]). lia.
    + unfold add_desc. cbn [pages links descs set_links]. f_equal.
      do 7 (destruct k as [|k]; [done|]). lia.
    + intros j Hj. destruct (Hh j Hj) as [? ?].
      destruct Hl' as (Hch & _). split; (eapply (chain_or_same (nodes (flist k) [])); [done|exact Hch|done]).
    + intros j Hj. destruct (decide (j = k)) as [->|Hne]; [done|].
      eapply is_list_frame; [exact Hs| |apply Hl; lia]. unfold nodes, head_of, tail_of, Ops.free_list,
        Ops.desc_addr, sizeof_desc. intros y Hy Hy'. simpl in Hy, Hy'.
      rewrite !elem_of_cons, elem_of_nil in Hy, Hy'. lia.
Qed.
End holds.

(** Every arena has a block in use, so without blocks there are no arenas. *)
Lemma no_blocks_no_arenas {descs_at m0} `{!kernel_data descs_at m0} s ar fl :
  held (descs_at := descs_at) (m0 := m0) s ∅ ar fl → ar = ∅.
Proof.
  intros Hh. assert (∀ p n, ¬ live ar fl p n) as Hno.
  { intros p n (bs & ? & _)%(he_live _ _ _ _ Hh). done. }
  pose proof (he_inv _ _ _ _ Hh) as Hi. apply map_empty. intros a. destruct (ar !! a) as [[k|c]|] eqn:Ha; [|..|done].
  - destruct (mi_arena Hi a _ Ha) as [_ (_ & _ & _ & Hk)].
    destruct (lookup_lt_is_Some_2 _ _ Hk) as [d Hd].
    pose proof (he_busy _ _ _ _ Hh a k d Ha Hd) as Hb. exfalso.
    assert (blks a d ⊆+ filter (in_arena a) (fl k)) as Hsub.
    { apply NoDup_submseteq; [by eapply blks_NoDup|]. intros x Hx.
      apply elem_of_blks in Hx as (i & Hi2 & ->). apply list_elem_of_filter. split.
      - pose proof (blk_in k d a i Hd Hi2). pose proof (std_desc_ok k d Hd). unfold in_arena. lia.
      - destruct (decide (blk a d i ∈ fl k)) as [|Hn]; [done|]. destruct (Hno (blk a d i) (block_size_of d)).
        left. exists a, k, d, i. split_and!; done || lia. }
    apply submseteq_length in Hsub. pose proof (length_blks k a d Hd). unfold free_in in Hb. lia.
  - destruct (Hno (a + sizeof_arena) (4096 * c - sizeof_arena)). right. by exists a, c.
Qed.

(** The blocks held are a matter of the history alone. *)
Lemma answer_dom r B1 B2 v B1' B2' :
  dom B1 = dom B2 → answer r B1 v B1' → answer r B2 v B2' → dom B1' = dom B2'.
Proof.
  intros Hd H1 H2. destruct r as [size|a b|p size|p|p i|p i x]; cbn [answer] in H1, H2; unfold gets_block in *.
  1,2: destruct H1 as [[-> ->]|(_ & bs1 & (? & _) & H1)], H2 as [[? ->]|(_ & bs2 & (? & _) & H2)]; try done;
    destruct_and?; subst; rewrite ?dom_insert_L; congruence.
  - destruct (size =? 0); [destruct H1 as [_ ->], H2 as [_ ->]; rewrite !dom_delete_L; congruence|].
    destruct H1 as [[-> ->]|(bs1 & (? & _) & -> & _)], H2 as [[? ->]|(bs2 & (? & _) & -> & _)]; try done.
    rewrite !dom_insert_L, !dom_delete_L. congruence.
  - subst. rewrite !dom_delete_L. congruence.
  - destruct H1 as [-> _], H2 as [-> _]. done.
  - subst. by rewrite !dom_alter_L.
Qed.

Lemma seen_dom client h B1 B2 : seen client h B1 → seen client h B2 → dom B1 = dom B2.
Proof.
  intros H1. revert B2. induction H1 as [|h v B B' _ IH Ha]; intros B2 H2; inversion H2; subst; [done|].
  eapply answer_dom; [|done|done]. by apply IH.
Qed.

Lemma init_holds descs_at m0 h0 s :
  kernel_data descs_at m0 → has_headers (descs_at := descs_at) h0 →
  Ops.malloc_init descs_at (mk_mstate m0 h0 []) = Ok (tt, s) →
  holds (descs_at := descs_at) (m0 := m0) s ∅.
Proof.
  intros Hkd Hh0 E1. pose proof (malloc_init_ok h0 Hh0) as H.
  apply wp_ok in H as ([] & s' & E & HB & _). rewrite E1 in E. by injection E as <-.
Qed.

(** A run of a client, with the state at its end. *)
Lemma client_run descs_at m0 h0 client n :
  kernel_data descs_at m0 → has_headers (descs_at := descs_at) h0 → polite client →
  ∃ s1 h s' B ar fl,
    Ops.malloc_init descs_at (mk_mstate m0 h0 []) = Ok (tt, s1) ∧
    play descs_at client n [] s1 = Ok (h, s') ∧ length h = n ∧ seen client h B ∧
    held (descs_at := descs_at) (m0 := m0) s' B ar fl.
Proof.
  intros Hkd Hh0 Hc. pose proof (malloc_init_ok h0 Hh0) as H1. apply wp_ok in H1 as ([] & s1 & E1 & HB & _).
  pose proof (play_ok client n [] s1 ∅ Hc HB (seen_nil client)) as H2.
  apply wp_ok in H2 as (h & s' & E2 & Hl & B & Hs & ar & fl & Hh). simpl in Hl.
  exists s1, h, s', B, ar, fl. split_and!; [done|done|lia|done|done].
Qed.

(** * A machine with three kernel pages *)
Section example.
#[local] Opaque zeros.

(** [used] marks the pages in use. *)
Definition three_pages (m : mem) (used : Z) : machine :=
  mk_machine m (mk_pool (mk_bitmap 3 [used]) 0xc0100000) (mk_pool (mk_bitmap 1 [0]) 0xc0103000).
Definition block_machine : Z → machine := three_pages (zeros 0xc0100000 16384).
Definition example_descs : Z := 0xc0010000.

Lemma block_machine_data used : is_u32 used → kernel_data example_descs (block_machine used).
Proof.
  intros Hu. split.
  - split; [|done]. intros []; (split; [|done|unfold PHYS_BASE; simpl; lia|simpl; lia|]).
    1,3: by split; [simpl; lia|done|repeat constructor; unfold is_u32 in *; lia].
    all: simpl; intros x Hx; exists 0; apply lookup_zeros; lia.
  - unfold PHYS_BASE, example_descs, sizeof_desc, DESC_MAX. simpl. lia.
Qed.

Definition zero_headers : KList.heap :=
  list_to_map (concat ((λ k, [(head_of (Ops.free_list (Ops.desc_addr example_descs k)), mk_elem 0 0);
    (tail_of (Ops.free_list (Ops.desc_addr example_descs k)), mk_elem 0 0)]) <$> seqZ 0 DESC_MAX)).

Lemma zero_headers_ok : has_headers (descs_at := example_descs) zero_headers.
Proof.
  intros k Hk. assert (k ∈ seqZ 0 DESC_MAX) as Hin by (apply elem_of_seqZ; lia). clear Hk. revert k Hin.
  apply list.Forall_forall. repeat constructor; by eexists.
Qed.

(** A client that asks for a block, writes to it and frees it. *)
Definition example_client (h : history) : request :=
  match h with
  | [] => RMalloc 100
  | [(_, v)] => if v =? NULL then RMalloc 0 else RWrite v 3 65
  | [_; (_, v)] => if v =? NULL then RMalloc 0 else RFree v
  | _ => RMalloc 0
  end.

Lemma example_client_polite : polite example_client.
Proof.
  intros h B Hs. assert (counts 0) by (split; lia). inversion Hs as [|h1 v1 B1 B1' Hs1 Ha1]; subst; [split; lia|].
  inversion Hs1 as [|h2 v2 B2 B2' Hs2 Ha2]; subst; simpl.
  - destruct (Z.eqb_spec v1 NULL) as [|Hv]; [done|]. simpl in Ha1.
    destruct Ha1 as [[? _]|(_ & bs & (_ & _ & Hlen & _) & ->)]; [done|].
    exists bs. rewrite lookup_insert_eq. split; [done|lia].
  - inversion Hs2 as [|h3 v3 B3 B3' Hs3 Ha3]; subst; simpl; [|by destruct h3 as [|[] []]].
    destruct (Z.eqb_spec v2 NULL) as [|Hv]; [done|]. simpl in Ha1, Ha2.
    rewrite (proj2 (Z.eqb_neq _ _) Hv) in Ha1. simpl in Ha1. subst B.
    destruct Ha2 as [[? _]|(_ & bs & _ & ->)]; [done|]. right. simpl.
    rewrite lookup_alter_eq, lookup_insert_eq. by eexists.
Qed.
End example.

Module BlockAllocator.

(** C12: from its start on, the block allocator serves every client that
    passes it only blocks it holds: no call stops the machine or goes wrong,
    and the answers are those of an allocator that hands out fresh blocks of
    at least the size asked for, never overlapping another one, zeroed for
    [calloc], with the old contents for [realloc]; a client reads from its
    blocks what it last wrote there, and at the end every block still has its
    bytes in memory that the page allocator had free at the start. *)
Theorem allocator_refines descs_at m0 h0 client n :
  kernel_data descs_at m0 → has_headers (descs_at := descs_at) h0 → polite client →
  ∃ s1 h s' B,
    Ops.malloc_init descs_at (mk_mstate m0 h0 []) = Ok (tt, s1) ∧
    play descs_at client n [] s1 = Ok (h, s') ∧ length h = n ∧ seen client h B ∧
    (∀ p bs, B !! p = Some bs → block (ram (pages s')) p bs ∧
       ∀ y, p ≤ y < p + Z.of_nat (length bs) → spare m0 y) ∧
    (∀ p bs q bs', B !! p = Some bs → B !! q = Some bs' → p ≠ q →
       p + Z.of_nat (length bs) ≤ q ∨ q + Z.of_nat (length bs') ≤ p).
Proof.
  intros Hkd Hh0 Hc.
  destruct (client_run descs_at m0 h0 client n Hkd Hh0 Hc) as (s1 & h & s' & B & ar & fl & ? & ? & ? & ? & Hh).
  exists s1, h, s', B. split_and!; [done..| |].
  - intros p bs Hp. split; [by apply (he_bytes _ _ _ _ Hh)|]. intros y Hy.
    destruct (live_covers (he_inv _ _ _ _ Hh) p _ (held_live _ _ _ _ _ _ Hh Hp)) as (a & kd & Ha & Hcov).
    destruct (Hcov y Hy). by eapply (covered_spare _ _ _ a kd y (he_inv _ _ _ _ Hh)).
  - intros p bs q bs'. by apply (held_apart _ _ _ _ _ _ _ _ Hh).
Qed.

Lemma allocator_refines_witness :
  ∃ s1 h s' B,
    Ops.malloc_init example_descs (mk_mstate (block_machine 1) zero_headers []) = Ok (tt, s1) ∧
    play example_descs example_client 3 [] s1 = Ok (h, s') ∧ length h = 3%nat ∧
    seen example_client h B.
Proof.
  destruct (allocator_refines example_descs (block_machine 1) zero_headers example_client 3
    (block_machine_data 1 ltac:(unfold is_u32; lia)) zero_headers_ok example_client_polite)
    as (s1 & h & s' & B & E1 & E2 & E3 & E4 & _).
  exists s1, h, s', B. exact (conj E1 (conj E2 (conj E3 E4))).
Defined.

(** C13: whatever its clients do, the block allocator leaves alone the user
    pool and every byte outside the kernel pages that were free at the start,
    and it takes from the kernel pool no page in use; once the clients hold
    no block, every page has gone back: the pool's bitmap is the one it
    started from. *)
Theorem allocator_returns_pages descs_at m0 h0 client n :
  kernel_data descs_at m0 → has_headers (descs_at := descs_at) h0 → polite client →
  ∃ s1 h s',
    Ops.malloc_init descs_at (mk_mstate m0 h0 []) = Ok (tt, s1) ∧
    play descs_at client n [] s1 = Ok (h, s') ∧
    user_pool (pages s') = user_pool m0 ∧
    (∀ y, ¬ spare m0 y → ram (pages s') !! y = ram m0 !! y) ∧
    (∀ i, 0 ≤ i < bit_cnt (used_map (kernel_pool m0)) → bit (used_map (kernel_pool m0)) i = true →
       bit (used_map (kernel_pool (pages s'))) i = true) ∧
    (seen client h ∅ → ∀ i, 0 ≤ i < bit_cnt (used_map (kernel_pool m0)) →
       bit (used_map (kernel_pool (pages s'))) i = bit (used_map (kernel_pool m0)) i).
Proof.
  intros Hkd Hh0 Hc.
  destruct (client_run descs_at m0 h0 client n Hkd Hh0 Hc) as (s1 & h & s' & B & ar & fl & ? & ? & ? & Hs & Hh).
  pose proof (mi_pool (he_inv _ _ _ _ Hh)) as Hp.
  exists s1, h, s'. split_and!; [done|done|apply Hp|apply Hp| |].
  - intros i Hi Hb. apply (pi_used Hp); [done|]. by left.
  - intros Hnone i Hi. assert (B = ∅) as ->.
    { apply dom_empty_inv_L. rewrite (seen_dom _ _ _ _ Hs Hnone). apply dom_empty_L. }
    apply no_blocks_no_arenas in Hh as ->.
    pose proof (pi_used Hp i Hi) as Hu. destruct (bit (used_map (kernel_pool m0)) i).
    + apply Hu. by left.
    + apply not_true_is_false. intros Hb. apply Hu in Hb as [?|(? & ? & ? & _)]; done.
Qed.

Lemma allocator_returns_pages_witness :
  ∃ s1 h s',
    Ops.malloc_init example_descs (mk_mstate (block_machine 1) zero_headers []) = Ok (tt, s1) ∧
    play example_descs example_client 3 [] s1 = Ok (h, s') ∧
    (seen example_client h ∅ → bit (used_map (kernel_pool (pages s'))) 1 = false).
Proof.
  destruct (allocator_returns_pages example_descs (block_machine 1) zero_headers example_client 3
    (block_machine_data 1 ltac:(unfold is_u32; lia)) zero_headers_ok example_client_polite)
    as (s1 & h & s' & E1 & E2 & _ & _ & _ & Hr).
  exists s1, h, s'. split; [exact E1|]. split; [exact E2|]. intros Hs.
  apply (Hr Hs 1). split; reflexivity || discriminate.
Defined.

(** C14: with any blocks in use, [malloc] of a size that the sum in it can
    count returns a null pointer only for size 0 or when the kernel pool has
    no run of free pages that the request needs, and then changes nothing. *)
Theorem malloc_fails_only_when_full descs_at m0 s B size s' :
  kernel_data descs_at m0 → holds (descs_at := descs_at) (m0 := m0) s B →
  0 < size → size + 4107 < 2 ^ 32 →
  Ops.malloc descs_at size s = Ok (NULL, s') →
  s' = s ∧ exhausted KernelPool (pages_needed size) (pages s).
Proof.
  intros Hkd (ar & fl & Hh) Hpos Hsz E.
  pose proof (malloc_live s ar fl size (he_inv _ _ _ _ Hh) (he_busy _ _ _ _ Hh)) as Hm.
  apply wp_ok in Hm as (r & s2 & E2 & Hm); [|unfold is_u32; lia].
  rewrite E in E2. injection E2 as <- <-. destruct Hm as [(_ & -> & [?|[Hz|He]])|(_ & ? & _)]; [lia| |done|done].
  exfalso. unfold pages_needed, sizeof_arena in Hz. destruct (Z.leb_spec size 1024); [done|].
  rewrite PGSIZE_eq, u32_id in Hz by (unfold is_u32; lia).
  pose proof (Z.div_mod (size + 12 + 4096 - 1) 4096).
  pose proof (Z.mod_pos_bound (size + 12 + 4096 - 1) 4096). lia.
Qed.

(** The state after [malloc_init] with every kernel page in use. *)
Definition full_start (m : mem) : mstate :=
  match Ops.malloc_init example_descs (mk_mstate (three_pages m 7) zero_headers []) with
  | Ok (_, s) => s
  | _ => mk_mstate (three_pages m 7) ∅ []
  end.

Lemma full_start_init m :
  Ops.malloc_init example_descs (mk_mstate (three_pages m 7) zero_headers []) = Ok (tt, full_start m).
Proof. vm_compute. reflexivity. Qed.

Lemma full_start_fails m : Ops.malloc example_descs 100 (full_start m) = Ok (NULL, full_start m).
Proof. vm_compute. reflexivity. Qed.

Lemma malloc_fails_only_when_full_witness :
  ∃ s s', Ops.malloc example_descs 100 s = Ok (NULL, s') ∧
    s' = s ∧ exhausted KernelPool (pages_needed 100) (pages s).
Proof.
  pose proof (block_machine_data 7 ltac:(unfold is_u32; lia)) as Hkd.
  pose proof (full_start_fails (zeros 0xc0100000 16384)) as E2.
  pose proof (init_holds example_descs (block_machine 7) zero_headers _ Hkd zero_headers_ok
    (full_start_init (zeros 0xc0100000 16384))) as HB.
  eexists _, _. split; [exact E2|].
  exact (malloc_fails_only_when_full example_descs (block_machine 7) _ ∅ 100 _ Hkd HB
    ltac:(lia) ltac:(lia) E2).
Defined.
End BlockAllocator.
