(* ===== verification/Findings.v ===== *)
(** Behaviours of the code that differ from what its comments and its callers
    expect, each shown on a small concrete state by running the model. *)
From Stdlib Require Import ZArith Lia.
From stdpp Require Import base tactics option numbers list gmap.
From S2P Require Import Prelude Bytes Disk FsState Inode.
From S2P Require Bitmap Cache CString CStdlib Stdio Palloc Vm VmFiles MemTheorems VmTheorems.
From S2P Require Malloc MallocTheorems Threads SchedInv SchedOps ThreadTheorems.
From S2P Require Import FsTheorems.

Open Scope Z_scope.

(** What a run returns, without the final state. *)
Definition result {S A} (m : M S A) (s : S) : outcome A :=
  match m s with Ok (a, _) => Ok a | Panic => Panic | Undef => Undef | NoFuel => NoFuel end.

(** * [filesys/inode.c] *)
Module Files.
Definition grow (ip length : Z) : M fs bool := inode_grow zeros (allocator zeros) ip length.
Definition write (ip : Z) (buffer : bytes) (size offset : Z) : M fs Z :=
  inode_write_at zeros (allocator zeros) ip buffer size offset.

(** [inode_grow] returns [-1] as a [bool], that is [true], when no sector is
    free: its callers' test for [-1] never fires. *)
Example grow_on_full_disk_succeeds : result (grow 41 512) Sample.full = Ok true.
Proof. vm_compute. reflexivity. Qed.

(** A write past the end of a file is not visible to readers where it was
    made: [length_shown] advances by the bytes written, not to their end. *)
Example sparse_write_is_hidden :
  result (n ← write 41 [7] 1 10; r ← inode_read_at 41 [0] 1 10; mret (n, r)) Sample.s0 =
  Ok (1, (0, [0])).
Proof. vm_compute. reflexivity. Qed.

(** A write of no bytes past the end extends the file. *)
Example empty_write_extends :
  result (n ← write 41 [] 0 600; len ← inode_length 41; mret (n, len)) Sample.s0 = Ok (0, 600).
Proof. vm_compute. reflexivity. Qed.

(** [inode_close] of a removed file releases its sectors but leaves them in the
    cache, and whoever takes them next clears them with [disk_write], past the
    cache: the removed file's bytes are read from the new file. *)
Definition remove_file (ip : Z) : M fs unit := inode_remove ip;; inode_close zeros ip.

(** A new file of [len] bytes, open. *)
Definition new_file (len : Z) : M fs Z :=
  k ← free_map_allocate zeros 2 1;
  inode_create zeros (default 0 k) len false;; inode_open (default 0 k).

Example stale_create :
  result (write 41 [7; 7; 7; 7] 4 0;; remove_file 41;;
          ip ← new_file 4; inode_read_at ip [0; 0; 0; 0] 4 0) Sample.s0 = Ok (4, [7; 7; 7; 7]).
Proof. vm_compute. reflexivity. Qed.

(** The same in the gap before a write past the end (made twice, to show the
    whole length). *)
Example stale_gap :
  result (write 41 [7; 7; 7; 7] 4 0;; remove_file 41;;
          ip ← new_file 0; write ip [1; 1] 2 2;; write ip [1; 1] 2 2;;
          inode_read_at ip [0; 0; 0; 0] 4 0) Sample.s0 = Ok (4, [7; 7; 1; 1]).
Proof. vm_compute. reflexivity. Qed.

(** A file whose first leaf of the doubly indirect level has one free entry:
    sector 10 is the second-level block, sector 11 the leaf, and sector 12 the
    file's data block number 1284, the first one of the leaf. *)
Definition leaf_inode : inode :=
  mk_inode 3 1 false 0 (512 * 1411) (512 * 1411) 1 (replicate 14 0 ++ [10]) 14 0 127 0 1 false.
Definition leaf_system : fs :=
  set_inodes (<[41 := leaf_inode]> (inodes Sample.s0))
    (set_free_map (Bitmap.mk_bitmap 64 [2 ^ 13 - 1; 0])
      (set_cache (Cache.mk_cache (mk_disk 64
         (<[10 := words_to_bytes (11 :: 9 :: replicate 126 0)]>
          (<[11 := words_to_bytes (12 :: replicate 127 0)]> (Sample.sectors0 [2 ^ 13 - 1; 0]))))
         [] 0 false false) Sample.s0)).

(** Growing such a file by two blocks crosses into the next leaf: the code then
    stores the new leaf over the old one (it indexes with [inode->indir_idx],
    which it has not advanced), and never
    writes it: the blocks of the old leaf are lost, and the file's data is
    looked up in sector 0, the inode of the free map. *)
Example leaf_crossing_loses_blocks :
  result (a ← byte_to_sector 41 (512 * 1284);
          grow 41 (512 * 1413);;
          b ← byte_to_sector 41 (512 * 1284);
          mret (a, b)) leaf_system = Ok (12, 0).
Proof. vm_compute. reflexivity. Qed.
End Files.

(** * [lib/kernel/bitmap.c] *)
Module Bitmaps.
(** The comment of [bitmap_scan_and_flip] says it returns 0 if [cnt] is zero; it
    returns [start]. *)
Example empty_group_at_start :
  result (Bitmap.Ops.bitmap_scan_and_flip 5 0 false) (Bitmap.mk_bitmap 40 [0; 0]) = Ok 5.
Proof. vm_compute. reflexivity. Qed.
End Bitmaps.

(** * [devices/timer.c] *)
Module Sleeping.
Import Threads SchedInv SchedOps ThreadTheorems.

(** A time slice with [after] steps once it has run out. *)
Definition time_slice (after : nat) : list event :=
  [Ev_tick; Ev_resume; Ev_tick; Ev_resume; Ev_tick; Ev_resume; Ev_tick] ++ replicate after Ev_resume.

(** The main thread is to sleep until tick 100 and is preempted between the test
    and the store of [update_wakeup_call_time]; meanwhile another thread goes
    to sleep until tick 9.  The main thread's store then replaces the 9, and
    the other thread still sleeps at tick 16. *)
Definition late : list event :=
  create 12288 ++ [Ev_call (C_timer_sleep 100); Ev_resume] ++ time_slice 1 ++
  Ev_call (C_timer_sleep 5) :: replicate 8 Ev_resume ++
  time_slice 2 ++ time_slice 2 ++ time_slice 2.

Example sleeper_is_late :
  match run late Boot.booted with
  | Ok (_, k) => Some (ticks k, wakeup_call_time k, sleep_list k, wakeup_of k 12288)
  | _ => None
  end = Some (16, 100, [12288; 4096], 9).
Proof. vm_compute. reflexivity. Qed.
End Sleeping.

(** * [lib/string.c] *)
Module Strings.
(** [memmove] to a lower address returns the end of the destination. *)
Example memmove_returns_end :
  result (CString.Ops.memmove 10 11 2) ({[ 10 := 1; 11 := 2; 12 := 3 ]} : CString.mem) = Ok 12.
Proof. vm_compute. reflexivity. Qed.
End Strings.

(** * [lib/stdio.c] *)
Module Formats.
Definition collect (ch : Z) : M (CString.mem * list Z) unit := modify (λ '(m, out), (m, out ++ [ch])).

(** The format [%0*d] at address 100. *)
Definition format_mem : CString.mem := {[ 100 := 37; 101 := 48; 102 := 42; 103 := 100; 104 := 0 ]}.

(** A negative field width given by an argument sets the [-] flag after the
    [0] flag was left in place, and the number is padded on both sides:
    [printf ("%0*d", -5, 42)] prints three zeros, the number, three spaces. *)
Example negative_width_pads_twice :
  match Stdio.Ops.__vprintf collect (Stdio.mk_literals 0 0 0) 2 100 [u32 (-5); 42] (format_mem, []) with
  | Ok (_, (_, out)) => out
  | _ => []
  end = [48; 48; 48; 52; 50; 32; 32; 32].
Proof. vm_compute. reflexivity. Qed.
End Formats.

(** * [vm/frame.c] and the mappings of [userprog/syscall.c]

    On the states of [VmTheorems.Small], a process with two swapped pages. *)
Module Paging.
Import VmTheorems.Small.
#[local] Instance file_ops : Vm.FileOps fs := VmFiles.fs_file_ops zeros.

(** The process, with a mapping of its first page and the file of the free
    map open as descriptor 3. *)
Definition mapping : Vm.vm fs :=
  Vm.set_processes {[7 := Vm.mk_process MemTheorems.AddressSpaces.process_dir [1; 2] [1] 1 [(3, 50)]]} s0.

(** [munmap] frees the page but leaves it in the supplemental page table: the
    next search of the table reads freed memory. *)
Example munmap_leaves_page :
  result (Vm.Ops.munmap 0;; Vm.Ops.find_page 0x08049000) mapping = Undef.
Proof. vm_compute. reflexivity. Qed.

(** A user program stops the machine by mapping a file at an address of the
    kernel. *)
Example mmap_kernel_address_panics : result (Vm.Ops.mmap fresh 3 0xc0000000) mapping = Panic.
Proof. vm_compute. reflexivity. Qed.

(** When there is no frame and nothing to evict, [allocate_frame] reports the
    failure but has entered the null frame in the frame table. *)
Example null_frame_in_table :
  match Vm.Ops.allocate_frame 1 Palloc.PAL_USER (Vm.set_mm MemTheorems.AddressSpaces.two_spaces s0) with
  | Ok (frame, st) => frame = NULL ∧ Vm.frame_table st = [Vm.mk_fte NULL 7 1]
  | _ => False
  end.
Proof. vm_compute. split; reflexivity. Qed.
End Paging.

(** * [threads/malloc.c]

    On a machine with two free kernel pages. *)
Module Blocks.
Import MallocTheorems.

(** The size plus the header wraps around: a request for 4 GB less a byte gets
    a block of 4,084 bytes. *)
Example malloc_size_wraps :
  result (Malloc.Ops.malloc_init example_descs;;
          p ← Malloc.Ops.malloc example_descs 4294967295;
          n ← Malloc.Ops.block_size example_descs p; mret (p, n))
    (Malloc.mk_mstate (block_machine 1) zero_headers []) = Ok (0xc010100c, 4084).
Proof. vm_compute. reflexivity. Qed.

(** [calloc]'s test for overflow compares the product with the factors, which
    a wrapped product passes: 65,537 elements of 65,537 bytes get the block
    of 131,073 bytes. *)
Example calloc_size_wraps s :
  Malloc.Ops.calloc example_descs 65537 65537 s = Malloc.Ops.calloc example_descs 1 131073 s.
Proof. reflexivity. Qed.
End Blocks.
